(* ===== verification/_CoqProject ===== *)
-Q . S2P
Prelude.v
Str.v
Json.v
Codec.v
Fs.v
Plan.v
JsonMerge.v
Config.v
Reconcile.v
Tick.v
Remote.v
Net.v
Http.v
Routes.v
Cache.v
Credential.v
Proxy.v
Shared.v
Planner.v
ManagedFiles.v
MarkerFiles.v
LoopbackFiles.v
SyntaxTree.v
VsCodeSettings.v
SettingsEdit.v
Programs.v
Float.v
Sql.v
Usage.v
UsageStore.v
UsageReport.v
UsageCompaction.v
UsageIngest.v
UsageRetries.v
UsageTables.v
UsageDigest.v
Fleet.v
ControllerDb.v
ControllerRows.v
ControllerOidc.v
ControllerEnrollment.v
ControllerConfig.v
ControllerService.v
ControllerReports.v
ControllerStream.v
ControllerAccess.v
ControllerRuns.v
SecretStore.v
Identity.v
SignIn.v
Session.v
SessionFacts.v
SessionIdentity.v
SessionRefresh.v
SessionRuns.v
TokenStore.v
SubscriptionOAuth.v
GitHubOAuth.v
GatewayOidc.v
GatewayLogins.v
GatewayRuns.v
StartupArgs.v
Daemon.v
DaemonFacts.v
DaemonRuns.v
LocalApi.v
