(* ===== verification/Prelude.v ===== *)
(** * Agentdesktop: a verification library (root file)

    Agentdesktop is a daemon that keeps the configuration files of AI coding
    programs in step with a policy. The policy comes from a local file or is
    pushed by a controller; for every program a provider plans file changes; the
    plans are combined, checked and applied; each program's outcome is reported
    to the controller; a tick applies the policy again at an interval.

    ** Parts and files

    Paths are under [src/crates/].

    - [Prelude.v] (this file): results, the error-state monad [ST] (a state is
      kept when an error is returned, as Rust keeps mutations), list functions of
      the Rust iterators, saturating and wrapping 64-bit arithmetic.
    - [Str.v]: Rust's string functions on byte strings.
    - [Json.v]: [serde_json::Value]; objects are finite maps, numbers are integers
      or the bits of a finite double. Printing and parsing JSON is third-party
      code: the class [JsonCodec] has its operations and [JsonCodecLaws] what the
      program relies on (printing a float-free document of depth at most 127, the
      parser's limit, and reading it gives it back). [Codec.v] is an instance, so
      the laws can hold.
    - [Fs.v]: [agent/src/secure_fs.rs] over a file system: a map from paths to
      files (bytes, mode) and directories, a umask, and a fault for any call on
      any path. [atomic_write] tries sixteen temporary names ([randoms]).
    - [Plan.v]: [agent/src/reconcile/plan.rs]. A plan remembers what it read;
      applying checks those reads, then creates private directories, then writes.
    - [JsonMerge.v]: [agent/src/provider/json_merge.rs]: overlaying a managed
      document on the user's, the sidecar that remembers both, and the three-way
      rollback that takes the managed settings out again.
    - [Config.v]: [core/src/config.rs]: the daemon's and the controller's
      configuration, their validation and loading. URLs and YAML are parsed by
      third-party code (parameters [parse_url], [from_str]).
    - [Reconcile.v]: [agent/src/reconcile/mod.rs], [agent/src/provider/mod.rs] and
      the program choice of [core/src/model.rs]. A [Provider] is a record of
      operations and [ProviderLaws] what a provider promises (its reads are of the
      file system it is given), so the theorems hold for any providers.
    - [Tick.v]: [agent/src/tick.rs]: re-applying and publishing outcomes, with a
      step relation for the interleaving of ticks and program choice changes.
    - [Remote.v]: the push and tick arms of the connection loop of
      [agent/src/remote.rs], [agent/src/program_choice.rs], and the program choice
      handlers of [agent/src/api.rs].

    - [Net.v]: internet addresses as text (the standard library's parser and printer
      of [IpAddr] and [SocketAddr]).
    - [Http.v]: the interface of the header map and header values ([hyper]), its laws,
      and an instance.
    - [Routes.v]: [agent/src/llm_proxy/routes.rs] and the pure checks of
      [agent/src/llm_proxy.rs] on hosts and paths.
    - [Cache.v]: [agent/src/llm_proxy/cache.rs], its operations and their concurrent
      use as a step relation (tasks, flight locks, cancellation, clocks).
    - [Credential.v]: how a credential is obtained and combined with the user's
      subscription ([agent/src/subscription.rs], the credential handlers of
      [agent/src/api.rs]); the sign-ins and the controller are a record of functions,
      and the calls made to them are recorded.
    - [Proxy.v]: one request through [agent/src/llm_proxy.rs]: checks, route, headers,
      credential, at most two sends. The gateway and the clocks are [services]; other
      requests change the cache whenever it is consulted ([sv_others]).
    - [Shared.v]: [agent/src/provider/shared.rs], the URL operations and the JSON and
      TOML printers the planners use (parameters [UrlOps], [Printers], each with an
      instance), and a reference tokenizer of a POSIX shell.
    - [Planner.v]: a small program logic for planning functions ([plans], [grows],
      [scoped], [ProviderScope]): what a planner adds to a plan.
    - [ManagedFiles.v]: [agent/src/provider/grok], [codex], [opencode]: files that the
      daemon owns through a header line.
    - [MarkerFiles.v]: [claude_code], [claude_desktop]: files owned through a marker.
    - [LoopbackFiles.v]: [copilot], the chat models of [vscode], [pi]: entries merged
      into the user's files, pointed at the loopback proxy.
    - [SyntaxTree.v]: the interface of the lossless syntax tree of [jsonc-parser], its
      laws, and an instance; [VsCodeSettings.v]: [agent/src/provider/vscode/settings.rs]
      over it; [SettingsEdit.v]: what its edits do to the user's properties.
    - [Programs.v]: [agent/src/provider/vscode/mod.rs], the providers of
      [Reconciler::new], and a daemon's reconciler as a step relation.

    - [Float.v]: 64-bit floating-point numbers (the standard library's [SpecFloat]):
      reading, rounding and converting them as Rust does.
    - [Sql.v]: statements and transactions of a database, over any type of tables.
    - [Usage.v]: [usage/src/lib.rs]: measures, totals, dimensions, report windows.
    - [UsageStore.v]: [usage/src/store.rs]: the two tables as finite maps, ingestion,
      compaction, queries.
    - [UsageReport.v]: [usage/src/report.rs]; [UsageCompaction.v]: what compaction does to
      the sums a report reads.
    - [UsageIngest.v]: [usage/src/otlp.rs]; [UsageTables.v]: the rows any sequence of
      exports and compactions leads to; [UsageRetries.v]: an export that is attempted
      again, with the maintenance in between; [UsageDigest.v]: the digest of a record.

    - [Fleet.v]: the messages of [proto/proto/fleet.proto].
    - [ControllerDb.v]: [controller/src/database.rs] and [usage.rs]: the controller's
      tables with their keys, references and cascades; [ControllerRows.v]: what they hold.
    - [ControllerOidc.v]: [controller/src/oidc.rs]: pending enrollments, the key cache, the
      checks that complete an enrollment; [ControllerEnrollment.v]: these as step relations.
    - [ControllerConfig.v]: [controller/src/daemon_config.rs], and what a connected daemon
      is sent ([connect] of [controller/src/service.rs]), as a step relation.
    - [ControllerService.v]: the calls of [controller/src/service.rs], certificates
      ([device_ca.rs]), gateway tokens ([gateway_jwt.rs]) and the pages of [admin.rs].
      [ControllerReports.v], [ControllerStream.v], [ControllerAccess.v] are the theorems
      about them; [ControllerRuns.v] has concrete runs.

    - [SecretStore.v]: [agent/src/secret_store.rs] on Linux; [Identity.v]:
      [agent/src/identity.rs]: the device's identity, its secrets and their migration.
    - [SignIn.v]: [agent/src/oidc.rs] and [enrollment.rs]: both enrollment flows, the
      callback server, device polling, the token endpoint.
    - [Session.v]: the supervisor, session loop and token refresh of
      [agent/src/remote.rs] as a state machine whose events are the answers of the
      controller and the provider, sleeps, sign-outs, and the steps of credential
      requests. [SessionFacts.v], [SessionIdentity.v], [SessionRefresh.v] are the theorems
      about it; [SessionRuns.v] has concrete runs.
    - [TokenStore.v]: a sign-in's tokens as a JSON document in the secret store.
      [SubscriptionOAuth.v]: [agent/src/subscription_oauth]: the sign-in over the class
      [OAuthProvider] and its instances Anthropic and OpenAI. [GitHubOAuth.v]:
      [agent/src/github_oauth.rs]. [GatewayOidc.v]: [agent/src/gateway_oidc.rs];
      [GatewayLogins.v]: its device logins side by side, as a step relation;
      [GatewayRuns.v] has concrete runs. These are what [Credential.v] has as functions.

    - [StartupArgs.v]: the settings of a start ([DaemonArgs::resolve] of
      [agent/src/daemon.rs]) and where a client looks for the daemon; [Daemon.v]: the run
      modes of [run_until_shutdown] up to serving, over the files of [Fs.v], with the
      listeners and the environment as [startup_env]; [DaemonFacts.v] the theorems,
      [DaemonRuns.v] concrete runs. [LocalApi.v]: the socket of the local API and its
      owner, over a file system of sockets.

    A reconciliation flows [Remote.handle_push] or [Tick.apply_current], to
    [Reconcile.apply_read_under_lock] (the apply lock is the sequencing of that
    function), [plan_with_report] (each provider's plan, then
    [Plan.append_attributed]), [attributed_apply] ([Plan.apply_tracked]),
    [Fs.atomic_write]. The providers of [Programs.reconciler_providers] are the planners
    of [ManagedFiles], [MarkerFiles], [LoopbackFiles] and [VsCodeSettings]; those that
    merge call [JsonMerge]. A managed program then sends its requests to the proxy,
    [Proxy.forward], which finds the route ([Routes.match_route]), asks [Cache] or
    [Credential] for what the gateway wants, and sends the request on.

    ** What the theorems show

    - Writes ([Fs.v]): all or nothing for any fault, and success when nothing
      fails.
    - Plans ([Plan.v]): a refused plan writes nothing, a completed one leaves every
      file as planned, a failed one stops at a known operation; applying again is
      a no-op; two providers never share a file.
    - Settings ([JsonMerge.v]): managed settings are in force after a merge and the
      user's own survive it; merge then remove restores the file; merging again
      changes nothing; an edit made in between is not lost.
    - Policies ([Config.v]): [validate_daemon] accepts exactly the policies the
      specification [accepted] describes.
    - Reconciliation ([Reconcile.v], [Tick.v], [Remote.v]): the report tells what
      was written; an accepted push is saved, if not now then by the first re-apply that
      succeeds, and a rejected one changes nothing; outcomes are published in order and sent once; the program choice
      is stored, applied and reported consistently.

    - The proxy ([Routes.v], [Cache.v], [Credential.v], [Proxy.v]): only local, paired
      clients are served; what is sent to the gateway goes to its route's address and
      carries no pairing header, no API key, and no other credential than the one the
      device obtained or cached for that client; at most two sends; a cached credential is
      fresh where it is served and fetched once at a time; the path and host checks are
      exactly their specifications.
    - The programs ([Shared.v] to [Programs.v]): a planner changes the program's own
      files and of those only what the daemon wrote; the configured sandbox, gateway and
      hooks are in force in the generated documents; command lines are the words they
      mean to a shell; the edit of VS Code's settings is undone by their removal; over a
      daemon's life no other existing file changes.

    - Usage ([Usage.v] to [UsageDigest.v]): a request is counted once however often its
      record is exported within the seven days its identifier is kept, whatever fails and
      whenever the maintenance runs; what is stored is within bounds; charts and
      breakdowns add up to the totals; compaction changes no later report; the digest
      tells records apart.

    - The controller ([ControllerDb.v] to [ControllerRuns.v]): a device belongs to the user
      whose sign-in enrolled it and answers to no other; an enrollment completes once; a
      device's messages change its own rows only, and none once its user lost access; a
      gateway token names the calling user and device, by the ID token that enrolled it, and
      what the configuration allows; only configurations a daemon accepts are published or
      sent, and one that does not load is recorded as an error, and connected daemons end with
      the current one; a daemon's reports pass the controller's checks and are shown as
      they were sent; every row is of an enrolled device; the overview counts exactly.

    - The device's identity ([SecretStore.v] to [SessionRuns.v]): what is saved is loaded,
      and a save that fails anywhere leaves the old or the new identity; polling ends by
      the deadline and keeps its pace; a code is taken only from the sign-in that was
      started, and only an optional page can be skipped; an enrollment gives the identity
      of its own key and answers; no outage signs a device out; a sign-out is answered in
      every phase, and lasts unless a credential request was in flight; the published
      status is the state of the stream; as long as renewals do not overlap a refresh, a refresh
      token that was used is not presented again. Runs in which the code does less than
      that are computed in [SessionRuns.v].

    - The sign-ins ([TokenStore.v] to [GatewayRuns.v]): a credential is that of the stored
      tokens, and tokens the provider replaced are stored before they are used; the
      endpoint that tokens are refreshed at is HTTPS, or loopback where that is allowed (the
      requests themselves, with any redirect the HTTP client follows, are the parameter
      [post]); an account has one device sign-in
      at a time, which is shown as long as it lasts, and it ends; the page of a GitHub
      sign-in says how it ended; a combined credential has one reading.

    - A start ([StartupArgs.v] to [LocalApi.v]): the proxy that the managed files name is
      served, with the pairing value they carry, which lasts; a preview changes nothing; a
      start changes the programs' files and the pairing file only; a restarted daemon
      enforces what the controller sent last; it asks only for sign-ins that are used; the
      local API's socket belongs to those it is meant for.

    ** Bounds and fuel

    Recursion is structural, or on a list of known length: the sixteen temporary
    names, the lines of a report. [Str.trim], UTF-8 decoding and [trim_bom] use the
    length of the string as fuel, and each step consumes at least one byte. A
    reported detail is at most 1,024 bytes ([DETAIL_LIMIT]).
    The proxy's send loop has fuel two, and [Proxy.at_most_one_retry] states that two
    attempts are enough: it always returns a response or an error. The instants of the
    cache are unbounded integers.

    Polling for a device authorization takes [SignIn.poll_fuel] turns, which
    [SignIn.device_polling_ends] and [GatewayLogins.pending_sign_ins_end] show to be
    enough; GitHub's polling has [GitHubOAuth.poll_fuel], which the lemma
    [github_polling_spec] shows to be enough.

    A token or cost amount is bounded by its record's limits; sums of the database are
    exact where they fit 64 bits ([SqlArithmeticLaws]), and theorems about sums say so.

    ** Interference and limits of the model

    [Cache.v] lets other tasks run between any two steps of a task; a request in
    [Proxy.v] sees the cache changed arbitrarily between its own operations. A fetch that
    its task abandoned at a timeout is not recorded as a call. Creating a file that a
    failed write leaves behind under a temporary name is possible, so
    [Programs.only_program_files_change] is about the files that existed.

    The controller's calls are sequences of database statements; a step of
    [ControllerAccess.service_step] is a whole call, so the interleaving of the statements
    of two calls is not modelled. Its enrollments and keys may change arbitrarily between
    calls, and the identity provider answers anything.

    In [GatewayLogins.v] a section under the lock of the stored tokens is one step, since
    everything that reads or writes them holds it; a caller may go away at any wait.

    ** Not modelled

    Windows and macOS branches (registry, access control lists, configuration
    profiles), program discovery, the proxy's listener and the byte relay of tunnels,
    the daemon's server loop and log files, the network requests and the HTML pages of
    the sign-in protocols, opening databases and running migrations, the servers'
    listeners and embedded assets, and the user interfaces. *)

From Stdlib Require Export ZArith Lia Ascii.
From stdpp Require Export prelude gmap strings list fin_maps sorting.
#[global] Open Scope string_scope.
#[global] Open Scope Z_scope.
#[global] Open Scope list_scope.

(** ** Notations, results and the error-state monad *)

Declare Scope rust_scope.
Delimit Scope rust_scope with rust.

(** Rust's [Result<A, E>]. *)
Inductive result (A E : Type) : Type :=
| Ok (a : A)
| Err (e : E).
Arguments Ok {A E} a.
Arguments Err {A E} e.

#[global] Instance result_eq_dec {A E} `{EqDecision A, EqDecision E} :
  EqDecision (result A E).
Proof. solve_decision. Defined.

Definition is_ok {A E} (r : result A E) : bool :=
  match r with Ok _ => true | Err _ => false end.

(** [Result::map_err]. *)
Definition map_err {A E F} (f : E -> F) (r : result A E) : result A F :=
  match r with Ok a => Ok a | Err e => Err (f e) end.

(** [Result::ok]. *)
Definition result_ok {A E} (r : result A E) : option A :=
  match r with Ok a => Some a | Err _ => None end.

(** A result that is a success, by its value; a run that succeeds, by its state. *)
Definition ok_value {A E} (d : A) (r : result A E) : A := match r with Ok a => a | Err _ => d end.
Lemma value_of_ok {A E} (d : A) (r : result A E) : is_ok r = true -> r = Ok (ok_value d r).
Proof. by destruct r. Qed.
Lemma state_of_ok {E S} (x : result unit E * S) : is_ok (fst x) = true -> x = (Ok tt, snd x).
Proof. by destruct x as [[[]|] ?]. Qed.

(** [Option::ok_or]. *)
Definition ok_or {A E} (o : option A) (e : E) : result A E :=
  match o with Some a => Ok a | None => Err e end.

(** [option_filter p o] is [Option::filter]. *)
Definition option_filter {A} (p : A -> bool) (o : option A) : option A :=
  match o with Some a => if p a then Some a else None | None => None end.

(** [Option::is_some_and] and [Option::is_none_or]. *)
Definition is_some_and {A} (p : A -> bool) (o : option A) : bool :=
  match o with Some a => p a | None => false end.
Definition is_none_or {A} (p : A -> bool) (o : option A) : bool :=
  match o with Some a => p a | None => true end.

(** Fallible code that threads a state: the state survives an error, as a
    mutation made before an early return does. *)
Definition ST (S E A : Type) : Type := S -> result A E * S.

Definition st_ret {S E A} (a : A) : ST S E A := fun s => (Ok a, s).
Definition st_err {S E A} (e : E) : ST S E A := fun s => (Err e, s).
Definition st_bind {S E A B} (m : ST S E A) (k : A -> ST S E B) : ST S E B :=
  fun s => match m s with
           | (Ok a, s') => k a s'
           | (Err e, s') => (Err e, s')
           end.

Notation "'let*' x ':=' m 'in' k" := (st_bind m (fun x => k))
  (at level 10, x pattern, m at level 100, k at level 200,
   format "'let*'  x  ':='  m  'in'  '//' k") : rust_scope.
Notation "m ';*' k" := (st_bind m (fun _ => k))
  (at level 199, k at level 200, right associativity,
   format "m  ';*'  '//' k") : rust_scope.
Notation "'let?' x ':=' r 'in' k" :=
  (match r with Ok x => k | Err e => Err e end)
  (at level 10, x pattern, r at level 100, k at level 200,
   format "'let?'  x  ':='  r  'in'  '//' k") : rust_scope.
#[global] Open Scope rust_scope.

Definition st_map_err {S E F A} (f : E -> F) (m : ST S E A) : ST S F A :=
  fun s => match m s with
           | (Ok a, s') => (Ok a, s')
           | (Err e, s') => (Err (f e), s')
           end.

(** [for x in l { body(x)?; }]. *)
Fixpoint st_iter {S E A} (body : A -> ST S E unit) (l : list A) : ST S E unit :=
  match l with
  | [] => st_ret tt
  | x :: l => body x ;* st_iter body l
  end.

(** [anyhow]'s [context], rendered with [{:#}]. *)
Definition context (msg : string) (e : string) : string := msg +:+ ": " +:+ e.

(** A run, by what it did last. *)
Lemma st_map_err_inv {S E F A} (f : E -> F) (m : ST S E A) s r s' :
  st_map_err f m s = (r, s') -> exists r0, m s = (r0, s') /\ r = map_err f r0.
Proof. unfold st_map_err. destruct (m s) as [[a|e] s1]; naive_solver. Qed.
Lemma st_bind_inv {S E A B} (m : ST S E A) (k : A -> ST S E B) s r s' :
  st_bind m k s = (r, s') ->
  (exists e, m s = (Err e, s') /\ r = Err e) \/
  (exists a s1, m s = (Ok a, s1) /\ k a s1 = (r, s')).
Proof. unfold st_bind. destruct (m s) as [[a|e] s1]; naive_solver. Qed.

(** ** Tactics *)

(** Inversion of a monadic bind that returned [Ok]. *)
Ltac st_inv H :=
  lazymatch type of H with
  | st_bind ?m ?k ?s = (Ok _, _) =>
      let r := fresh "r" in let s' := fresh "s" in let E := fresh "E" in
      unfold st_bind at 1 in H; destruct (m s) as [[r|?] s'] eqn:E; [|discriminate H]
  end.

Create HintDb agentdesktop discriminated.

(** ** Logic *)

Lemma and_iff_both (A B C D : Prop) : (A <-> C) -> (B <-> D) -> (A /\ B <-> C /\ D).
Proof. tauto. Qed.

(** ** Lists *)

Section lists.
Context {A : Type}.

(** [Iterator::any], [all] and [find]. *)
Fixpoint any (p : A -> bool) (l : list A) : bool :=
  match l with [] => false | x :: l => p x || any p l end.
Fixpoint all (p : A -> bool) (l : list A) : bool :=
  match l with [] => true | x :: l => p x && all p l end.
Fixpoint find (p : A -> bool) (l : list A) : option A :=
  match l with [] => None | x :: l => if p x then Some x else find p l end.
Fixpoint find_map {B} (f : A -> option B) (l : list A) : option B :=
  match l with
  | [] => None
  | x :: l => match f x with Some b => Some b | None => find_map f l end
  end.
Fixpoint filter_map {B} (f : A -> option B) (l : list A) : list B :=
  match l with
  | [] => []
  | x :: l => match f x with Some b => b :: filter_map f l | None => filter_map f l end
  end.
(** [Vec::retain] with a boolean test. *)
Fixpoint retain (p : A -> bool) (l : list A) : list A :=
  match l with [] => [] | x :: l => if p x then x :: retain p l else retain p l end.

Lemma any_true p l : any p l = true <-> exists x, x ∈ l /\ p x = true.
Proof.
  induction l as [|y l IH]; simpl.
  - split; [done|]. intros (x & Hx & _). by apply not_elem_of_nil in Hx.
  - rewrite orb_true_iff, IH. split.
    + intros [Hy|(x & Hx & Hp)]; [exists y|exists x]; by set_solver.
    + intros (x & [->|Hx]%elem_of_cons & Hp); [by left|right; eauto].
Qed.

Lemma any_false p l : any p l = false <-> forall x, x ∈ l -> p x = false.
Proof.
  rewrite <- not_true_iff_false, any_true. split.
  - intros H x Hx. apply not_true_iff_false. intros Hp. apply H. eauto.
  - intros H (x & Hx & Hp). rewrite H in Hp by done. discriminate.
Qed.

Lemma any_app p (l1 l2 : list A) : any p (l1 ++ l2)%list = any p l1 || any p l2.
Proof. induction l1 as [|x l1 IH]; simpl; [done|]. rewrite IH. apply orb_assoc. Qed.
Lemma any_ext p q l : (forall x, x ∈ l -> p x = q x) -> any p l = any q l.
Proof.
  induction l as [|x l IH]; simpl; intros H; [done|]. rewrite H by set_solver. f_equal.
  apply IH. set_solver.
Qed.

Lemma all_true p l : all p l = true <-> forall x, x ∈ l -> p x = true.
Proof.
  induction l as [|y l IH]; simpl; [set_solver|].
  rewrite andb_true_iff, IH. set_solver.
Qed.

Lemma find_some p l x : find p l = Some x -> x ∈ l /\ p x = true.
Proof.
  induction l as [|y l IH]; simpl; [done|]. destruct (p y) eqn:E; intros H.
  - simplify_eq. set_solver.
  - apply IH in H. set_solver.
Qed.

Lemma find_none p l : find p l = None <-> forall x, x ∈ l -> p x = false.
Proof.
  induction l as [|y l IH]; simpl; [set_solver|].
  destruct (p y) eqn:E; split; intros H.
  - done.
  - rewrite H in E by set_solver. done.
  - intros x [->|Hx]%elem_of_cons; [done|]. by apply IH.
  - apply IH. set_solver.
Qed.

Lemma elem_of_retain p l x : x ∈ retain p l <-> x ∈ l /\ p x = true.
Proof.
  induction l as [|y l IH]; simpl; [set_solver|].
  destruct (p y) eqn:E; rewrite ?elem_of_cons, IH; naive_solver congruence.
Qed.

Lemma retain_all p l : (forall x, x ∈ l -> p x = true) -> retain p l = l.
Proof.
  induction l as [|y l IH]; simpl; intros H; [done|].
  rewrite H by set_solver. f_equal. apply IH. set_solver.
Qed.

Lemma retain_app p (l1 l2 : list A) :
  retain p (l1 ++ l2)%list = (retain p l1 ++ retain p l2)%list.
Proof. induction l1 as [|x l1 IH]; simpl; [done|]. destruct (p x); simpl; by rewrite IH. Qed.
Lemma retain_none p l :
  (forall x, x ∈ l -> p x = false) -> retain p l = [].
Proof.
  induction l as [|x l IH]; intros H; simpl; [done|]. rewrite H by apply list_elem_of_here.
  apply IH. intros y Hy. apply H. by apply list_elem_of_further.
Qed.

Lemma retain_sublist p l : retain p l `sublist_of` l.
Proof.
  induction l as [|y l IH]; simpl; [constructor|].
  destruct (p y); by constructor.
Qed.

Lemma filter_map_sublist {B} (f : A -> option B) (g : B -> A) l :
  (forall x b, f x = Some b -> g b = x) -> map g (filter_map f l) `sublist_of` l.
Proof.
  intros Hg. induction l as [|y l IH]; simpl; [constructor|].
  destruct (f y) eqn:E; simpl; [|by constructor].
  rewrite (Hg _ _ E). by constructor.
Qed.

Lemma find_map_Some {B} (f : A -> option B) l b :
  find_map f l = Some b -> exists x, x ∈ l /\ f x = Some b.
Proof.
  induction l as [|x l IH]; [done|]. simpl. setoid_rewrite elem_of_cons.
  destruct (f x) eqn:E; [intros [= ->]|]; naive_solver.
Qed.
Lemma find_map_None {B} (f : A -> option B) l :
  find_map f l = None <-> forall x, x ∈ l -> f x = None.
Proof.
  induction l as [|x l IH]; simpl; [set_solver|]. setoid_rewrite elem_of_cons.
  destruct (f x) as [b|] eqn:E; [|rewrite IH; naive_solver].
  split; [done|]. intros H. rewrite H in E; [done|by left].
Qed.
Lemma elem_of_filter_map {B} (f : A -> option B) l b :
  b ∈ filter_map f l <-> exists x, x ∈ l /\ f x = Some b.
Proof.
  induction l as [|y l IH]; simpl; [set_solver|].
  destruct (f y) eqn:E; [rewrite elem_of_cons|]; rewrite IH;
    setoid_rewrite elem_of_cons; naive_solver.
Qed.
End lists.

Lemma any_map {A B} (f : A -> B) (p : B -> bool) l : any p (map f l) = any (fun x => p (f x)) l.
Proof. induction l as [|x l IH]; simpl; [done|]. by rewrite IH. Qed.

Section remove_first.
Context {A : Type} `{EqDecision A}.

(** [if let Some(index) = l.iter().position(|e| e == x) { l.remove(index); }]:
    the first occurrence is taken out, and whether there was one. *)
Fixpoint remove_first (x : A) (l : list A) : option (list A) :=
  match l with
  | [] => None
  | y :: l =>
      if decide (y = x) then Some l
      else match remove_first x l with Some l' => Some (y :: l') | None => None end
  end.

Lemma remove_first_app_r x l1 l2 :
  x ∉ l1 -> remove_first x (l1 ++ x :: l2)%list = Some (l1 ++ l2)%list.
Proof.
  induction l1 as [|y l1 IH]; simpl; intros Hx.
  - by rewrite decide_True.
  - rewrite decide_False by set_solver. rewrite IH by set_solver. done.
Qed.

Lemma remove_first_None x l : remove_first x l = None <-> x ∉ l.
Proof.
  induction l as [|y l IH]; simpl; [set_solver|].
  destruct (decide (y = x)) as [->|Hne]; [set_solver|].
  destruct (remove_first x l) eqn:E; set_solver.
Qed.
End remove_first.

(** ** Machine integers

    A [w]-bit integer is a [Z]; the operations that overflow say how. *)

Definition U64_MAX : Z := 2 ^ 64 - 1.
Definition I64_MAX : Z := 2 ^ 63 - 1.
Definition I64_MIN : Z := - 2 ^ 63.

Definition clamp (lo hi z : Z) : Z := Z.max lo (Z.min hi z).

(** [i64::saturating_add]. *)
Definition i64_saturating_add (a b : Z) : Z := clamp I64_MIN I64_MAX (a + b).
(** [u64::saturating_sub]. *)
Definition u64_saturating_sub (a b : Z) : Z := Z.max 0 (a - b).
(** [u64] addition in a release build. *)
Definition u64_wrapping_add (a b : Z) : Z := (a + b) mod 2 ^ 64.

Definition in_i64 (z : Z) : bool := (I64_MIN <=? z) && (z <=? I64_MAX).
Definition in_u64 (z : Z) : bool := (0 <=? z) && (z <=? U64_MAX).

Lemma i64_saturating_add_range a b :
  I64_MIN <= i64_saturating_add a b <= I64_MAX.
Proof. unfold i64_saturating_add, clamp, I64_MIN, I64_MAX. lia. Qed.

Lemma i64_saturating_add_exact a b :
  I64_MIN <= a + b <= I64_MAX -> i64_saturating_add a b = a + b.
Proof. unfold i64_saturating_add, clamp. lia. Qed.

Lemma u64_wrapping_add_exact a b :
  0 <= a + b <= U64_MAX -> u64_wrapping_add a b = a + b.
Proof. unfold u64_wrapping_add, U64_MAX. intros. apply Z.mod_small. lia. Qed.
