(* ===== verification/Str.v ===== *)
(** * Rust strings and byte strings

    A [String], [&str], [Vec<u8>] or [&[u8]] is a Stdlib [string], read as its
    bytes: the [str] methods the code calls ([strip_prefix], [split_once],
    [trim], [eq_ignore_ascii_case], ...) and the UTF-8 functions
    ([from_utf8_lossy], [is_char_boundary]), with the lemmas the components use. *)

From stdpp Require Import pretty.
From S2P Require Import Prelude.

Definition byte_of (a : ascii) : Z := Z.of_N (N_of_ascii a).
Definition of_byte (z : Z) : ascii := ascii_of_N (Z.to_N z).
Definition in_range (lo hi : Z) (a : ascii) : bool :=
  (lo <=? byte_of a) && (byte_of a <=? hi).
Notation "c =a b" := (Ascii.eqb c b) (at level 70) : rust_scope.

Definition is_empty (s : string) : bool :=
  match s with EmptyString => true | _ => false end.

(** ** Prefixes, searching and splitting *)

(** [s.strip_prefix(p)]. *)
Fixpoint strip_prefix (p s : string) : option string :=
  match p, s with
  | EmptyString, _ => Some s
  | String a p, String b s => if Ascii.eqb a b then strip_prefix p s else None
  | String _ _, EmptyString => None
  end.

Definition starts_with (p s : string) : bool :=
  match strip_prefix p s with Some _ => true | None => false end.
Fixpoint ends_with (p s : string) : bool :=
  String.eqb p s || match s with String _ s => ends_with p s | EmptyString => false end.

(** [s.split_once(c)]: around the first [c]. *)
Fixpoint split_once (c : ascii) (s : string) : option (string * string) :=
  match s with
  | EmptyString => None
  | String a s =>
      if Ascii.eqb a c then Some (EmptyString, s)
      else match split_once c s with
           | Some (l, r) => Some (String a l, r)
           | None => None
           end
  end.

(** [s.rsplit_once(c)]: around the last [c]. *)
Fixpoint rsplit_once (c : ascii) (s : string) : option (string * string) :=
  match s with
  | EmptyString => None
  | String a s =>
      match rsplit_once c s with
      | Some (l, r) => Some (String a l, r)
      | None => if Ascii.eqb a c then Some (EmptyString, s) else None
      end
  end.

(** [s.split(p)] for a byte predicate: the segments between separators. *)
Fixpoint split_on (p : ascii -> bool) (s : string) : list string :=
  match s with
  | EmptyString => [EmptyString]
  | String a s =>
      if p a then EmptyString :: split_on p s
      else match split_on p s with
           | seg :: segs => String a seg :: segs
           | [] => [String a EmptyString]
           end
  end.
Definition split (c : ascii) (s : string) : list string := split_on (fun a => Ascii.eqb a c) s.

(** [s.trim_start_matches(c)] and [s.trim_end_matches(c)]. *)
Fixpoint trim_start_matches (c : ascii) (s : string) : string :=
  match s with
  | String a s' => if Ascii.eqb a c then trim_start_matches c s' else s
  | EmptyString => s
  end.
Fixpoint trim_end_matches (c : ascii) (s : string) : string :=
  match s with
  | EmptyString => EmptyString
  | String a s' =>
      match trim_end_matches c s' with
      | EmptyString => if Ascii.eqb a c then EmptyString else String a EmptyString
      | s'' => String a s''
      end
  end.

(** [parts.join(sep)]. *)
Fixpoint join (sep : string) (parts : list string) : string :=
  match parts with
  | [] => EmptyString
  | [p] => p
  | p :: parts => p +:+ sep +:+ join sep parts
  end.

(** The number of occurrences of a byte, [s.matches(c).count()]. *)
Fixpoint count_char (c : ascii) (s : string) : nat :=
  match s with
  | EmptyString => 0
  | String a s => if Ascii.eqb a c then S (count_char c s) else count_char c s
  end.

Fixpoint str_all (p : ascii -> bool) (s : string) : bool :=
  match s with EmptyString => true | String a s => p a && str_all p s end.

(** ** ASCII classes and case *)

Definition is_ascii_digit := in_range 48 57.
Definition is_ascii_upper := in_range 65 90.
Definition is_ascii_lower := in_range 97 122.
Definition is_ascii_alphanumeric (a : ascii) : bool :=
  is_ascii_digit a || is_ascii_upper a || is_ascii_lower a.
Definition is_ascii_hexdigit (a : ascii) : bool :=
  is_ascii_digit a || in_range 65 70 a || in_range 97 102 a.
Definition is_ascii_graphic := in_range 33 126.

(** [u8::is_ascii_whitespace]: space, tab, line feed, form feed, carriage
    return (not the vertical tab). *)
Definition is_ascii_whitespace (a : ascii) : bool :=
  let b := byte_of a in
  (b =? 32) || (b =? 9) || (b =? 10) || (b =? 12) || (b =? 13).

Definition to_ascii_lower (a : ascii) : ascii :=
  if is_ascii_upper a then of_byte (byte_of a + 32) else a.
Fixpoint to_ascii_lowercase (s : string) : string :=
  match s with
  | EmptyString => EmptyString
  | String a s => String (to_ascii_lower a) (to_ascii_lowercase s)
  end.
Definition eq_ignore_ascii_case (s t : string) : bool :=
  String.eqb (to_ascii_lowercase s) (to_ascii_lowercase t).

(** ** [str::trim]: Unicode white space, by its UTF-8 encodings *)

(** The byte length of a white-space character at the head of [s], or 0. *)
Definition whitespace_width (s : list Z) : nat :=
  match s with
  | b :: rest =>
      if ((9 <=? b) && (b <=? 13)) || (b =? 32) then 1%nat
      else match b, rest with
           | 194, c :: _ => if (c =? 133) || (c =? 160) then 2%nat else 0%nat
           | 225, 154 :: 128 :: _ => 3%nat
           | 226, 128 :: c :: _ =>
               if ((128 <=? c) && (c <=? 138)) || (c =? 168) || (c =? 169) || (c =? 175)
               then 3%nat else 0%nat
           | 226, 129 :: 159 :: _ => 3%nat
           | 227, 128 :: 128 :: _ => 3%nat
           | _, _ => 0%nat
           end
  | [] => 0%nat
  end.

Definition bytes (s : string) : list Z := map byte_of (String.list_ascii_of_string s).
Definition of_bytes (l : list Z) : string := String.string_of_list_ascii (map of_byte l).

Fixpoint trim_start_fuel (fuel : nat) (s : list Z) : list Z :=
  match fuel with
  | O => s
  | S fuel =>
      match whitespace_width s with
      | O => s
      | w => trim_start_fuel fuel (drop w s)
      end
  end.

(** The same from the end: a white-space character's bytes, reversed. *)
Definition whitespace_width_rev (r : list Z) : nat :=
  if Nat.eqb (whitespace_width (take 1 r)) 1 then 1%nat
  else if Nat.eqb (whitespace_width (rev (take 2 r))) 2 then 2%nat
  else if Nat.eqb (whitespace_width (rev (take 3 r))) 3 then 3%nat
  else 0%nat.
Fixpoint trim_end_fuel (fuel : nat) (r : list Z) : list Z :=
  match fuel with
  | O => r
  | S fuel =>
      match whitespace_width_rev r with
      | O => r
      | w => trim_end_fuel fuel (drop w r)
      end
  end.
Definition trim (s : string) : string :=
  let l := bytes s in
  let l := trim_start_fuel (length l) l in
  of_bytes (rev (trim_end_fuel (length l) (rev l))).

(** [s.chars().filter(|c| !c.is_whitespace()).collect()]: a continuation byte is
    never the first byte of a white-space character. *)
Fixpoint drop_whitespace_fuel (fuel : nat) (l : list Z) : list Z :=
  match fuel, l with
  | S fuel, b :: rest =>
      match whitespace_width l with
      | O => b :: drop_whitespace_fuel fuel rest
      | w => drop_whitespace_fuel fuel (drop w l)
      end
  | _, _ => []
  end.
Definition drop_whitespace (s : string) : string :=
  of_bytes (drop_whitespace_fuel (String.length s) (bytes s)).

(** ** UTF-8 *)

Definition is_cont (b : Z) : bool := (128 <=? b) && (b <=? 191).

(** The well-formed character at the head of a byte list ([inl], its length)
    or the length of the maximal ill-formed part ([inr]), as the standard
    library's decoder splits them. *)
Definition utf8_head (b : Z) (rest : list Z) : nat + nat :=
  let nth i := nth i rest (-1) in
  if b <? 128 then inl 1%nat
  else if (194 <=? b) && (b <=? 223) then
    if is_cont (nth 0%nat) then inl 2%nat else inr 1%nat
  else if (224 <=? b) && (b <=? 239) then
    let c := nth 0%nat in
    let second :=
      if b =? 224 then (160 <=? c) && (c <=? 191)
      else if b =? 237 then (128 <=? c) && (c <=? 159)
      else is_cont c in
    if negb second then inr 1%nat
    else if is_cont (nth 1%nat) then inl 3%nat else inr 2%nat
  else if (240 <=? b) && (b <=? 244) then
    let c := nth 0%nat in
    let second :=
      if b =? 240 then (144 <=? c) && (c <=? 191)
      else if b =? 244 then (128 <=? c) && (c <=? 143)
      else is_cont c in
    if negb second then inr 1%nat
    else if negb (is_cont (nth 1%nat)) then inr 2%nat
    else if is_cont (nth 2%nat) then inl 4%nat else inr 3%nat
  else inr 1%nat.

(** U+FFFD. *)
Definition replacement : list Z := [239; 191; 189].

Fixpoint utf8_lossy_fuel (fuel : nat) (l : list Z) : list Z :=
  match fuel, l with
  | S fuel, b :: rest =>
      match utf8_head b rest with
      | inl n => (take n l ++ utf8_lossy_fuel fuel (drop n l))%list
      | inr n => (replacement ++ utf8_lossy_fuel fuel (drop n l))%list
      end
  | _, _ => []
  end.
(** [String::from_utf8_lossy]. *)
Definition from_utf8_lossy (s : string) : string :=
  of_bytes (utf8_lossy_fuel (String.length s) (bytes s)).

Fixpoint utf8_valid_fuel (fuel : nat) (l : list Z) : bool :=
  match fuel, l with
  | S fuel, b :: rest =>
      match utf8_head b rest with
      | inl n => utf8_valid_fuel fuel (drop n l)
      | inr _ => false
      end
  | _, [] => true
  | O, _ :: _ => false
  end.
(** Whether [str::from_utf8] accepts the bytes. *)
Definition utf8_valid (s : string) : bool := utf8_valid_fuel (String.length s) (bytes s).

(** [s.is_char_boundary(i)]: the ends, and every byte that is not a
    continuation byte. *)
Definition is_char_boundary (s : string) (i : nat) : bool :=
  if Nat.eqb i 0 then true
  else match String.get i s with
       | None => Nat.eqb i (String.length s)
       | Some a => negb (is_cont (byte_of a))
       end.

(** ** Formatting *)

(** [{}] of a non-negative integer. *)
Definition fmt_nat (n : nat) : string := pretty n.

Definition hex_digit (n : Z) : ascii :=
  of_byte (if n <? 10 then 48 + n else 87 + n).
Definition hex_digit_upper (n : Z) : ascii :=
  of_byte (if n <? 10 then 48 + n else 55 + n).
Fixpoint hex_width (w : nat) (z : Z) (acc : string) : string :=
  match w with
  | O => acc
  | S w => hex_width w (z / 16) (String (hex_digit (z mod 16)) acc)
  end.
(** [{:016x}] of a [u64]. *)
Definition fmt_hex16 (z : Z) : string := hex_width 16 z EmptyString.

(** ** Lemmas *)

Lemma strip_prefix_Some p s r : strip_prefix p s = Some r <-> s = p +:+ r.
Proof.
  revert s. induction p as [|a p IH]; intros s; simpl; [naive_solver|].
  destruct s as [|b s]; [done|].
  destruct (Ascii.eqb_spec a b) as [->|Hne].
  - rewrite IH. split; [by intros ->|by intros [= ->]].
  - split; [done|]. by intros [= ->].
Qed.

Lemma starts_with_spec p s : starts_with p s = true <-> exists r, s = p +:+ r.
Proof.
  unfold starts_with. destruct (strip_prefix p s) as [r|] eqn:E.
  - apply strip_prefix_Some in E. naive_solver.
  - split; [done|]. intros [r Hr]. apply strip_prefix_Some in Hr. congruence.
Qed.

(** A string has no byte [c]. *)
Definition lacks (c : ascii) (s : string) : Prop := str_all (fun a => negb (Ascii.eqb a c)) s = true.
#[global] Instance lacks_dec c s : Decision (lacks c s).
Proof. unfold lacks. apply _. Defined.

Lemma split_once_Some c s l r :
  split_once c s = Some (l, r) <-> s = l +:+ String c r /\ lacks c l.
Proof.
  unfold lacks. revert l. induction s as [|a s IH]; intros l; simpl.
  { split; [done|]. intros [H _]. by destruct l. }
  destruct (Ascii.eqb_spec a c) as [->|Hne].
  - split; [by intros [= <- <-]|]. intros [H Hl]. destruct l as [|b l]; simpl in *.
    + by injection H as ->.
    + injection H as -> _. by rewrite Ascii.eqb_refl in Hl.
  - assert (forall l', Some (l, r) = Some (String a l', r) <-> l = String a l') as Hs
      by naive_solver.
    destruct l as [|b l]; simpl.
    { split; [|intros [[= ->] _]; done]. destruct (split_once c s) as [[]|]; naive_solver. }
    specialize (IH l). destruct (split_once c s) as [[l' r']|]; split.
    + intros [= -> -> ->]. destruct IH as [IH _].
      destruct IH as [-> Hl]; [done|]. by destruct (Ascii.eqb_spec b c).
    + intros [[= -> ->] Hl]. apply andb_true_iff in Hl as [_ Hl].
      destruct IH as [_ IH]. specialize (IH (conj eq_refl Hl)). by injection IH as -> ->.
    + done.
    + intros [[= -> ->] Hl]. apply andb_true_iff in Hl as [_ Hl].
      destruct IH as [_ IH]. by specialize (IH (conj eq_refl Hl)).
Qed.

Lemma split_once_None c s : split_once c s = None <-> lacks c s.
Proof.
  unfold lacks. induction s as [|a s IH]; simpl; [done|].
  destruct (Ascii.eqb_spec a c); simpl; [done|].
  destruct (split_once c s) as [[]|]; [|tauto]. split; [done|]. intros H.
  apply IH in H. done.
Qed.

Lemma split_on_nonempty p s : split_on p s <> [].
Proof. induction s as [|a s IH]; simpl; [done|]. repeat case_match; done. Qed.

(** The first segment is what precedes the first separator. *)
Lemma split_head c s :
  head (split c s) =
  Some (match split_once c s with Some (l, _) => l | None => s end).
Proof.
  unfold split. induction s as [|a s IH]; simpl; [done|].
  destruct (Ascii.eqb_spec a c) as [->|Hne]; [done|].
  destruct (split_on _ s) as [|seg segs] eqn:E; [by apply split_on_nonempty in E|].
  simpl in *. injection IH as ->. by destruct (split_once c s) as [[]|].
Qed.

Lemma append_assoc (s t u : string) : (s +:+ t) +:+ u = s +:+ t +:+ u.
Proof. induction s as [|a s IH]; [done|]. change (String a ((s +:+ t) +:+ u) = String a (s +:+ t +:+ u)). by f_equal. Qed.
Lemma append_nil_r (s : string) : s +:+ "" = s.
Proof. induction s as [|a s IH]; [done|]. change (String a (s +:+ "") = String a s). by f_equal. Qed.
Lemma length_append (s t : string) :
  String.length (s +:+ t) = (String.length s + String.length t)%nat.
Proof. induction s as [|a s IH]; simpl; [done|]. by f_equal. Qed.
Lemma append_inj_l (s t u : string) : s +:+ t = s +:+ u -> t = u.
Proof. induction s as [|a s IH]; simpl; [done|]. intros [= H]. by apply IH. Qed.

Lemma str_all_app p s t : str_all p (s +:+ t) = str_all p s && str_all p t.
Proof. induction s as [|a s IH]; simpl; [done|]. by rewrite IH, andb_assoc. Qed.

Lemma substring_prefix n s : (n <= String.length s)%nat ->
  exists rest, s = String.substring 0 n s +:+ rest /\ String.length (String.substring 0 n s) = n.
Proof.
  revert s. induction n as [|n IH]; intros s Hn.
  - exists s. by destruct s.
  - destruct s as [|a s]; simpl in *; [lia|].
    destruct (IH s) as (rest & Hr & Hl); [lia|]. exists rest. split; [by rewrite Hr at 1|by rewrite Hl].
Qed.
