(* ===== verification/Json.v ===== *)
(** * JSON documents ([serde_json::Value])

    [serde_json] is built without [preserve_order] here, so an object is a map
    by key: a [gmap]. Numbers are integers or finite binary64 values; a float is
    given by mantissa and exponent, up to [f64] equality. The accessors are the
    ones the reconcilers call. *)

From S2P Require Import Prelude Str.

(** ** The document type *)

Inductive number : Type :=
| PosInt (n : N)
| NegInt (n : positive)
| Float (mantissa exponent : Z).

#[global] Instance number_eq_dec : EqDecision number.
Proof. solve_decision. Defined.

Unset Elimination Schemes.
Inductive value : Type :=
| Null
| VBool (b : bool)
| Number (n : number)
| VString (s : string)
| Array (l : list value)
| Object (m : gmap string value).
Set Elimination Schemes.

#[global] Instance value_inhabited : Inhabited value := populate Null.

#[global] Instance value_eq_dec : EqDecision value.
Proof.
  unfold EqDecision, Decision. fix IH 1.
  intros [| b | n | s | l | m] [| b' | n' | s' | l' | m']; try (right; discriminate).
  - left; reflexivity.
  - destruct (decide (b = b')); [left|right]; congruence.
  - destruct (decide (n = n')); [left|right]; congruence.
  - destruct (decide (s = s')); [left|right]; congruence.
  - destruct (@list_eq_dec _ IH l l'); [left|right]; congruence.
  - destruct (@gmap_eq_dec _ _ _ _ IH m m'); [left|right]; congruence.
Defined.

(** The number of nodes, a measure for induction. *)
Fixpoint value_size (v : value) : nat :=
  match v with
  | Array l => S (foldr (fun v n => (value_size v + n)%nat) 0%nat l)
  | Object m => S (map_fold (fun _ v n => (value_size v + n)%nat) 0%nat m)
  | _ => 1%nat
  end.

Lemma value_size_elem v l : v ∈ l -> (value_size v < value_size (Array l))%nat.
Proof. induction 1; simpl in *; lia. Qed.
Lemma value_size_lookup k v m :
  m !! k = Some v -> (value_size v < value_size (Object m))%nat.
Proof.
  intros Hk. simpl. rewrite (map_fold_delete_L _ _ k v); [lia| |done]. intros; lia.
Qed.

(** Induction through arrays and objects. *)
Lemma value_ind (P : value -> Prop) :
  P Null ->
  (forall b, P (VBool b)) ->
  (forall n, P (Number n)) ->
  (forall s, P (VString s)) ->
  (forall l, (forall v, v ∈ l -> P v) -> P (Array l)) ->
  (forall m, (forall k v, m !! k = Some v -> P v) -> P (Object m)) ->
  forall v, P v.
Proof.
  intros H1 H2 H3 H4 H5 H6 v.
  remember (value_size v) as n eqn:E. revert v E.
  induction (lt_wf n) as [n _ IH]. intros v ->.
  destruct v as [| | | | l | m]; auto.
  - apply H5. intros x Hx. eapply IH; [|reflexivity]. by apply value_size_elem.
  - apply H6. intros k x Hx. eapply IH; [|reflexivity]. by eapply value_size_lookup.
Qed.

(** ** Accessors *)

Definition is_object (v : value) : bool := match v with Object _ => true | _ => false end.
Definition is_array (v : value) : bool := match v with Array _ => true | _ => false end.
Definition is_null (v : value) : bool := match v with Null => true | _ => false end.
Definition as_object (v : value) : option (gmap string value) :=
  match v with Object m => Some m | _ => None end.
Definition as_array (v : value) : option (list value) :=
  match v with Array l => Some l | _ => None end.
Definition as_str (v : value) : option string :=
  match v with VString s => Some s | _ => None end.

(** [v.get(key)] with a string key. *)
Definition get (key : string) (v : value) : option value :=
  match v with Object m => m !! key | _ => None end.
(** [v[key]]: [Null] when absent. *)
Definition index (v : value) (key : string) : value := default Null (get key v).

(** [get_mut(key)] followed by an assignment: only an existing key is written. *)
Definition update_at (key : string) (f : value -> value) (v : value) : value :=
  match v with
  | Object m => Object (alter f key m)
  | _ => v
  end.

(** ** JSON pointers (RFC 6901) *)

Fixpoint unescape_token (s : string) : string :=
  match s with
  | String "~" (String "1" s) => String "/" (unescape_token s)
  | String "~" (String "0" s) => String "~" (unescape_token s)
  | String a s => String a (unescape_token s)
  | EmptyString => EmptyString
  end.

(** The reference tokens of a pointer; [None] when it does not start with [/]. *)
Definition pointer_tokens (p : string) : option (list string) :=
  match p with
  | EmptyString => Some []
  | String "/" rest => Some (map unescape_token (split "/" rest))
  | _ => None
  end.

Fixpoint parse_digits (s : string) (acc : nat) : option nat :=
  match s with
  | EmptyString => Some acc
  | String a s =>
      if is_ascii_digit a
      then parse_digits s (acc * 10 + Z.to_nat (byte_of a - 48))%nat
      else None
  end.
(** An array index token: digits without a leading zero. *)
Definition parse_index (s : string) : option nat :=
  match s with
  | EmptyString => None
  | String "0" (String _ _) => None
  | _ => parse_digits s 0
  end.

Fixpoint pointer_lookup (tokens : list string) (v : value) : option value :=
  match tokens with
  | [] => Some v
  | token :: tokens =>
      match v with
      | Object m => m !! token ≫= pointer_lookup tokens
      | Array l => parse_index token ≫= fun i => l !! i ≫= pointer_lookup tokens
      | _ => None
      end
  end.
Definition pointer (p : string) (v : value) : option value :=
  pointer_tokens p ≫= fun tokens => pointer_lookup tokens v.

(** [if let Some(slot) = v.pointer_mut(p) { *slot = x; }]. *)
Fixpoint pointer_assign (tokens : list string) (x v : value) : value :=
  match tokens with
  | [] => x
  | token :: tokens =>
      match v with
      | Object m => Object (alter (pointer_assign tokens x) token m)
      | Array l =>
          match parse_index token with
          | Some i => Array (alter (pointer_assign tokens x) i l)
          | None => v
          end
      | _ => v
      end
  end.
Definition pointer_set (p : string) (x v : value) : value :=
  match pointer_tokens p with
  | Some tokens => pointer_assign tokens x v
  | None => v
  end.

(** ** Serialization, an interface

    [serde_json] and [json5] are libraries: their parsers and printers are the
    operations of a class, and what they document is a second class. *)

Record merge_state : Type := {
  ms_created : bool;
  ms_before : value;
  ms_after : value;
}.

Class JsonCodec : Type := {
  (** [serde_json::from_slice::<Value>]. *)
  json_from_slice : string -> result value string;
  (** [json5::from_str::<Value>]. *)
  json5_from_str : string -> result value string;
  (** [serde_json::to_vec_pretty] of a [Value]; string keys never fail. *)
  to_vec_pretty : value -> string;
  (** [serde_json::from_slice::<MergeState>], the error as line and column. *)
  state_from_slice : string -> result merge_state (nat * nat);
  (** [serde_json::to_vec_pretty] of a [MergeState]. *)
  state_to_vec_pretty : merge_state -> string;
}.

(** Documents that survive printing and parsing unchanged in both formats: the
    integers fit [i64], there is no float (a parser may round its last digit),
    and nesting stays below the parser's recursion limit. *)
Definition plain_number (n : number) : Prop :=
  match n with
  | PosInt n => (Z.of_N n <= I64_MAX)%Z
  | NegInt p => (Zneg p >= I64_MIN)%Z
  | Float _ _ => False
  end.
Fixpoint plain (depth : nat) (v : value) {struct depth} : Prop :=
  match v with
  | Number n => plain_number n
  | Array l => match depth with O => False | S d => Forall (plain d) l end
  | Object m => match depth with O => False | S d => map_Forall (fun _ v => plain d v) m end
  | _ => True
  end.

#[global] Instance plain_dec depth v : Decision (plain depth v).
Proof.
  revert v. induction depth as [|d IH]; intros [| |n| |l|m]; simpl;
    try apply _; destruct n; simpl; apply _.
Defined.

(** The documented behaviour the merge relies on: a printed document, with the
    final newline the code adds, is UTF-8 text without a byte-order mark that
    reads back as the same document in both formats, and is not blank. A merge
    state nests its documents one level deeper. *)
Class JsonCodecLaws (C : JsonCodec) : Prop := {
  json_roundtrip v : plain 127 v -> json_from_slice (to_vec_pretty v +:+ String "010" "") = Ok v;
  json5_roundtrip v : plain 127 v -> json5_from_str (to_vec_pretty v +:+ String "010" "") = Ok v;
  json_utf8 v : utf8_valid (to_vec_pretty v +:+ String "010" "") = true;
  json_no_bom v : strip_prefix (of_bytes [239; 187; 191])
                    (to_vec_pretty v +:+ String "010" "") = None;
  json_not_blank v : str_all is_ascii_whitespace (to_vec_pretty v +:+ String "010" "") = false;
  state_roundtrip s : plain 126 (ms_before s) -> plain 126 (ms_after s) ->
    state_from_slice (state_to_vec_pretty s +:+ String "010" "") = Ok s;
}.
