(* ===== verification/Codec.v ===== *)
(** * A concrete codec

    An instance of the serialization interface that satisfies its laws, used to
    run the merge on concrete documents: a document is printed as the binary
    digits of its encoding. It shows that the laws can hold; it is not a model of
    [serde_json]'s text format. *)

From stdpp Require Import countable.
From S2P Require Import Prelude Str Json.

(** ** Documents as trees *)

Definition leaf : Type := option (bool + (N + positive + Z * Z) + string).
Definition number_code (n : number) : N + positive + Z * Z :=
  match n with PosInt n => inl (inl n) | NegInt p => inl (inr p) | Float m e => inr (m, e) end.
Definition number_of_code (c : N + positive + Z * Z) : number :=
  match c with inl (inl n) => PosInt n | inl (inr p) => NegInt p | inr (m, e) => Float m e end.

Fixpoint to_tree (v : value) : gen_tree leaf :=
  match v with
  | Null => GenLeaf None
  | VBool b => GenLeaf (Some (inl (inl b)))
  | Number n => GenLeaf (Some (inl (inr (number_code n))))
  | VString s => GenLeaf (Some (inr s))
  | Array l => GenNode 0 (map to_tree l)
  | Object m =>
      GenNode 1 (map (fun kt => GenNode 2 [GenLeaf (Some (inr (fst kt))); snd kt])
                     (map_to_list (to_tree <$> m)))
  end.
Fixpoint of_tree (t : gen_tree leaf) : value :=
  match t with
  | GenLeaf None => Null
  | GenLeaf (Some (inl (inl b))) => VBool b
  | GenLeaf (Some (inl (inr n))) => Number (number_of_code n)
  | GenLeaf (Some (inr s)) => VString s
  | GenNode 0 l => Array (map of_tree l)
  | GenNode _ l =>
      Object (list_to_map (map (fun t => match t with
        | GenNode _ [GenLeaf (Some (inr k)); u] => (k, of_tree u)
        | _ => ("", Null)
        end) l))
  end.
Lemma of_to_tree v : of_tree (to_tree v) = v.
Proof.
  induction v as [| |n| |l IH|m IH] using value_ind; simpl; try done.
  - by destruct n as [| |[]].
  - f_equal. rewrite map_map. rewrite <- (map_id l) at 2. apply map_ext_in.
    intros a Ha. apply IH. by apply list_elem_of_In.
  - f_equal. rewrite map_map. simpl.
    assert (of_tree <$> (to_tree <$> m) = m) as Hm.
    { rewrite <- map_fmap_compose. rewrite <- (map_fmap_id m) at 2. apply map_fmap_ext.
      intros k x Hx. by apply (IH k). }
    transitivity (list_to_map (M := gmap string value) (prod_map id of_tree <$> map_to_list (to_tree <$> m))).
    { by f_equal. }
    rewrite <- map_to_list_fmap, Hm. apply list_to_map_to_list.
Qed.

(** ** Binary text *)

Fixpoint bits (p : positive) : string :=
  match p with
  | xH => ""
  | xO p => String "0" (bits p)
  | xI p => String "1" (bits p)
  end.
(** Digits up to the final newline. *)
Fixpoint of_bits (s : string) : option positive :=
  match s with
  | String "010" "" => Some xH
  | String "0" s => xO <$> of_bits s
  | String "1" s => xI <$> of_bits s
  | _ => None
  end.

Lemma of_bits_bits p : of_bits (bits p +:+ String "010" "") = Some p.
Proof. induction p as [p IH|p IH|]; simpl; [by rewrite IH|by rewrite IH|done]. Qed.

(** Text is marked with a leading [v]. *)
Definition digits (p : positive) : string := String "v" (bits p).
Definition of_digits (s : string) : option positive :=
  match s with String "v" s => of_bits s | _ => None end.

Lemma digits_utf8 p : utf8_valid (digits p +:+ String "010" "") = true.
Proof.
  unfold utf8_valid. simpl.
  induction p as [p IH|p IH|]; simpl in *; [exact IH|exact IH|done].
Qed.

(** ** The instance *)

#[global] Instance demo_codec : JsonCodec := {|
  json_from_slice s := ok_or (of_tree <$> (of_digits s ≫= decode)) "expected value";
  json5_from_str s := ok_or (of_tree <$> (of_digits s ≫= decode)) "expected value";
  to_vec_pretty v := digits (encode (to_tree v));
  state_from_slice s :=
    match of_digits s ≫= decode with
    | Some (created, before, after) =>
        Ok {| ms_created := created; ms_before := of_tree before; ms_after := of_tree after |}
    | None => Err (1%nat, 1%nat)
    end;
  state_to_vec_pretty st := digits (encode (ms_created st, to_tree (ms_before st), to_tree (ms_after st)));
|}.

#[global] Instance demo_codec_laws : JsonCodecLaws demo_codec.
Proof.
  split; [intros v _|intros v _|intros v|intros v|intros v|intros [c b a] _ _]; simpl.
  1,2: by rewrite of_bits_bits; simpl; rewrite decode_encode; simpl; rewrite of_to_tree.
  - apply digits_utf8.
  - done.
  - done.
  - rewrite of_bits_bits. simpl. rewrite decode_encode. simpl. by rewrite !of_to_tree.
Qed.
