(* ===== verification/Fs.v ===== *)
(** * Paths, the file system, and owner-only atomic writes

    The file system is an explicit state with the calls the daemon makes
    ([read], [metadata], [create_dir_all], [create_new], [rename], [remove]) as
    state-passing functions. Any call can fail: [fs_fault] is the environment's
    answer (permissions, a full disk) for a call on a path, fixed for one run.
    Over these primitives, [crates/agent/src/secure_fs.rs]. *)

From S2P Require Import Prelude Str.

(** ** Paths *)

(** A [Path] is its components; an absolute path starts with the component
    ["/"], and the current directory ["."] is the empty path. *)
Abbreviation path := (list string).

Definition display (p : path) : string :=
  match p with
  | "/" :: rest => "/" +:+ join "/" rest
  | [] => "."
  | _ => join "/" p
  end.

(** [PathBuf::from]: the components of the text; empty ones and ["."] are none. *)
Definition path_from (s : string) : path :=
  ((if starts_with "/" s then ["/"] else [])
   ++ retain (fun c => negb (is_empty c || String.eqb c ".")) (split "/" s))%list.
(** [Path::strip_prefix]. *)
Definition strip_path_prefix (prefix p : path) : option path :=
  if bool_decide (prefix `prefix_of` p) then Some (drop (length prefix) p) else None.

(** [Path::file_name]: the last component when it is a normal one. *)
Definition file_name (p : path) : option string :=
  match last p with
  | Some name => if decide (name = "/" \/ name = "..") then None else Some name
  | None => None
  end.
(** [Path::parent]. *)
Definition parent (p : path) : option path :=
  match last p with
  | Some name => if decide (name = "/") then None else Some (removelast p)
  | None => None
  end.
Definition with_file_name (name : string) (p : path) : path :=
  match file_name p with
  | Some _ => (removelast p ++ [name])%list
  | None => (p ++ [name])%list
  end.
(** [path.parent().filter(|p| !p.as_os_str().is_empty()).unwrap_or(".")]: an
    empty parent and ["."] are the same path here. *)
Definition parent_or_dot (p : path) : path :=
  match parent p with
  | Some [] => []
  | Some dir => dir
  | None => []
  end.
Definition path_starts_with (p prefix : path) : bool :=
  bool_decide (prefix `prefix_of` p).

(** [Component]: the root and [".."] are before the names. *)
Definition component_rank (a : string) : nat :=
  if String.eqb a "/" then 0 else if String.eqb a ".." then 1 else 2.
Definition component_compare (a b : string) : comparison :=
  match Nat.compare (component_rank a) (component_rank b) with Eq => String.compare a b | c => c end.
Fixpoint path_compare (p q : path) : comparison :=
  match p with
  | [] => match q with [] => Eq | _ :: _ => Lt end
  | a :: p =>
      match q with
      | [] => Gt
      | b :: q => match component_compare a b with Eq => path_compare p q | c => c end
      end
  end.
Definition path_leb (p q : path) : bool :=
  match path_compare p q with Gt => false | _ => true end.

(** ** State and errors *)

Inductive node : Type :=
| File (contents : string) (mode : Z)
| Dir (mode : Z).
#[global] Instance node_eq_dec : EqDecision node.
Proof. solve_decision. Defined.

(** [io::ErrorKind], as far as the code tells kinds apart. *)
Inductive io_kind : Type :=
| NotFound | AlreadyExists | InvalidData | PermissionDenied | IsADirectory | NotADirectory | Other.
#[global] Instance io_kind_eq_dec : EqDecision io_kind.
Proof. solve_decision. Defined.

Definition io_kind_message (k : io_kind) : string :=
  match k with
  | NotFound => "entity not found"
  | AlreadyExists => "entity already exists"
  | InvalidData => "invalid data"
  | PermissionDenied => "permission denied"
  | IsADirectory => "is a directory"
  | NotADirectory => "not a directory"
  | Other => "other error"
  end.

(** What the environment can answer instead of doing a call. *)
Inductive fault : Type := Denied | Broken.
Definition fault_kind (f : fault) : io_kind :=
  match f with Denied => PermissionDenied | Broken => Other end.

Inductive fs_call : Type :=
| CRead | CMetadata | CCreateDir | COpen | CWrite | CSync | CRename | CRemove | CChmod.

Record fs : Type := {
  nodes : gmap path node;
  umask : Z;
  fs_fault : fs_call -> path -> option fault;
}.
Definition with_nodes (m : gmap path node) (s : fs) : fs :=
  {| nodes := m; umask := umask s; fs_fault := fs_fault s |}.

(** Permission bits without the ones the process masks. *)
Definition masked (mode : Z) (s : fs) : Z := Z.ldiff (Z.land mode 511) (umask s).

Definition is_file (s : fs) (p : path) : Prop := exists c m, nodes s !! p = Some (File c m).
Definition is_dir (s : fs) (p : path) : bool :=
  match p with
  | [] | ["/"] => true
  | _ => match nodes s !! p with Some (Dir _) => true | _ => false end
  end.

(** ** Calls *)

Definition io (A : Type) : Type := ST fs io_kind A.

Definition faulty {A} (c : fs_call) (p : path) (k : io A) : io A :=
  fun s => match fs_fault s c p with Some f => (Err (fault_kind f), s) | None => k s end.

(** [fs::read]: takes the state and leaves it. *)
Definition fs_read (s : fs) (p : path) : result string io_kind :=
  match fs_fault s CRead p with
  | Some f => Err (fault_kind f)
  | None =>
      match nodes s !! p with
      | Some (File c _) => Ok c
      | Some (Dir _) => Err IsADirectory
      | None => Err NotFound
      end
  end.

(** [fs::read_to_string]. *)
Definition fs_read_to_string (s : fs) (p : path) : result string io_kind :=
  match fs_read s p with
  | Ok c => if utf8_valid c then Ok c else Err InvalidData
  | Err e => Err e
  end.

(** The mode [fs::metadata] reports, without the file type bits. *)
Definition fs_metadata (s : fs) (p : path) : result Z io_kind :=
  match fs_fault s CMetadata p with
  | Some f => Err (fault_kind f)
  | None =>
      match nodes s !! p with
      | Some (File _ m) | Some (Dir m) => Ok m
      | None => Err NotFound
      end
  end.

(** [Path::exists]. *)
Definition fs_exists (s : fs) (p : path) : bool :=
  is_dir s p || is_ok (fs_metadata s p).

Definition create_dir (p : path) : io unit :=
  faulty CCreateDir p (fun s =>
    if is_dir s p then (Ok tt, s)
    else match nodes s !! p with
         | Some _ => (Err AlreadyExists, s)
         | None => (Ok tt, with_nodes (<[p := Dir (masked 511 s)]> (nodes s)) s)
         end).

(** Every ancestor of [p] from the root, and [p]. *)
Definition prefixes (p : path) : list path :=
  map (fun n => take (S n) p) (seq 0 (length p)).
(** [fs::create_dir_all]: creates the missing ancestors, outermost first; an
    existing directory needs no call. *)
Definition create_dir_all (p : path) : io unit :=
  fun s => if is_dir s p then (Ok tt, s) else st_iter create_dir (prefixes p) s.

(** [OpenOptions::new().write(true).create_new(true).mode(mode).open(p)]. *)
Definition create_new (p : path) (mode : Z) : io unit :=
  faulty COpen p (fun s =>
    match nodes s !! p with
    | Some _ => (Err AlreadyExists, s)
    | None =>
        if is_dir s (parent_or_dot p)
        then (Ok tt, with_nodes (<[p := File "" (masked mode s)]> (nodes s)) s)
        else (Err NotFound, s)
    end).

(** [write_all] on a file the process has open. *)
Definition write_all (p : path) (contents : string) : io unit :=
  faulty CWrite p (fun s =>
    match nodes s !! p with
    | Some (File _ m) => (Ok tt, with_nodes (<[p := File contents m]> (nodes s)) s)
    | _ => (Err Other, s)
    end).
Definition sync_all (p : path) : io unit := faulty CSync p (st_ret tt).

(** [fs::rename] of a file: it replaces a file, not a directory. *)
Definition rename (from to : path) : io unit :=
  faulty CRename to (fun s =>
    match nodes s !! from with
    | None => (Err NotFound, s)
    | Some n =>
        if is_dir s to then (Err IsADirectory, s)
        else (Ok tt, with_nodes (<[to := n]> (delete from (nodes s))) s)
    end).

Definition fs_remove_file (p : path) : io unit :=
  faulty CRemove p (fun s =>
    match nodes s !! p with
    | Some (File _ _) => (Ok tt, with_nodes (delete p (nodes s)) s)
    | Some (Dir _) => (Err IsADirectory, s)
    | None => (Err NotFound, s)
    end).

Definition set_dir_permissions (p : path) (mode : Z) : io unit :=
  faulty CChmod p (fun s =>
    match nodes s !! p with
    | Some (Dir _) => (Ok tt, with_nodes (<[p := Dir mode]> (nodes s)) s)
    | _ => (Ok tt, s)
    end).

(** An [io] failure in an [anyhow] context. *)
Definition with_context {A} (msg : string) (m : io A) : ST fs string A :=
  st_map_err (fun k => context msg (io_kind_message k)) m.

(** ** [secure_fs.rs] *)

Definition ensure_private_dir (p : path) : ST fs string unit :=
  with_context ("create private directory " +:+ display p) (create_dir_all p) ;*
  (fun s =>
     match fs_metadata s p with
     | Err e => (Err (context ("inspect private directory " +:+ display p) (io_kind_message e)), s)
     | Ok _ =>
         if is_dir s p
         then with_context ("restrict private directory " +:+ display p)
                (set_dir_permissions p 448) s
         else (Err ("private directory path is not a directory: " +:+ display p), s)
     end).

(** The sibling temporary file of one attempt. *)
Definition temporary_name (name : string) (random : Z) : string :=
  "." +:+ name +:+ ".agentdesktop." +:+ fmt_hex16 random +:+ ".tmp".
Definition temporary_path (p : path) (name : string) (random : Z) : path :=
  (parent_or_dot p ++ [temporary_name name random])%list.

(** One attempt once the temporary file is open. *)
Definition install (p tmp : path) (contents : string) : ST fs string unit :=
  fun s =>
    let body :=
      with_context ("write temporary file " +:+ display tmp) (write_all tmp contents) ;*
      with_context ("sync temporary file " +:+ display tmp) (sync_all tmp) ;*
      with_context ("install managed file at " +:+ display p) (rename tmp p) in
    match body s with
    | (Ok u, s') => (Ok u, s')
    | (Err e, s') => (Err e, snd (fs_remove_file tmp s'))
    end.

(** [rng] gives the random number of each attempt. *)
Fixpoint atomic_write_attempts (randoms : list Z) (p : path) (name contents : string) (mode : Z)
  : ST fs string unit :=
  match randoms with
  | [] => st_err ("could not allocate a unique temporary file for " +:+ display p)
  | r :: randoms =>
      let tmp := temporary_path p name r in
      fun s =>
        match create_new tmp mode s with
        | (Err AlreadyExists, s') => atomic_write_attempts randoms p name contents mode s'
        | (Err e, s') =>
            (Err (context ("create temporary file " +:+ display tmp) (io_kind_message e)), s')
        | (Ok _, s') => install p tmp contents s'
        end
  end.

Definition atomic_write (rng : nat -> Z) (p : path) (contents : string) (mode : Z)
  : ST fs string unit :=
  match file_name p with
  | None => st_err "managed path has no UTF-8 file name"
  | Some name => atomic_write_attempts (map rng (seq 0 16)) p name contents mode
  end.

(** ** Lemmas *)

(** Calls never change the environment's part of the state. *)
Definition same_env (s s' : fs) : Prop := umask s' = umask s /\ fs_fault s' = fs_fault s.

#[global] Instance same_env_refl : Reflexive same_env.
Proof. done. Qed.
#[global] Instance same_env_trans : Transitive same_env.
Proof. intros s1 s2 s3 [] []; split; congruence. Qed.

Lemma masked_same_env s s' mode : same_env s s' -> masked mode s' = masked mode s.
Proof. intros [Hu _]. unfold masked. by rewrite Hu. Qed.

Lemma nodes_with_nodes m s : nodes (with_nodes m s) = m.
Proof. done. Qed.
Lemma same_env_with_nodes m s : same_env s (with_nodes m s).
Proof. done. Qed.
#[export] Hint Resolve same_env_with_nodes same_env_refl : agentdesktop.

Lemma faulty_inv {A} c p (k : io A) s r s' :
  faulty c p k s = (r, s') -> (s' = s /\ exists e, r = Err e) \/ k s = (r, s').
Proof. unfold faulty. destruct (fs_fault s c p); intros; [left; naive_solver|by right]. Qed.

(** [s'] is [s] with directories added where nothing was. *)
Definition adds_dirs (s s' : fs) : Prop :=
  same_env s s' /\
  forall q, nodes s' !! q = nodes s !! q \/
            (nodes s !! q = None /\ exists m, nodes s' !! q = Some (Dir m)).

#[global] Instance adds_dirs_refl : Reflexive adds_dirs.
Proof. intros s. split; [done|]. by left. Qed.
#[global] Instance adds_dirs_trans : Transitive adds_dirs.
Proof.
  intros s1 s2 s3 [He1 H1] [He2 H2]. split; [by etrans|]. intros q.
  destruct (H1 q) as [E1|[E1 [m1 F1]]], (H2 q) as [E2|[E2 [m2 F2]]].
  - left. congruence.
  - right. split; [congruence|]. eauto.
  - right. split; [done|]. exists m1. congruence.
  - congruence.
Qed.

Lemma create_dir_adds p s r s' : create_dir p s = (r, s') -> adds_dirs s s'.
Proof.
  intros [[-> _]|H]%faulty_inv; [done|].
  destruct (is_dir s p); simplify_eq; [done|].
  destruct (nodes s !! p) eqn:E; simplify_eq; [done|].
  split; [done|]. intros q. simpl. destruct (decide (q = p)) as [->|Hne].
  - right. rewrite lookup_insert_eq. eauto.
  - left. by rewrite lookup_insert_ne.
Qed.

Lemma st_iter_adds {A} (body : A -> io unit) (R : fs -> fs -> Prop)
    `{!Reflexive R, !Transitive R} l s r s' :
  (forall x s r s', body x s = (r, s') -> R s s') ->
  st_iter body l s = (r, s') -> R s s'.
Proof.
  intros Hb. revert s. induction l as [|x l IH]; intros s; simpl.
  - intros [= _ <-]. done.
  - unfold st_bind. destruct (body x s) as [[[]|e] s1] eqn:E.
    + intros H. transitivity s1; eauto.
    + intros [= _ <-]. eauto.
Qed.

Lemma create_dir_all_adds p s r s' : create_dir_all p s = (r, s') -> adds_dirs s s'.
Proof.
  unfold create_dir_all. destruct (is_dir s p); [intros [= _ <-]; done|].
  apply st_iter_adds; [apply _..|]. apply create_dir_adds.
Qed.

Lemma adds_dirs_file s s' p c m :
  adds_dirs s s' -> nodes s !! p = Some (File c m) -> nodes s' !! p = Some (File c m).
Proof. intros [_ H] Hp. destruct (H p) as [->|[E _]]; [done|congruence]. Qed.

Lemma adds_dirs_not_file s s' p :
  adds_dirs s s' -> ~ is_file s p -> ~ is_file s' p.
Proof.
  intros [_ H] Hp (c & m & Hf). destruct (H p) as [E|[_ [m' E]]]; [|congruence].
  apply Hp. exists c, m. congruence.
Qed.

Lemma temporary_name_ne name r : temporary_name name r <> name.
Proof.
  intros H. apply (f_equal String.length) in H. unfold temporary_name in H.
  rewrite !length_append in H. simpl in H. lia.
Qed.

Lemma temporary_path_ne p name r : file_name p = Some name -> temporary_path p name r <> p.
Proof.
  unfold file_name. destruct (last p) as [x|] eqn:E; [|done].
  case_decide; [done|]. intros [= ->] H1. rewrite <- H1 in E. unfold temporary_path in E.
  rewrite last_snoc in E. injection E as E. by apply temporary_name_ne in E.
Qed.

Lemma create_new_Ok p mode s s' :
  create_new p mode s = (Ok tt, s') ->
  nodes s !! p = None /\ nodes s' = <[p := File "" (masked mode s)]> (nodes s) /\ same_env s s'.
Proof.
  intros [[_ [e ?]]|H]%faulty_inv; [done|].
  destruct (nodes s !! p) eqn:E; [done|]. destruct (is_dir s _); simplify_eq. done.
Qed.
Lemma create_new_Err p mode s e s' : create_new p mode s = (Err e, s') -> s' = s.
Proof.
  intros [[-> _]|H]%faulty_inv; [done|]. repeat case_match; by simplify_eq.
Qed.

(** The three steps after the temporary file is open: either the whole file is
    installed and nothing else differs, or no path but the temporary one does. *)
Lemma install_spec p tmp contents m s r s' :
  tmp <> p -> nodes s !! tmp = Some (File "" m) ->
  install p tmp contents s = (r, s') ->
  same_env s s' /\
  match r with
  | Ok _ => nodes s' = <[p := File contents m]> (delete tmp (nodes s))
  | Err _ => forall q, q <> tmp -> nodes s' !! q = nodes s !! q
  end.
Proof.
  intros Hne Htmp. unfold install, with_context, st_map_err, st_bind, write_all, sync_all,
    rename, fs_remove_file, faulty, st_ret.
  destruct (fs_fault s CWrite tmp) as [e|]; simpl.
  { destruct (fs_fault s CRemove tmp); [intros [= <- <-]; done|].
    rewrite Htmp. intros [= <- <-]. split; [done|]. intros q Hq. simpl. by rewrite lookup_delete_ne. }
  rewrite Htmp. simpl.
  destruct (fs_fault s CSync tmp) as [e|]; simpl.
  { destruct (fs_fault s CRemove tmp); rewrite ?lookup_insert_eq; intros [= <- <-];
      (split; [done|]); intros q Hq; simpl; by rewrite ?lookup_delete_ne, ?lookup_insert_ne. }
  destruct (fs_fault s CRename p) as [e|]; simpl.
  { destruct (fs_fault s CRemove tmp); rewrite ?lookup_insert_eq; intros [= <- <-];
      (split; [done|]); intros q Hq; simpl; by rewrite ?lookup_delete_ne, ?lookup_insert_ne. }
  rewrite lookup_insert_eq. destruct (is_dir _ p).
  { simpl. destruct (fs_fault s CRemove tmp); rewrite ?lookup_insert_eq; intros [= <- <-];
      (split; [done|]); intros q Hq; simpl; by rewrite ?lookup_delete_ne, ?lookup_insert_ne. }
  intros [= <- <-]. split; [done|]. simpl. by rewrite delete_insert_eq.
Qed.

Lemma atomic_write_attempts_spec randoms p name contents mode s r s' :
  file_name p = Some name ->
  atomic_write_attempts randoms p name contents mode s = (r, s') ->
  same_env s s' /\
  match r with
  | Ok _ => nodes s' = <[p := File contents (masked mode s)]> (nodes s)
  | Err _ => forall q, q = p \/ is_Some (nodes s !! q) -> nodes s' !! q = nodes s !! q
  end.
Proof.
  intros Hname. revert s. induction randoms as [|x randoms IH]; intros s; simpl.
  { intros [= <- <-]. done. }
  destruct (create_new _ mode s) as [[[]|e] s1] eqn:E.
  - apply create_new_Ok in E as (Hnone & Hs1 & Henv). intros H.
    pose proof (temporary_path_ne p name x Hname) as Hne.
    eapply install_spec in H as [He H]; [|done|by rewrite Hs1, lookup_insert_eq].
    split; [by etrans|]. destruct r.
    + rewrite H, Hs1. by rewrite delete_insert_id.
    + intros q Hq. assert (q <> temporary_path p name x) as Hqt.
      { intros ->. destruct Hq as [?|[y Hy]]; congruence. }
      rewrite H by done. rewrite Hs1. by rewrite lookup_insert_ne.
  - apply create_new_Err in E as ->. destruct e; intros H; simplify_eq; try done.
    by apply IH in H.
Qed.

(** What an atomic write leaves: on success exactly one path changed, and it
    holds the contents at the masked mode; on failure the target and every
    path that existed are as they were. *)
Lemma atomic_write_spec rng p contents mode s r s' :
  atomic_write rng p contents mode s = (r, s') ->
  same_env s s' /\
  match r with
  | Ok _ => nodes s' = <[p := File contents (masked mode s)]> (nodes s)
  | Err _ => forall q, q = p \/ is_Some (nodes s !! q) -> nodes s' !! q = nodes s !! q
  end.
Proof.
  unfold atomic_write. destruct (file_name p) as [name|] eqn:E.
  - by apply atomic_write_attempts_spec.
  - intros [= <- <-]. done.
Qed.

Lemma fs_remove_file_spec p s r s' :
  fs_remove_file p s = (r, s') ->
  same_env s s' /\
  match r with
  | Ok _ => nodes s' = delete p (nodes s) /\ is_file s p
  | Err _ => s' = s
  end.
Proof.
  intros [[-> [e ->]]|H]%faulty_inv; [done|].
  destruct (nodes s !! p) as [[c m|m]|] eqn:E; simplify_eq; try done.
  split; [done|]. split; [done|]. by exists c, m.
Qed.

(** ** The files of a state, directories aside *)

Definition file_at (s : fs) (p : path) : option (string * Z) :=
  match nodes s !! p with Some (File c m) => Some (c, m) | _ => None end.

(** Outside [ps], the files of [s'] are those of [s]. *)
Definition frame (ps : list path) (s s' : fs) : Prop :=
  same_env s s' /\ forall q, q ∉ ps -> file_at s' q = file_at s q.

#[global] Instance frame_refl ps : Reflexive (frame ps).
Proof. done. Qed.
#[global] Instance frame_trans ps : Transitive (frame ps).
Proof.
  intros s1 s2 s3 [He1 H1] [He2 H2]. split; [by etrans|]. intros q Hq.
  rewrite H2, H1; done.
Qed.
Lemma frame_mono ps qs s s' : (forall q, q ∈ ps -> q ∈ qs) -> frame ps s s' -> frame qs s s'.
Proof. intros Hsub [He H]. split; [done|]. intros q Hq. apply H. naive_solver. Qed.

Lemma frame_cons p ps s1 s2 s3 :
  frame [p] s1 s2 -> frame ps s2 s3 -> frame (p :: ps) s1 s3.
Proof.
  intros H1 H2. transitivity s2; eapply frame_mono; [|exact H1| |exact H2].
  - intros q ->%list_elem_of_singleton. apply list_elem_of_here.
  - intros q. apply list_elem_of_further.
Qed.

Lemma adds_dirs_frame s s' : adds_dirs s s' -> frame [] s s'.
Proof.
  intros [He H]. split; [done|]. intros q _. unfold file_at.
  destruct (H q) as [->|[-> [m ->]]]; done.
Qed.

Lemma set_dir_permissions_frame p mode s r s' :
  set_dir_permissions p mode s = (r, s') -> frame [] s s'.
Proof.
  intros [[-> _]|H]%faulty_inv; [done|].
  destruct (nodes s !! p) as [[c m|m]|] eqn:E; simplify_eq; try done.
  split; [done|]. intros q _. unfold file_at. simpl.
  destruct (decide (q = p)) as [->|]; [by rewrite lookup_insert_eq, E|].
  by rewrite lookup_insert_ne.
Qed.

Lemma ensure_private_dir_frame p s r s' : ensure_private_dir p s = (r, s') -> frame [] s s'.
Proof.
  intros [(e & H & _)|(a & s1 & H & H2)]%st_bind_inv;
    apply st_map_err_inv in H as (r0 & H & _);
    apply create_dir_all_adds, adds_dirs_frame in H; [done|].
  etrans; [done|]. simpl in H2. destruct (fs_metadata s1 p); [|by simplify_eq].
  destruct (is_dir s1 p); [|by simplify_eq].
  apply st_map_err_inv in H2 as (r1 & H2 & _). by eapply set_dir_permissions_frame.
Qed.

Lemma atomic_write_files rng p contents mode s r s' :
  atomic_write rng p contents mode s = (r, s') ->
  same_env s s' /\
  match r with
  | Ok _ => frame [p] s s' /\ file_at s' p = Some (contents, masked mode s)
  | Err _ => forall q, q = p \/ is_Some (file_at s q) -> file_at s' q = file_at s q
  end.
Proof.
  intros [He H]%atomic_write_spec. split; [done|]. destruct r.
  - split; [split; [done|]|].
    + intros q Hq. unfold file_at. rewrite H, lookup_insert_ne; set_solver.
    + unfold file_at. by rewrite H, lookup_insert_eq.
  - intros q Hq. unfold file_at. rewrite H; [done|].
    destruct Hq as [->|[x Hx]]; [by left|right]. unfold file_at in Hx. by destruct (nodes s !! q).
Qed.

Lemma masked_within mode s : Z.land (Z.ldiff (masked mode s) mode) 511 = 0.
Proof.
  unfold masked. apply Z.bits_inj_iff'. intros n Hn.
  rewrite Z.land_spec, !Z.ldiff_spec, Z.land_spec, Z.bits_0.
  destruct (Z.testbit mode n), (Z.testbit 511 n), (Z.testbit (umask s) n); done.
Qed.

(** C38. A managed file is written whole or not at all: when the write succeeds
    exactly one path has changed and it holds the contents with no permission bit
    outside the requested mode; when it fails, at whatever step, the target and
    every other path that existed are as they were. *)
Theorem atomic_write_all_or_nothing rng p contents mode s r s' :
  atomic_write rng p contents mode s = (r, s') ->
  match r with
  | Ok _ =>
      exists m, nodes s' = <[p := File contents m]> (nodes s) /\
                Z.land (Z.ldiff m mode) 511 = 0
  | Err _ =>
      nodes s' !! p = nodes s !! p /\
      forall q, nodes s' !! q <> nodes s !! q -> nodes s !! q = None
  end.
Proof.
  intros [_ H]%atomic_write_spec. destruct r.
  - eexists. split; [exact H|apply masked_within].
  - split; [apply H; by left|]. intros q Hq.
    destruct (nodes s !! q) eqn:E; [|done]. exfalso. apply Hq. rewrite <- E. apply H. right. by eexists.
Qed.

Lemma install_succeeds p tmp contents m s :
  (forall c q, fs_fault s c q = None) -> tmp <> p -> is_dir s p = false ->
  nodes s !! tmp = Some (File "" m) -> exists s', install p tmp contents s = (Ok tt, s').
Proof.
  intros Hf Hne Hd Ht. unfold install, with_context, st_map_err, st_bind, write_all, sync_all,
    rename, faulty, st_ret.
  rewrite Hf, Ht. simpl. rewrite Hf. simpl. rewrite Hf, lookup_insert_eq.
  assert (is_dir (with_nodes (<[tmp:=File contents m]> (nodes s)) s) p = false) as ->.
  { unfold is_dir in *. destruct p as [|a [|b p]]; try done; simpl.
    - by rewrite lookup_insert_ne.
    - by rewrite lookup_insert_ne. }
  by eexists.
Qed.

(** A managed write succeeds when it can: with no failing call, the parent a
    directory, the target not one, and one of the sixteen temporary names free. *)
Theorem atomic_write_succeeds rng p name contents mode s i :
  (forall c q, fs_fault s c q = None) ->
  file_name p = Some name -> is_dir s (parent_or_dot p) = true -> is_dir s p = false ->
  (i < 16)%nat -> nodes s !! temporary_path p name (rng i) = None ->
  exists s', atomic_write rng p contents mode s = (Ok tt, s').
Proof.
  intros Hf Hn Hdir Hp Hi Hfree. unfold atomic_write. rewrite Hn.
  assert (rng i ∈ map rng (seq 0 16)) as Hin.
  { apply list_elem_of_fmap_2, elem_of_seq. lia. }
  induction (map rng (seq 0 16)) as [|r randoms IH]; [by apply not_elem_of_nil in Hin|].
  simpl. unfold create_new, faulty. rewrite Hf.
  destruct (nodes s !! temporary_path p name r) as [n|] eqn:E.
  - apply IH. apply elem_of_cons in Hin as [Heq|Hin]; [rewrite Heq, E in Hfree; done|done].
  - assert (parent_or_dot (temporary_path p name r) = parent_or_dot p) as ->.
    { unfold temporary_path, parent_or_dot at 1, parent. rewrite last_snoc.
      rewrite decide_False by (unfold temporary_name; done).
      rewrite removelast_last. by destruct (parent_or_dot p). }
    rewrite Hdir. eapply install_succeeds; [done| | |by apply lookup_insert_eq].
    + by apply temporary_path_ne.
    + unfold is_dir in *. destruct p as [|a [|b p]]; try done; simpl;
        (rewrite lookup_insert_ne; [done|by apply temporary_path_ne]).
Qed.

(** ** Concrete runs *)

Definition home_fs : fs :=
  {| nodes := {[ ["/"; "home"] := Dir 493; ["/"; "home"; "a.json"] := File "old" 420 ]};
     umask := 18; fs_fault := fun _ _ => None |}.
Definition full_disk : fs :=
  {| nodes := nodes home_fs; umask := 18;
     fs_fault := fun c _ => match c with CWrite => Some Broken | _ => None end |}.

Lemma atomic_write_all_or_nothing_witness :
  let s' := snd (atomic_write Z.of_nat ["/"; "home"; "a.json"] "new" 384 full_disk) in
  nodes s' !! ["/"; "home"; "a.json"] = nodes full_disk !! ["/"; "home"; "a.json"] /\
  forall q, nodes s' !! q <> nodes full_disk !! q -> nodes full_disk !! q = None.
Proof.
  refine (atomic_write_all_or_nothing Z.of_nat ["/"; "home"; "a.json"] "new" 384 full_disk
    (Err "write temporary file /home/.a.json.agentdesktop.0000000000000000.tmp: other error") _ _).
  vm_compute. reflexivity.
Defined.

Lemma atomic_write_succeeds_witness :
  exists s', atomic_write Z.of_nat ["/"; "home"; "a.json"] "new" 384 home_fs = (Ok tt, s').
Proof.
  refine (atomic_write_succeeds Z.of_nat ["/"; "home"; "a.json"] "a.json" "new" 384 home_fs 3 _ _ _ _ _ _);
    try (vm_compute; reflexivity); lia.
Defined.
