(* ===== verification/Plan.v ===== *)
(** * Reconciliation plans ([crates/agent/src/reconcile/plan.rs])

    A plan collects what the planners read and the file changes they propose;
    applying it first checks that nothing it read has changed. The model is the
    Unix build: the Windows registry part of a plan does not exist there. The
    plan's cells are one record that planning functions thread through; the
    file system is read while planning and changed only by applying. *)

From S2P Require Import Prelude Str Fs.

(** ** Data *)

Record FileChange : Type := {
  fc_path : path;
  fc_contents : option string;
  fc_permissions : Z;
}.

(** [DryRunChange] of [reconcile/mod.rs]. *)
Record DryRunChange : Type := {
  dc_display_name : string;
  dc_description : string;
  dc_action : string;
  dc_path : path;
  dc_before : option string;
  dc_after : option string;
}.

(** [DryRunReport] of [reconcile/mod.rs]. *)
Record DryRunReport : Type := {
  changes : list DryRunChange;
  report_inactive : list string;
}.

Record ReconcilePlan : Type := {
  observed : gmap path (option string);
  operations : list FileChange;
  private_dirs : list path;
  report : DryRunReport;
  inactive : option string;
}.

Record PlanSummary : Type := {
  sum_changes : bool;
  sum_conflicts : list string;
  sum_inactive : option string;
  sum_paths : list path;
}.

Inductive ApplyStop : Type :=
| Conflict
| Observed (p : path)
| PrivateDir (p : path)
| Operation (i : nat).

Definition default_report : DryRunReport := {| changes := []; report_inactive := [] |}.
(** [ReconcilePlan::default()]. *)
Definition default_plan : ReconcilePlan :=
  {| observed := ∅; operations := []; private_dirs := []; report := default_report;
     inactive := None |}.

Definition set_observed (m : gmap path (option string)) (pl : ReconcilePlan) : ReconcilePlan :=
  {| observed := m; operations := operations pl; private_dirs := private_dirs pl;
     report := report pl; inactive := inactive pl |}.
Definition push_operation (c : FileChange) (pl : ReconcilePlan) : ReconcilePlan :=
  {| observed := observed pl; operations := operations pl ++ [c];
     private_dirs := private_dirs pl; report := report pl; inactive := inactive pl |}.
Definition push_change (c : DryRunChange) (pl : ReconcilePlan) : ReconcilePlan :=
  {| observed := observed pl; operations := operations pl; private_dirs := private_dirs pl;
     report := {| changes := changes (report pl) ++ [c];
                  report_inactive := report_inactive (report pl) |};
     inactive := inactive pl |}.

(** [BTreeMap] iteration order. *)
Definition entry_le (a b : path * option string) : Prop :=
  path_leb (fst a) (fst b) = true.
#[global] Instance entry_le_dec : RelDecision entry_le.
Proof. intros a b. unfold entry_le. apply _. Defined.
Definition iter_observed (m : gmap path (option string)) : list (path * option string) :=
  merge_sort entry_le (map_to_list m).

(** ** Planning *)

Definition planning (A : Type) : Type := ST ReconcilePlan string A.

(** [ReconcilePlan::inactive]. *)
Definition set_inactive (reason : string) (pl : ReconcilePlan) : ReconcilePlan :=
  {| observed := observed pl; operations := operations pl; private_dirs := private_dirs pl;
     report := report pl; inactive := Some reason |}.

(** [ReconcilePlan::skipped]. *)
Definition skipped (reason : string) : ReconcilePlan :=
  let pl := set_inactive reason default_plan in
  {| observed := observed pl; operations := operations pl; private_dirs := private_dirs pl;
     report := {| changes := changes (report pl);
                  report_inactive := report_inactive (report pl) ++ [reason] |};
     inactive := inactive pl |}.

Definition read_optional (s : fs) (p : path) : result (option string) io_kind :=
  match fs_read s p with
  | Ok contents => Ok (Some contents)
  | Err NotFound => Ok None
  | Err e => Err e
  end.

(** [ReconcilePlan::read]: the first read of a path is cached. *)
Definition read (s : fs) (p : path) : ST ReconcilePlan io_kind string :=
  fun pl =>
    let fetched :=
      match observed pl !! p with
      | Some known => Ok (known, pl)
      | None =>
          match read_optional s p with
          | Ok o => Ok (o, set_observed (<[p := o]> (observed pl)) pl)
          | Err e => Err e
          end
      end in
    match fetched with
    | Err e => (Err e, pl)
    | Ok (Some contents, pl') => (Ok contents, pl')
    | Ok (None, pl') => (Err NotFound, pl')
    end.

Definition write_file (s : fs) (p : path) (contents : string) (permissions : Z) : planning unit :=
  fun pl =>
    match read s p pl with
    | (Ok _, pl') | (Err NotFound, pl') =>
        (Ok tt, push_operation {| fc_path := p; fc_contents := Some contents;
                                  fc_permissions := permissions |} pl')
    | (Err e, pl') =>
        (Err (context ("read " +:+ display p +:+ " before planning write") (io_kind_message e)), pl')
    end.

Definition plan_private_dir (dir : path) (pl : ReconcilePlan) : ReconcilePlan :=
  {| observed := observed pl; operations := operations pl;
     private_dirs := private_dirs pl ++ [dir]; report := report pl; inactive := inactive pl |}.

Definition remove_file (s : fs) (p : path) : ST ReconcilePlan io_kind unit :=
  let* _ := read s p in
  fun pl => (Ok tt, push_operation {| fc_path := p; fc_contents := None; fc_permissions := 0 |} pl).

(** [DryRunReport::record], through [ReconcilePlan::record_diff]. *)
Definition record_diff (display_name description action : string) (p : path)
    (before after : option string) (pl : ReconcilePlan) : ReconcilePlan :=
  push_change {| dc_display_name := display_name; dc_description := description;
                 dc_action := action; dc_path := p;
                 dc_before := from_utf8_lossy <$> before;
                 dc_after := from_utf8_lossy <$> after |} pl.

(** [ReconcilePlan::record]: a removal shows the file it removes. *)
Definition record (s : fs) (display_name description action : string) (p : path)
    (pl : ReconcilePlan) : ReconcilePlan :=
  let '(before, pl) :=
    if String.eqb action "remove"
    then let '(r, pl') := read s p pl in (result_ok r, pl')
    else (None, pl) in
  record_diff display_name description action p before None pl.

Definition is_conflict (c : DryRunChange) : bool := String.eqb (dc_action c) "conflict".
Definition has_conflicts (pl : ReconcilePlan) : bool := any is_conflict (changes (report pl)).

(** ** What a plan contains *)

Definition operation_count (pl : ReconcilePlan) : nat := length (operations pl).
(** No registry on this platform. *)
Definition registry_operation_count (pl : ReconcilePlan) : nat := 0%nat.

Definition conflict_line (c : DryRunChange) : string :=
  dc_description c +:+ " at " +:+ display (dc_path c)
  +:+ ": conflicting or invalid existing configuration".

Definition summary (pl : ReconcilePlan) : PlanSummary :=
  let differs :=
    any (fun c => negb (bool_decide (observed pl !! fc_path c = Some (fc_contents c))))
        (operations pl) in
  let recorded :=
    any (fun c => String.eqb (dc_action c) "create" || String.eqb (dc_action c) "update"
                  || String.eqb (dc_action c) "remove") (changes (report pl)) in
  let paths :=
    fold_left (fun paths c => if bool_decide (fc_path c ∈ paths) then paths
                              else (paths ++ [fc_path c])%list)
              (operations pl) (map fst (iter_observed (observed pl))) in
  {| sum_changes := differs || recorded;
     sum_conflicts := map conflict_line (retain is_conflict (changes (report pl)));
     sum_inactive := inactive pl;
     sum_paths := paths |}.

(** ** Applying *)

(** Whether the file at [p] grants a permission bit outside [mode]. *)
Definition grants_beyond (s : fs) (p : path) (mode : Z) : bool :=
  match fs_metadata s p with
  | Ok m => negb (Z.land (Z.ldiff m mode) 511 =? 0)
  | Err _ => false
  end.

Definition already_in_place (s : fs) (p : path) (contents : string) (permissions : Z)
    (obs : gmap path (option string)) : bool :=
  bool_decide (mjoin (obs !! p) = Some contents)
  && is_ok (fs_metadata s p)
  && negb (grants_beyond s p permissions).

(** The first observed path that no longer reads as it did. *)
Fixpoint check_observed (s : fs) (l : list (path * option string)) : option (string * path) :=
  match l with
  | [] => None
  | (p, expected) :: l =>
      match read_optional s p with
      | Err e =>
          Some (context ("validate " +:+ display p +:+ " before applying plan") (io_kind_message e), p)
      | Ok current =>
          if bool_decide (current = expected) then check_observed s l
          else Some (display p +:+ " changed since reconciliation was planned; retry reconciliation", p)
      end
  end.

Fixpoint create_private_dirs (dirs : list path) : ST fs (string * ApplyStop) unit :=
  match dirs with
  | [] => st_ret tt
  | dir :: dirs =>
      (fun s => if fs_exists s dir then (Ok tt, s)
                else st_map_err (fun e => (e, PrivateDir dir)) (ensure_private_dir dir) s) ;*
      create_private_dirs dirs
  end.

(** One operation, when it is not already in place. *)
Definition apply_change (rng : nat -> Z) (c : FileChange) : ST fs string unit :=
  match fc_contents c with
  | Some contents =>
      let dir := parent_or_dot (fc_path c) in
      with_context ("create directory " +:+ display dir) (create_dir_all dir) ;*
      atomic_write rng (fc_path c) contents (fc_permissions c)
  | None => with_context ("remove " +:+ display (fc_path c)) (fs_remove_file (fc_path c))
  end.

Definition skips (obs : gmap path (option string)) (s : fs) (c : FileChange) : bool :=
  match fc_contents c with
  | Some contents => already_in_place s (fc_path c) contents (fc_permissions c) obs
  | None => false
  end.

(** [rng i] is the random stream of the write at index [i]. *)
Fixpoint apply_operations (rng : nat -> nat -> Z) (obs : gmap path (option string))
    (i : nat) (ops : list FileChange) : ST fs (string * ApplyStop) unit :=
  match ops with
  | [] => st_ret tt
  | c :: ops =>
      (fun s => if skips obs s c then (Ok tt, s)
                else st_map_err (fun e => (e, Operation i)) (apply_change (rng i) c) s) ;*
      apply_operations rng obs (S i) ops
  end.

Definition conflict_error (c : DryRunChange) : string :=
  "refusing to change " +:+ dc_display_name c +:+ " " +:+ dc_description c +:+ " at "
  +:+ display (dc_path c) +:+ ": conflicting or invalid existing configuration".

Definition apply_tracked (rng : nat -> nat -> Z) (pl : ReconcilePlan)
  : ST fs (string * ApplyStop) unit :=
  match find is_conflict (changes (report pl)) with
  | Some c => st_err (conflict_error c, Conflict)
  | None =>
      (fun s => match check_observed s (iter_observed (observed pl)) with
                | Some (e, p) => (Err (e, Observed p), s)
                | None => (Ok tt, s)
                end) ;*
      create_private_dirs (private_dirs pl) ;*
      apply_operations rng (observed pl) 0 (operations pl)
  end.

(** [ReconcilePlan::apply]. *)
Definition apply (rng : nat -> nat -> Z) (pl : ReconcilePlan) : ST fs string unit :=
  st_map_err fst (apply_tracked rng pl).

(** ** Appending *)

Fixpoint append_observed (l : list (path * option string)) : ST ReconcilePlan (string * path) unit :=
  match l with
  | [] => st_ret tt
  | (p, expected) :: l =>
      (fun pl =>
         match observed pl !! p with
         | Some previous =>
             if bool_decide (previous = expected)
             then (Ok tt, set_observed (<[p := expected]> (observed pl)) pl)
             else (Err (display p +:+ " changed while planning reconciliation", p), pl)
         | None => (Ok tt, set_observed (<[p := expected]> (observed pl)) pl)
         end) ;*
      append_observed l
  end.

Fixpoint append_operations (l : list FileChange) : ST ReconcilePlan (string * path) unit :=
  match l with
  | [] => st_ret tt
  | c :: l =>
      (fun pl =>
         if any (fun existing => bool_decide (fc_path existing = fc_path c)) (operations pl)
         then (Err ("multiple providers plan to modify " +:+ display (fc_path c), fc_path c), pl)
         else (Ok tt, push_operation c pl)) ;*
      append_operations l
  end.

(** A failure leaves what was appended before it. *)
Definition append_attributed (other : ReconcilePlan) : ST ReconcilePlan (string * path) unit :=
  append_observed (iter_observed (observed other)) ;*
  (fun pl => (Ok tt, {| observed := observed pl; operations := operations pl;
                        private_dirs := private_dirs pl ++ private_dirs other;
                        report := report pl; inactive := inactive pl |})) ;*
  append_operations (operations other) ;*
  (fun pl => (Ok tt,
     {| observed := observed pl; operations := operations pl; private_dirs := private_dirs pl;
        report := {| changes := changes (report pl) ++ changes (report other);
                     report_inactive :=
                       report_inactive (report pl) ++ report_inactive (report other) |};
        inactive := inactive pl |})).

(** [ReconcilePlan::append]. *)
Definition append (other : ReconcilePlan) : planning unit :=
  st_map_err fst (append_attributed other).

(** ** Reading *)

Lemma read_optional_Some s p c :
  read_optional s p = Ok (Some c) -> exists m, file_at s p = Some (c, m).
Proof.
  unfold read_optional, fs_read, file_at. destruct (fs_fault s CRead p) as [[]|]; try done.
  destruct (nodes s !! p) as [[]|]; naive_solver.
Qed.

Lemma read_optional_fault s p o : read_optional s p = Ok o -> fs_fault s CRead p = None.
Proof. unfold read_optional, fs_read. by destruct (fs_fault s CRead p) as [[]|]. Qed.

Lemma read_optional_file s p c m :
  fs_fault s CRead p = None -> file_at s p = Some (c, m) -> read_optional s p = Ok (Some c).
Proof.
  unfold read_optional, fs_read, file_at. intros ->. destruct (nodes s !! p) as [[]|]; naive_solver.
Qed.

Lemma check_observed_None s l :
  check_observed s l = None <-> forall p e, (p, e) ∈ l -> read_optional s p = Ok e.
Proof.
  induction l as [|[p e] l IH]; simpl.
  { split; [|done]. intros _ p e Hin. by apply not_elem_of_nil in Hin. }
  destruct (read_optional s p) as [cur|k] eqn:E.
  - case_bool_decide as Hc; [subst cur|].
    + rewrite IH. split; intros H q e'.
      * intros [[= -> ->]|Hin]%elem_of_cons; [done|by apply H].
      * intros Hin. apply H. by apply list_elem_of_further.
    + split; [done|]. intros H. exfalso. apply Hc.
      assert (read_optional s p = Ok e) by (apply H, list_elem_of_here). congruence.
  - split; [done|]. intros H.
    assert (read_optional s p = Ok e) by (apply H, list_elem_of_here). congruence.
Qed.

Lemma elem_of_iter_observed p e m : (p, e) ∈ iter_observed m <-> m !! p = Some e.
Proof.
  unfold iter_observed. rewrite <- (elem_of_map_to_list m).
  by rewrite (merge_sort_Permutation entry_le (map_to_list m)).
Qed.

(** ** What applying does *)

Definition within (mode permissions : Z) : Prop := Z.land (Z.ldiff mode permissions) 511 = 0.

(** The state an operation asks for: the planned bytes at a mode within the
    planned one, or no file. *)
Definition change_done (s : fs) (c : FileChange) : Prop :=
  match fc_contents c with
  | Some contents =>
      exists m, file_at s (fc_path c) = Some (contents, m) /\ within m (fc_permissions c)
  | None => file_at s (fc_path c) = None
  end.

(** Every operation's path that was observed with contents still has them. *)
Definition observations_hold (obs : gmap path (option string)) (ops : list FileChange) (s : fs)
  : Prop :=
  forall c contents, c ∈ ops -> obs !! fc_path c = Some (Some contents) ->
    exists m, file_at s (fc_path c) = Some (contents, m).

Lemma create_private_dirs_frame dirs s r s' :
  create_private_dirs dirs s = (r, s') -> frame [] s s'.
Proof.
  revert s. induction dirs as [|dir dirs IH]; intros s; simpl.
  { intros [= _ <-]. done. }
  intros [(e & H & _)|(a & s1 & H & H2)]%st_bind_inv; [|apply IH in H2; etrans; [|done]];
    (destruct (fs_exists s dir); [by simplify_eq|]);
    apply st_map_err_inv in H as (r0 & H & _); by eapply ensure_private_dir_frame.
Qed.

Lemma apply_change_Ok rng c s s' :
  apply_change rng c s = (Ok tt, s') -> frame [fc_path c] s s' /\ change_done s' c.
Proof.
  unfold apply_change, change_done. destruct (fc_contents c) as [contents|].
  - intros [(e & _ & ?)|(a & s1 & H & H2)]%st_bind_inv; [done|].
    apply st_map_err_inv in H as (r0 & H & _).
    apply create_dir_all_adds, adds_dirs_frame in H.
    apply atomic_write_files in H2 as (_ & Hf & Hp). split.
    + etrans; [|done]. eapply frame_mono; [|done]. set_solver.
    + exists (masked (fc_permissions c) s1). split; [done|]. apply masked_within.
  - intros (r0 & H & Hr)%st_map_err_inv. destruct r0; [|done].
    apply fs_remove_file_spec in H as (He & Hn & _). unfold file_at. rewrite Hn. split.
    + split; [done|]. intros q Hq. unfold file_at. rewrite Hn, lookup_delete_ne; set_solver.
    + by rewrite lookup_delete_eq.
Qed.

Lemma apply_change_Err rng c s e s' :
  apply_change rng c s = (Err e, s') ->
  same_env s s' /\
  forall q, q = fc_path c \/ is_Some (file_at s q) -> file_at s' q = file_at s q.
Proof.
  unfold apply_change. destruct (fc_contents c) as [contents|].
  - intros [(e' & H & _)|(a & s1 & H & H2)]%st_bind_inv;
      apply st_map_err_inv in H as (r0 & H & _);
      apply create_dir_all_adds, adds_dirs_frame in H as [He H].
    + split; [done|]. intros q _. apply H. set_solver.
    + apply atomic_write_files in H2 as (He2 & H2). split; [by etrans|]. intros q Hq.
      rewrite H2; rewrite H by set_solver; done.
  - intros (r0 & H & Hr)%st_map_err_inv. destruct r0; [done|].
    apply fs_remove_file_spec in H as (_ & ->). done.
Qed.

Lemma skips_done obs s c :
  (forall contents, obs !! fc_path c = Some (Some contents) ->
     exists m, file_at s (fc_path c) = Some (contents, m)) ->
  skips obs s c = true -> change_done s c.
Proof.
  unfold skips, already_in_place, change_done, grants_beyond. intros Hobs.
  destruct (fc_contents c) as [contents|]; [|done].
  rewrite !andb_true_iff, bool_decide_eq_true. intros [[Hj Hm] Hg].
  destruct (obs !! fc_path c) as [[c'|]|] eqn:E; simplify_eq/=.
  destruct (Hobs _ eq_refl) as [m Hf]. exists m. split; [done|]. unfold within.
  unfold fs_metadata, file_at in *. destruct (fs_fault s CMetadata _); [done|].
  destruct (nodes s !! fc_path c) as [[]|]; simplify_eq.
  rewrite negb_involutive in Hg. by apply Z.eqb_eq.
Qed.

Lemma change_done_frame ps s s' c :
  frame ps s s' -> fc_path c ∉ ps -> change_done s c -> change_done s' c.
Proof. intros [_ H] Hp. unfold change_done. by rewrite H. Qed.

Lemma observations_hold_frame obs p ops s s' :
  frame [p] s s' -> (forall c, c ∈ ops -> fc_path c <> p) ->
  observations_hold obs ops s -> observations_hold obs ops s'.
Proof.
  intros [_ H] Hp Ho c contents Hc Hobs. rewrite H by set_solver. by eapply Ho.
Qed.

Lemma apply_step_Ok rng obs i c s s' :
  observations_hold obs [c] s ->
  (if skips obs s c then (Ok tt, s)
   else st_map_err (fun e => (e, Operation i)) (apply_change rng c) s) = (Ok tt, s') ->
  frame [fc_path c] s s' /\ change_done s' c.
Proof.
  intros Ho. destruct (skips obs s c) eqn:E.
  - intros [= <-]. split; [done|]. eapply skips_done; [|done]. intros contents.
    apply Ho. set_solver.
  - intros (r0 & H & Hr)%st_map_err_inv. destruct r0 as [[]|]; [|done].
    by eapply apply_change_Ok.
Qed.

Lemma observations_hold_cons obs c ops s :
  observations_hold obs (c :: ops) s -> observations_hold obs [c] s /\ observations_hold obs ops s.
Proof. intros H. split; intros c' k Hc'; apply H; set_solver. Qed.

(** The operations from index [i] on: on success all are done; when the one at
    index [k] fails, those before it are done in a state from which the failing
    one changed no file that existed and not its target. *)
Lemma apply_operations_spec rng obs i ops s r s' :
  NoDup (map fc_path ops) -> observations_hold obs ops s ->
  apply_operations rng obs i ops s = (r, s') ->
  match r with
  | Ok _ => frame (map fc_path ops) s s' /\ (forall c, c ∈ ops -> change_done s' c)
  | Err (_, stop) =>
      exists k c mid, stop = Operation (i + k) /\ ops !! k = Some c /\
        frame (map fc_path (take k ops)) s mid /\
        (forall c', c' ∈ take k ops -> change_done mid c') /\
        same_env mid s' /\
        (forall q, q = fc_path c \/ is_Some (file_at mid q) -> file_at s' q = file_at mid q)
  end.
Proof.
  revert i s. induction ops as [|c ops IH]; intros i s Hnd Ho; simpl.
  { intros [= <- <-]. split; [done|]. set_solver. }
  apply NoDup_cons in Hnd as [Hc Hnd].
  apply observations_hold_cons in Ho as [Ho1 Ho].
  intros [(e & H & ->)|([] & s1 & H & H2)]%st_bind_inv.
  - destruct (skips obs s c); [done|].
    apply st_map_err_inv in H as (r0 & H & Hr). destruct r0 as [|e0]; [done|].
    simplify_eq/=. apply apply_change_Err in H as [He H].
    exists 0%nat, c, s. rewrite Nat.add_0_r. repeat split; try done; try apply He.
    set_solver.
  - apply apply_step_Ok in H as [Hf Hd]; [|done].
    assert (forall c', c' ∈ ops -> fc_path c' <> fc_path c) as Hne.
    { intros c' Hc' E. apply Hc. rewrite <- E. by apply list_elem_of_fmap_2. }
    apply IH in H2; [|done|by eapply observations_hold_frame].
    destruct r as [u|[e stop]].
    + destruct H2 as [Hf2 Hd2]. split.
      * by eapply frame_cons.
      * intros c' [->|Hc']%elem_of_cons; [|by apply Hd2].
        by eapply change_done_frame.
    + destruct H2 as (k & c' & mid & -> & Hk & Hf2 & Hd2 & Hm).
      exists (S k), c', mid. split; [f_equal; lia|]. split; [done|].
      assert (fc_path c ∉ map fc_path (take k ops)) as Hct.
      { intros Hin. apply Hc. apply list_elem_of_fmap in Hin as (x & -> & Hx).
        apply list_elem_of_fmap_2. apply elem_of_take in Hx as (j & Hj & _). by eapply list_elem_of_lookup_2. }
      split; [|split; [|done]].
      * by eapply frame_cons.
      * intros x [->|Hx]%elem_of_cons; [by eapply change_done_frame|by apply Hd2].
Qed.

(** Whether an apply stopped before its first write. *)
Definition refused (stop : ApplyStop) : bool :=
  match stop with Conflict | Observed _ => true | _ => false end.

Lemma apply_tracked_inv rng pl s r s' :
  apply_tracked rng pl s = (r, s') ->
  (exists e stop, r = Err (e, stop) /\ refused stop = true /\ s' = s) \/
  (find is_conflict (changes (report pl)) = None /\
   (forall p e, observed pl !! p = Some e -> read_optional s p = Ok e) /\
   ((exists e dir, r = Err (e, PrivateDir dir) /\ frame [] s s') \/
    exists s1, frame [] s s1 /\ apply_operations rng (observed pl) 0 (operations pl) s1 = (r, s'))).
Proof.
  unfold apply_tracked. destruct (find is_conflict _) as [c|] eqn:Ec.
  { intros [= <- <-]. left. by eexists _, _. }
  intros [(e & H & ->)|([] & s1 & H & H2)]%st_bind_inv.
  - left. destruct (check_observed s _) as [[e' p]|]; simplify_eq. by eexists _, _.
  - right. destruct (check_observed s _) as [[e' p]|] eqn:Eo; simplify_eq.
    split; [done|]. split.
    { intros p e Hp. apply (proj1 (check_observed_None _ _) Eo). by apply elem_of_iter_observed. }
    apply st_bind_inv in H2 as [(e & H2 & ->)|([] & s2 & H2 & H3)].
    + left. assert (exists e' d, e = (e', PrivateDir d)) as (e' & d & ->).
      { revert H2. clear. revert s1. induction (private_dirs pl) as [|d ds IH]; intros s1; [done|].
        simpl. intros [(e0 & H & [= ->])|([] & s2 & H & H2)]%st_bind_inv; [|by eapply IH].
        destruct (fs_exists s1 d); [done|].
        apply st_map_err_inv in H as ([] & _ & [= ->]). eauto. }
      apply create_private_dirs_frame in H2. eauto.
    + right. apply create_private_dirs_frame in H2. eauto.
Qed.

Lemma observed_reads_hold pl s s1 :
  (forall p e, observed pl !! p = Some e -> read_optional s p = Ok e) -> frame [] s s1 ->
  observations_hold (observed pl) (operations pl) s1.
Proof.
  intros Hr [_ Hf] c contents _ Hc. rewrite Hf by set_solver.
  by apply read_optional_Some, Hr.
Qed.

Lemma apply_tracked_refused rng pl s e stop s' :
  apply_tracked rng pl s = (Err (e, stop), s') -> refused stop = true -> s' = s.
Proof.
  intros [(e' & st & [= <- <-] & _ & ->)|(_ & Hread & Hcase)]%apply_tracked_inv Hs; [done|].
  exfalso. destruct Hcase as [(e' & d & [= <- ->] & _)|(s1 & Hf & H)]; [done|].
  revert H Hs. clear. generalize 0%nat as i. revert s1.
  induction (operations pl) as [|c ops IH]; intros s1 i; [done|]. simpl.
  intros [(e' & H & [= <-])|([] & s2 & _ & H2)]%st_bind_inv; [|by eapply IH].
  destruct (skips _ s1 c); [done|]. by apply st_map_err_inv in H as ([] & _ & [= _ ->]).
Qed.

Lemma apply_tracked_Ok rng pl s s' :
  NoDup (map fc_path (operations pl)) ->
  apply_tracked rng pl s = (Ok tt, s') ->
  (forall c, c ∈ operations pl -> change_done s' c) /\
  frame (map fc_path (operations pl)) s s'.
Proof.
  intros Hnd [(e & st & [=] & _)|(_ & Hread & [(? & ? & [=] & _)|(s1 & Hf & H)])]%apply_tracked_inv.
  apply apply_operations_spec in H as [Hf' Hd]; [|done|by eapply observed_reads_hold].
  split; [done|]. transitivity s1; [|done]. eapply frame_mono; [|done]. set_solver.
Qed.

(** A successful apply leaves every planned file with the planned bytes at a
    mode that grants nothing beyond the planned one, every planned removal
    removed, and no other file changed. *)
Theorem apply_completed rng pl s s' :
  NoDup (map fc_path (operations pl)) ->
  apply_tracked rng pl s = (Ok tt, s') ->
  (forall c, c ∈ operations pl -> change_done s' c) /\
  frame (map fc_path (operations pl)) s s'.
Proof. apply apply_tracked_Ok. Qed.

Lemma apply_tracked_failed rng pl s e k s' :
  NoDup (map fc_path (operations pl)) ->
  apply_tracked rng pl s = (Err (e, Operation k), s') ->
  exists c mid,
    operations pl !! k = Some c /\
    frame (map fc_path (take k (operations pl))) s mid /\
    (forall c', c' ∈ take k (operations pl) -> change_done mid c') /\
    (forall q, q = fc_path c \/ is_Some (file_at mid q) -> file_at s' q = file_at mid q).
Proof.
  intros Hnd [(e' & st & [= <- <-] & ? & _)|(_ & Hread & [(? & ? & [=] & _)|(s1 & Hf & H)])]%apply_tracked_inv.
  { done. }
  apply apply_operations_spec in H as (k' & c & mid & [= ->] & Hk & Hf2 & Hd & _ & Hq);
    [|done|by eapply observed_reads_hold].
  exists c, mid. split; [done|]. split; [|done].
  transitivity s1; [|done]. eapply frame_mono; [|done]. set_solver.
Qed.

(** When the write at index [k] fails, the operations before it are done and
    the failed one changed neither its target nor any file that existed when it
    ran; no file outside the earlier operations' paths changed before it. *)
Theorem apply_failed_at_operation rng pl s e k s' :
  NoDup (map fc_path (operations pl)) ->
  apply_tracked rng pl s = (Err (e, Operation k), s') ->
  exists c mid,
    operations pl !! k = Some c /\
    frame (map fc_path (take k (operations pl))) s mid /\
    (forall c', c' ∈ take k (operations pl) -> change_done mid c') /\
    (forall q, q = fc_path c \/ is_Some (file_at mid q) -> file_at s' q = file_at mid q).
Proof. apply apply_tracked_failed. Qed.

(** ** Where an apply can stop *)

Lemma create_private_dirs_stop dirs s e stop s' :
  create_private_dirs dirs s = (Err (e, stop), s') -> exists d, d ∈ dirs /\ stop = PrivateDir d.
Proof.
  revert s. induction dirs as [|d ds IH]; intros s; [done|]. simpl.
  intros [(e0 & H & [= <-])|([] & s2 & H & H2)]%st_bind_inv.
  - destruct (fs_exists s d); [done|]. apply st_map_err_inv in H as ([] & _ & [= _ ->]).
    exists d. split; [apply list_elem_of_here|done].
  - apply IH in H2 as (d' & Hd & ->). exists d'. split; [by apply list_elem_of_further|done].
Qed.

Lemma apply_operations_stop rng obs i ops s e stop s' :
  apply_operations rng obs i ops s = (Err (e, stop), s') ->
  exists k, stop = Operation k /\ (i <= k < i + length ops)%nat.
Proof.
  revert i s. induction ops as [|c ops IH]; intros i s; [done|]. simpl.
  intros [(e0 & H & [= <-])|([] & s2 & H & H2)]%st_bind_inv.
  - destruct (skips obs s c); [done|]. apply st_map_err_inv in H as ([] & _ & [= _ ->]).
    exists i. split; [done|lia].
  - apply IH in H2 as (k & -> & Hk). exists k. split; [done|lia].
Qed.


(** The first observation that does not hold any more is the one that is named. *)
Lemma check_observed_stale s l e p : check_observed s l = Some (e, p) -> exists o, (p, o) ∈ l /\ read_optional s p <> Ok o.
Proof.
  induction l as [|[q o] l IH]; simpl; [done|].
  destruct (read_optional s q) as [cur|k] eqn:E; [case_bool_decide; [subst cur|]|].
  - intros (o' & ? & ?)%IH. exists o'. split; [by apply list_elem_of_further|done].
  - intros [= _ <-]. exists o. split; [apply list_elem_of_here|]. congruence.
  - intros [= _ <-]. exists o. split; [apply list_elem_of_here|]. congruence.
Qed.
Lemma find_conflict_None pl :
  find is_conflict (changes (report pl)) = None <-> forall c, c ∈ changes (report pl) -> dc_action c <> "conflict".
Proof.
  rewrite find_none. unfold is_conflict. split; intros H c Hc; specialize (H c Hc); [by apply String.eqb_neq|by apply String.eqb_neq].
Qed.

(** A plan with a change that is a conflict, and a path that does not read as when the
    plan was made. *)
Definition conflicting (pl : ReconcilePlan) : Prop := exists c, c ∈ changes (report pl) /\ dc_action c = "conflict".
Lemma has_conflicts_conflicting pl : has_conflicts pl = true -> conflicting pl.
Proof. intros (c & Hc & Hi)%any_true. exists c. split; [done|]. by apply String.eqb_eq. Qed.
Definition stale (pl : ReconcilePlan) (s : fs) (p : path) : Prop :=
  exists expected, observed pl !! p = Some expected /\ read_optional s p <> Ok expected.

(** C1. A plan with a conflict, or of which an observed file has changed, is refused with
    nothing written: the apply fails, names the conflict or a file that changed, and the
    file system is exactly what it was; and it refuses nothing else. *)
Theorem apply_refused_writes_nothing rng pl s :
  (conflicting pl \/ (exists p, stale pl s p) ->
   exists e stop, apply_tracked rng pl s = (Err (e, stop), s) /\
     (conflicting pl /\ stop = Conflict \/ ~ conflicting pl /\ exists p, stale pl s p /\ stop = Observed p)) /\
  (forall e stop s', apply_tracked rng pl s = (Err (e, stop), s') -> stop = Conflict \/ (exists p, stop = Observed p) ->
   s' = s /\ (conflicting pl \/ exists p, stale pl s p)).
Proof.
  assert (find is_conflict (changes (report pl)) = None -> ~ conflicting pl) as Hnone.
  { intros H (c & Hc & Ha). by eapply find_conflict_None in H. }
  assert (forall c, find is_conflict (changes (report pl)) = Some c -> conflicting pl) as Hsome.
  { intros c [Hc Hi]%find_some. exists c. split; [done|]. by apply String.eqb_eq. }
  assert (forall e p, check_observed s (iter_observed (observed pl)) = Some (e, p) -> stale pl s p) as Hstale.
  { intros e p (o & Ho & Hr)%check_observed_stale. exists o. split; [by apply elem_of_iter_observed|done]. }
  split.
  - intros Hwhy. unfold apply_tracked. destruct (find is_conflict _) as [c|]; [eexists _, _; split; [done|by left; split; [eapply Hsome|]]|].
    unfold st_bind at 1. destruct (check_observed s _) as [[e p]|] eqn:Eo; [eexists _, _; split; [done|right; split; [by apply Hnone|]]|].
    { exists p. split; [by eapply Hstale|done]. }
    exfalso. destruct Hwhy as [?|(q & o & Ho & Hr)]; [by apply Hnone|]. apply Hr.
    by apply (proj1 (check_observed_None _ _) Eo), elem_of_iter_observed.
  - intros e stop s' H Hstop. assert (refused stop = true) as Hs by (by destruct Hstop as [->|[? ->]]).
    split; [by eapply apply_tracked_refused|]. unfold apply_tracked in H.
    destruct (find is_conflict _) as [c|] eqn:Ec; [left; by eapply Hsome|right].
    destruct (check_observed s _) as [[e' p]|] eqn:Eo; [exists p; by eapply Hstale|]. exfalso.
    apply st_bind_inv in H as [(e' & H1 & _)|([] & s1 & H1 & H)]; rewrite Eo in H1; [discriminate|]; injection H1 as <-.
    apply st_bind_inv in H as [(e' & H & [= <-])|([] & s2 & _ & H)].
    + apply create_private_dirs_stop in H as (d & _ & ->). by destruct Hstop as [|[]].
    + apply apply_operations_stop in H as (k & -> & _). by destruct Hstop as [|[]].
Qed.

Lemma apply_tracked_stop rng pl s e stop s' :
  apply_tracked rng pl s = (Err (e, stop), s') ->
  match stop with
  | Conflict => any is_conflict (changes (report pl)) = true
  | Observed p => is_Some (observed pl !! p)
  | PrivateDir d => d ∈ private_dirs pl
  | Operation i => (i < operation_count pl)%nat
  end.
Proof.
  unfold apply_tracked. destruct (find is_conflict _) as [c|] eqn:Ec.
  { intros [= <- <- <-]. apply any_true. exists c. by apply find_some. }
  intros [(e' & H & [= <-])|([] & s1 & H & H2)]%st_bind_inv.
  - destruct (check_observed s _) as [[e' p]|] eqn:Eo; simplify_eq.
    apply check_observed_stale in Eo as (o & Ho%elem_of_iter_observed & _). by exists o.
  - apply st_bind_inv in H2 as [(e' & H2 & [= <-])|([] & s2 & _ & H3)].
    + by apply create_private_dirs_stop in H2 as (d & Hd & ->).
    + apply apply_operations_stop in H3 as (k & -> & Hk). unfold operation_count. lia.
Qed.

(** ** Appending plans *)

Lemma append_operations_spec l pl r pl' :
  append_operations l pl = (r, pl') ->
  observed pl' = observed pl /\ private_dirs pl' = private_dirs pl /\ report pl' = report pl /\
  inactive pl' = inactive pl /\
  (NoDup (map fc_path (operations pl)) -> NoDup (map fc_path (operations pl'))) /\
  match r with
  | Ok _ => operations pl' = (operations pl ++ l)%list
  | Err (_, p) => exists l1 c l2, l = (l1 ++ c :: l2)%list /\
                    operations pl' = (operations pl ++ l1)%list /\ p = fc_path c /\
                    p ∈ map fc_path (operations pl')
  end.
Proof.
  revert pl. induction l as [|c l IH]; intros pl; simpl.
  { intros [= <- <-]. repeat split; try done. by rewrite app_nil_r. }
  intros [(e & H & ->)|([] & pl1 & H & H2)]%st_bind_inv; destruct (any _ _) eqn:Ea; simplify_eq.
  - repeat split; try done. exists [], c, l. rewrite app_nil_r. repeat split; try done.
    apply any_true in Ea as (x & Hx & Hxc%bool_decide_eq_true). rewrite <- Hxc. by apply list_elem_of_fmap_2.
  - apply IH in H2 as (-> & -> & -> & -> & Hnd & Hr). repeat split; try done.
    + intros Hnd'. apply Hnd. simpl. rewrite map_app. apply NoDup_app. split; [done|]. split.
      * intros x Hx ->%list_elem_of_singleton. apply list_elem_of_fmap in Hx as (y & Hy & Hin).
        rewrite any_false in Ea. specialize (Ea _ Hin). by rewrite bool_decide_eq_false in Ea.
      * apply NoDup_singleton.
    + destruct r as [|[e p]].
      * rewrite Hr. simpl. by rewrite <- app_assoc.
      * destruct Hr as (l1 & c' & l2 & -> & -> & ? & ?). exists (c :: l1), c', l2.
        simpl in *. rewrite <- app_assoc in *. done.
Qed.

Lemma append_observed_spec l pl r pl' :
  append_observed l pl = (r, pl') ->
  operations pl' = operations pl /\ private_dirs pl' = private_dirs pl /\
  report pl' = report pl /\ inactive pl' = inactive pl /\
  (forall p o, observed pl !! p = Some o -> observed pl' !! p = Some o) /\
  match r with
  | Ok _ => forall p o, observed pl' !! p = Some o <-> observed pl !! p = Some o \/ (p, o) ∈ l
  | Err (_, p) => exists o o', observed pl' !! p = Some o /\ (p, o') ∈ l /\ o <> o'
  end.
Proof.
  revert pl. induction l as [|[p o] l IH]; intros pl; simpl.
  { intros [= <- <-]. repeat split; try done; set_solver. }
  intros [(e & H & ->)|([] & pl1 & H & H2)]%st_bind_inv.
  - destruct (observed pl !! p) as [o'|] eqn:Ep; [|done].
    case_bool_decide; [done|]. simplify_eq. repeat split; try done.
    eexists _, _. repeat split; [done|apply list_elem_of_here|done].
  - assert (pl1 = set_observed (<[p := o]> (observed pl)) pl /\
            (forall o', observed pl !! p = Some o' -> o' = o)) as [-> Heq].
    { destruct (observed pl !! p); [case_bool_decide|]; simplify_eq; naive_solver. }
    assert (forall q x, observed pl !! q = Some x -> <[p := o]> (observed pl) !! q = Some x) as Hk.
    { intros q x Hq. destruct (decide (q = p)) as [->|].
      - rewrite lookup_insert_eq. f_equal. symmetry. by apply Heq.
      - by rewrite lookup_insert_ne. }
    apply IH in H2 as (Ho & -> & -> & -> & Hmono & Hr). simpl in *.
    split; [done|]. repeat split; try done. { eauto. }
    destruct r as [|[e q]].
    + intros q x. rewrite Hr, elem_of_cons, lookup_insert_Some.
      split; [naive_solver|]. intros [Hq|[[= -> ->]|Hin]]; [|by left; left|by right].
      left. destruct (decide (p = q)) as [->|]; [left; split; [done|]|by right].
      symmetry. by apply Heq.
    + destruct Hr as (x & x' & ? & ? & ?). exists x, x'. by rewrite elem_of_cons; auto.
Qed.

(** What appending does to the operations and the report. *)
Lemma append_attributed_operations other pl r pl' :
  append_attributed other pl = (r, pl') ->
  (NoDup (map fc_path (operations pl)) -> NoDup (map fc_path (operations pl'))) /\
  (exists l, operations pl' = (operations pl ++ l)%list) /\
  match r with
  | Ok _ => operations pl' = (operations pl ++ operations other)%list /\
            changes (report pl') = (changes (report pl) ++ changes (report other))%list /\
            (forall p o, observed pl' !! p = Some o <->
               observed pl !! p = Some o \/ observed other !! p = Some o)
  | Err _ => True
  end.
Proof.
  intros [(e & H & ->)|([] & pl1 & H & H2)]%st_bind_inv;
    apply append_observed_spec in H as (Ho & _ & Hrep & _ & _ & Hobs).
  { rewrite Ho. split; [done|]. split; [exists []; by rewrite app_nil_r|done]. }
  apply st_bind_inv in H2 as [(e & H & ->)|([] & pl2 & [= <-] & H2)]; [done|].
  apply st_bind_inv in H2 as [(e & H & ->)|([] & pl3 & H & [= <- <-])];
    apply append_operations_spec in H as (Hob & _ & Hrp & _ & Hnd & H); simpl in *;
    rewrite Ho in Hnd, H; (split; [done|]).
  - destruct e as [e p]. destruct H as (l1 & c & l2 & _ & Heq & _). split; [|done]. by exists l1.
  - split; [by exists (operations other)|]. split; [done|]. split; [by rewrite Hrp, Hrep|].
    intros p o. rewrite Hob, Hobs. by rewrite elem_of_iter_observed.
Qed.

(** Appending never lets two providers change one file: when it succeeds the
    operations are the two lists in order without a repeated path, and the two
    plans saw the same contents wherever both looked; when it fails, the path it
    names is one they both change or saw differently. *)
Theorem append_is_disjoint pl other r pl' :
  NoDup (map fc_path (operations pl)) ->
  append_attributed other pl = (r, pl') ->
  NoDup (map fc_path (operations pl')) /\
  match r with
  | Ok _ =>
      operations pl' = (operations pl ++ operations other)%list /\
      (forall p, is_Some (observed pl !! p) -> is_Some (observed other !! p) ->
         observed pl !! p = observed other !! p) /\
      (forall p, observed pl' !! p = (observed pl !! p) ∪ (observed other !! p))
  | Err (_, p) =>
      (exists o o', observed pl' !! p = Some o /\ observed other !! p = Some o' /\ o <> o') \/
      (p ∈ map fc_path (operations other) /\ p ∈ map fc_path (operations pl'))
  end.
Proof.
  intros Hnd [(e & H & ->)|([] & pl1 & H & H2)]%st_bind_inv;
    apply append_observed_spec in H as (Ho & Hd & Hrep & Hi & Hmono & Hr).
  { rewrite Ho. split; [done|]. destruct e as [e p].
    destruct Hr as (o & o' & ? & ?%elem_of_iter_observed & ?). left. eauto. }
  apply st_bind_inv in H2 as [(e & H & ->)|([] & pl2 & [= <-] & H2)]; [done|].
  apply st_bind_inv in H2 as [(e & H & ->)|([] & pl3 & H & [= <- <-])];
    apply append_operations_spec in H as (Hob & Hpd & Hrp & Hin & Hnd' & H); simpl in *;
    rewrite Ho in Hnd', H; (split; [by apply Hnd'|]).
  { destruct e as [e p]. destruct H as (l1 & c & l2 & -> & _ & -> & Hp). right. split; [|done].
    apply list_elem_of_fmap_2. set_solver. }
  split; [done|]. assert (forall p o, observed pl3 !! p = Some o <->
                   observed pl !! p = Some o \/ observed other !! p = Some o) as Hall.
  { intros p o. rewrite Hob, Hr. by rewrite elem_of_iter_observed. }
  split.
  - intros p [x Hx] [y Hy]. rewrite Hx, Hy. f_equal.
    assert (observed pl3 !! p = Some x) as H1 by (apply Hall; by left).
    assert (observed pl3 !! p = Some y) as H2 by (apply Hall; by right). congruence.
  - intros p. apply option_eq. intros o. rewrite Hall.
    specialize (Hall p).
    destruct (observed pl !! p) as [x|], (observed other !! p) as [y|]; simpl; clear -Hall.
    2-4: clear; intuition congruence.
    assert (observed pl3 !! p = Some x) as H1 by (apply Hall; by left).
    assert (observed pl3 !! p = Some y) as H2 by (apply Hall; by right).
    assert (x = y) as -> by congruence. clear. intuition congruence.
Qed.

(** ** Applying again *)

(** Planning a list of managed files, as a provider that owns its files does. *)
Definition plan_writes (s : fs) (ws : list (path * string * Z)) : planning unit :=
  st_iter (fun '(p, contents, mode) => write_file s p contents mode) ws.

Definition change_of (w : path * string * Z) : FileChange :=
  {| fc_path := fst (fst w); fc_contents := Some (snd (fst w)); fc_permissions := snd w |}.

(** What a plan has cached is what the file system holds. *)
Definition faithful (s : fs) (pl : ReconcilePlan) : Prop :=
  forall p o, observed pl !! p = Some o -> read_optional s p = Ok o.

Lemma read_faithful s p pl r pl' :
  faithful s pl -> read s p pl = (r, pl') ->
  faithful s pl' /\ operations pl' = operations pl /\ report pl' = report pl /\
  private_dirs pl' = private_dirs pl /\ inactive pl' = inactive pl /\
  (forall q, is_Some (observed pl !! q) -> is_Some (observed pl' !! q)) /\
  match r with
  | Ok c => observed pl' !! p = Some (Some c)
  | Err NotFound => observed pl' !! p = Some None
  | Err e => read_optional s p = Err e
  end.
Proof.
  intros Hf. unfold read. destruct (observed pl !! p) as [[c|]|] eqn:E.
  1,2: intros [= <- <-]; done.
  unfold read_optional at 1. destruct (fs_read s p) as [c|k] eqn:Er.
  - intros [= <- <-]. simpl. rewrite lookup_insert_eq. repeat split; try done.
    + intros q o. simpl. intros [[<- <-]|[_ Hq]]%lookup_insert_Some; [|by apply Hf].
      unfold read_optional. by rewrite Er.
    + intros q Hq. apply lookup_insert_is_Some'. by right.
  - destruct k; intros [= <- <-]; simpl; rewrite ?lookup_insert_eq; repeat split; try done;
      try (by unfold read_optional; rewrite Er).
    + intros q o. simpl. intros [[<- <-]|[_ Hq]]%lookup_insert_Some; [|by apply Hf].
      unfold read_optional. by rewrite Er.
    + intros q Hq. apply lookup_insert_is_Some'. by right.
Qed.

Lemma plan_writes_spec s ws pl r pl' :
  faithful s pl -> plan_writes s ws pl = (r, pl') ->
  faithful s pl' /\ report pl' = report pl /\ private_dirs pl' = private_dirs pl /\
  (forall q, is_Some (observed pl !! q) -> is_Some (observed pl' !! q)) /\
  match r with
  | Ok _ => operations pl' = (operations pl ++ map change_of ws)%list /\
            (forall w, w ∈ ws -> is_Some (observed pl' !! fst (fst w)))
  | Err _ => exists w k, w ∈ ws /\ read_optional s (fst (fst w)) = Err k
  end.
Proof.
  unfold plan_writes. revert pl. induction ws as [|[[p c] m] ws IH]; intros pl Hf; simpl.
  { intros [= <- <-]. repeat split; try done; [by rewrite app_nil_r|set_solver]. }
  intros H. unfold st_bind, write_file in H.
  destruct (read s p pl) as [r0 pl0] eqn:Er.
  apply read_faithful in Er as (Hf0 & Hops & Hrep & Hdirs & _ & Hmono & Hobs); [|done].
  assert ((exists k e, r0 = Err k /\ read_optional s p = Err k /\ r = Err e /\ pl' = pl0) \/
          is_Some (observed pl0 !! p) /\
          st_iter (fun '(p, contents, mode) => write_file s p contents mode) ws
            (push_operation (change_of (p, c, m)) pl0) = (r, pl')) as [(k & e & _ & Hk & -> & ->)|[Hp H']].
  { destruct r0 as [x|k]; [right; split; [eauto|done]|].
    destruct k; try (left; injection H as <- <-; by eexists _, _). right. split; [eauto|done]. }
  - repeat split; try done. exists (p, c, m), k. split; [apply list_elem_of_here|done].
  - apply IH in H' as (Hf' & Hrep' & Hdirs' & Hmono' & Hr); [|done]. simpl in *.
    split; [done|]. split; [congruence|]. split; [congruence|]. split; [eauto|].
    destruct r as [[]|e].
    + destruct Hr as [Hr1 Hr2]. split; [rewrite Hr1, Hops; by rewrite <- app_assoc|].
      intros w [->|Hw]%elem_of_cons; [by apply Hmono'|by apply Hr2].
    + destruct Hr as (w & k & Hw & Hk). exists w, k. split; [by apply list_elem_of_further|done].
Qed.

Lemma apply_operations_skip rng obs i ops s :
  (forall c, c ∈ ops -> skips obs s c = true) -> apply_operations rng obs i ops s = (Ok tt, s).
Proof.
  revert i. induction ops as [|c ops IH]; intros i H; simpl; [done|].
  unfold st_bind. rewrite H by set_solver. apply IH. set_solver.
Qed.

Lemma skips_true obs s c contents m :
  fc_contents c = Some contents -> obs !! fc_path c = Some (Some contents) ->
  fs_fault s CMetadata (fc_path c) = None -> file_at s (fc_path c) = Some (contents, m) ->
  within m (fc_permissions c) -> skips obs s c = true.
Proof.
  intros Hc Ho Hm Hf Hw. unfold skips, already_in_place, grants_beyond, fs_metadata, file_at in *.
  rewrite Hc, Ho, Hm. destruct (nodes s !! fc_path c) as [[]|]; simplify_eq. simpl.
  rewrite bool_decide_true by done. unfold within in Hw. by rewrite Hw.
Qed.

(** Reconciling twice changes nothing the second time: after the planned
    files are written, planning the same files again and applying that plan
    succeeds and leaves the file system as it is, down to the last node. *)
Theorem reapply_is_noop rng rng' s ws pl s' :
  NoDup (map (fst ∘ fst) ws) ->
  (forall w, w ∈ ws -> fs_fault s CMetadata (fst (fst w)) = None) ->
  plan_writes s ws default_plan = (Ok tt, pl) ->
  apply_tracked rng pl s = (Ok tt, s') ->
  exists pl', plan_writes s' ws default_plan = (Ok tt, pl') /\
              apply_tracked rng' pl' s' = (Ok tt, s').
Proof.
  intros Hnd Hmeta Hplan Happly.
  assert (forall st, faithful st default_plan) as Hdef by (by intros st p o Hp).
  apply plan_writes_spec in Hplan as (Hf & Hrep & Hdirs & _ & Hops & Hobs); [|done].
  simpl in Hops. apply apply_tracked_Ok in Happly as [Hdone [[_ Hfault] _]].
  2: { rewrite Hops, map_map. done. }
  assert (forall w, w ∈ ws -> exists m, file_at s' (fst (fst w)) = Some (snd (fst w), m) /\
            within m (snd w) /\ read_optional s' (fst (fst w)) = Ok (Some (snd (fst w)))) as Hw.
  { intros w Hw. destruct (Hobs w Hw) as [o Ho]. apply Hf, read_optional_fault in Ho.
    assert (change_done s' (change_of w)) as (m & Hm & Hin).
    { apply Hdone. rewrite Hops. by apply list_elem_of_fmap_2. }
    exists m. repeat split; [done|done|]. eapply read_optional_file; [|done]. by rewrite Hfault. }
  destruct (plan_writes s' ws default_plan) as [r pl'] eqn:Hp'.
  apply plan_writes_spec in Hp' as (Hf' & Hrep' & Hdirs' & _ & Hr); [|done].
  destruct r as [[]|e].
  2: { destruct Hr as (w & k & Hin & Hk). destruct (Hw w Hin) as (m & _ & _ & H). congruence. }
  exists pl'. split; [done|]. destruct Hr as [Hops' Hobs']. simpl in *.
  unfold apply_tracked. rewrite Hrep'. simpl. unfold st_bind at 1.
  rewrite (proj2 (check_observed_None s' _)).
  2: { intros p e Hpe%elem_of_iter_observed. by apply Hf'. }
  rewrite Hdirs'. simpl. unfold st_bind, st_ret. apply apply_operations_skip. rewrite Hops'.
  intros c (w & -> & Hin)%list_elem_of_fmap. destruct (Hw w Hin) as (m & Hm & Hin' & Hread).
  eapply skips_true; [done| |by rewrite Hfault; apply Hmeta|done|done].
  destruct (Hobs' w Hin) as [o Ho]. change (fc_path (change_of w)) with (fst (fst w)).
  rewrite Ho. apply Hf' in Ho. congruence.
Qed.

(** ** Concrete runs *)

Definition no_fault : fs_call -> path -> option fault := fun _ _ => None.
(** Renaming onto [p] is denied. *)
Definition deny_rename (p : path) : fs_call -> path -> option fault :=
  fun c q => match c with CRename => if bool_decide (q = p) then Some Denied else None | _ => None end.
Definition demo_rng : nat -> nat -> Z := fun i j => Z.of_nat (1000 * i + j).

Definition home (name : string) : path := ["/"; "home"; name].
Definition demo_fs (fault : fs_call -> path -> option fault) : fs :=
  {| nodes := {[ ["/"; "home"] := Dir 493; home "a.json" := File "old" 420 ]};
     umask := 18; fs_fault := fault |}.
Definition demo_writes : list (path * string * Z) :=
  [(home "a.json", "new", 420); (home "b.json", "{}", 384)].
Definition demo_plan : ReconcilePlan :=
  snd (plan_writes (demo_fs no_fault) demo_writes default_plan).
Definition demo_conflict : ReconcilePlan :=
  record (demo_fs no_fault) "Demo" "settings" "conflict" (home "a.json") demo_plan.

(** A file that changed after the plan was made, and a plan with a conflict. *)
Definition changed_fs : fs := with_nodes (<[home "a.json" := File "edited" 420]> (nodes (demo_fs no_fault))) (demo_fs no_fault).
Lemma apply_refused_writes_nothing_witness :
  (exists e stop, apply_tracked demo_rng demo_plan changed_fs = (Err (e, stop), changed_fs)) /\
  (exists e stop, apply_tracked demo_rng demo_conflict (demo_fs no_fault) = (Err (e, stop), demo_fs no_fault)).
Proof.
  split.
  - destruct (proj1 (apply_refused_writes_nothing demo_rng demo_plan changed_fs)) as (e & stop & H & _); [|eauto].
    right. exists (home "a.json"), (Some "old"). split; [by vm_compute|]. vm_compute. discriminate.
  - destruct (proj1 (apply_refused_writes_nothing demo_rng demo_conflict (demo_fs no_fault))) as (e & stop & H & _); [|eauto].
    left. apply has_conflicts_conflicting. vm_compute. reflexivity.
Defined.

Lemma apply_completed_witness :
  let s' := snd (apply_tracked demo_rng demo_plan (demo_fs no_fault)) in
  (forall c, c ∈ operations demo_plan -> change_done s' c) /\
  frame (map fc_path (operations demo_plan)) (demo_fs no_fault) s'.
Proof.
  refine (apply_completed demo_rng demo_plan (demo_fs no_fault) _ _ _).
  - apply (bool_decide_unpack _). vm_compute. exact I.
  - vm_compute. reflexivity.
Defined.

Lemma apply_failed_at_operation_witness :
  let s := demo_fs (deny_rename (home "b.json")) in
  exists c mid,
    operations demo_plan !! 1%nat = Some c /\
    frame (map fc_path (take 1 (operations demo_plan))) s mid /\
    (forall c', c' ∈ take 1 (operations demo_plan) -> change_done mid c') /\
    (forall q, q = fc_path c \/ is_Some (file_at mid q) ->
       file_at (snd (apply_tracked demo_rng demo_plan s)) q = file_at mid q).
Proof.
  refine (apply_failed_at_operation demo_rng demo_plan (demo_fs (deny_rename (home "b.json")))
    "install managed file at /home/b.json: permission denied" 1 _ _ _).
  - apply (bool_decide_unpack _). vm_compute. exact I.
  - vm_compute. reflexivity.
Defined.

Lemma append_is_disjoint_witness :
  NoDup (map fc_path (operations (snd (append_attributed demo_plan default_plan)))) /\
  operations (snd (append_attributed demo_plan default_plan)) =
    (operations default_plan ++ operations demo_plan)%list /\
  (forall p, is_Some (observed default_plan !! p) -> is_Some (observed demo_plan !! p) ->
     observed default_plan !! p = observed demo_plan !! p) /\
  (forall p, observed (snd (append_attributed demo_plan default_plan)) !! p =
     (observed default_plan !! p) ∪ (observed demo_plan !! p)).
Proof.
  refine (append_is_disjoint default_plan demo_plan (Ok tt) _ _ _).
  - apply NoDup_nil_2.
  - vm_compute. reflexivity.
Defined.

Lemma reapply_is_noop_witness :
  let s' := snd (apply_tracked demo_rng demo_plan (demo_fs no_fault)) in
  exists pl', plan_writes s' demo_writes default_plan = (Ok tt, pl') /\
              apply_tracked demo_rng pl' s' = (Ok tt, s').
Proof.
  refine (reapply_is_noop demo_rng demo_rng (demo_fs no_fault) demo_writes demo_plan _ _ _ _ _).
  - apply (bool_decide_unpack _). vm_compute. exact I.
  - intros w _. reflexivity.
  - vm_compute. reflexivity.
  - vm_compute. reflexivity.
Defined.
