(* ===== verification/JsonMerge.v ===== *)
(** * Merging managed documents into user files
    ([crates/agent/src/provider/json_merge.rs])

    A managed document is overlaid on the user's JSON file; a sidecar records
    the document before and after, so that a later merge or a removal first
    rolls the managed values back and keeps what the user changed since. *)

From S2P Require Import Prelude Str Json Codec Fs Plan.

(** ** Options *)

Inductive JsonFormat : Type := Json | Jsonc.

Record KeyedArray : Type := {
  ka_field : string;
  ka_keys : list string;
}.

Record MergeOptions : Type := {
  mo_mode : Z;
  mo_keyed_arrays : list KeyedArray;
  mo_redact_diff : bool;
  mo_format : JsonFormat;
  mo_replace_paths : list string;
}.
Definition default_options : MergeOptions :=
  {| mo_mode := 420; mo_keyed_arrays := []; mo_redact_diff := false; mo_format := Json;
     mo_replace_paths := [] |}.

(** The bytes of a byte-order mark. *)
Definition bom : string := of_bytes [239; 187; 191].
(** [contents.trim_start_matches('\u{feff}')]. *)
Fixpoint trim_bom_fuel (fuel : nat) (s : string) : string :=
  match fuel with
  | O => s
  | S fuel => match strip_prefix bom s with Some s' => trim_bom_fuel fuel s' | None => s end
  end.
Definition trim_bom (s : string) : string := trim_bom_fuel (String.length s) s.

(** The sidecar of a managed file. *)
Definition state_path (p : path) : path :=
  let name := default "settings.json" (file_name p) in
  with_file_name ("." +:+ name +:+ ".agentdesktop") p.

(** ** The overlay *)

Fixpoint merge_overlay (base overlay : value) {struct overlay} : value :=
  match overlay with
  | Object over =>
      match base with
      | Object b =>
          Object (map_fold (fun key v acc =>
                    <[key := merge_overlay (default Null (acc !! key)) v]> acc) b over)
      | _ => overlay
      end
  | Array over =>
      match base with
      | Array b =>
          Array (fold_left (fun acc v => if bool_decide (v ∈ acc) then acc
                                         else (acc ++ [v])%list) over b)
      | _ => overlay
      end
  | _ => overlay
  end.

(** ** The rollback *)

(** [l.remove(position)] of the first entry equal to [x], if there is one. *)
Definition take_out (x : value) (l : list value) : list value := default l (remove_first x l).

(** The first loop of a replaced array: what is left of the user's current
    entries, of the restored ones, and of the result. *)
Definition replaced_step (acc : list value * list value * list value) (v : value)
  : list value * list value * list value :=
  let '(result, restored, added) := acc in
  let restored := take_out v restored in
  match remove_first v added with
  | Some added' => (result, restored, added')
  | None => (take_out v result, restored, added)
  end.
(** The second: the user's own entries are kept. *)
Definition replaced_keep (acc : list value * list value) (v : value) : list value * list value :=
  let '(result, restored) := acc in
  match remove_first v restored with
  | Some restored' => (result, restored')
  | None => ((result ++ [v])%list, restored)
  end.

Definition rollback_array (current before after : list value) : list value :=
  if bool_decide (before `prefix_of` after)
  then fold_left (fun result added => take_out added result)
         (retain (fun v => negb (bool_decide (v ∈ before))) after) current
  else
    let '(result, restored, added) := fold_left replaced_step after (before, before, current) in
    fst (fold_left replaced_keep added (result, restored)).

Definition is_none_or_object (o : option value) : bool := is_none_or is_object o.
Definition is_none_or_array (o : option value) : bool := is_none_or is_array o.
Definition object_of (o : option value) : gmap string value := default ∅ (o ≫= as_object).
Definition array_of (o : option value) : list value := default [] (o ≫= as_array).

(** [rollback_value(None, before, after)]. *)
Definition rollback_absent (before after : option value) : option value :=
  if bool_decide (None = after) then before else None.

(** [rollback_value(Some(current), before, after)]; the results for the keys of
    the current object are prepared so that the recursion is structural. *)
Fixpoint rollback_present (current : value) (before after : option value) : option value :=
  if bool_decide (Some current = after) then before
  else if bool_decide (before = after) then Some current
  else
    match current with
    | Object cur =>
        if is_none_or_object before && is_none_or_object after then
          let before_object := object_of before in
          let after_object := object_of after in
          let rec := (fun v => rollback_present v) <$> cur in
          let keys := dom cur ∪ dom before_object ∪ dom after_object in
          Some (Object (set_fold (fun key result =>
            let rolled :=
              match rec !! key with
              | Some f => f (before_object !! key) (after_object !! key)
              | None => rollback_absent (before_object !! key) (after_object !! key)
              end in
            match rolled with
            | Some v => <[key := v]> result
            | None => delete key result
            end) cur keys))
        else Some current
    | Array cur =>
        if is_none_or_array before && is_none_or_array after
        then Some (Array (rollback_array cur (array_of before) (array_of after)))
        else Some current
    | _ => Some current
    end.

Definition rollback_value (current before after : option value) : option value :=
  match current with
  | Some v => rollback_present v before after
  | None => rollback_absent before after
  end.
Definition rollback_overlay (current before after : value) : value :=
  default (Object ∅) (rollback_value (Some current) (Some before) (Some after)).

(** ** Keyed arrays *)

Fixpoint element_keys (keys : list string) (element : value) : option (list string) :=
  match keys with
  | [] => Some []
  | key :: keys =>
      match get key element ≫= as_str, element_keys keys element with
      | Some k, Some ks => Some (k :: ks)
      | _, _ => None
      end
  end.
Definition element_key (keyed : KeyedArray) (element : value) : option (list string) :=
  element_keys (ka_keys keyed) element.

Definition keyed_array (document : value) (keyed : KeyedArray) : option (list value) :=
  if is_empty (ka_field keyed) then as_array document
  else get (ka_field keyed) document ≫= as_array.

(** [keyed_array_mut] followed by an update of the array. *)
Definition keyed_array_update (document : value) (keyed : KeyedArray)
    (f : list value -> list value) : value :=
  let on_array v := match v with Array l => Array (f l) | _ => v end in
  if is_empty (ka_field keyed) then on_array document
  else update_at (ka_field keyed) on_array document.

Definition keys_of (keyed : KeyedArray) (document : value) : list (list string) :=
  filter_map (element_key keyed) (default [] (keyed_array document keyed)).

Definition remove_keyed (document : value) (keyed : KeyedArray) (managed : value) : value :=
  let managed_keys := keys_of keyed managed in
  match managed_keys with
  | [] => document
  | _ => keyed_array_update document keyed
           (retain (fun element =>
              is_none_or (fun key => negb (bool_decide (key ∈ managed_keys)))
                (element_key keyed element)))
  end.

Definition keyed_added (keyed : KeyedArray) (before after : value) : value :=
  let before_keys := keys_of keyed before in
  let added :=
    retain (fun element =>
      is_some_and (fun key => negb (bool_decide (key ∈ before_keys))) (element_key keyed element))
      (default [] (keyed_array after keyed)) in
  if is_empty (ka_field keyed) then Array added
  else Object {[ ka_field keyed := Array added ]}.

(** ** The merged document *)

Definition empty_root (managed : value) : value :=
  if is_array managed then Array [] else Object ∅.

(** The user's document once the managed values of the previous merge, and any
    element under a managed key, are out of it. *)
Definition clean_keyed (previous : option merge_state) (managed : value)
    (document : value) (keyed : KeyedArray) : value :=
  let document :=
    match previous with
    | Some previous =>
        remove_keyed document keyed
          (keyed_added keyed (ms_before previous) (ms_after previous))
    | None => document
    end in
  remove_keyed document keyed managed.

Definition before_document (options : MergeOptions) (previous : option merge_state)
    (legacy_owned : bool) (managed combined : value) : value :=
  let combined :=
    match previous with
    | Some previous => rollback_overlay combined (ms_before previous) (ms_after previous)
    | None => if legacy_owned then empty_root managed else combined
    end in
  fold_left (clean_keyed previous managed) (mo_keyed_arrays options) combined.

Definition replace_path (managed : value) (combined : value) (p : string) : value :=
  match pointer p managed with
  | Some _ => pointer_set p Null combined
  | None => combined
  end.

Definition after_document (options : MergeOptions) (managed before : value) : value :=
  merge_overlay (fold_left (replace_path managed) (mo_replace_paths options) before) managed.

(** ** Planning a merge and a removal *)

Definition newline : string := String "010" "".
Definition modify (f : ReconcilePlan -> ReconcilePlan) : planning unit := fun pl => (Ok tt, f pl).

(** [json_merge::record]: a file that holds secrets shows no contents. *)
Definition record_action (display_name description action : string) (p : path)
    (before after : option string) (redact : bool) : planning unit :=
  modify (if redact then record_diff display_name description action p None None
          else record_diff display_name description action p before after).

(** [json_merge::remove_file]: a sidecar already gone is not an error. *)
Definition remove_state_file (s : fs) (p : path) (display_name : string) : planning unit :=
  fun pl =>
    match remove_file s p pl with
    | (Ok tt, pl') | (Err NotFound, pl') => (Ok tt, pl')
    | (Err e, pl') =>
        (Err (context ("remove " +:+ display_name +:+ " merge state at " +:+ display p)
                (io_kind_message e)), pl')
    end.

(** [plan.read(path)] with [NotFound] as [None]. *)
Definition read_existing (s : fs) (p : path) (display_name : string) : planning (option string) :=
  fun pl =>
    match read s p pl with
    | (Ok contents, pl') => (Ok (Some contents), pl')
    | (Err NotFound, pl') => (Ok None, pl')
    | (Err e, pl') =>
        (Err (context ("read " +:+ display_name +:+ " from " +:+ display p) (io_kind_message e)), pl')
    end.

(** The mode bits of an existing file. *)
Definition current_mode (s : fs) (p : path) : option Z :=
  (fun m => Z.land m 511) <$> result_ok (fs_metadata s p).

Definition blank (contents : string) : bool := str_all is_ascii_whitespace contents.
Definition same_shape (v w : value) : bool :=
  Bool.eqb (is_object v) (is_object w) && Bool.eqb (is_array v) (is_array w).

Section with_codec.
Context `{C : JsonCodec}.

Definition parse (format : JsonFormat) (contents : string) : result value string :=
  match format with
  | Json => json_from_slice contents
  | Jsonc =>
      if utf8_valid contents then json5_from_str (trim_bom contents)
      else Err "invalid utf-8 sequence"
  end.

Definition read_state (s : fs) (p : path) (display_name : string)
  : planning (option merge_state) :=
  fun pl =>
    match read s p pl with
    | (Ok contents, pl') =>
        match state_from_slice contents with
        | Ok st => (Ok (Some st), pl')
        | Err (line, column) =>
            (Err ("parse " +:+ display_name +:+ " merge state from " +:+ display p
                  +:+ ": not a valid merge state (line " +:+ fmt_nat line +:+ ", column "
                  +:+ fmt_nat column +:+ ")"), pl')
        end
    | (Err NotFound, pl') => (Ok None, pl')
    | (Err e, pl') =>
        (Err (context ("read " +:+ display_name +:+ " merge state from " +:+ display p)
                (io_kind_message e)), pl')
    end.

Definition managed_after (s : fs) (p : path) (display_name : string) : planning (option value) :=
  let* st := read_state s p display_name in st_ret (ms_after <$> st).

(** The document a merge starts from; [None] is a conflict. *)
Definition starting_document (format : JsonFormat) (existing : option string) (managed : value)
  : option value :=
  match existing with
  | None => Some (empty_root managed)
  | Some contents =>
      if blank contents then Some (empty_root managed)
      else match parse format contents with
           | Ok v => if same_shape v managed then Some v else None
           | Err _ => None
           end
  end.

Definition merge_action (s : fs) (p : path) (mode : Z) (existing : option string)
    (contents : string) : string :=
  let looser := grants_beyond s p mode in
  match existing with
  | Some e => if bool_decide (e = contents) && negb looser then "unchanged" else "update"
  | None => "create"
  end.

Definition plan_merge_with (s : fs) (p state_p : path) (managed : value) (legacy_owned : bool)
    (description display_name : string) (options : MergeOptions) : planning unit :=
  let* existing := read_existing s p display_name in
  let* previous := read_state s state_p display_name in
  let created :=
    match existing with
    | None => true
    | Some _ => default legacy_owned (ms_created <$> previous)
    end in
  match starting_document (mo_format options) existing managed with
  | None => modify (record s display_name description "conflict" p)
  | Some document =>
      let before := before_document options previous legacy_owned managed document in
      let after := after_document options managed before in
      let contents := to_vec_pretty after +:+ newline in
      let action := merge_action s p (mo_mode options) existing contents in
      record_action display_name description action p existing (Some contents)
        (mo_redact_diff options) ;*
      (if String.eqb action "unchanged" then st_ret tt
       else write_file s p contents (mo_mode options)) ;*
      write_file s state_p
        (state_to_vec_pretty {| ms_created := created; ms_before := before; ms_after := after |}
         +:+ newline) 384
  end.

Definition plan_merge (s : fs) (p state_p : path) (managed : value) (legacy_owned : bool)
    (description display_name : string) : planning unit :=
  plan_merge_with s p state_p managed legacy_owned description display_name default_options.

Definition remove_planned (s : fs) (p : path) (display_name : string) : planning unit :=
  st_map_err (fun e => context ("remove " +:+ display_name +:+ " at " +:+ display p)
                         (io_kind_message e)) (remove_file s p).

(** The keyed elements the merge added go, then an array it introduced. *)
Definition strip_keyed (state : merge_state) (settings : value) (keyed : KeyedArray) : value :=
  let settings :=
    remove_keyed settings keyed (keyed_added keyed (ms_before state) (ms_after state)) in
  let empty_array v := is_some_and (fun l => bool_decide (l = [])) (as_array v) in
  if negb (is_empty (ka_field keyed))
     && is_none_or empty_array (get (ka_field keyed) (ms_before state))
     && is_some_and empty_array (get (ka_field keyed) settings)
  then match settings with
       | Object m => Object (delete (ka_field keyed) m)
       | _ => settings
       end
  else settings.

Definition restored_document (options : MergeOptions) (state : merge_state) (settings : value)
  : value :=
  fold_left (strip_keyed state) (mo_keyed_arrays options)
    (rollback_overlay settings (ms_before state) (ms_after state)).

Definition is_empty_root (v : value) : bool :=
  match v with
  | Object m => bool_decide (m = ∅)
  | Array l => bool_decide (l = [])
  | _ => false
  end.

Definition plan_remove_with (s : fs) (p state_p : path) (description display_name : string)
    (options : MergeOptions) : planning bool :=
  let* state := read_state s state_p display_name in
  match state with
  | None => st_ret false
  | Some state =>
      let* existing := read_existing s p display_name in
      match existing with
      | None =>
          modify (record s display_name description "unchanged" p) ;*
          remove_state_file s state_p display_name ;*
          st_ret true
      | Some existing =>
          if blank existing then
            (if ms_created state
             then modify (record s display_name description "remove" p) ;*
                  remove_planned s p display_name
             else modify (record s display_name description "unchanged" p)) ;*
            remove_state_file s state_p display_name ;*
            st_ret true
          else
            match parse (mo_format options) existing with
            | Ok settings =>
                if negb (same_shape settings (ms_after state))
                then modify (record s display_name description "conflict" p) ;* st_ret true
                else
                  let settings := restored_document options state settings in
                  let proposed :=
                    if ms_created state && is_empty_root settings then None
                    else Some (to_vec_pretty settings +:+ newline) in
                  let action :=
                    match proposed with
                    | None => "remove"
                    | Some contents =>
                        if bool_decide (contents = existing) then "unchanged" else "update"
                    end in
                  record_action display_name description action p (Some existing) proposed
                    (mo_redact_diff options) ;*
                  (match proposed with
                   | None => remove_planned s p display_name
                   | Some contents =>
                       if String.eqb action "update"
                       then write_file s p contents (default 420 (current_mode s p))
                       else st_ret tt
                   end) ;*
                  remove_state_file s state_p display_name ;*
                  st_ret true
            | Err _ => modify (record s display_name description "conflict" p) ;* st_ret true
            end
      end
  end.

Definition plan_remove (s : fs) (p state_p : path) (description display_name : string)
  : planning bool :=
  plan_remove_with s p state_p description display_name default_options.
End with_codec.

(** ** Laws of the overlay *)

Lemma map_fold_insert_lookup {A B} (f : option B -> A -> B) (b : gmap string B)
    (o : gmap string A) k :
  map_fold (fun key v acc => <[key := f (acc !! key) v]> acc) b o !! k =
  match o !! k with Some v => Some (f (b !! k) v) | None => b !! k end.
Proof.
  revert k. apply (map_fold_weak_ind (fun r m => forall k,
    r !! k = match m !! k with Some v => Some (f (b !! k) v) | None => b !! k end)).
  - intros k. by rewrite lookup_empty.
  - intros i x m r Hi IH k. destruct (decide (k = i)) as [->|Hne].
    + rewrite !lookup_insert_eq. by rewrite IH, Hi.
    + rewrite !lookup_insert_ne by done. apply IH.
Qed.

Definition merged_object (b o : gmap string value) : gmap string value :=
  map_fold (fun key v acc => <[key := merge_overlay (default Null (acc !! key)) v]> acc) b o.

Lemma merge_overlay_objects b o : merge_overlay (Object b) (Object o) = Object (merged_object b o).
Proof. done. Qed.
Lemma lookup_merged_object b o k :
  merged_object b o !! k =
  match o !! k with
  | Some v => Some (merge_overlay (default Null (b !! k)) v)
  | None => b !! k
  end.
Proof. apply (map_fold_insert_lookup (fun cur v => merge_overlay (default Null cur) v)). Qed.

Definition merged_array (b o : list value) : list value :=
  fold_left (fun acc v => if bool_decide (v ∈ acc) then acc else (acc ++ [v])%list) o b.

(** An additive array merge appends the new values once each. *)
Lemma merged_array_spec b o :
  exists added, merged_array b o = (b ++ added)%list /\ NoDup added /\
    (forall v, v ∈ added -> (v ∉ b) /\ v ∈ o) /\
    (forall v, v ∈ o -> v ∈ (b ++ added)%list).
Proof.
  unfold merged_array. revert b. induction o as [|x o IH]; intros b; simpl.
  - exists []. rewrite app_nil_r. repeat split; try set_solver. apply NoDup_nil_2.
  - case_bool_decide as Hx.
    + destruct (IH b) as (added & -> & Hnd & Ha & Hin). exists added.
      repeat split; [done|set_solver|set_solver|set_solver].
    + destruct (IH (b ++ [x])%list) as (added & -> & Hnd & Ha & Hin).
      exists (x :: added). rewrite <- app_assoc. simpl. split; [done|]. split.
      { apply NoDup_cons. split; [|done]. intros Hxa. apply Ha in Hxa. set_solver. }
      split; [intros v Hv; set_solver|].
      intros v Hv. rewrite <- app_assoc in Hin. set_solver.
Qed.

Lemma merged_array_idem b o : merged_array (merged_array b o) o = merged_array b o.
Proof.
  destruct (merged_array_spec b o) as (added & -> & _ & _ & Hin).
  revert Hin. generalize ((b ++ added)%list) as l. clear. intros l.
  induction o as [|x o IH]; intros Hin; [done|]. simpl.
  rewrite bool_decide_true by set_solver. apply IH. set_solver.
Qed.

Lemma merge_overlay_arrays b o : merge_overlay (Array b) (Array o) = Array (merged_array b o).
Proof. done. Qed.

Lemma merge_overlay_self v : merge_overlay v v = v.
Proof.
  induction v as [| | | |l|m IH] using value_ind; try done.
  - rewrite merge_overlay_arrays. f_equal. unfold merged_array.
    assert (forall x, x ∈ l -> x ∈ l) as Hin by done. revert Hin. generalize l at 1 3 as o.
    intros o. induction o as [|x o IHo]; intros Hin; [done|]. simpl.
    rewrite bool_decide_true by (apply Hin; set_solver). apply IHo. set_solver.
  - rewrite merge_overlay_objects. f_equal. apply map_eq. intros k.
    rewrite lookup_merged_object. destruct (m !! k) as [v|] eqn:E; [|done].
    simpl. f_equal. by eapply IH.
Qed.

Lemma merge_overlay_idem base overlay :
  merge_overlay (merge_overlay base overlay) overlay = merge_overlay base overlay.
Proof.
  revert base. induction overlay as [| | | |o|o IH] using value_ind; intros base; try done.
  - destruct base; try apply (merge_overlay_self (Array o)).
    rewrite !merge_overlay_arrays. f_equal. apply merged_array_idem.
  - destruct base as [| | | | |b]; try apply (merge_overlay_self (Object o)).
    rewrite !merge_overlay_objects. f_equal. apply map_eq. intros k.
    rewrite !lookup_merged_object. destruct (o !! k) as [v|] eqn:E; [|done].
    simpl. f_equal. by eapply IH.
Qed.

(** [covers v managed]: the managed document is in force in [v]. Objects cover
    by key, arrays by membership, other values by equality. *)
Inductive covers : value -> value -> Prop :=
| covers_refl v : covers v v
| covers_array l o : (forall v, v ∈ o -> v ∈ l) -> covers (Array l) (Array o)
| covers_object m o :
    (forall k, is_Some (o !! k) -> is_Some (m !! k)) ->
    (forall k v w, m !! k = Some v -> o !! k = Some w -> covers v w) ->
    covers (Object m) (Object o).

Lemma merge_overlay_covers base overlay : covers (merge_overlay base overlay) overlay.
Proof.
  revert base. induction overlay as [| | | |o|o IH] using value_ind; intros base.
  1-4: apply covers_refl.
  - destruct base as [| | | |l|]; try apply covers_refl. rewrite merge_overlay_arrays.
    destruct (merged_array_spec l o) as (added & -> & _ & _ & Hin). by apply covers_array.
  - destruct base as [| | | | |b]; try apply covers_refl. rewrite merge_overlay_objects.
    apply covers_object.
    + intros k [w Hw]. rewrite lookup_merged_object, Hw. by eexists.
    + intros k v w. rewrite lookup_merged_object. intros Hv Hw. rewrite Hw in Hv.
      injection Hv as <-. by eapply IH.
Qed.

(** The path [ks] leaves the overlay: a key of it is missing there. *)
Fixpoint outside (ks : list string) (overlay : value) : bool :=
  match ks, overlay with
  | k :: ks, Object o => match o !! k with Some v => outside ks v | None => true end
  | _, _ => false
  end.

(** The value under a path of object keys. *)
Fixpoint at_path (ks : list string) (v : option value) : option value :=
  match ks with
  | [] => v
  | k :: ks => at_path ks (v ≫= get k)
  end.

Lemma at_path_None ks : at_path ks None = None.
Proof. by induction ks. Qed.
Lemma at_path_outside ks overlay : outside ks overlay = true -> at_path ks (Some overlay) = None.
Proof.
  revert overlay. induction ks as [|k ks IH]; intros overlay; [done|].
  destruct overlay as [| | | | |o]; try done. simpl. destruct (o !! k); [by apply IH|].
  intros _. apply at_path_None.
Qed.
Lemma at_path_not_object k ks v : is_object v = false -> at_path (k :: ks) (Some v) = None.
Proof. destruct v; try done; intros _; apply at_path_None. Qed.

Lemma merge_overlay_outside ks base overlay :
  outside ks overlay = true ->
  at_path ks (Some (merge_overlay base overlay)) = at_path ks (Some base).
Proof.
  revert base overlay. induction ks as [|k ks IH]; intros base overlay; [done|].
  destruct overlay as [| | | | |o]; try done. intros Ho.
  destruct (is_object base) eqn:Eb.
  2: { rewrite (at_path_not_object _ _ base Eb). destruct base; try done; by apply at_path_outside. }
  destruct base as [| | | | |b]; try done. rewrite merge_overlay_objects. simpl.
  rewrite lookup_merged_object. simpl in Ho. destruct (o !! k) as [v|]; [|done].
  rewrite IH by done. destruct (b !! k); [done|].
  destruct ks as [|k' ks']; [done|]. rewrite at_path_None. by apply at_path_not_object.
Qed.

(** Overlaying a managed document puts it in force (every managed key, every
    managed array entry), changes nothing at a path the managed document does not
    reach, and doing it again changes nothing. *)
Theorem overlay_applies_and_preserves base overlay :
  covers (merge_overlay base overlay) overlay /\
  (forall ks, outside ks overlay = true ->
     at_path ks (Some (merge_overlay base overlay)) = at_path ks (Some base)) /\
  merge_overlay (merge_overlay base overlay) overlay = merge_overlay base overlay.
Proof.
  split; [apply merge_overlay_covers|]. split; [|apply merge_overlay_idem].
  intros ks. apply merge_overlay_outside.
Qed.

(** ** Laws of the rollback *)

Lemma set_fold_update_lookup (g : string -> option value) (cur : gmap string value)
    (keys : gset string) k :
  let r := set_fold (fun key r =>
             match g key with Some v => <[key := v]> r | None => delete key r end) cur keys in
  (k ∈ keys -> r !! k = g k) /\ (k ∉ keys -> r !! k = cur !! k).
Proof.
  simpl. revert k. apply (set_fold_ind_L (fun r (X : gset string) => forall k,
    (k ∈ X -> r !! k = g k) /\ (k ∉ X -> r !! k = cur !! k))).
  - intros k. split; [|done]. intros Hk. exfalso. by apply not_elem_of_empty in Hk.
  - intros x X r Hx IH k. destruct (decide (k = x)) as [->|Hne].
    + split; [|intros Hk; exfalso; apply Hk, elem_of_union_l, elem_of_singleton; done].
      intros _. destruct (g x); [by rewrite lookup_insert_eq|by rewrite lookup_delete_eq].
    + assert (k ∈ {[x]} ∪ X <-> k ∈ X) as -> by set_solver.
      destruct (g x); [rewrite lookup_insert_ne by done|rewrite lookup_delete_ne by done]; apply IH.
Qed.

Lemma rollback_present_head v before after :
  exists deep, rollback_present v before after =
    if bool_decide (Some v = after) then before
    else if bool_decide (before = after) then Some v else deep.
Proof. destruct v; eexists; reflexivity. Qed.

Lemma rollback_value_same before after : rollback_value after before after = before.
Proof.
  destruct after as [v|]; unfold rollback_value.
  - destruct (rollback_present_head v before (Some v)) as [deep ->]. by rewrite bool_decide_true.
  - unfold rollback_absent. by rewrite bool_decide_true.
Qed.
Lemma rollback_value_untouched current before : rollback_value current before before = current.
Proof.
  destruct (decide (current = before)) as [->|Hne]; [apply rollback_value_same|].
  destruct current as [v|]; unfold rollback_value.
  - destruct (rollback_present_head v before before) as [deep ->].
    rewrite bool_decide_false by done. by rewrite bool_decide_true.
  - unfold rollback_absent. by rewrite bool_decide_false.
Qed.

(** On objects the rollback works key by key. *)
Lemma rollback_objects c b a :
  exists r, rollback_value (Some (Object c)) (Some (Object b)) (Some (Object a)) = Some (Object r) /\
    forall k, r !! k = rollback_value (c !! k) (b !! k) (a !! k).
Proof.
  destruct (decide (c = a)) as [->|Hca].
  { exists b. split; [apply rollback_value_same|]. intros k. by rewrite rollback_value_same. }
  destruct (decide (b = a)) as [->|Hba].
  { exists c. split; [apply rollback_value_untouched|]. intros k. by rewrite rollback_value_untouched. }
  simpl. rewrite !bool_decide_false by congruence. eexists. split; [reflexivity|]. intros k.
  set (g := fun key => match ((fun v => rollback_present v) <$> c) !! key with
            | Some f => f (b !! key) (a !! key)
            | None => rollback_absent (b !! key) (a !! key)
            end).
  destruct (set_fold_update_lookup g c (dom c ∪ dom b ∪ dom a) k) as [Hin Hout].
  destruct (decide (k ∈ dom c ∪ dom b ∪ dom a)) as [Hk|Hk].
  - etrans; [apply Hin; done|]. unfold g. rewrite lookup_fmap. by destruct (c !! k).
  - etrans; [apply Hout; done|].
    apply not_elem_of_union in Hk as [[Hc Hb]%not_elem_of_union Ha].
    apply not_elem_of_dom in Hc, Hb, Ha. by rewrite Hc, Hb, Ha.
Qed.

(** Along every proper prefix of [ks], the three documents are objects. *)
Fixpoint objects_along (ks : list string) (c b a : option value) : bool :=
  match ks with
  | [] => true
  | k :: ks =>
      match c, b, a with
      | Some (Object c), Some (Object b), Some (Object a) =>
          objects_along ks (c !! k) (b !! k) (a !! k)
      | _, _, _ => false
      end
  end.

Lemma rollback_at_path ks c b a :
  objects_along ks c b a = true ->
  at_path ks (rollback_value c b a) = rollback_value (at_path ks c) (at_path ks b) (at_path ks a).
Proof.
  revert c b a. induction ks as [|k ks IH]; intros c b a; [done|].
  destruct c as [[| | | | |c]|]; try done. destruct b as [[| | | | |b]|]; try done.
  destruct a as [[| | | | |a]|]; try done. simpl objects_along. intros H.
  destruct (rollback_objects c b a) as (r & -> & Hr). simpl. rewrite Hr. by apply IH.
Qed.

(** The rollback is a three-way merge along object paths: where the file still
    holds the merged value the value from before the merge comes back, and where
    the merge had changed nothing the user's current value stays. *)
Theorem rollback_three_way ks current before after :
  objects_along ks (Some current) (Some before) (Some after) = true ->
  let rolled := rollback_value (Some current) (Some before) (Some after) in
  (at_path ks (Some current) = at_path ks (Some after) ->
     at_path ks rolled = at_path ks (Some before)) /\
  (at_path ks (Some before) = at_path ks (Some after) ->
     at_path ks rolled = at_path ks (Some current)).
Proof.
  intros H. cbv zeta. rewrite (rollback_at_path ks _ _ _ H). split; intros ->.
  - apply rollback_value_same.
  - apply rollback_value_untouched.
Qed.

(** ** Arrays *)

Lemma take_out_app_r x l1 l2 : x ∉ l1 -> take_out x (l1 ++ x :: l2)%list = (l1 ++ l2)%list.
Proof. intros Hx. unfold take_out. by rewrite remove_first_app_r. Qed.

Lemma remove_first_sublist x (l l' : list value) : remove_first x l = Some l' -> l' `sublist_of` l.
Proof.
  revert l'. induction l as [|y l IH]; intros l'; simpl; [done|].
  case_decide; [intros [= <-]; by constructor|].
  destruct (remove_first x l); [|done]. intros [= <-]. constructor. by apply IH.
Qed.
Lemma remove_first_retain p x (l l' : list value) :
  p x = false -> remove_first x l = Some l' -> retain p l' = retain p l.
Proof.
  intros Hp. revert l'. induction l as [|y l IH]; intros l'; simpl; [done|].
  case_decide as E; [subst; intros [= <-]; by rewrite Hp|].
  destruct (remove_first x l) as [l1|]; [|done]. intros [= <-]. simpl. by rewrite (IH l1).
Qed.

Lemma take_out_all_spec p added l :
  (forall v, v ∈ added -> p v = false) ->
  fold_left (fun result v => take_out v result) added l `sublist_of` l /\
  retain p (fold_left (fun result v => take_out v result) added l) = retain p l.
Proof.
  revert l. induction added as [|x added IH]; intros l Hp; simpl; [done|].
  assert (take_out x l `sublist_of` l /\ retain p (take_out x l) = retain p l) as [H1 H2].
  { unfold take_out. destruct (remove_first x l) as [l'|] eqn:E; [|done]. split.
    - by eapply remove_first_sublist.
    - eapply remove_first_retain; [|done]. apply Hp, list_elem_of_here. }
  destruct (IH (take_out x l)) as [H3 H4].
  - intros v Hv. apply Hp. by apply list_elem_of_further.
  - split; [by etrans|]. by rewrite H4.
Qed.

Lemma take_out_block added before rest :
  (forall v, v ∈ added -> v ∉ before) ->
  fold_left (fun result v => take_out v result) added (before ++ added ++ rest)%list
  = (before ++ rest)%list.
Proof.
  induction added as [|x added IH]; intros H; simpl; [done|].
  rewrite take_out_app_r by (apply H, list_elem_of_here). apply IH.
  intros v Hv. apply H. by apply list_elem_of_further.
Qed.

(** Rolling an additive merge back takes out, one by one, what it added. *)
Lemma rollback_merged_array current before overlay added :
  merged_array before overlay = (before ++ added)%list ->
  (forall v, v ∈ added -> v ∉ before) ->
  rollback_array current before (merged_array before overlay) =
  fold_left (fun result v => take_out v result) added current.
Proof.
  intros Hm Ha. unfold rollback_array. rewrite Hm.
  rewrite bool_decide_true by (by eexists). f_equal.
  rewrite retain_app, retain_none, (retain_all _ added); [done| |].
  - intros v Hv. by rewrite bool_decide_false by by apply Ha.
  - intros v Hv. by rewrite bool_decide_true.
Qed.

(** A merged array gives the user's entries back: rolling it back returns the
    array before the merge followed by what the user appended since; and whatever
    else the user did to the array, the result only drops entries the merge added
    and keeps every other entry, in order and as often as it occurs. *)
Theorem array_rollback_keeps_user_entries before overlay :
  (forall extra, rollback_array (merged_array before overlay ++ extra)%list before
                   (merged_array before overlay) = (before ++ extra)%list) /\
  (forall current,
     let rolled := rollback_array current before (merged_array before overlay) in
     let users_own v := negb (bool_decide (v ∈ overlay)) || bool_decide (v ∈ before) in
     rolled `sublist_of` current /\ retain users_own rolled = retain users_own current).
Proof.
  destruct (merged_array_spec before overlay) as (added & Hm & _ & Ha & _).
  assert (forall v, v ∈ added -> v ∉ before) as Hnb by (intros v Hv; by apply Ha).
  split.
  - intros extra. rewrite (rollback_merged_array _ _ _ added) by done.
    rewrite Hm, <- app_assoc. by apply take_out_block.
  - intros current. simpl. rewrite (rollback_merged_array _ _ _ added) by done.
    apply take_out_all_spec. intros v Hv. apply Ha in Hv as [Hb Ho].
    by rewrite bool_decide_true, bool_decide_false.
Qed.

(** ** Keyed arrays *)

Definition elements (keyed : KeyedArray) (document : value) : list value :=
  default [] (keyed_array document keyed).

Lemma elements_update keyed keyed' doc f v :
  (forall l, f l `sublist_of` l) ->
  v ∈ elements keyed (keyed_array_update doc keyed' f) -> v ∈ elements keyed doc.
Proof.
  intros Hf. assert (forall l v, v ∈ f l -> v ∈ l) as Hsub.
  { intros l x Hx. by eapply elem_of_submseteq, sublist_submseteq, Hf. }
  unfold elements, keyed_array, keyed_array_update.
  destruct (is_empty (ka_field keyed')), (is_empty (ka_field keyed)), doc as [| | | |l|m];
    simpl; try done; try apply Hsub.
  destruct (decide (ka_field keyed = ka_field keyed')) as [->|Hne].
  - rewrite lookup_alter_eq. destruct (m !! _) as [[]|]; simpl; try done. apply Hsub.
  - by rewrite lookup_alter_ne.
Qed.

Lemma keys_of_update keyed keyed' doc f k :
  (forall l, f l `sublist_of` l) ->
  k ∈ keys_of keyed (keyed_array_update doc keyed' f) -> k ∈ keys_of keyed doc.
Proof.
  intros Hf. unfold keys_of. fold (elements keyed doc).
  fold (elements keyed (keyed_array_update doc keyed' f)). rewrite !elem_of_filter_map.
  intros (v & Hv & Hk). exists v. split; [|done]. by eapply elements_update.
Qed.

Lemma keyed_array_update_id doc keyed f :
  (forall l, keyed_array doc keyed = Some l -> f l = l) -> keyed_array_update doc keyed f = doc.
Proof.
  unfold keyed_array, keyed_array_update. destruct (is_empty (ka_field keyed)).
  - destruct doc; try done. simpl. intros H. by rewrite H.
  - destruct doc as [| | | | |m]; try done. simpl. intros H. f_equal. apply alter_id.
    intros [] Hx; try done. rewrite Hx in H. simpl in H. by rewrite H.
Qed.

Lemma elements_update_eq doc keyed f :
  f [] = [] -> elements keyed (keyed_array_update doc keyed f) = f (elements keyed doc).
Proof.
  intros Hf. unfold elements, keyed_array, keyed_array_update.
  destruct (is_empty (ka_field keyed)), doc as [| | | |l|m]; simpl; try done.
  rewrite lookup_alter_eq. by destruct (m !! _) as [[]|].
Qed.

Definition spared (managed_keys : list (list string)) (keyed : KeyedArray) (element : value) : bool :=
  is_none_or (fun key => negb (bool_decide (key ∈ managed_keys))) (element_key keyed element).

Lemma remove_keyed_elements doc keyed managed :
  elements keyed (remove_keyed doc keyed managed) =
  retain (spared (keys_of keyed managed) keyed) (elements keyed doc).
Proof.
  unfold remove_keyed. destruct (keys_of keyed managed) as [|k ks] eqn:E.
  - symmetry. apply retain_all. intros x _. unfold spared. by destruct (element_key keyed x).
  - by rewrite elements_update_eq.
Qed.

Lemma remove_keyed_noop doc keyed managed :
  (forall k, k ∈ keys_of keyed managed -> k ∉ keys_of keyed doc) ->
  remove_keyed doc keyed managed = doc.
Proof.
  intros H. unfold remove_keyed. destruct (keys_of keyed managed) as [|k0 ks]; [done|].
  apply keyed_array_update_id. intros l Hl. apply retain_all. intros v Hv.
  destruct (element_key keyed v) as [k|] eqn:Ek; [|done]. simpl. apply negb_true_iff.
  apply bool_decide_eq_false. intros Hk. apply (H k Hk). unfold keys_of. rewrite Hl. simpl.
  apply elem_of_filter_map. by exists v.
Qed.

Lemma keys_of_remove_keyed keyed keyed' doc managed k :
  k ∈ keys_of keyed (remove_keyed doc keyed' managed) -> k ∈ keys_of keyed doc.
Proof.
  unfold remove_keyed. destruct (keys_of keyed' managed) as [|k0 ks]; [done|].
  apply keys_of_update. intros l. apply retain_sublist.
Qed.

Lemma remove_keyed_clean keyed doc managed k :
  k ∈ keys_of keyed managed -> k ∉ keys_of keyed (remove_keyed doc keyed managed).
Proof.
  intros Hk. unfold keys_of. fold (elements keyed (remove_keyed doc keyed managed)).
  rewrite remove_keyed_elements. rewrite elem_of_filter_map. intros (v & Hv & Ev).
  apply elem_of_retain in Hv as [_ Hv]. unfold spared in Hv. rewrite Ev in Hv. simpl in Hv.
  by rewrite bool_decide_true in Hv.
Qed.

Lemma clean_keyed_sub prev managed keyed' keyeds doc k :
  k ∈ keys_of keyed' (fold_left (clean_keyed prev managed) keyeds doc) -> k ∈ keys_of keyed' doc.
Proof.
  revert doc. induction keyeds as [|keyed keyeds IH]; intros doc; simpl; [done|].
  intros H%IH. unfold clean_keyed in H. apply keys_of_remove_keyed in H.
  destruct prev; [by apply keys_of_remove_keyed in H|done].
Qed.

(** Once cleaned, a document has no element under a managed key. *)
Lemma cleaned_disjoint prev managed keyeds doc keyed k :
  keyed ∈ keyeds -> k ∈ keys_of keyed managed ->
  k ∉ keys_of keyed (fold_left (clean_keyed prev managed) keyeds doc).
Proof.
  revert doc. induction keyeds as [|keyed' keyeds IH]; intros doc Hin Hk; [set_solver|].
  simpl. apply elem_of_cons in Hin as [<-|Hin]; [|by apply IH].
  intros H%clean_keyed_sub. exact (remove_keyed_clean _ _ _ _ Hk H).
Qed.

Lemma keyed_added_disjoint keyed before after k :
  k ∈ keys_of keyed (keyed_added keyed before after) -> k ∉ keys_of keyed before.
Proof.
  unfold keys_of at 1. rewrite elem_of_filter_map. intros (v & Hv & Ek).
  assert (v ∈ retain (fun element =>
      is_some_and (fun key => negb (bool_decide (key ∈ keys_of keyed before)))
        (element_key keyed element)) (default [] (keyed_array after keyed))) as Hr.
  { revert Hv. unfold keyed_added, keyed_array at 1.
    destruct (is_empty (ka_field keyed)); simpl; [done|]. by rewrite lookup_singleton_eq. }
  apply elem_of_retain in Hr as [_ Hr]. rewrite Ek in Hr. simpl in Hr.
  apply negb_true_iff, bool_decide_eq_false in Hr. done.
Qed.

(** Cleaning again, after the merge it prepared, changes nothing. *)
Lemma clean_again prev managed keyeds doc st :
  ms_before st = fold_left (clean_keyed prev managed) keyeds doc ->
  fold_left (clean_keyed (Some st) managed) keyeds (ms_before st) = ms_before st.
Proof.
  intros Hb. assert (forall keyed, keyed ∈ keyeds ->
    clean_keyed (Some st) managed (ms_before st) keyed = ms_before st) as Hnoop.
  { intros keyed Hin. unfold clean_keyed.
    rewrite (remove_keyed_noop (ms_before st) keyed (keyed_added _ _ _)).
    - apply remove_keyed_noop. intros k Hk. rewrite Hb. by apply cleaned_disjoint.
    - intros k. apply keyed_added_disjoint. }
  clear Hb. induction keyeds as [|keyed keyeds IH]; simpl; [done|].
  rewrite Hnoop by set_solver. apply IH. set_solver.
Qed.

(** An array keyed by a field takes managed elements by key: after the merge
    every element under a managed key is the managed one, every managed element is
    there, and the user's other elements are kept in order, each as it was. *)
Theorem keyed_elements_replaced options keyed doc mg users managed_elements :
  mo_keyed_arrays options = [keyed] -> mo_replace_paths options = [] ->
  is_empty (ka_field keyed) = false ->
  doc !! ka_field keyed = Some (Array users) ->
  mg !! ka_field keyed = Some (Array managed_elements) ->
  (forall v, v ∈ managed_elements -> is_Some (element_key keyed v)) ->
  let managed := Object mg in
  let before := before_document options None false managed (Object doc) in
  let result := elements keyed (after_document options managed before) in
  let users_own := spared (keys_of keyed managed) keyed in
  (forall v, v ∈ result -> users_own v = false -> v ∈ managed_elements) /\
  (forall v, v ∈ managed_elements -> v ∈ result) /\
  retain users_own result = retain users_own users.
Proof.
  intros Hk Hr Hf Hdoc Hmg Hkeyed managed before result users_own.
  assert (elements keyed (Object doc) = users) as Hu
    by (unfold elements, keyed_array; rewrite Hf; simpl; by rewrite Hdoc).
  assert (elements keyed managed = managed_elements) as Hm
    by (unfold elements, keyed_array; rewrite Hf; simpl; by rewrite Hmg).
  assert (exists b, before = Object b /\ b !! ka_field keyed = Some (Array (retain users_own users)))
    as (b & Hb & Hbl).
  { unfold before, before_document. rewrite Hk. simpl. unfold clean_keyed, remove_keyed.
    destruct (keys_of keyed managed) as [|k0 ks] eqn:Ek.
    - exists doc. split; [done|]. rewrite Hdoc. do 2 f_equal. symmetry. apply retain_all.
      intros v _. unfold users_own, spared. rewrite ?Ek. by destruct (element_key keyed v).
    - unfold keyed_array_update. rewrite Hf. eexists. split; [done|].
      rewrite lookup_alter_eq, Hdoc. simpl. unfold users_own, spared. by rewrite ?Ek. }
  assert (result = merged_array (retain users_own users) managed_elements) as Hres.
  { unfold result, after_document, elements, keyed_array. rewrite Hf, Hr, Hb. simpl fold_left.
    unfold managed. rewrite merge_overlay_objects. simpl. rewrite lookup_merged_object, Hmg, Hbl.
    done. }
  assert (forall v, v ∈ managed_elements -> users_own v = false) as Hown.
  { intros v Hv. destruct (Hkeyed v Hv) as [k Ev]. unfold users_own, spared. rewrite Ev. simpl.
    rewrite bool_decide_true; [done|]. apply elem_of_filter_map. exists v. fold (elements keyed managed).
    by rewrite Hm. }
  destruct (merged_array_spec (retain users_own users) managed_elements)
    as (added & Heq & _ & Ha & Hin).
  rewrite Hres, Heq. split; [|split; [done|]].
  - intros v [[_ Hv]%elem_of_retain|Hv]%elem_of_app Ho; [congruence|by apply Ha].
  - rewrite retain_app, (retain_none _ added), app_nil_r by (intros v Hv; by apply Hown, Ha).
    apply retain_all. intros v Hv. apply elem_of_retain in Hv as [_ Hv]. exact Hv.
Qed.

(** ** Planned files *)

(** [pl'] is [pl] with the operations [ops] planned on [s], report lines with the
    actions [acts], and nothing but observations besides. *)
Record planned (s : fs) (ops : list FileChange) (acts : list string)
    (pl pl' : ReconcilePlan) : Prop := {
  planned_faithful : faithful s pl -> faithful s pl';
  planned_operations : operations pl' = (operations pl ++ ops)%list;
  planned_dirs : private_dirs pl' = private_dirs pl;
  planned_actions :
    map dc_action (changes (report pl')) = (map dc_action (changes (report pl)) ++ acts)%list;
  planned_observed q o : observed pl !! q = Some o -> observed pl' !! q = Some o;
}.

Lemma planned_refl s pl : planned s [] [] pl pl.
Proof. split; try done; by rewrite app_nil_r. Qed.
Lemma planned_trans s ops1 acts1 ops2 acts2 pl1 pl2 pl3 :
  planned s ops1 acts1 pl1 pl2 -> planned s ops2 acts2 pl2 pl3 ->
  planned s (ops1 ++ ops2)%list (acts1 ++ acts2)%list pl1 pl3.
Proof.
  intros [A1 B1 C1 D1 E1] [A2 B2 C2 D2 E2]. split; eauto; try congruence.
  - rewrite B2, B1. by rewrite app_assoc.
  - rewrite D2, D1. by rewrite app_assoc.
Qed.

Lemma faithful_default s : faithful s default_plan.
Proof. by intros p o. Qed.

Lemma read_planned s p pl o :
  faithful s pl -> read_optional s p = Ok o ->
  exists pl', read s p pl = (match o with Some c => Ok c | None => Err NotFound end, pl') /\
    planned s [] [] pl pl' /\ observed pl' !! p = Some o.
Proof.
  intros Hf Ho. unfold read. destruct (observed pl !! p) as [known|] eqn:E.
  - pose proof (Hf _ _ E) as Hk. rewrite Ho in Hk. injection Hk as ->.
    exists pl. split; [by destruct known|]. split; [apply planned_refl|done].
  - rewrite Ho. eexists. split; [by destruct o|]. split; [|apply lookup_insert_eq].
    split; simpl; rewrite ?app_nil_r; try done.
    + intros _ q x. simpl. intros [[<- <-]|[_ Hq]]%lookup_insert_Some; [done|by apply Hf].
    + intros q x Hq. rewrite lookup_insert_ne; [done|]. congruence.
Qed.

Lemma push_operation_planned s c pl : planned s [c] [] pl (push_operation c pl).
Proof. split; simpl; rewrite ?app_nil_r; done. Qed.

Lemma write_file_planned s p contents mode pl o :
  faithful s pl -> read_optional s p = Ok o ->
  exists pl', write_file s p contents mode pl = (Ok tt, pl') /\
    planned s [{| fc_path := p; fc_contents := Some contents; fc_permissions := mode |}] [] pl pl' /\
    observed pl' !! p = Some o.
Proof.
  intros Hf Ho. destruct (read_planned s p pl o Hf Ho) as (pl1 & Hr & Hp & Hob).
  unfold write_file. rewrite Hr. eexists. split; [by destruct o|]. split; [|done].
  apply (planned_trans s [] [] _ [] _ pl1); [done|apply push_operation_planned].
Qed.

Lemma remove_file_planned s p pl c :
  faithful s pl -> read_optional s p = Ok (Some c) ->
  exists pl', remove_file s p pl = (Ok tt, pl') /\
    planned s [{| fc_path := p; fc_contents := None; fc_permissions := 0 |}] [] pl pl' /\
    observed pl' !! p = Some (Some c).
Proof.
  intros Hf Ho. destruct (read_planned s p pl _ Hf Ho) as (pl1 & Hr & Hp & Hob).
  unfold remove_file, st_bind. rewrite Hr. eexists. split; [done|]. split; [|done].
  apply (planned_trans s [] [] _ [] _ pl1); [done|apply push_operation_planned].
Qed.

Lemma record_diff_planned s n d a p b af pl : planned s [] [a] pl (record_diff n d a p b af pl).
Proof. split; try done; simpl; [by rewrite app_nil_r|by rewrite map_app]. Qed.

Lemma record_action_planned s n d a p b af red pl :
  exists pl', record_action n d a p b af red pl = (Ok tt, pl') /\ planned s [] [a] pl pl'.
Proof. eexists. split; [done|]. destruct red; by apply record_diff_planned. Qed.

Lemma record_planned s n d a p pl o :
  faithful s pl -> read_optional s p = Ok o -> planned s [] [a] pl (record s n d a p pl).
Proof.
  intros Hf Ho. unfold record. destruct (String.eqb a "remove"); [|apply record_diff_planned].
  destruct (read_planned s p pl o Hf Ho) as (pl1 & -> & Hp & _).
  apply (planned_trans s [] [] [] [a] pl pl1); [done|apply record_diff_planned].
Qed.

(** A plan made on [s] that reports no conflict passes its checks there, and
    applying it is applying its operations. *)
Lemma apply_planned rng s ops acts pl :
  planned s ops acts default_plan pl -> "conflict" ∉ acts ->
  apply_tracked rng pl s = apply_operations rng (observed pl) 0 ops s.
Proof.
  intros [Hf Ho Hd Ha Hobs] Hc. simpl in *. unfold apply_tracked.
  assert (find is_conflict (changes (report pl)) = None) as ->.
  { apply find_none. intros c Hin. apply String.eqb_neq. intros E. apply Hc.
    rewrite <- Ha, <- E. by apply list_elem_of_fmap_2. }
  unfold st_bind at 1. rewrite (proj2 (check_observed_None s _)).
  2: { intros p e Hpe%elem_of_iter_observed. by apply Hf; [apply faithful_default|]. }
  rewrite Hd, Ho. done.
Qed.

Lemma grants_beyond_file s p mode c m :
  file_at s p = Some (c, m) ->
  grants_beyond s p mode =
    match fs_fault s CMetadata p with
    | Some _ => false
    | None => negb (Z.land (Z.ldiff m mode) 511 =? 0)
    end.
Proof.
  unfold grants_beyond, fs_metadata, file_at. destruct (fs_fault s CMetadata p); [done|].
  destruct (nodes s !! p) as [[]|]; intros; by simplify_eq.
Qed.
Lemma grants_beyond_within s p mode c m :
  file_at s p = Some (c, m) -> within m mode -> grants_beyond s p mode = false.
Proof.
  intros Hf Hw. rewrite (grants_beyond_file _ _ _ _ _ Hf). unfold within in Hw. rewrite Hw.
  by destruct (fs_fault s CMetadata p).
Qed.

Lemma trim_bom_none c : strip_prefix bom c = None -> trim_bom c = c.
Proof.
  intros H. unfold trim_bom. destruct (String.length c); [done|]. unfold trim_bom_fuel. by rewrite H.
Qed.

Lemma plain_S d v : plain d v -> plain (S d) v.
Proof.
  revert v. induction d as [|d IH]; intros [| | | |l|m]; try done.
  - intros H. eapply Forall_impl; [exact H|]. apply IH.
  - intros H. eapply map_Forall_impl; [exact H|]. intros k v. apply IH.
Qed.

Lemma same_shape_refl v : same_shape v v = true.
Proof. unfold same_shape. by rewrite !eqb_reflx. Qed.
Lemma same_shape_overlay base overlay : same_shape (merge_overlay base overlay) overlay = true.
Proof. destruct overlay; destruct base; done. Qed.
Lemma is_empty_root_empty managed : is_empty_root (empty_root managed) = true.
Proof. by destruct managed. Qed.
Lemma rollback_overlay_merged before after : rollback_overlay after before after = before.
Proof. unfold rollback_overlay. by rewrite rollback_value_same. Qed.

Section documents.
Context `{C : JsonCodec} `{!JsonCodecLaws C}.
Variables (p sp : path) (desc name : string) (options : MergeOptions).

(** The sidecar's bytes as a stored state; [None] when they are invalid. *)
Definition stored_state (o : option string) : option (option merge_state) :=
  match o with
  | None => Some None
  | Some b => match state_from_slice b with Ok st => Some (Some st) | Err _ => None end
  end.

Definition pretty (v : value) : string := to_vec_pretty v +:+ newline.
Definition state_bytes (st : merge_state) : string := state_to_vec_pretty st +:+ newline.

Lemma parse_pretty format v : plain 127 v -> parse format (pretty v) = Ok v.
Proof.
  intros Hv. destruct format; simpl; [by apply json_roundtrip|]. unfold pretty, newline.
  rewrite json_utf8, trim_bom_none by apply json_no_bom. by apply json5_roundtrip.
Qed.
Lemma pretty_not_blank v : blank (pretty v) = false.
Proof. apply json_not_blank. Qed.
Lemma stored_state_bytes st :
  plain 126 (ms_before st) -> plain 126 (ms_after st) -> state_from_slice (state_bytes st) = Ok st.
Proof. apply state_roundtrip. Qed.

Lemma read_existing_planned s pl o :
  faithful s pl -> read_optional s p = Ok o ->
  exists pl', read_existing s p name pl = (Ok o, pl') /\
    planned s [] [] pl pl' /\ observed pl' !! p = Some o.
Proof.
  intros Hf Ho. destruct (read_planned s p pl o Hf Ho) as (pl' & Hr & H).
  exists pl'. split; [|done]. unfold read_existing. rewrite Hr. by destruct o.
Qed.

Lemma read_state_planned s pl o st :
  faithful s pl -> read_optional s sp = Ok o -> stored_state o = Some st ->
  exists pl', read_state s sp name pl = (Ok st, pl') /\
    planned s [] [] pl pl' /\ observed pl' !! sp = Some o.
Proof.
  intros Hf Ho Hst. destruct (read_planned s sp pl o Hf Ho) as (pl' & Hr & H).
  exists pl'. split; [|done]. unfold read_state. rewrite Hr.
  destruct o as [b|]; simpl in Hst; [|by simplify_eq].
  destruct (state_from_slice b); by simplify_eq.
Qed.

Definition write_op (q : path) (contents : string) (mode : Z) : FileChange :=
  {| fc_path := q; fc_contents := Some contents; fc_permissions := mode |}.
Definition remove_op (q : path) : FileChange :=
  {| fc_path := q; fc_contents := None; fc_permissions := 0 |}.

(** The state a merge of [document] records. *)
Definition merged_state (existing : option string) (previous : option merge_state)
    (legacy_owned : bool) (managed document : value) : merge_state :=
  let before := before_document options previous legacy_owned managed document in
  {| ms_created := match existing with
                   | None => true
                   | Some _ => default legacy_owned (ms_created <$> previous)
                   end;
     ms_before := before;
     ms_after := after_document options managed before |}.

Definition merge_operations (s : fs) (existing : option string) (st : merge_state)
  : list FileChange :=
  let action := merge_action s p (mo_mode options) existing (pretty (ms_after st)) in
  ((if String.eqb action "unchanged" then []
    else [write_op p (pretty (ms_after st)) (mo_mode options)])
   ++ [write_op sp (state_bytes st) 384])%list.

Lemma plan_merge_planned s existing sb previous managed legacy document :
  read_optional s p = Ok existing -> read_optional s sp = Ok sb ->
  stored_state sb = Some previous ->
  starting_document (mo_format options) existing managed = Some document ->
  let st := merged_state existing previous legacy managed document in
  exists pl,
    plan_merge_with s p sp managed legacy desc name options default_plan = (Ok tt, pl) /\
    planned s (merge_operations s existing st)
      [merge_action s p (mo_mode options) existing (pretty (ms_after st))] default_plan pl /\
    observed pl !! p = Some existing /\ observed pl !! sp = Some sb.
Proof.
  intros Hp Hsp Hst Hdoc st. pose proof (faithful_default s) as Hf0.
  destruct (read_existing_planned s default_plan existing Hf0 Hp) as (pl1 & E1 & P1 & O1).
  pose proof (planned_faithful _ _ _ _ _ P1 Hf0) as Hf1.
  destruct (read_state_planned s pl1 sb previous Hf1 Hsp Hst) as (pl2 & E2 & P2 & O2).
  pose proof (planned_faithful _ _ _ _ _ P2 Hf1) as Hf2.
  pose (action := merge_action s p (mo_mode options) existing (pretty (ms_after st))).
  destruct (record_action_planned s name desc action p existing (Some (pretty (ms_after st)))
              (mo_redact_diff options) pl2) as (pl3 & E3 & P3).
  pose proof (planned_faithful _ _ _ _ _ P3 Hf2) as Hf3.
  assert (exists pl4, (if String.eqb action "unchanged" then st_ret tt
            else write_file s p (pretty (ms_after st)) (mo_mode options)) pl3 = (Ok tt, pl4) /\
          planned s (if String.eqb action "unchanged" then []
            else [write_op p (pretty (ms_after st)) (mo_mode options)]) [] pl3 pl4)
    as (pl4 & E4 & P4).
  { destruct (String.eqb action "unchanged"); [exists pl3; split; [reflexivity|apply planned_refl]|].
    destruct (write_file_planned s p (pretty (ms_after st)) (mo_mode options) pl3 existing)
      as (pl4 & ? & ? & ?); eauto. }
  pose proof (planned_faithful _ _ _ _ _ P4 Hf3) as Hf4.
  destruct (write_file_planned s sp (state_bytes st) 384 pl4 sb Hf4 Hsp) as (pl5 & E5 & P5 & O5).
  exists pl5.
  pose proof (planned_trans _ _ _ _ _ _ _ _ P4 P5) as P45.
  pose proof (planned_trans _ _ _ _ _ _ _ _ P3 P45) as P35.
  pose proof (planned_trans _ _ _ _ _ _ _ _ P2 P35) as P25.
  split; [|split; [exact (planned_trans _ _ _ _ _ _ _ _ P1 P25)|]].
  - unfold plan_merge_with, st_bind. rewrite E1, E2. cbv beta iota zeta. rewrite Hdoc.
    change (before_document options previous legacy managed document) with (ms_before st).
    change (after_document options managed (ms_before st)) with (ms_after st).
    fold (pretty (ms_after st)). fold action. rewrite E3. rewrite E4. exact E5.
  - split; [by eapply planned_observed|done].
Qed.

Lemma merge_action_unchanged s existing contents :
  merge_action s p (mo_mode options) existing contents = "unchanged" <->
  existing = Some contents /\ grants_beyond s p (mo_mode options) = false.
Proof.
  unfold merge_action. destruct existing as [e|]; [|split; [done|by intros [? _]]].
  case_bool_decide as He; simpl; [subst|split; [done|intros [[= ->] _]; done]].
  destruct (grants_beyond s p (mo_mode options)); simpl; split; [done|by intros [_ ?]|done|done].
Qed.

(** Applying a planned merge leaves the merged document, at a mode the options
    allow, and the state beside it. *)
Lemma merge_applied rng s s1 existing st acts pl :
  sp <> p -> read_optional s p = Ok existing ->
  planned s (merge_operations s existing st) acts default_plan pl ->
  apply_tracked rng pl s = (Ok tt, s1) ->
  (exists m, file_at s1 p = Some (pretty (ms_after st), m)) /\
  grants_beyond s1 p (mo_mode options) = false /\
  (exists m, file_at s1 sp = Some (state_bytes st, m) /\ within m 384) /\
  frame [p; sp] s s1.
Proof.
  intros Hne Hp Hpl Happly.
  pose proof (planned_operations _ _ _ _ _ Hpl) as Hops. simpl in Hops.
  unfold merge_operations in Hops.
  pose proof (merge_action_unchanged s existing (pretty (ms_after st))) as Hact.
  set (action := merge_action _ _ _ _ _) in *.
  destruct (String.eqb action "unchanged") eqn:E.
  - apply String.eqb_eq, Hact in E as [-> Hg]. apply read_optional_Some in Hp as [m Hm].
    simpl in Hops. apply apply_tracked_Ok in Happly as [Hdone [Henv Hfr]];
      rewrite Hops in *; [|apply NoDup_singleton].
    assert (file_at s1 p = file_at s p) as Hsame by (apply Hfr; simpl; set_solver).
    rewrite Hm in Hsame. split; [by exists m|]. split.
    { rewrite (grants_beyond_file _ _ _ _ _ Hsame). rewrite (grants_beyond_file _ _ _ _ _ Hm) in Hg.
      destruct Henv as [_ ->]. done. }
    split; [exact (Hdone _ (list_elem_of_here _ _))|]. split; [done|].
    intros q Hq. apply Hfr. simpl. set_solver.
  - simpl in Hops. apply apply_tracked_Ok in Happly as [Hdone Hfr]; rewrite Hops in *.
    2: { simpl. apply NoDup_cons. split; [set_solver|apply NoDup_singleton]. }
    destruct (Hdone _ (list_elem_of_here _ _)) as (m & Hm & Hw). simpl in Hm, Hw.
    split; [by exists m|]. split; [by eapply grants_beyond_within|]. split; [|done].
    exact (Hdone _ (list_elem_of_further _ _ _ (list_elem_of_here _ _))).
Qed.

Definition removal_operations (s : fs) (existing : string) (st : merge_state) (doc : value)
  : list FileChange :=
  ((if ms_created st && is_empty_root doc then [remove_op p]
    else if bool_decide (pretty doc = existing) then []
    else [write_op p (pretty doc) (default 420 (current_mode s p))])
   ++ [remove_op sp])%list.

Lemma remove_state_planned s pl sb :
  faithful s pl -> read_optional s sp = Ok (Some sb) ->
  exists pl', remove_state_file s sp name pl = (Ok tt, pl') /\ planned s [remove_op sp] [] pl pl'.
Proof.
  intros Hf Hr. destruct (remove_file_planned s sp pl sb Hf Hr) as (pl' & E & P & _).
  exists pl'. unfold remove_state_file. by rewrite E.
Qed.

(** What a removal plans for the file itself. *)
Lemma remove_body_planned s pl existing st doc :
  faithful s pl -> read_optional s p = Ok (Some existing) ->
  let proposed := if ms_created st && is_empty_root doc then None else Some (pretty doc) in
  let action := match proposed with
                | None => "remove"
                | Some contents => if bool_decide (contents = existing) then "unchanged" else "update"
                end in
  exists pl' ops,
    match proposed with
    | None => remove_planned s p name
    | Some contents =>
        if String.eqb action "update"
        then write_file s p contents (default 420 (current_mode s p))
        else st_ret tt
    end pl = (Ok tt, pl') /\ planned s ops [] pl pl' /\
    (ops ++ [remove_op sp])%list = removal_operations s existing st doc /\
    action <> "conflict".
Proof.
  intros Hf Hp. unfold removal_operations. simpl.
  destruct (ms_created st && is_empty_root doc); simpl.
  - destruct (remove_file_planned s p pl existing Hf Hp) as (pl' & E & P & _).
    exists pl', [remove_op p]. unfold remove_planned, st_map_err. by rewrite E.
  - case_bool_decide; simpl.
    + exists pl, []. repeat split; try done; simpl; by rewrite app_nil_r.
    + destruct (write_file_planned s p (pretty doc) (default 420 (current_mode s p)) pl
                  (Some existing) Hf Hp) as (pl' & E & P & _).
      by exists pl', [write_op p (pretty doc) (default 420 (current_mode s p))].
Qed.

Lemma plan_remove_planned s existing sb st cur :
  read_optional s p = Ok (Some existing) -> blank existing = false ->
  parse (mo_format options) existing = Ok cur -> same_shape cur (ms_after st) = true ->
  read_optional s sp = Ok (Some sb) -> state_from_slice sb = Ok st ->
  exists pl acts,
    plan_remove_with s p sp desc name options default_plan = (Ok true, pl) /\
    planned s (removal_operations s existing st (restored_document options st cur)) acts
      default_plan pl /\ "conflict" ∉ acts.
Proof.
  intros Hp Hb Hparse Hshape Hsp Hst. pose proof (faithful_default s) as Hf0.
  destruct (read_state_planned s default_plan (Some sb) (Some st) Hf0 Hsp) as (pl1 & E1 & P1 & _).
  { simpl. by rewrite Hst. }
  pose proof (planned_faithful _ _ _ _ _ P1 Hf0) as Hf1.
  destruct (read_existing_planned s pl1 _ Hf1 Hp) as (pl2 & E2 & P2 & _).
  pose proof (planned_faithful _ _ _ _ _ P2 Hf1) as Hf2.
  set (doc := restored_document options st cur).
  set (proposed := if ms_created st && is_empty_root doc then None else Some (pretty doc)).
  set (action := match proposed with
                | None => "remove"
                | Some contents => if bool_decide (contents = existing) then "unchanged" else "update"
                end).
  destruct (record_action_planned s name desc action p (Some existing) proposed
              (mo_redact_diff options) pl2) as (pl3 & E3 & P3).
  pose proof (planned_faithful _ _ _ _ _ P3 Hf2) as Hf3.
  destruct (remove_body_planned s pl3 existing st doc Hf3 Hp) as (pl4 & ops & E4 & P4 & Hops & Ha).
  pose proof (planned_faithful _ _ _ _ _ P4 Hf3) as Hf4.
  destruct (remove_state_planned s pl4 sb Hf4 Hsp) as (pl5 & E5 & P5).
  exists pl5, [action]. split; [|split].
  - unfold plan_remove_with, st_bind. rewrite E1, E2. cbv beta iota zeta.
    rewrite Hb, Hparse, Hshape. cbv beta iota zeta delta [negb]. fold doc.
    fold (pretty doc). fold proposed. fold action. rewrite E3.
    fold proposed in E4. fold action in E4.
    match type of E4 with
      ?l = _ => match goal with |- match ?x with _ => _ end = _ => change x with l end
    end.
    rewrite E4. by rewrite E5.
  - rewrite <- Hops. pose proof (planned_trans _ _ _ _ _ _ _ _ P4 P5) as P45.
    pose proof (planned_trans _ _ _ _ _ _ _ _ P3 P45) as P35.
    pose proof (planned_trans _ _ _ _ _ _ _ _ P2 P35) as P25.
    exact (planned_trans _ _ _ _ _ _ _ _ P1 P25).
  - intros H%list_elem_of_singleton. by symmetry in H.
Qed.

Lemma removal_applied rng s s1 existing st doc acts pl :
  sp <> p -> read_optional s p = Ok (Some existing) ->
  planned s (removal_operations s existing st doc) acts default_plan pl ->
  apply_tracked rng pl s = (Ok tt, s1) ->
  file_at s1 sp = None /\ frame [p; sp] s s1 /\
  fst <$> file_at s1 p = if ms_created st && is_empty_root doc then None else Some (pretty doc).
Proof.
  intros Hne Hp Hpl Happly.
  pose proof (planned_operations _ _ _ _ _ Hpl) as Hops. simpl in Hops.
  unfold removal_operations in Hops. pose proof (read_optional_Some _ _ _ Hp) as [m0 Hm0].
  assert (NoDup (map fc_path (operations pl)) /\ remove_op sp ∈ operations pl /\
          forall q, q ∈ map fc_path (operations pl) -> q ∈ [p; sp]) as (Hnd & Hsp & Hsub).
  { rewrite Hops. destruct (ms_created st && is_empty_root doc); [|case_bool_decide]; simpl;
      (split; [|split]); try set_solver;
      repeat (apply NoDup_cons; split; [set_solver|]); apply NoDup_nil_2. }
  apply apply_tracked_Ok in Happly as [Hdone Hfr]; [|done].
  split; [exact (Hdone _ Hsp)|]. split; [by eapply frame_mono|].
  destruct Hfr as [_ Hfr]. rewrite Hops in Hdone, Hfr.
  destruct (ms_created st && is_empty_root doc); [|case_bool_decide as Heq]; simpl in *.
  - specialize (Hdone _ (list_elem_of_here _ _)). simpl in Hdone.
    unfold change_done in Hdone. simpl in Hdone. by rewrite Hdone.
  - rewrite Hfr by set_solver. rewrite Hm0. by subst.
  - destruct (Hdone _ (list_elem_of_here _ _)) as (m & Hm & _). simpl in Hm. by rewrite Hm.
Qed.

Lemma read_after s s1 q o c m :
  frame [p; sp] s s1 -> read_optional s q = Ok o -> file_at s1 q = Some (c, m) ->
  read_optional s1 q = Ok (Some c).
Proof.
  intros [[_ Hfault] _] Ho%read_optional_fault Hc. eapply read_optional_file; [|done].
  by rewrite Hfault.
Qed.

(** C2. Adding managed settings and taking them out again gives the file back:
    with no earlier merge and no keyed arrays, planning the merge succeeds;
    once it is applied the file holds the merged document, planning the
    removal succeeds, and once that is applied the sidecar is gone and the file
    holds the document it held before (a file the merge created is gone), while
    no other file has changed. *)
Theorem merge_then_remove_restores s existing managed document :
  sp <> p -> mo_keyed_arrays options = [] ->
  read_optional s p = Ok existing -> read_optional s sp = Ok None ->
  starting_document (mo_format options) existing managed = Some document ->
  plain 126 document -> plain 126 (after_document options managed document) ->
  exists pl,
    plan_merge_with s p sp managed false desc name options default_plan = (Ok tt, pl) /\
    forall rng s1, apply_tracked rng pl s = (Ok tt, s1) ->
    fst <$> file_at s1 p = Some (pretty (after_document options managed document)) /\
    exists pl',
      plan_remove_with s1 p sp desc name options default_plan = (Ok true, pl') /\
      forall rng' s2, apply_tracked rng' pl' s1 = (Ok tt, s2) ->
      file_at s2 sp = None /\
      fst <$> file_at s2 p =
        match existing with None => None | Some _ => Some (pretty document) end /\
      frame [p; sp] s s2.
Proof.
  intros Hne Hk Hp Hsp Hdoc Hplain Hplain'.
  destruct (plan_merge_planned s existing None None managed false document Hp Hsp eq_refl Hdoc)
    as (pl & Hplan & Hpl & _ & _).
  exists pl. split; [done|]. intros rng s1 Happly.
  set (st := merged_state existing None false managed document) in *.
  assert (ms_before st = document) as Hb by (unfold st; simpl; unfold before_document; by rewrite Hk).
  assert (ms_after st = after_document options managed document) as Ha
    by (unfold st; simpl; unfold before_document; by rewrite Hk).
  destruct (merge_applied rng s s1 existing st _ pl Hne Hp Hpl Happly)
    as ((m & Hm) & _ & (m' & Hm' & _) & Hfr).
  rewrite <- Ha in Hplain' |- *. split; [by rewrite Hm|].
  pose proof (read_after _ _ _ _ _ _ Hfr Hp Hm) as Hp1.
  pose proof (read_after _ _ _ _ _ _ Hfr Hsp Hm') as Hsp1.
  destruct (plan_remove_planned s1 (pretty (ms_after st)) (state_bytes st) st (ms_after st) Hp1) as (pl' & acts & Hrem & Hpl' & _);
    [apply pretty_not_blank|by apply parse_pretty, plain_S|apply same_shape_refl|done|
     apply stored_state_bytes; by rewrite ?Hb|].
  exists pl'. split; [done|]. intros rng' s2 Happly'.
  destruct (removal_applied rng' s1 s2 _ st _ acts pl' Hne Hp1 Hpl' Happly') as (H1 & H2 & H3).
  split; [done|]. split; [|by etrans]. rewrite H3. unfold restored_document.
  rewrite Hk, rollback_overlay_merged, Hb. simpl. destruct existing as [e|]; [done|].
  simpl in Hdoc. injection Hdoc as <-. by rewrite is_empty_root_empty.
Qed.

Lemma before_again managed existing previous legacy document :
  let st := merged_state existing previous legacy managed document in
  before_document options (Some st) legacy managed (ms_after st) = ms_before st.
Proof.
  intros st. unfold before_document. rewrite rollback_overlay_merged.
  eapply clean_again. unfold st. simpl. unfold before_document. done.
Qed.

Lemma starting_document_pretty v managed :
  plain 126 v -> same_shape v managed = true ->
  starting_document (mo_format options) (Some (pretty v)) managed = Some v.
Proof.
  intros Hv Hs. unfold starting_document.
  by rewrite pretty_not_blank, parse_pretty, Hs by by apply plain_S.
Qed.

(** Merging again changes nothing: after a merge is applied, whatever the
    file and its sidecar held before, planning the same merge succeeds, reports
    the file unchanged, and applying that plan leaves every file, the sidecar
    included, as it is. *)
Theorem merge_again_is_noop s existing sb previous managed legacy document :
  sp <> p -> fs_fault s CMetadata sp = None ->
  read_optional s p = Ok existing -> read_optional s sp = Ok sb ->
  stored_state sb = Some previous ->
  starting_document (mo_format options) existing managed = Some document ->
  let st := merged_state existing previous legacy managed document in
  plain 126 (ms_before st) -> plain 126 (ms_after st) ->
  exists pl,
    plan_merge_with s p sp managed legacy desc name options default_plan = (Ok tt, pl) /\
    forall rng s1, apply_tracked rng pl s = (Ok tt, s1) ->
    exists pl',
      plan_merge_with s1 p sp managed legacy desc name options default_plan = (Ok tt, pl') /\
      map dc_action (changes (report pl')) = ["unchanged"] /\
      forall rng', apply_tracked rng' pl' s1 = (Ok tt, s1).
Proof.
  intros Hne Hmeta Hp Hsp Hst Hdoc st Hb Ha.
  destruct (plan_merge_planned s existing sb previous managed legacy document Hp Hsp Hst Hdoc)
    as (pl & Hplan & Hpl & _ & _).
  exists pl. split; [done|]. intros rng s1 Happly.
  destruct (merge_applied rng s s1 existing st _ pl Hne Hp Hpl Happly)
    as ((m & Hm) & Hg & (m' & Hm' & Hw) & Hfr).
  pose proof (read_after _ _ _ _ _ _ Hfr Hp Hm) as Hp1.
  pose proof (read_after _ _ _ _ _ _ Hfr Hsp Hm') as Hsp1.
  destruct (plan_merge_planned s1 (Some (pretty (ms_after st))) (Some (state_bytes st)) (Some st)
              managed legacy (ms_after st) Hp1 Hsp1) as (pl' & Hplan' & Hpl' & _ & Ho').
  { unfold stored_state. by rewrite stored_state_bytes. }
  { apply starting_document_pretty; [done|]. apply same_shape_overlay. }
  set (st' := merged_state (Some (pretty (ms_after st))) (Some st) legacy managed (ms_after st)) in *.
  assert (st' = st) as Heq.
  { pose proof (before_again managed existing previous legacy document) as Hba.
    cbv zeta in Hba. fold st in Hba. unfold st', merged_state. rewrite Hba. reflexivity. }
  rewrite Heq in Hpl'. exists pl'. split; [done|].
  assert (merge_action s1 p (mo_mode options) (Some (pretty (ms_after st))) (pretty (ms_after st))
          = "unchanged") as Hact by (by apply merge_action_unchanged).
  unfold merge_operations in Hpl'. rewrite Hact in Hpl'. simpl in Hpl'.
  split; [by rewrite (planned_actions _ _ _ _ _ Hpl')|]. intros rng'.
  rewrite (apply_planned rng' s1 _ _ pl' Hpl'); [|by intros ?%list_elem_of_singleton].
  apply apply_operations_skip. intros c ->%list_elem_of_singleton.
  eapply skips_true; [done|exact Ho'| |exact Hm'|exact Hw].
  destruct Hfr as [[_ ->] _]. done.
Qed.

(** What the user does to a managed file is not lost when the settings go:
    from any later state that still has the sidecar, whatever document of the
    same kind the file now holds, planning the removal succeeds and applying it
    leaves the three-way rollback of that document (or no file, when the merge
    created it and nothing is left) and no sidecar. *)
Theorem remove_after_edit s contents current st :
  sp <> p -> mo_keyed_arrays options = [] ->
  plain 126 (ms_before st) -> plain 126 (ms_after st) ->
  read_optional s p = Ok (Some contents) -> blank contents = false ->
  parse (mo_format options) contents = Ok current ->
  same_shape current (ms_after st) = true ->
  read_optional s sp = Ok (Some (state_bytes st)) ->
  let restored := rollback_overlay current (ms_before st) (ms_after st) in
  exists pl,
    plan_remove_with s p sp desc name options default_plan = (Ok true, pl) /\
    forall rng s1, apply_tracked rng pl s = (Ok tt, s1) ->
    file_at s1 sp = None /\
    fst <$> file_at s1 p =
      (if ms_created st && is_empty_root restored then None else Some (pretty restored)) /\
    frame [p; sp] s s1.
Proof.
  intros Hne Hk Hb Ha Hp Hblank Hparse Hshape Hsp restored.
  destruct (plan_remove_planned s contents (state_bytes st) st current Hp Hblank Hparse Hshape Hsp)
    as (pl & acts & Hrem & Hpl & _); [apply stored_state_bytes; assumption|].
  exists pl. split; [done|]. intros rng s1 Happly.
  destruct (removal_applied rng s s1 _ st _ acts pl Hne Hp Hpl Happly) as (H1 & H2 & H3).
  split; [done|]. split; [|done]. unfold restored_document in H3. by rewrite Hk in H3.
Qed.
End documents.

(** ** Concrete runs *)

Definition settings : path := home "settings.json".
Definition sidecar : path := state_path settings.
Definition user_document : value := Object {[ "theme" := VString "dark"; "env" := Object {[ "A" := VString "1" ]} ]}.
Definition managed_document : value :=
  Object {[ "env" := Object {[ "URL" := VString "u" ]}; "telemetry" := VBool true ]}.
Definition settings_fs : fs :=
  {| nodes := {[ ["/"; "home"] := Dir 493; settings := File (pretty user_document) 420 ]};
     umask := 18; fs_fault := no_fault |}.
Definition merged_document : value := after_document default_options managed_document user_document.
Definition demo_state : merge_state :=
  {| ms_created := false; ms_before := user_document; ms_after := merged_document |}.
(** The user has since changed the theme. *)
Definition edited_document : value :=
  merge_overlay merged_document (Object {[ "theme" := VString "light" ]}).
Definition edited_fs : fs :=
  {| nodes := {[ ["/"; "home"] := Dir 493; settings := File (pretty edited_document) 420;
                 sidecar := File (state_bytes demo_state) 384 ]};
     umask := 18; fs_fault := no_fault |}.
Definition demo_keyed : KeyedArray := {| ka_field := "models"; ka_keys := ["id"] |}.
Definition demo_element (id owner : string) : value :=
  Object {[ "id" := VString id; "owner" := VString owner ]}.
Definition keyed_options : MergeOptions :=
  {| mo_mode := 420; mo_keyed_arrays := [demo_keyed]; mo_redact_diff := false; mo_format := Json;
     mo_replace_paths := [] |}.

(** The whole cycle on a concrete file system: both plans apply. *)
Example demo_cycle :
  let merge := snd (plan_merge settings_fs settings sidecar managed_document false "settings" "Demo"
                      default_plan) in
  let '(r1, s1) := apply_tracked demo_rng merge settings_fs in
  let remove := snd (plan_remove s1 settings sidecar "settings" "Demo" default_plan) in
  let '(r2, s2) := apply_tracked demo_rng remove s1 in
  is_ok r1 && is_ok r2 && bool_decide (nodes s2 = nodes settings_fs) = true.
Proof. vm_compute. reflexivity. Qed.

Lemma rollback_three_way_witness :
  let rolled := rollback_value (Some edited_document) (Some user_document) (Some merged_document) in
  (at_path ["env"; "URL"] (Some edited_document) = at_path ["env"; "URL"] (Some merged_document) ->
     at_path ["env"; "URL"] rolled = at_path ["env"; "URL"] (Some user_document)) /\
  (at_path ["env"; "URL"] (Some user_document) = at_path ["env"; "URL"] (Some merged_document) ->
     at_path ["env"; "URL"] rolled = at_path ["env"; "URL"] (Some edited_document)).
Proof.
  refine (rollback_three_way ["env"; "URL"] edited_document user_document merged_document _).
  vm_compute. reflexivity.
Defined.

Lemma keyed_elements_replaced_witness :
  let managed := Object {[ "models" := Array [demo_element "m1" "us"] ]} in
  let document := Object {[ "models" := Array [demo_element "m1" "old"; demo_element "m2" "me"] ]} in
  let before := before_document keyed_options None false managed document in
  let result := elements demo_keyed (after_document keyed_options managed before) in
  let users_own := spared (keys_of demo_keyed managed) demo_keyed in
  (forall v, v ∈ result -> users_own v = false -> v ∈ [demo_element "m1" "us"]) /\
  (forall v, v ∈ [demo_element "m1" "us"] -> v ∈ result) /\
  retain users_own result = retain users_own [demo_element "m1" "old"; demo_element "m2" "me"].
Proof.
  refine (keyed_elements_replaced keyed_options demo_keyed
    {[ "models" := Array [demo_element "m1" "old"; demo_element "m2" "me"] ]}
    {[ "models" := Array [demo_element "m1" "us"] ]}
    [demo_element "m1" "old"; demo_element "m2" "me"] [demo_element "m1" "us"] _ _ _ _ _ _);
    try (vm_compute; reflexivity).
  intros v ->%list_elem_of_singleton. vm_compute. eexists. reflexivity.
Defined.

Lemma merge_then_remove_restores_witness :
  exists pl,
    plan_merge_with settings_fs settings sidecar managed_document false "settings" "Demo"
      default_options default_plan = (Ok tt, pl) /\
    forall rng s1, apply_tracked rng pl settings_fs = (Ok tt, s1) ->
    fst <$> file_at s1 settings =
      Some (pretty (after_document default_options managed_document user_document)) /\
    exists pl',
      plan_remove_with s1 settings sidecar "settings" "Demo" default_options default_plan
        = (Ok true, pl') /\
      forall rng' s2, apply_tracked rng' pl' s1 = (Ok tt, s2) ->
      file_at s2 sidecar = None /\
      fst <$> file_at s2 settings = Some (pretty user_document) /\
      frame [settings; sidecar] settings_fs s2.
Proof.
  assert (sidecar <> settings) as H1 by (vm_compute; discriminate).
  assert (read_optional settings_fs settings = Ok (Some (pretty user_document))) as H2
    by (vm_compute; reflexivity).
  assert (read_optional settings_fs sidecar = Ok None) as H3 by (vm_compute; reflexivity).
  assert (starting_document Json (Some (pretty user_document)) managed_document
          = Some user_document) as H4 by (vm_compute; reflexivity).
  assert (plain 126 user_document) as H5 by (apply (bool_decide_unpack _); vm_compute; exact I).
  assert (plain 126 (after_document default_options managed_document user_document)) as H6
    by (apply (bool_decide_unpack _); vm_compute; exact I).
  exact (merge_then_remove_restores settings sidecar "settings" "Demo" default_options settings_fs
    (Some (pretty user_document)) managed_document user_document H1 eq_refl H2 H3 H4 H5 H6).
Defined.

Lemma merge_again_is_noop_witness :
  exists pl,
    plan_merge_with edited_fs settings sidecar managed_document false "settings" "Demo"
      default_options default_plan = (Ok tt, pl) /\
    forall rng s1, apply_tracked rng pl edited_fs = (Ok tt, s1) ->
    exists pl',
      plan_merge_with s1 settings sidecar managed_document false "settings" "Demo"
        default_options default_plan = (Ok tt, pl') /\
      map dc_action (changes (report pl')) = ["unchanged"] /\
      forall rng', apply_tracked rng' pl' s1 = (Ok tt, s1).
Proof.
  assert (sidecar <> settings) as H1 by (vm_compute; discriminate).
  assert (read_optional edited_fs settings = Ok (Some (pretty edited_document))) as H2
    by (vm_compute; reflexivity).
  assert (read_optional edited_fs sidecar = Ok (Some (state_bytes demo_state))) as H3
    by (vm_compute; reflexivity).
  assert (stored_state (Some (state_bytes demo_state)) = Some (Some demo_state)) as H4
    by (vm_compute; reflexivity).
  assert (starting_document Json (Some (pretty edited_document)) managed_document
          = Some edited_document) as H5 by (vm_compute; reflexivity).
  refine (merge_again_is_noop settings sidecar "settings" "Demo" default_options edited_fs
    (Some (pretty edited_document)) (Some (state_bytes demo_state)) (Some demo_state)
    managed_document false edited_document H1 eq_refl H2 H3 H4 H5 _ _);
    apply (bool_decide_unpack _); vm_compute; exact I.
Defined.

Lemma remove_after_edit_witness :
  let restored := rollback_overlay edited_document user_document merged_document in
  exists pl,
    plan_remove_with edited_fs settings sidecar "settings" "Demo" default_options default_plan
      = (Ok true, pl) /\
    forall rng s1, apply_tracked rng pl edited_fs = (Ok tt, s1) ->
    file_at s1 sidecar = None /\
    fst <$> file_at s1 settings = Some (pretty restored) /\
    frame [settings; sidecar] edited_fs s1.
Proof.
  assert (sidecar <> settings) as H1 by (vm_compute; discriminate).
  assert (read_optional edited_fs settings = Ok (Some (pretty edited_document))) as H2
    by (vm_compute; reflexivity).
  assert (blank (pretty edited_document) = false) as H3 by (vm_compute; reflexivity).
  assert (parse Json (pretty edited_document) = Ok edited_document) as H4
    by (vm_compute; reflexivity).
  assert (same_shape edited_document (ms_after demo_state) = true) as H5 by (vm_compute; reflexivity).
  assert (read_optional edited_fs sidecar = Ok (Some (state_bytes demo_state))) as H6
    by (vm_compute; reflexivity).
  assert (plain 126 (ms_before demo_state)) as H7 by (apply (bool_decide_unpack _); vm_compute; exact I).
  assert (plain 126 (ms_after demo_state)) as H8 by (apply (bool_decide_unpack _); vm_compute; exact I).
  exact (remove_after_edit settings sidecar "settings" "Demo" default_options edited_fs
    (pretty edited_document) edited_document demo_state H1 eq_refl H7 H8 H2 H3 H4 H5 H6).
Defined.
