(* ===== verification/Config.v ===== *)
(** * Configuration ([crates/core/src/config.rs])

    The configuration types, the defaults, and the checks a configuration passes
    before any device uses it. Reading YAML is [serde]'s and parsing a URL is the
    [url] crate's: both are parameters. A [BTreeMap] or [BTreeSet] is a [gmap] or
    [gset] iterated in key order; a [Duration] is a number of nanoseconds. *)

From S2P Require Import Prelude Str Json Fs.

(** ** Ordered iteration *)

Definition key_le {A} (a b : string * A) : Prop := String.leb (fst a) (fst b) = true.
#[global] Instance key_le_dec {A} : RelDecision (@key_le A).
Proof. intros a b. unfold key_le. apply _. Defined.
(** [for (key, value) in &map]. *)
Definition btree_iter {A} (m : gmap string A) : list (string * A) :=
  merge_sort key_le (map_to_list m).
Definition btree_keys {A} (m : gmap string A) : list string := map fst (btree_iter m).
Definition str_le (a b : string) : Prop := String.leb a b = true.
#[global] Instance str_le_dec : RelDecision str_le.
Proof. intros a b. unfold str_le. apply _. Defined.
(** [set.iter()]. *)
Definition set_iter (s : gset string) : list string := merge_sort str_le (elements s).

Lemma elem_of_btree_iter {A} (m : gmap string A) k v : (k, v) ∈ btree_iter m <-> m !! k = Some v.
Proof.
  unfold btree_iter. rewrite <- (elem_of_map_to_list m).
  by rewrite (merge_sort_Permutation key_le (map_to_list m)).
Qed.
Lemma elem_of_btree_keys {A} (m : gmap string A) k : k ∈ btree_keys m <-> is_Some (m !! k).
Proof.
  unfold btree_keys. rewrite list_elem_of_fmap. split.
  - intros ([k' v] & -> & H%elem_of_btree_iter). by exists v.
  - intros [v H%elem_of_btree_iter]. by exists (k, v).
Qed.
Lemma elem_of_set_iter (s : gset string) k : k ∈ set_iter s <-> k ∈ s.
Proof. unfold set_iter. rewrite merge_sort_Permutation. apply elem_of_elements. Qed.

(** ** Addresses and URLs *)

Inductive IpAddr : Type :=
| V4 (a b c d : Z)
| V6 (segments : list Z).
Record SocketAddr : Type := { sa_ip : IpAddr; sa_port : Z }.

(** [IpAddr::is_loopback]. *)
Definition ip_is_loopback (ip : IpAddr) : bool :=
  match ip with
  | V4 a _ _ _ => a =? 127
  | V6 segments => bool_decide (segments = [0; 0; 0; 0; 0; 0; 0; 1])
  end.

(** A parsed [Url], as its accessors show it; [url_host] is [host_str]. *)
Record Url : Type := {
  url_scheme : string;
  url_username : string;
  url_password : option string;
  url_host : option string;
  url_port : option Z;
  url_path : string;
  url_query : option string;
  url_fragment : option string;
}.

Definition secs (n : Z) : Z := n * 1000000000.

(** ** Daemon startup settings *)

Record LlmProxyStartupConfig : Type := {
  lps_listen : option SocketAddr;
  lps_client_id : option string;
}.
Record UsageStartupConfig : Type := {
  us_listen : SocketAddr;
  us_token_file : path;
}.
Record ClaudeDesktopStartupConfig : Type := {
  cds_config : option path;
  cds_credential_helper : option path;
}.
Record ToolConfigPath : Type := { tcp_config : option path }.
Record VsCodeStartupConfig : Type := {
  vss_config : option path;
  vss_settings : option path;
}.
Record OpenCodeStartupConfig : Type := {
  ocs_config : option path;
  ocs_plugin : option path;
}.
Record PiStartupConfig : Type := {
  pis_models : option path;
  pis_settings : option path;
}.
Record DaemonStartupConfig : Type := {
  ds_user : bool;
  ds_state_dir : option path;
  ds_socket : option path;
  ds_oidc_callback_listen : option SocketAddr;
  ds_claude_code : ToolConfigPath;
  ds_claude_desktop : ClaudeDesktopStartupConfig;
  ds_codex : ToolConfigPath;
  ds_open_code : OpenCodeStartupConfig;
  ds_grok : ToolConfigPath;
  ds_copilot : ToolConfigPath;
  ds_vscode : VsCodeStartupConfig;
  ds_pi : PiStartupConfig;
  ds_llm_proxy : LlmProxyStartupConfig;
  ds_usage : option UsageStartupConfig;
  ds_reconcile_interval : option Z;
}.

(** ** Sandbox, gateway, telemetry, controller connection *)

Record SandboxNetworkConfig : Type := { sn_allowed_domains : gset string }.
Record SandboxFilesystemConfig : Type := {
  sf_writable : list path;
  sf_denied : list path;
}.
Record SandboxConfig : Type := {
  sb_network : SandboxNetworkConfig;
  sb_filesystem : SandboxFilesystemConfig;
}.

Inductive ProxyUnavailable : Type := FailClosed | FailOpen.
#[global] Instance ProxyUnavailable_eq_dec : EqDecision ProxyUnavailable.
Proof. solve_decision. Defined.

Inductive GitHubTokenSource : Type := DeviceFlow | Request.
#[global] Instance GitHubTokenSource_eq_dec : EqDecision GitHubTokenSource.
Proof. solve_decision. Defined.
Record GitHubOAuthConfig : Type := {
  gh_source : GitHubTokenSource;
  gh_client_id : option string;
}.

Inductive LlmGatewayAuthentication : Type :=
| ControllerJwt (audience : string) (allowed_client_ids : gset string)
| Oidc (issuer : Url) (client_id redirect_uri : string) (scopes : list string)
    (allow_insecure device_authorization : bool).
Definition uses_credential_helper (a : LlmGatewayAuthentication) : bool := true.

Record LlmGatewayConfig : Type := {
  gw_url : Url;
  gw_authentication : option LlmGatewayAuthentication;
  gw_proxy_url : option Url;
  gw_github_oauth : option GitHubOAuthConfig;
  gw_when_proxy_unavailable : ProxyUnavailable;
}.

Inductive TelemetryEventName : Type := SessionNew | ToolUse | ToolUseInput.
#[global] Instance TelemetryEventName_eq_dec : EqDecision TelemetryEventName.
Proof. solve_decision. Defined.
(** The events of a set, without repetition. *)
Record TelemetryConfig : Type := { tl_events : list TelemetryEventName }.
Definition telemetry_is_empty (t : TelemetryConfig) : bool := bool_decide (tl_events t = []).
Definition collects_tool_use (t : TelemetryConfig) : bool :=
  bool_decide (ToolUse ∈ tl_events t) || bool_decide (ToolUseInput ∈ tl_events t).
Definition includes_tool_input (t : TelemetryConfig) : bool :=
  bool_decide (ToolUseInput ∈ tl_events t).
Definition collects_session_new (t : TelemetryConfig) : bool :=
  bool_decide (SessionNew ∈ tl_events t).

Record ControllerConnectionConfig : Type := {
  cc_address : string;
  cc_ca_certificate_path : option path;
  cc_heartbeat_interval : Z;
  cc_device_authorization : bool;
}.

(** ** Programs *)

Inductive ProgramAuthentication : Type := Subscription.
#[global] Instance ProgramAuthentication_eq_dec : EqDecision ProgramAuthentication.
Proof. solve_decision. Defined.

Record ClaudeCodeConfig : Type := {
  clc_use_llm_gateway : bool;
  clc_auth : option ProgramAuthentication;
  clc_settings : gmap string value;
}.
Record ClaudeDesktopConfig : Type := {
  cld_use_llm_gateway : bool;
  cld_auth : option ProgramAuthentication;
  cld_settings : gmap string value;
}.
Record CodexConfig : Type := {
  cx_use_llm_gateway : bool;
  cx_auth : option ProgramAuthentication;
  cx_managed_config : gmap string value;
}.
Inductive OpenCodeApi : Type := OpenaiResponses | OpenaiCompletions.
Record OpenCodeConfig : Type := {
  oc_use_llm_gateway : bool;
  oc_model : option string;
  oc_models : gmap string value;
  oc_api : option OpenCodeApi;
  oc_managed_config : gmap string value;
}.
Record GrokConfig : Type := {
  gk_use_llm_gateway : bool;
  gk_model : option string;
  gk_models : gmap string value;
  gk_managed_config : gmap string value;
}.
Inductive CopilotProvider : Type := Agentdesktop | AgentdesktopAnthropic.
#[global] Instance CopilotProvider_eq_dec : EqDecision CopilotProvider.
Proof. solve_decision. Defined.
Record CopilotModel : Type := {
  cm_provider : CopilotProvider;
  cm_model_id : option string;
  cm_extra : gmap string value;
}.
Record CopilotConfig : Type := {
  cp_use_llm_gateway : bool;
  cp_models : gmap string CopilotModel;
}.
Inductive VsCodeCopilotChat : Type := OwnModels | GithubModels.
#[global] Instance VsCodeCopilotChat_eq_dec : EqDecision VsCodeCopilotChat.
Proof. solve_decision. Defined.
Record VsCodeModel : Type := {
  vm_name : option string;
  vm_tool_calling : bool;
  vm_vision : bool;
  vm_max_input_tokens : option Z;
  vm_max_output_tokens : option Z;
  vm_extra : gmap string value;
}.
Definition default_vscode_model : VsCodeModel :=
  {| vm_name := None; vm_tool_calling := true; vm_vision := false; vm_max_input_tokens := None;
     vm_max_output_tokens := None; vm_extra := ∅ |}.
Record VsCodeConfig : Type := {
  vs_use_llm_gateway : bool;
  vs_copilot_chat : VsCodeCopilotChat;
  vs_models : gmap string VsCodeModel;
}.
Record PiConfig : Type := {
  pi_use_llm_gateway : bool;
  pi_model : option string;
  pi_models : gmap string value;
  pi_api : option string;
  pi_managed_config : gmap string value;
}.

Record ProgramsConfig : Type := {
  claude_code : option ClaudeCodeConfig;
  claude_desktop : option ClaudeDesktopConfig;
  codex : option CodexConfig;
  open_code : option OpenCodeConfig;
  grok : option GrokConfig;
  copilot : option CopilotConfig;
  vscode : option VsCodeConfig;
  pi : option PiConfig;
}.
Definition default_programs : ProgramsConfig :=
  {| claude_code := None; claude_desktop := None; codex := None; open_code := None; grok := None;
     copilot := None; vscode := None; pi := None |}.

Definition is_some {A} (o : option A) : bool := match o with Some _ => true | None => false end.
Definition is_none {A} (o : option A) : bool := negb (is_some o).

Definition programs_is_empty (p : ProgramsConfig) : bool :=
  is_none (claude_code p) && is_none (claude_desktop p) && is_none (codex p)
  && is_none (open_code p) && is_none (grok p) && is_none (copilot p) && is_none (vscode p)
  && is_none (pi p).

Inductive SubscriptionAuth : Type := CredentialHelper | ClientPassthrough.
#[global] Instance SubscriptionAuth_eq_dec : EqDecision SubscriptionAuth.
Proof. solve_decision. Defined.

(** [ProgramsConfig::subscription_auth]. *)
Definition subscription_auth (p : ProgramsConfig) (client_id : string) : option SubscriptionAuth :=
  let chosen :=
    if String.eqb client_id "claude-code"
    then (fun c => (clc_auth c, CredentialHelper)) <$> claude_code p
    else if String.eqb client_id "claude-desktop"
    then (fun c => (cld_auth c, CredentialHelper)) <$> claude_desktop p
    else if String.eqb client_id "codex"
    then (fun c => (cx_auth c, CredentialHelper)) <$> codex p
    else None in
  match chosen with
  | Some (auth, mechanism) =>
      if bool_decide (auth = Some Subscription) then Some mechanism else None
  | None => None
  end.

Record ProgramSelectionConfig : Type := { allow_user_choice : bool }.
Definition default_selection : ProgramSelectionConfig := {| allow_user_choice := false |}.

(** ** The daemon and controller configurations *)

Record DaemonConfig : Type := {
  dm_daemon : option DaemonStartupConfig;
  dm_controller : option ControllerConnectionConfig;
  dm_llm_gateway : option LlmGatewayConfig;
  dm_sandbox : option SandboxConfig;
  dm_telemetry : TelemetryConfig;
  dm_programs : ProgramsConfig;
  dm_program_selection : ProgramSelectionConfig;
  dm_inventory_interval : Z;
}.
Definition default_inventory_interval : Z := secs (15 * 60).
Definition default_heartbeat_interval : Z := secs 30.
Definition default_daemon : DaemonConfig :=
  {| dm_daemon := None; dm_controller := None; dm_llm_gateway := None; dm_sandbox := None;
     dm_telemetry := {| tl_events := [] |}; dm_programs := default_programs;
     dm_program_selection := default_selection;
     dm_inventory_interval := default_inventory_interval |}.
(** [DaemonConfig::is_empty]. *)
Definition daemon_is_empty (c : DaemonConfig) : bool :=
  is_none (dm_llm_gateway c) && is_none (dm_sandbox c) && telemetry_is_empty (dm_telemetry c)
  && programs_is_empty (dm_programs c).

Record ControllerOidcConfig : Type := {
  co_issuer : string;
  co_client_id : string;
  co_redirect_uri : string;
}.
Record ControllerDaemonConfig : Type := {
  cdc_path : path;
  cdc_revision : Z;
}.
Record ControllerGatewayJwtConfig : Type := {
  cgj_private_key : path;
  cgj_issuer : string;
  cgj_key_id : string;
  cgj_lifetime : Z;
}.
Record ControllerUsageConfig : Type := { cu_token_file : path }.
Record ControllerTlsFiles : Type := {
  tls_certificate : path;
  tls_key : path;
  tls_client_ca_certificate : path;
  tls_client_ca_key : path;
}.
Inductive ControllerTlsConfig : Type :=
| Directory (directory : path)
| Files (files : ControllerTlsFiles).
Record ControllerConfig : Type := {
  ct_fleet_listen : SocketAddr;
  ct_admin_listen : SocketAddr;
  ct_database_url : string;
  ct_oidc : ControllerOidcConfig;
  ct_daemon_config : option ControllerDaemonConfig;
  ct_gateway_jwt : option ControllerGatewayJwtConfig;
  ct_usage : option ControllerUsageConfig;
  ct_tls : ControllerTlsConfig;
  ct_allow_insecure_dev : bool;
}.

(** [Path::join] with an argument that may be absolute. *)
Definition path_is_relative (p : path) : bool :=
  match p with c :: _ => negb (String.eqb c "/") | [] => true end.
Definition path_join (directory p : path) : path :=
  if path_is_relative p then (directory ++ p)%list else p.
(** [ControllerTlsConfig::files]. *)
Definition tls_files (t : ControllerTlsConfig) : ControllerTlsFiles :=
  match t with
  | Directory directory =>
      {| tls_certificate := path_join directory ["controller.pem"];
         tls_key := path_join directory ["controller-key.pem"];
         tls_client_ca_certificate := path_join directory ["device-ca.pem"];
         tls_client_ca_key := path_join directory ["device-ca-key.pem"] |}
  | Files files => files
  end.

Definition default_fleet_listen : SocketAddr := {| sa_ip := V4 127 0 0 1; sa_port := 8443 |}.
Definition default_admin_listen : SocketAddr := {| sa_ip := V4 127 0 0 1; sa_port := 8080 |}.
Definition default_controller_database_url : string := "sqlite://agentdesktop-controller.db?mode=rwc".
Definition default_oidc_redirect_uri : string := "http://127.0.0.1:51327/callback".
Definition default_gateway_oidc_scopes : list string := ["openid"; "offline_access"].
Definition default_daemon_config_revision : Z := 1.
Definition default_gateway_jwt_issuer : string := "agentdesktop-controller".
Definition default_gateway_jwt_key_id : string := "agentdesktop".
Definition default_gateway_jwt_lifetime : Z := secs (5 * 60).

(** ** Checks *)

(** [if condition { anyhow::bail!(message); }]. *)
Definition bail_if (condition : bool) (message : string) : result unit string :=
  if condition then Err message else Ok tt.
(** [for x in l { check(x)?; }]. *)
Fixpoint check_all {A} (check : A -> result unit string) (l : list A) : result unit string :=
  match l with
  | [] => Ok tt
  | x :: l => let? _ := check x in check_all check l
  end.

Definition is_loopback (host : string) : bool :=
  bool_decide (host ∈ ["localhost"; "127.0.0.1"; "::1"; "[::1]"]).

Definition client_id_char (a : ascii) : bool :=
  is_ascii_alphanumeric a || Ascii.eqb a "-" || Ascii.eqb a "_" || Ascii.eqb a ".".
Definition valid_client_id (client_id : string) : bool :=
  negb (is_empty client_id) && (Nat.leb (String.length client_id) 64)
  && str_all client_id_char client_id.

(** [str::trim] leaves nothing. *)
Definition trims_empty (s : string) : bool := is_empty (trim s).

(** *** Copilot *)

Definition PROVIDER_OPENAI : string := "agentdesktop".
Definition PROVIDER_ANTHROPIC : string := "agentdesktop-anthropic".
Definition provider_name (p : CopilotProvider) : string :=
  match p with Agentdesktop => PROVIDER_OPENAI | AgentdesktopAnthropic => PROVIDER_ANTHROPIC end.
Definition copilot_reserved : list string := ["id"].

(** [for (key, value) in &extra { object.insert(..) }]. *)
Definition insert_extra (object extra : gmap string value) : gmap string value :=
  fold_left (fun object kv => <[fst kv := snd kv]> object) (btree_iter extra) object.

Definition copilot_document (entry : string * CopilotModel) : value :=
  let '(id, model) := entry in
  let object := <["provider" := VString (provider_name (cm_provider model))]> ∅ in
  let object := <["id" := VString id]> object in
  let object := <["modelId" := VString (default id (cm_model_id model))]> object in
  Object (insert_extra object (cm_extra model)).
(** [CopilotConfig::model_documents]. *)
Definition copilot_documents (c : CopilotConfig) : list value :=
  map copilot_document (btree_iter (cp_models c)).

Definition reserved_key (reserved : list string) (key : string) : bool :=
  any (fun r => eq_ignore_ascii_case r key) reserved.
Definition is_api_key (key : string) : bool := eq_ignore_ascii_case key "apiKey".

Definition check_copilot_model (entry : string * CopilotModel) : result unit string :=
  let '(id, model) := entry in
  let? _ := bail_if (trims_empty id) "programs.copilot.models has an entry with an empty ID" in
  let? _ := bail_if (is_some_and trims_empty (cm_model_id model))
              ("programs.copilot.models." +:+ id +:+ ".modelId must not be empty") in
  let? _ := match find (reserved_key copilot_reserved) (btree_keys (cm_extra model)) with
            | Some key => Err ("programs.copilot.models." +:+ id +:+ "." +:+ key
                               +:+ " is set by agentdesktop and cannot be overridden")
            | None => Ok tt
            end in
  bail_if (any is_api_key (btree_keys (cm_extra model)))
    ("programs.copilot.models." +:+ id
     +:+ ".apiKey is not allowed: the local proxy adds the gateway credential").
(** [CopilotConfig::validate]. *)
Definition copilot_validate (c : CopilotConfig) : result unit string :=
  check_all check_copilot_model (btree_iter (cp_models c)).

(** *** VS Code *)

Definition VENDOR_NAME : string := "agentdesktop".
Definition vscode_reserved : list string := ["id"; "url"; "requestHeaders"].

Definition insert_limit (key : string) (limit : option Z) (object : gmap string value)
  : gmap string value :=
  match limit with
  | Some n => <[key := Number (PosInt (Z.to_N n))]> object
  | None => object
  end.
Definition vscode_document (entry : string * VsCodeModel) : value :=
  let '(id, model) := entry in
  let object := <["id" := VString id]> ∅ in
  let object := <["name" := VString (default (id +:+ " (" +:+ VENDOR_NAME +:+ ")") (vm_name model))]>
                  object in
  let object := <["toolCalling" := VBool (vm_tool_calling model)]> object in
  let object := <["vision" := VBool (vm_vision model)]> object in
  let object := insert_limit "maxInputTokens" (vm_max_input_tokens model) object in
  let object := insert_limit "maxOutputTokens" (vm_max_output_tokens model) object in
  Object (insert_extra object (vm_extra model)).
(** [VsCodeConfig::model_documents]. *)
Definition vscode_documents (c : VsCodeConfig) : list value :=
  map vscode_document (btree_iter (vs_models c)).

Definition check_vscode_model (entry : string * VsCodeModel) : result unit string :=
  let '(id, model) := entry in
  let? _ := bail_if (trims_empty id) "programs.vscode.models has an entry with an empty ID" in
  let? _ := bail_if (any is_api_key (btree_keys (vm_extra model)))
              ("programs.vscode.models." +:+ id
               +:+ ".apiKey is not allowed: the local proxy adds the gateway credential") in
  match find (reserved_key vscode_reserved) (btree_keys (vm_extra model)) with
  | Some key => Err ("programs.vscode.models." +:+ id +:+ "." +:+ key
                     +:+ " is set by agentdesktop and cannot be overridden")
  | None => Ok tt
  end.
(** [VsCodeConfig::validate]. *)
Definition vscode_validate (c : VsCodeConfig) : result unit string :=
  let? _ := bail_if (bool_decide (vs_copilot_chat c = GithubModels)
                     && negb (bool_decide (vs_models c = ∅)))
              "programs.vscode.models is not allowed when copilotChat is githubModels: GitHub's own models are used instead" in
  check_all check_vscode_model (btree_iter (vs_models c)).

(** *** The whole daemon configuration *)

Definition http_or_https (scheme : string) : bool :=
  String.eqb scheme "http" || String.eqb scheme "https".

(** The checks on [llmGateway.url] and [proxyUrl], whose messages start alike. *)
Definition check_gateway_url (what : string) (url : Url) : result unit string :=
  let? _ := bail_if (negb (http_or_https (url_scheme url)))
              (what +:+ " must use HTTP or HTTPS, got " +:+ url_scheme url) in
  let? _ := bail_if (is_none (url_host url)) (what +:+ " must include a host") in
  let? _ := bail_if (negb (is_empty (url_username url)) || is_some (url_password url))
              (what +:+ " cannot include credentials") in
  bail_if (is_some (url_query url) || is_some (url_fragment url))
    (what +:+ " cannot include a query or fragment").

Definition check_sandbox (sandbox : option SandboxConfig) (programs : ProgramsConfig)
  : result unit string :=
  if is_some sandbox then
    let? _ := bail_if (is_some (claude_desktop programs)) "sandbox is not supported for Claude Desktop" in
    let? _ := bail_if (is_some (open_code programs)) "sandbox is not supported for OpenCode" in
    let? _ := bail_if (is_some (grok programs)) "sandbox is not supported for Grok Build" in
    let? _ := bail_if (is_some (copilot programs)) "sandbox is not supported for GitHub Copilot CLI" in
    let? _ := bail_if (is_some (vscode programs)) "sandbox is not supported for VS Code" in
    bail_if (is_some (pi programs)) "sandbox is not supported for Pi"
  else Ok tt.

Definition check_github (gateway : LlmGatewayConfig) : result unit string :=
  match gw_github_oauth gateway with
  | Some github =>
      let? _ :=
        match gh_source github with
        | DeviceFlow =>
            bail_if (trims_empty (default "" (gh_client_id github)))
              "llmGateway.githubOAuth.clientId is required when source is deviceFlow"
        | Request => Ok tt
        end in
      bail_if (is_none (gw_authentication gateway))
        "llmGateway.githubOAuth requires gateway authentication"
  | None => Ok tt
  end.

Definition check_issuer_scheme (issuer : Url) (allow_insecure : bool) : result unit string :=
  if String.eqb (url_scheme issuer) "https" then Ok tt
  else if String.eqb (url_scheme issuer) "http" then
    if allow_insecure && is_some_and is_loopback (url_host issuer) then Ok tt
    else if allow_insecure
    then Err "LLM gateway OIDC allowInsecure only permits loopback issuers"
    else Err "LLM gateway OIDC issuer must use HTTPS; allowInsecure is only for isolated loopback development"
  else Err ("LLM gateway OIDC issuer must use HTTPS, got " +:+ url_scheme issuer).

Section with_url.
(** [Url::parse]. *)
Variable parse_url : string -> result Url string.

Definition check_authentication (authentication : LlmGatewayAuthentication) : result unit string :=
  match authentication with
  | ControllerJwt audience allowed_client_ids =>
      let? _ := bail_if (trims_empty audience) "LLM gateway JWT audience cannot be empty" in
      let? _ := bail_if (bool_decide (allowed_client_ids = ∅))
                  "LLM gateway JWT allowedClientIds cannot be empty" in
      match find (fun id => negb (valid_client_id id)) (set_iter allowed_client_ids) with
      | Some client_id => Err ("invalid LLM gateway client ID " +:+ client_id)
      | None => Ok tt
      end
  | Oidc issuer client_id redirect_uri scopes allow_insecure _ =>
      let? _ := bail_if (is_none (url_host issuer)) "LLM gateway OIDC issuer must include a host" in
      let? _ := check_issuer_scheme issuer allow_insecure in
      let? _ := bail_if (negb (is_empty (url_username issuer)) || is_some (url_password issuer)
                         || is_some (url_query issuer) || is_some (url_fragment issuer))
                  "LLM gateway OIDC issuer cannot contain credentials, a query, or a fragment" in
      let? _ := bail_if (trims_empty client_id) "LLM gateway OIDC clientId cannot be empty" in
      let? _ := map_err (context "parse LLM gateway OIDC redirectUri URL") (parse_url redirect_uri) in
      bail_if (bool_decide (scopes = []) || any trims_empty scopes)
        "LLM gateway OIDC scopes cannot be empty"
  end.

Definition check_gateway (gateway : LlmGatewayConfig) : result unit string :=
  let? _ := check_gateway_url "LLM gateway URL" (gw_url gateway) in
  let? _ := match gw_proxy_url gateway with
            | Some url => check_gateway_url "LLM gateway proxyUrl" url
            | None => Ok tt
            end in
  let? _ := check_github gateway in
  match gw_authentication gateway with
  | Some authentication => check_authentication authentication
  | None => Ok tt
  end.

(** One row of the subscription table. *)
Definition check_subscription (llm_gateway : option LlmGatewayConfig)
    (row : string * bool * bool) : result unit string :=
  let '(name, subscription, uses_gateway) := row in
  let? _ := bail_if (subscription && (negb uses_gateway || is_none llm_gateway))
              ("programs." +:+ name
               +:+ ".auth subscription requires that program to use an LLM gateway") in
  let? _ := bail_if (subscription
                     && is_some_and (fun g => is_none (gw_authentication g)) llm_gateway)
              ("programs." +:+ name
               +:+ ".auth subscription requires oidc or controllerJwt gateway authentication") in
  bail_if (subscription
           && is_some_and (fun g => match gw_authentication g with
                                    | Some (Oidc _ _ _ _ _ true) => true
                                    | _ => false
                                    end) llm_gateway)
    ("programs." +:+ name
     +:+ ".auth subscription requires a browser sign-in and cannot be combined with llmGateway OIDC deviceAuthorization").

Definition is_subscription (auth : option ProgramAuthentication) : bool :=
  bool_decide (auth = Some Subscription).
Definition subscription_rows (programs : ProgramsConfig) : list (string * bool * bool) :=
  [("claudeCode", is_some_and (fun p => is_subscription (clc_auth p)) (claude_code programs),
    is_some_and clc_use_llm_gateway (claude_code programs));
   ("claudeDesktop", is_some_and (fun p => is_subscription (cld_auth p)) (claude_desktop programs),
    is_some_and cld_use_llm_gateway (claude_desktop programs));
   ("codex", is_some_and (fun p => is_subscription (cx_auth p)) (codex programs),
    is_some_and cx_use_llm_gateway (codex programs))].

Definition selected_model (model : option string) (missing : string) : result string string :=
  ok_or (option_filter (fun m => negb (trims_empty m)) model) missing.

Definition check_open_code (gateway : bool) (open_code : option OpenCodeConfig)
  : result unit string :=
  match open_code with
  | Some c =>
      if gateway && oc_use_llm_gateway c then
        let? model := selected_model (oc_model c)
                        "OpenCode requires model when llmGateway is configured" in
        bail_if (is_none (oc_models c !! model))
          ("OpenCode model " +:+ model +:+ " is not declared in models")
      else Ok tt
  | None => Ok tt
  end.
Definition check_grok (gateway : bool) (grok : option GrokConfig) : result unit string :=
  match grok with
  | Some c =>
      if gateway && gk_use_llm_gateway c then
        let? model := selected_model (gk_model c)
                        "Grok Build requires model when llmGateway is configured" in
        bail_if (negb (bool_decide (gk_models c = ∅)) && is_none (gk_models c !! model))
          ("Grok Build model " +:+ model +:+ " is not declared in models")
      else Ok tt
  | None => Ok tt
  end.
Definition check_copilot (gateway : bool) (copilot : option CopilotConfig) : result unit string :=
  match copilot with
  | Some c =>
      let? _ := copilot_validate c in
      bail_if (gateway && cp_use_llm_gateway c && bool_decide (cp_models c = ∅))
        "GitHub Copilot CLI requires at least one entry in models when llmGateway is configured"
  | None => Ok tt
  end.
Definition check_vscode (llm_gateway : option LlmGatewayConfig) (vscode : option VsCodeConfig)
  : result unit string :=
  match vscode with
  | Some c =>
      let? _ := vscode_validate c in
      match vs_copilot_chat c with
      | OwnModels =>
          bail_if (is_some llm_gateway && vs_use_llm_gateway c && bool_decide (vs_models c = ∅))
            "VS Code requires at least one entry in models when llmGateway is configured"
      | GithubModels =>
          bail_if (vs_use_llm_gateway c && is_some_and (fun g => is_none (gw_proxy_url g)) llm_gateway)
            "VS Code copilotChat githubModels requires llmGateway.proxyUrl when the gateway is used"
      end
  | None => Ok tt
  end.
Definition check_pi (gateway : bool) (pi : option PiConfig) : result unit string :=
  match pi with
  | Some c =>
      if gateway && pi_use_llm_gateway c then
        let? model := selected_model (pi_model c)
                        "Pi requires model when llmGateway is configured" in
        let? _ := bail_if (any trims_empty (btree_keys (pi_models c)))
                    "Pi model IDs cannot be empty" in
        bail_if (negb (bool_decide (pi_models c = ∅)) && is_none (pi_models c !! model))
          ("Pi model " +:+ model +:+ " is not declared in models")
      else Ok tt
  | None => Ok tt
  end.

Definition validate_daemon (llm_gateway : option LlmGatewayConfig) (sandbox : option SandboxConfig)
    (programs : ProgramsConfig) : result unit string :=
  let? _ := check_sandbox sandbox programs in
  let? _ := match llm_gateway with Some gateway => check_gateway gateway | None => Ok tt end in
  let? _ := check_all (check_subscription llm_gateway) (subscription_rows programs) in
  let? _ := check_open_code (is_some llm_gateway) (open_code programs) in
  let? _ := check_grok (is_some llm_gateway) (grok programs) in
  let? _ := check_copilot (is_some llm_gateway) (copilot programs) in
  let? _ := check_vscode llm_gateway (vscode programs) in
  check_pi (is_some llm_gateway) (pi programs).

Definition MAX_RECONCILE_INTERVAL : Z := secs (30 * 24 * 60 * 60).

(** [yamlviajson::from_str]. *)
Variable daemon_from_str : string -> result DaemonConfig string.
Variable controller_from_str : string -> result ControllerConfig string.

Definition parse_local_daemon (contents : string) : result DaemonConfig string :=
  let? config := map_err (context "parse daemon configuration") (daemon_from_str contents) in
  let? _ := bail_if (is_some_and (fun c => negb (starts_with "https://" (cc_address c)))
                       (dm_controller config))
              "controller address must use HTTPS" in
  let? _ := bail_if (dm_inventory_interval config =? 0)
              "inventoryInterval must be greater than zero" in
  let? _ := bail_if (is_some_and (fun i => (i =? 0) || (MAX_RECONCILE_INTERVAL <? i))
                       (dm_daemon config ≫= ds_reconcile_interval))
              "daemon.reconcileInterval must be greater than zero and at most 30 days (leave it unset for no periodic re-apply)" in
  let? _ :=
    match dm_daemon config ≫= ds_usage with
    | Some usage =>
        let? _ := bail_if (is_some (dm_controller config))
                    "daemon.usage is for a daemon without a controller; the controller collects usage for enrolled devices" in
        bail_if (negb (ip_is_loopback (sa_ip (us_listen usage))))
          "daemon.usage.listen must be a loopback address"
    | None => Ok tt
    end in
  let? _ := validate_daemon (dm_llm_gateway config) (dm_sandbox config) (dm_programs config) in
  Ok config.

Definition parse_daemon (contents : string) : result DaemonConfig string :=
  let? config := parse_local_daemon contents in
  let? _ := bail_if (is_some (dm_daemon config))
              "daemon startup settings are only allowed in the local configuration file" in
  Ok config.

Definition parse_controller (contents : string) : result ControllerConfig string :=
  let? config := map_err (context "parse controller configuration") (controller_from_str contents) in
  let? _ := bail_if (negb (ip_is_loopback (sa_ip (ct_admin_listen config))))
              "adminListen must use a loopback address" in
  let oidc := ct_oidc config in
  let? _ := bail_if (trims_empty (co_client_id oidc)) "oidc.clientId cannot be empty" in
  let? issuer := map_err (context "parse oidc.issuer URL") (parse_url (co_issuer oidc)) in
  let? _ :=
    if String.eqb (url_scheme issuer) "https" then Ok tt
    else if String.eqb (url_scheme issuer) "http"
    then bail_if (negb (ct_allow_insecure_dev config))
           "oidc.issuer must use HTTPS; allowInsecureDev is only for isolated development"
    else Err ("oidc.issuer must use HTTPS, got " +:+ url_scheme issuer) in
  let? _ := map_err (context "parse oidc.redirectUri URL") (parse_url (co_redirect_uri oidc)) in
  let? _ := bail_if (is_some_and (fun d => cdc_revision d =? 0) (ct_daemon_config config))
              "daemonConfig.revision must be greater than zero" in
  let? _ :=
    match ct_gateway_jwt config with
    | Some gateway =>
        let? _ := bail_if (trims_empty (cgj_issuer gateway)) "gatewayJwt.issuer cannot be empty" in
        let? _ := bail_if (trims_empty (cgj_key_id gateway)) "gatewayJwt.keyId cannot be empty" in
        bail_if (cgj_lifetime gateway =? 0) "gatewayJwt.lifetime must be greater than zero"
    | None => Ok tt
    end in
  Ok config.

(** [load_daemon] and [load_controller] read the file first. *)
Definition load_daemon (s : fs) (p : path) : result DaemonConfig string :=
  let? contents := map_err (fun e => context ("read configuration from " +:+ display p)
                                       (io_kind_message e)) (fs_read_to_string s p) in
  map_err (context ("parse configuration from " +:+ display p)) (parse_local_daemon contents).

Definition resolve_relative (directory p : path) : path :=
  if path_is_relative p then path_join directory p else p.
Definition load_controller (s : fs) (p : path) : result ControllerConfig string :=
  let? contents := map_err (fun e => context ("read controller configuration from " +:+ display p)
                                       (io_kind_message e)) (fs_read_to_string s p) in
  let? config := map_err (context ("parse controller configuration from " +:+ display p))
                   (parse_controller contents) in
  let directory := match parent p with Some d => d | None => [] end in
  let resolve := resolve_relative directory in
  Ok {| ct_fleet_listen := ct_fleet_listen config;
        ct_admin_listen := ct_admin_listen config;
        ct_database_url := ct_database_url config;
        ct_oidc := ct_oidc config;
        ct_daemon_config :=
          (fun d => {| cdc_path := resolve (cdc_path d); cdc_revision := cdc_revision d |})
          <$> ct_daemon_config config;
        ct_gateway_jwt :=
          (fun g => {| cgj_private_key := resolve (cgj_private_key g); cgj_issuer := cgj_issuer g;
                       cgj_key_id := cgj_key_id g; cgj_lifetime := cgj_lifetime g |})
          <$> ct_gateway_jwt config;
        ct_usage := (fun u => {| cu_token_file := resolve (cu_token_file u) |}) <$> ct_usage config;
        ct_tls := match ct_tls config with
                  | Directory d => Directory (resolve d)
                  | Files t =>
                      Files {| tls_certificate := resolve (tls_certificate t);
                               tls_key := resolve (tls_key t);
                               tls_client_ca_certificate := resolve (tls_client_ca_certificate t);
                               tls_client_ca_key := resolve (tls_client_ca_key t) |}
                  end;
        ct_allow_insecure_dev := ct_allow_insecure_dev config |}.
End with_url.

(** ** What the checks accept *)

Lemma bail_if_ok b m : bail_if b m = Ok tt <-> b = false.
Proof. by destruct b. Qed.
Lemma and_then_ok {A} (r : result A string) (k : A -> result unit string) :
  (let? x := r in k x) = Ok tt <-> exists x, r = Ok x /\ k x = Ok tt.
Proof. destruct r; naive_solver. Qed.
Lemma unit_then_ok (r k : result unit string) :
  (let? _ := r in k) = Ok tt <-> r = Ok tt /\ k = Ok tt.
Proof. destruct r as [[]|]; naive_solver. Qed.
Lemma check_all_ok {A} (check : A -> result unit string) l :
  check_all check l = Ok tt <-> forall x, x ∈ l -> check x = Ok tt.
Proof.
  induction l as [|x l IH]; simpl; [set_solver|]. rewrite unit_then_ok, IH. set_solver.
Qed.
Lemma find_ok {A} p (l : list A) (f : A -> string) :
  match find p l with Some x => Err (f x) | None => Ok tt end = Ok tt <->
  forall x, x ∈ l -> p x = false.
Proof. rewrite <- find_none. destruct (find p l); naive_solver. Qed.

(** Turns a chain of checks into the conjunction of what they require. *)
Ltac checks :=
  repeat first [rewrite unit_then_ok | rewrite bail_if_ok | rewrite find_ok | rewrite check_all_ok
               | rewrite any_false | rewrite orb_false_iff | rewrite negb_false_iff].

Lemma is_none_false {A} (o : option A) : is_none o = false <-> is_Some o.
Proof. destruct o; unfold is_none; simpl; split; try done. Qed.
Lemma is_some_false {A} (o : option A) : is_some o = false <-> o = None.
Proof. by destruct o. Qed.
Lemma is_empty_true s : is_empty s = true <-> s = "".
Proof. by destruct s. Qed.

(** Not only white space. *)
Definition nonblank (s : string) : Prop := trim s <> "".
Lemma trims_empty_false s : trims_empty s = false <-> nonblank s.
Proof. unfold trims_empty, nonblank. by destruct (trim s). Qed.
Lemma is_loopback_true h : is_loopback h = true <-> h ∈ ["localhost"; "127.0.0.1"; "::1"; "[::1]"].
Proof. apply bool_decide_eq_true. Qed.

(** A client ID: at most 64 letters, digits, [-], [_] and [.]. *)
Definition client_name (id : string) : Prop :=
  id <> "" /\ (String.length id <= 64)%nat /\
  forall pre a post, id = pre +:+ String a post ->
    is_ascii_alphanumeric a = true \/ a = "-"%char \/ a = "_"%char \/ a = "."%char.
Lemma str_all_true p s : str_all p s = true <-> forall pre a post, s = pre +:+ String a post -> p a = true.
Proof.
  split.
  - intros H pre a post ->. rewrite str_all_app in H. simpl in H. by destruct (p a), (str_all p pre).
  - induction s as [|b s IH]; intros H; simpl; [done|]. rewrite (H "" b s) by done. apply IH.
    intros pre a post ->. by apply (H (String b pre) a post).
Qed.
Lemma client_name_true id : valid_client_id id = true <-> client_name id.
Proof.
  assert (forall a, client_id_char a = true <->
    is_ascii_alphanumeric a = true \/ a = "-"%char \/ a = "_"%char \/ a = "."%char) as Hc.
  { intros a. unfold client_id_char. rewrite !orb_true_iff, !Ascii.eqb_eq. tauto. }
  assert (is_empty id = false <-> id <> "") as Hne by (by destruct id).
  unfold valid_client_id, client_name. rewrite !andb_true_iff, Nat.leb_le, str_all_true, negb_true_iff, Hne.
  setoid_rewrite Hc. tauto.
Qed.

(** A base URL credentials can safely be sent to. *)
Record base_url (u : Url) : Prop := {
  bu_scheme : url_scheme u = "http" \/ url_scheme u = "https";
  bu_host : is_Some (url_host u);
  bu_username : url_username u = "";
  bu_password : url_password u = None;
  bu_query : url_query u = None;
  bu_fragment : url_fragment u = None;
}.

Lemma check_gateway_url_ok what u : check_gateway_url what u = Ok tt <-> base_url u.
Proof.
  unfold check_gateway_url. checks. rewrite is_none_false, !is_some_false, is_empty_true.
  unfold http_or_https. rewrite orb_true_iff, !String.eqb_eq. split.
  - intros (? & ? & [] & []). by split.
  - intros []. done.
Qed.

Section accepted.
Variable parse_url : string -> result Url string.

Definition safe_issuer (issuer : Url) (allow_insecure : bool) : Prop :=
  is_Some (url_host issuer) /\
  (url_scheme issuer = "https" \/
   url_scheme issuer = "http" /\ allow_insecure = true /\
   exists h, url_host issuer = Some h /\ h ∈ ["localhost"; "127.0.0.1"; "::1"; "[::1]"]) /\
  url_username issuer = "" /\ url_password issuer = None /\ url_query issuer = None /\
  url_fragment issuer = None.

Definition safe_authentication (a : LlmGatewayAuthentication) : Prop :=
  match a with
  | ControllerJwt audience ids =>
      nonblank audience /\ ids <> ∅ /\ forall id, id ∈ ids -> client_name id
  | Oidc issuer client_id redirect_uri scopes allow_insecure _ =>
      safe_issuer issuer allow_insecure /\ nonblank client_id /\
      (exists redirect, parse_url redirect_uri = Ok redirect) /\ scopes <> [] /\
      forall scope, scope ∈ scopes -> nonblank scope
  end.

Record safe_gateway (g : LlmGatewayConfig) : Prop := {
  sg_url : base_url (gw_url g);
  sg_proxy_url u : gw_proxy_url g = Some u -> base_url u;
  sg_github h : gw_github_oauth g = Some h ->
    is_Some (gw_authentication g) /\
    (gh_source h = DeviceFlow -> exists id, gh_client_id h = Some id /\ nonblank id);
  sg_authentication a : gw_authentication g = Some a -> safe_authentication a;
}.

Lemma check_issuer_scheme_ok issuer allow_insecure :
  check_issuer_scheme issuer allow_insecure = Ok tt <->
  url_scheme issuer = "https" \/
  url_scheme issuer = "http" /\ allow_insecure = true /\
  exists h, url_host issuer = Some h /\ is_loopback h = true.
Proof.
  unfold check_issuer_scheme. rewrite <- (String.eqb_eq (url_scheme issuer) "https").
  rewrite <- (String.eqb_eq (url_scheme issuer) "http").
  destruct (String.eqb (url_scheme issuer) "https"); [by split; [left|]|].
  destruct (String.eqb (url_scheme issuer) "http"); [|split; [done|by intros [|[? _]]]].
  destruct allow_insecure; simpl; [|split; [done|by intros [|(_ & ? & _)]]].
  destruct (url_host issuer) as [h|]; simpl; [|split; [done|by intros [|(_ & _ & h & ? & _)]]].
  destruct (is_loopback h) eqn:E; split; try done; [by right; eauto|].
  intros [|(_ & _ & h' & [= <-] & ?)]; congruence.
Qed.

Lemma check_authentication_ok a :
  check_authentication parse_url a = Ok tt <-> safe_authentication a.
Proof.
  destruct a as [audience ids|issuer client_id redirect_uri scopes allow_insecure dev]; simpl.
  - checks. rewrite bool_decide_eq_false. setoid_rewrite elem_of_set_iter.
    setoid_rewrite negb_false_iff. setoid_rewrite client_name_true. by rewrite trims_empty_false.
  - unfold safe_issuer. checks. rewrite is_none_false, check_issuer_scheme_ok, !is_some_false,
      is_empty_true, and_then_ok. setoid_rewrite bail_if_ok. setoid_rewrite orb_false_iff.
    setoid_rewrite bool_decide_eq_false. setoid_rewrite any_false. setoid_rewrite trims_empty_false.
    setoid_rewrite is_loopback_true. destruct (parse_url redirect_uri); simpl; naive_solver.
Qed.

Lemma check_gateway_ok g : check_gateway parse_url g = Ok tt <-> safe_gateway g.
Proof.
  unfold check_gateway, check_github. checks. rewrite check_gateway_url_ok. split.
  - intros (Hu & Hp & Hg & Ha). split; [done| | |].
    + intros u E. rewrite E in Hp. by apply check_gateway_url_ok in Hp.
    + intros h E. rewrite E in Hg. apply unit_then_ok in Hg as [H1 H2].
      apply bail_if_ok, is_none_false in H2. split; [done|]. intros Hs. rewrite Hs in H1.
      apply bail_if_ok, trims_empty_false in H1. destruct (gh_client_id h) as [id|]; [by exists id|done].
    + intros a E. rewrite E in Ha. by apply check_authentication_ok.
  - intros [Hu Hp Hg Ha]. split; [done|]. split; [|split].
    + destruct (gw_proxy_url g); [|done]. apply check_gateway_url_ok. eauto.
    + destruct (gw_github_oauth g) as [h|]; [|done]. destruct (Hg h eq_refl) as [H1 H2].
      apply unit_then_ok. split; [|by apply bail_if_ok, is_none_false].
      destruct (gh_source h); [|done]. apply bail_if_ok, trims_empty_false.
      by destruct (H2 eq_refl) as (id & -> & ?).
    + destruct (gw_authentication g); [|done]. apply check_authentication_ok. eauto.
Qed.

Definition device_authorization (a : LlmGatewayAuthentication) : bool :=
  match a with Oidc _ _ _ _ _ d => d | _ => false end.

(** The gateway a subscription signs in through. *)
Definition signs_in (gw : option LlmGatewayConfig) : Prop :=
  exists g a, gw = Some g /\ gw_authentication g = Some a /\
    ((exists audience ids, a = ControllerJwt audience ids) \/
     exists issuer client_id redirect_uri scopes allow_insecure,
       a = Oidc issuer client_id redirect_uri scopes allow_insecure false).
Lemma device_authorization_false a : device_authorization a = false <->
  (exists audience ids, a = ControllerJwt audience ids) \/
  exists issuer client_id redirect_uri scopes allow_insecure,
    a = Oidc issuer client_id redirect_uri scopes allow_insecure false.
Proof. destruct a as [|? ? ? ? ? []]; naive_solver. Qed.

Lemma check_subscription_ok gw name subscription uses :
  check_subscription gw (name, subscription, uses) = Ok tt <->
  (subscription = true -> uses = true /\ signs_in gw).
Proof.
  unfold check_subscription, signs_in. setoid_rewrite <- device_authorization_false.
  checks. destruct subscription; simpl; [|by intuition].
  rewrite orb_false_iff, negb_false_iff, is_none_false. split.
  - intros ([Hu [g ->]] & Ha & Hd) _. split; [done|]. simpl in *.
    apply is_none_false in Ha as [a Ea]. rewrite Ea in Hd. exists g, a. split; [done|].
    split; [done|]. by destruct a as [|? ? ? ? ? []].
  - intros H. destruct (H eq_refl) as (Hu & g & a & -> & Ea & Hd). simpl. rewrite Ea.
    split; [eauto|]. split; [done|]. by destruct a as [|? ? ? ? ? []].
Qed.

Lemma selected_model_ok o missing (f : string -> bool) (g : string -> string) :
  (let? model := selected_model o missing in bail_if (f model) (g model)) = Ok tt <->
  exists m, o = Some m /\ nonblank m /\ f m = false.
Proof.
  setoid_rewrite <- trims_empty_false. rewrite and_then_ok. unfold selected_model, ok_or, option_filter. setoid_rewrite bail_if_ok.
  destruct o as [m|]; [|naive_solver]. destruct (trims_empty m) eqn:E; naive_solver congruence.
Qed.

(** No key of [extra] is one of the [managed] ones, in any spelling. *)
Definition clean_extra (managed : list string) (extra : gmap string value) : Prop :=
  forall key m, is_Some (extra !! key) -> m ∈ managed -> to_ascii_lowercase key <> to_ascii_lowercase m.
Lemma clean_extra_ok reserved extra : clean_extra (reserved ++ ["apiKey"]) extra <->
  forall key, is_Some (extra !! key) -> reserved_key reserved key = false /\ is_api_key key = false.
Proof.
  unfold clean_extra, reserved_key, is_api_key, eq_ignore_ascii_case. setoid_rewrite any_false.
  setoid_rewrite String.eqb_neq. setoid_rewrite elem_of_app. setoid_rewrite list_elem_of_singleton.
  split.
  - intros H key Hk. split; [|by apply H; auto]. intros r Hr E. by apply (H key r Hk); auto.
  - intros H key m Hk [Hm| ->] E; destruct (H key Hk) as [H1 H2]; [by eapply H1|done].
Qed.

Lemma copilot_validate_ok c :
  copilot_validate c = Ok tt <->
  forall id m, cp_models c !! id = Some m ->
    nonblank id /\ (forall x, cm_model_id m = Some x -> nonblank x) /\
    clean_extra ["id"; "apiKey"] (cm_extra m).
Proof.
  setoid_rewrite <- trims_empty_false. setoid_rewrite (clean_extra_ok copilot_reserved).
  unfold copilot_validate. rewrite check_all_ok. split.
  - intros H id m Hm%elem_of_btree_iter. apply H in Hm. unfold check_copilot_model in Hm.
    revert Hm. checks. intros (H1 & H2 & H3 & H4). split; [done|]. split.
    + intros x E. by rewrite E in H2.
    + intros key Hk%elem_of_btree_keys. auto.
  - intros H [id m] Hm%elem_of_btree_iter. apply H in Hm as (H1 & H2 & H3).
    unfold check_copilot_model. checks. split; [done|]. split.
    + destruct (cm_model_id m); [|done]. simpl. auto.
    + split; intros key Hk%elem_of_btree_keys; by apply H3.
Qed.

Lemma vscode_validate_ok c :
  vscode_validate c = Ok tt <->
  (vs_copilot_chat c = GithubModels -> vs_models c = ∅) /\
  forall id m, vs_models c !! id = Some m ->
    nonblank id /\ clean_extra ["id"; "url"; "requestHeaders"; "apiKey"] (vm_extra m).
Proof.
  setoid_rewrite <- trims_empty_false. setoid_rewrite (clean_extra_ok vscode_reserved).
  unfold vscode_validate. checks. rewrite andb_false_iff, bool_decide_eq_false, negb_false_iff,
    bool_decide_eq_true.
  assert (vs_copilot_chat c <> GithubModels \/ vs_models c = ∅ <->
          (vs_copilot_chat c = GithubModels -> vs_models c = ∅)) as ->
    by (destruct (vs_copilot_chat c); naive_solver).
  apply and_iff_compat_l. split.
  - intros H id m Hm%elem_of_btree_iter. apply H in Hm. unfold check_vscode_model in Hm.
    revert Hm. checks. intros (H1 & H2 & H3). split; [done|].
    intros key Hk%elem_of_btree_keys. auto.
  - intros H [id m] Hm%elem_of_btree_iter. apply H in Hm as (H1 & H2).
    unfold check_vscode_model. checks. split; [done|].
    split; intros key Hk%elem_of_btree_keys; by apply H2.
Qed.

Record accepted (gw : option LlmGatewayConfig) (sandbox : option SandboxConfig)
    (programs : ProgramsConfig) : Prop := {
  ac_sandbox : is_some sandbox = true ->
    claude_desktop programs = None /\ open_code programs = None /\ grok programs = None /\
    copilot programs = None /\ vscode programs = None /\ pi programs = None;
  ac_gateway g : gw = Some g -> safe_gateway g;
  ac_claude_code c : claude_code programs = Some c -> clc_auth c = Some Subscription ->
    clc_use_llm_gateway c = true /\ signs_in gw;
  ac_claude_desktop c : claude_desktop programs = Some c -> cld_auth c = Some Subscription ->
    cld_use_llm_gateway c = true /\ signs_in gw;
  ac_codex c : codex programs = Some c -> cx_auth c = Some Subscription ->
    cx_use_llm_gateway c = true /\ signs_in gw;
  ac_open_code c : open_code programs = Some c -> is_some gw = true -> oc_use_llm_gateway c = true ->
    exists m, oc_model c = Some m /\ nonblank m /\ is_Some (oc_models c !! m);
  ac_grok c : grok programs = Some c -> is_some gw = true -> gk_use_llm_gateway c = true ->
    exists m, gk_model c = Some m /\ nonblank m /\
              (gk_models c <> ∅ -> is_Some (gk_models c !! m));
  ac_copilot c : copilot programs = Some c ->
    (forall id m, cp_models c !! id = Some m ->
       nonblank id /\ (forall x, cm_model_id m = Some x -> nonblank x) /\
       clean_extra ["id"; "apiKey"] (cm_extra m)) /\
    (is_some gw = true -> cp_use_llm_gateway c = true -> cp_models c <> ∅);
  ac_vscode c : vscode programs = Some c ->
    (forall id m, vs_models c !! id = Some m ->
       nonblank id /\ clean_extra ["id"; "url"; "requestHeaders"; "apiKey"] (vm_extra m)) /\
    (vs_copilot_chat c = GithubModels -> vs_models c = ∅) /\
    match vs_copilot_chat c with
    | OwnModels => is_some gw = true -> vs_use_llm_gateway c = true -> vs_models c <> ∅
    | GithubModels => forall g, vs_use_llm_gateway c = true -> gw = Some g -> is_Some (gw_proxy_url g)
    end;
  ac_pi c : pi programs = Some c -> is_some gw = true -> pi_use_llm_gateway c = true ->
    (forall k, is_Some (pi_models c !! k) -> nonblank k) /\
    exists m, pi_model c = Some m /\ nonblank m /\
              (pi_models c <> ∅ -> is_Some (pi_models c !! m));
}.

Lemma check_sandbox_ok sandbox programs :
  check_sandbox sandbox programs = Ok tt <->
  (is_some sandbox = true ->
    claude_desktop programs = None /\ open_code programs = None /\ grok programs = None /\
    copilot programs = None /\ vscode programs = None /\ pi programs = None).
Proof.
  unfold check_sandbox. destruct (is_some sandbox); [|naive_solver]. checks.
  rewrite !is_some_false. naive_solver.
Qed.

Lemma declared_ok {A} (models : gmap string A) `{!Decision (models = ∅)} m :
  negb (bool_decide (models = ∅)) && is_none (models !! m) = false <->
  (models <> ∅ -> is_Some (models !! m)).
Proof.
  rewrite andb_false_iff, negb_false_iff, bool_decide_eq_true, is_none_false.
  destruct (decide (models = ∅)); naive_solver.
Qed.

Lemma check_open_code_ok gateway o :
  check_open_code gateway o = Ok tt <->
  forall c, o = Some c -> gateway = true -> oc_use_llm_gateway c = true ->
    exists m, oc_model c = Some m /\ nonblank m /\ is_Some (oc_models c !! m).
Proof.
  unfold check_open_code. destruct o as [c|]; [|naive_solver].
  destruct gateway, (oc_use_llm_gateway c) eqn:E; simpl; try naive_solver congruence.
  rewrite selected_model_ok. setoid_rewrite is_none_false.
  split; [by intros H c' [= <-]|]. intros H. by apply H.
Qed.

Lemma check_grok_ok gateway o :
  check_grok gateway o = Ok tt <->
  forall c, o = Some c -> gateway = true -> gk_use_llm_gateway c = true ->
    exists m, gk_model c = Some m /\ nonblank m /\
              (gk_models c <> ∅ -> is_Some (gk_models c !! m)).
Proof.
  unfold check_grok. destruct o as [c|]; [|naive_solver].
  destruct gateway, (gk_use_llm_gateway c) eqn:E; simpl; try naive_solver congruence.
  rewrite selected_model_ok. setoid_rewrite declared_ok.
  split; [by intros H c' [= <-]|]. intros H. by apply H.
Qed.

Lemma check_pi_ok gateway o :
  check_pi gateway o = Ok tt <->
  forall c, o = Some c -> gateway = true -> pi_use_llm_gateway c = true ->
    (forall k, is_Some (pi_models c !! k) -> nonblank k) /\
    exists m, pi_model c = Some m /\ nonblank m /\
              (pi_models c <> ∅ -> is_Some (pi_models c !! m)).
Proof.
  unfold check_pi. destruct o as [c|]; [|naive_solver].
  destruct gateway, (pi_use_llm_gateway c) eqn:E; simpl; try naive_solver congruence.
  rewrite and_then_ok. setoid_rewrite unit_then_ok. setoid_rewrite bail_if_ok.
  setoid_rewrite any_false. setoid_rewrite elem_of_btree_keys. setoid_rewrite declared_ok.
  setoid_rewrite <- trims_empty_false.
  unfold selected_model, ok_or, option_filter. split.
  - intros (m & Hm & H1 & H2) c' [= <-] _ _. split; [done|].
    destruct (pi_model c) as [x|]; [|done]. destruct (trims_empty x) eqn:Ex; simplify_eq/=. eauto.
  - intros H. destruct (H c eq_refl eq_refl E) as (H1 & m & Hm & Ht & H2). exists m.
    rewrite Hm, Ht. done.
Qed.

Lemma check_copilot_ok gateway o :
  check_copilot gateway o = Ok tt <->
  forall c, o = Some c -> copilot_validate c = Ok tt /\
    (gateway = true -> cp_use_llm_gateway c = true -> cp_models c <> ∅).
Proof.
  unfold check_copilot. destruct o as [c|]; [|naive_solver]. checks.
  rewrite !andb_false_iff, bool_decide_eq_false. split.
  - intros [H1 H2] c' [= <-]. split; [done|]. intros Hg Hu. rewrite Hg, Hu in H2.
    by destruct H2 as [[|]|].
  - intros H. destruct (H c eq_refl) as [H1 H2]. split; [done|].
    destruct gateway, (cp_use_llm_gateway c); auto.
Qed.

Lemma check_vscode_ok gw o :
  check_vscode gw o = Ok tt <->
  forall c, o = Some c -> vscode_validate c = Ok tt /\
    match vs_copilot_chat c with
    | OwnModels => is_some gw = true -> vs_use_llm_gateway c = true -> vs_models c <> ∅
    | GithubModels => forall g, vs_use_llm_gateway c = true -> gw = Some g -> is_Some (gw_proxy_url g)
    end.
Proof.
  unfold check_vscode. destruct o as [c|]; [|naive_solver]. rewrite unit_then_ok.
  assert (match vs_copilot_chat c with
    | OwnModels =>
        bail_if (is_some gw && vs_use_llm_gateway c && bool_decide (vs_models c = ∅))
          "VS Code requires at least one entry in models when llmGateway is configured"
    | GithubModels =>
        bail_if (vs_use_llm_gateway c && is_some_and (fun g => is_none (gw_proxy_url g)) gw)
          "VS Code copilotChat githubModels requires llmGateway.proxyUrl when the gateway is used"
    end = Ok tt <->
    match vs_copilot_chat c with
    | OwnModels => is_some gw = true -> vs_use_llm_gateway c = true -> vs_models c <> ∅
    | GithubModels => forall g, vs_use_llm_gateway c = true -> gw = Some g -> is_Some (gw_proxy_url g)
    end) as ->.
  { destruct (vs_copilot_chat c); rewrite bail_if_ok.
    - rewrite !andb_false_iff, bool_decide_eq_false.
      destruct (is_some gw), (vs_use_llm_gateway c); naive_solver.
    - destruct (vs_use_llm_gateway c), gw as [g|]; simpl; rewrite ?is_none_false; naive_solver. }
  split; [by intros H c' [= <-]|]. intros H. by apply H.
Qed.

Lemma validate_daemon_ok gw sandbox programs :
  validate_daemon parse_url gw sandbox programs = Ok tt <-> accepted gw sandbox programs.
Proof.
  unfold validate_daemon. checks.
  rewrite check_sandbox_ok, check_open_code_ok, check_grok_ok, check_copilot_ok, check_vscode_ok,
    check_pi_ok. setoid_rewrite copilot_validate_ok. setoid_rewrite vscode_validate_ok.
  assert (match gw with Some g => check_gateway parse_url g | None => Ok tt end = Ok tt <->
          forall g, gw = Some g -> safe_gateway g) as ->.
  { destruct gw as [g|]; [|naive_solver]. rewrite check_gateway_ok. naive_solver. }
  assert ((forall row, row ∈ subscription_rows programs -> check_subscription gw row = Ok tt) <->
    (forall c, claude_code programs = Some c -> clc_auth c = Some Subscription -> clc_use_llm_gateway c = true /\ signs_in gw) /\
    (forall c, claude_desktop programs = Some c -> cld_auth c = Some Subscription -> cld_use_llm_gateway c = true /\ signs_in gw) /\
    (forall c, codex programs = Some c -> cx_auth c = Some Subscription -> cx_use_llm_gateway c = true /\ signs_in gw)) as ->.
  { unfold subscription_rows. setoid_rewrite elem_of_cons. setoid_rewrite elem_of_cons. setoid_rewrite list_elem_of_singleton.
    assert (forall A (o : option A) (auth : A -> option ProgramAuthentication) (uses : A -> bool) name,
      check_subscription gw (name, is_some_and (fun p => is_subscription (auth p)) o, is_some_and uses o) = Ok tt <->
      forall c, o = Some c -> auth c = Some Subscription -> uses c = true /\ signs_in gw) as H.
    { intros A o auth uses name. rewrite check_subscription_ok. unfold is_subscription.
      destruct o as [c|]; simpl; [rewrite bool_decide_eq_true|]; naive_solver. }
    split.
    - intros Hr. split_and!; eapply H; apply Hr; auto.
    - intros (H1 & H2 & H3) row [->|[->| ->]]; by apply H. }
  split.
  - intros (H1 & H2 & H3 & H4 & H5 & H6 & H7 & H8). split; try done; try naive_solver.
  - intros [H1 H2 H3 H3' H3'' H4 H5 H6 H7 H8]. split_and!; try done; try naive_solver.
Qed.

(** C18. The validation of a daemon configuration is exactly the specification
    [accepted], which names none of the code's checks: gateway and proxy URLs are HTTP(S)
    bases with a host and no credentials, query or fragment; a sign-in issuer uses HTTPS
    or, where that is allowed, HTTP on this device; client IDs are at most 64 letters,
    digits, [-], [_] and [.]; a program that signs in by subscription uses a gateway that
    signs in itself, not by the device flow; every selected model is declared; no
    pass-through key of a Copilot or VS Code model is, in any spelling, one of the keys
    the daemon writes or [apiKey]; and a sandbox is not combined with a program it cannot
    confine. *)
Theorem validate_daemon_iff gw sandbox programs :
  validate_daemon parse_url gw sandbox programs = Ok tt <-> accepted gw sandbox programs.
Proof. apply validate_daemon_ok. Qed.
End accepted.

(** ** Model documents *)

Lemma fold_insert_lookup (l : list (string * value)) (object : gmap string value) k :
  NoDup (map fst l) ->
  fold_left (fun object kv => <[fst kv := snd kv]> object) l object !! k =
  match (list_to_map l : gmap string value) !! k with Some v => Some v | None => object !! k end.
Proof.
  revert object. induction l as [|[k' v] l IH]; intros object Hnd; simpl; [by rewrite lookup_empty|].
  apply NoDup_cons in Hnd as [Hk' Hnd]. rewrite IH by done.
  destruct (decide (k = k')) as [->|Hne].
  - rewrite not_elem_of_list_to_map_1 by done. by rewrite !lookup_insert_eq.
  - rewrite !lookup_insert_ne by done. done.
Qed.

Lemma lookup_insert_extra object extra k :
  insert_extra object extra !! k =
  match extra !! k with Some v => Some v | None => object !! k end.
Proof.
  unfold insert_extra. assert (btree_iter extra ≡ₚ map_to_list extra) as Hp
    by apply merge_sort_Permutation.
  assert (NoDup (map fst (btree_iter extra))) as Hnd.
  { change (NoDup (fst <$> btree_iter extra)). rewrite Hp. apply NoDup_fst_map_to_list. }
  rewrite fold_insert_lookup by done. rewrite (list_to_map_proper _ _ Hnd Hp).
  by rewrite list_to_map_to_list.
Qed.

Lemma clean_extra_reserved reserved extra key :
  clean_extra reserved extra -> key ∈ reserved -> extra !! key = None.
Proof.
  intros Hc Hk. destruct (extra !! key) eqn:E; [|done]. by destruct (Hc key key); [eexists| |].
Qed.
Lemma clean_extra_api_key reserved extra key : clean_extra reserved extra -> "apiKey" ∈ reserved ->
  is_Some (extra !! key) -> is_api_key key = false.
Proof. intros Hc Hr Hk. apply String.eqb_neq. by apply Hc. Qed.

(** No key of an object is [apiKey] in any spelling. *)
Definition no_api_key (v : value) : Prop :=
  forall key, is_Some (get key v) -> is_api_key key = false.

(** Once validated, every configured Copilot model becomes one entry of
    [providers.json] under its own ID, with the provider the configuration names
    unless a pass-through key says otherwise, and no entry carries an API key: a
    pass-through key can neither take over another entry's ID nor plant a
    credential. *)
Theorem copilot_entries_sound c :
  copilot_validate c = Ok tt ->
  length (copilot_documents c) = size (cp_models c) /\
  (forall id m, cp_models c !! id = Some m -> copilot_document (id, m) ∈ copilot_documents c) /\
  (forall doc, doc ∈ copilot_documents c ->
     no_api_key doc /\
     exists id m, cp_models c !! id = Some m /\ get "id" doc = Some (VString id) /\
       (cm_extra m !! "provider" = None ->
        get "provider" doc = Some (VString (provider_name (cm_provider m)))) /\
       (cm_extra m !! "modelId" = None ->
        get "modelId" doc = Some (VString (default id (cm_model_id m))))).
Proof.
  intros Hv. rewrite copilot_validate_ok in Hv. unfold copilot_documents. split; [|split].
  - rewrite length_map. unfold btree_iter. rewrite merge_sort_Permutation. apply length_map_to_list.
  - intros id m Hm%elem_of_btree_iter. by apply list_elem_of_fmap_2.
  - intros doc ([id m] & -> & Hm%elem_of_btree_iter)%list_elem_of_fmap.
    destruct (Hv id m Hm) as (_ & _ & Hc). split.
    + intros key Hk. simpl in Hk. rewrite lookup_insert_extra in Hk.
      destruct (cm_extra m !! key) eqn:E; [by eapply clean_extra_api_key; [exact Hc|set_solver|eexists]|].
      rewrite !lookup_insert_is_Some' in Hk. rewrite lookup_empty in Hk.
      destruct Hk as [<-|[<-|[<-|[? ?]]]]; done.
    + exists id, m. split; [done|]. simpl. rewrite !lookup_insert_extra.
      rewrite (clean_extra_reserved _ _ "id" Hc) by set_solver.
      split; [done|]. split; intros ->; done.
Qed.

(** A validated VS Code model entry leaves the proxy's URL and the pairing
    headers to the daemon: its documents carry the model's own ID and display
    name, and no [url], [requestHeaders] or API key the configuration slipped in. *)
Theorem vscode_entries_sound c :
  vscode_validate c = Ok tt ->
  forall doc, doc ∈ vscode_documents c ->
    no_api_key doc /\ get "url" doc = None /\ get "requestHeaders" doc = None /\
    exists id m, vs_models c !! id = Some m /\ get "id" doc = Some (VString id) /\
      (vm_extra m !! "name" = None ->
       get "name" doc = Some (VString (default (id +:+ " (agentdesktop)") (vm_name m)))).
Proof.
  intros [_ Hv]%vscode_validate_ok doc ([id m] & -> & Hm%elem_of_btree_iter)%list_elem_of_fmap.
  destruct (Hv id m Hm) as (_ & Hc). split; [|split; [|split]].
  - intros key Hk. simpl in Hk. rewrite lookup_insert_extra in Hk.
    destruct (vm_extra m !! key) eqn:E; [by eapply clean_extra_api_key; [exact Hc|set_solver|eexists]|]. unfold insert_limit in Hk.
    destruct (vm_max_input_tokens m), (vm_max_output_tokens m);
      rewrite !lookup_insert_is_Some', lookup_empty in Hk;
      repeat (destruct Hk as [<-|Hk]; [done|]); by destruct Hk.
  - simpl. rewrite lookup_insert_extra, (clean_extra_reserved _ _ "url" Hc) by set_solver.
    by destruct (vm_max_input_tokens m), (vm_max_output_tokens m).
  - simpl. rewrite lookup_insert_extra, (clean_extra_reserved _ _ "requestHeaders" Hc) by set_solver.
    by destruct (vm_max_input_tokens m), (vm_max_output_tokens m).
  - exists id, m. split; [done|]. simpl. rewrite !lookup_insert_extra.
    rewrite (clean_extra_reserved _ _ "id" Hc) by set_solver. split.
    + by destruct (vm_max_input_tokens m), (vm_max_output_tokens m).
    + intros ->. by destruct (vm_max_input_tokens m), (vm_max_output_tokens m).
Qed.

(** ** Delivered configurations *)

(** A configuration the controller delivers passes every check and carries no
    local startup settings, reaches its controller over HTTPS only, and a usage
    listener or re-apply interval can come from the local file alone. *)
Theorem delivered_configuration_checked parse_url from_str contents c :
  parse_daemon parse_url from_str contents = Ok c ->
  from_str contents = Ok c /\ dm_daemon c = None /\ dm_inventory_interval c <> 0 /\
  (forall cc, dm_controller c = Some cc -> exists rest, cc_address cc = "https://" +:+ rest) /\
  accepted parse_url (dm_llm_gateway c) (dm_sandbox c) (dm_programs c).
Proof.
  unfold parse_daemon, parse_local_daemon.
  destruct (from_str contents) as [config|] eqn:Ef; [simpl|done].
  destruct (bail_if (is_some_and _ (dm_controller config)) _) as [[]|] eqn:E1; [|done].
  destruct (bail_if (_ =? 0) _) as [[]|] eqn:E2; [|done].
  destruct (bail_if (is_some_and _ (dm_daemon config ≫= _)) _) as [[]|] eqn:E3; [|done].
  destruct (match dm_daemon config ≫= ds_usage with Some _ => _ | None => _ end) as [[]|] eqn:E4; [|done].
  destruct (validate_daemon _ _ _ _) as [[]|] eqn:E5; [|done].
  destruct (bail_if (is_some (dm_daemon config)) _) as [[]|] eqn:E6; [|done].
  intros [= <-]. apply bail_if_ok in E1, E2, E6. apply is_some_false in E6.
  split; [done|]. split; [done|]. split; [lia|]. split.
  - intros cc Hcc. rewrite Hcc in E1. simpl in E1. apply negb_false_iff in E1.
    by apply starts_with_spec.
  - apply validate_daemon_ok, E5.
Qed.

(** ** Concrete runs *)

Definition demo_copilot : CopilotConfig :=
  {| cp_use_llm_gateway := true;
     cp_models := {[ "gpt" := {| cm_provider := Agentdesktop; cm_model_id := None;
                                 cm_extra := {[ "wireModel" := VString "gpt-5" ]} |} ]} |}.
Definition demo_vscode : VsCodeConfig :=
  {| vs_use_llm_gateway := true; vs_copilot_chat := OwnModels;
     vs_models := {[ "gpt" := default_vscode_model ]} |}.
Definition demo_url : Url :=
  {| url_scheme := "https"; url_username := ""; url_password := None; url_host := Some "gw.example";
     url_port := None; url_path := "/llm"; url_query := None; url_fragment := None |}.
Definition demo_gateway : LlmGatewayConfig :=
  {| gw_url := demo_url;
     gw_authentication := Some (ControllerJwt "gateway" {[ "vscode"; "claude-code" ]});
     gw_proxy_url := None; gw_github_oauth := None; gw_when_proxy_unavailable := FailClosed |}.
Definition demo_programs : ProgramsConfig :=
  {| claude_code := Some {| clc_use_llm_gateway := true; clc_auth := Some Subscription;
                            clc_settings := ∅ |};
     claude_desktop := None; codex := None; open_code := None; grok := None;
     copilot := Some demo_copilot; vscode := Some demo_vscode; pi := None |}.
Definition demo_daemon : DaemonConfig :=
  {| dm_daemon := None;
     dm_controller := Some {| cc_address := "https://fleet.example"; cc_ca_certificate_path := None;
                              cc_heartbeat_interval := default_heartbeat_interval;
                              cc_device_authorization := false |};
     dm_llm_gateway := Some demo_gateway; dm_sandbox := None; dm_telemetry := {| tl_events := [] |};
     dm_programs := demo_programs; dm_program_selection := {| allow_user_choice := true |};
     dm_inventory_interval := default_inventory_interval |}.
Definition demo_parse_url : string -> result Url string := fun _ => Ok demo_url.
Definition demo_from_str : string -> result DaemonConfig string := fun _ => Ok demo_daemon.

(** A plaintext issuer that is not a loopback is refused. *)
Example insecure_issuer_refused :
  check_authentication demo_parse_url
    (Oidc {| url_scheme := "http"; url_username := ""; url_password := None;
             url_host := Some "idp.example"; url_port := None; url_path := "/"; url_query := None;
             url_fragment := None |} "client" default_oidc_redirect_uri default_gateway_oidc_scopes
       true false)
  = Err "LLM gateway OIDC allowInsecure only permits loopback issuers".
Proof. vm_compute. reflexivity. Qed.

Lemma copilot_entries_sound_witness :
  length (copilot_documents demo_copilot) = size (cp_models demo_copilot) /\
  (forall id m, cp_models demo_copilot !! id = Some m ->
     copilot_document (id, m) ∈ copilot_documents demo_copilot) /\
  (forall doc, doc ∈ copilot_documents demo_copilot ->
     no_api_key doc /\
     exists id m, cp_models demo_copilot !! id = Some m /\ get "id" doc = Some (VString id) /\
       (cm_extra m !! "provider" = None ->
        get "provider" doc = Some (VString (provider_name (cm_provider m)))) /\
       (cm_extra m !! "modelId" = None ->
        get "modelId" doc = Some (VString (default id (cm_model_id m))))).
Proof.
  assert (copilot_validate demo_copilot = Ok tt) as H by (vm_compute; reflexivity).
  exact (copilot_entries_sound demo_copilot H).
Defined.

Lemma vscode_entries_sound_witness :
  vscode_validate demo_vscode = Ok tt /\
  (forall doc, doc ∈ vscode_documents demo_vscode ->
    no_api_key doc /\ get "url" doc = None /\ get "requestHeaders" doc = None /\
    exists id m, vs_models demo_vscode !! id = Some m /\ get "id" doc = Some (VString id) /\
      (vm_extra m !! "name" = None ->
       get "name" doc = Some (VString (default (id +:+ " (agentdesktop)") (vm_name m))))).
Proof.
  assert (vscode_validate demo_vscode = Ok tt) as H by (vm_compute; reflexivity).
  split; [exact H|]. exact (vscode_entries_sound demo_vscode H).
Defined.

Lemma delivered_configuration_checked_witness :
  demo_from_str "" = Ok demo_daemon /\ dm_daemon demo_daemon = None /\
  dm_inventory_interval demo_daemon <> 0 /\
  (forall cc, dm_controller demo_daemon = Some cc -> exists rest, cc_address cc = "https://" +:+ rest) /\
  accepted demo_parse_url (dm_llm_gateway demo_daemon) (dm_sandbox demo_daemon)
    (dm_programs demo_daemon).
Proof.
  assert (parse_daemon demo_parse_url demo_from_str "" = Ok demo_daemon) as H
    by (vm_compute; reflexivity).
  exact (delivered_configuration_checked demo_parse_url demo_from_str "" demo_daemon H).
Defined.
