(* ===== verification/Reconcile.v ===== *)
(** * Reconciliation ([crates/agent/src/reconcile/mod.rs])

    Every provider plans its files for a configuration; the plans are combined
    with each program's part identified, applied all or nothing, and reported per
    program. A provider is a record of operations ([provider/mod.rs]'s trait), so
    the theorems hold for any set of providers; [writer] at the end of the file
    is an instance. Taking the apply lock is the sequencing of
    [apply_read_under_lock]. *)

From S2P Require Import Prelude Str Json Fs Plan Config.

(** ** Providers ([provider/mod.rs]) *)

Inductive DaemonScope : Type := User | System.
#[global] Instance DaemonScope_eq_dec : EqDecision DaemonScope.
Proof. solve_decision. Defined.

(** The bound loopback proxy ([llm_proxy.rs]). *)
Record LlmProxyContext : Type := {
  lpc_address : SocketAddr;
  lpc_pairing : string;
}.

Record ReconcileContext : Type := {
  merge_user_settings : bool;
  user_mode : bool;
  credential_helper : path;
  socket : path;
  llm_proxy : option LlmProxyContext;
}.

Definition skip_unless (ctx : ReconcileContext) (required_scope : DaemonScope) (configured : bool)
    (display_name : string) : option ReconcilePlan :=
  if Bool.eqb (merge_user_settings ctx) (bool_decide (required_scope = User)) then None
  else Some (if configured then
               let '(required, current) :=
                 match required_scope with
                 | User => ("user mode (--user)", "system mode")
                 | System => ("system mode", "user mode")
                 end in
               skipped (display_name +:+ " requires " +:+ required +:+ "; skipped in " +:+ current)
             else default_plan).

(** The trait: an ID, and a plan made by reading the file system. *)
Record Provider : Type := {
  provider_id : string;
  provider_plan : ReconcileContext -> DaemonConfig -> fs -> result ReconcilePlan string;
}.
(** The trait's default [plan]: a discovery-only provider. *)
Definition discovery_only (id : string) : Provider :=
  {| provider_id := id; provider_plan := fun _ _ _ => Ok default_plan |}.

(** What reconciliation relies on: a plan records what it really read. *)
Class ProviderLaws (p : Provider) : Prop := {
  plan_faithful ctx config s pl : provider_plan p ctx config s = Ok pl -> faithful s pl;
}.
#[global] Instance discovery_only_laws id : ProviderLaws (discovery_only id).
Proof. split. intros ctx config s pl [= <-] p o Hp. done. Qed.

(** ** Program choice ([core/src/model.rs] and [apply_program_choice]) *)

Inductive ProgramChoice : Type :=
| AllPrograms
| NoProgram
| Selected (programs : gset string).
#[global] Instance ProgramChoice_eq_dec : EqDecision ProgramChoice.
Proof. solve_decision. Defined.

Definition includes (c : ProgramChoice) (program : string) : bool :=
  match c with
  | AllPrograms => true
  | NoProgram => false
  | Selected programs => bool_decide (program ∈ programs)
  end.

Definition MANAGED_PROGRAMS : list string :=
  ["claude-code"; "claude-desktop"; "codex"; "opencode"; "grok"; "copilot"; "vscode"; "pi"].

Definition leave_out {T} (program : option T) (id : string) (choice : ProgramChoice)
    (opted_out : list string) : option T * list string :=
  if is_some program && negb (includes choice id) then (None, (opted_out ++ [id])%list)
  else (program, opted_out).

Definition with_programs (p : ProgramsConfig) (c : DaemonConfig) : DaemonConfig :=
  {| dm_daemon := dm_daemon c; dm_controller := dm_controller c; dm_llm_gateway := dm_llm_gateway c;
     dm_sandbox := dm_sandbox c; dm_telemetry := dm_telemetry c; dm_programs := p;
     dm_program_selection := dm_program_selection c;
     dm_inventory_interval := dm_inventory_interval c |}.

Definition apply_program_choice (config : DaemonConfig) (choice : ProgramChoice)
  : DaemonConfig * list string :=
  if negb (allow_user_choice (dm_program_selection config)) || bool_decide (choice = AllPrograms)
  then (config, [])
  else
    let p := dm_programs config in
    let '(cc, out) := leave_out (claude_code p) "claude-code" choice [] in
    let '(cd, out) := leave_out (claude_desktop p) "claude-desktop" choice out in
    let '(cx, out) := leave_out (codex p) "codex" choice out in
    let '(oc, out) := leave_out (open_code p) "opencode" choice out in
    let '(gk, out) := leave_out (grok p) "grok" choice out in
    let '(cp, out) := leave_out (copilot p) "copilot" choice out in
    let '(vs, out) := leave_out (vscode p) "vscode" choice out in
    let '(pi', out) := leave_out (pi p) "pi" choice out in
    (with_programs {| claude_code := cc; claude_desktop := cd; codex := cx; open_code := oc;
                      grok := gk; copilot := cp; vscode := vs; pi := pi' |} config, out).

Definition programs_use_llm_gateway (p : ProgramsConfig) : bool :=
  any (fun uses => bool_decide (uses = Some true))
    [clc_use_llm_gateway <$> claude_code p; cld_use_llm_gateway <$> claude_desktop p;
     cx_use_llm_gateway <$> codex p; oc_use_llm_gateway <$> open_code p;
     gk_use_llm_gateway <$> grok p; cp_use_llm_gateway <$> copilot p;
     vs_use_llm_gateway <$> vscode p; pi_use_llm_gateway <$> pi p].

Definition program_rows (p : ProgramsConfig) : list (bool * string) :=
  [(is_some (claude_code p), "claude-code"); (is_some (claude_desktop p), "claude-desktop");
   (is_some (codex p), "codex"); (is_some (open_code p), "opencode"); (is_some (grok p), "grok");
   (is_some (copilot p), "copilot"); (is_some (vscode p), "vscode"); (is_some (pi p), "pi")].
Definition row_id (row : bool * string) : option string :=
  if fst row then Some (snd row) else None.
Definition configured_programs (p : ProgramsConfig) : list string :=
  filter_map row_id (program_rows p).

(** ** Outcomes *)

Inductive ProgramState : Type :=
| Applied | Unchanged | Removed | Conflicted | Inactive | Blocked | OptedOut | Failed.
#[global] Instance ProgramState_eq_dec : EqDecision ProgramState.
Proof. solve_decision. Defined.

Definition as_str (s : ProgramState) : string :=
  match s with
  | Applied => "applied" | Unchanged => "unchanged" | Removed => "removed"
  | Conflicted => "conflict" | Inactive => "inactive" | Blocked => "blocked"
  | OptedOut => "opted_out" | Failed => "failed"
  end.

Record ProgramOutcome : Type := {
  po_program : string;
  po_state : ProgramState;
  po_detail : string;
}.
Record ApplyReport : Type := {
  ar_programs : list ProgramOutcome;
  ar_sequence : Z;
}.

(** [ApplyReport::log]: the lines and whether each is a warning. *)
Definition log_lines (r : ApplyReport) : list (bool * ProgramOutcome) :=
  filter_map (fun o =>
    let warning := match po_state o with
                   | Failed | Conflicted | Blocked | Inactive => true
                   | _ => false
                   end in
    match po_state o with
    | Applied | Unchanged => None
    | _ => Some (warning, o)
    end) (ar_programs r).

Definition outcome_keys (programs : list ProgramOutcome) : list (string * ProgramState * string) :=
  map (fun o => (po_program o, po_state o, po_detail o)) programs.

Definition key_program (k : string * ProgramState * string) : string := fst (fst k).
Definition key_state (k : string * ProgramState * string) : ProgramState := snd (fst k).
Definition key_detail (k : string * ProgramState * string) : string := snd k.

Definition settles (before now : ProgramState) : bool :=
  bool_decide (now = Unchanged) && match before with Applied | Removed => true | _ => false end.

Definition outcomes_differ (previous current : list (string * ProgramState * string)) : bool :=
  let changed :=
    any (fun now =>
      match find (fun before => String.eqb (key_program before) (key_program now)) previous with
      | None => true
      | Some before =>
          negb (settles (key_state before) (key_state now))
          && (negb (bool_decide (key_state now = key_state before))
              || negb (String.eqb (key_detail now) (key_detail before)))
      end) current in
  let gone :=
    any (fun before =>
      negb (bool_decide (key_state before = Removed))
      && negb (any (fun now => String.eqb (key_program now) (key_program before)) current)) previous in
  changed || gone.

Definition should_log (previous : option ApplyReport) (current : ApplyReport) : bool :=
  match previous with
  | None => true
  | Some previous =>
      outcomes_differ (outcome_keys (ar_programs previous)) (outcome_keys (ar_programs current))
  end.

Definition DETAIL_LIMIT : nat := 1024.
(** [while !detail.is_char_boundary(end) { end -= 1; }]: position 0 is one. *)
Fixpoint char_boundary_below (s : string) (n : nat) : nat :=
  match n with
  | O => O
  | S n' => if is_char_boundary s n then n else char_boundary_below s n'
  end.
Definition truncate_detail (detail : string) : string :=
  if Nat.ltb DETAIL_LIMIT (String.length detail)
  then String.substring 0 (char_boundary_below detail DETAIL_LIMIT) detail
  else detail.

Record ProgramEntry : Type := {
  pe_program : string;
  pe_configured : bool;
  pe_opted_out : bool;
  pe_failed : option string;
  pe_changes : bool;
  pe_conflicts : list string;
  pe_inactive : option string;
  pe_paths : list path;
  pe_operations : nat * nat;
  pe_registry_operations : nat * nat;
}.

(** [ProgramEntry::settled]. *)
Definition settled (e : ProgramEntry) (written : bool) (blocked_by : string)
  : option (ProgramState * string) :=
  if pe_changes e && negb written then Some (Blocked, "not applied: " +:+ blocked_by)
  else match pe_inactive e with
  | Some reason => Some (Inactive, reason)
  | None =>
      if pe_opted_out e then Some (OptedOut, "")
      else match pe_changes e, pe_configured e with
           | true, true => Some (Applied, "")
           | true, false => Some (Removed, "")
           | false, true => Some (Unchanged, "")
           | false, false => None
           end
  end.

Inductive Stop : Type :=
| Completed
| BeforeWrites
| StopFailed (owners : list string) (detail : string) (written_files written_registry : nat).

Definition in_nat_range (r : nat * nat) (i : nat) : bool := Nat.leb (fst r) i && Nat.ltb i (snd r).

Definition owners_of (entries : list ProgramEntry) (at_ : ApplyStop) : list string :=
  map pe_program
    (retain (fun e =>
       match at_ with
       | Conflict => false
       | Observed p => bool_decide (p ∈ pe_paths e)
       | PrivateDir dir => any (fun p => path_starts_with p dir) (pe_paths e)
       | Operation i => in_nat_range (pe_operations e) i
       end) entries).

Definition outcome (program : string) (state : ProgramState) (detail : string) : ProgramOutcome :=
  {| po_program := program; po_state := state; po_detail := truncate_detail detail |}.

Record AttributedPlan : Type := {
  ap_plan : ReconcilePlan;
  ap_entries : list ProgramEntry;
  ap_first_error : option string;
}.

Definition failed_during (stop : Stop) (program : string) : bool :=
  match stop with
  | StopFailed owners _ _ _ => bool_decide (program ∈ owners)
  | _ => false
  end.

Definition has_conflict (e : ProgramEntry) : bool := negb (bool_decide (pe_conflicts e = [])).

(** The first program, in registration order, that stopped the apply. *)
Definition blocked_by (stop : Stop) (entries : list ProgramEntry) : string :=
  default "" (find_map (fun e =>
    if is_some (pe_failed e) || failed_during stop (pe_program e)
    then Some (pe_program e +:+ " failed")
    else if has_conflict e then Some (pe_program e +:+ " conflicted")
    else None) entries).

Definition written (stop : Stop) (e : ProgramEntry) : bool :=
  match stop with
  | Completed => true
  | BeforeWrites => false
  | StopFailed _ _ files registry =>
      Nat.leb (snd (pe_operations e)) files && Nat.leb (snd (pe_registry_operations e)) registry
  end.

Definition entry_outcome (stop : Stop) (blocked : string) (e : ProgramEntry)
  : option ProgramOutcome :=
  let during := match stop with
                | StopFailed _ detail _ _ =>
                    if failed_during stop (pe_program e) then Some detail else None
                | _ => None
                end in
  let chosen :=
    match pe_failed e, during with
    | Some detail, _ => Some (Failed, detail)
    | None, Some detail => Some (Failed, detail)
    | None, None =>
        if has_conflict e then Some (Conflicted, join "; " (pe_conflicts e))
        else settled e (written stop e) blocked
    end in
  (fun '(state, detail) => outcome (pe_program e) state detail) <$> chosen.

(** [AttributedPlan::apply]. *)
Definition run_plan (rng : nat -> nat -> Z) (ap : AttributedPlan) (s : fs)
  : result unit string * Stop * fs :=
  match ap_first_error ap with
  | Some error => (Err error, BeforeWrites, s)
  | None =>
      if any has_conflict (ap_entries ap)
      then let '(r, s') := apply rng (ap_plan ap) s in (r, BeforeWrites, s')
      else match apply_tracked rng (ap_plan ap) s with
           | (Ok tt, s') => (Ok tt, Completed, s')
           | (Err (error, at_), s') =>
               let files := match at_ with Operation i => i | _ => 0%nat end in
               (Err error, StopFailed (owners_of (ap_entries ap) at_) error files 0, s')
           end
  end.
Definition attributed_apply (rng : nat -> nat -> Z) (ap : AttributedPlan) (s : fs)
  : ApplyReport * result unit string * fs :=
  let '(r, stop, s') := run_plan rng ap s in
  let blocked := blocked_by stop (ap_entries ap) in
  ({| ar_programs := filter_map (entry_outcome stop blocked) (ap_entries ap); ar_sequence := 0 |},
   r, s').

(** ** The reconciler *)

Record Reconciler : Type := {
  rc_context : ReconcileContext;
  rc_providers : list Provider;
  rc_last_apply : option ApplyReport;
  rc_choice : ProgramChoice;
}.

Definition set_program_choice (choice : ProgramChoice) (r : Reconciler) : Reconciler :=
  {| rc_context := rc_context r; rc_providers := rc_providers r;
     rc_last_apply := rc_last_apply r; rc_choice := choice |}.
Definition with_llm_proxy (proxy : option LlmProxyContext) (r : Reconciler) : Reconciler :=
  let c := rc_context r in
  {| rc_context := {| merge_user_settings := merge_user_settings c; user_mode := user_mode c;
                      credential_helper := credential_helper c; socket := socket c;
                      llm_proxy := proxy |};
     rc_providers := rc_providers r; rc_last_apply := rc_last_apply r; rc_choice := rc_choice r |}.
(** [Reconciler::last_report]. *)
Definition last_report (r : Reconciler) : option ApplyReport := rc_last_apply r.

Definition gateway_sign_in_wanted (r : Reconciler) (config : DaemonConfig) : bool :=
  if is_some (llm_proxy (rc_context r)) || negb (programs_use_llm_gateway (dm_programs config))
  then true
  else programs_use_llm_gateway (dm_programs (fst (apply_program_choice config (rc_choice r)))).

(** [Reconciler::plan]: the first failure stops it. *)
Fixpoint plan_providers (ctx : ReconcileContext) (config : DaemonConfig) (s : fs)
    (providers : list Provider) : planning unit :=
  match providers with
  | [] => st_ret tt
  | p :: providers =>
      match provider_plan p ctx config s with
      | Err e => st_err e
      | Ok own => append own
      end ;* plan_providers ctx config s providers
  end.
Definition reconcile_plan (r : Reconciler) (config : DaemonConfig) (s : fs)
  : result ReconcilePlan string :=
  let '(config, _) := apply_program_choice config (rc_choice r) in
  match plan_providers (rc_context r) config s (rc_providers r) default_plan with
  | (Ok tt, pl) => Ok pl
  | (Err e, _) => Err e
  end.

Definition new_entry (program : string) (configured opted_out : bool) : ProgramEntry :=
  {| pe_program := program; pe_configured := configured; pe_opted_out := opted_out;
     pe_failed := None; pe_changes := false; pe_conflicts := []; pe_inactive := None;
     pe_paths := []; pe_operations := (0, 0)%nat; pe_registry_operations := (0, 0)%nat |}.
Definition fail_entry (e : ProgramEntry) (error : string) : ProgramEntry :=
  {| pe_program := pe_program e; pe_configured := pe_configured e; pe_opted_out := pe_opted_out e;
     pe_failed := Some error; pe_changes := pe_changes e; pe_conflicts := pe_conflicts e;
     pe_inactive := pe_inactive e; pe_paths := pe_paths e; pe_operations := pe_operations e;
     pe_registry_operations := pe_registry_operations e |}.
(** [failed.get_or_insert_with(..)] for the programs that touch the path. *)
Definition fail_sharing (p : path) (error : string) (e : ProgramEntry) : ProgramEntry :=
  if bool_decide (p ∈ pe_paths e) && is_none (pe_failed e) then fail_entry e error else e.

(** One provider of [plan_with_report]'s loop. *)
Definition plan_entry (ctx : ReconcileContext) (config : DaemonConfig) (s : fs)
    (configured opted_out : list string) (ap : AttributedPlan) (p : Provider) : AttributedPlan :=
  let program := provider_id p in
  let entry := new_entry program (bool_decide (program ∈ configured))
                 (bool_decide (program ∈ opted_out)) in
  match provider_plan p ctx config s with
  | Err error =>
      {| ap_plan := ap_plan ap;
         ap_entries := (ap_entries ap ++ [fail_entry entry error])%list;
         ap_first_error := Some (default error (ap_first_error ap)) |}
  | Ok own =>
      let sum := summary own in
      let start := operation_count (ap_plan ap) in
      let registry_start := registry_operation_count (ap_plan ap) in
      let '(r, plan) := append_attributed own (ap_plan ap) in
      let entry :=
        {| pe_program := program; pe_configured := pe_configured entry;
           pe_opted_out := pe_opted_out entry;
           pe_failed := match r with Ok _ => None | Err (error, _) => Some error end;
           pe_changes := sum_changes sum; pe_conflicts := sum_conflicts sum;
           pe_inactive := sum_inactive sum; pe_paths := sum_paths sum;
           pe_operations := (start, operation_count plan);
           pe_registry_operations := (registry_start, registry_operation_count plan) |} in
      match r with
      | Ok _ =>
          {| ap_plan := plan; ap_entries := (ap_entries ap ++ [entry])%list;
             ap_first_error := ap_first_error ap |}
      | Err (error, p) =>
          {| ap_plan := plan;
             ap_entries := (map (fail_sharing p error) (ap_entries ap) ++ [entry])%list;
             ap_first_error := Some (default error (ap_first_error ap)) |}
      end
  end.

Definition empty_attributed : AttributedPlan :=
  {| ap_plan := default_plan; ap_entries := []; ap_first_error := None |}.

Definition plan_with_report (r : Reconciler) (config : DaemonConfig) (s : fs) : AttributedPlan :=
  let '(config, opted_out) := apply_program_choice config (rc_choice r) in
  let configured := configured_programs (dm_programs config) in
  fold_left (plan_entry (rc_context r) config s configured opted_out) (rc_providers r)
    empty_attributed.

(** [apply_read_under_lock]: [read] runs once the lock is held. *)
Definition apply_read_under_lock {T} (rng : nat -> nat -> Z) (read : option (T * DaemonConfig))
    (r : Reconciler) (s : fs)
  : option (T * option ApplyReport * ApplyReport * result unit string) * Reconciler * fs :=
  match read with
  | None => (None, r, s)
  | Some (v, config) =>
      let '(report, res, s') := attributed_apply rng (plan_with_report r config s) s in
      let report :=
        {| ar_programs := ar_programs report;
           ar_sequence :=
             u64_wrapping_add (match rc_last_apply r with
                               | Some previous => ar_sequence previous
                               | None => 0
                               end) 1 |} in
      (Some (v, rc_last_apply r, report, res),
       {| rc_context := rc_context r; rc_providers := rc_providers r;
          rc_last_apply := Some report; rc_choice := rc_choice r |}, s')
  end.

Definition apply_with_report (rng : nat -> nat -> Z) (config : DaemonConfig) (r : Reconciler) (s : fs)
  : option (ApplyReport * result unit string) * Reconciler * fs :=
  let '(out, r', s') := apply_read_under_lock rng (Some (tt, config)) r s in
  ((fun '(_, _, report, res) => (report, res)) <$> out, r', s').

(** [fail_closed_without_proxy]. *)
Definition FAIL_CLOSED_REASON : string :=
  "local LLM proxy not available; see llmProxy.error in daemon-info, or set daemon.llmProxy.listen; the managed entries stay and the tool fails until the proxy is back (whenProxyUnavailable: failClosed)".
Definition FAIL_CLOSED_NOT_IN_PLACE_REASON : string :=
  "local LLM proxy not available; see llmProxy.error in daemon-info, or set daemon.llmProxy.listen; no managed entries are in place, so the tool keeps its own settings until the proxy is back (whenProxyUnavailable: failClosed)".
Definition FAIL_OPEN_REASON : string :=
  "local LLM proxy not available; see llmProxy.error in daemon-info, or set daemon.llmProxy.listen; the managed entries are removed until the proxy is back (whenProxyUnavailable: failOpen)".
Definition fail_closed_without_proxy (gateway : LlmGatewayConfig)
    (in_place : ReconcilePlan -> bool * ReconcilePlan) (pl : ReconcilePlan) : bool * ReconcilePlan :=
  if bool_decide (gw_when_proxy_unavailable gateway = FailClosed)
  then let '(here, pl) := in_place pl in
       (true, set_inactive (if here then FAIL_CLOSED_REASON else FAIL_CLOSED_NOT_IN_PLACE_REASON) pl)
  else (false, pl).

(** ** The dry-run report *)

Section render.
Context `{JsonCodec}.
(** [TextDiff::from_lines(..).unified_diff()..to_string()] of the [similar] crate. *)
Variable unified_diff : string -> string -> string.

Definition normalized_diff (before after : string) : string * string :=
  match json_from_slice before, json_from_slice after with
  | Ok b, Ok a => (to_vec_pretty b +:+ String "010" "", to_vec_pretty a +:+ String "010" "")
  | _, _ => (before, after)
  end.

(** [to_uppercase] of an action, which is ASCII. *)
Definition to_upper (a : ascii) : ascii := if is_ascii_lower a then of_byte (byte_of a - 32) else a.
Fixpoint to_uppercase (s : string) : string :=
  match s with EmptyString => EmptyString | String a s => String (to_upper a) (to_uppercase s) end.

Definition nl : string := String "010" "".
Definition render_change (c : DryRunChange) : string :=
  nl +:+ to_uppercase (dc_action c) +:+ "  " +:+ dc_display_name c +:+ " " +:+ dc_description c
  +:+ nl +:+ "        " +:+ display (dc_path c) +:+ nl
  +:+ (if is_some (dc_before c) || is_some (dc_after c)
       then let '(before, after) :=
              normalized_diff (default "" (dc_before c)) (default "" (dc_after c)) in
            unified_diff before after
       else "").
Definition count (p : DryRunChange -> bool) (l : list DryRunChange) : nat := length (retain p l).
Definition is_unchanged (c : DryRunChange) : bool := String.eqb (dc_action c) "unchanged".
Definition em_dash : string := of_bytes [226; 128; 148].

Definition render (r : DryRunReport) : string :=
  let changed := count (fun c => negb (is_unchanged c) && negb (is_conflict c)) (changes r) in
  let unchanged := count is_unchanged (changes r) in
  let conflicts := count is_conflict (changes r) in
  "Dry run " +:+ em_dash +:+ " no files will be changed" +:+ nl
  +:+ join "" (map (fun reason => nl +:+ "INACTIVE  " +:+ reason +:+ nl) (report_inactive r))
  +:+ join "" (map render_change (retain (fun c => negb (is_unchanged c)) (changes r)))
  +:+ nl +:+ "Summary: " +:+ fmt_nat changed +:+ " "
  +:+ (if Nat.eqb changed 1 then "change" else "changes") +:+ ", " +:+ fmt_nat unchanged
  +:+ " unchanged"
  +:+ (if Nat.ltb 0 conflicts then ", " +:+ fmt_nat conflicts +:+ " conflicts" else "")
  +:+ nl.
End render.

(** ** The attributed plan *)

Lemma summary_conflicts pl :
  negb (bool_decide (sum_conflicts (summary pl) = [])) = any is_conflict (changes (report pl)).
Proof.
  simpl. induction (changes (report pl)) as [|c l IH]; simpl; [done|].
  destruct (is_conflict c); simpl; [done|exact IH].
Qed.

Lemma summary_paths pl p : is_Some (observed pl !! p) -> p ∈ sum_paths (summary pl).
Proof.
  intros [o Ho]. unfold summary. simpl. apply elem_of_iter_observed in Ho.
  assert (p ∈ map fst (iter_observed (observed pl))) as Hp.
  { apply list_elem_of_fmap. by exists (p, o). }
  revert Hp. generalize (map fst (iter_observed (observed pl))) as l.
  induction (operations pl) as [|c ops IH]; intros l Hl; simpl; [done|].
  apply IH. case_bool_decide; set_solver.
Qed.

(** What planning with a report establishes: entries in provider order with the
    ranges of their operations, no path changed twice, and, when nothing failed,
    every operation and observation owned by an entry, and the conflicts of the
    entries those of the plan. *)
Record attributed (ids : list string) (ap : AttributedPlan) : Prop := {
  at_ids : map pe_program (ap_entries ap) = ids;
  at_nodup : NoDup (map fc_path (operations (ap_plan ap)));
  at_ranges e : e ∈ ap_entries ap ->
    (snd (pe_operations e) <= operation_count (ap_plan ap))%nat /\
    pe_registry_operations e = (0, 0)%nat;
  at_ok : ap_first_error ap = None ->
    (forall e, e ∈ ap_entries ap -> pe_failed e = None) /\
    any has_conflict (ap_entries ap) = any is_conflict (changes (report (ap_plan ap))) /\
    (forall i, (i < operation_count (ap_plan ap))%nat ->
       exists e, e ∈ ap_entries ap /\ in_nat_range (pe_operations e) i = true) /\
    (forall p, is_Some (observed (ap_plan ap) !! p) ->
       exists e, e ∈ ap_entries ap /\ p ∈ pe_paths e);
  at_err : is_Some (ap_first_error ap) ->
    exists e, e ∈ ap_entries ap /\ is_Some (pe_failed e);
}.

Lemma attributed_empty : attributed [] empty_attributed.
Proof.
  split; simpl; try done.
  - apply NoDup_nil_2.
  - intros e He. by apply not_elem_of_nil in He.
  - intros _. split; [intros e He; by apply not_elem_of_nil in He|]. split; [done|].
    split; [intros i Hi; unfold operation_count in Hi; simpl in Hi; lia|].
    intros p [o Ho]. done.
Qed.

Lemma fail_sharing_same p error e :
  pe_program (fail_sharing p error e) = pe_program e /\
  pe_operations (fail_sharing p error e) = pe_operations e /\
  pe_registry_operations (fail_sharing p error e) = pe_registry_operations e.
Proof. unfold fail_sharing. by destruct (_ && _). Qed.

Lemma in_nat_range_spec r i : in_nat_range r i = true <-> (fst r <= i < snd r)%nat.
Proof. unfold in_nat_range. rewrite andb_true_iff, Nat.leb_le, Nat.ltb_lt. done. Qed.

(** The entry of a provider whose plan was appended. *)
Lemma plan_entry_appended ctx config s configured opted_out ids ap p own pl :
  attributed ids ap -> provider_plan p ctx config s = Ok own ->
  append_attributed own (ap_plan ap) = (Ok tt, pl) ->
  attributed (ids ++ [provider_id p]) (plan_entry ctx config s configured opted_out ap p).
Proof.
  intros [Hids Hnd Hr Hok Herr] Hp Happ. unfold plan_entry. rewrite Hp, Happ.
  pose proof (append_attributed_operations _ _ _ _ Happ) as (Hnd' & _ & Hops & Hch & Hobs).
  assert (operation_count pl = (operation_count (ap_plan ap) + length (operations own))%nat) as Hcount.
  { unfold operation_count. by rewrite Hops, length_app. }
  split; simpl.
  - by rewrite map_app, Hids.
  - auto.
  - intros e [He| ->%list_elem_of_singleton]%elem_of_app; [|done].
    destruct (Hr e He). split; [lia|done].
  - intros E. destruct (Hok E) as (Hf & Hc & Hcov & Hpaths). split; [|split; [|split]].
    + intros e [He| ->%list_elem_of_singleton]%elem_of_app; auto.
    + rewrite any_app, Hch, any_app, <- Hc. f_equal. simpl. rewrite orb_false_r.
      apply summary_conflicts.
    + intros i Hi. rewrite Hcount in Hi.
      destruct (decide (i < operation_count (ap_plan ap))%nat) as [Hlt|Hge].
      * destruct (Hcov i Hlt) as (e & He & Hin). exists e. split; [|done]. apply elem_of_app. by left.
      * eexists. split; [apply elem_of_app; right; by apply list_elem_of_singleton|].
        apply in_nat_range_spec. simpl. lia.
    + intros q [o Ho]. apply Hobs in Ho as [Ho|Ho].
      * destruct (Hpaths q) as (e & He & Hq); [by exists o|]. exists e. split; [|done].
        apply elem_of_app. by left.
      * eexists. split; [apply elem_of_app; right; by apply list_elem_of_singleton|].
        simpl. apply summary_paths. by exists o.
  - intros H. destruct (Herr H) as (e & He & Hf). exists e. split; [|done]. apply elem_of_app. by left.
Qed.

Lemma plan_entry_attributed ctx config s configured opted_out ids ap p :
  attributed ids ap ->
  attributed (ids ++ [provider_id p]) (plan_entry ctx config s configured opted_out ap p).
Proof.
  intros Hap. destruct (provider_plan p ctx config s) as [own|error] eqn:Hp.
  2: { destruct Hap as [Hids Hnd Hr Hok Herr]. unfold plan_entry. rewrite Hp. split; simpl; try done.
       - by rewrite map_app, Hids.
       - intros e [He| ->%list_elem_of_singleton]%elem_of_app; [by apply Hr|]. simpl.
         split; [lia|done].
       - intros _. eexists. split; [apply elem_of_app; right; by apply list_elem_of_singleton|].
         by eexists. }
  destruct (append_attributed own (ap_plan ap)) as [[[]|[error q]] pl] eqn:Happ;
    [by eapply plan_entry_appended|].
  destruct Hap as [Hids Hnd Hr Hok Herr]. unfold plan_entry. rewrite Hp, Happ.
  pose proof (append_attributed_operations _ _ _ _ Happ) as (Hnd' & [l Hl] & _).
  split; simpl; try done.
  - rewrite map_app, map_map. simpl. f_equal. rewrite <- Hids. apply map_ext. intros e.
    apply fail_sharing_same.
  - auto.
  - intros e [He| ->%list_elem_of_singleton]%elem_of_app; [|done].
    apply list_elem_of_fmap in He as (x & -> & Hx). destruct (fail_sharing_same q error x) as (_ & -> & ->).
    destruct (Hr x Hx). split; [|done]. unfold operation_count in *. rewrite Hl, length_app. lia.
  - intros _. eexists. split; [apply elem_of_app; right; by apply list_elem_of_singleton|].
    by eexists.
Qed.

Lemma plan_entries_attributed ctx config s configured opted_out providers ids ap :
  attributed ids ap ->
  attributed (ids ++ map provider_id providers)
    (fold_left (plan_entry ctx config s configured opted_out) providers ap).
Proof.
  revert ids ap. induction providers as [|p providers IH]; intros ids ap Hap; simpl.
  - by rewrite app_nil_r.
  - eapply plan_entry_attributed, IH in Hap. rewrite <- app_assoc in Hap. exact Hap.
Qed.

Lemma plan_with_report_attributed r config s :
  attributed (map provider_id (rc_providers r)) (plan_with_report r config s).
Proof.
  unfold plan_with_report. destruct (apply_program_choice config (rc_choice r)) as [config' out].
  apply (plan_entries_attributed _ _ _ _ _ _ []), attributed_empty.
Qed.

(** ** Applying with a report *)

Definition touched (st : ProgramState) : bool :=
  match st with Applied | Removed => true | _ => false end.
Definition unsettled (st : ProgramState) : bool :=
  match st with Failed | Conflicted | Blocked => true | _ => false end.

Lemma settled_touched e w b st d :
  settled e w b = Some (st, d) -> touched st = true -> pe_changes e = true /\ w = true.
Proof.
  unfold settled. destruct (pe_changes e), w, (pe_inactive e), (pe_opted_out e), (pe_configured e);
    simpl; intros [= <- <-]; done.
Qed.

(** A program reported as touched had its part written. *)
Lemma entry_outcome_touched stop b e o :
  entry_outcome stop b e = Some o -> touched (po_state o) = true ->
  po_program o = pe_program e /\ pe_failed e = None /\ has_conflict e = false /\
  written stop e = true.
Proof.
  unfold entry_outcome. destruct (pe_failed e) as [d|]; [by intros [= <-]|].
  destruct (match stop with StopFailed _ _ _ _ => _ | _ => _ end) as [d|]; [by intros [= <-]|].
  destruct (has_conflict e); [by intros [= <-]|].
  destruct (settled e (written stop e) b) as [[st d]|] eqn:E; [|done].
  intros [= <-] Ht. simpl in *. by destruct (settled_touched _ _ _ _ _ E Ht).
Qed.

Lemma entry_outcome_applied stop b e o : entry_outcome stop b e = Some o -> touched (po_state o) = true ->
  po_state o = Applied <-> pe_configured e = true.
Proof.
  unfold entry_outcome. destruct (pe_failed e) as [d|]; [by intros [= <-]|].
  destruct (match stop with StopFailed _ _ _ _ => _ | _ => _ end) as [d|]; [by intros [= <-]|].
  destruct (has_conflict e); [by intros [= <-]|]. unfold settled.
  destruct (pe_changes e), (written stop e), (pe_inactive e), (pe_opted_out e), (pe_configured e); simpl;
    intros [= <-]; done.
Qed.

Lemma any_find_conflict (l : list DryRunChange) :
  any is_conflict l = true -> exists c, find is_conflict l = Some c.
Proof.
  intros (x & Hx & Hc)%any_true. destruct (find is_conflict l) as [c|] eqn:E; [eauto|].
  rewrite find_none in E. specialize (E x Hx). congruence.
Qed.

(** A refused reconciliation changes nothing: when any provider's plan
    failed, two plans disagreed, or any file conflicts, the file system is exactly
    as it was, the result is an error, and no program is reported as applied or
    removed. *)
Theorem refused_reconciliation_changes_nothing rng r config s report res s' :
  let ap := plan_with_report r config s in
  attributed_apply rng ap s = (report, res, s') ->
  is_Some (ap_first_error ap) \/ any has_conflict (ap_entries ap) = true ->
  s' = s /\ is_ok res = false /\
  forall o, o ∈ ar_programs report -> touched (po_state o) = false.
Proof.
  cbv zeta. set (ap := plan_with_report r config s).
  pose proof (plan_with_report_attributed r config s) as Hap. fold ap in Hap.
  unfold attributed_apply. destruct (run_plan rng ap s) as [[res0 stop] s0] eqn:Hrun.
  intros [= <- -> ->] Hbad. assert (s' = s /\ is_ok res = false /\ stop = BeforeWrites) as (-> & Hres & ->).
  { unfold run_plan in Hrun. destruct (ap_first_error ap) as [error|] eqn:E.
    { by injection Hrun as <- <- <-. }
    destruct Hbad as [[? ?]|Hc]; [done|]. rewrite Hc in Hrun.
    destruct (at_ok _ _ Hap E) as (_ & Heq & _). rewrite Hc in Heq. symmetry in Heq.
    apply any_find_conflict in Heq as [c Hf]. unfold apply, st_map_err, apply_tracked in Hrun.
    rewrite Hf in Hrun. simpl in Hrun. by injection Hrun as <- <- <-. }
  split; [done|]. split; [done|]. simpl. intros o (e & He & Ho)%elem_of_filter_map.
  destruct (touched (po_state o)) eqn:Et; [|done].
  by destruct (entry_outcome_touched _ _ _ _ Ho Et) as (_ & _ & _ & Hw).
Qed.

Lemma run_plan_written rng ap s res stop s' ids e i c :
  attributed ids ap -> run_plan rng ap s = (res, stop, s') ->
  e ∈ ap_entries ap -> written stop e = true -> pe_failed e = None -> has_conflict e = false ->
  in_nat_range (pe_operations e) i = true -> operations (ap_plan ap) !! i = Some c ->
  (is_Some (fc_contents c) \/ res = Ok tt) -> change_done s' c.
Proof.
  intros Hap Hrun He Hw Hf Hc Hi Hop Hcase. unfold run_plan in Hrun.
  destruct (ap_first_error ap) as [error|] eqn:E; [by injection Hrun as <- <- <-|].
  destruct (any has_conflict (ap_entries ap)).
  { destruct (apply rng (ap_plan ap) s) as [r0 s0]. by injection Hrun as <- <- <-. }
  destruct (apply_tracked rng (ap_plan ap) s) as [[[]|[error at_]] s0] eqn:Ht.
  - injection Hrun as <- <- <-. apply apply_tracked_Ok in Ht as [Hd _]; [|apply Hap].
    apply Hd. by eapply list_elem_of_lookup_2.
  - injection Hrun as <- <- <-. destruct Hcase as [[contents Hcon]|]; [|done].
    apply in_nat_range_spec in Hi. simpl in Hw. apply andb_true_iff in Hw as [Hw%Nat.leb_le _].
    destruct at_ as [| | |k]; try lia.
    apply apply_tracked_failed in Ht as (c' & mid & _ & _ & Hd & Hsame); [|apply Hap].
    assert (c ∈ take k (operations (ap_plan ap))) as Hin.
    { apply elem_of_take. exists i. split; [done|lia]. }
    apply Hd in Hin. unfold change_done in *. rewrite Hcon in *.
    destruct Hin as (m & Hm & Hwi). exists m. split; [|done]. rewrite Hsame; [done|].
    right. by eexists.
Qed.

(** An entry that did not fail holds the whole plan of its provider. *)
Definition of_provider (ctx : ReconcileContext) (config : DaemonConfig) (s : fs) (configured : list string)
    (providers : list Provider) (ap : AttributedPlan) (e : ProgramEntry) : Prop :=
  exists p own, p ∈ providers /\ provider_id p = pe_program e /\ provider_plan p ctx config s = Ok own /\
    pe_configured e = bool_decide (pe_program e ∈ configured) /\
    forall c, c ∈ operations own -> exists i, in_nat_range (pe_operations e) i = true /\ operations (ap_plan ap) !! i = Some c.

Lemma of_provider_more ctx config s configured providers ap ap' e p0 more :
  operations (ap_plan ap') = (operations (ap_plan ap) ++ more)%list ->
  of_provider ctx config s configured providers ap e -> of_provider ctx config s configured (providers ++ [p0]) ap' e.
Proof.
  intros Hops (p & own & Hp & Hid & Hplan & Hc & Hall). exists p, own. split; [set_solver|]. do 3 (split; [done|]).
  intros c (i & Hi & Hop)%Hall. exists i. split; [done|]. rewrite Hops. by apply lookup_app_l_Some.
Qed.
Lemma fail_sharing_None q error e : pe_failed (fail_sharing q error e) = None -> fail_sharing q error e = e.
Proof. unfold fail_sharing. by destruct (_ && _). Qed.

Lemma plan_entry_of_provider ctx config s configured opted_out providers ap p :
  (forall e, e ∈ ap_entries ap -> pe_failed e = None -> of_provider ctx config s configured providers ap e) ->
  let ap' := plan_entry ctx config s configured opted_out ap p in
  forall e, e ∈ ap_entries ap' -> pe_failed e = None -> of_provider ctx config s configured (providers ++ [p]) ap' e.
Proof.
  intros Hap. cbv zeta. unfold plan_entry. destruct (provider_plan p ctx config s) as [own|error] eqn:Hown.
  2: { intros e [He| ->%list_elem_of_singleton]%elem_of_app Hf; [|done].
       apply (of_provider_more _ _ _ _ _ ap _ _ _ []); [by rewrite app_nil_r|auto]. }
  assert (exists more, operations (snd (append_attributed own (ap_plan ap))) = (operations (ap_plan ap) ++ more)%list) as Hmore.
  { destruct (append_attributed own (ap_plan ap)) as [r0 pl0] eqn:E.
    by apply append_attributed_operations in E as (_ & Hext & _). }
  destruct (append_attributed own (ap_plan ap)) as [[u|[error q]] pl] eqn:Happ; destruct Hmore as [more Hmore]; simpl in Hmore.
  - apply append_attributed_operations in Happ as (_ & _ & Hops & _). destruct u.
    intros e [He| ->%list_elem_of_singleton]%elem_of_app Hf; [eapply of_provider_more; [exact Hmore|auto]|].
    exists p, own. split; [set_solver|]. do 3 (split; [done|]). simpl. intros c [k Hk]%list_elem_of_lookup_1.
    exists (operation_count (ap_plan ap) + k)%nat. unfold operation_count. rewrite Hops. split.
    + apply in_nat_range_spec. simpl. apply lookup_lt_Some in Hk. rewrite length_app. lia.
    + rewrite lookup_app_r by lia. by replace (_ + k - _)%nat with k by lia.
  - intros e [He| ->%list_elem_of_singleton]%elem_of_app Hf; [|done].
    apply list_elem_of_fmap in He as (e0 & -> & He0). pose proof (fail_sharing_None _ _ _ Hf) as E. rewrite E in *.
    eapply of_provider_more; [exact Hmore|auto].
Qed.
Lemma plan_with_report_of_provider r config s e :
  let chosen := fst (apply_program_choice config (rc_choice r)) in
  e ∈ ap_entries (plan_with_report r config s) -> pe_failed e = None ->
  of_provider (rc_context r) chosen s (configured_programs (dm_programs chosen)) (rc_providers r)
    (plan_with_report r config s) e.
Proof.
  unfold plan_with_report. destruct (apply_program_choice config (rc_choice r)) as [chosen opted_out]. simpl.
  assert (forall providers before ap,
    (forall e, e ∈ ap_entries ap -> pe_failed e = None ->
       of_provider (rc_context r) chosen s (configured_programs (dm_programs chosen)) before ap e) ->
    let ap' := fold_left (plan_entry (rc_context r) chosen s (configured_programs (dm_programs chosen)) opted_out) providers ap in
    forall e, e ∈ ap_entries ap' -> pe_failed e = None ->
      of_provider (rc_context r) chosen s (configured_programs (dm_programs chosen)) (before ++ providers) ap' e) as H.
  { induction providers as [|p providers IH]; intros before ap Hap; simpl; [by rewrite app_nil_r|].
    pose proof (IH (before ++ [p])%list _ (plan_entry_of_provider _ _ _ _ opted_out _ _ _ Hap)) as H.
    by rewrite <- app_assoc in H. }
  apply (H _ [] empty_attributed). intros e0 He. by apply not_elem_of_nil in He.
Qed.

(** C8. The report tells the truth about what was written: when a program is reported as
    applied or removed, all that its provider planned is done: every file the plan writes
    is in place with the planned bytes and mode, even when the apply stopped later on
    another program, and when the whole apply succeeded its removals are done too; applied
    is what a program is that is configured and not opted out, removed one that is not. *)
Theorem touched_programs_are_written rng r config s report res s' :
  attributed_apply rng (plan_with_report r config s) s = (report, res, s') ->
  let chosen := fst (apply_program_choice config (rc_choice r)) in
  forall o, o ∈ ar_programs report -> po_state o = Applied \/ po_state o = Removed ->
  (po_state o = Applied <-> po_program o ∈ configured_programs (dm_programs chosen)) /\
  exists p own, p ∈ rc_providers r /\ provider_id p = po_program o /\
    provider_plan p (rc_context r) chosen s = Ok own /\
    forall c, c ∈ operations own -> is_Some (fc_contents c) \/ res = Ok tt -> change_done s' c.
Proof.
  intros Hrun. cbv zeta. pose proof (plan_with_report_attributed r config s) as Hap.
  pose proof (plan_with_report_of_provider r config s) as Hof. revert Hrun Hap Hof.
  set (ap := plan_with_report r config s). intros Hrun Hap Hof.
  unfold attributed_apply in Hrun. destruct (run_plan rng ap s) as [[res0 stop] s0] eqn:Hp.
  injection Hrun as <- -> ->. intros o (e & He & Ho)%elem_of_filter_map Hst.
  assert (touched (po_state o) = true) as Ht by (by destruct Hst as [->| ->]).
  destruct (entry_outcome_touched _ _ _ _ Ho Ht) as (Hid & Hf & Hc & Hw).
  destruct (Hof e He Hf) as (p & own & Hin & Hpid & Hplan & Hconf & Hall). split.
  - rewrite Hid. etransitivity; [|apply bool_decide_eq_true]. rewrite <- Hconf.
    by apply entry_outcome_applied in Ho.
  - exists p, own. split; [done|]. split; [congruence|]. split; [done|].
    intros c (i & Hi & Hop)%Hall Hcase. by eapply run_plan_written.
Qed.

Lemma entry_outcome_completed b e o :
  pe_failed e = None -> has_conflict e = false -> entry_outcome Completed b e = Some o ->
  unsettled (po_state o) = false.
Proof.
  intros Hf Hc. unfold entry_outcome. rewrite Hf, Hc. unfold settled. simpl.
  rewrite andb_false_r.
  destruct (pe_inactive e), (pe_opted_out e), (pe_changes e), (pe_configured e); simpl;
    intros [= <-]; done.
Qed.

(** A successful reconciliation is successful for every program: all planned
    operations are done, no other file changed, and no program is reported as
    failed, conflicting or blocked. *)
Theorem successful_reconciliation_is_complete rng r config s report s' :
  let ap := plan_with_report r config s in
  attributed_apply rng ap s = (report, Ok tt, s') ->
  (forall c, c ∈ operations (ap_plan ap) -> change_done s' c) /\
  frame (map fc_path (operations (ap_plan ap))) s s' /\
  forall o, o ∈ ar_programs report -> unsettled (po_state o) = false.
Proof.
  cbv zeta. set (ap := plan_with_report r config s).
  pose proof (plan_with_report_attributed r config s) as Hap. fold ap in Hap.
  unfold attributed_apply. destruct (run_plan rng ap s) as [[res0 stop] s0'] eqn:Hrun.
  intros [= <- -> ->]. unfold run_plan in Hrun. destruct (ap_first_error ap) as [error|] eqn:E; [done|].
  destruct (at_ok _ _ Hap E) as (Hf & Hc & _).
  destruct (any has_conflict (ap_entries ap)) eqn:Ec.
  { symmetry in Hc. apply any_find_conflict in Hc as [c Hfind]. exfalso.
    unfold apply, st_map_err, apply_tracked in Hrun. by rewrite Hfind in Hrun. }
  destruct (apply_tracked rng (ap_plan ap) s) as [[[]|[error at_]] s0] eqn:Ht; [|done].
  injection Hrun as <- <-. apply apply_tracked_Ok in Ht as [Hd Hfr]; [|apply Hap].
  split; [done|]. split; [done|]. intros o (e & He & Ho)%elem_of_filter_map.
  rewrite any_false in Ec. eapply entry_outcome_completed; [by apply Hf|by apply Ec|exact Ho].
Qed.

(** ** Blame *)

Lemma owners_observed entries e p :
  e ∈ entries -> p ∈ pe_paths e -> pe_program e ∈ owners_of entries (Observed p).
Proof.
  intros He Hp. unfold owners_of. apply list_elem_of_fmap_2, elem_of_retain.
  split; [done|]. by apply bool_decide_eq_true.
Qed.
Lemma owners_operation entries e i :
  e ∈ entries -> in_nat_range (pe_operations e) i = true ->
  pe_program e ∈ owners_of entries (Operation i).
Proof.
  intros He Hi. unfold owners_of. by apply list_elem_of_fmap_2, elem_of_retain.
Qed.

Lemma entry_outcome_failed b e detail owners files :
  pe_program e ∈ owners ->
  exists o, entry_outcome (StopFailed owners detail files 0) b e = Some o /\
            po_program o = pe_program e /\ po_state o = Failed.
Proof.
  intros Ho. unfold entry_outcome, failed_during. rewrite bool_decide_true by done.
  destruct (pe_failed e); by eexists.
Qed.

Lemma in_report e o stop b entries :
  e ∈ entries -> entry_outcome stop b e = Some o ->
  o ∈ filter_map (entry_outcome stop b) entries.
Proof. intros He Ho. apply elem_of_filter_map. eauto. Qed.

(** A failed reconciliation names a culprit: unless it stopped while creating
    a private directory, at least one program is reported as failed or
    conflicting. *)
Theorem failed_reconciliation_has_culprit rng r config s report res s' :
  let ap := plan_with_report r config s in
  attributed_apply rng ap s = (report, res, s') ->
  is_ok res = false ->
  (forall e d s1, apply_tracked rng (ap_plan ap) s <> (Err (e, PrivateDir d), s1)) ->
  exists o, o ∈ ar_programs report /\ (po_state o = Failed \/ po_state o = Conflicted).
Proof.
  cbv zeta. set (ap := plan_with_report r config s).
  pose proof (plan_with_report_attributed r config s) as Hap. fold ap in Hap.
  unfold attributed_apply. destruct (run_plan rng ap s) as [[res0 stop] s0'] eqn:Hrun.
  intros [= <- -> ->] Hres Hdir. simpl. unfold run_plan in Hrun.
  destruct (ap_first_error ap) as [error|] eqn:E.
  { destruct (at_err _ _ Hap) as (e & He & [d Hd]); [by rewrite E|].
    exists (outcome (pe_program e) Failed d). split; [|by left].
    eapply in_report; [exact He|]. unfold entry_outcome. by rewrite Hd. }
  destruct (at_ok _ _ Hap E) as (Hf & Hc & Hcov & Hpaths).
  destruct (any has_conflict (ap_entries ap)) eqn:Ec.
  { apply any_true in Ec as (e & He & Hce).
    destruct (apply rng (ap_plan ap) s) as [r0 s0]. injection Hrun as _ <- _.
    exists (outcome (pe_program e) Conflicted (join "; " (pe_conflicts e))). split; [|by right].
    eapply in_report; [exact He|]. unfold entry_outcome. by rewrite (Hf e He), Hce. }
  destruct (apply_tracked rng (ap_plan ap) s) as [[[]|[error at_]] s0] eqn:Ht;
    injection Hrun as <- <- <-; [done|].
  assert (exists e, e ∈ ap_entries ap /\ pe_program e ∈ owners_of (ap_entries ap) at_) as (e & He & Ho).
  { pose proof (apply_tracked_stop _ _ _ _ _ _ Ht) as Hstop. destruct at_ as [|p|d|i].
    - congruence.
    - destruct (Hpaths p Hstop) as (e & He & Hp). exists e. split; [done|]. by apply owners_observed.
    - by destruct (Hdir error d s0).
    - destruct (Hcov i Hstop) as (e & He & Hr). exists e. split; [done|]. by apply owners_operation. }
  destruct (entry_outcome_failed (blocked_by (StopFailed (owners_of (ap_entries ap) at_) error
              match at_ with Operation i => i | _ => 0%nat end 0) (ap_entries ap)) e error
              (owners_of (ap_entries ap) at_) match at_ with Operation i => i | _ => 0%nat end Ho)
    as (o & Hout & _ & Hst).
  exists o. split; [by eapply in_report|by left].
Qed.

(** ** The device user's choice *)

Lemma leave_out_eq {T} (o : option T) id choice out :
  leave_out o id choice out =
  (if is_some o && negb (includes choice id) then None else o,
   (out ++ if is_some o && negb (includes choice id) then [id] else [])%list).
Proof. unfold leave_out. destruct (_ && _); by rewrite ?app_nil_r. Qed.

Lemma is_some_left_out {T} (o : option T) b :
  is_some (if is_some o && negb b then None else o) = is_some o && b.
Proof. by destruct o, b. Qed.

Definition opted (choice : ProgramChoice) (row : bool * string) : option string :=
  if fst row && negb (includes choice (snd row)) then Some (snd row) else None.

Lemma apply_program_choice_honored config choice :
  allow_user_choice (dm_program_selection config) = true -> choice <> AllPrograms ->
  let '(chosen, out) := apply_program_choice config choice in
  program_rows (dm_programs chosen) =
    map (fun row => (fst row && includes choice (snd row), snd row))
        (program_rows (dm_programs config)) /\
  out = filter_map (opted choice) (program_rows (dm_programs config)) /\
  with_programs (dm_programs chosen) config = chosen.
Proof.
  intros Ha Hc. unfold apply_program_choice. rewrite Ha, bool_decide_false by done. simpl negb. simpl orb.
  cbv iota zeta. rewrite !leave_out_eq. cbv beta iota zeta. split; [|split; [|done]].
  - unfold program_rows. simpl. by rewrite !is_some_left_out.
  - unfold program_rows, opted. simpl.
    repeat match goal with |- context [is_some ?o && negb ?b] => destruct (is_some o && negb b); simpl end;
      reflexivity.
Qed.

Lemma program_choice_split config choice :
  let '(chosen, out) := apply_program_choice config choice in
  (forall id, id ∈ configured_programs (dm_programs config) <->
     id ∈ configured_programs (dm_programs chosen) \/ id ∈ out) /\
  (forall id, id ∈ out -> includes choice id = false /\
     id ∉ configured_programs (dm_programs chosen)) /\
  with_programs (dm_programs chosen) config = chosen /\
  (allow_user_choice (dm_program_selection config) = false -> chosen = config /\ out = []) /\
  (allow_user_choice (dm_program_selection config) = true ->
   forall id, id ∈ configured_programs (dm_programs chosen) -> includes choice id = true).
Proof.
  destruct (allow_user_choice (dm_program_selection config)) eqn:Ea.
  2: { unfold apply_program_choice. rewrite Ea. simpl.
       split; [intros id; rewrite elem_of_nil; tauto|]. split; [intros id []%elem_of_nil|].
       split; [by destruct config|done]. }
  destruct (decide (choice = AllPrograms)) as [->|Hc].
  { unfold apply_program_choice. rewrite Ea. simpl.
    split; [intros id; rewrite elem_of_nil; tauto|]. split; [intros id []%elem_of_nil|].
    split; [by destruct config|done]. }
  pose proof (apply_program_choice_honored config choice Ea Hc) as H.
  destruct (apply_program_choice config choice) as [chosen out]. destruct H as (Hrows & -> & Hw).
  assert (forall id, id ∈ configured_programs (dm_programs chosen) <->
    id ∈ configured_programs (dm_programs config) /\ includes choice id = true) as Hch.
  { intros id. unfold configured_programs. rewrite Hrows, !elem_of_filter_map. split.
    - intros ([b x] & Hrow & Hid). apply list_elem_of_fmap in Hrow as ([c y] & [= -> ->] & Hin).
      simpl in Hid.
      unfold row_id in Hid. simpl in Hid. destruct c, (includes choice y) eqn:E; simplify_eq/=.
      split; [|done]. by exists (true, id).
    - intros [([c y] & Hin & Hid) Hinc]. unfold row_id in Hid. simpl in Hid. destruct c; simplify_eq.
      eexists. split; [apply list_elem_of_fmap; by exists (true, id)|]. unfold row_id. simpl. by rewrite Hinc. }
  assert (forall id, id ∈ filter_map (opted choice) (program_rows (dm_programs config)) <->
    id ∈ configured_programs (dm_programs config) /\ includes choice id = false) as Hout.
  { intros id. unfold configured_programs. rewrite !elem_of_filter_map. unfold opted, row_id. split.
    - intros ([c y] & Hin & Hid). simpl in Hid. destruct c, (includes choice y) eqn:E; simplify_eq/=.
      split; [|done]. by exists (true, id).
    - intros [([c y] & Hin & Hid) Hinc]. simpl in Hid. destruct c; simplify_eq.
      exists (true, id). simpl. by rewrite Hinc. }
  split; [|split; [|split; [done|split; [done|]]]].
  - intros id. rewrite Hch, Hout. destruct (includes choice id); tauto.
  - intros id [Hin Hinc]%Hout. split; [done|]. rewrite Hch, Hinc. by intros [].
  - intros _ id [_ Hinc]%Hch. done.
Qed.

(** The device user's choice splits the configured programs in two: those
    still managed, all of which the choice includes, and those opted out, none of
    which it includes. Nothing else of the configuration changes, and a choice the
    policy does not allow has no effect at all. *)
Theorem program_choice_partitions config choice :
  let '(chosen, out) := apply_program_choice config choice in
  (forall id, id ∈ configured_programs (dm_programs config) <->
     id ∈ configured_programs (dm_programs chosen) \/ id ∈ out) /\
  (forall id, id ∈ out -> includes choice id = false /\
     id ∉ configured_programs (dm_programs chosen)) /\
  with_programs (dm_programs chosen) config = chosen /\
  (allow_user_choice (dm_program_selection config) = false -> chosen = config /\ out = []) /\
  (allow_user_choice (dm_program_selection config) = true ->
   forall id, id ∈ configured_programs (dm_programs chosen) -> includes choice id = true).
Proof. apply program_choice_split. Qed.

(** ** Details *)

Lemma char_boundary_below_spec s n :
  (char_boundary_below s n <= n)%nat /\
  is_char_boundary s (char_boundary_below s n) = true /\
  (forall i, (char_boundary_below s n < i <= n)%nat -> is_char_boundary s i = false).
Proof.
  induction n as [|n (H1 & H2 & H3)]; simpl.
  - split; [done|]. split; [done|]. intros i Hi. lia.
  - destruct (is_char_boundary s (S n)) eqn:E.
    + split; [done|]. split; [done|]. intros i Hi. lia.
    + split; [lia|]. split; [done|]. intros i Hi.
      destruct (decide (i = S n)) as [->|]; [done|]. apply H3. lia.
Qed.

(** A reported detail is at most 1,024 bytes and is cut at a character
    boundary, the last one that fits; a detail that fits is kept whole. *)
Theorem truncated_detail detail :
  (String.length (truncate_detail detail) <= DETAIL_LIMIT)%nat /\
  (exists rest, detail = truncate_detail detail +:+ rest) /\
  is_char_boundary detail (String.length (truncate_detail detail)) = true /\
  (forall i, (String.length (truncate_detail detail) < i <= DETAIL_LIMIT)%nat ->
     (i <= String.length detail)%nat -> is_char_boundary detail i = false).
Proof.
  unfold truncate_detail. destruct (Nat.ltb DETAIL_LIMIT (String.length detail)) eqn:E.
  - apply Nat.ltb_lt in E. destruct (char_boundary_below_spec detail DETAIL_LIMIT) as (H1 & H2 & H3).
    destruct (substring_prefix (char_boundary_below detail DETAIL_LIMIT) detail) as (rest & Hr & Hl);
      [lia|]. rewrite Hl. split; [done|]. split; [by exists rest|]. split; [done|]. auto.
  - apply Nat.ltb_ge in E. split; [done|]. split; [exists ""; by rewrite append_nil_r|]. split.
    + unfold is_char_boundary. destruct (Nat.eqb _ 0); [done|].
      assert (String.get (String.length detail) detail = None) as ->; [|by apply Nat.eqb_eq].
      clear E. induction detail as [|a detail IH]; simpl; [done|exact IH].
    + intros i Hi Hl. lia.
Qed.

(** ** Every configured program is reported *)

Lemma plan_entries_flags ctx config s configured opted_out providers ap :
  let flags e := pe_configured e = bool_decide (pe_program e ∈ configured) /\
                 pe_opted_out e = bool_decide (pe_program e ∈ opted_out) in
  (forall e, e ∈ ap_entries ap -> flags e) ->
  forall e, e ∈ ap_entries (fold_left (plan_entry ctx config s configured opted_out) providers ap) ->
  flags e.
Proof.
  intros flags. revert ap. induction providers as [|p providers IH]; intros ap Hap; [done|].
  simpl. apply IH. intros e. unfold plan_entry.
  destruct (provider_plan p ctx config s) as [own|error].
  2: { simpl. intros [He| ->%list_elem_of_singleton]%elem_of_app; [by apply Hap|done]. }
  destruct (append_attributed own (ap_plan ap)) as [[u|[error q]] pl]; simpl.
  - intros [He| ->%list_elem_of_singleton]%elem_of_app; [by apply Hap|done].
  - intros [He| ->%list_elem_of_singleton]%elem_of_app; [|done].
    apply list_elem_of_fmap in He as (x & -> & Hx). apply Hap in Hx. unfold flags in *.
    unfold fail_sharing. by destruct (_ && _).
Qed.

Lemma entry_outcome_program stop b e o :
  entry_outcome stop b e = Some o -> po_program o = pe_program e.
Proof.
  unfold entry_outcome. intros ([st d] & _ & ->)%fmap_Some. done.
Qed.

Lemma reported_programs stop b l :
  map po_program (filter_map (entry_outcome stop b) l) `sublist_of` map pe_program l.
Proof.
  induction l as [|e l IH]; simpl; [constructor|].
  destruct (entry_outcome stop b e) as [o|] eqn:E; simpl; [|by apply sublist_cons].
  rewrite (entry_outcome_program _ _ _ _ E). by apply sublist_skip.
Qed.
Lemma reported_detail stop b e o : entry_outcome stop b e = Some o ->
  (String.length (po_detail o) <= DETAIL_LIMIT)%nat.
Proof.
  unfold entry_outcome. intros ([st d] & _ & ->)%fmap_Some. simpl. unfold truncate_detail.
  destruct (Nat.ltb DETAIL_LIMIT (String.length d)) eqn:E; [|by apply Nat.ltb_ge in E].
  apply Nat.ltb_lt in E. destruct (char_boundary_below_spec d DETAIL_LIMIT) as [Hle _].
  destruct (substring_prefix (char_boundary_below d DETAIL_LIMIT) d) as (rest & _ & Hl); lia.
Qed.

Lemma entry_outcome_reported stop b e :
  pe_configured e = true \/ pe_opted_out e = true -> is_Some (entry_outcome stop b e).
Proof.
  intros H. unfold entry_outcome. destruct (pe_failed e); [by eexists|].
  destruct (match stop with StopFailed _ _ _ _ => _ | _ => _ end); [by eexists|].
  destruct (has_conflict e); [by eexists|]. apply fmap_is_Some. unfold settled.
  destruct (pe_changes e), (written stop e), (pe_inactive e), (pe_opted_out e), (pe_configured e);
    simpl; try (by eexists); by destruct H.
Qed.

(** The report covers every configured program: its programs are providers,
    in registration order, and each provider the configuration names is there,
    whatever happened. *)
Theorem report_covers_configured rng r config s report res s' :
  attributed_apply rng (plan_with_report r config s) s = (report, res, s') ->
  map po_program (ar_programs report) `sublist_of` map provider_id (rc_providers r) /\
  forall p, p ∈ rc_providers r -> provider_id p ∈ configured_programs (dm_programs config) ->
    provider_id p ∈ map po_program (ar_programs report).
Proof.
  unfold attributed_apply. set (ap := plan_with_report r config s).
  pose proof (plan_with_report_attributed r config s) as Hap. fold ap in Hap.
  destruct (run_plan rng ap s) as [[res0 stop] s0] eqn:Hrun. intros [= <- _ _]. simpl.
  set (b := blocked_by stop (ap_entries ap)). split.
  - rewrite <- (at_ids _ _ Hap). apply reported_programs.
  - intros p Hp Hconf.
    assert (provider_id p ∈ map pe_program (ap_entries ap)) as Hin.
    { rewrite (at_ids _ _ Hap). by apply list_elem_of_fmap_2. }
    apply list_elem_of_fmap in Hin as (e & Heq & He).
    assert (pe_configured e = true \/ pe_opted_out e = true) as Hflag.
    { unfold ap, plan_with_report in He. pose proof (program_choice_split config (rc_choice r)) as Hsplit.
      destruct (apply_program_choice config (rc_choice r)) as [chosen out].
      destruct (plan_entries_flags (rc_context r) chosen s (configured_programs (dm_programs chosen)) out
                  (rc_providers r) empty_attributed) with (e := e) as [-> ->];
        [intros x Hx; by apply not_elem_of_nil in Hx|done|].
      rewrite <- Heq. rewrite !bool_decide_eq_true. by apply Hsplit. }
    destruct (entry_outcome_reported stop b e Hflag) as [o Ho].
    rewrite Heq, <- (entry_outcome_program _ _ _ _ Ho). apply list_elem_of_fmap_2.
    by eapply in_report.
Qed.

(** ** When two reports differ *)

Lemma find_program (l : list (string * ProgramState * string)) k :
  NoDup (map key_program l) -> k ∈ l ->
  find (fun before => String.eqb (key_program before) (key_program k)) l = Some k.
Proof.
  induction l as [|x l IH]; intros Hnd Hk; [by apply not_elem_of_nil in Hk|].
  apply NoDup_cons in Hnd as [Hx Hnd]. simpl.
  apply elem_of_cons in Hk as [->|Hk]; [by rewrite String.eqb_refl|].
  destruct (String.eqb (key_program x) (key_program k)) eqn:E; [|by apply IH].
  exfalso. apply Hx. apply String.eqb_eq in E. rewrite E. by apply list_elem_of_fmap_2.
Qed.

Lemma outcomes_differ_false previous current :
  NoDup (map key_program previous) ->
  (outcomes_differ previous current = false <->
   (forall now, now ∈ current -> exists before, before ∈ previous /\
      key_program before = key_program now /\ (settles (key_state before) (key_state now) = true \/ now = before)) /\
   (forall before, before ∈ previous -> key_state before = Removed \/
      key_program before ∈ map key_program current)).
Proof.
  intros Hnd. unfold outcomes_differ. rewrite orb_false_iff, !any_false. apply and_iff_both.
  - split; intros H now Hnow.
    + specialize (H now Hnow). destruct (find _ previous) as [before|] eqn:Ef; [|done].
      apply find_some in Ef as [Hin Heq%String.eqb_eq]. exists before. split; [done|]. split; [done|].
      destruct (settles (key_state before) (key_state now)); [by left|right]. simpl in H.
      apply orb_false_iff in H as [H1%negb_false_iff%bool_decide_eq_true H2%negb_false_iff%String.eqb_eq].
      destruct now as [[] ?], before as [[] ?]. unfold key_program, key_state, key_detail in *. simpl in *. congruence.
    + destruct (H now Hnow) as (before & Hin & Heq & Hs). rewrite <- Heq, (find_program _ _ Hnd Hin).
      destruct Hs as [->| ->]; [done|]. rewrite bool_decide_true, String.eqb_refl by done.
      by rewrite andb_false_r.
  - split; intros H before Hb.
    + specialize (H before Hb). apply andb_false_iff in H as [H%negb_false_iff|H%negb_false_iff].
      * left. by apply bool_decide_eq_true in H.
      * right. apply any_true in H as (now & Hn & He%String.eqb_eq). rewrite <- He. by apply list_elem_of_fmap_2.
    + apply andb_false_iff. destruct (H before Hb) as [Hr|Hin].
      * left. by rewrite bool_decide_true.
      * right. apply negb_false_iff, any_true. apply list_elem_of_fmap in Hin as (now & He & Hn).
        exists now. split; [done|]. rewrite He. apply String.eqb_refl.
Qed.

(** Two outcome lists do not differ exactly when every program of the new one
    either has the state and detail it had or has settled (applied or removed, and
    now unchanged), and every program that is gone had been removed. In
    particular a report does not differ from itself. *)
Theorem outcomes_differ_spec previous current :
  NoDup (map key_program previous) ->
  (outcomes_differ previous current = false <->
   (forall now, now ∈ current -> exists before, before ∈ previous /\
      key_program before = key_program now /\ (settles (key_state before) (key_state now) = true \/ now = before)) /\
   (forall before, before ∈ previous -> key_state before = Removed \/
      key_program before ∈ map key_program current)).
Proof. apply outcomes_differ_false. Qed.

(** ** Sequence numbers *)

(** The reports of applies that took the lock one after another. *)
Fixpoint apply_each (rng : nat -> nat -> nat -> Z) (configs : list DaemonConfig) (r : Reconciler)
    (s : fs) : list ApplyReport * Reconciler * fs :=
  match configs with
  | [] => ([], r, s)
  | config :: configs =>
      let '(out, r', s') := apply_with_report (rng (length configs)) config r s in
      let '(reports, r'', s'') := apply_each rng configs r' s' in
      (match out with Some (report, _) => report :: reports | None => reports end, r'', s'')
  end.

Definition sequence_of (r : Reconciler) : Z :=
  match rc_last_apply r with Some report => ar_sequence report | None => 0 end.

Lemma apply_with_report_sequence rng config r s :
  exists report res s',
    apply_with_report rng config r s =
      (Some (report, res), {| rc_context := rc_context r; rc_providers := rc_providers r;
                              rc_last_apply := Some report; rc_choice := rc_choice r |}, s') /\
    ar_sequence report = u64_wrapping_add (sequence_of r) 1.
Proof.
  unfold apply_with_report, apply_read_under_lock, sequence_of.
  destruct (attributed_apply rng (plan_with_report r config s) s) as [[report res] s'].
  eexists _, _, _. split; [reflexivity|done].
Qed.

(** Applies are numbered by the order in which they take the lock: a run of
    applies reports consecutive sequence numbers after the reconciler's last one,
    the reconciler remembers the last of them, and the choice and the providers are
    untouched. *)
Theorem applies_are_numbered rng configs r s reports r' s' :
  apply_each rng configs r s = (reports, r', s') ->
  0 <= sequence_of r -> sequence_of r + Z.of_nat (length configs) <= U64_MAX ->
  map ar_sequence reports = map (fun i => sequence_of r + Z.of_nat i) (seq 1 (length configs)) /\
  sequence_of r' = sequence_of r + Z.of_nat (length configs) /\
  rc_choice r' = rc_choice r /\ rc_providers r' = rc_providers r.
Proof.
  revert r s reports. induction configs as [|config configs IH]; intros r s reports; simpl.
  { intros [= <- <- <-] _ _. split; [done|]. split; [lia|done]. }
  destruct (apply_with_report_sequence (rng (length configs)) config r s)
    as (report & res & s1 & -> & Hseq).
  destruct (apply_each rng configs _ s1) as [[reports1 r2] s2] eqn:E.
  intros [= <- -> ->] H0 Hmax.
  assert (ar_sequence report = sequence_of r + 1) as Hs
    by (rewrite Hseq; apply u64_wrapping_add_exact; unfold U64_MAX in *; lia).
  apply IH in E as (Hm & Hl & Hc & Hp); unfold sequence_of in *; simpl in *; [|lia|lia].
  split; [|split; [lia|done]]. simpl. f_equal; [lia|]. rewrite Hm, Hs. rewrite <- (seq_shift _ 1), map_map.
  apply map_ext. intros i. lia.
Qed.

(** ** Concrete runs *)

(** A provider that owns the files it writes. *)
Definition writer (id : string) (ws : list (path * string * Z)) : Provider :=
  {| provider_id := id;
     provider_plan := fun _ _ s =>
       match plan_writes s ws default_plan with (Ok _, pl) => Ok pl | (Err e, _) => Err e end |}.
#[global] Instance writer_laws id ws : ProviderLaws (writer id ws).
Proof.
  split. intros ctx config s pl. simpl. destruct (plan_writes s ws default_plan) as [[u|e] pl'] eqn:E; [|done].
  intros [= <-]. by apply plan_writes_spec in E as [Hf _].
Qed.

Definition demo_context : ReconcileContext :=
  {| merge_user_settings := true; user_mode := true; credential_helper := home "helper";
     socket := home "socket"; llm_proxy := None |}.
Definition demo_reconciler (providers : list Provider) : Reconciler :=
  {| rc_context := demo_context; rc_providers := providers; rc_last_apply := None;
     rc_choice := AllPrograms |}.
Definition two_writers : Reconciler :=
  demo_reconciler [writer "claude-code" [(home "a.json", "new", 420)];
                   writer "copilot" [(home "b.json", "{}", 384)]].
Definition clashing : Reconciler :=
  demo_reconciler [writer "claude-code" [(home "a.json", "new", 420)];
                   writer "copilot" [(home "a.json", "{}", 384)]].
Definition run (r : Reconciler) (s : fs) : ApplyReport * result unit string * fs :=
  attributed_apply demo_rng (plan_with_report r demo_daemon s) s.
Lemma run_eq r s :
  attributed_apply demo_rng (plan_with_report r demo_daemon s) s =
  (fst (fst (run r s)), snd (fst (run r s)), snd (run r s)).
Proof. unfold run. by destruct (attributed_apply _ _ _) as [[report res] s']. Qed.

(** The second write fails: the first program is applied, the second failed. *)
Example run_stopped :
  map (fun o => (po_program o, as_str (po_state o)))
    (ar_programs (fst (fst (run two_writers (demo_fs (deny_rename (home "b.json")))))))
  = [("claude-code", "applied"); ("copilot", "failed")].
Proof. vm_compute. reflexivity. Qed.

Lemma refused_reconciliation_changes_nothing_witness :
  snd (run clashing (demo_fs no_fault)) = demo_fs no_fault /\
  is_ok (snd (fst (run clashing (demo_fs no_fault)))) = false /\
  forall o, o ∈ ar_programs (fst (fst (run clashing (demo_fs no_fault)))) ->
    touched (po_state o) = false.
Proof.
  refine (refused_reconciliation_changes_nothing demo_rng clashing demo_daemon (demo_fs no_fault)
    _ _ _ (run_eq _ _) _).
  left. vm_compute. eexists. reflexivity.
Defined.

Lemma touched_programs_are_written_witness :
  let s := demo_fs (deny_rename (home "b.json")) in
  let chosen := fst (apply_program_choice demo_daemon (rc_choice two_writers)) in
  (Applied = Applied <-> "claude-code" ∈ configured_programs (dm_programs chosen)) /\
  exists p own, p ∈ rc_providers two_writers /\ provider_id p = "claude-code" /\
    provider_plan p (rc_context two_writers) chosen s = Ok own /\
    forall c, c ∈ operations own ->
      is_Some (fc_contents c) \/ snd (fst (run two_writers s)) = Ok tt ->
      change_done (snd (run two_writers s)) c.
Proof.
  refine (touched_programs_are_written demo_rng two_writers demo_daemon
    (demo_fs (deny_rename (home "b.json"))) _ _ _ (run_eq _ _) (outcome "claude-code" Applied "") _ _).
  - assert (ar_programs (fst (fst (run two_writers (demo_fs (deny_rename (home "b.json")))))) !! 0%nat
            = Some (outcome "claude-code" Applied "")) as H by (vm_compute; reflexivity).
    exact (list_elem_of_lookup_2 _ _ _ H).
  - by left.
Defined.

Lemma successful_reconciliation_is_complete_witness :
  let s := demo_fs no_fault in
  let ap := plan_with_report two_writers demo_daemon s in
  (forall c, c ∈ operations (ap_plan ap) -> change_done (snd (run two_writers s)) c) /\
  frame (map fc_path (operations (ap_plan ap))) s (snd (run two_writers s)) /\
  forall o, o ∈ ar_programs (fst (fst (run two_writers s))) -> unsettled (po_state o) = false.
Proof.
  assert (snd (fst (run two_writers (demo_fs no_fault))) = Ok tt) as H by (vm_compute; reflexivity).
  pose proof (run_eq two_writers (demo_fs no_fault)) as E. rewrite H in E.
  exact (successful_reconciliation_is_complete demo_rng two_writers demo_daemon (demo_fs no_fault) _ _ E).
Defined.

Lemma failed_reconciliation_has_culprit_witness :
  exists o, o ∈ ar_programs (fst (fst (run clashing (demo_fs no_fault)))) /\
    (po_state o = Failed \/ po_state o = Conflicted).
Proof.
  refine (failed_reconciliation_has_culprit demo_rng clashing demo_daemon (demo_fs no_fault)
    _ _ _ (run_eq _ _) _ _).
  - vm_compute. reflexivity.
  - intros e d s1 H. apply apply_tracked_stop in H.
    assert (private_dirs (ap_plan (plan_with_report clashing demo_daemon (demo_fs no_fault))) = []) as E
      by (vm_compute; reflexivity).
    rewrite E in H. by apply not_elem_of_nil in H.
Defined.

Lemma report_covers_configured_witness :
  map po_program (ar_programs (fst (fst (run two_writers (demo_fs no_fault)))))
    `sublist_of` map provider_id (rc_providers two_writers) /\
  forall p, p ∈ rc_providers two_writers ->
    provider_id p ∈ configured_programs (dm_programs demo_daemon) ->
    provider_id p ∈ map po_program (ar_programs (fst (fst (run two_writers (demo_fs no_fault))))).
Proof.
  exact (report_covers_configured demo_rng two_writers demo_daemon (demo_fs no_fault) _ _ _
    (run_eq _ _)).
Defined.

Lemma outcomes_differ_spec_witness :
  let previous := [("codex", Applied, "")] in
  let current := [("codex", Unchanged, "")] in
  outcomes_differ previous current = false <->
   (forall now, now ∈ current -> exists before, before ∈ previous /\
      key_program before = key_program now /\
      (settles (key_state before) (key_state now) = true \/ now = before)) /\
   (forall before, before ∈ previous -> key_state before = Removed \/
      key_program before ∈ map key_program current).
Proof.
  refine (outcomes_differ_spec [("codex", Applied, "")] [("codex", Unchanged, "")] _).
  apply NoDup_singleton.
Defined.

Definition numbered : list ApplyReport * Reconciler * fs :=
  apply_each (fun _ => demo_rng) [demo_daemon; demo_daemon] two_writers (demo_fs no_fault).
Lemma numbered_eq :
  apply_each (fun _ => demo_rng) [demo_daemon; demo_daemon] two_writers (demo_fs no_fault)
  = (fst (fst numbered), snd (fst numbered), snd numbered).
Proof. unfold numbered. by destruct (apply_each _ _ _ _) as [[reports r'] s']. Qed.

Lemma applies_are_numbered_witness :
  map ar_sequence (fst (fst numbered)) = map (fun i => 0 + Z.of_nat i) (seq 1 2) /\
  sequence_of (snd (fst numbered)) = 0 + 2 /\
  rc_choice (snd (fst numbered)) = rc_choice two_writers /\
  rc_providers (snd (fst numbered)) = rc_providers two_writers.
Proof.
  refine (applies_are_numbered (fun _ => demo_rng) [demo_daemon; demo_daemon] two_writers
    (demo_fs no_fault) _ _ _ numbered_eq _ _); done.
Defined.
