(* ===== verification/Tick.v ===== *)
(** * Periodic re-apply ([crates/agent/src/tick.rs])

    The current configuration is re-applied every interval, and also when the
    user changes the program choice ([api.rs]); each outcome is published to the
    connection loop after the apply lock is released, so publishing can happen
    out of apply order. The interleavings are a step relation. *)

From S2P Require Import Prelude Str Fs Plan Config Reconcile.

(** ** Data *)

Record CurrentConfig : Type := {
  cur_revision : option Z;
  cur_config : DaemonConfig;
}.

Record TickStatus : Type := {
  ts_revision : option Z;
  ts_report : ApplyReport;
  ts_error : option string;
}.
Definition ts_sequence (st : TickStatus) : Z := ar_sequence (ts_report st).

(** ** Operations *)

(** [publish]: what the channel holds after [send_if_modified]. *)
Definition publish (channel : option TickStatus) (status : TickStatus) : option TickStatus :=
  if is_some_and (fun current => ts_sequence status <? ts_sequence current) channel
  then channel
  else Some status.

(** [apply_current]: the configuration is read once the lock is held. *)
Definition apply_current (rng : nat -> nat -> Z) (latest : option CurrentConfig)
    (r : Reconciler) (s : fs)
  : option (option Z * option ApplyReport * ApplyReport * result unit string) * Reconciler * fs :=
  apply_read_under_lock rng
    ((fun current => (cur_revision current, cur_config current)) <$> latest) r s.

Definition status_of (revision : option Z) (report : ApplyReport) (res : result unit string)
  : TickStatus :=
  {| ts_revision := revision; ts_report := report;
     ts_error := match res with Ok _ => None | Err e => Some e end |}.

(** What the loop of [run_tick_with] waits for. *)
Inductive tick_event : Type :=
| Elapsed
| CurrentChanged
| SenderDropped.

(** One turn of the loop, with the snapshot the tick wakes up with and the
    configuration [apply_current] then reads; [None] ends the loop. *)
Definition tick_turn (rng : nat -> nat -> Z) (event : tick_event)
    (snapshot latest : option CurrentConfig) (statuses : option (option TickStatus))
    (r : Reconciler) (s : fs) : option (option (option TickStatus) * Reconciler * fs) :=
  match event with
  | SenderDropped => None
  | CurrentChanged => Some (statuses, r, s)
  | Elapsed =>
      match snapshot with
      | None => Some (statuses, r, s)
      | Some _ =>
          match apply_current rng latest r s with
          | (None, r', s') => Some (statuses, r', s')
          | (Some (revision, _, report, res), r', s') =>
              Some ((fun channel => publish channel (status_of revision report res)) <$> statuses, r', s')
          end
      end
  end.

(** [run_tick]: a zero interval is not scheduled. *)
Fixpoint run_ticks (rng : nat -> nat -> nat -> Z)
    (events : list (tick_event * option CurrentConfig * option CurrentConfig))
    (statuses : option (option TickStatus)) (r : Reconciler) (s : fs)
  : option (option TickStatus) * Reconciler * fs :=
  match events with
  | [] => (statuses, r, s)
  | (event, snapshot, latest) :: events =>
      match tick_turn (rng (length events)) event snapshot latest statuses r s with
      | None => (statuses, r, s)
      | Some (statuses', r', s') => run_ticks rng events statuses' r' s'
      end
  end.
Definition run_tick (interval : Z) (rng : nat -> nat -> nat -> Z)
    (events : list (tick_event * option CurrentConfig * option CurrentConfig))
    (statuses : option (option TickStatus)) (r : Reconciler) (s : fs)
  : option (option TickStatus) * Reconciler * fs :=
  if interval =? 0 then (statuses, r, s) else run_ticks rng events statuses r s.

(** ** Interleavings

    The daemon's view of the channel: applies take the lock one at a time; an
    outcome is in flight from the release of the lock until it is published. The
    pushes of the connection loop apply without publishing here. [published] and
    [applied] are ghost histories, in order. *)
Record system : Type := {
  sy_current : option CurrentConfig;
  sy_reconciler : Reconciler;
  sy_fs : fs;
  sy_in_flight : list TickStatus;
  sy_channel : option TickStatus;
  sy_published : list TickStatus;
  sy_applied : list TickStatus;
}.

Inductive sys_step : system -> system -> Prop :=
| step_configure sy current :
    sys_step sy
      {| sy_current := current; sy_reconciler := sy_reconciler sy; sy_fs := sy_fs sy;
         sy_in_flight := sy_in_flight sy; sy_channel := sy_channel sy;
         sy_published := sy_published sy; sy_applied := sy_applied sy |}
| step_apply sy rng revision previous report res r' s' :
    sequence_of (sy_reconciler sy) < U64_MAX ->
    apply_current rng (sy_current sy) (sy_reconciler sy) (sy_fs sy) =
      (Some (revision, previous, report, res), r', s') ->
    sys_step sy
      {| sy_current := sy_current sy; sy_reconciler := r'; sy_fs := s';
         sy_in_flight := sy_in_flight sy ++ [status_of revision report res];
         sy_channel := sy_channel sy; sy_published := sy_published sy;
         sy_applied := sy_applied sy ++ [status_of revision report res] |}
| step_push sy rng config report res r' s' :
    sequence_of (sy_reconciler sy) < U64_MAX ->
    apply_with_report rng config (sy_reconciler sy) (sy_fs sy) = (Some (report, res), r', s') ->
    sys_step sy
      {| sy_current := sy_current sy; sy_reconciler := r'; sy_fs := s';
         sy_in_flight := sy_in_flight sy; sy_channel := sy_channel sy;
         sy_published := sy_published sy; sy_applied := sy_applied sy |}
| step_publish sy l1 status l2 :
    sy_in_flight sy = (l1 ++ status :: l2)%list ->
    sys_step sy
      {| sy_current := sy_current sy; sy_reconciler := sy_reconciler sy; sy_fs := sy_fs sy;
         sy_in_flight := l1 ++ l2; sy_channel := publish (sy_channel sy) status;
         sy_published := sy_published sy ++ [status]; sy_applied := sy_applied sy |}
| step_touch sy s' :
    sys_step sy
      {| sy_current := sy_current sy; sy_reconciler := sy_reconciler sy; sy_fs := s';
         sy_in_flight := sy_in_flight sy; sy_channel := sy_channel sy;
         sy_published := sy_published sy; sy_applied := sy_applied sy |}.

Definition started (current : option CurrentConfig) (r : Reconciler) (s : fs) : system :=
  {| sy_current := current; sy_reconciler := r; sy_fs := s; sy_in_flight := [];
     sy_channel := None; sy_published := []; sy_applied := [] |}.

Inductive reachable (start : system) : system -> Prop :=
| reach_start : reachable start start
| reach_step sy sy' : reachable start sy -> sys_step sy sy' -> reachable start sy'.

(** ** The channel's invariant *)

Record channel_inv (sy : system) : Prop := {
  ci_partition : sy_applied sy ≡ₚ (sy_published sy ++ sy_in_flight sy)%list;
  ci_increasing : StronglySorted (fun a b => ts_sequence a < ts_sequence b) (sy_applied sy);
  ci_bound st : st ∈ sy_applied sy -> ts_sequence st <= sequence_of (sy_reconciler sy);
  ci_nonneg : 0 <= sequence_of (sy_reconciler sy);
  ci_channel : match sy_channel sy with
               | None => sy_published sy = []
               | Some st => st ∈ sy_published sy /\
                            forall st', st' ∈ sy_published sy -> ts_sequence st' <= ts_sequence st
               end;
}.

Lemma publish_spec channel status published :
  match channel with
  | None => published = []
  | Some st => st ∈ published /\ forall st', st' ∈ published -> ts_sequence st' <= ts_sequence st
  end ->
  match publish channel status with
  | None => False
  | Some st => st ∈ published ++ [status] /\
               forall st', st' ∈ published ++ [status] -> ts_sequence st' <= ts_sequence st
  end.
Proof.
  unfold publish. destruct channel as [st|]; simpl.
  - intros [Hin Hmax]. destruct (ts_sequence status <? ts_sequence st) eqn:E;
      (split; [apply elem_of_app; rewrite ?list_elem_of_singleton; auto|]);
      intros st' [H|H%list_elem_of_singleton]%elem_of_app; subst;
      try (specialize (Hmax _ H)); lia.
  - intros ->. simpl. split; [apply list_elem_of_here|]. intros st' ->%list_elem_of_singleton. lia.
Qed.

Lemma StronglySorted_snoc {A} (R : A -> A -> Prop) l x :
  StronglySorted R l -> (forall y, y ∈ l -> R y x) -> StronglySorted R (l ++ [x])%list.
Proof.
  induction 1 as [|y l Hs IH Hy]; intros Hx; simpl.
  - repeat constructor.
  - constructor.
    + apply IH. intros z Hz. apply Hx. by apply list_elem_of_further.
    + apply Forall_app. split; [done|]. constructor; [|constructor]. apply Hx, list_elem_of_here.
Qed.

Lemma apply_current_sequence rng latest r s revision previous report res r' s' :
  apply_current rng latest r s = (Some (revision, previous, report, res), r', s') ->
  0 <= sequence_of r < U64_MAX ->
  ar_sequence report = sequence_of r + 1 /\ sequence_of r' = sequence_of r + 1.
Proof.
  unfold apply_current, apply_read_under_lock. destruct latest as [current|]; [|done]. simpl.
  destruct (attributed_apply rng _ s) as [[report0 res0] s0].
  intros [= <- <- <- <- <- <-] Hb. unfold sequence_of at 2. simpl.
  fold (sequence_of r). rewrite u64_wrapping_add_exact by lia. done.
Qed.

Lemma sys_step_inv sy sy' : sys_step sy sy' -> channel_inv sy -> channel_inv sy'.
Proof.
  intros Hstep [Hp Hi Hb H0 Hc]. destruct Hstep; try by split.
  - apply apply_current_sequence in H1 as [Hr Hr']; [|done].
    change (ts_sequence (status_of revision report res) = sequence_of (sy_reconciler sy) + 1) in Hr.
    split; simpl; [by rewrite Hp, <- app_assoc| | |lia|done].
    + apply StronglySorted_snoc; [done|]. intros st Hst%Hb. lia.
    + intros st [Hst%Hb|Hst%list_elem_of_singleton]%elem_of_app; [lia|]. subst st. lia.
  - destruct (apply_with_report_sequence rng config (sy_reconciler sy) (sy_fs sy))
      as (report' & res' & s'' & E & Hs). rewrite E in H1. injection H1 as <- <- <- <-.
    rewrite u64_wrapping_add_exact in Hs by lia.
    split; simpl; try done; unfold sequence_of at 1; simpl; [intros st Hst%Hb|]; lia.
  - split; simpl; try done.
    + rewrite Hp, H. rewrite <- !app_assoc. simpl. by rewrite Permutation_middle.
    + pose proof (publish_spec _ status _ Hc) as Hpub. by destruct (publish _ _).
Qed.

Lemma reachable_inv start sy : channel_inv start -> reachable start sy -> channel_inv sy.
Proof. intros H. induction 1; [done|]. by eapply sys_step_inv. Qed.

(** Whatever the order in which outcomes are published, the channel never goes
    back to an earlier apply: in every reachable state it holds the published
    outcome of the latest apply, and once nothing is in flight that is the last
    apply of all, so the connection loop reports the files as they are. *)
Theorem channel_holds_latest current r s sy :
  0 <= sequence_of r ->
  reachable (started current r s) sy ->
  match sy_channel sy with
  | None => sy_published sy = []
  | Some st => st ∈ sy_published sy /\
               forall st', st' ∈ sy_published sy -> ts_sequence st' <= ts_sequence st
  end /\
  (sy_in_flight sy = [] -> sy_channel sy = last (sy_applied sy)).
Proof.
  intros H0 Hr. apply reachable_inv in Hr as [Hp Hi Hb Hn Hc].
  2: { split; simpl; [done|constructor| |done|done]. intros st Hst. by apply not_elem_of_nil in Hst. }
  split; [done|]. intros Hf. rewrite Hf, app_nil_r in Hp.
  destruct (sy_channel sy) as [st|].
  - destruct Hc as [Hin Hmax]. rewrite <- Hp in Hin. setoid_rewrite <- Hp in Hmax.
    clear Hp Hb. induction Hi as [|x l Hs IH Hx]; [by apply not_elem_of_nil in Hin|].
    destruct l as [|y l].
    { by apply list_elem_of_singleton in Hin as ->. }
    change (last (x :: y :: l)) with (last (y :: l)). apply IH.
    + apply elem_of_cons in Hin as [->|Hin]; [|done]. exfalso.
      apply Forall_inv in Hx. assert (ts_sequence y <= ts_sequence x); [|lia].
      apply Hmax. apply list_elem_of_further, list_elem_of_here.
    + intros st' Hst'. apply Hmax. by apply list_elem_of_further.
  - rewrite Hc in Hp. symmetry in Hp. apply Permutation_nil_l in Hp. by rewrite <- Hp.
Qed.

(** ** A concrete interleaving *)

Definition demo_current : CurrentConfig := {| cur_revision := Some 1; cur_config := demo_daemon |}.
Definition demo_start : system := started (Some demo_current) two_writers (demo_fs no_fault).

(** An apply and a publication, as functions. *)
Definition do_apply (sy : system) : system :=
  match apply_current demo_rng (sy_current sy) (sy_reconciler sy) (sy_fs sy) with
  | (Some (revision, _, report, res), r', s') =>
      {| sy_current := sy_current sy; sy_reconciler := r'; sy_fs := s';
         sy_in_flight := sy_in_flight sy ++ [status_of revision report res];
         sy_channel := sy_channel sy; sy_published := sy_published sy;
         sy_applied := sy_applied sy ++ [status_of revision report res] |}
  | _ => sy
  end.
Definition do_publish (i : nat) (sy : system) : system :=
  match sy_in_flight sy !! i with
  | Some status =>
      {| sy_current := sy_current sy; sy_reconciler := sy_reconciler sy; sy_fs := sy_fs sy;
         sy_in_flight := take i (sy_in_flight sy) ++ drop (S i) (sy_in_flight sy);
         sy_channel := publish (sy_channel sy) status;
         sy_published := sy_published sy ++ [status]; sy_applied := sy_applied sy |}
  | None => sy
  end.

Lemma do_apply_reachable start sy :
  reachable start sy -> sequence_of (sy_reconciler sy) < U64_MAX -> reachable start (do_apply sy).
Proof.
  intros Hr Hb. unfold do_apply.
  destruct (apply_current _ _ _ _) as [[[[[[revision previous] report] res]|] r'] s'] eqn:E; [|done].
  eapply reach_step; [exact Hr|]. by eapply step_apply.
Qed.
Lemma do_publish_reachable start sy i : reachable start sy -> reachable start (do_publish i sy).
Proof.
  intros Hr. unfold do_publish. destruct (sy_in_flight sy !! i) as [status|] eqn:E; [|done].
  eapply reach_step; [exact Hr|]. apply step_publish. symmetry. by apply take_drop_middle.
Qed.

(** Two applies, the second published first. *)
Definition out_of_order : system :=
  do_publish 0 (do_publish 1 (do_apply (do_apply demo_start))).

Lemma channel_holds_latest_witness :
  match sy_channel out_of_order with
  | None => sy_published out_of_order = []
  | Some st => st ∈ sy_published out_of_order /\
               forall st', st' ∈ sy_published out_of_order -> ts_sequence st' <= ts_sequence st
  end /\
  (sy_in_flight out_of_order = [] -> sy_channel out_of_order = last (sy_applied out_of_order)).
Proof.
  refine (channel_holds_latest (Some demo_current) two_writers (demo_fs no_fault) out_of_order _ _).
  - vm_compute. discriminate.
  - apply do_publish_reachable, do_publish_reachable, do_apply_reachable;
      [apply do_apply_reachable; [apply reach_start|vm_compute; reflexivity]|vm_compute; reflexivity].
Defined.

Example out_of_order_channel :
  (ts_sequence <$> sy_channel out_of_order, length (sy_in_flight out_of_order)) = (Some 2, 0%nat).
Proof. vm_compute. reflexivity. Qed.
