(* ===== verification/Remote.v ===== *)
(** * Configuration over the controller stream

    The part of the connection loop that handles a pushed configuration and the
    outcomes of re-applies ([crates/agent/src/remote.rs]), and the device user's
    program choice ([program_choice.rs] and [ProgramControl] of [api.rs]). The
    stream itself, inventory, telemetry and heartbeats are not modelled. SHA-256,
    the YAML reader and the sign-in are the environment's. *)

From S2P Require Import Prelude Str Json Codec Fs Plan Config Reconcile Tick.

(** ** Messages *)

(** A pushed [DaemonConfig] message. *)
Record PushedConfig : Type := {
  pc_revision : Z;
  pc_yaml : string;
  pc_sha256 : string;
}.

Inductive ConfigState : Type := StateApplied | StateFailed.
#[global] Instance ConfigState_eq_dec : EqDecision ConfigState.
Proof. solve_decision. Defined.

(** The state is the proto enum's number. *)
Record ProgramStatus : Type := {
  ps_program : string;
  ps_state : Z;
  ps_detail : string;
}.
#[global] Instance ProgramStatus_eq_dec : EqDecision ProgramStatus.
Proof. solve_decision. Defined.

Record ConfigStatus : Type := {
  cs_revision : Z;
  cs_state : ConfigState;
  cs_error : string;
  cs_programs : list ProgramStatus;
  cs_programs_reported : bool;
}.
#[global] Instance ConfigStatus_eq_dec : EqDecision ConfigStatus.
Proof. solve_decision. Defined.

(** [program_state_proto]. *)
Definition program_state_proto (s : ProgramState) : Z :=
  match s with
  | Applied => 1 | Unchanged => 2 | Removed => 3 | Conflicted => 4 | Inactive => 5 | Blocked => 6
  | Failed => 7 | OptedOut => 8
  end.
(** [ProtoProgramState::try_from] and the match on it. *)
Definition program_state_of_proto (n : Z) : ProgramState :=
  if n =? 1 then Applied else if n =? 2 then Unchanged else if n =? 3 then Removed
  else if n =? 4 then Conflicted else if n =? 5 then Inactive else if n =? 6 then Blocked
  else if n =? 8 then OptedOut else Failed.

Definition program_statuses (r : ApplyReport) : list ProgramStatus :=
  map (fun o => {| ps_program := po_program o; ps_state := program_state_proto (po_state o);
                   ps_detail := po_detail o |}) (ar_programs r).
Definition status_keys (l : list ProgramStatus) : list (string * ProgramState * string) :=
  map (fun p => (ps_program p, program_state_of_proto (ps_state p), ps_detail p)) l.

Definition config_status (revision : Z) (programs : list ProgramStatus) (res : result unit string)
  : ConfigStatus :=
  let '(state, error) := match res with
                         | Ok _ => (StateApplied, "")
                         | Err error => (StateFailed, error)
                         end in
  {| cs_revision := revision; cs_state := state; cs_error := error; cs_programs := programs;
     cs_programs_reported := true |}.

Definition tick_result (tick : TickStatus) : result unit string :=
  match ts_error tick with Some e => Err e | None => Ok tt end.

Definition status_differs (last_sent status : ConfigStatus) : bool :=
  negb (bool_decide (cs_state last_sent = cs_state status))
  || negb (String.eqb (cs_error last_sent) (cs_error status))
  || outcomes_differ (status_keys (cs_programs last_sent)) (status_keys (cs_programs status)).

Definition tick_config_status (last_sent : option ConfigStatus) (stream_revision : option Z)
    (tick : TickStatus) : option ConfigStatus :=
  if is_none (ts_revision tick) || negb (bool_decide (ts_revision tick = stream_revision)) then None
  else
    let status := config_status (default 0 (ts_revision tick)) (program_statuses (ts_report tick))
                    (tick_result tick) in
    match last_sent with
    | None => Some status
    | Some last_sent => if status_differs last_sent status then Some status else None
    end.

(** ** Saving *)

Definition remote_config_path (state_dir : path) : path := path_join state_dir ["remote-config.yaml"].
Definition persist_config (rng : nat -> Z) (state_dir : path) (yaml : string) : ST fs string unit :=
  ensure_private_dir state_dir ;*
  atomic_write rng (remote_config_path state_dir) yaml 384.

(** ** The session *)

Record session : Type := {
  ss_stream_revision : option Z;
  ss_last_sent : option ConfigStatus;
  ss_pending_persist : option (Z * string);
}.
Definition connected : session :=
  {| ss_stream_revision := None; ss_last_sent := None; ss_pending_persist := None |}.

(** What the loop shares with the rest of the daemon; [dv_login] says whether a
    device sign-in has been started. *)
Record device : Type := {
  dv_current : option CurrentConfig;
  dv_reconciler : Reconciler;
  dv_fs : fs;
  dv_login : bool;
}.

Section with_environment.
Variable sha256 : string -> string.
Variable parse_url : string -> result Url string.
Variable daemon_from_str : string -> result DaemonConfig string.
Variable state_dir : path.

Definition parse_pushed_config (c : PushedConfig) : result DaemonConfig string :=
  if negb (String.eqb (sha256 (pc_yaml c)) (pc_sha256 c))
  then Err "configuration hash does not match payload"
  else if utf8_valid (pc_yaml c) then parse_daemon parse_url daemon_from_str (pc_yaml c)
  else Err (context "configuration is not UTF-8" "invalid utf-8 sequence").

Definition replace_current_config (c : PushedConfig) (current : option CurrentConfig)
  : result DaemonConfig string * option CurrentConfig :=
  match parse_pushed_config c with
  | Ok parsed => (Ok parsed, Some {| cur_revision := Some (pc_revision c); cur_config := parsed |})
  | Err e => (Err e, current)
  end.

(** [apply_parsed]. *)
Definition apply_parsed (rng : nat -> nat -> Z) (save_rng : nat -> Z) (c : PushedConfig)
    (parsed : result DaemonConfig string) (dv : device) : ConfigStatus * device :=
  match parsed with
  | Err e => (config_status (pc_revision c) [] (Err e), dv)
  | Ok config =>
      let '(out, r', s') := apply_with_report rng config (dv_reconciler dv) (dv_fs dv) in
      match out with
      | None => (config_status (pc_revision c) [] (Ok tt), dv)
      | Some (report, applied) =>
          let programs := program_statuses report in
          let dv' := {| dv_current := dv_current dv; dv_reconciler := r'; dv_fs := s';
                        dv_login := dv_login dv |} in
          match applied with
          | Err e => (config_status (pc_revision c) programs (Err e), dv')
          | Ok _ =>
              match persist_config save_rng state_dir (pc_yaml c) s' with
              | (Err e, s'') =>
                  (config_status (pc_revision c) programs (Err e),
                   {| dv_current := dv_current dv; dv_reconciler := r'; dv_fs := s'';
                      dv_login := dv_login dv |})
              | (Ok _, s'') =>
                  (config_status (pc_revision c) programs (Ok tt),
                   {| dv_current := dv_current dv; dv_reconciler := r'; dv_fs := s'';
                      dv_login := dv_login dv || gateway_sign_in_wanted r' config |})
              end
          end
      end
  end.

(** The [DaemonConfig] arm of the loop: the status is sent. *)
Definition handle_push (rng : nat -> nat -> Z) (save_rng : nat -> Z) (c : PushedConfig)
    (dv : device) (ss : session) : ConfigStatus * device * session :=
  let '(parsed, current) := replace_current_config c (dv_current dv) in
  let '(status, dv') :=
    apply_parsed rng save_rng c parsed
      {| dv_current := current; dv_reconciler := dv_reconciler dv; dv_fs := dv_fs dv;
         dv_login := dv_login dv |} in
  (status, dv',
   {| ss_stream_revision := Some (pc_revision c);
      ss_last_sent := Some status;
      ss_pending_persist :=
        if is_ok parsed && negb (is_empty (cs_error status))
        then Some (pc_revision c, pc_yaml c) else None |}).

(** The tick arm: a configuration whose apply failed earlier is saved once a
    re-apply of it succeeds; a failed save fails the tick. *)
Definition settle_pending (save_rng : nat -> Z) (tick : TickStatus) (s : fs) (ss : session)
  : TickStatus * option (Z * string) * fs :=
  if is_none (ts_error tick) && is_some (ts_revision tick)
     && bool_decide (ts_revision tick = ss_stream_revision ss)
  then match ss_pending_persist ss with
       | Some (revision, yaml) =>
           match persist_config save_rng state_dir yaml s with
           | (Ok _, s') => (tick, None, s')
           | (Err e, s') =>
               ({| ts_revision := ts_revision tick; ts_report := ts_report tick;
                   ts_error := Some e |}, Some (revision, yaml), s')
           end
       | None => (tick, None, s)
       end
  else (tick, ss_pending_persist ss, s).

Definition handle_tick (save_rng : nat -> Z) (tick : TickStatus) (dv : device) (ss : session)
  : option ConfigStatus * device * session :=
  let '(tick, pending, s') := settle_pending save_rng tick (dv_fs dv) ss in
  let sent := tick_config_status (ss_last_sent ss) (ss_stream_revision ss) tick in
  (sent,
   {| dv_current := dv_current dv; dv_reconciler := dv_reconciler dv; dv_fs := s';
      dv_login := dv_login dv |},
   {| ss_stream_revision := ss_stream_revision ss;
      ss_last_sent := match sent with Some status => Some status | None => ss_last_sent ss end;
      ss_pending_persist := pending |}).
End with_environment.

(** ** The program choice *)

(** [serde_json] on a [ProgramChoice]. *)
Class ChoiceCodec : Type := {
  choice_from_slice : string -> result ProgramChoice string;
  choice_to_vec_pretty : ProgramChoice -> string;
}.
Class ChoiceCodecLaws (C : ChoiceCodec) : Prop := {
  choice_roundtrip c : choice_from_slice (choice_to_vec_pretty c +:+ String "010" "") = Ok c;
}.

Definition choice_path (state_dir : path) : path := path_join state_dir ["program-choice.json"].

(** [{:?}] of a string of printable characters. *)
Definition quote : ascii := "034".
Fixpoint debug_escape (s : string) : string :=
  match s with
  | EmptyString => EmptyString
  | String a s =>
      if Ascii.eqb a quote then String "\" (String quote (debug_escape s))
      else if Ascii.eqb a "\" then String "\" (String "\" (debug_escape s))
      else String a (debug_escape s)
  end.
Definition debug_str (s : string) : string :=
  String quote (debug_escape s +:+ String quote "").

(** [program_choice::validate]. *)
Definition validate_choice (c : ProgramChoice) : result unit string :=
  match c with
  | Selected programs =>
      match find (fun p => negb (bool_decide (p ∈ MANAGED_PROGRAMS))) (set_iter programs) with
      | Some unknown => Err ("unknown program " +:+ debug_str unknown +:+ "; expected one of: "
                             +:+ join ", " MANAGED_PROGRAMS)
      | None => Ok tt
      end
  | _ => Ok tt
  end.

Inductive StatusCode : Type := BAD_REQUEST | FORBIDDEN | CONFLICT | INTERNAL_SERVER_ERROR.
#[global] Instance StatusCode_eq_dec : EqDecision StatusCode.
Proof. solve_decision. Defined.

Record ManagedProgram : Type := {
  mp_program : string;
  mp_managed : bool;
  mp_state : option string;
  mp_detail : string;
}.
Record ProgramManagement : Type := {
  pm_user_choice_allowed : bool;
  pm_choice : ProgramChoice;
  pm_programs : list ManagedProgram;
}.

Definition management (current : option CurrentConfig) (r : Reconciler) : ProgramManagement :=
  let choice := rc_choice r in
  match current with
  | None => {| pm_user_choice_allowed := false; pm_choice := choice; pm_programs := [] |}
  | Some current =>
      let config := cur_config current in
      let '(_, opted_out) := apply_program_choice config choice in
      {| pm_user_choice_allowed := allow_user_choice (dm_program_selection config);
         pm_choice := choice;
         pm_programs :=
           map (fun program =>
             let found := last_report r ≫= fun report =>
                            find (fun o => String.eqb (po_program o) program) (ar_programs report) in
             {| mp_program := program;
                mp_managed := negb (bool_decide (program ∈ opted_out));
                mp_state := (fun o => as_str (po_state o)) <$> found;
                mp_detail := default "" (po_detail <$> found) |})
             (configured_programs (dm_programs config)) |}
  end.

Section choice.
Context `{ChoiceCodec}.
Variable state_dir : path.

(** [program_choice::load] and [save]. *)
Definition load_choice (s : fs) : ProgramChoice :=
  match fs_read s (choice_path state_dir) with
  | Ok contents => match choice_from_slice contents with Ok c => c | Err _ => AllPrograms end
  | Err _ => AllPrograms
  end.
Definition save_choice (rng : nat -> Z) (c : ProgramChoice) : ST fs string unit :=
  ensure_private_dir state_dir ;*
  atomic_write rng (choice_path state_dir) (choice_to_vec_pretty c +:+ String "010" "") 384.

(** [ProgramControl::change], with the published channel. *)
Definition change_choice (rng : nat -> nat -> Z) (save_rng : nat -> Z) (choice : ProgramChoice)
    (channel : option (option TickStatus)) (dv : device)
  : result ProgramManagement (StatusCode * string) * option (option TickStatus) * device :=
  match validate_choice choice with
  | Err e => (Err (BAD_REQUEST, e), channel, dv)
  | Ok _ =>
      match (fun c => allow_user_choice (dm_program_selection (cur_config c))) <$> dv_current dv with
      | None =>
          (Err (CONFLICT, "this device has no configuration yet; choose once it has one"), channel, dv)
      | Some false =>
          (Err (FORBIDDEN, "this device's policy manages every configured program (programSelection.allowUserChoice is off)"),
           channel, dv)
      | Some true =>
          match save_choice save_rng choice (dv_fs dv) with
          | (Err e, s') =>
              (Err (INTERNAL_SERVER_ERROR, context "save program choice" e), channel,
               {| dv_current := dv_current dv; dv_reconciler := dv_reconciler dv; dv_fs := s';
                  dv_login := dv_login dv |})
          | (Ok _, s') =>
              let r := set_program_choice choice (dv_reconciler dv) in
              let '(out, r', s'') := apply_current rng (dv_current dv) r s' in
              let channel' :=
                match out with
                | Some (revision, _, report, res) =>
                    (fun ch => publish ch (status_of revision report res)) <$> channel
                | None => channel
                end in
              let login := is_some_and (fun c => gateway_sign_in_wanted r' (cur_config c))
                             (dv_current dv) in
              (Ok (management (dv_current dv) r'), channel',
               {| dv_current := dv_current dv; dv_reconciler := r'; dv_fs := s'';
                  dv_login := dv_login dv || login |})
          end
      end
  end.
End choice.

(** ** Laws *)

Lemma program_state_roundtrip s : program_state_of_proto (program_state_proto s) = s.
Proof. by destruct s. Qed.

Lemma status_keys_report r : status_keys (program_statuses r) = outcome_keys (ar_programs r).
Proof.
  unfold status_keys, program_statuses, outcome_keys. rewrite map_map. apply map_ext. intros o.
  simpl. by rewrite program_state_roundtrip.
Qed.

Lemma outcomes_differ_self l : NoDup (map key_program l) -> outcomes_differ l l = false.
Proof.
  intros Hnd. apply outcomes_differ_false; [done|]. split.
  - intros now Hn. exists now. auto.
  - intros before Hb. right. by apply list_elem_of_fmap_2.
Qed.

Lemma persist_config_files rng state_dir yaml s r s' :
  persist_config rng state_dir yaml s = (r, s') ->
  match r with
  | Ok _ => frame [remote_config_path state_dir] s s' /\
            file_at s' (remote_config_path state_dir) = Some (yaml, masked 384 s)
  | Err _ => file_at s' (remote_config_path state_dir) = file_at s (remote_config_path state_dir)
  end.
Proof.
  intros [(e & H & ->)|([] & s1 & H & H2)]%st_bind_inv; apply ensure_private_dir_frame in H as [He Hf].
  - apply Hf. set_solver.
  - apply atomic_write_files in H2 as [He2 H2]. destruct r as [u|e].
    + destruct H2 as [H2 H3]. split.
      * transitivity s1; [split; [done|intros q _; apply Hf; set_solver]|done].
      * rewrite H3. by rewrite (masked_same_env s s1).
    + rewrite H2 by (by left). apply Hf. set_solver.
Qed.

Section remote.
Variable sha256 : string -> string.
Variable parse_url : string -> result Url string.
Variable daemon_from_str : string -> result DaemonConfig string.
Variable state_dir : path.
Abbreviation handle_push := (handle_push sha256 parse_url daemon_from_str state_dir).
Abbreviation handle_tick := (handle_tick state_dir).
Abbreviation parse_pushed := (parse_pushed_config sha256 parse_url daemon_from_str).

(** A pushed configuration that fails its hash, is not UTF-8 or does not pass
    validation is answered with a failed status that names no program, and leaves
    everything as it is: the current configuration the reconcile tick uses, the
    reconciler, every file, and the sign-in. A configuration saved for later is
    dropped, since the stream has moved to the new revision. *)
Theorem rejected_push_changes_nothing rng save_rng c dv ss e :
  parse_pushed c = Err e ->
  handle_push rng save_rng c dv ss =
    ({| cs_revision := pc_revision c; cs_state := StateFailed; cs_error := e;
        cs_programs := []; cs_programs_reported := true |}, dv,
     {| ss_stream_revision := Some (pc_revision c);
        ss_last_sent := Some {| cs_revision := pc_revision c; cs_state := StateFailed;
                                cs_error := e; cs_programs := []; cs_programs_reported := true |};
        ss_pending_persist := None |}).
Proof.
  intros H. unfold Remote.handle_push, replace_current_config. rewrite H. simpl. by destruct dv.
Qed.

(** A re-apply as the tick arm sees it, with the device as the rest of the daemon has left
    it by then. *)
Record reapply : Type := { re_rng : nat -> Z; re_tick : TickStatus; re_device : device }.
Definition tick_arm (ss : session) (a : reapply) : option ConfigStatus * device * session :=
  handle_tick (re_rng a) (re_tick a) (re_device a) ss.
Definition after_reapplies (l : list reapply) (ss : session) : session :=
  fold_left (fun ss a => snd (tick_arm ss a)) l ss.
(** It applied the pushed revision without an error. *)
Definition succeeds (c : PushedConfig) (a : reapply) : Prop :=
  ts_error (re_tick a) = None /\ ts_revision (re_tick a) = Some (pc_revision c).
Definition saves (c : PushedConfig) (a : reapply) : result unit string :=
  fst (persist_config (re_rng a) state_dir (pc_yaml c) (dv_fs (re_device a))).

(** The configuration is kept for a re-apply, and the controller was last told that it
    failed. *)
Record kept_for_later (c : PushedConfig) (ss : session) : Prop := {
  kl_stream : ss_stream_revision ss = Some (pc_revision c);
  kl_pending : ss_pending_persist ss = Some (pc_revision c, pc_yaml c);
  kl_told : exists status, ss_last_sent ss = Some status /\ cs_state status = StateFailed;
}.
(** What the tick arm does with it: a successful re-apply saves exactly the pushed bytes
    where the daemon restores from at startup, and tells the controller that the revision
    is applied; if they cannot be saved, or the re-apply failed or was of another
    revision, it is kept and the controller is not told that it is applied. *)
Definition settles (c : PushedConfig) (ss : session) (a : reapply) : Prop :=
  let '(sent, dv', ss') := tick_arm ss a in
  dv_current dv' = dv_current (re_device a) /\
  (succeeds c a -> saves c a = Ok tt ->
     (exists m, file_at (dv_fs dv') (remote_config_path state_dir) = Some (pc_yaml c, m)) /\
     ss_pending_persist ss' = None /\ ss_last_sent ss' = sent /\
     exists status, sent = Some status /\ cs_state status = StateApplied /\ cs_revision status = pc_revision c) /\
  (~ (succeeds c a /\ saves c a = Ok tt) ->
     kept_for_later c ss' /\ (forall status, sent = Some status -> cs_state status = StateFailed) /\
     file_at (dv_fs dv') (remote_config_path state_dir)
     = file_at (dv_fs (re_device a)) (remote_config_path state_dir) /\
     (~ succeeds c a -> dv_fs dv' = dv_fs (re_device a))).

Lemma told_failed last revision tick programs e :
  tick_result tick = Err e -> cs_state last = StateFailed ->
  let sent := (if status_differs last (config_status revision programs (tick_result tick))
               then Some (config_status revision programs (tick_result tick)) else None) in
  (forall status, sent = Some status -> cs_state status = StateFailed) /\
  exists status, match sent with Some status => Some status | None => Some last end = Some status /\
    cs_state status = StateFailed.
Proof.
  intros -> Hl. simpl. destruct (status_differs _ _); split; [by intros ? [= <-]|by eexists|done|by exists last].
Qed.
Lemma tick_arm_settles c ss a : kept_for_later c ss -> settles c ss a.
Proof.
  intros [Hs Hp (last & Hlast & Hst)]. destruct a as [rng tick dv].
  unfold settles, tick_arm, Remote.handle_tick, settle_pending, succeeds, saves. simpl.
  rewrite Hs, Hp, Hlast.
  destruct (decide (ts_error tick = None /\ ts_revision tick = Some (pc_revision c))) as [[He Hr]|Hno].
  - rewrite He, Hr, bool_decide_eq_true_2 by done. simpl.
    destruct (persist_config rng state_dir (pc_yaml c) (dv_fs dv)) as [[[]|e] s'] eqn:E;
      apply persist_config_files in E; simpl; (split; [done|]); split.
    + intros _ _. unfold tick_config_status, status_differs, config_status, tick_result. rewrite Hr, He, Hst.
      rewrite (bool_decide_eq_true_2 (Some _ = Some _)) by done. simpl.
      destruct E as [_ E]. split; [by eexists|]. split; [done|]. split; [done|]. by eexists.
    + intros []. by split.
    + by intros _ ?.
    + intros _. unfold tick_config_status. simpl. rewrite ?Hr.
      rewrite (bool_decide_eq_true_2 (Some _ = Some _)) by done. simpl.
      destruct (told_failed last (pc_revision c)
        {| ts_revision := ts_revision tick; ts_report := ts_report tick; ts_error := Some e |}
        (program_statuses (ts_report tick)) e) as [H1 H2]; [done..|]. simpl in H1, H2.
      split; [by split|]. split; [exact H1|]. split; [done|]. intros []. by split.
  - replace (is_none (ts_error tick) && is_some (ts_revision tick) &&
             bool_decide (ts_revision tick = Some (pc_revision c))) with false.
    2: { symmetry. apply not_true_iff_false. intros [[H1 _]%andb_true_iff H2%bool_decide_eq_true]%andb_true_iff.
         apply Hno. by destruct (ts_error tick). }
    simpl. split; [done|]. split; [by intros ?|]. intros _. unfold tick_config_status.
    destruct (is_none (ts_revision tick) || _) eqn:Hrev; simpl.
    { split; [split; [done..|by exists last]|done]. }
    apply orb_false_iff in Hrev as [_ Hrev%negb_false_iff%bool_decide_eq_true].
    destruct (ts_error tick) as [e|] eqn:He; [|by destruct Hno].
    destruct (told_failed last (default 0 (ts_revision tick)) tick (program_statuses (ts_report tick)) e) as [H1 H2];
      [unfold tick_result; by rewrite He|done|].
    split; [by split|]. split; [exact H1|done].
Qed.

(** C30. An accepted configuration is not lost: after a push that passes its checks it is the
    current configuration, and either its apply succeeded, the status says so and the file
    the daemon restores at startup holds exactly its bytes, or the status is a failure (an
    error always has a message) and it is kept while the stream lasts and no other push
    comes. After any re-applies none of which succeeded at its revision and could be saved,
    whatever else the daemon did between them, the next one that does saves exactly the
    pushed bytes and tells the controller that the revision is applied; until then it is
    not told so, the saved file stays as it was, and a re-apply that fails writes nothing. *)
Theorem accepted_push_is_kept rng save_rng c dv ss config status dv' ss' :
  parse_pushed c = Ok config ->
  handle_push rng save_rng c dv ss = (status, dv', ss') ->
  (cs_state status = StateFailed -> cs_error status <> "") ->
  dv_current dv' = Some {| cur_revision := Some (pc_revision c); cur_config := config |} /\
  ss_stream_revision ss' = Some (pc_revision c) /\ ss_last_sent ss' = Some status /\
  (cs_state status = StateApplied /\ ss_pending_persist ss' = None /\
     (exists m, file_at (dv_fs dv') (remote_config_path state_dir) = Some (pc_yaml c, m)) \/
   cs_state status = StateFailed /\
     forall l, Forall (fun a => ~ (succeeds c a /\ saves c a = Ok tt)) l ->
       kept_for_later c (after_reapplies l ss') /\ forall a, settles c (after_reapplies l ss') a).
Proof.
  intros Hp Hpush Hmsg.
  assert (forall ss0 l, kept_for_later c ss0 -> Forall (fun a => ~ (succeeds c a /\ saves c a = Ok tt)) l ->
    kept_for_later c (after_reapplies l ss0)) as Hlater.
  { intros ss0 l. revert ss0. induction l as [|a l IH]; intros ss0 Hk Hl; [done|].
    apply Forall_cons in Hl as [Ha Hl]. simpl. apply IH; [|done].
    pose proof (tick_arm_settles c ss0 a Hk) as Hs. unfold settles in Hs.
    destruct (tick_arm ss0 a) as [[sent dv1] ss1]. by apply Hs. }
  assert (kept_for_later c ss' -> forall l, Forall (fun a => ~ (succeeds c a /\ saves c a = Ok tt)) l ->
    kept_for_later c (after_reapplies l ss') /\ forall a, settles c (after_reapplies l ss') a) as Hkept.
  { intros Hk l Hl. split; [by apply Hlater|]. intros a. by apply tick_arm_settles, Hlater. }
  clear Hlater. revert Hpush Hmsg. unfold Remote.handle_push, replace_current_config. rewrite Hp. unfold apply_parsed. simpl.
  destruct (apply_with_report_sequence rng config (dv_reconciler dv) (dv_fs dv))
    as (report & applied & s1 & -> & _).
  assert (forall e, (StateFailed = StateFailed -> e <> "") -> is_empty e = false) as Hne.
  { intros [|a e] He; [|done]. exfalso. by apply He. }
  assert (forall r p e, (StateFailed = StateFailed -> e <> "") ->
    kept_for_later c {| ss_stream_revision := Some (pc_revision c); ss_last_sent := Some (config_status r p (Err e));
      ss_pending_persist := if negb (is_empty e) then Some (pc_revision c, pc_yaml c) else None |}) as Hfail.
  { intros r p e He. rewrite (Hne e He). split; simpl; [done..|by eexists]. }
  destruct applied as [u|e].
  2: { simpl. intros [= <- <- <-] Hmsg. repeat (split; [done|]). right. split; [done|]. by apply Hkept, Hfail. }
  destruct (persist_config save_rng state_dir (pc_yaml c) s1) as [[u'|e] s2] eqn:E;
    apply persist_config_files in E; intros [= <- <- <-] Hmsg; simpl in *.
  - destruct E as [_ E]. repeat (split; [done|]). left. repeat (split; [done|]). by eexists.
  - repeat (split; [done|]). right. split; [done|]. by apply Hkept, Hfail.
Qed.

(** The revision a configuration is kept for is the stream's. *)
Definition pending_current (ss : session) : Prop :=
  forall revision yaml, ss_pending_persist ss = Some (revision, yaml) ->
    ss_stream_revision ss = Some revision.

Inductive session_step : device * session -> device * session -> Prop :=
| session_push rng save_rng c dv ss status dv' ss' :
    handle_push rng save_rng c dv ss = (status, dv', ss') -> session_step (dv, ss) (dv', ss')
| session_tick save_rng tick dv ss sent dv' ss' :
    handle_tick save_rng tick dv ss = (sent, dv', ss') -> session_step (dv, ss) (dv', ss')
| session_other dv dv' ss : session_step (dv, ss) (dv', ss).
Inductive session_reachable (dv0 : device) : device * session -> Prop :=
| session_start dv : session_reachable dv0 (dv, connected)
| session_next x y : session_reachable dv0 x -> session_step x y -> session_reachable dv0 y.

Lemma settle_pending_current save_rng tick s ss tick' pending s' :
  settle_pending state_dir save_rng tick s ss = (tick', pending, s') ->
  pending = None \/ pending = ss_pending_persist ss.
Proof.
  unfold settle_pending. destruct (_ && _ && _); [|intros [= <- <- <-]; by right].
  destruct (ss_pending_persist ss) as [[revision yaml]|]; [|intros [= <- <- <-]; by left].
  destruct (persist_config _ _ _ _) as [[u|e] s1]; intros [= <- <- <-]; auto.
Qed.

Lemma pending_current_reachable dv0 dv ss : session_reachable dv0 (dv, ss) -> pending_current ss.
Proof.
  intros H. remember (dv, ss) as x eqn:E. revert dv ss E.
  induction H as [dv1|x y Hx IH Hstep]; intros dv ss E.
  { injection E as -> <-. by intros revision yaml. }
  destruct Hstep as [rng save_rng c dv1 ss1 status dv' ss' H|save_rng tick dv1 ss1 sent dv' ss' H|dv1 dv' ss1];
    injection E as -> ->; specialize (IH _ _ eq_refl).
  - unfold Remote.handle_push in H. destruct (replace_current_config _ _ _ _ _) as [parsed cur].
    destruct (apply_parsed _ _ _ _ _ _) as [status' dv2]. injection H as <- <- <-.
    intros revision yaml. simpl. destruct (_ && _); by intros [= <- <-].
  - unfold Remote.handle_tick in H.
    destruct (settle_pending state_dir save_rng tick (dv_fs dv1) ss1) as [[tick' pending] s'] eqn:Es.
    injection H as <- <- <-. intros revision yaml. simpl. intros ->.
    apply settle_pending_current in Es as [|Es]; [done|]. by eapply IH.
  - done.
Qed.

(** A configuration is saved late only once it works: in every reachable
    session, a re-apply's outcome changes the file the daemon restores at startup
    only when that re-apply succeeded at the stream's revision, and then the file
    holds the bytes of that revision, kept since its push failed; if the save
    fails, the outcome is reported as a failure and the bytes are still kept. *)
Theorem late_save_is_current dv0 dv ss save_rng tick sent dv' ss' :
  session_reachable dv0 (dv, ss) ->
  handle_tick save_rng tick dv ss = (sent, dv', ss') ->
  file_at (dv_fs dv') (remote_config_path state_dir)
    <> file_at (dv_fs dv) (remote_config_path state_dir) ->
  exists revision yaml m,
    ts_error tick = None /\ ts_revision tick = Some revision /\
    ss_stream_revision ss = Some revision /\ ss_pending_persist ss = Some (revision, yaml) /\
    file_at (dv_fs dv') (remote_config_path state_dir) = Some (yaml, m) /\
    ss_pending_persist ss' = None.
Proof.
  intros Hr%pending_current_reachable. unfold Remote.handle_tick, settle_pending.
  destruct (_ && _ && _) eqn:Eg; [|by intros [= <- <- <-] ?].
  apply andb_true_iff in Eg as [[He Hrev]%andb_true_iff Heq%bool_decide_eq_true].
  destruct (ss_pending_persist ss) as [[revision yaml]|] eqn:Ep; [|by intros [= <- <- <-] ?].
  destruct (persist_config save_rng state_dir yaml (dv_fs dv)) as [[u|e] s1] eqn:E;
    apply persist_config_files in E; intros [= <- <- <-] Hne; simpl in *; [|done].
  destruct E as [_ E]. pose proof (Hr _ _ Ep) as Hs. exists revision, yaml. eexists.
  split; [by destruct (ts_error tick)|]. split; [congruence|]. split; [done|].
  split; [done|]. split; [exact E|done].
Qed.

(** An outcome is reported once: after a tick's status has been sent, the same
    outcome of a later tick at the same revision is not sent again, a failing one
    included. *)
Theorem outcome_reported_once last_sent revision tick status :
  NoDup (map po_program (ar_programs (ts_report tick))) ->
  tick_config_status last_sent revision tick = Some status ->
  tick_config_status (Some status) revision tick = None.
Proof.
  intros Hnd. unfold tick_config_status. destruct (_ || _); [done|]. intros H.
  assert (status = config_status (default 0 (ts_revision tick)) (program_statuses (ts_report tick))
                     (tick_result tick)) as ->.
  { destruct last_sent as [l|]; [destruct (status_differs l _)|]; by simplify_eq. }
  unfold status_differs. rewrite bool_decide_true, String.eqb_refl by done. simpl.
  unfold config_status. destruct (tick_result tick) as [u|e]; simpl;
    rewrite status_keys_report, outcomes_differ_self; try done;
    unfold outcome_keys; by rewrite map_map.
Qed.
End remote.

(** ** The choice *)

Section choice_laws.
Context `{C : ChoiceCodec} `{!ChoiceCodecLaws C}.
Variable state_dir : path.

Lemma save_choice_loads rng c s s' :
  fs_fault s CRead (choice_path state_dir) = None ->
  save_choice state_dir rng c s = (Ok tt, s') -> load_choice state_dir s' = c.
Proof.
  intros Hf [(e & _ & [=])|([] & s1 & H & H2)]%st_bind_inv. apply ensure_private_dir_frame in H as [[_ He] _].
  apply atomic_write_files in H2 as [[_ He2] [_ H2]]. unfold load_choice, fs_read, file_at in *.
  rewrite He2, He, Hf. destruct (nodes s' !! choice_path state_dir) as [[]|]; simplify_eq.
  by rewrite choice_roundtrip.
Qed.

Lemma validate_choice_ok c :
  validate_choice c = Ok tt <->
  forall programs, c = Selected programs -> forall p, p ∈ programs -> p ∈ MANAGED_PROGRAMS.
Proof.
  destruct c as [| |programs]; simpl; [by split|by split|]. rewrite find_ok. split.
  - intros H ps [= <-] p Hp. apply elem_of_set_iter in Hp. apply H in Hp.
    by apply negb_false_iff, bool_decide_eq_true in Hp.
  - intros H p Hp%elem_of_set_iter. apply negb_false_iff, bool_decide_eq_true. by eapply H.
Qed.

(** Changing the program choice is refused without effect when it names an
    unknown program, before there is a configuration, or while the policy does not
    allow a choice; a failed save changes neither the choice in force nor the
    stored one. When it is accepted, the choice stored on disk, which a restart
    loads, is the one in force, and the re-apply that follows uses it. *)
Theorem choice_change_consistent rng save_rng choice channel dv res channel' dv' :
  fs_fault (dv_fs dv) CRead (choice_path state_dir) = None ->
  change_choice state_dir rng save_rng choice channel dv = (res, channel', dv') ->
  match res with
  | Err (INTERNAL_SERVER_ERROR, _) =>
      dv_reconciler dv' = dv_reconciler dv /\ channel' = channel /\
      load_choice state_dir (dv_fs dv') = load_choice state_dir (dv_fs dv)
  | Err _ => dv' = dv /\ channel' = channel
  | Ok _ =>
      (forall programs, choice = Selected programs -> forall p, p ∈ programs -> p ∈ MANAGED_PROGRAMS) /\
      (exists current, dv_current dv = Some current /\
         allow_user_choice (dm_program_selection (cur_config current)) = true) /\
      rc_choice (dv_reconciler dv') = choice /\
      exists s1 out, load_choice state_dir s1 = choice /\
        apply_current rng (dv_current dv) (set_program_choice choice (dv_reconciler dv)) s1
          = (out, dv_reconciler dv', dv_fs dv')
  end.
Proof.
  intros Hf. unfold change_choice. destruct (validate_choice choice) as [[]|e] eqn:Ev.
  2: { by intros [= <- <- <-]. }
  destruct (dv_current dv) as [current|] eqn:Ec; simpl; [|by intros [= <- <- <-]].
  destruct (allow_user_choice _) eqn:Ea; [|by intros [= <- <- <-]].
  destruct (save_choice state_dir save_rng choice (dv_fs dv)) as [[[]|e] s1] eqn:Es.
  - destruct (apply_current rng (Some current) _ s1) as [[out r'] s2] eqn:E.
    intros [= <- <- <-]. split; [by apply validate_choice_ok|]. split; [by exists current|].
    simpl. split.
    + unfold apply_current, apply_read_under_lock in E. simpl in E.
      destruct (attributed_apply rng _ s1) as [[report res0] s3]. by injection E as <- <- <-.
    + exists s1, out. split; [by eapply save_choice_loads|done].
  - intros [= <- <- <-]. simpl. split; [done|]. split; [done|].
    assert (file_at s1 (choice_path state_dir) = file_at (dv_fs dv) (choice_path state_dir) /\
            fs_fault s1 = fs_fault (dv_fs dv)) as [Hsame Henv].
    { apply st_bind_inv in Es as [(e' & H & _)|([] & s3 & H & H2)];
        apply ensure_private_dir_frame in H as [[_ He] Hfr].
      - split; [|done]. apply Hfr. set_solver.
      - apply atomic_write_files in H2 as [[_ He2] H2]. split; [|congruence].
        rewrite H2 by (by left). apply Hfr. set_solver. }
    unfold load_choice, fs_read, file_at in *. rewrite Henv, Hf.
    destruct (nodes s1 !! _) as [[]|], (nodes (dv_fs dv) !! _) as [[]|]; by simplify_eq.
Qed.
End choice_laws.

(** ** Concrete runs *)

Definition demo_hash : string -> string := fun s => s.
Definition state_home : path := home "state".
Definition demo_push : PushedConfig :=
  {| pc_revision := 7; pc_yaml := "programs: {}"; pc_sha256 := "programs: {}" |}.
Definition forged_push : PushedConfig :=
  {| pc_revision := 8; pc_yaml := "programs: {}"; pc_sha256 := "" |}.
Definition demo_device (s : fs) : device :=
  {| dv_current := Some demo_current; dv_reconciler := two_writers; dv_fs := s; dv_login := false |}.
Definition demo_save : nat -> Z := fun i => Z.of_nat (500 + i).

Definition pushed (s : fs) : ConfigStatus * device * session :=
  handle_push demo_hash demo_parse_url demo_from_str state_home demo_rng demo_save demo_push
    (demo_device s) connected.
Lemma pushed_eq s :
  handle_push demo_hash demo_parse_url demo_from_str state_home demo_rng demo_save demo_push
    (demo_device s) connected
  = (fst (fst (pushed s)), snd (fst (pushed s)), snd (pushed s)).
Proof. unfold pushed. by destruct (handle_push _ _ _ _ _ _ _ _ _) as [[status dv] ss]. Qed.

Lemma rejected_push_changes_nothing_witness :
  handle_push demo_hash demo_parse_url demo_from_str state_home demo_rng demo_save forged_push
    (demo_device (demo_fs no_fault)) connected =
  ({| cs_revision := 8; cs_state := StateFailed;
      cs_error := "configuration hash does not match payload"; cs_programs := [];
      cs_programs_reported := true |}, demo_device (demo_fs no_fault),
   {| ss_stream_revision := Some 8;
      ss_last_sent := Some {| cs_revision := 8; cs_state := StateFailed;
                              cs_error := "configuration hash does not match payload";
                              cs_programs := []; cs_programs_reported := true |};
      ss_pending_persist := None |}).
Proof.
  exact (rejected_push_changes_nothing demo_hash demo_parse_url demo_from_str state_home demo_rng
    demo_save forged_push (demo_device (demo_fs no_fault)) connected
    "configuration hash does not match payload" eq_refl).
Defined.

(** The push's apply fails; its file is then fixed and a re-apply succeeds. *)
Definition failed_session : session := snd (pushed (demo_fs (deny_rename (home "b.json")))).
Definition fixed_device : device := demo_device (demo_fs no_fault).
Definition good_tick : TickStatus :=
  {| ts_revision := Some 7;
     ts_report := {| ar_programs := [outcome "codex" Applied ""]; ar_sequence := 3 |};
     ts_error := None |}.
Definition ticked : option ConfigStatus * device * session :=
  handle_tick state_home demo_save good_tick fixed_device failed_session.

Lemma failed_session_reachable :
  session_reachable demo_hash demo_parse_url demo_from_str state_home
    (demo_device (demo_fs (deny_rename (home "b.json")))) (fixed_device, failed_session).
Proof.
  eapply session_next; [eapply session_next; [apply session_start|]|].
  - eapply session_push. exact (pushed_eq (demo_fs (deny_rename (home "b.json")))).
  - unfold failed_session. apply session_other.
Qed.

(** A re-apply of another revision, then one that cannot be saved, then the one that is. *)
Definition failed_push : ConfigStatus * device * session := pushed (demo_fs (deny_rename (home "b.json"))).
Definition other_reapply : reapply :=
  {| re_rng := demo_save; re_device := fixed_device;
     re_tick := {| ts_revision := Some 6; ts_report := ts_report good_tick; ts_error := None |} |}.
Definition unsaved_reapply : reapply :=
  {| re_rng := demo_save; re_tick := good_tick;
     re_device := demo_device (demo_fs (deny_rename (remote_config_path state_home))) |}.
Definition good_reapply : reapply := {| re_rng := demo_save; re_tick := good_tick; re_device := fixed_device |}.

Lemma accepted_push_is_kept_witness :
  cs_state (fst (fst failed_push)) = StateFailed /\
  kept_for_later demo_push (after_reapplies state_home [other_reapply; unsaved_reapply] failed_session) /\
  let '(sent, dv, ss) := tick_arm state_home (after_reapplies state_home [other_reapply; unsaved_reapply] failed_session)
    good_reapply in
  (exists m, file_at (dv_fs dv) (remote_config_path state_home) = Some ("programs: {}", m)) /\
  exists status, sent = Some status /\ cs_state status = StateApplied.
Proof.
  assert (cs_state (fst (fst failed_push)) = StateFailed) as Hfail by (vm_compute; reflexivity).
  split; [exact Hfail|].
  destruct (accepted_push_is_kept demo_hash demo_parse_url demo_from_str state_home demo_rng demo_save
    demo_push (demo_device (demo_fs (deny_rename (home "b.json")))) connected demo_daemon _ _ _
    ltac:(vm_compute; reflexivity) (pushed_eq _) ltac:(vm_compute; discriminate)) as (_ & _ & _ & [(H & _)|(_ & H)]).
  { unfold failed_push in Hfail. rewrite Hfail in H. discriminate H. }
  destruct (H [other_reapply; unsaved_reapply]) as [Hk Hs].
  { repeat apply List.Forall_cons; [| |apply List.Forall_nil]; intros [[_ H1] H2]; vm_compute in H1, H2; discriminate. }
  split; [exact Hk|]. specialize (Hs good_reapply). unfold settles in Hs.
  change (snd (pushed (demo_fs (deny_rename (home "b.json"))))) with failed_session in Hs.
  destruct (tick_arm state_home _ good_reapply) as [[sent dv] ss]. destruct Hs as (_ & Hs & _).
  destruct Hs as (H1 & _ & _ & status & H2 & H3 & _); [split; reflexivity|vm_compute; reflexivity|].
  split; [exact H1|]. exists status. exact (conj H2 H3).
Defined.

Lemma late_save_is_current_witness :
  exists revision yaml m,
    ts_error good_tick = None /\ ts_revision good_tick = Some revision /\
    ss_stream_revision failed_session = Some revision /\
    ss_pending_persist failed_session = Some (revision, yaml) /\
    file_at (dv_fs (snd (fst ticked))) (remote_config_path state_home) = Some (yaml, m) /\
    ss_pending_persist (snd ticked) = None.
Proof.
  assert (handle_tick state_home demo_save good_tick fixed_device failed_session
          = (fst (fst ticked), snd (fst ticked), snd ticked)) as E.
  { fold ticked. by destruct ticked as [[sent dv] ss]. }
  refine (late_save_is_current demo_hash demo_parse_url demo_from_str state_home
    (demo_device (demo_fs (deny_rename (home "b.json")))) fixed_device failed_session demo_save
    good_tick _ _ _ failed_session_reachable E _).
  vm_compute. discriminate.
Defined.

Definition failing_tick : TickStatus :=
  {| ts_revision := Some 7;
     ts_report := {| ar_programs := [outcome "codex" Failed "disk full"]; ar_sequence := 3 |};
     ts_error := Some "disk full" |}.
Lemma outcome_reported_once_witness :
  tick_config_status
    (Some (config_status 7 (program_statuses (ts_report failing_tick)) (Err "disk full")))
    (Some 7) failing_tick = None.
Proof.
  refine (outcome_reported_once None (Some 7) failing_tick _ _ _).
  - apply NoDup_singleton.
  - vm_compute. reflexivity.
Defined.

#[global] Instance demo_choice_codec : ChoiceCodec := {|
  choice_from_slice s :=
    match of_digits s ≫= decode (A := option (option (gset string))) with
    | Some None => Ok AllPrograms
    | Some (Some None) => Ok NoProgram
    | Some (Some (Some programs)) => Ok (Selected programs)
    | None => Err "expected value"
    end;
  choice_to_vec_pretty c :=
    digits (encode (match c with
                    | AllPrograms => None
                    | NoProgram => Some None
                    | Selected programs => Some (Some programs)
                    end));
|}.
#[global] Instance demo_choice_codec_laws : ChoiceCodecLaws demo_choice_codec.
Proof.
  split. intros c. simpl. rewrite of_bits_bits. simpl. rewrite decode_encode. by destruct c.
Qed.

Definition demo_choice : ProgramChoice := Selected {[ "copilot" ]}.
Definition chosen_run :=
  change_choice state_home demo_rng demo_save demo_choice (Some None) (demo_device (demo_fs no_fault)).

Lemma choice_change_consistent_witness :
  (forall programs, demo_choice = Selected programs -> forall p, p ∈ programs -> p ∈ MANAGED_PROGRAMS) /\
  (exists current, Some demo_current = Some current /\
     allow_user_choice (dm_program_selection (cur_config current)) = true) /\
  rc_choice (dv_reconciler (snd chosen_run)) = demo_choice /\
  exists s1 out, load_choice state_home s1 = demo_choice /\
    apply_current demo_rng (Some demo_current) (set_program_choice demo_choice two_writers) s1
      = (out, dv_reconciler (snd chosen_run), dv_fs (snd chosen_run)).
Proof.
  assert (exists m, fst (fst chosen_run) = Ok m) as [m Hm] by (vm_compute; eexists; reflexivity).
  assert (change_choice state_home demo_rng demo_save demo_choice (Some None)
            (demo_device (demo_fs no_fault))
          = (Ok m, snd (fst chosen_run), snd chosen_run)) as E.
  { rewrite <- Hm. fold chosen_run. by destruct chosen_run as [[r c] d]. }
  exact (choice_change_consistent state_home demo_rng demo_save demo_choice (Some None)
    (demo_device (demo_fs no_fault)) (Ok m) _ _ eq_refl E).
Defined.
