(* ===== verification/Net.v ===== *)
(** * Internet addresses as text

    The standard library's [str::parse] for [IpAddr] and [SocketAddr]: a
    recursive-descent parser over the bytes, where a failed alternative gives its
    input back; and their [Display]. The proxy uses the parser to tell loopback hosts
    from names, the providers print the listener into the files they manage. *)

From stdpp Require Import pretty.
From S2P Require Import Prelude Str Config.

(** A parser returns its result and the rest of the input. *)
Definition parser (A : Type) : Type := string -> option (A * string).

Definition read_given_char (c : ascii) : parser unit := fun s =>
  match s with String a s' => if Ascii.eqb a c then Some (tt, s') else None | EmptyString => None end.

(** The value of a digit in a radix of at most 16. *)
Definition digit_value (radix : Z) (a : ascii) : option Z :=
  let v := if is_ascii_digit a then byte_of a - 48
           else if in_range 97 102 a then byte_of a - 87
           else if in_range 65 70 a then byte_of a - 55
           else 16 in
  if v <? radix then Some v else None.

(** The digits at the head: their number, their value, and the rest. *)
Fixpoint read_digits (radix : Z) (s : string) (count : nat) (acc : Z) : nat * Z * string :=
  match s with
  | String a s' =>
      match digit_value radix a with
      | Some d => read_digits radix s' (S count) (acc * radix + d)
      | None => (count, acc, s)
      end
  | EmptyString => (count, acc, s)
  end.

(** [read_number(radix, Some(max_digits), allow_zero_prefix)] at an integer type
    whose largest value is [max]. *)
Definition read_number (radix : Z) (max_digits : nat) (allow_zero_prefix : bool) (max : Z)
  : parser Z := fun s =>
  let '(count, value, rest) := read_digits radix s 0 0 in
  if Nat.eqb count 0 || Nat.ltb max_digits count then None
  else if max <? value then None
  else if negb allow_zero_prefix && starts_with "0" s && Nat.ltb 1 count then None
  else Some (value, rest).

(** [read_separator(sep, index, inner)]. *)
Definition read_separator {A} (sep : ascii) (index : nat) (inner : parser A) : parser A := fun s =>
  match index with
  | O => inner s
  | S _ => match read_given_char sep s with
           | Some (_, s') => inner s'
           | None => None
           end
  end.

Definition read_octet (index : nat) : parser Z :=
  read_separator "." index (read_number 10 3 false 255).
Definition read_ipv4_addr : parser (Z * Z * Z * Z) := fun s =>
  match read_octet 0 s with
  | Some (a, s) =>
      match read_octet 1 s with
      | Some (b, s) =>
          match read_octet 2 s with
          | Some (c, s) =>
              match read_octet 3 s with
              | Some (d, s) => Some ((a, b, c, d), s)
              | None => None
              end
          | None => None
          end
      | None => None
      end
  | None => None
  end.

(** [read_groups] with [left] slots left of which the next has index [index]:
    the groups read, whether an IPv4 address ended them, and the rest. *)
Fixpoint read_groups (left index : nat) (s : string) : list Z * bool * string :=
  match left with
  | O => ([], false, s)
  | S left' =>
      match (if Nat.ltb 0 left' then read_separator ":" index read_ipv4_addr s else None) with
      | Some ((a, b, c, d), s') => ([a * 256 + b; c * 256 + d], true, s')
      | None =>
          match read_separator ":" index (read_number 16 4 true 65535) s with
          | Some (g, s') =>
              let '(gs, v4, rest) := read_groups left' (S index) s' in (g :: gs, v4, rest)
          | None => ([], false, s)
          end
      end
  end.

Definition read_ipv6_addr : parser (list Z) := fun s =>
  let '(head, v4, s) := read_groups 8 0 s in
  if Nat.eqb (length head) 8 then Some (head, s)
  else if v4 then None
  else match read_given_char ":" s with
       | Some (_, s) =>
           match read_given_char ":" s with
           | Some (_, s) =>
               let '(tail, _, s) := read_groups (7 - length head) 0 s in
               Some ((head ++ repeat 0 (8 - length head - length tail) ++ tail)%list, s)
           | None => None
           end
       | None => None
       end.

(** [s.parse::<IpAddr>().ok()]: the whole input is an address. *)
Definition parse_ip (s : string) : option IpAddr :=
  match read_ipv4_addr s with
  | Some ((a, b, c, d), s') => if is_empty s' then Some (V4 a b c d) else None
  | None =>
      match read_ipv6_addr s with
      | Some (groups, s') => if is_empty s' then Some (V6 groups) else None
      | None => None
      end
  end.

(** [s.parse::<SocketAddr>()]: an IPv4 address, or an IPv6 address in brackets with
    an optional numeric scope, then a port. *)
Definition read_port : parser Z := fun s =>
  match read_given_char ":" s with
  | Some (_, s) => read_number 10 (String.length s) true 65535 s
  | None => None
  end.
Definition skip_scope_id (s : string) : string :=
  match read_given_char "%" s with
  | Some (_, s') =>
      match read_number 10 (String.length s') true 4294967295 s' with
      | Some (_, rest) => rest
      | None => s
      end
  | None => s
  end.
Definition read_socket_v4 : parser SocketAddr := fun s =>
  match read_ipv4_addr s with
  | Some ((a, b, c, d), s) =>
      match read_port s with
      | Some (port, s) => Some ({| sa_ip := V4 a b c d; sa_port := port |}, s)
      | None => None
      end
  | None => None
  end.
Definition read_socket_v6 : parser SocketAddr := fun s =>
  match read_given_char "[" s with
  | Some (_, s) =>
      match read_ipv6_addr s with
      | Some (groups, s) =>
          match read_given_char "]" (skip_scope_id s) with
          | Some (_, s) =>
              match read_port s with
              | Some (port, s) => Some ({| sa_ip := V6 groups; sa_port := port |}, s)
              | None => None
              end
          | None => None
          end
      | None => None
      end
  | None => None
  end.
Definition parse_socket (s : string) : option SocketAddr :=
  let parsed := match read_socket_v4 s with Some r => Some r | None => read_socket_v6 s end in
  match parsed with
  | Some (address, rest) => if is_empty rest then Some address else None
  | None => None
  end.

(** ** Printing *)

(** [{}] of a small unsigned integer, [{:x}] of a 16-bit one. *)
Definition fmt_uint (z : Z) : string := pretty (Z.to_N z).
Definition fmt_hex (z : Z) : string :=
  let digits := hex_width 4 z "" in
  if z =? 0 then "0" else trim_start_matches "0" digits.

Definition fmt_v4 (a b c d : Z) : string :=
  fmt_uint a +:+ "." +:+ fmt_uint b +:+ "." +:+ fmt_uint c +:+ "." +:+ fmt_uint d.

(** The longest run of zero groups, the first among equals: its start and length. *)
Fixpoint zero_run (groups : list Z) (i : nat) (current longest : nat * nat) : nat * nat :=
  match groups with
  | [] => longest
  | g :: groups =>
      if g =? 0
      then
        let current := (if Nat.eqb (snd current) 0 then i else fst current, S (snd current)) in
        zero_run groups (S i) current
          (if Nat.ltb (snd longest) (snd current) then current else longest)
      else zero_run groups (S i) (0, 0)%nat longest
  end.
Definition fmt_groups (groups : list Z) : string := join ":" (map fmt_hex groups).
Definition fmt_v6 (groups : list Z) : string :=
  match groups with
  | [0; 0; 0; 0; 0; 65535; ab; cd] =>
      "::ffff:" +:+ fmt_v4 (ab / 256) (ab mod 256) (cd / 256) (cd mod 256)
  | _ =>
      let '(start, len) := zero_run groups 0 (0, 0)%nat (0, 0)%nat in
      if Nat.ltb 1 len
      then fmt_groups (take start groups) +:+ "::" +:+ fmt_groups (drop (start + len) groups)
      else fmt_groups groups
  end.

(** [{}] of a [SocketAddr]. *)
Definition fmt_socket (a : SocketAddr) : string :=
  match sa_ip a with
  | V4 a0 b c d => fmt_v4 a0 b c d +:+ ":" +:+ fmt_uint (sa_port a)
  | V6 groups => "[" +:+ fmt_v6 groups +:+ "]:" +:+ fmt_uint (sa_port a)
  end.

Example fmt_loopback : fmt_socket {| sa_ip := V4 127 0 0 1; sa_port := 8788 |} = "127.0.0.1:8788".
Proof. reflexivity. Qed.
Example fmt_loopback6 :
  fmt_socket {| sa_ip := V6 [0; 0; 0; 0; 0; 0; 0; 1]; sa_port := 80 |} = "[::1]:80".
Proof. reflexivity. Qed.
Example fmt_inner6 :
  fmt_socket {| sa_ip := V6 [8193; 3512; 0; 0; 1; 0; 0; 1]; sa_port := 0 |} = "[2001:db8::1:0:0:1]:0".
Proof. reflexivity. Qed.
Example parse_socket_v6 :
  parse_socket "[::1]:080" = Some {| sa_ip := V6 [0; 0; 0; 0; 0; 0; 0; 1]; sa_port := 80 |}.
Proof. reflexivity. Qed.
Example parse_socket_port : parse_socket "127.0.0.1:65536" = None.
Proof. reflexivity. Qed.

Example parse_v4 : parse_ip "127.0.0.1" = Some (V4 127 0 0 1).
Proof. reflexivity. Qed.
Example parse_v4_octal : parse_ip "127.0.0.01" = None.
Proof. reflexivity. Qed.
Example parse_v6_loopback : parse_ip "::1" = Some (V6 [0; 0; 0; 0; 0; 0; 0; 1]).
Proof. reflexivity. Qed.
Example parse_v6_mapped : parse_ip "::ffff:127.0.0.1" = Some (V6 [0; 0; 0; 0; 0; 65535; 32512; 1]).
Proof. reflexivity. Qed.
Example parse_name : parse_ip "evil.example" = None.
Proof. reflexivity. Qed.
Example parse_v6_long : parse_ip "1:2:3:4:5:6:7:8:9" = None.
Proof. reflexivity. Qed.
Example parse_v6_full_compressed : parse_ip "1:2:3:4:5:6:7::8" = None.
Proof. reflexivity. Qed.
Example parse_v6_seven : parse_ip "1:2:3:4:5:6:7::" = Some (V6 [1; 2; 3; 4; 5; 6; 7; 0]).
Proof. reflexivity. Qed.

(** An address is written with hexadecimal digits, dots and colons only. *)
Definition address_char (a : ascii) : bool :=
  is_ascii_hexdigit a || Ascii.eqb a "." || Ascii.eqb a ":".

Definition reads_only {A} (p : parser A) : Prop :=
  forall s x s', p s = Some (x, s') -> exists t, s = t +:+ s' /\ str_all address_char t = true.

Lemma digit_value_address radix a d : digit_value radix a = Some d -> radix <= 16 -> address_char a = true.
Proof.
  unfold digit_value, address_char, is_ascii_hexdigit. intros H Hr.
  destruct (is_ascii_digit a) eqn:E1; [done|].
  destruct (in_range 97 102 a) eqn:E2; [by rewrite ?orb_true_r|].
  destruct (in_range 65 70 a) eqn:E3; [by rewrite ?orb_true_r|].
  case_match; [|done]. apply Z.ltb_lt in H0. lia.
Qed.

Lemma read_digits_address radix s count acc n v rest : radix <= 16 ->
  read_digits radix s count acc = (n, v, rest) ->
  exists t, s = t +:+ rest /\ str_all address_char t = true.
Proof.
  intros Hr. revert count acc. induction s as [|a s IH]; intros count acc; simpl.
  - intros [= _ _ <-]. by exists "".
  - destruct (digit_value radix a) as [d|] eqn:E.
    + intros (t & -> & Ht)%IH. exists (String a t). split; [done|]. simpl.
      by rewrite (digit_value_address _ _ _ E Hr), Ht.
    + intros [= _ _ <-]. by exists "".
Qed.

Lemma read_number_address radix n z max : radix <= 16 -> reads_only (read_number radix n z max).
Proof.
  intros Hr s x s' H. unfold read_number in H.
  destruct (read_digits radix s 0 0) as [[c v] rest] eqn:E.
  repeat case_match; simplify_eq. by eapply read_digits_address.
Qed.

Lemma read_given_char_only c : address_char c = true -> reads_only (read_given_char c).
Proof.
  intros Hc s x s' H. unfold read_given_char in H. destruct s as [|a s]; [done|].
  destruct (Ascii.eqb_spec a c) as [->|]; [|done]. injection H as _ <-. exists (String c "").
  split; [done|]. simpl. by rewrite Hc.
Qed.

Lemma reads_only_app s t u v :
  s = t +:+ u -> str_all address_char t = true ->
  (exists t', u = t' +:+ v /\ str_all address_char t' = true) ->
  exists t', s = t' +:+ v /\ str_all address_char t' = true.
Proof.
  intros -> Ht (t' & -> & Ht'). exists (t +:+ t'). split; [by rewrite append_assoc|].
  by rewrite str_all_app, Ht, Ht'.
Qed.

Lemma read_separator_only {A} c i (p : parser A) :
  address_char c = true -> reads_only p -> reads_only (read_separator c i p).
Proof.
  intros Hc Hp s x s' H. unfold read_separator in H. destruct i; [by apply Hp in H|].
  destruct (read_given_char c s) as [[u s1]|] eqn:E; [|done].
  apply (read_given_char_only c Hc) in E as (t & -> & Ht). apply Hp in H.
  by eapply reads_only_app.
Qed.

Lemma read_octet_only i : reads_only (read_octet i).
Proof. apply read_separator_only; [done|]. by apply read_number_address. Qed.

Lemma read_ipv4_only : reads_only read_ipv4_addr.
Proof.
  intros s x s' H. unfold read_ipv4_addr in H.
  destruct (read_octet 0 s) as [[a s1]|] eqn:E1; [|done].
  destruct (read_octet 1 s1) as [[b s2]|] eqn:E2; [|done].
  destruct (read_octet 2 s2) as [[c s3]|] eqn:E3; [|done].
  destruct (read_octet 3 s3) as [[d s4]|] eqn:E4; [|done]. injection H as _ <-.
  apply read_octet_only in E1 as (t1 & -> & H1). eapply reads_only_app; [done|done|].
  apply read_octet_only in E2 as (t2 & -> & H2). eapply reads_only_app; [done|done|].
  apply read_octet_only in E3 as (t3 & -> & H3). eapply reads_only_app; [done|done|].
  by apply read_octet_only in E4.
Qed.

Lemma read_groups_only left_ i s gs v4 s' : read_groups left_ i s = (gs, v4, s') ->
  exists t, s = t +:+ s' /\ str_all address_char t = true.
Proof.
  revert i s gs. induction left_ as [|l IH]; intros i s gs; simpl.
  { intros [= _ _ ->]. by exists "". }
  destruct (if Nat.ltb 0 l then read_separator ":" i read_ipv4_addr s else None)
    as [[[[[a b] c] d] s1]|] eqn:E1.
  { intros [= _ _ ->]. destruct (Nat.ltb 0 l); [|done].
    revert E1. apply read_separator_only; [done|apply read_ipv4_only]. }
  destruct (read_separator ":" i (read_number 16 4 true 65535) s) as [[g s1]|] eqn:E2.
  2: { intros [= _ _ ->]. by exists "". }
  destruct (read_groups l (S i) s1) as [[gs1 v1] s2] eqn:E3. intros [= _ -> ->].
  apply read_separator_only in E2 as (t & -> & Ht);
    [|done|by apply read_number_address].
  eapply reads_only_app; [done|done|]. by eapply IH.
Qed.

Lemma read_ipv6_only : reads_only read_ipv6_addr.
Proof.
  intros s x s' H. unfold read_ipv6_addr in H.
  destruct (read_groups 8 0 s) as [[hd v4] s1] eqn:E1.
  apply read_groups_only in E1 as (t & -> & Ht). eapply reads_only_app; [done|done|].
  case_match; [injection H as _ <-; by exists ""|]. destruct v4; [done|].
  destruct (read_given_char ":" s1) as [[u s2]|] eqn:E2; [|done].
  apply read_given_char_only in E2 as (t2 & -> & Ht2); [|done].
  eapply reads_only_app; [done|done|].
  destruct (read_given_char ":" s2) as [[u' s3]|] eqn:E3; [|done].
  apply read_given_char_only in E3 as (t3 & -> & Ht3); [|done].
  eapply reads_only_app; [done|done|].
  destruct (read_groups _ 0 s3) as [[tl v5] s4] eqn:E4. injection H as _ <-.
  by eapply read_groups_only.
Qed.

(** Whatever parses as an address is written with address characters. *)
Lemma parse_ip_address s ip : parse_ip s = Some ip -> str_all address_char s = true.
Proof.
  unfold parse_ip. intros H.
  destruct (read_ipv4_addr s) as [[[[[a b] c] d] s']|] eqn:E.
  - destruct s'; [|done]. apply read_ipv4_only in E as (t & -> & Ht). by rewrite append_nil_r.
  - destruct (read_ipv6_addr s) as [[gs s']|] eqn:E6; [|done]. destruct s'; [|done].
    apply read_ipv6_only in E6 as (t & -> & Ht). by rewrite append_nil_r.
Qed.

(** ** What is printed reads back *)

Lemma digit_value_pretty n : (n < 10)%N -> digit_value 10 (pretty_N_char n) = Some (Z.of_N n).
Proof.
  intros Hn. assert (Forall (fun k => digit_value 10 (pretty_N_char (N.of_nat k)) = Some (Z.of_nat k))
    (seq 0 10)) as Hall by by repeat constructor.
  rewrite Forall_forall in Hall. specialize (Hall (N.to_nat n)).
  rewrite N2Nat.id, N_nat_Z in Hall. apply Hall, elem_of_seq. lia.
Qed.
Lemma read_digits_go n s : exists k, (n <> 0%N -> (0 < k)%nat) /\ forall count acc,
  read_digits 10 (pretty_N_go n s) count acc
  = read_digits 10 s (k + count) (acc * 10 ^ Z.of_nat k + Z.of_N n).
Proof.
  revert s. induction (N.lt_wf_0 n) as [n _ IH]; intros s.
  destruct (decide (n = 0%N)) as [->|Hn].
  { exists 0%nat. split; [done|]. intros count acc. rewrite pretty_N_go_0. f_equal. simpl. lia. }
  rewrite pretty_N_go_step by lia.
  destruct (IH (n `div` 10)%N ltac:(apply N.div_lt; lia) (String (pretty_N_char (n `mod` 10)) s)) as (k & _ & Hk).
  exists (S k). split; [lia|]. intros count acc. rewrite Hk. simpl.
  rewrite digit_value_pretty by (apply N.mod_lt; lia).
  f_equal.
  rewrite Nat2Z.inj_succ, Z.pow_succ_r by lia. pose proof (N.div_mod n 10 ltac:(lia)). lia.
Qed.
Lemma read_digits_uint z : 0 <= z -> exists k, (0 < k)%nat /\
  read_digits 10 (fmt_uint z) 0 0 = (k, z, "").
Proof.
  intros Hz. unfold fmt_uint, pretty, pretty_N. case_decide as H.
  - assert (z = 0) as -> by lia. exists 1%nat. split; [lia|done].
  - destruct (read_digits_go (Z.to_N z) "") as (k & Hk & Hr). exists k. split; [by apply Hk|].
    rewrite Hr. simpl. rewrite Nat.add_0_r. do 2 f_equal. lia.
Qed.
Lemma read_digits_count radix s count acc n v rest :
  read_digits radix s count acc = (n, v, rest) -> (n <= count + String.length s)%nat.
Proof.
  revert count acc. induction s as [|a s IH]; intros count acc; simpl; [intros [= <- _ _]; lia|].
  destruct (digit_value radix a); [intros H%IH; lia|intros [= <- _ _]; lia].
Qed.
(** Digits end where the next byte is none. *)
Lemma read_digits_app radix s t count acc n v :
  read_digits radix s count acc = (n, v, "") ->
  match t with String a _ => digit_value radix a = None | EmptyString => True end ->
  read_digits radix (s +:+ t) count acc = (n, v, t).
Proof.
  intros H Ht. revert count acc H. induction s as [|a s IH]; intros count acc; simpl.
  - intros [= <- <-]. destruct t as [|a t]; [done|]. simpl. by rewrite Ht.
  - destruct (digit_value radix a); [apply IH|done].
Qed.

Definition is_octet (z : Z) : Prop := 0 <= z <= 255.
Lemma octets_read z : is_octet z -> read_number 10 3 false 255 (fmt_uint z) = Some (z, "").
Proof.
  intros Hz. assert (forallb (fun n => bool_decide
    (read_number 10 3 false 255 (fmt_uint (Z.of_nat n)) = Some (Z.of_nat n, ""))) (seq 0 256) = true)
    as H by (vm_compute; reflexivity).
  rewrite forallb_forall in H. specialize (H (Z.to_nat z)). unfold is_octet in Hz.
  rewrite Z2Nat.id in H by lia. eapply bool_decide_eq_true, H. apply in_seq. lia.
Qed.
Lemma starts_with_head c a s t :
  starts_with (String c "") (String a s +:+ t) = starts_with (String c "") (String a s).
Proof. unfold starts_with. change (String a s +:+ t) with (String a (s +:+ t)). cbn. by destruct (Ascii.eqb c a). Qed.
Lemma read_octet_next i z t : is_octet z ->
  match t with String a _ => digit_value 10 a = None | EmptyString => True end ->
  read_octet i (match i with O => fmt_uint z +:+ t | S _ => "." +:+ fmt_uint z +:+ t end) = Some (z, t).
Proof.
  intros Hz Ht. pose proof (octets_read z Hz) as H.
  assert (read_number 10 3 false 255 (fmt_uint z +:+ t) = Some (z, t)) as Hn.
  { unfold read_number in *. destruct (read_digits 10 (fmt_uint z) 0 0) as [[c v] rest] eqn:E.
    assert (rest = "" /\ v = z) as [-> ->] by (repeat case_match; by simplify_eq).
    rewrite (read_digits_app _ _ _ _ _ _ _ E Ht).
    assert (starts_with "0" (fmt_uint z +:+ t) = starts_with "0" (fmt_uint z)) as ->.
    { destruct (fmt_uint z) as [|a s] eqn:Ez; [|apply starts_with_head].
      by injection E as <- <-. }
    repeat case_match; by simplify_eq. }
  by destruct i.
Qed.
Lemma read_port_next z : 0 <= z <= 65535 -> read_port (":" +:+ fmt_uint z) = Some (z, "").
Proof.
  intros Hz. change (read_number 10 (String.length (fmt_uint z)) true 65535 (fmt_uint z) = Some (z, "")).
  destruct (read_digits_uint z) as (k & Hk & E); [lia|]. pose proof (read_digits_count _ _ _ _ _ _ _ E) as Hc.
  unfold read_number. rewrite E. rewrite (proj2 (Nat.eqb_neq k 0)), (proj2 (Nat.ltb_ge _ _)) by lia. simpl.
  by rewrite (proj2 (Z.ltb_ge _ _)) by lia.
Qed.

(** A loopback listener's address, printed, is the address. *)
Lemma read_ipv4_printed a b c d t : is_octet a -> is_octet b -> is_octet c -> is_octet d ->
  match t with String x _ => digit_value 10 x = None | EmptyString => True end ->
  read_ipv4_addr (fmt_v4 a b c d +:+ t) = Some ((a, b, c, d), t).
Proof.
  intros Ha Hb Hc Hd Ht. unfold read_ipv4_addr, fmt_v4. rewrite !append_assoc.
  by rewrite (read_octet_next 0 a), (read_octet_next 1 b), (read_octet_next 2 c), (read_octet_next 3 d).
Qed.
Definition socket_in_range (a : SocketAddr) : Prop :=
  0 <= sa_port a <= 65535 /\
  match sa_ip a with V4 a b c d => is_octet a /\ is_octet b /\ is_octet c /\ is_octet d | V6 _ => True end.
Lemma loopback_printed a :
  ip_is_loopback (sa_ip a) = true -> socket_in_range a -> parse_socket (fmt_socket a) = Some a.
Proof.
  destruct a as [[x b c d|groups] port]; simpl; intros Hl [Hp Hr]; unfold fmt_socket, parse_socket; simpl in *.
  - destruct Hr as (Hx & Hb & Hc & Hd). unfold read_socket_v4.
    by rewrite read_ipv4_printed, read_port_next.
  - apply bool_decide_eq_true in Hl as ->.
    change (read_socket_v4 ("[" +:+ fmt_v6 [0; 0; 0; 0; 0; 0; 0; 1] +:+ "]:" +:+ fmt_uint port)) with
      (@None (SocketAddr * string)). unfold read_socket_v6.
    change ("[" +:+ fmt_v6 [0; 0; 0; 0; 0; 0; 0; 1] +:+ "]:" +:+ fmt_uint port)
      with ("[::1]:" +:+ fmt_uint port).
    change (read_given_char "[" ("[::1]:" +:+ fmt_uint port)) with (Some (tt, "::1]:" +:+ fmt_uint port)).
    cbv beta iota. change (read_ipv6_addr ("::1]:" +:+ fmt_uint port))
      with (Some ([0; 0; 0; 0; 0; 0; 0; 1], "]:" +:+ fmt_uint port)).
    cbv beta iota. change (read_given_char "]" (skip_scope_id ("]:" +:+ fmt_uint port)))
      with (Some (tt, ":" +:+ fmt_uint port)).
    cbv beta iota. by rewrite read_port_next.
Qed.

Lemma read_digits_lacks c s count acc n v :
  digit_value 10 c = None -> read_digits 10 s count acc = (n, v, "") -> lacks c s.
Proof.
  intros Hc. revert count acc. unfold lacks. induction s as [|a s IH]; intros count acc; simpl; [done|].
  destruct (digit_value 10 a) eqn:E; [|done]. intros ->%IH.
  destruct (Ascii.eqb_spec a c); [congruence|done].
Qed.
Lemma fmt_uint_lacks c z : digit_value 10 c = None -> 0 <= z -> lacks c (fmt_uint z).
Proof. intros Hc Hz. destruct (read_digits_uint z Hz) as (k & _ & E). by eapply read_digits_lacks. Qed.
Lemma lacks_app c s t : lacks c (s +:+ t) <-> lacks c s /\ lacks c t.
Proof. unfold lacks. by rewrite str_all_app, andb_true_iff. Qed.
Lemma loopback_lacks_slash a :
  ip_is_loopback (sa_ip a) = true -> socket_in_range a -> lacks "/" (fmt_socket a).
Proof.
  destruct a as [[x b c d|groups] port]; unfold fmt_socket; simpl; intros Hl [Hp Hr]; simpl in *.
  - destruct Hr as (Hx & Hb & Hc & Hd). unfold fmt_v4, is_octet in *. rewrite !lacks_app.
    repeat split; try apply fmt_uint_lacks; done || lia.
  - apply bool_decide_eq_true in Hl as ->.
    change ("[" +:+ fmt_v6 [0; 0; 0; 0; 0; 0; 0; 1] +:+ "]:" +:+ fmt_uint port)
      with ("[::1]:" +:+ fmt_uint port). apply lacks_app. split; [done|]. apply fmt_uint_lacks; [done|lia].
Qed.
