(* ===== verification/Http.v ===== *)
(** * HTTP headers

    The header map and header values are third-party code ([hyper]); this file
    has the interface the proxy uses: the values of a name in order, insertion
    (replacing every value of the name) and removal, with names compared without
    ASCII case, and the conversions between header values and text. [HeaderMapLaws]
    states the documented behaviour; the association list at the end of the file
    is an instance of both. *)

From S2P Require Import Prelude Str.

Class HeaderMap : Type := {
  header_map : Type;
  get_all : string -> header_map -> list string;
  insert_header : string -> string -> header_map -> header_map;
  remove_header : string -> header_map -> header_map;
  (** [HeaderValue::to_str]: visible ASCII only. *)
  to_str : string -> option string;
  (** [HeaderValue::from_str]. *)
  header_value : string -> option string;
}.

Class HeaderMapLaws (H : HeaderMap) : Prop := {
  get_all_insert name name' v h :
    get_all name (insert_header name' v h)
    = if eq_ignore_ascii_case name name' then [v] else get_all name h;
  get_all_remove name name' h :
    get_all name (remove_header name' h)
    = if eq_ignore_ascii_case name name' then [] else get_all name h;
  to_str_Some v s : to_str v = Some s -> s = v;
  header_value_Some s v : header_value s = Some v -> v = s;
}.

(** Header names of [hyper::header]. *)
Definition AUTHORIZATION : string := "authorization".
Definition CONNECTION : string := "connection".
Definition HOST : string := "host".
Definition ORIGIN : string := "origin".

Section headers.
Context {H : HeaderMap}.

(** [headers.get(name)]: the first value. *)
Definition get_header (name : string) (h : header_map) : option string := head (get_all name h).
Definition contains_key (name : string) (h : header_map) : bool :=
  match get_all name h with [] => false | _ => true end.

Context {L : HeaderMapLaws H}.

Lemma get_header_insert name name' v h :
  get_header name (insert_header name' v h)
  = if eq_ignore_ascii_case name name' then Some v else get_header name h.
Proof. unfold get_header. rewrite get_all_insert. by case_match. Qed.
Lemma get_header_remove name name' h :
  get_header name (remove_header name' h)
  = if eq_ignore_ascii_case name name' then None else get_header name h.
Proof. unfold get_header. rewrite get_all_remove. by case_match. Qed.

(** Removing names only ever removes. *)
Lemma removed_absent names name h :
  any (fun n => eq_ignore_ascii_case name n) names = true ->
  get_all name (fold_left (fun h n => remove_header n h) names h) = [].
Proof.
  revert h. induction names as [|n names IH]; intros h; simpl; [done|].
  destruct (eq_ignore_ascii_case name n) eqn:E; simpl; [intros _|apply IH].
  assert (get_all name (remove_header n h) = []) as Hn by (by rewrite get_all_remove, E).
  revert Hn. generalize (remove_header n h). clear IH E h.
  induction names as [|m names IH]; intros h Hn; simpl; [done|].
  apply IH. rewrite get_all_remove. by case_match.
Qed.
Lemma removed_keeps names name h :
  any (fun n => eq_ignore_ascii_case name n) names = false ->
  get_all name (fold_left (fun h n => remove_header n h) names h) = get_all name h.
Proof.
  revert h. induction names as [|n names IH]; intros h; simpl; [done|].
  destruct (eq_ignore_ascii_case name n) eqn:E; simpl; [done|]. intros Hn.
  rewrite IH by done. by rewrite get_all_remove, E.
Qed.
End headers.

(** ** An instance *)

Definition visible (a : ascii) : bool := in_range 32 126 a || (byte_of a =? 9).
Definition sendable (a : ascii) : bool :=
  ((32 <=? byte_of a) && negb (byte_of a =? 127)) || (byte_of a =? 9).

#[global] Instance list_headers : HeaderMap := {|
  header_map := list (string * string);
  get_all := fun name h => map snd (retain (fun e => eq_ignore_ascii_case name (fst e)) h);
  insert_header := fun name v h =>
    ((name, v) :: retain (fun e => negb (eq_ignore_ascii_case name (fst e))) h)%list;
  remove_header := fun name h => retain (fun e => negb (eq_ignore_ascii_case name (fst e))) h;
  to_str := fun v => if str_all visible v then Some v else None;
  header_value := fun s => if str_all sendable s then Some s else None;
|}.

Lemma retain_other name name' (h : list (string * string)) :
  retain (fun e => eq_ignore_ascii_case name (fst e))
    (retain (fun e => negb (eq_ignore_ascii_case name' (fst e))) h)
  = if eq_ignore_ascii_case name name' then []
    else retain (fun e => eq_ignore_ascii_case name (fst e)) h.
Proof.
  unfold eq_ignore_ascii_case. induction h as [|[n v] h IH]; simpl; [by case_match|].
  destruct (String.eqb_spec (to_ascii_lowercase name') (to_ascii_lowercase n)) as [Hn|Hn]; simpl;
    rewrite IH; destruct (String.eqb_spec (to_ascii_lowercase name) (to_ascii_lowercase name'));
    destruct (String.eqb_spec (to_ascii_lowercase name) (to_ascii_lowercase n)); congruence.
Qed.

#[global] Instance list_headers_laws : HeaderMapLaws list_headers.
Proof.
  split; simpl.
  - intros name name' v h. destruct (eq_ignore_ascii_case name name') eqn:E; simpl;
      by rewrite retain_other, E.
  - intros name name' h. rewrite retain_other. by case_match.
  - intros v s. by case_match; intros [= ->].
  - intros s v. by case_match; intros [= ->].
Qed.
