(* ===== verification/Routes.v ===== *)
(** * The proxy's routes ([crates/agent/src/llm_proxy/routes.rs])

    Which managed program a request path belongs to, where its pairing value
    is, and the pure checks on hosts, paths and credentials, with their
    specifications. *)

From S2P Require Import Prelude Str Config Net Http.

Definition PAIRING_HEADER : string := "x-agentdesktop-pairing".

Inductive RouteCredential : Type := Gateway | Passthrough.
#[global] Instance RouteCredential_eq_dec : EqDecision RouteCredential.
Proof. solve_decision. Defined.

(** [Upstream::Url] and [Upstream::ProxyUrl]. *)
Inductive Upstream : Type := UpstreamUrl | UpstreamProxyUrl.
#[global] Instance Upstream_eq_dec : EqDecision Upstream.
Proof. solve_decision. Defined.

Record ProxyRoute : Type := {
  prefix : string;
  route_client_id : string;
  credential : RouteCredential;
  upstream : Upstream;
  pairing_in_path : bool;
  tunnels_upgrades : bool;
  credential_less_ping : bool;
}.

Definition CAPI_ROUTE : string := "/vscode-copilot-capi".
Definition CODEX_ROUTE : string := "/codex".

Definition ROUTES : list ProxyRoute := [
  {| prefix := CODEX_ROUTE; route_client_id := "codex"; credential := Passthrough;
     upstream := UpstreamProxyUrl; pairing_in_path := false; tunnels_upgrades := false;
     credential_less_ping := false |};
  {| prefix := "/vscode-copilot-passthrough"; route_client_id := "vscode-copilot";
     credential := Passthrough; upstream := UpstreamProxyUrl; pairing_in_path := false;
     tunnels_upgrades := false; credential_less_ping := false |};
  {| prefix := CAPI_ROUTE; route_client_id := "vscode-copilot"; credential := Passthrough;
     upstream := UpstreamProxyUrl; pairing_in_path := true; tunnels_upgrades := true;
     credential_less_ping := true |};
  {| prefix := "/vscode-copilot"; route_client_id := "vscode-copilot"; credential := Gateway;
     upstream := UpstreamUrl; pairing_in_path := false; tunnels_upgrades := false;
     credential_less_ping := false |};
  {| prefix := "/copilot-cli"; route_client_id := "copilot-cli"; credential := Gateway;
     upstream := UpstreamUrl; pairing_in_path := false; tunnels_upgrades := false;
     credential_less_ping := false |}
].

Definition split_path_pairing (rest : string) : option (string * string) :=
  match strip_prefix "/" rest with
  | None => None
  | Some without_slash =>
      let '(segment, remainder) :=
        match split_once "/" without_slash with
        | Some (l, r) => (l, String "/" r)
        | None => (without_slash, "/")
        end in
      if negb (is_empty segment) then Some (segment, remainder) else None
  end.

(** Decodes [%XX] escapes; [None] when one is malformed. *)
Definition hex_value (a : ascii) : Z := default 0 (digit_value 16 a).
Fixpoint percent_decode (input : string) : option string :=
  match input with
  | EmptyString => Some EmptyString
  | String a rest =>
      if Ascii.eqb a "%" then
        match rest with
        | String x (String y rest) =>
            if is_ascii_hexdigit x && is_ascii_hexdigit y
            then String (of_byte (16 * hex_value x + hex_value y)) <$> percent_decode rest
            else None
        | _ => None
        end
      else String a <$> percent_decode rest
  end.

Definition path_separator (a : ascii) : bool := Ascii.eqb a "/" || Ascii.eqb a "\".
Definition path_escapes_base (p : string) : bool :=
  match percent_decode p with
  | None => true
  | Some decoded => any (fun segment => String.eqb segment "..") (split_on path_separator decoded)
  end.

Definition resembles_route (p : string) : bool :=
  let first := to_ascii_lowercase (default "" (head (split "/" (trim_start_matches "/" p)))) in
  negb (is_empty first) &&
  any (fun route =>
    let name := default "" (strip_prefix "/" (prefix route)) in
    String.eqb first name || starts_with name first
    || (starts_with first name && Nat.leb 8 (String.length first))) ROUTES.

(** The bytes are compared by their differences, without an early exit. *)
Definition constant_time_eq (a b : string) : bool :=
  if negb (Nat.eqb (String.length a) (String.length b)) then false
  else fold_left (fun acc '(x, y) => Z.lor acc (Z.lxor x y)) (zip (bytes a) (bytes b)) 0 =? 0.

Definition match_route (p : string) : option (ProxyRoute * string) :=
  find_map (fun route =>
    match strip_prefix (prefix route) p with
    | Some rest =>
        if is_empty rest || starts_with "/" rest
        then Some (route, if is_empty rest then "/" else rest) else None
    | None => None
    end) ROUTES.

Definition strip_bearer (v : string) : string :=
  match split_once " " v with
  | Some (scheme, token) => if eq_ignore_ascii_case scheme "bearer" then token else v
  | None => v
  end.

Definition upstream_base (gateway : LlmGatewayConfig) (u : Upstream) : Url :=
  match u with
  | UpstreamUrl => gw_url gateway
  | UpstreamProxyUrl => default (gw_url gateway) (gw_proxy_url gateway)
  end.

(** The name in a [Host] header, without brackets and port. *)
Definition host_name (host : string) : option string :=
  match strip_prefix "[" host with
  | Some rest =>
      match split_once "]" rest with
      | Some (name, port) => if is_empty port || starts_with ":" port then Some name else None
      | None => None
      end
  | None =>
      if Nat.ltb 1 (count_char ":" host) then Some host
      else Some (match rsplit_once ":" host with Some (name, _) => name | None => host end)
  end.

Section with_headers.
Context {H : HeaderMap}.

Definition host_is_loopback (headers : header_map) : bool :=
  match get_header HOST headers ≫= to_str with
  | None => false
  | Some host =>
      match host_name (trim host) with
      | None => false
      | Some name =>
          match parse_ip name with
          | Some ip => ip_is_loopback ip
          | None => eq_ignore_ascii_case (trim_end_matches "." name) "localhost"
          end
      end
  end.

Definition bearer_or_header (headers : header_map) (header : string) : option string :=
  option_filter (fun v => negb (is_empty v))
    ((fun v => trim (strip_bearer v)) <$>
     ((match get_header header headers with
       | Some v => Some v
       | None => get_header AUTHORIZATION headers
       end) ≫= to_str)).
End with_headers.

(** ** The constant-time comparison is equality *)

Lemma byte_of_inj a b : byte_of a = byte_of b -> a = b.
Proof.
  unfold byte_of. intros H%N2Z.inj. rewrite <- (ascii_N_embedding a), <- (ascii_N_embedding b).
  by rewrite H.
Qed.
Lemma byte_of_nonneg a : 0 <= byte_of a.
Proof. unfold byte_of. lia. Qed.

Lemma lor_zero a b : Z.lor a b = 0 <-> a = 0 /\ b = 0.
Proof. rewrite Z.lor_eq_0_iff. tauto. Qed.

Lemma xor_fold l acc :
  fold_left (fun acc '(x, y) => Z.lor acc (Z.lxor x y)) l acc = 0 <->
  acc = 0 /\ Forall (fun '(x, y) => x = y) l.
Proof.
  revert acc. induction l as [|[x y] l IH]; intros acc; simpl.
  - split; [by intros ->|tauto].
  - rewrite IH, lor_zero, Forall_cons, Z.lxor_eq_0_iff. tauto.
Qed.

Lemma length_bytes s : length (bytes s) = String.length s.
Proof. unfold bytes. rewrite length_map. induction s; simpl; congruence. Qed.

Lemma bytes_inj s t : bytes s = bytes t -> s = t.
Proof.
  revert t. induction s as [|a s IH]; intros [|b t] H; try done.
  injection H as Hb Ht. apply byte_of_inj in Hb as ->. f_equal. by apply IH.
Qed.

Lemma zip_same (l k : list Z) :
  length l = length k -> Forall (fun '(x, y) => x = y) (zip l k) -> l = k.
Proof.
  revert k. induction l as [|x l IH]; intros [|y k] Hl H; simpl in *; try done.
  apply Forall_cons in H as [-> H]. f_equal. apply IH; [lia|done].
Qed.

Lemma constant_time_eq_spec a b : constant_time_eq a b = true <-> a = b.
Proof.
  unfold constant_time_eq. destruct (Nat.eqb_spec (String.length a) (String.length b)) as [Hl|Hl];
    simpl; [|split; [done|congruence]].
  rewrite Z.eqb_eq, xor_fold. split.
  - intros [_ H]. apply bytes_inj, zip_same; [by rewrite !length_bytes|done].
  - intros ->. split; [done|]. induction (bytes b) as [|x l IH]; simpl; [done|].
    by apply Forall_cons.
Qed.

(** ** Routes *)

(** A path belongs to a prefix at a [/] boundary; [rest] is what is forwarded. *)
Inductive under (prefix : string) : string -> string -> Prop :=
| under_bare : under prefix prefix "/"
| under_slash rest : under prefix (prefix +:+ String "/" rest) (String "/" rest).

Lemma under_strip p path rest : under p path rest <->
  exists r, strip_prefix p path = Some r /\ (is_empty r || starts_with "/" r) = true /\
    rest = if is_empty r then "/" else r.
Proof.
  split.
  - intros [|r].
    + exists "". rewrite strip_prefix_Some, append_nil_r. done.
    + exists (String "/" r). by rewrite strip_prefix_Some.
  - intros (r & ->%strip_prefix_Some & Hb & ->). destruct r as [|a r]; simpl in *.
    + rewrite append_nil_r. constructor.
    + apply starts_with_spec in Hb as [r' [= ->]]. constructor.
Qed.

(** Two managed prefixes never claim one path. *)
Lemma boundary_unique p q r r' :
  p +:+ r = q +:+ r' -> (String.length p <= String.length q)%nat ->
  exists d, q = p +:+ d /\ r = d +:+ r'.
Proof.
  revert q. induction p as [|a p IH]; intros q H Hl; simpl in *; [by exists q|].
  destruct q as [|b q]; simpl in *; [lia|]. injection H as -> H.
  destruct (IH q H) as (d & -> & ->); [lia|]. by exists d.
Qed.

Definition separated (route route' : ProxyRoute) : bool :=
  String.eqb (prefix route) (prefix route') ||
  match strip_prefix (prefix route) (prefix route') with
  | Some d => negb (is_empty d || starts_with "/" d)
  | None => true
  end.
Lemma routes_separated route route' : route ∈ ROUTES -> route' ∈ ROUTES ->
  separated route route' = true.
Proof.
  assert (all (fun route => all (separated route) ROUTES) ROUTES = true) as H by (vm_compute; reflexivity).
  rewrite all_true in H. intros Hr Hr'. specialize (H _ Hr). rewrite all_true in H. by apply H.
Qed.

Lemma boundary_app d r : (is_empty (d +:+ r) || starts_with "/" (d +:+ r)) = true ->
  (is_empty d || starts_with "/" d) = true.
Proof.
  destruct d as [|a d]; [done|]. change (String a d +:+ r) with (String a (d +:+ r)).
  unfold starts_with. cbn -[Ascii.eqb]. by destruct (Ascii.eqb "/" a).
Qed.

Lemma prefixes_separate route route' r r' : route ∈ ROUTES -> route' ∈ ROUTES ->
  prefix route +:+ r = prefix route' +:+ r' ->
  (is_empty r || starts_with "/" r) = true -> (is_empty r' || starts_with "/" r') = true ->
  prefix route = prefix route'.
Proof.
  intros H H' Heq Hr Hr'.
  assert (forall a b x y, a ∈ ROUTES -> b ∈ ROUTES -> prefix a +:+ x = prefix b +:+ y ->
    (is_empty x || starts_with "/" x) = true ->
    (String.length (prefix a) <= String.length (prefix b))%nat -> prefix a = prefix b) as Hle.
  { intros a b x y Ha Hb Hab Hx Hl. destruct (boundary_unique _ _ _ _ Hab Hl) as (d & Hd & ->).
    pose proof (routes_separated a b Ha Hb) as Hs. unfold separated in Hs.
    destruct (String.eqb_spec (prefix a) (prefix b)) as [|Hne]; [done|]. simpl in Hs.
    apply strip_prefix_Some in Hd. rewrite Hd in Hs. by rewrite (boundary_app _ _ Hx) in Hs. }
  destruct (Nat.le_ge_cases (String.length (prefix route)) (String.length (prefix route'))).
  - by eapply Hle.
  - symmetry. by eapply Hle; try symmetry.
Qed.

Lemma match_route_Some path route rest :
  match_route path = Some (route, rest) -> route ∈ ROUTES /\ under (prefix route) path rest.
Proof.
  intros (r & Hr & H)%find_map_Some. destruct (strip_prefix _ _) as [x|] eqn:E; [|done].
  destruct (_ || _) eqn:Eb; [|done]. injection H as -> <-. split; [done|].
  apply under_strip. by exists x.
Qed.

Lemma prefix_injective route route' : route ∈ ROUTES -> route' ∈ ROUTES ->
  prefix route = prefix route' -> route = route'.
Proof.
  assert (NoDup (map prefix ROUTES)) as Hnd by (by apply (bool_decide_unpack _)).
  intros [i Hi]%list_elem_of_lookup [j Hj]%list_elem_of_lookup Heq.
  assert (i = j) as ->; [|congruence].
  eapply NoDup_lookup; [exact Hnd| |]; rewrite list_lookup_fmap.
  - by rewrite Hi.
  - rewrite Hj. simpl. by rewrite Heq.
Qed.

(** Every request path belongs to at most one managed program, decided at a
    [/] boundary: the router answers a route and a remainder exactly when the route
    is one of the table, the path is its prefix alone or its prefix followed by the
    remainder, and the remainder starts with [/]. *)
Theorem match_route_spec path route rest :
  match_route path = Some (route, rest) <-> route ∈ ROUTES /\ under (prefix route) path rest.
Proof.
  split; [apply match_route_Some|]. intros [Hr (r & Hs & Hb & ->)%under_strip].
  destruct (match_route path) as [[route' rest']|] eqn:E.
  - apply match_route_Some in E as [Hr' (r' & Hs' & Hb' & ->)%under_strip].
    assert (route = route') as ->.
    { apply prefix_injective; [done|done|]. apply strip_prefix_Some in Hs, Hs'.
      by apply (prefixes_separate route route' r r'); congruence. }
    rewrite Hs in Hs'. by injection Hs' as ->.
  - eapply (proj1 (find_map_None _ _)) in E; [|exact Hr]. by rewrite Hs, Hb in E.
Qed.

(** ** Paths *)

(** The specification of percent-encoding: a text and the bytes it stands for. *)
Inductive decodes : string -> string -> Prop :=
| decodes_nil : decodes "" ""
| decodes_plain a s d : a <> "%"%char -> decodes s d -> decodes (String a s) (String a d)
| decodes_escape x y s d :
    is_ascii_hexdigit x = true -> is_ascii_hexdigit y = true -> decodes s d ->
    decodes (String "%" (String x (String y s))) (String (of_byte (16 * hex_value x + hex_value y)) d).

Lemma percent_decode_complete s d : decodes s d -> percent_decode s = Some d.
Proof.
  induction 1 as [|a s d Ha _ IH|x y s d Hx Hy _ IH]; cbn -[Ascii.eqb hex_value]; [done| |].
  - rewrite (proj2 (Ascii.eqb_neq a "%") Ha). by rewrite IH.
  - by rewrite Ascii.eqb_refl, Hx, Hy, IH.
Qed.

Lemma percent_decode_sound s d : percent_decode s = Some d -> decodes s d.
Proof.
  remember (String.length s) as n eqn:Hn. revert s d Hn.
  induction n as [n IH] using lt_wf_ind. intros s d -> H.
  destruct s as [|a s]; [injection H as <-; constructor|].
  cbn -[Ascii.eqb hex_value] in H. destruct (Ascii.eqb_spec a "%") as [->|Ha].
  - destruct s as [|x [|y s]]; [done|done|]. destruct (_ && _) eqn:E; [|done].
    apply andb_true_iff in E as [Hx Hy]. apply fmap_Some in H as (d' & Hd & ->).
    constructor; [done|done|]. eapply IH; [|done|exact Hd]. simpl. lia.
  - apply fmap_Some in H as (d' & Hd & ->). constructor; [done|].
    eapply IH; [|done|exact Hd]. simpl. lia.
Qed.

(** [segment] is a part of [s] between separators: the one at its head, or one
    after a separator. *)
Section segments.
Context (sep : ascii -> bool).
Definition ends (post : string) : Prop := post = "" \/ exists c q, post = String c q /\ sep c = true.
Definition head_segment (seg s : string) : Prop :=
  str_all (fun a => negb (sep a)) seg = true /\ exists post, s = seg +:+ post /\ ends post.
Definition inner_segment (seg s : string) : Prop :=
  exists pre c rest, s = pre +:+ String c rest /\ sep c = true /\ head_segment seg rest.
Definition segment (seg s : string) : Prop := head_segment seg s \/ inner_segment seg s.

Lemma head_segment_unique seg seg' s : head_segment seg s -> head_segment seg' s -> seg = seg'.
Proof.
  revert seg seg'. assert (forall post a seg, ends post -> sep a = false -> post <> String a seg) as Hend.
  { intros post a seg [->|(c & q & -> & Hc)] Ha; [done|]. intros [= -> ->]. congruence. }
  induction s as [|a s IH]; intros seg seg' [H (post & Hs & Hp)] [H' (post' & Hs' & Hp')].
  - by destruct seg, seg'.
  - destruct seg as [|b seg], seg' as [|b' seg']; [done| | |].
    + injection Hs' as -> Hs'. simpl in H'. apply andb_true_iff in H' as [Hb _].
      exfalso. eapply (Hend post b' s); [done|by destruct (sep b')|done].
    + injection Hs as -> Hs. simpl in H. apply andb_true_iff in H as [Hb _].
      exfalso. eapply (Hend post' b s); [done|by destruct (sep b)|done].
    + injection Hs as -> Hs. injection Hs' as -> Hs'. f_equal. simpl in H, H'.
      apply andb_true_iff in H as [_ H], H' as [_ H'].
      apply IH; (split; [done|]); [by exists post|by exists post'].
Qed.

Lemma inner_segment_cons seg a s : inner_segment seg (String a s) <->
  (sep a = true /\ head_segment seg s) \/ inner_segment seg s.
Proof.
  split.
  - intros (pre & c & rest & Heq & Hc & H). destruct pre as [|b pre]; injection Heq as -> Heq.
    + left. by rewrite Heq.
    + right. by exists pre, c, rest.
  - intros [[Ha H]|(pre & c & rest & -> & Hc & H)].
    + by exists "", a, s.
    + by exists (String a pre), c, rest.
Qed.

Lemma split_on_segments s : exists hd tl, split_on sep s = hd :: tl /\ head_segment hd s /\
  forall seg, seg ∈ tl <-> inner_segment seg s.
Proof.
  induction s as [|a s (hd & tl & Heq & Hh & Ht)]; simpl.
  - exists "", []. split; [done|]. split; [split; [done|]; exists ""; split; [done|by left]|].
    intros seg. split; [by intros ?%not_elem_of_nil|]. by intros ([] & c & rest & ? & _).
  - rewrite Heq. destruct (sep a) eqn:Ea.
    + exists "", (hd :: tl). split; [done|]. split.
      * split; [done|]. exists (String a s). split; [done|]. right. by exists a, s.
      * intros seg. rewrite elem_of_cons, Ht, inner_segment_cons, Ea. split.
        -- intros [->|H]; [by left|by right].
        -- intros [[_ H]|H]; [left; by eapply head_segment_unique|by right].
    + exists (String a hd), tl. split; [done|]. split.
      * destruct Hh as [Hn (post & -> & Hp)]. split; [simpl; by rewrite Ea, Hn|]. by exists post.
      * intros seg. rewrite Ht, inner_segment_cons, Ea. split; [by right|]. by intros [[? _]|].
Qed.

Lemma elem_of_split_on seg s : seg ∈ split_on sep s <-> segment seg s.
Proof.
  destruct (split_on_segments s) as (hd & tl & -> & Hh & Ht). rewrite elem_of_cons, Ht. unfold segment.
  split; intros [H|H]; [subst; by left|by right|left; by eapply head_segment_unique|by right].
Qed.
End segments.

(** An escape never reaches over a [/]. *)
Lemma decodes_slash s d : decodes s d -> forall p r, s = p +:+ String "/" r ->
  exists d1 d2, d = d1 +:+ String "/" d2 /\ decodes r d2.
Proof.
  induction 1 as [|a s d Ha Hd IH|x y s d Hx Hy Hd IH]; intros p r Heq.
  - by destruct p.
  - destruct p as [|b p]; injection Heq as -> Heq.
    + subst. by exists "", d.
    + destruct (IH p r Heq) as (d1 & d2 & -> & H2). by exists (String b d1), d2.
  - destruct p as [|b1 [|b2 [|b3 p]]]; injection Heq; clear Heq; intros; subst; try done.
    destruct (IH p r eq_refl) as (d1 & d2 & -> & H2). by eexists (String _ d1), d2.
Qed.

Lemma segment_suffix d1 d2 :
  segment path_separator ".." (String "/" d2) -> segment path_separator ".." (d1 +:+ String "/" d2).
Proof.
  intros [[_ (post & Heq & _)]|(pre & c & rest & Heq & Hc & Hh)]; [done|].
  right. exists (d1 +:+ pre), c, rest. split; [|done]. by rewrite append_assoc, <- Heq.
Qed.

Lemma path_escapes_base_ok path :
  path_escapes_base path = false <->
  exists decoded, decodes path decoded /\ ~ segment path_separator ".." decoded.
Proof.
  unfold path_escapes_base. split.
  - destruct (percent_decode path) as [d|] eqn:E; [|done]. intros H. exists d.
    split; [by apply percent_decode_sound|]. intros Hs%elem_of_split_on.
    rewrite any_false in H. by specialize (H _ Hs).
  - intros (d & Hd%percent_decode_complete & Hn). rewrite Hd. apply any_false. intros seg Hs.
    destruct (String.eqb_spec seg "..") as [->|]; [|done]. exfalso. by apply Hn, elem_of_split_on.
Qed.

(** What follows a part of a path that passes, passes too. *)
Lemma path_escapes_suffix p r :
  path_escapes_base (p +:+ String "/" r) = false -> path_escapes_base (String "/" r) = false.
Proof.
  rewrite !path_escapes_base_ok. intros (d & Hd & Hn).
  destruct (decodes_slash _ _ Hd p r eq_refl) as (d1 & d2 & -> & H2). exists (String "/" d2). split; [by constructor|].
  intros Hs. by apply Hn, segment_suffix.
Qed.

(** The check on forwarded paths is exact: a path passes exactly when each of
    its percent escapes is well formed and, decoded, no part between [/] or [\]
    separators is [..], so no spelling of [..] escapes the gateway's base path. *)
Theorem path_escapes_base_spec path :
  path_escapes_base path = false <->
  exists decoded, decodes path decoded /\ ~ segment path_separator ".." decoded.
Proof. apply path_escapes_base_ok. Qed.

(** ** Hosts *)

(** The forms of a [Host] header and the name each has. *)
Inductive host_names : string -> string -> Prop :=
| host_bracketed name : lacks "]" name -> host_names name ("[" +:+ name +:+ "]")
| host_bracketed_port name port :
    lacks "]" name -> host_names name ("[" +:+ name +:+ "]:" +:+ port)
| host_bare_v6 host :
    starts_with "[" host = false -> (1 < count_char ":" host)%nat -> host_names host host
| host_plain host : starts_with "[" host = false -> lacks ":" host -> host_names host host
| host_port name port :
    starts_with "[" name = false -> lacks ":" name -> lacks ":" port ->
    host_names name (name +:+ ":" +:+ port).

Lemma count_char_lacks c s : count_char c s = 0%nat <-> lacks c s.
Proof.
  unfold lacks. induction s as [|a s IH]; simpl; [done|]. by destruct (Ascii.eqb a c).
Qed.
Lemma count_char_app c s t : count_char c (s +:+ t) = (count_char c s + count_char c t)%nat.
Proof.
  induction s as [|a s IH]; [done|]. change (String a s +:+ t) with (String a (s +:+ t)).
  simpl. rewrite IH. by destruct (Ascii.eqb a c).
Qed.
Lemma rsplit_once_None c s : rsplit_once c s = None <-> lacks c s.
Proof.
  unfold lacks. induction s as [|a s IH]; simpl; [done|].
  rewrite andb_true_iff, <- IH. destruct (rsplit_once c s) as [[l r]|].
  - split; [done|]. by intros [_ ?].
  - destruct (Ascii.eqb a c); simpl; [split; [done|]; by intros [? _]|done].
Qed.
Lemma rsplit_once_Some c s l r :
  rsplit_once c s = Some (l, r) <-> s = l +:+ String c r /\ lacks c r.
Proof.
  revert l. induction s as [|a s IH]; intros l; simpl.
  { split; [done|]. intros [H _]. by destruct l. }
  destruct (rsplit_once c s) as [[l' r']|] eqn:E.
  - split.
    + intros [= <- <-]. destruct (proj1 (IH l') eq_refl) as [-> Hr]. done.
    + intros [H Hr]. destruct l as [|b l].
      * injection H as -> ->. apply rsplit_once_None in Hr. congruence.
      * injection H as -> H. by pose proof (proj2 (IH l) (conj H Hr)) as [= -> ->].
  - apply rsplit_once_None in E. destruct (Ascii.eqb_spec a c) as [->|Hne]; split.
    + intros [= <- <-]. done.
    + intros [H Hr]. destruct l as [|b l]; [by injection H as ->|]. injection H as -> ->.
      unfold lacks in E. rewrite str_all_app in E. simpl in E. rewrite Ascii.eqb_refl in E.
      by rewrite andb_false_r in E.
    + done.
    + intros [H Hr]. destruct l as [|b l]; [by injection H as ->|]. injection H as -> ->.
      unfold lacks in E. rewrite str_all_app in E. simpl in E. rewrite Ascii.eqb_refl in E.
      by rewrite andb_false_r in E.
Qed.

Lemma host_name_spec host name : host_name host = Some name <-> host_names name host.
Proof.
  split.
  - unfold host_name. intros H. destruct (strip_prefix "[" host) as [rest|] eqn:E.
    + apply strip_prefix_Some in E as ->.
      destruct (split_once "]" rest) as [[l r]|] eqn:Es; [|done]. apply split_once_Some in Es as [-> Hl].
      destruct (is_empty r || starts_with ":" r) eqn:Er; [|done]. injection H as ->.
      destruct r as [|a r]; [by constructor|]. simpl in Er.
      apply starts_with_spec in Er as [r' [= -> ->]]. by apply host_bracketed_port.
    + assert (starts_with "[" host = false) as Hn by (unfold starts_with; by rewrite E).
      destruct (Nat.ltb_spec 1 (count_char ":" host)); [injection H as <-; by constructor|].
      destruct (rsplit_once ":" host) as [[l r]|] eqn:Er; injection H as <-.
      * apply rsplit_once_Some in Er as [-> Hr]. rewrite count_char_app in *. simpl in *.
        apply host_port; [|apply count_char_lacks; lia|done].
        destruct l as [|a l]; [done|]. revert Hn. unfold starts_with.
        change (String a l +:+ String ":" r) with (String a (l +:+ String ":" r)).
        cbn -[Ascii.eqb]. by destruct (Ascii.eqb "[" a).
      * apply host_plain; [done|]. by apply rsplit_once_None.
  - assert (forall host, starts_with "[" host = false -> strip_prefix "[" host = None) as Hs.
    { intros h. unfold starts_with. by destruct (strip_prefix "[" h). }
    unfold host_name. intros [n Hn|n port Hn|h Hb Hc|h Hb Hl|n port Hb Hl Hp].
    + rewrite (proj2 (strip_prefix_Some "[" _ (n +:+ "]"))) by done.
      by rewrite (proj2 (split_once_Some "]" _ n "")).
    + rewrite (proj2 (strip_prefix_Some "[" _ (n +:+ "]:" +:+ port))) by done.
      rewrite (proj2 (split_once_Some "]" _ n (":" +:+ port))) by done.
      by destruct port.
    + rewrite Hs by done. by rewrite (proj2 (Nat.ltb_lt _ _)).
    + rewrite Hs by done. rewrite (proj2 (count_char_lacks _ _)) by done.
      by rewrite (proj2 (rsplit_once_None _ _)).
    + rewrite Hs.
      * rewrite count_char_app. simpl. rewrite !(proj2 (count_char_lacks _ _)) by done.
        by rewrite (proj2 (rsplit_once_Some ":" _ n port)).
      * destruct n as [|a n]; [done|]. revert Hb. unfold starts_with.
        change (String a n +:+ ":" +:+ port) with (String a (n +:+ ":" +:+ port)).
        cbn -[Ascii.eqb]. by destruct (Ascii.eqb "[" a).
Qed.

Fixpoint dots (n : nat) : string := match n with O => "" | S n => String "." (dots n) end.

Lemma trim_dots_exists s : exists n, s = trim_end_matches "." s +:+ dots n.
Proof.
  induction s as [|a s [n IH]]; [by exists 0%nat|]. simpl.
  destruct (trim_end_matches "." s) as [|b t] eqn:E.
  - destruct (Ascii.eqb_spec a ".") as [->|_].
    + exists (S n). simpl. by rewrite IH.
    + exists n. by rewrite IH.
  - exists n. by rewrite IH.
Qed.
Lemma trim_dots_app s n : trim_end_matches "." (s +:+ dots n) = trim_end_matches "." s.
Proof.
  induction s as [|a s IH].
  - induction n as [|n IH]; [done|]. simpl. change ("" +:+ dots n) with (dots n) in IH. by rewrite IH.
  - change (String a s +:+ dots n) with (String a (s +:+ dots n)). simpl. by rewrite IH.
Qed.

Lemma eq_ignore_case_length s t : eq_ignore_ascii_case s t = true -> String.length s = String.length t.
Proof.
  assert (forall s, String.length (to_ascii_lowercase s) = String.length s) as Hl.
  { induction s0; simpl; congruence. }
  intros Heq%String.eqb_eq. by rewrite <- (Hl s), <- (Hl t), Heq.
Qed.

(** A name of the local host: [localhost] in any case, with any number of final
    dots. *)
Lemma localhost_dots name : eq_ignore_ascii_case (trim_end_matches "." name) "localhost" = true <->
  exists base n, name = base +:+ dots n /\ eq_ignore_ascii_case base "localhost" = true.
Proof.
  split.
  - intros H. destruct (trim_dots_exists name) as [n Hn]. by eexists _, n.
  - intros (base & n & -> & H). rewrite trim_dots_app.
    assert (trim_end_matches "." base = base) as ->; [|done].
    pose proof (eq_ignore_case_length _ _ H) as Hl. unfold eq_ignore_ascii_case in H.
    do 9 (destruct base as [|? base]; [done|]). destruct base; [|done].
    apply String.eqb_eq in H. cbn -[to_ascii_lower] in H. injection H as _ _ _ _ _ _ _ _ H.
    assert (forall a, to_ascii_lower a = "t"%char -> Ascii.eqb a "." = false) as Ht.
    { intros x Hx. by destruct (Ascii.eqb_spec x ".") as [->|]. }
    cbn -[Ascii.eqb to_ascii_lower]. by rewrite (Ht _ H).
Qed.

Lemma lower_l_not_address a : to_ascii_lower a = to_ascii_lower "l" -> address_char a = false.
Proof. by destruct a as [[] [] [] [] [] [] [] []]. Qed.

Lemma localhost_not_address name :
  eq_ignore_ascii_case (trim_end_matches "." name) "localhost" = true -> parse_ip name = None.
Proof.
  intros (base & n & -> & H)%localhost_dots. destruct (parse_ip _) as [ip|] eqn:E; [|done].
  apply parse_ip_address in E. rewrite str_all_app in E. apply andb_true_iff in E as [E _].
  destruct base as [|a base]; [done|]. unfold eq_ignore_ascii_case in H. apply String.eqb_eq in H.
  cbn -[to_ascii_lower] in H. injection H as Ha _. simpl in E.
  by rewrite (lower_l_not_address _ Ha) in E.
Qed.

(** 127.0.0.0/8 and [::1]. *)
Definition loopback_address (ip : IpAddr) : Prop :=
  (exists b c d, ip = V4 127 b c d) \/ ip = V6 [0; 0; 0; 0; 0; 0; 0; 1].
Lemma ip_is_loopback_ok ip : ip_is_loopback ip = true <-> loopback_address ip.
Proof.
  unfold loopback_address. destruct ip as [a b c d|segments]; simpl.
  - rewrite Z.eqb_eq. split; [intros ->; left; by exists b, c, d|]. by intros [(? & ? & ? & [=])|].
  - rewrite bool_decide_eq_true. split; [intros ->; by right|]. by intros [(? & ? & ? & ?)|[=]].
Qed.

Definition loopback_name (name : string) : Prop :=
  (exists ip, parse_ip name = Some ip /\ loopback_address ip) \/
  exists base n, name = base +:+ dots n /\ eq_ignore_ascii_case base "localhost" = true.

(** A request reaches the proxy only under a loopback name: the [Host] check
    passes exactly when the first [Host] header is text of one of the forms a host
    is written in (bracketed or not, with or without a port, or a bare IPv6
    address) whose name is a loopback IP address or [localhost], in any case and
    with any number of final dots; any other name, whatever it resolves to, is
    refused. *)
Theorem host_is_loopback_spec {H : HeaderMap} headers :
  host_is_loopback headers = true <->
  exists v text name, get_header HOST headers = Some v /\ to_str v = Some text /\
    host_names name (trim text) /\ loopback_name name.
Proof.
  unfold host_is_loopback. split.
  - destruct (get_header HOST headers) as [v|] eqn:Ev; [|done]. simpl.
    destruct (to_str v) as [text|] eqn:Et; [|done].
    destruct (host_name (trim text)) as [name|] eqn:En; [|done]. intros Hname.
    exists v, text, name. split; [done|]. split; [done|]. split; [by apply host_name_spec|].
    destruct (parse_ip name) as [ip|] eqn:Ep; [left; exists ip; by rewrite <- ip_is_loopback_ok|].
    right. by apply localhost_dots.
  - intros (v & text & name & -> & Ht & Hn & Hl). simpl. rewrite Ht.
    apply host_name_spec in Hn. rewrite Hn. destruct Hl as [(ip & -> & Hip)|Hl]; [by apply ip_is_loopback_ok|].
    apply localhost_dots in Hl. by rewrite (localhost_not_address _ Hl).
Qed.

(** ** Mistyped routes *)

(** The first segment of a path, in any case, starts with a managed prefix's name,
    or is the start of one, at least eight letters long. *)
Definition mistyped (p : string) : Prop :=
  exists slashes first more route name,
    p = slashes +:+ first +:+ more /\ str_all (fun a => Ascii.eqb a "/") slashes = true /\
    first <> "" /\ lacks "/" first /\ (more = "" \/ exists m, more = String "/" m) /\
    route ∈ ROUTES /\ prefix route = String "/" name /\
    ((exists r, to_ascii_lowercase first = name +:+ r) \/
     (8 <= String.length first)%nat /\ exists r, name = to_ascii_lowercase first +:+ r).

Lemma head_split s first more :
  s = first +:+ more -> lacks "/" first -> (more = "" \/ exists m, more = String "/" m) ->
  head (split "/" s) = Some first.
Proof.
  intros -> Hf Hm. unfold split.
  destruct (split_on_segments (fun a => Ascii.eqb a "/") (first +:+ more)) as (hd & tl & -> & Hh & _).
  simpl. f_equal. eapply head_segment_unique; [exact Hh|]. split; [done|]. exists more. split; [done|].
  destruct Hm as [->|[m ->]]; [by left|right]. by exists "/"%char, m.
Qed.
Lemma head_split_exists s : exists first more, head (split "/" s) = Some first /\
  s = first +:+ more /\ lacks "/" first /\ (more = "" \/ exists m, more = String "/" m).
Proof.
  unfold split.
  destruct (split_on_segments (fun a => Ascii.eqb a "/") s) as (hd & tl & -> & (Hh & post & -> & Hp) & _).
  exists hd, post. repeat (split; [done|]).
  destruct Hp as [->|(c & q & -> & ->%Ascii.eqb_eq)]; [by left|right]. by exists q.
Qed.

Lemma trim_slashes_exists s : exists slashes, s = slashes +:+ trim_start_matches "/" s /\
  str_all (fun a => Ascii.eqb a "/") slashes = true.
Proof.
  induction s as [|a s (sl & Hs & Hall)]; [by exists ""|]. cbn -[Ascii.eqb].
  destruct (Ascii.eqb_spec a "/") as [->|Hne]; [|by exists ""].
  exists (String "/" sl). split; [|done].
  change (String "/" s = String "/" (sl +:+ trim_start_matches "/" s)). by rewrite <- Hs.
Qed.
Lemma trim_slashes slashes first more : str_all (fun a => Ascii.eqb a "/") slashes = true ->
  first <> "" -> lacks "/" first ->
  trim_start_matches "/" (slashes +:+ first +:+ more) = first +:+ more.
Proof.
  intros Hs Hne Hf. induction slashes as [|a s IH].
  - destruct first as [|b first]; [done|]. unfold lacks in Hf. cbn -[Ascii.eqb] in *.
    change (trim_start_matches "/" (String b (first +:+ more)) = String b (first +:+ more)).
    cbn -[Ascii.eqb]. by destruct (Ascii.eqb b "/").
  - change (String a s +:+ ?t) with (String a (s +:+ t)). cbn -[Ascii.eqb] in *.
    apply andb_true_iff in Hs as [-> Hs]. by apply IH.
Qed.

Lemma route_name route : route ∈ ROUTES -> exists name, prefix route = String "/" name.
Proof.
  assert (all (fun route => starts_with "/" (prefix route)) ROUTES = true) as H by reflexivity.
  rewrite all_true in H. intros Hr. specialize (H _ Hr). apply starts_with_spec in H as [r Hr']. by exists r.
Qed.

Lemma lowercase_empty s : is_empty (to_ascii_lowercase s) = is_empty s.
Proof. by destruct s. Qed.
Lemma length_lowercase s : String.length (to_ascii_lowercase s) = String.length s.
Proof. induction s; simpl; congruence. Qed.

Lemma resembles_route_ok p : resembles_route p = true <-> mistyped p.
Proof.
  unfold resembles_route, mistyped.
  assert (forall first name, (String.eqb (to_ascii_lowercase first) name || starts_with name (to_ascii_lowercase first)
      || starts_with (to_ascii_lowercase first) name && Nat.leb 8 (String.length (to_ascii_lowercase first))) = true <->
    ((exists r, to_ascii_lowercase first = name +:+ r) \/
     (8 <= String.length first)%nat /\ exists r, name = to_ascii_lowercase first +:+ r)) as Hname.
  { intros first name. rewrite !orb_true_iff, andb_true_iff, !starts_with_spec, Nat.leb_le, length_lowercase, String.eqb_eq.
    split; [intros [[->|H]|[H H']]; [left|by left|by right]|intros [H|[H H']]; [left; by right|by right]].
    exists "". by rewrite append_nil_r. }
  rewrite andb_true_iff, any_true. split.
  - intros [Hne (route & Hr & H)]. destruct (trim_slashes_exists p) as (slashes & Hp & Hs).
    destruct (head_split_exists (trim_start_matches "/" p)) as (first & more & Hh & Ht & Hf & Hm).
    rewrite Hh in Hne, H. simpl in Hne, H. rewrite lowercase_empty in Hne.
    destruct (route_name route Hr) as [name Hn]. rewrite Hn in H. change (strip_prefix "/" (String "/" name)) with (Some name) in H.
    apply Hname in H. exists slashes, first, more, route, name. split; [by rewrite <- Ht|].
    split; [done|]. split; [by destruct first|]. done.
  - intros (slashes & first & more & route & name & -> & Hs & Hne & Hf & Hm & Hr & Hn & H).
    rewrite (trim_slashes slashes first more Hs Hne Hf), (head_split _ first more eq_refl Hf Hm). simpl.
    split; [rewrite lowercase_empty; by destruct first|]. exists route. split; [done|]. rewrite Hn.
    by apply Hname.
Qed.
