(* ===== verification/Cache.v ===== *)
(** * The credential cache ([crates/agent/src/llm_proxy/cache.rs])

    The operations on the cache's entries, with every reading of a clock an
    argument (the code reads them one after the other), and the concurrent use of
    the cache as a step relation: any number of tasks call [get_or_fetch], each
    holding its key's flight lock while it looks up and fetches, while entries are
    invalidated, tasks are cancelled, the monotonic clock advances and the wall
    clock jumps. Instants are nanoseconds, the wall clock whole seconds. *)

From S2P Require Import Prelude Str Config.

Definition CREDENTIAL_EXPIRY_MARGIN : Z := secs 30.
Definition CREDENTIAL_CACHE_TTL : Z := secs 60.

(** [agentdesktop_core::model::LlmGatewayCredential]. *)
Record LlmGatewayCredential : Type := {
  lc_credential : string;
  lc_expires_at : Z;
}.

Record CachedCredential : Type := {
  ce_credential : string;
  ce_device_id : string;
  ce_valid_until : Z;
  ce_valid_until_unix : Z;
  ce_expires : Z;
  ce_expires_unix : Z;
}.
#[global] Instance CachedCredential_eq_dec : EqDecision CachedCredential.
Proof. solve_decision. Defined.

Record Deadline : Type := { dl_monotonic : Z; dl_unix : Z }.

(** [Deadline::from_unix], with the clocks it reads. *)
Definition deadline_from_unix (instant unix expires : Z) : Deadline :=
  {| dl_monotonic := instant + secs (u64_saturating_sub expires unix); dl_unix := expires |}.

Abbreviation entries := (gmap string CachedCredential).

(** [lookup], reading [Instant::now()] and [now_unix()]. *)
Definition cache_lookup (es : entries) (instant unix : Z) (key device_id : string)
  : option (string * Deadline) :=
  (fun e => (ce_credential e, {| dl_monotonic := ce_expires e; dl_unix := ce_expires_unix e |})) <$>
  option_filter (fun e =>
    String.eqb (ce_device_id e) device_id
    && (instant <? ce_valid_until e) && (unix <? ce_valid_until_unix e)) (es !! key).

Definition as_secs (d : Z) : Z := d / 1000000000.

(** How long a credential is reused. *)
Definition lifetime (now expires : Z) : Z :=
  Z.min (Z.max 0 (secs (u64_saturating_sub expires now) - CREDENTIAL_EXPIRY_MARGIN))
    CREDENTIAL_CACHE_TTL.

(** [insert], reading [now_unix()] and then [Instant::now()] twice. *)
Definition cache_insert (es : entries) (now instant1 instant2 : Z) (key device_id : string)
    (fetched : LlmGatewayCredential) : entries :=
  let remaining := secs (u64_saturating_sub (lc_expires_at fetched) now) in
  let life := lifetime now (lc_expires_at fetched) in
  if 0 <? life then
    <[key := {| ce_credential := lc_credential fetched;
                ce_device_id := device_id;
                ce_valid_until := instant1 + life;
                ce_valid_until_unix := now + as_secs life;
                ce_expires := instant2 + remaining;
                ce_expires_unix := lc_expires_at fetched |}]> es
  else delete key es.

Definition invalidate_if (es : entries) (key credential : string) : entries :=
  if is_some_and (fun e => String.eqb (ce_credential e) credential) (es !! key)
  then delete key es else es.

(** ** One call, with nothing in between *)

(** [get_or_fetch] by a caller that holds the flight lock; the clocks are read
    before the lookup and after the fetch. *)
Definition get_or_fetch {S E} (before after : Z * Z) (key device_id : string)
    (fetch : ST S E LlmGatewayCredential) : ST (entries * S) E (string * Deadline * bool) :=
  fun '(es, s) =>
    match cache_lookup es (fst before) (snd before) key device_id with
    | Some (credential, deadline) => (Ok (credential, deadline, true), (es, s))
    | None =>
        match fetch s with
        | (Err e, s') => (Err e, (es, s'))
        | (Ok fetched, s') =>
            (Ok (lc_credential fetched,
                 deadline_from_unix (fst after) (snd after) (lc_expires_at fetched), false),
             (cache_insert es (snd after) (fst after) (fst after) key device_id fetched, s'))
        end
    end.

(** [get_credential]. *)
Definition get_credential {S E} (before after : Z * Z) (key device_id : string)
    (fetch : ST S E LlmGatewayCredential) : ST (entries * S) E LlmGatewayCredential :=
  let* (credential, expiry, _) := get_or_fetch before after key device_id fetch in
  st_ret {| lc_credential := credential; lc_expires_at := dl_unix expiry |}.

(** ** Concurrent calls *)

(** A call of [get_or_fetch], by where it is. *)
Inductive task : Type :=
| Waiting (key device_id : string)
| Holding (key device_id : string)
| Fetching (key device_id : string)
| Returned (res : result (string * Deadline * bool) string)
| Cancelled.

(** A fetch that succeeded, and when its credential was inserted. *)
Record issue : Type := {
  is_key : string;
  is_device : string;
  is_fetched : LlmGatewayCredential;
  is_unix : Z;
  is_instant : Z;
}.

Record world : Type := {
  w_instant : Z;
  w_entries : entries;
  w_flights : gmap string nat;   (* the task holding a key's flight lock *)
  w_tasks : list task;
  w_issued : list issue;         (* the newest first *)
}.

Definition set_task (i : nat) (t : task) (w : world) : world :=
  {| w_instant := w_instant w; w_entries := w_entries w; w_flights := w_flights w;
     w_tasks := <[i := t]> (w_tasks w); w_issued := w_issued w |}.
Definition with_entries (es : entries) (w : world) : world :=
  {| w_instant := w_instant w; w_entries := es; w_flights := w_flights w;
     w_tasks := w_tasks w; w_issued := w_issued w |}.
Definition with_flights (m : gmap string nat) (w : world) : world :=
  {| w_instant := w_instant w; w_entries := w_entries w; w_flights := m;
     w_tasks := w_tasks w; w_issued := w_issued w |}.
Definition with_instant (t : Z) (w : world) : world :=
  {| w_instant := t; w_entries := w_entries w; w_flights := w_flights w;
     w_tasks := w_tasks w; w_issued := w_issued w |}.
Definition release (key : string) (w : world) : world :=
  with_flights (delete key (w_flights w)) w.

(** The insertion of a fetched credential, its clocks read at [w_instant] and
    later. *)
Definition store (now instant2 : Z) (key device_id : string) (fetched : LlmGatewayCredential)
    (w : world) : world :=
  {| w_instant := instant2;
     w_entries := cache_insert (w_entries w) now (w_instant w) instant2 key device_id fetched;
     w_flights := w_flights w; w_tasks := w_tasks w;
     w_issued := {| is_key := key; is_device := device_id; is_fetched := fetched;
                    is_unix := now; is_instant := w_instant w |} :: w_issued w |}.

Definition task_key (t : task) : option string :=
  match t with Holding k _ | Fetching k _ => Some k | _ => None end.
Definition finished (t : task) : bool :=
  match t with Returned _ | Cancelled => true | _ => false end.

Inductive step : world -> world -> Prop :=
| step_call w key device_id :
    step w {| w_instant := w_instant w; w_entries := w_entries w; w_flights := w_flights w;
              w_tasks := (w_tasks w ++ [Waiting key device_id])%list; w_issued := w_issued w |}
| step_lock w i key device_id :
    w_tasks w !! i = Some (Waiting key device_id) ->
    w_flights w !! key = None ->
    step w (with_flights (<[key := i]> (w_flights w)) (set_task i (Holding key device_id) w))
| step_hit w i key device_id unix credential deadline :
    w_tasks w !! i = Some (Holding key device_id) ->
    cache_lookup (w_entries w) (w_instant w) unix key device_id = Some (credential, deadline) ->
    step w (release key (set_task i (Returned (Ok (credential, deadline, true))) w))
| step_miss w i key device_id unix :
    w_tasks w !! i = Some (Holding key device_id) ->
    cache_lookup (w_entries w) (w_instant w) unix key device_id = None ->
    step w (set_task i (Fetching key device_id) w)
| step_fetched w i key device_id fetched now unix instant2 :
    w_tasks w !! i = Some (Fetching key device_id) ->
    w_instant w <= instant2 ->
    step w (release key (set_task i
      (Returned (Ok (lc_credential fetched,
                     deadline_from_unix instant2 unix (lc_expires_at fetched), false)))
      (store now instant2 key device_id fetched w)))
| step_failed w i key device_id error :
    w_tasks w !! i = Some (Fetching key device_id) ->
    step w (release key (set_task i (Returned (Err error)) w))
| step_cancel w i t :
    w_tasks w !! i = Some t -> finished t = false ->
    step w (match task_key t with
            | Some key => release key (set_task i Cancelled w)
            | None => set_task i Cancelled w
            end)
| step_invalidate w key credential :
    step w (with_entries (invalidate_if (w_entries w) key credential) w)
| step_time w instant :
    w_instant w <= instant -> step w (with_instant instant w).

Definition idle (instant : Z) : world :=
  {| w_instant := instant; w_entries := ∅; w_flights := ∅; w_tasks := []; w_issued := [] |}.

Inductive reachable (start : Z) : world -> Prop :=
| reach_idle : reachable start (idle start)
| reach_step w w' : reachable start w -> step w w' -> reachable start w'.

(** ** Invariants *)

Definition issued_for (key : string) (i : issue) : bool := String.eqb (is_key i) key.
Definition remaining (i : issue) : Z := secs (u64_saturating_sub (lc_expires_at (is_fetched i)) (is_unix i)).
Definition reused_for (i : issue) : Z := lifetime (is_unix i) (lc_expires_at (is_fetched i)).

(** An entry is the newest credential fetched for its key. *)
Record entry_of (i : issue) (e : CachedCredential) : Prop := {
  eo_credential : ce_credential e = lc_credential (is_fetched i);
  eo_device : ce_device_id e = is_device i;
  eo_live : 0 < reused_for i;
  eo_until : ce_valid_until e = is_instant i + reused_for i;
  eo_until_unix : ce_valid_until_unix e = is_unix i + as_secs (reused_for i);
  eo_expires : is_instant i + remaining i <= ce_expires e;
  eo_expires_unix : ce_expires_unix e = lc_expires_at (is_fetched i);
}.

Definition entries_issued (es : entries) (issued : list issue) : Prop :=
  forall key e, es !! key = Some e ->
  exists i, find (issued_for key) issued = Some i /\ entry_of i e.

Definition flights_held (flights : gmap string nat) (tasks : list task) : Prop :=
  forall key i, flights !! key = Some i <-> exists t, tasks !! i = Some t /\ task_key t = Some key.

Lemma entries_issued_sub es es' issued :
  es' ⊆ es -> entries_issued es issued -> entries_issued es' issued.
Proof. intros Hs H key e He. eapply H, lookup_weaken; done. Qed.

Lemma invalidate_if_sub es key credential : invalidate_if es key credential ⊆ es.
Proof. unfold invalidate_if. case_match; [apply delete_subseteq|done]. Qed.

Lemma cache_insert_issued es issued now instant1 instant2 key device_id fetched :
  instant1 <= instant2 -> entries_issued es issued ->
  entries_issued (cache_insert es now instant1 instant2 key device_id fetched)
    ({| is_key := key; is_device := device_id; is_fetched := fetched;
        is_unix := now; is_instant := instant1 |} :: issued).
Proof.
  intros Hle H key' e He. simpl. unfold issued_for at 1. simpl.
  destruct (String.eqb_spec key key') as [->|Hne].
  - eexists. split; [done|]. unfold cache_insert in He; cbv zeta in He.
    destruct (0 <? _) eqn:El; [|by rewrite lookup_delete_eq in He].
    rewrite lookup_insert_eq in He. injection He as <-. apply Z.ltb_lt in El.
    split; try done. unfold remaining. simpl. lia.
  - apply H. unfold cache_insert in He; cbv zeta in He.
    case_match; by rewrite ?lookup_insert_ne, ?lookup_delete_ne in He.
Qed.

Lemma flights_append flights tasks t :
  task_key t = None -> flights_held flights tasks -> flights_held flights (tasks ++ [t]).
Proof.
  intros Ht H key i. rewrite (H key i). split; intros (t' & Hl & Hk); exists t'; (split; [|done]).
  - by apply lookup_app_l_Some.
  - apply lookup_snoc_Some in Hl as [[_ Hl]|[_ <-]]; [done|congruence].
Qed.

(** A task that changes phase without changing what it holds. *)
Lemma flights_same flights tasks i t t' :
  tasks !! i = Some t -> task_key t' = task_key t ->
  flights_held flights tasks -> flights_held flights (<[i := t']> tasks).
Proof.
  intros Hi Hk H key j. rewrite (H key j). destruct (decide (i = j)) as [->|Hne].
  - rewrite list_lookup_insert_eq by (by eapply lookup_lt_Some).
    split; intros (x & Hx & Hkx); simplify_eq; eexists; (split; [done|]); congruence.
  - by rewrite list_lookup_insert_ne.
Qed.

Lemma flights_take flights tasks i t t' key :
  tasks !! i = Some t -> task_key t = None -> task_key t' = Some key -> flights !! key = None ->
  flights_held flights tasks -> flights_held (<[key := i]> flights) (<[i := t']> tasks).
Proof.
  intros Hi Ht Ht' Hf H key' j. destruct (decide (i = j)) as [<-|Hij].
  - rewrite list_lookup_insert_eq by (by eapply lookup_lt_Some).
    destruct (decide (key = key')) as [<-|Hk].
    + rewrite lookup_insert_eq. split; [by exists t'|done].
    + rewrite lookup_insert_ne, (H key' i) by done. split; intros (x & Hx & Hkx); simplify_eq; congruence.
  - rewrite list_lookup_insert_ne by done. destruct (decide (key = key')) as [<-|Hk].
    + rewrite lookup_insert_eq, <- (H key j), Hf. by split; [intros [= ->]|].
    + by rewrite lookup_insert_ne.
Qed.

Lemma flights_release flights tasks i t t' key :
  tasks !! i = Some t -> task_key t = Some key -> task_key t' = None ->
  flights_held flights tasks -> flights_held (delete key flights) (<[i := t']> tasks).
Proof.
  intros Hi Ht Ht' H. assert (flights !! key = Some i) as Hf by (apply H; by exists t).
  intros key' j. destruct (decide (i = j)) as [<-|Hij].
  - rewrite list_lookup_insert_eq by (by eapply lookup_lt_Some). split.
    + intros [Hne Hk]%lookup_delete_Some. apply H in Hk as (x & Hx & Hkx). congruence.
    + intros (x & [= <-] & Hkx). congruence.
  - rewrite list_lookup_insert_ne by done. rewrite <- (H key' j), lookup_delete_Some.
    split; [by intros [_ ?]|]. intros Hk. split; [|done]. intros ->. congruence.
Qed.

Record cache_inv (w : world) : Prop := {
  ci_flights : flights_held (w_flights w) (w_tasks w);
  ci_entries : entries_issued (w_entries w) (w_issued w);
}.

Lemma cache_step_inv w w' : step w w' -> cache_inv w -> cache_inv w'.
Proof.
  intros Hs [Hf He]. destruct Hs; (split; simpl; [|try done]); try done.
  - by apply flights_append.
  - by eapply flights_take.
  - by eapply flights_release.
  - by eapply flights_same.
  - by eapply flights_release.
  - by apply cache_insert_issued.
  - by eapply flights_release.
  - destruct (task_key t) eqn:Et; simpl; [by eapply flights_release|by eapply flights_same].
  - by destruct (task_key t).
  - eapply entries_issued_sub; [apply invalidate_if_sub|done].
Qed.

Lemma cache_reachable_inv start w : reachable start w -> cache_inv w.
Proof.
  induction 1 as [|w w' _ IH Hs]; [|by eapply cache_step_inv].
  split; simpl; [|by intros ? ?; rewrite lookup_empty].
  intros key i. rewrite lookup_empty, lookup_nil. split; [done|]. by intros (t & ? & _).
Qed.

(** ** Freshness *)

Lemma lifetime_bounds now expires : 0 < lifetime now expires ->
  lifetime now expires <= CREDENTIAL_CACHE_TTL /\
  lifetime now expires + CREDENTIAL_EXPIRY_MARGIN <= secs (u64_saturating_sub expires now) /\
  as_secs (lifetime now expires) <= 60 /\
  as_secs (lifetime now expires) + 30 <= expires - now.
Proof.
  unfold lifetime, as_secs, CREDENTIAL_EXPIRY_MARGIN, CREDENTIAL_CACHE_TTL, u64_saturating_sub, secs.
  intros H.
  assert (Z.min (Z.max 0 (Z.max 0 (expires - now) * 1000000000 - 30 * 1000000000)) (60 * 1000000000)
    = Z.min (expires - now - 30) 60 * 1000000000) as -> by lia.
  rewrite Z.div_mul by lia. lia.
Qed.

(** A cached credential is served only while it is fresh and to whom it was
    issued, whatever calls, cancellations, invalidations and clock changes came
    before: in every reachable state, a lookup that succeeds answers with the newest
    credential fetched for the key; that credential was fetched for the same
    device; less than 60 seconds have passed since, on the monotonic clock and on
    the wall clock; at least 30 seconds are left before it expires on either; and
    the deadline given with it is the credential's own expiry. *)
Theorem served_credential_is_fresh start w unix key device_id credential deadline :
  reachable start w ->
  cache_lookup (w_entries w) (w_instant w) unix key device_id = Some (credential, deadline) ->
  exists i, find (issued_for key) (w_issued w) = Some i /\
    is_device i = device_id /\ lc_credential (is_fetched i) = credential /\
    dl_unix deadline = lc_expires_at (is_fetched i) /\
    w_instant w < is_instant i + CREDENTIAL_CACHE_TTL /\ unix < is_unix i + 60 /\
    w_instant w + CREDENTIAL_EXPIRY_MARGIN < dl_monotonic deadline /\
    unix + 30 < lc_expires_at (is_fetched i).
Proof.
  intros [_ He]%cache_reachable_inv H. unfold cache_lookup in H.
  apply fmap_Some in H as (e & Hf & [= -> ->]). simpl.
  destruct (w_entries w !! key) as [e'|] eqn:Ek; [|done]. simpl in Hf.
  destruct (_ && _) eqn:Eb; [|done]. injection Hf as ->.
  apply andb_true_iff in Eb as [Eb Hu%Z.ltb_lt]. apply andb_true_iff in Eb as [Hd%String.eqb_eq Hi%Z.ltb_lt].
  destruct (He _ _ Ek) as (i & Hfind & [Hc Hdev Hl Hun Hux Hex Hexu]).
  unfold reused_for, remaining in *. destruct (lifetime_bounds _ _ Hl) as (H1 & H2 & H3 & H4).
  exists i. repeat split; try congruence; lia.
Qed.

(** ** One fetch at a time *)

(** A task that holds the flight lock of a key. *)
Definition holds (w : world) (key : string) (i : nat) : Prop :=
  exists t, w_tasks w !! i = Some t /\ task_key t = Some key.

(** The next step of the call holding a key's lock: its lookup, or the end of its
    fetch, which gives the lock back. *)
Definition can_go_on (w : world) (key : string) (j : nat) : Prop :=
  exists device_id,
    (w_tasks w !! j = Some (Holding key device_id) /\
     forall unix, exists w', step w w' /\
       (w_tasks w' !! j = Some (Fetching key device_id) \/
        w_flights w' !! key = None /\
        exists c d, cache_lookup (w_entries w) (w_instant w) unix key device_id = Some (c, d) /\
          w_tasks w' !! j = Some (Returned (Ok (c, d, true))))) \/
    (w_tasks w !! j = Some (Fetching key device_id) /\
     forall fetched now, exists w' d, step w w' /\ w_flights w' !! key = None /\
       w_tasks w' !! j = Some (Returned (Ok (lc_credential fetched, d, false))) /\
       w_entries w' = cache_insert (w_entries w) now (w_instant w) (w_instant w) key device_id fetched).

Lemma holder_goes_on w key j : holds w key j -> can_go_on w key j.
Proof.
  intros (t & Hj & Hk). pose proof (lookup_lt_Some _ _ _ Hj) as Hlt.
  destruct t as [| k d | k d | |]; try done; injection Hk as ->; exists d; [left|right]; (split; [done|]).
  - intros unix. destruct (cache_lookup (w_entries w) (w_instant w) unix key d) as [[c dl]|] eqn:E.
    + eexists. split; [by eapply step_hit|]. right. split; [by apply lookup_delete_eq|].
      exists c, dl. split; [done|]. by apply list_lookup_insert_eq.
    + eexists. split; [by eapply step_miss|]. left. by apply list_lookup_insert_eq.
  - intros fetched now. eexists _, _. split; [by apply (step_fetched w j key d fetched now now (w_instant w))|].
    split; [by apply lookup_delete_eq|]. split; [by apply list_lookup_insert_eq|done].
Qed.

(** C39. Fetches are single-flight and the lock is never lost: in every reachable
    state at most one call per key is past the lock, so at most one is fetching; a
    waiting call can either take the lock now, or another call holds it and can
    itself go on, to its lookup or to the end of its fetch, which stores the
    credential and gives the lock back. *)
Theorem single_flight start w :
  reachable start w ->
  (forall key i j, holds w key i -> holds w key j -> i = j) /\
  forall i key device_id, w_tasks w !! i = Some (Waiting key device_id) ->
    (exists w', step w w' /\ w_tasks w' !! i = Some (Holding key device_id)) \/
    exists j, j <> i /\ holds w key j /\ can_go_on w key j.
Proof.
  intros [Hf _]%cache_reachable_inv. split.
  - intros key i j Hi%Hf Hj%Hf. congruence.
  - intros i key dev Hi. destruct (w_flights w !! key) as [j|] eqn:E.
    + right. exists j. assert (holds w key j) as Hj by (by apply Hf).
      split; [|split; [done|by apply holder_goes_on]]. intros ->. destruct Hj as (t & Ht & Hk). rewrite Hi in Ht. by injection Ht as <-.
    + left. eexists. split; [by eapply step_lock|]. simpl.
      by rewrite list_lookup_insert_eq by (by eapply lookup_lt_Some).
Qed.

(** ** Examples *)

Definition demo_issue : LlmGatewayCredential := {| lc_credential := "jwt"; lc_expires_at := 3600 |}.

(** Two calls miss together; the first fetches and the second finds its result. *)
Definition fetching : world :=
  {| w_instant := 5; w_entries := ∅; w_flights := {[ "k" := 0%nat ]};
     w_tasks := [Fetching "k" "device"; Waiting "k" "device"]; w_issued := [] |}.
Definition fetched_once : world :=
  release "k" (set_task 0 (Returned (Ok ("jwt", deadline_from_unix 5 100 3600, false)))
    (store 100 5 "k" "device" demo_issue fetching)).

Definition one_waiting : world :=
  {| w_instant := 5; w_entries := ∅; w_flights := ∅;
     w_tasks := [Waiting "k" "device"]; w_issued := [] |}.
Definition two_waiting : world :=
  {| w_instant := 5; w_entries := ∅; w_flights := ∅;
     w_tasks := [Waiting "k" "device"; Waiting "k" "device"]; w_issued := [] |}.
Definition locked : world :=
  {| w_instant := 5; w_entries := ∅; w_flights := {[ "k" := 0%nat ]};
     w_tasks := [Holding "k" "device"; Waiting "k" "device"]; w_issued := [] |}.

Lemma fetching_reachable : reachable 5 fetching.
Proof.
  apply (reach_step 5 locked); [|exact (step_miss locked 0 "k" "device" 100 eq_refl eq_refl)].
  apply (reach_step 5 two_waiting); [|exact (step_lock two_waiting 0 "k" "device" eq_refl eq_refl)].
  apply (reach_step 5 one_waiting); [|exact (step_call one_waiting "k" "device")].
  apply (reach_step 5 (idle 5)); [apply reach_idle|exact (step_call (idle 5) "k" "device")].
Qed.
Lemma fetched_reachable : reachable 5 fetched_once.
Proof.
  eapply reach_step; [apply fetching_reachable|].
  by apply (step_fetched fetching 0 "k" "device" demo_issue 100 100 5).
Qed.

Lemma single_flight_witness :
  (forall key i j, holds fetching key i -> holds fetching key j -> i = j) /\
  forall i key device_id, w_tasks fetching !! i = Some (Waiting key device_id) ->
    (exists w', step fetching w' /\ w_tasks w' !! i = Some (Holding key device_id)) \/
    exists j, j <> i /\ holds fetching key j /\ can_go_on fetching key j.
Proof. exact (single_flight 5 fetching fetching_reachable). Defined.

Lemma served_credential_is_fresh_witness :
  let deadline := {| dl_monotonic := 3500000000005; dl_unix := 3600 |} in
  cache_lookup (w_entries fetched_once) (w_instant fetched_once) 159 "k" "device"
    = Some ("jwt", deadline) /\
  exists i, find (issued_for "k") (w_issued fetched_once) = Some i /\
    is_device i = "device" /\ lc_credential (is_fetched i) = "jwt" /\
    dl_unix deadline = lc_expires_at (is_fetched i) /\
    w_instant fetched_once < is_instant i + CREDENTIAL_CACHE_TTL /\ 159 < is_unix i + 60 /\
    w_instant fetched_once + CREDENTIAL_EXPIRY_MARGIN < dl_monotonic deadline /\
    159 + 30 < lc_expires_at (is_fetched i).
Proof.
  assert (cache_lookup (w_entries fetched_once) (w_instant fetched_once) 159 "k" "device"
    = Some ("jwt", {| dl_monotonic := 3500000000005; dl_unix := 3600 |})) as H
    by (vm_compute; reflexivity).
  split; [exact H|].
  exact (served_credential_is_fresh 5 fetched_once 159 "k" "device" "jwt"
           {| dl_monotonic := 3500000000005; dl_unix := 3600 |} fetched_reachable H).
Defined.
