(* ===== verification/Credential.v ===== *)
(** * Gateway credentials ([crates/agent/src/api.rs], [subscription.rs])

    How the daemon obtains the credential of a client: from the controller, by
    OIDC, alone or combined with the user's own subscription. The sign-ins and the
    controller are network services; they are a record of functions of the calls
    made so far, and every call is recorded, so the theorems can say what the
    services were asked. [load_effective_config] and the device name of
    [identity.rs] are here too. *)

From S2P Require Import Prelude Str Json Fs Config Cache Remote.

(** A service that was asked, with what it was asked for. *)
Inductive service_call : Type :=
| CallController (client_id : string) (subscription : bool)
| CallOidc (subscription_available : bool) (github_client_id : option string)
| CallAnthropic (interactive : bool)
| CallOpenAi (interactive : bool)
| CallGitHub (client_id : string).

Record sign_in_error : Type := { se_sign_in_required : bool; se_message : string }.
(** [gateway_oidc::CredentialAcquisition]. *)
Record acquisition : Type := { aq_credential : LlmGatewayCredential; aq_interactive : bool }.

Record sign_ins : Type := {
  si_controller : list service_call -> ControllerConnectionConfig -> string -> bool ->
    result LlmGatewayCredential string;
  si_oidc : list service_call -> LlmGatewayAuthentication -> bool -> option string ->
    result acquisition sign_in_error;
  si_anthropic : list service_call -> bool -> result (option LlmGatewayCredential) string;
  si_openai : list service_call -> bool -> result (option (LlmGatewayCredential * string)) string;
  si_github : list service_call -> string -> result LlmGatewayCredential string;
}.

Definition calling (A E : Type) : Type := ST (list service_call) E A.

(** A service is asked: the call is recorded and answered. *)
Definition ask {A E} (c : service_call) (f : list service_call -> result A E) : calling A E :=
  fun calls => (f calls, (calls ++ [c])%list).

(** ** Subscriptions ([subscription.rs]) *)

Record SubscriptionCredential : Type := {
  su_token : LlmGatewayCredential;
  su_account_id : option string;
}.

Definition combine (subscription : option SubscriptionCredential) (ident : LlmGatewayCredential)
  : LlmGatewayCredential :=
  match subscription with
  | None => ident
  | Some subscription =>
      let credential := "agentdesktop:" +:+ lc_credential (su_token subscription) +:+ ":"
                        +:+ lc_credential ident in
      {| lc_credential := match su_account_id subscription with
                          | Some account_id => credential +:+ ":" +:+ account_id
                          | None => credential
                          end;
         lc_expires_at := Z.min (lc_expires_at (su_token subscription)) (lc_expires_at ident) |}
  end.

(** Status codes. *)
Definition BAD_REQUEST : Z := 400.
Definition UNAUTHORIZED : Z := 401.
Definition FAILED_DEPENDENCY : Z := 424.
Definition INTERNAL_SERVER_ERROR : Z := 500.
Definition BAD_GATEWAY : Z := 502.

Section with_sign_ins.
Context (si : sign_ins).

(** [subscription::credential]. *)
Definition subscription_credential (continue_in_browser : bool) (client_id : string)
  : calling (option SubscriptionCredential) string :=
  if bool_decide (client_id ∈ ["claude-code"; "claude-desktop"]) then
    let* token := ask (CallAnthropic (negb continue_in_browser))
                    (fun calls => si_anthropic si calls (negb continue_in_browser)) in
    st_ret ((fun token => {| su_token := token; su_account_id := None |}) <$> token)
  else if String.eqb client_id "codex" then
    let* token := ask (CallOpenAi (negb continue_in_browser))
                    (fun calls => si_openai si calls (negb continue_in_browser)) in
    st_ret ((fun '(token, account_id) =>
               {| su_token := token; su_account_id := Some account_id |}) <$> token)
  else st_err ("subscription authentication is not supported for client " +:+ client_id).

Definition compose (ident : LlmGatewayCredential) (continue_in_browser : bool)
    (client_id : string) : calling LlmGatewayCredential string :=
  let* subscription := subscription_credential continue_in_browser client_id in
  st_ret (combine subscription ident).

(** ** The credential of a client ([api.rs]) *)

Definition program_uses_subscription (config : DaemonConfig) (client_id : string) : bool :=
  bool_decide (subscription_auth (dm_programs config) client_id = Some CredentialHelper).

Definition controller_credential (controller : ControllerConnectionConfig) (client_id : string)
    (subscription : bool) : calling LlmGatewayCredential string :=
  ask (CallController client_id subscription)
    (fun calls => si_controller si calls controller client_id subscription).

Definition bad_gateway (error : string) : Z * string := (BAD_GATEWAY, error).

Definition controller_subscription_credential (controller : ControllerConnectionConfig)
    (client_id : string) : calling LlmGatewayCredential (Z * string) :=
  let* subscription := st_map_err bad_gateway (subscription_credential false client_id) in
  let* ident := st_map_err bad_gateway
                     (controller_credential controller client_id (is_some subscription)) in
  st_ret (combine subscription ident).

(** The GitHub client a gateway signs in with, for the device flow only. *)
Definition device_flow_client (gateway : LlmGatewayConfig) : option string :=
  gw_github_oauth gateway ≫= (fun github =>
    match gh_source github with DeviceFlow => gh_client_id github | Request => None end).

Definition resolve_gateway_credential (config effective : DaemonConfig) (client_id : string)
    (include_subscription passthrough_subscription : bool)
  : calling LlmGatewayCredential (Z * string) :=
  match dm_llm_gateway effective with
  | None => st_err (FAILED_DEPENDENCY, "daemon has no LLM gateway configured")
  | Some gateway =>
      let uses_subscription :=
        include_subscription && program_uses_subscription effective client_id in
      let finish '(ident, continue_in_browser) :=
        if uses_subscription : bool
        then st_map_err bad_gateway (compose ident continue_in_browser client_id)
        else st_ret ident in
      match gw_authentication gateway with
      | Some (ControllerJwt _ _) =>
          match dm_controller config with
          | None => st_err (FAILED_DEPENDENCY, "controller JWT authentication requires a controller")
          | Some controller =>
              if uses_subscription then controller_subscription_credential controller client_id
              else let* ident := st_map_err bad_gateway
                     (controller_credential controller client_id passthrough_subscription) in
                   finish (ident, false)
          end
      | Some (Oidc _ _ _ _ _ _ as authentication) =>
          let github_client_id := if include_subscription then None else device_flow_client gateway in
          let* acquired := st_map_err
            (fun e => (if se_sign_in_required e then UNAUTHORIZED else BAD_GATEWAY, se_message e))
            (ask (CallOidc uses_subscription github_client_id)
               (fun calls => si_oidc si calls authentication uses_subscription github_client_id)) in
          finish (aq_credential acquired, aq_interactive acquired && uses_subscription)
      | None => st_err (BAD_GATEWAY, "LLM gateway has no authentication configured")
      end
  end.

Definition gateway_credential (config effective : DaemonConfig) (client_id : string)
    (include_subscription : bool) : calling LlmGatewayCredential (Z * string) :=
  resolve_gateway_credential config effective client_id include_subscription false.
Definition gateway_proxy_credential (config effective : DaemonConfig) (client_id : string)
    (subscription : bool) : calling LlmGatewayCredential (Z * string) :=
  resolve_gateway_credential config effective client_id false subscription.
End with_sign_ins.

(** ** What the daemon reads *)

Section with_parsers.
Context (parse_url : string -> result Url string).
Context (from_yaml : string -> result DaemonConfig string).
Context (parse_identity : string -> result string string).
Context (url_as_str : Url -> string).

Definition load_effective_config (s : fs) (config : DaemonConfig) (state_dir : path)
  : result DaemonConfig string :=
  if is_none (dm_controller config) then Ok config
  else match fs_read_to_string s (remote_config_path state_dir) with
       | Ok contents =>
           map_err (context "parse applied remote configuration")
             (parse_daemon parse_url from_yaml contents)
       | Err NotFound => Ok config
       | Err e => Err (io_kind_message e)
       end.

(** [identity::load_device_id]. *)
Definition load_device_id (s : fs) (p : path) : result (option string) string :=
  match fs_read s p with
  | Ok contents => let? device_id := map_err (context "parse device identity") (parse_identity contents) in
                   Ok (Some device_id)
  | Err NotFound => Ok None
  | Err e => Err (context ("read identity from " +:+ display p) (io_kind_message e))
  end.

Definition identity_path (state_dir : path) : path := path_join state_dir ["identity.json"].
Definition nul : string := String "000" "".

(** The key of a controller credential. *)
Definition cache_key_of (client_id : string) (gateway : LlmGatewayConfig) (audience : string) : string :=
  client_id +:+ nul +:+ url_as_str (gw_url gateway) +:+ nul +:+ audience.

(** The credential helper's request, [llm_gateway_credential]. *)
Definition helper_credential (si : sign_ins) (s : fs) (before after : Z * Z) (config : DaemonConfig)
    (state_dir : path) (client_id : string)
  : ST (entries * list service_call) (Z * string) LlmGatewayCredential := fun w =>
  if negb (valid_client_id client_id) then (Err (BAD_REQUEST, "invalid client ID"), w)
  else match load_effective_config s config state_dir with
  | Err error => (Err (INTERNAL_SERVER_ERROR, context "read applied configuration" error), w)
  | Ok effective =>
      let direct := fun '(es, calls) =>
        let '(r, calls') := gateway_credential si config effective client_id true calls in
        (r, (es, calls')) in
      if program_uses_subscription effective client_id then direct w
      else match dm_llm_gateway effective with
      | Some gateway =>
          match gw_authentication gateway with
          | Some (ControllerJwt audience allowed_client_ids) =>
              if bool_decide (client_id ∈ allowed_client_ids) then
                match load_device_id s (identity_path state_dir) with
                | Ok (Some device_id) =>
                    get_credential before after (cache_key_of client_id gateway audience) device_id
                      (gateway_credential si config effective client_id true) w
                | _ => direct w
                end
              else direct w
          | _ => direct w
          end
      | None => direct w
      end
  end.
End with_parsers.

(** ** What the controller is told *)

Section billing.
Context (si : sign_ins).

Lemma ask_inv {A E} c f calls (r : result A E) calls' :
  ask c f calls = (r, calls') -> r = f calls /\ calls' = (calls ++ [c])%list.
Proof. by intros [= <- <-]. Qed.

Lemma st_map_err_Ok {S E F A} (f : E -> F) (m : ST S E A) s a s' :
  st_map_err f m s = (Ok a, s') -> m s = (Ok a, s').
Proof. unfold st_map_err. destruct (m s) as [[]]; by intros [= <- <-]. Qed.

Lemma combine_expiry subscription ident :
  lc_expires_at (combine subscription ident) <= lc_expires_at ident.
Proof. destruct subscription as [[token a]|]; simpl; lia. Qed.

(** A credential obtained from the controller. *)
Record controller_issued (config : DaemonConfig) (client_id : string)
    (subscription : option SubscriptionCredential) (flag : bool)
    (c : LlmGatewayCredential) (calls' : list service_call) : Prop := {
  cs_issued : exists controller ident before,
    dm_controller config = Some controller /\
    calls' = (before ++ [CallController client_id flag])%list /\
    si_controller si before controller client_id flag = Ok ident /\
    c = combine subscription ident /\ lc_expires_at c <= lc_expires_at ident;
}.

Lemma controller_credential_Ok controller client_id flag calls c calls' :
  controller_credential si controller client_id flag calls = (Ok c, calls') ->
  si_controller si calls controller client_id flag = Ok c /\
  calls' = (calls ++ [CallController client_id flag])%list.
Proof. by intros [-> ->]%ask_inv. Qed.

(** The controller is told of a subscription exactly when one is sent: a
    credential helper's controller credential ends with one call to the controller,
    whose subscription flag is set if and only if the credential combines a
    subscription token with the identity the controller issued; one is combined
    only for a client whose program uses a subscription; and the credential never
    outlives that identity. *)
Theorem subscription_is_declared config effective client_id include audience ids calls c calls' :
  dm_llm_gateway effective ≫= gw_authentication = Some (ControllerJwt audience ids) ->
  resolve_gateway_credential si config effective client_id include false calls = (Ok c, calls') ->
  exists subscription,
    controller_issued config client_id subscription (is_some subscription) c calls' /\
    (is_some subscription = true ->
     include = true /\ program_uses_subscription effective client_id = true).
Proof.
  intros Hg. unfold resolve_gateway_credential. destruct (dm_llm_gateway effective) as [gw|]; [|done].
  simpl in Hg. rewrite Hg. destruct (dm_controller config) as [controller|] eqn:Ec; [|done].
  destruct (include && program_uses_subscription effective client_id) eqn:Eu.
  - apply andb_true_iff in Eu as [Hi Hu]. unfold controller_subscription_credential. intros H.
    st_inv H. apply st_map_err_Ok in E. rename r into subscription, s into before.
    st_inv H. apply st_map_err_Ok, controller_credential_Ok in E0 as [Hc ->]. injection H as <- <-.
    exists subscription. split; [|done]. split. exists controller, r, before.
    repeat split; try done. apply combine_expiry.
  - intros H. st_inv H. apply st_map_err_Ok, controller_credential_Ok in E as [Hc ->].
    injection H as <- <-. exists None. split; [|done]. split. exists controller, r, calls.
    repeat split; try done.
Qed.
End billing.

(** ** Example *)

Definition billed_sign_ins : sign_ins := {|
  si_controller := fun _ _ _ subscription =>
    Ok {| lc_credential := if subscription : bool then "billed" else "plain"; lc_expires_at := 900 |};
  si_oidc := fun _ _ _ _ => Err {| se_sign_in_required := true; se_message := "sign in" |};
  si_anthropic := fun _ _ => Ok (Some {| lc_credential := "token"; lc_expires_at := 500 |});
  si_openai := fun _ _ => Ok None;
  si_github := fun _ _ => Err "no device" |}.

Lemma subscription_is_declared_witness :
  let calls' := [CallAnthropic true; CallController "claude-code" true] in
  let c := {| lc_credential := "agentdesktop:token:billed"; lc_expires_at := 500 |} in
  resolve_gateway_credential billed_sign_ins demo_daemon demo_daemon "claude-code" true false []
    = (Ok c, calls') /\
  exists subscription,
    controller_issued billed_sign_ins demo_daemon "claude-code" subscription (is_some subscription) c calls' /\
    (is_some subscription = true ->
     true = true /\ program_uses_subscription demo_daemon "claude-code" = true).
Proof.
  assert (dm_llm_gateway demo_daemon ≫= gw_authentication
          = Some (ControllerJwt "gateway" {[ "vscode"; "claude-code" ]})) as Hg by reflexivity.
  assert (resolve_gateway_credential billed_sign_ins demo_daemon demo_daemon "claude-code" true false []
    = (Ok {| lc_credential := "agentdesktop:token:billed"; lc_expires_at := 500 |},
       [CallAnthropic true; CallController "claude-code" true])) as H by (vm_compute; reflexivity).
  split; [exact H|].
  exact (subscription_is_declared billed_sign_ins demo_daemon demo_daemon "claude-code" true "gateway"
           {[ "vscode"; "claude-code" ]} [] _ _ Hg H).
Defined.
