(* ===== verification/Proxy.v ===== *)
(** * The LLM proxy ([crates/agent/src/llm_proxy.rs])

    How one request is answered: the checks made before anything is read
    ([accept]), the route and the upstream URI ([resolve]), the headers and the
    client's token ([prepare]), and the loop that adds the device's credential and
    sends the request at most twice ([send_loop]). The network is a record of
    [services]: the gateway, the controller, the sign-ins and the clocks, each an
    arbitrary function of how often the world was consulted, and the other
    requests, which change the credential cache whenever it is consulted. *)

From stdpp Require Import pretty.
From S2P Require Import Prelude Str Json Fs Config Net Http Routes Cache Remote Credential.

(** ** Data *)

Record ProxyConfig : Type := {
  px_default_client_id : string;
  px_pairing : string;
}.

(** The fields of [AppState] the proxy uses. *)
Record AppState : Type := {
  app_config : DaemonConfig;
  app_state_dir : path;
}.

Record ProxyError : Type := {
  pe_status : Z;
  pe_code : string;
  pe_message : string;
}.

(** How reading a body of at most the limit's bytes ends. *)
Inductive body_error : Type :=
| LengthLimit
| BodyFailed (message : string).

(** How waiting for the credential task ends. *)
Inductive wait_end : Type :=
| Finished
| TimedOut
| Panicked (message : string).

Section types.
Context {H : HeaderMap}.

Record request : Type := {
  rq_method : string;
  rq_path_and_query : option string;
  rq_headers : header_map;
  rq_body : string;   (* as it arrives *)
}.

(** A request sent to the gateway. *)
Record outgoing : Type := {
  og_method : string;
  og_uri : string;
  og_headers : header_map;
  og_body : string;
}.

Inductive answer : Type :=
| Answered (status : Z) (headers : header_map)
| Unreachable (message : string)
| NoAnswer.

(** The answer to the client; [rs_tunnel] is the tunnel left behind by an
    upgrade, with its deadline. *)
Record response : Type := {
  rs_status : Z;
  rs_headers : header_map;
  rs_tunnel : option (option Deadline);
}.
End types.
Arguments Answered {H} status headers.
Arguments Unreachable {H} message.
Arguments NoAnswer {H}.

(** What the proxy calls outside this library; the [nat] says how often the world
    was consulted before. *)
Record services {H : HeaderMap} : Type := {
  sv_sign_ins : sign_ins;
  sv_url_as_str : Url -> string;
  sv_parse_url : string -> result Url string;
  sv_from_yaml : string -> result DaemonConfig string;
  sv_parse_identity : string -> result string string;
  sv_parse_uri : string -> option string;          (* an error, if it does not parse *)
  sv_uri_authority : string -> option string;
  sv_collect : Z -> string -> result string body_error;
  sv_gateway : nat -> outgoing -> answer;
  sv_clock : nat -> Z * Z;
  sv_wait : nat -> wait_end;
  sv_others : nat -> entries -> entries;
}.

Section proxy.
Context {H : HeaderMap} (sv : services).

Definition MAX_REQUEST_BODY : Z := 32 * 1024 * 1024.

Definition proxy_error (status : Z) (code message : string) : ProxyError :=
  {| pe_status := status; pe_code := code; pe_message := message |}.
Definition pairing_invalid : ProxyError :=
  proxy_error 403 "pairing_invalid"
    "agentdesktop proxy: pairing value missing or wrong; re-apply the managed configuration".
Definition credential_error (e : Z * string) : ProxyError :=
  proxy_error (fst e) "agentdesktop_credential"
    ("agentdesktop: no gateway credential for this device: " +:+ snd e).

(** Whether a header lists a token. *)
Definition lists (headers : header_map) (name token : string) : bool :=
  any (fun v => match to_str v with
                | Some text => any (fun item => eq_ignore_ascii_case (trim item) token) (split "," text)
                | None => false
                end) (get_all name headers).
Definition is_websocket_upgrade (headers : header_map) : bool :=
  lists headers CONNECTION "upgrade" && lists headers "upgrade" "websocket".

Definition hop_headers : list string :=
  ["connection"; "keep-alive"; "proxy-authenticate"; "proxy-authorization"; "te"; "trailer";
   "transfer-encoding"; "upgrade"].
(** The names a [Connection] header nominates. *)
Definition nominated (headers : header_map) : list string :=
  flat_map (fun text => map trim (split "," text)) (filter_map to_str (get_all CONNECTION headers)).
Definition remove_all (names : list string) (headers : header_map) : header_map :=
  fold_left (fun h name => remove_header name h) names headers.
Definition strip_hop_headers (headers : header_map) : header_map :=
  remove_all hop_headers (remove_all (nominated headers) headers).

(** ** Before anything is read *)

Record admitted : Type := {
  ad_path : string;
  ad_query : option string;
  ad_matched : option (ProxyRoute * string);
  ad_capi_rest : option string;
  ad_websocket : bool;
}.

Definition path_and_query (rq : request) : string * option string :=
  let pq := default "/" (rq_path_and_query rq) in
  match split_once "?" pq with
  | Some (p, query) => (p, Some query)
  | None => (pq, None)
  end.

Definition check_pairing (config : ProxyConfig) (headers : header_map)
    (matched : option (ProxyRoute * string)) : result (option string) ProxyError :=
  let by_header :=
    if is_some_and (fun offered => constant_time_eq offered (px_pairing config))
         (get_header PAIRING_HEADER headers ≫= to_str)
    then Ok None else Err pairing_invalid in
  match matched with
  | Some (route, rest) =>
      if pairing_in_path route then
        match split_path_pairing rest with
        | None => Err pairing_invalid
        | Some (segment, remainder) =>
            if constant_time_eq segment (px_pairing config) then Ok (Some remainder)
            else Err pairing_invalid
        end
      else by_header
  | None => by_header
  end.

Definition refuse_if (condition : bool) (e : ProxyError) : result unit ProxyError :=
  if condition then Err e else Ok tt.

Definition accept (config : ProxyConfig) (rq : request) : result admitted ProxyError :=
  let? _ := refuse_if (negb (host_is_loopback (rq_headers rq)))
    (proxy_error 403 "host_not_allowed" "agentdesktop proxy: Host must be a loopback address") in
  let? _ := refuse_if (contains_key ORIGIN (rq_headers rq) || String.eqb (rq_method rq) "CONNECT")
    (proxy_error 403 "browser_not_allowed"
       "agentdesktop proxy: browser requests and CONNECT are not supported") in
  let? _ := refuse_if (String.eqb (rq_method rq) "OPTIONS")
    (proxy_error 405 "method_not_allowed" "agentdesktop proxy: OPTIONS is not supported") in
  let '(p, query) := path_and_query rq in
  let matched := match_route p in
  let? capi_rest := check_pairing config (rq_headers rq) matched in
  let websocket := is_websocket_upgrade (rq_headers rq) in
  let? _ := refuse_if (websocket && negb (is_some_and (fun m => tunnels_upgrades (fst m)) matched))
    (proxy_error 400 "upgrade_not_supported"
       "agentdesktop proxy: WebSocket upgrades are supported on the /vscode-copilot-capi route only") in
  let? _ := refuse_if (path_escapes_base p)
    (proxy_error 400 "path_invalid" "agentdesktop proxy: path must not contain '..' segments") in
  let? _ := refuse_if (is_none matched && resembles_route p)
    (proxy_error 404 "route_unknown"
       "agentdesktop proxy: unknown route; the managed prefixes are /copilot-cli, /vscode-copilot, /vscode-copilot-passthrough and /vscode-copilot-capi") in
  Ok {| ad_path := p; ad_query := query; ad_matched := matched; ad_capi_rest := capi_rest;
        ad_websocket := websocket |}.

(** ** The route and the upstream *)

Record target : Type := {
  tg_effective : DaemonConfig;
  tg_gateway : LlmGatewayConfig;
  tg_client_id : string;
  tg_credential_mode : option RouteCredential;
  tg_uri : string;
}.

Definition upstream_uri (base : Url) (rest : string) (query : option string) : string :=
  trim_end_matches "/" (sv_url_as_str sv base) +:+ rest
  +:+ match query with Some query => "?" +:+ query | None => "" end.

Definition resolve (config : ProxyConfig) (app : AppState) (s : fs) (ad : admitted)
  : result target ProxyError :=
  match load_effective_config (sv_parse_url sv) (sv_from_yaml sv) s (app_config app) (app_state_dir app) with
  | Err _ =>
      Err (proxy_error 500 "agentdesktop_unavailable"
             "agentdesktop: could not read the applied configuration; see the daemon log")
  | Ok effective =>
      match dm_llm_gateway effective with
      | None =>
          Err (proxy_error 503 "agentdesktop_unavailable"
                 "agentdesktop: no LLM gateway configured on this device yet")
      | Some gateway =>
          let? (client_id, mode, base, rest) :=
            match ad_matched ad with
            | Some (route, rest) =>
                if bool_decide (upstream route = UpstreamProxyUrl) && is_none (gw_proxy_url gateway)
                then Err (proxy_error 503 "agentdesktop_unavailable"
                            "agentdesktop proxy: this route needs llmGateway.proxyUrl, which is not configured")
                else Ok (route_client_id route, Some (credential route),
                         upstream_base gateway (upstream route),
                         default rest (ad_capi_rest ad))
            | None =>
                Ok (px_default_client_id config, None, upstream_base gateway UpstreamProxyUrl,
                    ad_path ad)
            end in
          let uri := upstream_uri base rest (ad_query ad) in
          match sv_parse_uri sv uri with
          | Some e => Err (proxy_error 502 "gateway_unreachable" e)
          | None =>
              Ok {| tg_effective := effective; tg_gateway := gateway; tg_client_id := client_id;
                    tg_credential_mode := mode; tg_uri := uri |}
          end
      end
  end.

(** ** The headers and the client's own token *)

(** What a request changes: the credential cache, the services that were asked,
    and the requests sent to the gateway. *)
Record proxy_world : Type := {
  pw_entries : entries;
  pw_calls : list service_call;
  pw_sent : list outgoing;
  pw_reads : nat;
}.
Definition proxying (A : Type) : Type := ST proxy_world ProxyError A.

(** The sign-in services, with their calls recorded. *)
Definition asking {A} (m : calling A ProxyError) : proxying A := fun w =>
  let '(r, calls) := m (pw_calls w) in
  (r, {| pw_entries := pw_entries w; pw_calls := calls; pw_sent := pw_sent w;
         pw_reads := pw_reads w |}).
Definition lift {A} (r : result A ProxyError) : proxying A := fun w => (r, w).

Record prepared : Type := {
  pr_headers : header_map;
  pr_body : string;
  pr_token_sent : bool;
  pr_subscription : bool;
}.

(** The client's own credential; the pairing value never is one. *)
Definition client_credential (config : ProxyConfig) (rq : request) : option string :=
  option_filter (fun v => negb (constant_time_eq v (px_pairing config)))
    (bearer_or_header (rq_headers rq) "x-llm-token").

Definition is_credential_less_ping (config : ProxyConfig) (ad : admitted) (rq : request) : bool :=
  is_some_and (fun m => credential_less_ping (fst m)) (ad_matched ad)
  && bool_decide (ad_capi_rest ad = Some "/_ping")
  && String.eqb (rq_method rq) "GET" && is_none (client_credential config rq).

Definition collect_body (rq : request) : result string ProxyError :=
  map_err (fun e => match e with
    | LengthLimit =>
        proxy_error 413 "body_too_large"
          ("agentdesktop proxy: request body exceeds " +:+ pretty MAX_REQUEST_BODY +:+ " bytes")
    | BodyFailed error =>
        proxy_error 400 "body_invalid"
          ("agentdesktop proxy: could not read the request body: " +:+ error)
    end) (sv_collect sv MAX_REQUEST_BODY (rq_body rq)).

Definition dropped_headers : list string :=
  [AUTHORIZATION; "x-api-key"; "api-key"; "x-llm-token"; PAIRING_HEADER].
Definition cleaned_headers (websocket : bool) (headers : header_map) : header_map :=
  let headers := strip_hop_headers headers in
  let headers :=
    if websocket
    then insert_header "upgrade" "websocket" (insert_header CONNECTION "Upgrade" headers)
    else headers in
  remove_all dropped_headers headers.

Definition missing_credential (message : string) : ProxyError :=
  proxy_error 401 "client_credential_missing" message.

(** The token sent in [x-llm-token], if any. *)
Definition upstream_token (config : ProxyConfig) (ad : admitted) (tg : target) (rq : request)
  : proxying (option string) :=
  match tg_credential_mode tg with
  | Some Gateway => st_ret None
  | Some Passthrough =>
      if is_credential_less_ping config ad rq then st_ret None
      else lift (let? token := ok_or (client_credential config rq)
             (missing_credential "agentdesktop proxy: no client credential to pass through; send it in Authorization or x-llm-token") in
           Ok (Some token))
  | None =>
      match gw_github_oauth (tg_gateway tg) with
      | None => st_ret None
      | Some github =>
          match gh_source github with
          | DeviceFlow =>
              match gh_client_id github with
              | None => st_err (proxy_error 500 "agentdesktop_unavailable"
                                  "githubOAuth.clientId is required for deviceFlow")
              | Some client_id =>
                  let* acquired := asking (st_map_err
                    (fun e => proxy_error 502 "gateway_unreachable" ("GitHub OAuth: " +:+ e))
                    (ask (CallGitHub client_id)
                       (fun calls => si_github (sv_sign_ins sv) calls client_id))) in
                  st_ret (Some (lc_credential acquired))
              end
          | Request =>
              lift (let? token := ok_or (client_credential config rq)
                (missing_credential "no client credential to forward; send it in Authorization or x-llm-token") in
              Ok (Some token))
          end
      end
  end.

Definition is_subscription_route (ad : admitted) (tg : target) : bool :=
  is_some_and (fun m => String.eqb (prefix (fst m)) CODEX_ROUTE) (ad_matched ad)
  && bool_decide (subscription_auth (dm_programs (tg_effective tg)) (tg_client_id tg)
                  = Some ClientPassthrough).

Definition value_or {A} (v : option A) (message : string) : result A ProxyError :=
  ok_or v (proxy_error 502 "gateway_unreachable" message).

Definition prepare (config : ProxyConfig) (ad : admitted) (tg : target) (rq : request)
  : proxying prepared :=
  let* body := lift (collect_body rq) in
  let headers := cleaned_headers (ad_websocket ad) (rq_headers rq) in
  let* token := upstream_token config ad tg rq in
  let* headers := lift match token with
    | Some token =>
        let? v := value_or (header_value token) "invalid client credential header" in
        Ok (insert_header "x-llm-token" v headers)
    | None => Ok headers
    end in
  let* host := lift (value_or (header_value (default "" (sv_uri_authority sv (tg_uri tg))))
                       "invalid gateway host") in
  st_ret {| pr_headers := insert_header HOST host headers; pr_body := body;
            pr_token_sent := is_some token;
            pr_subscription := is_some token && is_subscription_route ad tg |}.

(** ** The device's credential *)

(** The world is consulted: the other requests have changed the cache, and the
    clocks show a time. *)
Definition consult : proxying nat := fun w =>
  (Ok (pw_reads w), {| pw_entries := sv_others sv (pw_reads w) (pw_entries w);
                       pw_calls := pw_calls w; pw_sent := pw_sent w;
                       pw_reads := S (pw_reads w) |}).

(** The cache and the services as [get_or_fetch] threads them. *)
Definition caching {A} (m : ST (entries * list service_call) (Z * string) A)
  : proxying (result A (Z * string)) := fun w =>
  let '(r, (es, calls)) := m (pw_entries w, pw_calls w) in
  (Ok r, {| pw_entries := es; pw_calls := calls; pw_sent := pw_sent w; pw_reads := pw_reads w |}).

Definition controller_audience (gateway : LlmGatewayConfig) : option string :=
  match gw_authentication gateway with
  | Some (ControllerJwt audience _) => Some audience
  | _ => None
  end.

Definition proxy_cache_key (app : AppState) (s : fs) (tg : target) (pr : prepared)
  : option (string * string) :=
  match controller_audience (tg_gateway tg) with
  | None => None
  | Some audience =>
      match load_device_id (sv_parse_identity sv) s (identity_path (app_state_dir app)) with
      | Ok (Some device_id) =>
          let key := cache_key_of (sv_url_as_str sv) (tg_client_id tg) (tg_gateway tg) audience in
          Some (if pr_subscription pr then key +:+ nul +:+ "subscription" else key, device_id)
      | _ => None
      end
  end.

(** The fetch task: through the cache when there is a key. *)
Definition fetch_task (app : AppState) (tg : target) (pr : prepared) (key : option (string * string))
    (before after : nat) : ST (entries * list service_call) (Z * string) (string * Deadline * bool) :=
  let fetch := gateway_proxy_credential (sv_sign_ins sv) (app_config app) (tg_effective tg)
                 (tg_client_id tg) (pr_subscription pr) in
  match key with
  | Some (key, device_id) =>
      get_or_fetch (sv_clock sv before) (sv_clock sv after) key device_id fetch
  | None => fun '(es, calls) =>
      match fetch calls with
      | (Err e, calls') => (Err e, (es, calls'))
      | (Ok fetched, calls') =>
          let '(instant, unix) := sv_clock sv after in
          (Ok (lc_credential fetched,
               deadline_from_unix instant unix (lc_expires_at fetched), false), (es, calls'))
      end
  end.

(** A credential for one attempt: its deadline, and whether it was cached. *)
Definition obtain_credential (app : AppState) (tg : target) (pr : prepared)
    (key : option (string * string)) : proxying (string * Deadline * bool) :=
  let* n := consult in
  fun w =>
  let cached :=
    key ≫= (fun '(key, device_id) =>
      cache_lookup (pw_entries w) (fst (sv_clock sv n)) (snd (sv_clock sv n)) key device_id) in
  match cached with
  | Some (credential, deadline) => (Ok (credential, deadline, true), w)
  | None =>
      (let* before := consult in
       let* after := consult in
       match sv_wait sv before with
       | TimedOut =>
           if is_some (controller_audience (tg_gateway tg)) then
             st_err (credential_error (504, "the credential fetch (token refresh or controller call) did not finish in time"))
           else
             let* r := caching (fetch_task app tg pr key before after) in
             lift (map_err credential_error r)
       | Panicked error =>
           st_err (credential_error (500, "credential fetch failed: " +:+ error))
       | Finished =>
           let* r := caching (fetch_task app tg pr key before after) in
           lift (map_err credential_error r)
       end) w
  end.

(** ** Sending *)

(** The device's credential of one attempt. *)
Record attempt_credential : Type := {
  at_credential : string;
  at_deadline : Deadline;
  at_cached : bool;
}.

Definition authenticate (app : AppState) (tg : target) (pr : prepared) (key : option (string * string))
  : proxying (option attempt_credential * header_map) :=
  if is_none (gw_authentication (tg_gateway tg)) then st_ret (None, pr_headers pr)
  else
    let* (credential, deadline, cached) := obtain_credential app tg pr key in
    let* authorization := lift (value_or (header_value ("Bearer " +:+ credential))
                                  "invalid gateway credential header") in
    st_ret (Some {| at_credential := credential; at_deadline := deadline; at_cached := cached |},
            insert_header AUTHORIZATION authorization (pr_headers pr)).

(** The gateway's answer to a request. *)
Definition send (o : outgoing) : proxying (Z * header_map) :=
  let* n := consult in
  fun w =>
  (match sv_gateway sv n o with
   | Answered status headers => Ok (status, headers)
   | NoAnswer =>
       Err (proxy_error 504 "gateway_timeout" "agentdesktop proxy: the gateway did not answer in time")
   | Unreachable error =>
       Err (proxy_error 502 "gateway_unreachable" ("agentdesktop proxy: gateway unreachable: " +:+ error))
   end,
   {| pw_entries := pw_entries w; pw_calls := pw_calls w; pw_sent := (pw_sent w ++ [o])%list;
      pw_reads := pw_reads w |}).

(** [cache.invalidate_if] for the key of the request. *)
Definition drop_credential (key : option (string * string)) (credential : string) : proxying unit :=
  let* _ := consult in
  fun w =>
  (Ok tt, {| pw_entries := match key with
                           | Some (key, _) => invalidate_if (pw_entries w) key credential
                           | None => pw_entries w
                           end;
             pw_calls := pw_calls w; pw_sent := pw_sent w; pw_reads := pw_reads w |}).

Definition upgraded_headers (headers : header_map) : header_map :=
  let value := get_header "upgrade" headers in
  let headers := insert_header CONNECTION "Upgrade" (strip_hop_headers headers) in
  match value with Some v => insert_header "upgrade" v headers | None => headers end.

(** The answer handed to the client. *)
Definition respond (websocket : bool) (status : Z) (headers : header_map)
    (deadline : option Deadline) : response :=
  if websocket && (status =? 101)
  then {| rs_status := status; rs_headers := upgraded_headers headers; rs_tunnel := Some deadline |}
  else {| rs_status := status; rs_headers := strip_hop_headers headers; rs_tunnel := None |}.

Definition request_of (tg : target) (rq : request) (pr : prepared) (headers : header_map) : outgoing :=
  {| og_method := rq_method rq; og_uri := tg_uri tg; og_headers := headers; og_body := pr_body pr |}.

Fixpoint send_loop (fuel : nat) (retried : bool) (app : AppState) (ad : admitted) (tg : target)
    (rq : request) (pr : prepared) (key : option (string * string)) : proxying (option response) :=
  match fuel with
  | O => st_ret None
  | S fuel =>
      let* (used, headers) := authenticate app tg pr key in
      let* (status, answer_headers) := send (request_of tg rq pr headers) in
      let from_cache := is_some_and at_cached used in
      let rejected := default "" (at_credential <$> used) in
      if (status =? 401) && from_cache && negb (pr_token_sent pr) && negb retried then
        drop_credential key rejected ;*
        send_loop fuel true app ad tg rq pr key
      else
        (if (status =? 401) && is_some_and (fun u => negb (at_cached u)) used
         then drop_credential key rejected else st_ret tt) ;*
        st_ret (Some (respond (ad_websocket ad) status answer_headers (at_deadline <$> used)))
  end.

(** [forward]; two attempts are enough. *)
Definition forward (config : ProxyConfig) (app : AppState) (s : fs) (rq : request)
  : proxying (option response) :=
  let* ad := lift (accept config rq) in
  let* tg := lift (resolve config app s ad) in
  let* pr := prepare config ad tg rq in
  send_loop 2 false app ad tg rq pr (proxy_cache_key app s tg pr).

(** ** What reaches the proxy *)

(** A request a local, paired client may make. *)
Definition paired_by_header (config : ProxyConfig) (rq : request) : Prop :=
  exists v, get_header PAIRING_HEADER (rq_headers rq) = Some v /\ to_str v = Some (px_pairing config).
Definition paired_by_path (config : ProxyConfig) (rest : string) : Prop :=
  px_pairing config <> "" /\ lacks "/" (px_pairing config) /\
  (rest = "/" +:+ px_pairing config \/ exists more, rest = "/" +:+ px_pairing config +:+ String "/" more).

(** A path of a managed program. *)
Definition managed (p : string) (route : ProxyRoute) (rest : string) : Prop :=
  route ∈ ROUTES /\ under (prefix route) p rest.
(** A header with the token in one of its comma-separated lists. *)
Definition lists_token (headers : header_map) (name token : string) : Prop :=
  exists v text item, v ∈ get_all name headers /\ to_str v = Some text /\
    segment (fun a => Ascii.eqb a ",") item text /\ eq_ignore_ascii_case (trim item) token = true.
Definition wants_upgrade (headers : header_map) : Prop :=
  lists_token headers CONNECTION "upgrade" /\ lists_token headers "upgrade" "websocket".
(** Well-formed escapes only, and no [..] once decoded. *)
Definition stays_below (p : string) : Prop :=
  exists decoded, decodes p decoded /\ ~ segment path_separator ".." decoded.

Record acceptable (config : ProxyConfig) (rq : request) : Prop := {
  ac_host : exists v text name, get_header HOST (rq_headers rq) = Some v /\ to_str v = Some text /\
    host_names name (trim text) /\ loopback_name name;
  ac_origin : get_all ORIGIN (rq_headers rq) = [];
  ac_method : rq_method rq <> "CONNECT" /\ rq_method rq <> "OPTIONS";
  ac_paired :
    (exists route rest, managed (fst (path_and_query rq)) route rest /\
       pairing_in_path route = true /\ paired_by_path config rest) \/
    ((forall route rest, managed (fst (path_and_query rq)) route rest -> pairing_in_path route = false) /\
     paired_by_header config rq);
  ac_upgrade : wants_upgrade (rq_headers rq) ->
    exists route rest, managed (fst (path_and_query rq)) route rest /\ tunnels_upgrades route = true;
  ac_path : stays_below (fst (path_and_query rq));
  ac_route : mistyped (fst (path_and_query rq)) ->
    exists route rest, managed (fst (path_and_query rq)) route rest;
}.

(** The same by the code's own checks. *)
Record checked (config : ProxyConfig) (rq : request) : Prop := {
  ck_host : host_is_loopback (rq_headers rq) = true;
  ck_origin : contains_key ORIGIN (rq_headers rq) = false;
  ck_method : rq_method rq <> "CONNECT" /\ rq_method rq <> "OPTIONS";
  ck_paired :
    match match_route (fst (path_and_query rq)) with
    | Some (route, rest) =>
        if pairing_in_path route then paired_by_path config rest else paired_by_header config rq
    | None => paired_by_header config rq
    end;
  ck_upgrade : is_websocket_upgrade (rq_headers rq) = true ->
    exists route rest, match_route (fst (path_and_query rq)) = Some (route, rest) /\
      tunnels_upgrades route = true;
  ck_path : path_escapes_base (fst (path_and_query rq)) = false;
  ck_route : match_route (fst (path_and_query rq)) = None ->
    resembles_route (fst (path_and_query rq)) = false;
}.

Lemma lists_ok headers name token : lists headers name token = true <-> lists_token headers name token.
Proof.
  unfold lists, lists_token. rewrite any_true. split.
  - intros (v & Hv & Hl). destruct (to_str v) as [text|] eqn:E; [|done].
    apply any_true in Hl as (item & Hi%elem_of_split_on & Ht). by exists v, text, item.
  - intros (v & text & item & Hv & E & Hi & Ht). exists v. split; [done|]. rewrite E.
    apply any_true. exists item. split; [by apply elem_of_split_on|done].
Qed.

Lemma managed_ok p route rest : managed p route rest <-> match_route p = Some (route, rest).
Proof. symmetry. apply match_route_spec. Qed.

Lemma contains_key_false name headers : contains_key name headers = false <-> get_all name headers = [].
Proof. unfold contains_key. by destruct (get_all name headers). Qed.

Lemma is_websocket_upgrade_ok headers : is_websocket_upgrade headers = true <-> wants_upgrade headers.
Proof. unfold is_websocket_upgrade, wants_upgrade. by rewrite andb_true_iff, !lists_ok. Qed.

Lemma checked_acceptable config rq : checked config rq <-> acceptable config rq.
Proof.
  set (p := fst (path_and_query rq)).
  pose proof (is_websocket_upgrade_ok (rq_headers rq)) as Hws.
  assert ((exists route rest, managed p route rest) <-> match_route p <> None) as Hm.
  { split; [intros (route & rest & H'%managed_ok); congruence|].
    destruct (match_route p) as [[route rest]|] eqn:E; [|done]. intros _. exists route, rest. by apply managed_ok. }
  split; intros [Hh Ho Hme Hp Hu Hpath Hr]; fold p in Hp, Hu, Hpath, Hr; split; fold p;
    try done.
  - by apply host_is_loopback_spec.
  - by apply contains_key_false.
  - destruct (match_route p) as [[route rest]|] eqn:E.
    + destruct (pairing_in_path route) eqn:Ep.
      * left. exists route, rest. split; [by apply managed_ok|done].
      * right. split; [|done]. intros route' rest' H'%managed_ok. congruence.
    + right. split; [|done]. intros route' rest' H'%managed_ok. congruence.
  - intros H1%Hws. destruct (Hu H1) as (route & rest & H' & Ht).
    exists route, rest. split; [by apply managed_ok|done].
  - by apply path_escapes_base_ok.
  - intros Hmis. apply Hm. intros E. apply resembles_route_ok in Hmis. rewrite Hr in Hmis; done.
  - by apply host_is_loopback_spec.
  - by apply contains_key_false.
  - destruct Hp as [(route & rest & H'%managed_ok & Ep & Hpair)|[Hno Hpair]]; [by rewrite H', Ep|].
    destruct (match_route p) as [[route rest]|] eqn:E; [|done].
    apply managed_ok in E. by rewrite (Hno _ _ E).
  - intros H1%Hws. destruct (Hu H1) as (route & rest & H'%managed_ok & Ht). by exists route, rest.
  - by apply path_escapes_base_ok.
  - intros E. destruct (resembles_route p) eqn:Er; [|done]. by apply resembles_route_ok, Hr, Hm in Er.
Qed.

Lemma split_path_pairing_spec rest segment remainder :
  split_path_pairing rest = Some (segment, remainder) <->
  segment <> "" /\ lacks "/" segment /\
  (rest = "/" +:+ segment /\ remainder = "/" \/
   exists more, rest = "/" +:+ segment +:+ String "/" more /\ remainder = String "/" more).
Proof.
  unfold split_path_pairing. split.
  - destruct (strip_prefix "/" rest) as [r|] eqn:E; [|done]. apply strip_prefix_Some in E as ->.
    destruct (split_once "/" r) as [[l m]|] eqn:Es.
    + apply split_once_Some in Es as [-> Hl]. destruct l as [|a l]; [done|]. intros [= <- <-].
      split; [done|]. split; [done|]. right. by exists m.
    + apply split_once_None in Es. destruct r as [|a r]; [done|]. intros [= <- <-].
      split; [done|]. split; [done|]. by left.
  - intros (Hne & Hl & [[-> ->]|(more & -> & ->)]);
      rewrite (proj2 (strip_prefix_Some "/" _ _) eq_refl).
    + rewrite (proj2 (split_once_None _ _) Hl). by destruct segment.
    + rewrite (proj2 (split_once_Some _ _ _ _) (conj eq_refl Hl)). by destruct segment.
Qed.


Lemma by_header_ok config rq :
  is_some_and (fun offered => constant_time_eq offered (px_pairing config))
    (get_header PAIRING_HEADER (rq_headers rq) ≫= to_str) = true <-> paired_by_header config rq.
Proof.
  unfold paired_by_header. destruct (get_header PAIRING_HEADER (rq_headers rq)) as [v|]; simpl.
  - destruct (to_str v) as [t|] eqn:E; simpl.
    + rewrite constant_time_eq_spec. split; [intros ->; by exists v|].
      intros (v' & [= <-] & H'). congruence.
    + split; [done|]. intros (v' & [= <-] & H'). congruence.
  - split; [done|]. by intros (v & ? & _).
Qed.

Lemma check_pairing_ok config rq matched :
  is_ok (check_pairing config (rq_headers rq) matched) = true <->
  match matched with
  | Some (route, rest) =>
      if pairing_in_path route then paired_by_path config rest else paired_by_header config rq
  | None => paired_by_header config rq
  end.
Proof.
  unfold check_pairing. destruct matched as [[route rest]|].
  2: { rewrite <- by_header_ok. by destruct (is_some_and _ _). }
  destruct (pairing_in_path route); [|rewrite <- by_header_ok; by destruct (is_some_and _ _)].
  unfold paired_by_path. destruct (split_path_pairing rest) as [[segment remainder]|] eqn:E.
  - destruct (constant_time_eq segment (px_pairing config)) eqn:Ec; simpl.
    + apply constant_time_eq_spec in Ec as <-. apply split_path_pairing_spec in E. naive_solver.
    + split; [done|]. intros (Hne & Hl & Hrest).
      assert (exists r, split_path_pairing rest = Some (px_pairing config, r)) as [r Hr].
      { destruct Hrest as [->|(more & ->)]; eexists; apply split_path_pairing_spec; naive_solver. }
      rewrite E in Hr. injection Hr as -> _.
      by rewrite (proj2 (constant_time_eq_spec _ _) eq_refl) in Ec.
  - simpl. split; [done|]. intros (Hne & Hl & Hrest).
    assert (exists r, split_path_pairing rest = Some (px_pairing config, r)) as [r Hr].
    { destruct Hrest as [->|(more & ->)]; eexists; apply split_path_pairing_spec; naive_solver. }
    congruence.
Qed.

Lemma refuse_if_ok {A} b e (r : result A ProxyError) :
  is_ok (let? _ := refuse_if b e in r) = true <-> b = false /\ is_ok r = true.
Proof. destruct b; simpl; naive_solver. Qed.

Lemma admit_ok config rq : is_ok (accept config rq) = true <-> acceptable config rq.
Proof.
  rewrite <- checked_acceptable.
  unfold accept. rewrite !refuse_if_ok. destruct (path_and_query rq) as [p query] eqn:Ep.
  assert (forall A (r : result A ProxyError) (k : A -> result admitted ProxyError) P,
    (forall a, r = Ok a -> is_ok (k a) = true <-> P) ->
    (is_ok (let? a := r in k a) = true <-> is_ok r = true /\ P)) as Hbind.
  { intros A r k P Hk. destruct r; simpl; [|naive_solver]. rewrite (Hk _ eq_refl). naive_solver. }
  rewrite (Hbind _ _ _ (
    is_websocket_upgrade (rq_headers rq) && negb (is_some_and (fun m => tunnels_upgrades m.1) (match_route p)) = false
    /\ path_escapes_base p = false /\ is_none (match_route p) && resembles_route p = false)).
  2: { intros a _. rewrite !refuse_if_ok. naive_solver. }
  rewrite check_pairing_ok, negb_false_iff, orb_false_iff, !String.eqb_neq, !andb_false_iff, negb_false_iff.
  split.
  - intros (Hh & [Ho Hc] & Hm & Hp & Hw & He & Hr). split; rewrite ?Ep; simpl; try done.
    + intros Hu. destruct Hw as [Hw|Hw]; [congruence|].
      destruct (match_route p) as [[route rest]|]; [|done]. by exists route, rest.
    + intros Hn. rewrite Hn in Hr. by destruct Hr.
  - intros [Hh Ho [Hc Hm] Hp Hw He Hr]. rewrite Ep in *. simpl in *. repeat split; try done.
    + destruct (is_websocket_upgrade (rq_headers rq)); [right|by left].
      destruct Hw as (route & rest & -> & Ht); done.
    + destruct (match_route p); [by left|]. right. by apply Hr.
Qed.

Lemma admit_err config rq e : accept config rq = Err e -> pe_status e ∈ [400; 403; 404; 405].
Proof.
  unfold accept. assert (forall b e', refuse_if b e' = Err e -> e = e') as Hr.
  { intros b e'. unfold refuse_if. destruct b; congruence. }
  assert (forall hs m, check_pairing config hs m = Err e -> e = pairing_invalid) as Hp.
  { intros hs m. unfold check_pairing. intros H'. repeat case_match; congruence. }
  destruct (path_and_query rq) as [p query]. intros H'. repeat (case_match; simplify_eq);
    first [apply Hr in H as -> | apply Hr in H0 as -> | apply Hr in H1 as -> | idtac]; simpl; set_solver.
Qed.

(** ** What is sent *)

(** What every outcome of a step preserves. *)
Definition preserving (R : proxy_world -> proxy_world -> Prop) {A} (m : proxying A) : Prop :=
  forall w r w', m w = (r, w') -> R w w'.

Section preserving.
Context (R : proxy_world -> proxy_world -> Prop) {HR : PreOrder R}.

Lemma preserving_ret {A} (a : A) : preserving R (st_ret a).
Proof. by intros w r w' [= _ <-]. Qed.
Lemma preserving_err {A} e : preserving R (A := A) (st_err e).
Proof. by intros w r w' [= _ <-]. Qed.
Lemma preserving_lift {A} (r : result A ProxyError) : preserving R (lift r).
Proof. by intros w r' w' [= _ <-]. Qed.
Lemma preserving_bind {A B} (m : proxying A) (k : A -> proxying B) :
  preserving R m -> (forall a, preserving R (k a)) -> preserving R (st_bind m k).
Proof.
  intros Hm Hk w r w'. unfold st_bind. destruct (m w) as [[a|e] w1] eqn:E.
  - intros Hr%Hk. etransitivity; [by eapply Hm|done].
  - intros [= _ <-]. by eapply Hm.
Qed.

Context (Hask : forall A (m : calling A ProxyError), preserving R (asking m)).
Lemma preserving_token config ad tg rq : preserving R (upstream_token config ad tg rq).
Proof.
  unfold upstream_token. repeat case_match;
    first [apply preserving_ret | apply preserving_err | apply preserving_lift
          | apply preserving_bind; [apply Hask|intros; apply preserving_ret]].
Qed.
Lemma preserving_prepare config ad tg rq : preserving R (prepare config ad tg rq).
Proof.
  repeat (apply preserving_bind; [first [apply preserving_lift|apply preserving_token]|intros ?]).
  apply preserving_ret.
Qed.

Context (app : AppState) (tg : target) (pr : prepared) (key : option (string * string)).
Context (Hconsult : preserving R consult).
Context (Hfetch : forall before after, preserving R (caching (fetch_task app tg pr key before after))).
Lemma preserving_obtain : preserving R (obtain_credential app tg pr key).
Proof using Hconsult Hfetch HR.
  apply preserving_bind; [apply Hconsult|]. intros n w r w'. cbv zeta.
  destruct (key ≫= _) as [[credential deadline]|].
  - by intros [= _ <-].
  - revert w r w'. repeat (apply preserving_bind; [apply Hconsult|intros ?]).
    repeat case_match; try apply preserving_err;
      (apply preserving_bind; [apply Hfetch|intros; apply preserving_lift]).
Qed.
Lemma preserving_authenticate : preserving R (authenticate app tg pr key).
Proof using Hconsult Hfetch HR.
  unfold authenticate. case_match; [apply preserving_ret|].
  apply preserving_bind; [apply preserving_obtain|]. intros [[c d] b].
  apply preserving_bind; [apply preserving_lift|]. intros v. apply preserving_ret.
Qed.
End preserving.

(** Steps that send nothing. *)
Definition same_sent (w w' : proxy_world) : Prop := pw_sent w' = pw_sent w.
#[local] Instance same_sent_preorder : PreOrder same_sent.
Proof. split; [done|]. unfold same_sent. congruence. Qed.

Lemma quiet_asking A (m : calling A ProxyError) : preserving same_sent (asking m).
Proof. intros w r w'. unfold asking. destruct (m (pw_calls w)). by intros [= _ <-]. Qed.
Lemma quiet_caching {A} (m : ST (entries * list service_call) (Z * string) A) :
  preserving same_sent (caching m).
Proof. intros w r w'. unfold caching. destruct (m _) as [? [? ?]]. by intros [= _ <-]. Qed.
Lemma quiet_consult : preserving same_sent consult.
Proof. by intros w r w' [= _ <-]. Qed.
Lemma quiet_drop_if (b : bool) key c :
  preserving same_sent (if b then drop_credential key c else st_ret tt).
Proof.
  destruct b; [|apply preserving_ret, _].
  apply preserving_bind; [apply _|apply quiet_consult|]. by intros n w r w' [= _ <-].
Qed.
Lemma quiet_prepare config ad tg rq : preserving same_sent (prepare config ad tg rq).
Proof. apply preserving_prepare; [apply _|apply quiet_asking]. Qed.
(** Before the credential is needed, the cache is not touched. *)
Definition same_entries (w w' : proxy_world) : Prop := pw_entries w' = pw_entries w.
#[local] Instance same_entries_preorder : PreOrder same_entries.
Proof. split; [done|]. unfold same_entries. congruence. Qed.
Lemma prepare_same_entries config ad tg rq w r w' :
  prepare config ad tg rq w = (r, w') -> pw_entries w' = pw_entries w.
Proof.
  apply (preserving_prepare same_entries). intros A m w0 r0 w0'. unfold asking.
  destruct (m (pw_calls w0)). by intros [= _ <-].
Qed.

Lemma quiet_authenticate app tg pr key : preserving same_sent (authenticate app tg pr key).
Proof.
  apply preserving_authenticate; [apply _|apply quiet_consult|]. intros. apply quiet_caching.
Qed.

(** ** Where a credential comes from *)

(** The device's credential services answered with it. *)
Definition issued (app : AppState) (effective : DaemonConfig) (client_id : string) (subscription : bool)
    (c : string) : Prop :=
  exists calls lc calls',
    gateway_proxy_credential (sv_sign_ins sv) (app_config app) effective client_id subscription calls
      = (Ok lc, calls') /\ c = lc_credential lc.
(** The cache had the entry when the request arrived, or another request stored it
    since. *)
Definition cached (start : entries) (key : string) (e : CachedCredential) : Prop :=
  start !! key = Some e \/
  exists n es, sv_others sv n es !! key = Some e /\ es !! key <> Some e.

Section provenance.
Context (app : AppState) (tg : target) (pr : prepared) (key : option (string * string)) (start : entries).

Definition obtained (c : string) : Prop :=
  issued app (tg_effective tg) (tg_client_id tg) (pr_subscription pr) c \/
  exists k device e, key = Some (k, device) /\ ce_device_id e = device /\ ce_credential e = c /\
    cached start k e.
Definition traced (es : entries) : Prop := forall k device e,
  key = Some (k, device) -> es !! k = Some e -> ce_device_id e = device -> obtained (ce_credential e).
Definition stays_traced (w w' : proxy_world) : Prop := traced (pw_entries w) -> traced (pw_entries w').
#[local] Instance stays_traced_preorder : PreOrder stays_traced.
Proof. split; [by intros w ?|]. intros w1 w2 w3 H1 H2 H'. by apply H2, H1. Qed.

Lemma traced_start : traced start.
Proof. intros k device e Hk He Hd. right. exists k, device, e. repeat (split; [done|]). by left. Qed.
Lemma traced_sub es es' : es' ⊆ es -> traced es -> traced es'.
Proof. intros Hs Ht k device e Hk He. eapply Ht; [done|]. by eapply lookup_weaken. Qed.
Lemma traced_insert es now i1 i2 k device fetched :
  issued app (tg_effective tg) (tg_client_id tg) (pr_subscription pr) (lc_credential fetched) ->
  traced es -> traced (cache_insert es now i1 i2 k device fetched).
Proof.
  intros Hi Ht. unfold cache_insert. cbv zeta. destruct (0 <? _).
  - intros k' d e Hk [[<- <-]|[_ He]]%lookup_insert_Some Hd; [by left|by eapply Ht].
  - eapply traced_sub; [apply delete_subseteq|done].
Qed.

Lemma traced_consult : preserving stays_traced consult.
Proof.
  intros w r w' [= _ <-] Ht k device e Hk He Hd. simpl in He.
  destruct (decide (pw_entries w !! k = Some e)) as [Hw|Hw]; [by eapply Ht|].
  right. exists k, device, e. repeat (split; [done|]). right. by eexists _, _.
Qed.

Lemma fetch_task_inv before after es calls r es' calls' :
  fetch_task app tg pr key before after (es, calls) = (r, (es', calls')) -> traced es ->
  traced es' /\ forall c d b, r = Ok (c, d, b) -> obtained c.
Proof.
  unfold fetch_task, get_or_fetch. destruct key as [[k device]|] eqn:Ek.
  - destruct (cache_lookup es _ _ k device) as [[c d]|] eqn:El.
    + intros [= <- <- <-] Ht. split; [done|]. intros c' d' b' [= <- _ _].
      unfold cache_lookup in El. apply fmap_Some in El as (e & He & [= -> _]).
      unfold option_filter in He. destruct (es !! k) as [e'|] eqn:E; [|done].
      destruct (_ && _) eqn:Eb in He; [|done]. injection He as ->.
      rewrite !andb_true_iff, String.eqb_eq in Eb. eapply Ht; [by rewrite Ek|done|tauto].
    + destruct (gateway_proxy_credential _ _ _ _ _ calls) as [[fetched|e] calls1] eqn:Ef.
      * intros [= <- <- <-] Ht. assert (issued app (tg_effective tg) (tg_client_id tg) (pr_subscription pr)
          (lc_credential fetched)) as Hi by (by eexists _, _, _).
        split; [by apply traced_insert|]. intros c d b [= <- _ _]. by left.
      * intros [= <- <- <-] Ht. split; [done|]. by intros c d b [=].
  - destruct (gateway_proxy_credential _ _ _ _ _ calls) as [[fetched|e] calls1] eqn:Ef;
      destruct (sv_clock sv after); intros [= <- <- <-] Ht; (split; [done|]); intros c d b; [|done].
    intros [= <- _ _]. left. by eexists _, _, _.
Qed.

Lemma traced_fetch before after : preserving stays_traced (caching (fetch_task app tg pr key before after)).
Proof.
  intros w r w'. unfold caching.
  destruct (fetch_task _ _ _ _ _ _ _) as [r0 [es calls]] eqn:E. intros [= _ <-] Ht.
  by eapply fetch_task_inv.
Qed.
Lemma traced_authenticate : preserving stays_traced (authenticate app tg pr key).
Proof. apply preserving_authenticate; [apply _|apply traced_consult|apply traced_fetch]. Qed.
Lemma traced_drop_if (b : bool) c : preserving stays_traced (if b then drop_credential key c else st_ret tt).
Proof.
  destruct b; [|apply preserving_ret, _].
  apply preserving_bind; [apply _|apply traced_consult|]. intros n w r w' [= _ <-] Ht. simpl.
  destruct key as [[k device]|]; [|done]. eapply traced_sub; [apply invalidate_if_sub|done].
Qed.

Lemma fetched_obtained before after w c d b w' :
  traced (pw_entries w) ->
  (let* r := caching (fetch_task app tg pr key before after) in lift (map_err credential_error r)) w
    = (Ok (c, d, b), w') -> obtained c.
Proof.
  intros Ht Hm. st_inv Hm. unfold caching in E.
  destruct (fetch_task _ _ _ _ _ _ _) as [r0 [es calls]] eqn:Ef. injection E as <- _.
  destruct r0 as [[[c' d'] b']|e]; [|done]. injection Hm as -> _ _ _.
  eapply fetch_task_inv in Ef as [_ Hr]; [|done]. by eapply Hr.
Qed.

Lemma obtain_obtained w c d b w' : traced (pw_entries w) ->
  obtain_credential app tg pr key w = (Ok (c, d, b), w') -> obtained c.
Proof.
  intros Ht Hm. unfold obtain_credential in Hm. st_inv Hm. pose proof (traced_consult _ _ _ E Ht) as Ht1.
  cbv zeta in Hm. destruct (key ≫= _) as [[c' d']|] eqn:Ec.
  - injection Hm as -> _ _ _. destruct key as [[k device]|] eqn:Ek; [|done]. simpl in Ec.
    apply fmap_Some in Ec as (e & He & [= -> _]).
    unfold option_filter in He. destruct (pw_entries s !! k) as [e'|] eqn:El; [|done].
    destruct (_ && _) eqn:Eb in He; [|done]. injection He as ->.
    rewrite !andb_true_iff, String.eqb_eq in Eb. eapply Ht1; [by rewrite Ek|done|tauto].
  - st_inv Hm. pose proof (traced_consult _ _ _ E0 Ht1) as Ht2.
    st_inv Hm. pose proof (traced_consult _ _ _ E1 Ht2) as Ht3.
    destruct (sv_wait sv _) eqn:?; [by eapply fetched_obtained| |done]; simpl in Hm.
    destruct (is_some _); [done|]. by eapply fetched_obtained.
Qed.
End provenance.

Context {L : HeaderMapLaws H}.

(** The device's credential is all an attempt adds to the headers. *)
Definition authorized (tg : target) (source : string -> Prop) (headers headers' : header_map) : Prop :=
  (forall name, eq_ignore_ascii_case name AUTHORIZATION = false ->
     get_all name headers' = get_all name headers) /\
  match gw_authentication (tg_gateway tg) with
  | Some _ => exists credential,
      get_all AUTHORIZATION headers' = ["Bearer " +:+ credential] /\ source credential
  | None => get_all AUTHORIZATION headers' = get_all AUTHORIZATION headers
  end.

Lemma authenticate_headers app tg pr key start w used headers w' :
  traced app tg pr key start (pw_entries w) ->
  authenticate app tg pr key w = (Ok (used, headers), w') ->
  authorized tg (obtained app tg pr key start) (pr_headers pr) headers.
Proof.
  intros Ht. unfold authenticate, authorized. destruct (gw_authentication (tg_gateway tg)) as [a|]; simpl.
  2: { by intros [= _ <- _]. }
  intros Hm. st_inv Hm. destruct r as [[c d] b]. eapply obtain_obtained in E as Hc; [|done].
  st_inv Hm. injection Hm as _ <- _.
  injection E0 as Hv _. unfold value_or, ok_or in Hv.
  destruct (header_value _) as [v|] eqn:Eh; [|done]. injection Hv as ->.
  apply header_value_Some in Eh as ->. split.
  - intros name Hn. by rewrite get_all_insert, Hn.
  - exists c. by rewrite get_all_insert.
Qed.

(** The requests one loop sends. *)
Record attempts (source : string -> Prop) (retried : bool) (tg : target) (rq : request) (pr : prepared) (new : list outgoing)
  : Prop := {
  am_each : forall o, o ∈ new -> exists headers,
    o = request_of tg rq pr headers /\ authorized tg source (pr_headers pr) headers;
  am_count : (length new <= if retried then 1 else 2)%nat;
  am_retry : (1 < length new)%nat ->
    pr_token_sent pr = false /\
    exists o n hs, head new = Some o /\ sv_gateway sv n o = Answered 401 hs;
}.

Lemma attempts_nil source retried tg rq pr : attempts source retried tg rq pr [].
Proof. split; simpl; [by intros o ?%not_elem_of_nil|destruct retried; lia|lia]. Qed.
Lemma attempts_one source retried tg rq pr headers :
  authorized tg source (pr_headers pr) headers -> attempts source retried tg rq pr [request_of tg rq pr headers].
Proof.
  intros Ha. split; simpl; [|destruct retried; lia|lia].
  intros o ->%list_elem_of_singleton. by exists headers.
Qed.

Lemma send_inv o w r w' : send o w = (r, w') ->
  pw_sent w' = (pw_sent w ++ [o])%list /\
  (forall app tg pr key start, stays_traced app tg pr key start w w') /\
  forall status hs, r = Ok (status, hs) -> exists n, sv_gateway sv n o = Answered status hs.
Proof.
  unfold send. intros [(e & [=] & _)|(n & w1 & Hc & Hm)]%st_bind_inv.
  injection Hm as <- <-. pose proof (quiet_consult _ _ _ Hc) as Hq. simpl. split; [by rewrite Hq|].
  split; [intros app tg pr key start Ht; exact (traced_consult _ _ _ _ _ _ _ _ Hc Ht)|]. intros status hs.
  destruct (sv_gateway sv _ o) eqn:E; [|done|done]. intros [= -> ->]. by eexists.
Qed.

Lemma send_loop_sent start fuel retried app ad tg rq pr key w r w' :
  traced app tg pr key start (pw_entries w) ->
  send_loop fuel retried app ad tg rq pr key w = (r, w') ->
  exists new, pw_sent w' = (pw_sent w ++ new)%list /\ attempts (obtained app tg pr key start) retried tg rq pr new /\
    ((if retried then 0 else 1) < fuel -> r <> Ok None)%nat.
Proof.
  revert retried w. induction fuel as [|fuel IH]; intros retried w Ht; simpl.
  { intros [= <- <-]. exists []. rewrite app_nil_r. split; [done|]. split; [apply attempts_nil|lia]. }
  unfold st_bind at 1. destruct (authenticate app tg pr key w) as [[[used headers]|e] w1] eqn:Ea.
  2: { intros [= <- <-]. exists []. rewrite app_nil_r. split; [by eapply quiet_authenticate|].
       split; [apply attempts_nil|done]. }
  pose proof (quiet_authenticate _ _ _ _ _ _ _ Ea) as Hw1.
  pose proof (traced_authenticate _ _ _ _ start _ _ _ Ea Ht) as Ht1.
  eapply authenticate_headers in Ea as Hauth; [|done].
  unfold st_bind at 1. destruct (send _ w1) as [[[status hs]|e] w2] eqn:Es;
    apply send_inv in Es as (Hw2 & Ht2 & Hans); specialize (Ht2 _ _ _ _ _ Ht1); rewrite Hw1 in Hw2.
  2: { intros [= <- <-]. eexists. split; [exact Hw2|]. split; [by apply attempts_one|done]. }
  destruct (_ && negb retried) eqn:Er.
  - apply andb_true_iff in Er as [Er Hret]. apply andb_true_iff in Er as [Er Htok].
    apply andb_true_iff in Er as [H401 _]. apply Z.eqb_eq in H401 as ->.
    apply negb_true_iff in Htok, Hret as ->.
    unfold st_bind at 1. destruct (drop_credential key _ w2) as [[[]|e] w3] eqn:Ed;
      pose proof (quiet_drop_if true _ _ _ _ _ Ed) as Hw3;
      pose proof (traced_drop_if _ _ _ _ _ true _ _ _ _ Ed Ht2) as Ht3.
    2: { intros [= <- <-]. eexists. split; [by rewrite Hw3, Hw2|]. split; [by apply attempts_one|done]. }
    intros Hl. destruct (IH true w3 Ht3 Hl) as (new & Hn & Hnew & Hfuel). exists (request_of tg rq pr headers :: new).
    split; [by rewrite Hn, Hw3, Hw2, <- app_assoc|]. split; [|intros; apply Hfuel; lia].
    destruct Hnew as [Heach Hcount _]. split.
    + intros o [->|Ho]%elem_of_cons; [by exists headers|by apply Heach].
    + simpl. lia.
    + intros _. split; [done|]. destruct (Hans _ _ eq_refl) as [n Hn']. by eexists _, n, hs.
  - unfold st_bind at 1.
    lazymatch goal with |- match ?m w2 with _ => _ end = _ -> _ =>
      destruct (m w2) as [[[]|e] w3] eqn:Ed end;
      apply quiet_drop_if in Ed as Hw3;
      intros [= <- <-]; eexists; (split; [by rewrite Hw3, Hw2|]); (split; [by apply attempts_one|done]).
Qed.

(** ** From the request to what is sent *)

Lemma lift_inv {A} (r : result A ProxyError) w a w' :
  lift r w = (Ok a, w') -> r = Ok a /\ w' = w.
Proof. by intros [= -> <-]. Qed.
Lemma value_or_inv {A} (v : option A) m a : value_or v m = Ok a -> v = Some a.
Proof. destruct v; naive_solver. Qed.

(** Where the token in [x-llm-token] comes from. *)
Definition token_source (config : ProxyConfig) (gateway : LlmGatewayConfig)
    (mode : option RouteCredential) (rq : request) (token : string) : Prop :=
  (mode <> Some Gateway /\ bearer_or_header (rq_headers rq) "x-llm-token" = Some token /\
   token <> px_pairing config) \/
  (mode = None /\ exists github client_id calls lc,
     gw_github_oauth gateway = Some github /\ gh_source github = DeviceFlow /\
     gh_client_id github = Some client_id /\ si_github (sv_sign_ins sv) calls client_id = Ok lc /\
     token = lc_credential lc).

Lemma client_credential_inv config rq token : client_credential config rq = Some token ->
  bearer_or_header (rq_headers rq) "x-llm-token" = Some token /\ token <> px_pairing config.
Proof.
  unfold client_credential, option_filter.
  destruct (bearer_or_header _ _) as [v|]; [|done].
  destruct (constant_time_eq v (px_pairing config)) eqn:E; [done|]. intros [= ->]. split; [done|].
  intros ->. by rewrite (proj2 (constant_time_eq_spec _ _) eq_refl) in E.
Qed.

Lemma upstream_token_inv config ad tg rq w token w' :
  upstream_token config ad tg rq w = (Ok (Some token), w') ->
  token_source config (tg_gateway tg) (tg_credential_mode tg) rq token.
Proof.
  unfold upstream_token, token_source. intros Hm.
  destruct (tg_credential_mode tg) as [[|]|] eqn:Em; [done| |].
  - destruct (is_credential_less_ping config ad rq); [done|]. apply lift_inv in Hm as [Hm _].
    destruct (client_credential config rq) as [t|] eqn:Ec; [|done]. injection Hm as ->.
    apply client_credential_inv in Ec. left. naive_solver.
  - destruct (gw_github_oauth (tg_gateway tg)) as [github|] eqn:Eg; [|done].
    destruct (gh_source github) eqn:Es.
    { right. split; [done|]. destruct (gh_client_id github) as [client_id|] eqn:Ei; [|done].
      st_inv Hm. injection Hm as <- _. unfold asking, st_map_err, ask in E.
      destruct (si_github _ _ _) as [lc|] eqn:Eq in E; [|done]. injection E as -> _.
      by exists github, client_id, (pw_calls w), r. }
    apply lift_inv in Hm as [Hm _].
    destruct (client_credential config rq) as [t|] eqn:Ec; [|done]. injection Hm as ->.
    apply client_credential_inv in Ec. left. naive_solver.
Qed.

Lemma prepare_inv config ad tg rq w pr w' :
  prepare config ad tg rq w = (Ok pr, w') ->
  sv_collect sv MAX_REQUEST_BODY (rq_body rq) = Ok (pr_body pr) /\
  exists token, pr_token_sent pr = is_some token /\
    pr_subscription pr = is_some token && is_subscription_route ad tg /\
    (forall t, token = Some t -> token_source config (tg_gateway tg) (tg_credential_mode tg) rq t) /\
    pr_headers pr =
      insert_header HOST (default "" (sv_uri_authority sv (tg_uri tg)))
        (match token with
         | Some t => insert_header "x-llm-token" t (cleaned_headers (ad_websocket ad) (rq_headers rq))
         | None => cleaned_headers (ad_websocket ad) (rq_headers rq)
         end).
Proof.
  unfold prepare. intros Hm. st_inv Hm. apply lift_inv in E as [Hb ->].
  cbv zeta in Hm. st_inv Hm. st_inv Hm. apply lift_inv in E0 as [Hh ->].
  st_inv Hm. apply lift_inv in E0 as [Ho%value_or_inv%header_value_Some ->]. subst.
  injection Hm as <- _. simpl. split.
  { unfold collect_body in Hb. destruct (sv_collect sv _ _) as [b|e]; [|by destruct e]. by injection Hb as ->. }
  exists r0. split; [done|]. split; [done|]. split.
  { intros t ->. by eapply upstream_token_inv. }
  f_equal. destruct r0 as [t|]; [|by injection Hh as <-].
  destruct (value_or (header_value t) _) as [v|] eqn:Ev; [|done]. injection Hh as <-.
  apply value_or_inv, header_value_Some in Ev as ->. done.
Qed.

(** The part of the path that is forwarded. *)
Definition forwarded_rest (config : ProxyConfig) (p rest : string) : Prop :=
  match match_route p with
  | Some (route, r) =>
      if pairing_in_path route then
        r = "/" +:+ px_pairing config /\ rest = "/" \/
        exists more, r = "/" +:+ px_pairing config +:+ String "/" more /\ rest = String "/" more
      else rest = r
  | None => rest = p
  end.

Lemma admit_inv config rq ad : accept config rq = Ok ad ->
  ad_path ad = fst (path_and_query rq) /\ ad_query ad = snd (path_and_query rq) /\
  ad_matched ad = match_route (ad_path ad) /\
  ad_websocket ad = is_websocket_upgrade (rq_headers rq) /\
  path_escapes_base (ad_path ad) = false /\
  forwarded_rest config (ad_path ad)
    (default (match ad_matched ad with Some (_, r) => r | None => ad_path ad end) (ad_capi_rest ad)) /\
  (ad_matched ad = None -> ad_capi_rest ad = None).
Proof.
  unfold accept. intros Hm.
  destruct (refuse_if _ _) as [[]|] in Hm; [|done]. destruct (refuse_if _ _) as [[]|] in Hm; [|done].
  destruct (refuse_if _ _) as [[]|] in Hm; [|done]. destruct (path_and_query rq) as [p query].
  destruct (check_pairing _ _ _) as [capi|] eqn:Ep; [|done].
  destruct (refuse_if _ _) as [[]|] in Hm; [|done].
  destruct (refuse_if (path_escapes_base p) _) as [[]|] eqn:Ee in Hm; [|done].
  destruct (refuse_if _ _) as [[]|] in Hm; [|done]. injection Hm as <-. simpl.
  assert (path_escapes_base p = false) as He by (by destruct (path_escapes_base p)).
  repeat (split; [done|]). unfold forwarded_rest, check_pairing in *.
  destruct (match_route p) as [[route r]|].
  - split; [|done]. destruct (pairing_in_path route).
    + destruct (split_path_pairing r) as [[seg rem]|] eqn:Es; [|done].
      destruct (constant_time_eq seg _) eqn:Ec; [|done]. injection Ep as <-. simpl.
      apply constant_time_eq_spec in Ec as <-. apply split_path_pairing_spec in Es. naive_solver.
    + destruct (is_some_and _ _); [|done]. by injection Ep as <-.
  - destruct (is_some_and _ _); [|done]. by injection Ep as <-.
Qed.

(** The base URL a request goes to. *)
Definition request_base (gateway : LlmGatewayConfig) (matched : option (ProxyRoute * string)) (base : Url)
  : Prop :=
  match matched with
  | Some (route, _) =>
      match upstream route with
      | UpstreamUrl => base = gw_url gateway
      | UpstreamProxyUrl => gw_proxy_url gateway = Some base
      end
  | None => base = default (gw_url gateway) (gw_proxy_url gateway)
  end.
(** The gateway client a request is made for. *)
Definition request_client (config : ProxyConfig) (matched : option (ProxyRoute * string)) : string :=
  match matched with Some (route, _) => route_client_id route | None => px_default_client_id config end.

Lemma resolve_inv config app s ad tg : resolve config app s ad = Ok tg ->
  load_effective_config (sv_parse_url sv) (sv_from_yaml sv) s (app_config app) (app_state_dir app)
    = Ok (tg_effective tg) /\
  dm_llm_gateway (tg_effective tg) = Some (tg_gateway tg) /\
  tg_credential_mode tg = (fun m => credential (fst m)) <$> ad_matched ad /\
  tg_client_id tg = request_client config (ad_matched ad) /\
  exists base rest,
    request_base (tg_gateway tg) (ad_matched ad) base /\
    rest = (match ad_matched ad with Some (_, r) => default r (ad_capi_rest ad) | None => ad_path ad end) /\
    tg_uri tg = upstream_uri base rest (ad_query ad).
Proof.
  unfold resolve. destruct (load_effective_config _ _ _ _ _) as [effective|]; [|done].
  destruct (dm_llm_gateway effective) as [gateway|] eqn:Eg; [|done].
  destruct (ad_matched ad) as [[route r]|].
  - destruct (_ && _) eqn:Eu; [done|]. destruct (sv_parse_uri sv _); [done|]. intros [= <-].
    repeat (split; [done|]). exists (upstream_base gateway (upstream route)), (default r (ad_capi_rest ad)).
    split; [|done]. simpl in *. destruct (upstream route); [done|]. simpl.
    by destruct (gw_proxy_url gateway).
  - destruct (sv_parse_uri sv _); [done|]. intros [= <-].
    repeat (split; [done|]). exists (upstream_base gateway UpstreamProxyUrl), (ad_path ad).
    done.
Qed.

(** ** The headers of a forwarded request *)

Definition names_in (name : string) (names : list string) : bool :=
  any (fun n => eq_ignore_ascii_case name n) names.

(** Headers a forwarded request may have of its own. *)
Definition proxy_headers : list string :=
  (dropped_headers ++ [HOST; CONNECTION; "upgrade"])%list.

Lemma stripped_or_kept name headers :
  get_all name (strip_hop_headers headers)
  = if names_in name hop_headers || names_in name (nominated headers) then [] else get_all name headers.
Proof.
  unfold strip_hop_headers, remove_all.
  destruct (names_in name hop_headers) eqn:Eh; [by apply removed_absent|].
  rewrite removed_keeps by done. simpl.
  destruct (names_in name (nominated headers)) eqn:En; [by apply removed_absent|].
  by apply removed_keeps.
Qed.

Lemma cleaned_dropped name ws headers : names_in name dropped_headers = true ->
  get_all name (cleaned_headers ws headers) = [].
Proof. intros Hn. by apply removed_absent. Qed.

Lemma cleaned_other name ws headers : names_in name proxy_headers = false ->
  get_all name (cleaned_headers ws headers)
  = if names_in name hop_headers || names_in name (nominated headers) then [] else get_all name headers.
Proof.
  unfold names_in, proxy_headers. rewrite any_app. intros [Hd Ho]%orb_false_iff.
  unfold cleaned_headers, remove_all. rewrite removed_keeps by done.
  simpl in Ho. rewrite !orb_false_iff in Ho. destruct Ho as (_ & Hc & Hu & _).
  destruct ws; [|apply stripped_or_kept].
  rewrite !get_all_insert, Hu, Hc. apply stripped_or_kept.
Qed.

(** No hop-by-hop header is forwarded, except the two that carry an upgrade. *)
Lemma cleaned_hop name ws headers : names_in name hop_headers = true ->
  names_in name [CONNECTION; "upgrade"] = false \/ ws = false ->
  get_all name (cleaned_headers ws headers) = [].
Proof.
  intros Hn Hws. destruct (names_in name dropped_headers) eqn:Ed; [by apply cleaned_dropped|].
  unfold cleaned_headers, remove_all. rewrite removed_keeps by done.
  assert (get_all name (strip_hop_headers headers) = []) as Hs by (by apply removed_absent).
  destruct Hws as [Hws| ->]; [|done]. destruct ws; [|done].
  unfold names_in in Hws. simpl in Hws. rewrite !orb_false_iff in Hws. destruct Hws as (Hc & Hu & _).
  by rewrite !get_all_insert, Hu, Hc.
Qed.

(** The credential the device has for a request: what its credential services answer
    for the request's client, or what the cache holds for the client, the gateway, its
    audience and this device. *)
Definition device_credential (config : ProxyConfig) (app : AppState) (s : fs) (start : entries)
    (effective : DaemonConfig) (gateway : LlmGatewayConfig) (client_id : string) (subscription : bool)
    (c : string) : Prop :=
  issued app effective client_id subscription c \/
  exists audience device e,
    controller_audience gateway = Some audience /\
    load_device_id (sv_parse_identity sv) s (identity_path (app_state_dir app)) = Ok (Some device) /\
    ce_device_id e = device /\ ce_credential e = c /\
    cached start (cache_key_of (sv_url_as_str sv) client_id gateway audience
                  +:+ if subscription then nul +:+ "subscription" else "") e.
(** The client brings its own subscription's token. *)
Definition own_subscription (effective : DaemonConfig) (client_id : string)
    (matched : option (ProxyRoute * string)) : Prop :=
  (exists route rest, matched = Some (route, rest) /\ prefix route = CODEX_ROUTE) /\
  subscription_auth (dm_programs effective) client_id = Some ClientPassthrough.

(** What is sent to the gateway for a request. *)
Record forwarded (config : ProxyConfig) (app : AppState) (s : fs) (start : entries)
    (effective : DaemonConfig) (gateway : LlmGatewayConfig) (rq : request) (o : outgoing) : Prop := {
  fw_gateway : dm_llm_gateway effective = Some gateway;
  fw_request : og_method o = rq_method rq /\
    sv_collect sv MAX_REQUEST_BODY (rq_body rq) = Ok (og_body o);
  fw_uri : exists base rest,
    request_base gateway (match_route (fst (path_and_query rq))) base /\
    forwarded_rest config (fst (path_and_query rq)) rest /\ stays_below rest /\
    og_uri o = upstream_uri base rest (snd (path_and_query rq));
  fw_host : get_all HOST (og_headers o) = [default "" (sv_uri_authority sv (og_uri o))];
  fw_dropped : forall name, name ∈ [PAIRING_HEADER; "x-api-key"; "api-key"] ->
    get_all name (og_headers o) = [];
  fw_authorization :
    match gw_authentication gateway with
    | Some _ => exists subscription c,
        get_all AUTHORIZATION (og_headers o) = ["Bearer " +:+ c] /\
        (subscription = true <-> get_all "x-llm-token" (og_headers o) <> [] /\
           own_subscription effective (request_client config (match_route (fst (path_and_query rq))))
             (match_route (fst (path_and_query rq)))) /\
        device_credential config app s start effective gateway
          (request_client config (match_route (fst (path_and_query rq)))) subscription c
    | None => get_all AUTHORIZATION (og_headers o) = []
    end;
  fw_token : get_all "x-llm-token" (og_headers o) = [] \/
    exists token, get_all "x-llm-token" (og_headers o) = [token] /\
      token_source config gateway ((fun m => credential (fst m)) <$> match_route (fst (path_and_query rq)))
        rq token;
  fw_hop : forall name, names_in name hop_headers = true ->
    names_in name [CONNECTION; "upgrade"] = false \/ ~ wants_upgrade (rq_headers rq) ->
    names_in name [HOST; AUTHORIZATION; "x-llm-token"] = false ->
    get_all name (og_headers o) = [];
  fw_other : forall name, names_in name proxy_headers = false ->
    get_all name (og_headers o)
    = if names_in name hop_headers || names_in name (nominated (rq_headers rq)) then []
      else get_all name (rq_headers rq);
}.

Lemma names_in_authorization name : eq_ignore_ascii_case name AUTHORIZATION = false ->
  names_in name [AUTHORIZATION] = false.
Proof. unfold names_in. simpl. by intros ->. Qed.

(** A forwarded path is a part of the request's path that starts at a [/]. *)
Lemma forwarded_rest_safe config p rest :
  forwarded_rest config p rest -> path_escapes_base p = false -> path_escapes_base rest = false.
Proof.
  unfold forwarded_rest. destruct (match_route p) as [[route r]|] eqn:E; [|by intros ->].
  apply match_route_Some in E as [Hr Hu]. intros Hrest Hp.
  assert (path_escapes_base r = false) as Hsafe.
  { destruct Hu as [|r]; [done|]. by eapply path_escapes_suffix. }
  destruct (pairing_in_path route); [|by subst].
  destruct Hrest as [[-> ->]|(more & -> & ->)]; [done|].
  apply (path_escapes_suffix ("/" +:+ px_pairing config)). by rewrite append_assoc.
Qed.

Lemma obtained_device config app s ad tg pr start c :
  resolve config app s ad = Ok tg ->
  obtained app tg pr (proxy_cache_key app s tg pr) start c ->
  device_credential config app s start (tg_effective tg) (tg_gateway tg)
    (request_client config (ad_matched ad)) (pr_subscription pr) c.
Proof.
  intros (_ & _ & _ & <- & _)%resolve_inv [Hi|(k & device & e & Hk & Hd & Hc & He)]; [by left|right].
  unfold proxy_cache_key in Hk. destruct (controller_audience (tg_gateway tg)) as [audience|]; [|done].
  destruct (load_device_id _ _ _) as [[device'|]|] eqn:El; [|done|done]. injection Hk as <- <-.
  exists audience, device', e. repeat (split; [done|]).
  destruct (pr_subscription pr); [done|]. by rewrite append_nil_r.
Qed.

Lemma token_present token clean : get_all "x-llm-token" clean = [] ->
  get_all "x-llm-token" (match token with
                         | Some t => insert_header "x-llm-token" t clean
                         | None => clean
                         end) <> [] <-> is_some token = true.
Proof. intros Hc. destruct token as [t|]; [by rewrite get_all_insert|]. rewrite Hc. by split. Qed.
Lemma subscription_route_ok ad tg : is_subscription_route ad tg = true <->
  own_subscription (tg_effective tg) (tg_client_id tg) (ad_matched ad).
Proof.
  unfold is_subscription_route, own_subscription. rewrite andb_true_iff, bool_decide_eq_true.
  apply and_iff_both; [|done]. destruct (ad_matched ad) as [[route rest]|]; simpl.
  - rewrite String.eqb_eq. split; [intros Hp; by exists route, rest|]. by intros (? & ? & [= <- <-] & ?).
  - split; [done|]. by intros (? & ? & [=] & _).
Qed.

Lemma request_forwarded config app s rq ad tg start w pr w' headers :
  accept config rq = Ok ad -> resolve config app s ad = Ok tg ->
  prepare config ad tg rq w = (Ok pr, w') ->
  authorized tg (obtained app tg pr (proxy_cache_key app s tg pr) start) (pr_headers pr) headers ->
  forwarded config app s start (tg_effective tg) (tg_gateway tg) rq (request_of tg rq pr headers).
Proof.
  intros (Hp & Hq & Hm & Hws & He & Hrest & Hcapi)%admit_inv.
  intros Hres. pose proof (obtained_device config app s ad tg) as Hdev.
  pose proof Hres as (_ & Hg & Hmode & Hclient & base & rest & Hbase & Hr & Huri)%resolve_inv.
  intros (Hbody & token & _ & Hsub & Htoken & Hh)%prepare_inv [Hkeep Hauth].
  assert (rest = default (match ad_matched ad with Some (_, r) => r | None => ad_path ad end)
                   (ad_capi_rest ad)) as Hrest'.
  { rewrite Hr. destruct (ad_matched ad) as [[route r]|]; [done|]. by rewrite Hcapi. }
  rewrite <- Hrest' in Hrest.
  rewrite Hm, Hp in Hmode, Hbase, Hclient. rewrite Hp in Hrest, He. rewrite Hq in Huri.
  set (clean := cleaned_headers (ad_websocket ad) (rq_headers rq)) in *.
  assert (forall name, eq_ignore_ascii_case name AUTHORIZATION = false ->
    eq_ignore_ascii_case name HOST = false -> eq_ignore_ascii_case name "x-llm-token" = false ->
    get_all name headers = get_all name clean) as Hsame.
  { intros name Ha Hho Ht. rewrite Hkeep, Hh, get_all_insert, Hho by done.
    destruct token; [by rewrite get_all_insert, Ht|done]. }
  split; try done; simpl.
  - exists base, rest. split; [done|]. split; [done|]. split; [apply path_escapes_base_ok; by eapply forwarded_rest_safe|done].
  - rewrite Hkeep, Hh, get_all_insert by done. done.
  - intros name Hn. rewrite Hsame by (set_unfold; naive_solver).
    apply cleaned_dropped. set_unfold. naive_solver.
  - destruct (gw_authentication (tg_gateway tg)).
    { destruct Hauth as (c & Hc & Hobt). exists (pr_subscription pr), c. split; [done|].
      split; [|apply (Hdev _ _ _ Hres) in Hobt; by rewrite Hm, Hp in Hobt].
      rewrite Hkeep, Hh, get_all_insert by done.
      change (eq_ignore_ascii_case "x-llm-token" HOST) with false. cbv iota.
      rewrite token_present by (by apply cleaned_dropped).
      rewrite Hsub, andb_true_iff, subscription_route_ok, <- Hclient, Hm, Hp. done. }
    rewrite Hauth, Hh, get_all_insert. simpl.
    destruct token; [rewrite get_all_insert; simpl|]; by apply cleaned_dropped.
  - rewrite Hkeep, Hh, get_all_insert by done. simpl. destruct token as [t|].
    + right. exists t. rewrite get_all_insert. split; [done|]. rewrite <- Hmode. by apply Htoken.
    + left. by apply cleaned_dropped.
  - intros name Hn Hup Hno. unfold names_in in Hno. simpl in Hno. rewrite !orb_false_iff in Hno.
    destruct Hno as (Hho & Ha & Ht & _). rewrite Hsame by done.
    apply cleaned_hop; [done|]. rewrite Hws. destruct Hup as [Hup|Hup]; [by left|right].
    apply not_true_iff_false. by rewrite is_websocket_upgrade_ok.
  - intros name Hn. pose proof Hn as Hn'. unfold names_in, proxy_headers in Hn'. simpl in Hn'.
    rewrite !orb_false_iff in Hn'. rewrite Hsame by tauto. by apply cleaned_other.
Qed.

Lemma forward_inv config app s rq w r w' : forward config app s rq w = (r, w') ->
  (exists e, r = Err e /\ pw_sent w' = pw_sent w) \/
  exists ad tg pr w1,
    accept config rq = Ok ad /\ resolve config app s ad = Ok tg /\
    prepare config ad tg rq w = (Ok pr, w1) /\ pw_sent w1 = pw_sent w /\
    pw_entries w1 = pw_entries w /\
    send_loop 2 false app ad tg rq pr (proxy_cache_key app s tg pr) w1 = (r, w').
Proof.
  unfold forward, st_bind, lift. destruct (accept config rq) as [ad|e]; [|intros [= <- <-]; left; by exists e].
  destruct (resolve config app s ad) as [tg|e] eqn:Et; [|intros [= <- <-]; left; by exists e].
  destruct (prepare config ad tg rq w) as [[pr|e] w1] eqn:Ep; pose proof (quiet_prepare _ _ _ _ _ _ _ Ep) as Hw1.
  - intros Hs. right. exists ad, tg, pr, w1. repeat (split; [done|]). split; [|done].
    by apply prepare_same_entries in Ep.
  - intros [= <- <-]. left. by exists e.
Qed.
End proxy.

(** C35. Only a local, paired client is served, and nobody else learns anything:
    every request either is acceptable (a [Host] of one of the forms of a host whose
    name is a loopback address or [localhost], no [Origin], neither [CONNECT] nor
    [OPTIONS], the pairing value in its own header or, on the route that takes it
    there, as the first path segment, well-formed escapes and no [..] in the path, an
    upgrade only on a route that tunnels it, no mistyped route), or is refused with an
    answer that does not depend on the configuration, the device or the network,
    without asking a service, reading the cache or sending anything. *)
Theorem only_paired_requests_are_served {H : HeaderMap} config rq :
  (acceptable config rq /\ exists ad, accept config rq = Ok ad) \/
  (~ acceptable config rq /\ exists e, pe_status e ∈ [400; 403; 404; 405] /\
     forall sv app s w, forward sv config app s rq w = (Err e, w)).
Proof.
  destruct (accept config rq) as [ad|e] eqn:E.
  - left. split; [|by exists ad]. apply admit_ok. by rewrite E.
  - right. split; [intros Ha%admit_ok; by rewrite E in Ha|]. exists e.
    split; [by eapply admit_err|]. intros sv app s w. unfold forward, st_bind, lift. by rewrite E.
Qed.

(** C9. What reaches the gateway is safe: every request sent for a client's request
    goes to the base URL of its route followed by the client's path without the managed
    prefix and the pairing value and without any [..], with the client's method and
    body; the pairing header and API keys are gone; [Authorization] is [Bearer] and the
    device's own credential, one the device's credential services answered with for the
    request's client or one the cache holds for that client, the gateway and the device
    (or absent, for a gateway without authentication); [x-llm-token] is absent or the
    client's own token, never the pairing value (or, without a managed route, the
    answer of a GitHub device flow); hop headers and the ones [Connection] names are
    gone but for an upgrade's, and every other header is the client's. *)
Theorem forwarded_requests_are_safe {H : HeaderMap} {L : HeaderMapLaws H} sv config app s rq w r w' :
  forward sv config app s rq w = (r, w') ->
  exists new, pw_sent w' = (pw_sent w ++ new)%list /\
    forall o, o ∈ new -> acceptable config rq /\
      exists effective gateway,
        load_effective_config (sv_parse_url sv) (sv_from_yaml sv) s (app_config app) (app_state_dir app)
          = Ok effective /\
        forwarded sv config app s (pw_entries w) effective gateway rq o.
Proof.
  intros [(e & -> & Hs)|(ad & tg & pr & w1 & Ha & Ht & Hp & Hw1 & He1 & Hl)]%forward_inv.
  { exists []. rewrite app_nil_r. split; [done|]. by intros o ?%not_elem_of_nil. }
  destruct (send_loop_sent sv (pw_entries w) 2 false app ad tg rq pr _ w1 r w'
    ltac:(rewrite He1; apply traced_start) Hl) as (new & Hn & [Heach _ _] & _).
  exists new.
  split; [by rewrite Hn, Hw1|]. intros o (headers & -> & Hauth)%Heach.
  split; [apply admit_ok; by rewrite Ha|]. exists (tg_effective tg), (tg_gateway tg).
  split; [by apply resolve_inv in Ht as [Heff _]|].
  exact (request_forwarded sv config app s rq ad tg (pw_entries w) w pr w1 headers Ha Ht Hp Hauth).
Qed.

(** A request is sent at most twice and always answered: [forward] returns a
    response or an error; it sends at most two requests, and a second one only
    after the gateway answered 401 to the first, which carried no client token; the
    two differ in the device's credential alone. *)
Theorem at_most_one_retry {H : HeaderMap} {L : HeaderMapLaws H} sv config app s rq w r w' :
  forward sv config app s rq w = (r, w') ->
  r <> Ok None /\
  exists new, pw_sent w' = (pw_sent w ++ new)%list /\ (length new <= 2)%nat /\
    forall o1 o2, new = [o1; o2] ->
      (exists n hs, sv_gateway sv n o1 = Answered 401 hs) /\
      get_all "x-llm-token" (og_headers o1) = [] /\
      og_method o1 = og_method o2 /\ og_uri o1 = og_uri o2 /\ og_body o1 = og_body o2 /\
      forall name, eq_ignore_ascii_case name AUTHORIZATION = false ->
        get_all name (og_headers o1) = get_all name (og_headers o2).
Proof.
  intros [(e & -> & Hs)|(ad & tg & pr & w1 & Ha & Ht & Hp & Hw1 & He1 & Hl)]%forward_inv.
  { split; [done|]. exists []. rewrite app_nil_r. split; [done|]. split; [simpl; lia|done]. }
  destruct (send_loop_sent sv (pw_entries w) 2 false app ad tg rq pr _ w1 r w'
    ltac:(rewrite He1; apply traced_start) Hl)
    as (new & Hn & [Heach Hcount Hretry] & Hr). split; [apply Hr; lia|].
  exists new. split; [by rewrite Hn, Hw1|]. split; [done|]. intros o1 o2 ->.
  destruct Hretry as (Htok & o & n & hs & Ho & Hans); [simpl; lia|]. injection Ho as <-.
  destruct (Heach o1) as (h1 & -> & Hk1 & _); [set_solver|].
  destruct (Heach o2) as (h2 & -> & Hk2 & _); [set_solver|]. simpl.
  split; [by exists n, hs|]. split; [|split; [done|split; [done|split; [done|]]]].
  - destruct (prepare_inv sv config ad tg rq w pr w1 Hp) as (_ & token & Htok' & _ & _ & Hh). rewrite Htok in Htok'.
    destruct token; [done|]. rewrite Hk1, Hh, get_all_insert by done. by apply cleaned_dropped.
  - intros name Hname. by rewrite Hk1, Hk2.
Qed.

(** ** Examples *)

Definition demo_sign_ins : sign_ins := {|
  si_controller := fun _ _ _ _ => Ok {| lc_credential := "fresh"; lc_expires_at := 10000 |};
  si_oidc := fun _ _ _ _ => Err {| se_sign_in_required := true; se_message := "sign in" |};
  si_anthropic := fun _ _ => Ok (Some {| lc_credential := "mine"; lc_expires_at := 500 |});
  si_openai := fun _ _ => Ok None;
  si_github := fun _ _ => Err "no device" |}.

(** A gateway that rejects the credential found in the cache. *)
Definition demo_services : services := {|
  sv_sign_ins := demo_sign_ins;
  sv_url_as_str := fun _ => "https://gw.example/llm/";
  sv_parse_url := demo_parse_url;
  sv_from_yaml := demo_from_str;
  sv_parse_identity := fun _ => Ok "device";
  sv_parse_uri := fun _ => None;
  sv_uri_authority := fun _ => Some "gw.example";
  sv_collect := fun _ body => Ok body;
  sv_gateway := fun _ o =>
    if bool_decide (get_all AUTHORIZATION (og_headers o) = ["Bearer stale"])
    then Answered 401 ([] : header_map) else Answered 200 ([("Content-Type", "text/plain")] : header_map);
  sv_clock := fun _ => (100, 100);
  sv_wait := fun _ => Finished;
  sv_others := fun _ es => es |}.

Definition demo_proxy : ProxyConfig :=
  {| px_default_client_id := "default"; px_pairing := "pairing-value" |}.
Definition demo_app : AppState := {| app_config := demo_daemon; app_state_dir := ["/"; "home"; "state"] |}.
Definition demo_state_fs : fs :=
  {| nodes := {[ identity_path ["/"; "home"; "state"] := File "{}" 384 ]}; umask := 18;
     fs_fault := fun _ _ => None |}.
Definition demo_request : request :=
  {| rq_method := "POST"; rq_path_and_query := Some "/copilot-cli/v1/chat?stream=1";
     rq_headers := ([("Host", "localhost:8084"); ("X-Agentdesktop-Pairing", "pairing-value");
                    ("Authorization", "Bearer client"); ("x-api-key", "k");
                    ("Connection", "keep-alive, X-Hop"); ("x-hop", "1"); ("accept", "*/*")]
                    : header_map);
     rq_body := "{}" |}.
Definition cached_world : proxy_world :=
  {| pw_entries := {[ "copilot-cli" +:+ nul +:+ "https://gw.example/llm/" +:+ nul +:+ "gateway" :=
       {| ce_credential := "stale"; ce_device_id := "device"; ce_valid_until := 200;
          ce_valid_until_unix := 200; ce_expires := 300; ce_expires_unix := 300 |} ]};
     pw_calls := []; pw_sent := []; pw_reads := 0 |}.
Definition demo_run : result (option response) ProxyError * proxy_world :=
  forward demo_services demo_proxy demo_app demo_state_fs demo_request cached_world.

(** The cached credential is rejected, the request sent again with a fresh one. *)
Example demo_forwarded :
  map (fun o => (og_uri o, og_headers o)) (pw_sent (snd demo_run)) =
    [("https://gw.example/llm/v1/chat?stream=1",
      [("authorization", "Bearer stale"); ("host", "gw.example"); ("accept", "*/*")]);
     ("https://gw.example/llm/v1/chat?stream=1",
      [("authorization", "Bearer fresh"); ("host", "gw.example"); ("accept", "*/*")])].
Proof. vm_compute. reflexivity. Qed.

Lemma demo_run_eq : demo_run = (fst demo_run, snd demo_run).
Proof. by destruct demo_run. Qed.

Lemma forwarded_requests_are_safe_witness :
  exists new, pw_sent (snd demo_run) = (pw_sent cached_world ++ new)%list /\
    forall o, o ∈ new -> acceptable demo_proxy demo_request /\
      exists effective gateway,
        load_effective_config (sv_parse_url demo_services) (sv_from_yaml demo_services) demo_state_fs
          (app_config demo_app) (app_state_dir demo_app) = Ok effective /\
        forwarded demo_services demo_proxy demo_app demo_state_fs (pw_entries cached_world) effective gateway
          demo_request o.
Proof.
  exact (forwarded_requests_are_safe demo_services demo_proxy demo_app demo_state_fs demo_request
           cached_world (fst demo_run) (snd demo_run) demo_run_eq).
Defined.

Lemma at_most_one_retry_witness :
  fst demo_run <> Ok None /\
  exists new, pw_sent (snd demo_run) = (pw_sent cached_world ++ new)%list /\ (length new <= 2)%nat /\
    forall o1 o2, new = [o1; o2] ->
      (exists n hs, sv_gateway demo_services n o1 = Answered 401 hs) /\
      get_all "x-llm-token" (og_headers o1) = [] /\
      og_method o1 = og_method o2 /\ og_uri o1 = og_uri o2 /\ og_body o1 = og_body o2 /\
      forall name, eq_ignore_ascii_case name AUTHORIZATION = false ->
        get_all name (og_headers o1) = get_all name (og_headers o2).
Proof.
  exact (at_most_one_retry demo_services demo_proxy demo_app demo_state_fs demo_request
           cached_world (fst demo_run) (snd demo_run) demo_run_eq).
Defined.
