(* ===== verification/Shared.v ===== *)
(** * What the program providers share ([crates/agent/src/provider/shared.rs])

    Commands and their POSIX rendering, the overlay of generated settings on the
    pass-through ones ([deep_merge]) and the gateway's base URL. URLs are edited
    and printed by the [url] crate, a parameter here ([UrlOps]). A reference
    tokenizer for a POSIX shell's quoting says what a rendered command is. *)

From stdpp Require Import countable.
From S2P Require Import Prelude Str Json Codec Fs Config JsonMerge.

(** ** URLs *)

Class UrlOps : Type := {
  (** [Url::as_str] and [Url::to_string]. *)
  url_to_string : Url -> string;
  (** [Url::set_path]. *)
  url_set_path : string -> Url -> Url;
  (** [Url::from_file_path(absolute).map(to_string)]. *)
  url_from_file_path : path -> option string;
}.

(** Printers of the [serde_json] and [toml] crates: [serde_json::to_string], which
    does not fail on a [Value], and [toml::to_string_pretty], which fails on what
    TOML has no form for (a null). *)
Class Printers : Type := {
  json_to_string : value -> string;
  toml_to_string_pretty : value -> result string string;
}.

Definition slash : ascii := "/".
Definition line_feed : string := String "010" "".
(** Double quotes around a text. *)
Definition quoted (s : string) : string := String "034" "" +:+ s +:+ String "034" "".

(** Adds the final line feed that is missing. *)
Definition end_line (contents : string) : string :=
  if ends_with line_feed contents then contents else contents +:+ line_feed.

Definition responses_base_url `{UrlOps} (gateway : LlmGatewayConfig) : string :=
  let url := gw_url gateway in
  let path := trim_end_matches slash (url_path url) in
  let url := if ends_with "/v1" path then url else url_set_path (path +:+ "/v1") url in
  trim_end_matches slash (url_to_string url).

(** ** Commands *)

Record CommandSpec : Type := {
  cs_program : string;
  cs_args : list string;
}.
Definition new_command (program : path) (args : list string) : CommandSpec :=
  {| cs_program := display program; cs_args := args |}.

(** [value.replace('\'', "'\\''")]. *)
Fixpoint replace_quotes (s : string) : string :=
  match s with
  | EmptyString => EmptyString
  | String a s =>
      if Ascii.eqb a "'" then "'\''" +:+ replace_quotes s else String a (replace_quotes s)
  end.
Definition shell_quote (s : string) : string := "'" +:+ replace_quotes s +:+ "'".

Definition render_posix_command (command : CommandSpec) : string :=
  join " " (map shell_quote (cs_program command :: cs_args command)).
(** [render_command] on Unix. *)
Definition render_command : CommandSpec -> string := render_posix_command.

(** A pretty-printed document and its final line feed. *)
Definition json_lines `{JsonCodec} (settings : value) : string := to_vec_pretty settings +:+ line_feed.

(** [gateway.authentication.as_ref().is_some_and(uses_credential_helper)]. *)
Definition gateway_uses_helper (gateway : LlmGatewayConfig) : bool :=
  is_some_and uses_credential_helper (gw_authentication gateway).
Definition is_oidc (authentication : option LlmGatewayAuthentication) : bool :=
  match authentication with Some (Oidc _ _ _ _ _ _) => true | _ => false end.
Definition vstrings (l : list string) : value := Array (map VString l).
Definition num (n : N) : value := Number (PosInt n).

(** ** Overlaying settings *)

Fixpoint deep_merge (base overlay : value) {struct overlay} : value :=
  match overlay with
  | Object over =>
      match base with
      | Object b =>
          Object (map_fold (fun key v acc =>
                    <[key := deep_merge (default Null (acc !! key)) v]> acc) b over)
      | _ => overlay
      end
  | _ => overlay
  end.

(** ** What a shell reads in a command line *)

(** A POSIX shell's tokens for a line of plain characters, single quotes and
    backslashes; [None] when the line has anything else a shell interprets
    (expansions, redirections, operators, comments, patterns, double quotes), or
    an unfinished quote. *)
Inductive sh_state : Type :=
| Blank
| Word (w : string)
| Quoted (w : string)
| Escaped (w : string).

Definition snoc (w : string) (a : ascii) : string := w +:+ String a "".
Definition sh_blank (a : ascii) : bool := Ascii.eqb a " " || Ascii.eqb a "009".
Definition sh_plain (a : ascii) : bool :=
  is_ascii_alphanumeric a || existsb (Ascii.eqb a) ["-"; "_"; "/"; "."; ","; "+"; ":"; "@"; "%"]%char.

Definition sh_word (w : string) (a : ascii) : option sh_state :=
  if Ascii.eqb a "'" then Some (Quoted w)
  else if Ascii.eqb a "\" then Some (Escaped w)
  else if sh_plain a then Some (Word (snoc w a))
  else None.

Fixpoint sh_scan (st : sh_state) (s : string) (done : list string) : option (list string) :=
  match s with
  | EmptyString =>
      match st with
      | Blank => Some done
      | Word w => Some (done ++ [w])%list
      | Quoted _ | Escaped _ => None
      end
  | String a s =>
      match st with
      | Blank =>
          if sh_blank a then sh_scan Blank s done
          else match sh_word "" a with Some st => sh_scan st s done | None => None end
      | Word w =>
          if sh_blank a then sh_scan Blank s (done ++ [w])%list
          else match sh_word w a with Some st => sh_scan st s done | None => None end
      | Quoted w => if Ascii.eqb a "'" then sh_scan (Word w) s done else sh_scan (Quoted (snoc w a)) s done
      | Escaped w => if Ascii.eqb a "010" then None else sh_scan (Word (snoc w a)) s done
      end
  end.
Definition sh_words (line : string) : option (list string) := sh_scan Blank line [].

Lemma snoc_app w a s : snoc w a +:+ s = w +:+ String a s.
Proof. unfold snoc. by rewrite append_assoc. Qed.

Lemma sh_scan_quoted w s rest words :
  sh_scan (Quoted w) (replace_quotes s +:+ String "'" rest) words
  = sh_scan (Word (w +:+ s)) rest words.
Proof.
  revert w. induction s as [|a s IH]; intros w; [by rewrite append_nil_r|].
  cbn [replace_quotes]. destruct (Ascii.eqb_spec a "'") as [->|Hne].
  - rewrite append_assoc. change (sh_scan (Quoted (snoc w "'"))
      (replace_quotes s +:+ String "'" rest) words = sh_scan (Word (w +:+ String "'" s)) rest words).
    by rewrite IH, snoc_app.
  - change (String a (replace_quotes s) +:+ String "'" rest)
      with (String a (replace_quotes s +:+ String "'" rest)).
    cbn [sh_scan]. rewrite (proj2 (Ascii.eqb_neq a "'") Hne), IH. by rewrite snoc_app.
Qed.

(** A quoted value is one word, whatever it holds. *)
Lemma sh_scan_shell_quote s rest words :
  sh_scan Blank (shell_quote s +:+ rest) words = sh_scan (Word s) rest words.
Proof.
  unfold shell_quote. rewrite !append_assoc. apply (sh_scan_quoted "").
Qed.

Lemma sh_scan_join args words :
  args <> [] -> sh_scan Blank (join " " (map shell_quote args)) words = Some (words ++ args)%list.
Proof.
  revert words. induction args as [|s args IH]; intros words Ha; [done|]. clear Ha.
  destruct args as [|t args].
  - simpl join. rewrite <- (append_nil_r (shell_quote s)). by rewrite sh_scan_shell_quote.
  - change (join " " (map shell_quote (s :: t :: args)))
      with (shell_quote s +:+ " " +:+ join " " (map shell_quote (t :: args))).
    rewrite sh_scan_shell_quote.
    change (sh_scan Blank (join " " (map shell_quote (t :: args))) (words ++ [s])%list
            = Some (words ++ s :: t :: args)%list).
    rewrite IH by done. by rewrite <- app_assoc.
Qed.

(** A shell reads a rendered command back as its program and arguments. *)
Lemma rendered_words command :
  sh_words (render_command command) = Some (cs_program command :: cs_args command).
Proof. by apply (sh_scan_join (cs_program command :: cs_args command) []). Qed.

(** ** Laws of [deep_merge] *)

Definition deep_merged (b o : gmap string value) : gmap string value :=
  map_fold (fun key v acc => <[key := deep_merge (default Null (acc !! key)) v]> acc) b o.
Lemma deep_merge_objects b o : deep_merge (Object b) (Object o) = Object (deep_merged b o).
Proof. done. Qed.
Lemma lookup_deep_merged b o k :
  deep_merged b o !! k =
  match o !! k with
  | Some v => Some (deep_merge (default Null (b !! k)) v)
  | None => b !! k
  end.
Proof. apply (map_fold_insert_lookup (fun cur v => deep_merge (default Null cur) v)). Qed.
Lemma deep_merge_not_object base overlay :
  is_object base = false \/ is_object overlay = false -> deep_merge base overlay = overlay.
Proof. destruct base, overlay; naive_solver. Qed.

Lemma deep_merge_object base o :
  deep_merge base (Object o) = Object (deep_merged (default ∅ (as_object base)) o).
Proof.
  destruct base as [| | | | |b]; try done; simpl; rewrite ?deep_merge_objects; try done.
  all: f_equal; apply map_eq; intros k; rewrite lookup_deep_merged; simpl; rewrite lookup_empty;
    destruct (o !! k); [|done]; simpl; by rewrite deep_merge_not_object by auto.
Qed.

Lemma deep_merge_self v : deep_merge v v = v.
Proof.
  induction v as [| | | |l|m IH] using value_ind; try done.
  rewrite deep_merge_objects. f_equal. apply map_eq. intros k.
  rewrite lookup_deep_merged. destruct (m !! k) as [v|] eqn:E; [|done].
  simpl. f_equal. by eapply IH.
Qed.

Lemma at_path_deep_merge ks base overlay v :
  at_path ks (Some overlay) = Some v ->
  at_path ks (Some (deep_merge base overlay))
  = Some (deep_merge (default Null (at_path ks (Some base))) v).
Proof.
  revert base overlay. induction ks as [|k ks IH]; intros base overlay H.
  - by injection H as ->.
  - destruct (is_object base) eqn:Eb.
    2: { rewrite (at_path_not_object _ _ base Eb), deep_merge_not_object, H by auto.
         by rewrite deep_merge_not_object by auto. }
    destruct base as [| | | | |b]; try done.
    destruct overlay as [| | | | |o]; try (simpl in H; by rewrite at_path_None in H).
    rewrite deep_merge_objects. simpl in *. rewrite lookup_deep_merged.
    destruct (o !! k) as [w|]; [|simpl in H; by rewrite at_path_None in H]. simpl in *.
    rewrite (IH _ _ H). do 2 f_equal. destruct (b !! k) as [w'|]; [done|]. simpl.
    rewrite at_path_None. destruct ks; [done|]. by rewrite at_path_not_object.
Qed.

Lemma deep_merge_outside ks base overlay :
  outside ks overlay = true ->
  at_path ks (Some (deep_merge base overlay)) = at_path ks (Some base).
Proof.
  revert base overlay. induction ks as [|k ks IH]; intros base overlay; [done|].
  destruct overlay as [| | | | |o]; try done. intros Ho.
  destruct (is_object base) eqn:Eb.
  2: { rewrite (at_path_not_object _ _ base Eb), deep_merge_not_object by auto.
       by apply at_path_outside. }
  destruct base as [| | | | |b]; try done. rewrite deep_merge_objects. simpl.
  rewrite lookup_deep_merged. simpl in Ho. destruct (o !! k) as [v|]; [|done].
  rewrite IH by done. destruct (b !! k); [done|].
  destruct ks as [|k' ks']; [done|]. rewrite at_path_None. by apply at_path_not_object.
Qed.

Lemma deep_merge_idem base overlay :
  deep_merge (deep_merge base overlay) overlay = deep_merge base overlay.
Proof.
  revert base. induction overlay as [| | | | |o IH] using value_ind; intros base; try done.
  destruct base as [| | | | |b]; try apply (deep_merge_self (Object o)).
  rewrite !deep_merge_objects. f_equal. apply map_eq. intros k.
  rewrite !lookup_deep_merged. destruct (o !! k) as [v|] eqn:E; [|done].
  simpl. f_equal. by eapply IH.
Qed.

#[global] Arguments deep_merge : simpl never.

Lemma deep_merge_leaf base overlay ks v :
  at_path ks (Some overlay) = Some v -> is_object v = false ->
  at_path ks (Some (deep_merge base overlay)) = Some v.
Proof.
  intros Hv Ho. rewrite (at_path_deep_merge ks base overlay v Hv).
  by rewrite deep_merge_not_object by auto.
Qed.

(** Generated settings laid over the pass-through ones are in force: every
    value they hold that is not an object is the merged document's value at its
    path; whatever they do not reach is as it was; and merging again changes nothing. *)
Theorem generated_settings_in_force base overlay :
  (forall ks v, at_path ks (Some overlay) = Some v -> is_object v = false ->
     at_path ks (Some (deep_merge base overlay)) = Some v) /\
  (forall ks, outside ks overlay = true ->
     at_path ks (Some (deep_merge base overlay)) = at_path ks (Some base)) /\
  deep_merge (deep_merge base overlay) overlay = deep_merge base overlay.
Proof.
  split; [|split]; intros; [by apply deep_merge_leaf|by apply deep_merge_outside|apply deep_merge_idem].
Qed.

(** ** Concrete printers

    Instances for concrete runs: a URL is printed by its parts, a document as the
    binary digits of its encoding. *)

Definition demo_json (v : value) : string := digits (encode (to_tree v)).
Definition demo_unjson (s : string) : option value := of_tree <$> (of_digits (s +:+ line_feed) ≫= decode).
Lemma demo_unjson_json v : demo_unjson (demo_json v) = Some v.
Proof.
  unfold demo_unjson, demo_json, digits, line_feed. simpl. rewrite of_bits_bits. simpl.
  rewrite decode_encode. simpl. by rewrite of_to_tree.
Qed.
#[global] Instance demo_printers : Printers :=
  {| json_to_string := demo_json; toml_to_string_pretty v := Ok (demo_json v) |}.
#[global] Instance demo_urls : UrlOps := {|
  url_to_string u := url_scheme u +:+ "://" +:+ default "" (url_host u) +:+ url_path u;
  url_set_path p u :=
    {| url_scheme := url_scheme u; url_username := url_username u; url_password := url_password u;
       url_host := url_host u; url_port := url_port u; url_path := p; url_query := url_query u;
       url_fragment := url_fragment u |};
  url_from_file_path p := Some ("file://" +:+ display p);
|}.
