(* ===== verification/Planner.v ===== *)
(** * What every planner keeps to

    A small program logic for the planning functions of the providers. A planning
    computation [plans] effects of some kind when, however it ends, it only adds to
    the plan: observations that are what the file system holds, and report lines and
    operations of that kind, each operation on a file observed before; and its value,
    when it returns one, satisfies a postcondition. The rules follow the shape of the code,
    so that a planner's law is proved by walking through its body ([solve_plans]). *)

From S2P Require Import Prelude Str Json Fs Plan JsonMerge Config Reconcile.

(** [match m { Ok(a) => .., Err(e) => .. }]: the outcome as a value. *)
Definition attempt {S E F A} (m : ST S E A) : ST S F (result A E) :=
  fun s => let '(r, s') := m s in (Ok r, s').
(** A computation that leaves the plan alone. *)
Definition lift_result {S E A} (r : result A E) : ST S E A := fun s => (r, s).

(** What a planner adds to a plan. *)
Inductive effect : Type :=
| Change (c : FileChange)
| Show (c : DryRunChange).
(** Effects that change files as [P] says, whatever they show. *)
Definition on_files (P : FileChange -> Prop) (e : effect) : Prop :=
  match e with Change c => P c | Show _ => True end.

Lemma on_files_show P c : on_files P (Show c).
Proof. done. Qed.
Lemma on_files_change (P : FileChange -> Prop) c : P c -> on_files P (Change c).
Proof. done. Qed.

(** [pl'] is [pl] with additions: operations and report lines of the kind [ok]. *)
Record grows (s : fs) (ok : effect -> Prop) (pl pl' : ReconcilePlan) : Prop := {
  grows_faithful : faithful s pl';
  grows_operations : exists ops, operations pl' = (operations pl ++ ops)%list /\
    forall c, c ∈ ops -> ok (Change c) /\ is_Some (observed pl' !! fc_path c);
  grows_changes : exists cs, changes (report pl') = (changes (report pl) ++ cs)%list /\
    forall c, c ∈ cs -> ok (Show c);
  grows_observed q o : observed pl !! q = Some o -> observed pl' !! q = Some o;
}.

Definition plans (s : fs) (ok : effect -> Prop) {E A} (m : ST ReconcilePlan E A)
    (Q : A -> Prop) : Prop :=
  forall pl r pl', faithful s pl -> m pl = (r, pl') ->
    grows s ok pl pl' /\ match r with Ok a => Q a | Err _ => True end.
Abbreviation scoped s ok m := (plans s ok m (fun _ => True)).

(** What a read of [p] tells. *)
Definition read_tells (s : fs) (p : path) (r : result string io_kind) : Prop :=
  match r with
  | Ok c => read_optional s p = Ok (Some c)
  | Err NotFound => read_optional s p = Ok None
  | Err e => read_optional s p = Err e
  end.

Lemma read_optional_not_NotFound s p : read_optional s p <> Err NotFound.
Proof. unfold read_optional. destruct (fs_read s p) as [|[]]; done. Qed.

Section rules.
Context (s : fs) (ok : effect -> Prop).

Lemma no_changes (pl pl' : ReconcilePlan) :
  changes (report pl') = changes (report pl) ->
  exists cs, changes (report pl') = (changes (report pl) ++ cs)%list /\
    forall c, c ∈ cs -> ok (Show c).
Proof. intros ->. exists []. rewrite app_nil_r. split; [done|]. intros c Hc. by apply not_elem_of_nil in Hc. Qed.

(** A change of the report or of the other fields plans nothing. *)
Lemma grows_report pl pl' :
  faithful s pl -> observed pl' = observed pl -> operations pl' = operations pl ->
  (exists cs, changes (report pl') = (changes (report pl) ++ cs)%list /\
    forall c, c ∈ cs -> ok (Show c)) -> grows s ok pl pl'.
Proof.
  intros Hf Hob Hop Hc. split; [by unfold faithful; rewrite Hob| |done|by rewrite Hob].
  exists []. rewrite Hop, app_nil_r. split; [done|]. intros c Hc'. by apply not_elem_of_nil in Hc'.
Qed.
Lemma grows_refl pl : faithful s pl -> grows s ok pl pl.
Proof. intros Hf. apply grows_report; try done. by apply no_changes. Qed.

Lemma grows_trans pl1 pl2 pl3 : grows s ok pl1 pl2 -> grows s ok pl2 pl3 -> grows s ok pl1 pl3.
Proof.
  intros [F1 (o1 & O1 & P1) (c1 & C1 & S1) B1] [F2 (o2 & O2 & P2) (c2 & C2 & S2) B2]. split; auto.
  - exists (o1 ++ o2)%list. rewrite O2, O1, app_assoc. split; [done|].
    intros c [Hc|Hc]%elem_of_app; [|by apply P2].
    destruct (P1 c Hc) as [? [o Ho]]. split; [done|]. exists o. by apply B2.
  - exists (c1 ++ c2)%list. rewrite C2, C1, app_assoc. split; [done|].
    intros c [Hc|Hc]%elem_of_app; auto.
Qed.

Lemma grows_mono (ok' : effect -> Prop) pl pl' :
  grows s ok pl pl' -> (forall e, ok e -> ok' e) -> grows s ok' pl pl'.
Proof.
  intros [F (ops & O & P) (cs & C & S) B] H. split; try done.
  - exists ops. split; [done|]. intros c Hc. destruct (P c Hc). auto.
  - exists cs. split; [done|]. auto.
Qed.

Lemma plans_mono {E A} (m : ST ReconcilePlan E A) (Q R : A -> Prop) :
  plans s ok m Q -> (forall a, Q a -> R a) -> plans s ok m R.
Proof.
  intros Hm HQ pl r pl' Hf H. destruct (Hm _ _ _ Hf H) as [Hg Hr]. split; [done|].
  destruct r; auto.
Qed.
Lemma plans_ret {E A} (a : A) (Q : A -> Prop) : Q a -> plans s ok (st_ret a : ST _ E A) Q.
Proof. intros HQ pl r pl' Hf [= <- <-]. split; [by apply grows_refl|done]. Qed.
Lemma plans_err {E A} (e : E) (Q : A -> Prop) : plans s ok (st_err e) Q.
Proof. intros pl r pl' Hf [= <- <-]. split; [by apply grows_refl|done]. Qed.
Lemma plans_lift {E A} (r : result A E) : plans s ok (lift_result r) (fun a => r = Ok a).
Proof. intros pl r' pl' Hf [= <- <-]. split; [by apply grows_refl|by destruct r]. Qed.
Lemma plans_bind {E A B} (m : ST ReconcilePlan E A) (k : A -> ST ReconcilePlan E B) (Q : A -> Prop)
    (R : B -> Prop) :
  plans s ok m Q -> (forall a, Q a -> plans s ok (k a) R) -> plans s ok (st_bind m k) R.
Proof.
  intros Hm Hk pl r pl' Hf H. unfold st_bind in H.
  destruct (m pl) as [[a|e] pl1] eqn:Em; destruct (Hm _ _ _ Hf Em) as [H1 HQ].
  - destruct (Hk a HQ _ _ _ (grows_faithful _ _ _ _ H1) H) as [H2 HR].
    split; [by eapply grows_trans|done].
  - by simplify_eq.
Qed.
Lemma plans_map_err {E F A} (f : E -> F) (m : ST ReconcilePlan E A) (Q : A -> Prop) :
  plans s ok m Q -> plans s ok (st_map_err f m) Q.
Proof.
  intros Hm pl r pl' Hf (r0 & H & Hr)%st_map_err_inv. destruct (Hm _ _ _ Hf H) as [Hg HQ].
  split; [done|]. destruct r0, r; naive_solver.
Qed.

Lemma plans_read p pl r pl' :
  faithful s pl -> read s p pl = (r, pl') ->
  grows s ok pl pl' /\ read_tells s p r /\
  match r with Ok _ | Err NotFound => is_Some (observed pl' !! p) | _ => True end.
Proof.
  intros Hf H. pose proof (read_faithful _ _ _ _ _ Hf H) as (Hf' & Hops & Hrep & _ & _ & _ & Hr).
  split; [|split].
  - split; [done| | |].
    + exists []. rewrite app_nil_r. split; [done|]. intros c Hc. by apply not_elem_of_nil in Hc.
    + apply no_changes. by rewrite Hrep.
    + intros q o Hq. revert H. unfold read. destruct (observed pl !! p) as [known|] eqn:Ep.
      * destruct known; intros [= _ <-]; done.
      * assert (q <> p) as Hne by congruence.
        destruct (read_optional s p) as [[c|]|e]; intros [= _ <-]; try done; simpl;
          by rewrite lookup_insert_ne.
  - unfold read_tells. destruct r as [c|[]]; try done; by apply Hf' in Hr.
  - destruct r as [c|[]]; try done; by rewrite Hr.
Qed.
Lemma plans_attempt_read {F} p : plans s ok (attempt (read s p) : ST _ F _) (read_tells s p).
Proof.
  intros pl r pl' Hf H. unfold attempt in H. destruct (read s p pl) as [r0 pl1] eqn:Er.
  simplify_eq. by destruct (plans_read _ _ _ _ Hf Er) as (? & ? & _).
Qed.
Lemma plans_attempt {E F A} (m : ST ReconcilePlan E A) :
  scoped s ok m -> scoped s ok (attempt m : ST _ F _).
Proof.
  intros Hm pl r pl' Hf H. unfold attempt in H. destruct (m pl) as [r0 pl1] eqn:Em.
  simplify_eq. by destruct (Hm _ _ _ Hf Em).
Qed.

Lemma grows_push_operation c pl :
  faithful s pl -> ok (Change c) -> is_Some (observed pl !! fc_path c) ->
  grows s ok pl (push_operation c pl).
Proof.
  intros Hf Hc Ho. split; try done; [|by apply no_changes]. exists [c]. split; [done|].
  by intros c' ->%list_elem_of_singleton.
Qed.
Lemma plans_write_file p contents mode :
  ok (Change {| fc_path := p; fc_contents := Some contents; fc_permissions := mode |}) ->
  scoped s ok (write_file s p contents mode).
Proof.
  intros Hok pl r pl' Hf H. unfold write_file in H. destruct (read s p pl) as [r0 pl1] eqn:Er.
  destruct (plans_read _ _ _ _ Hf Er) as (Hg & _ & Ho). pose proof (grows_faithful _ _ _ _ Hg).
  split; [|by destruct r]. eapply grows_trans; [exact Hg|].
  destruct r0 as [c|[]]; simplify_eq; try (by apply grows_refl); by apply grows_push_operation.
Qed.
Lemma plans_remove_file p :
  ok (Change {| fc_path := p; fc_contents := None; fc_permissions := 0 |}) -> scoped s ok (remove_file s p).
Proof.
  intros Hok pl r pl' Hf H. unfold remove_file, st_bind in H.
  destruct (read s p pl) as [[c|e] pl1] eqn:Er;
    destruct (plans_read _ _ _ _ Hf Er) as (Hg & _ & Ho); simplify_eq; [|done].
  split; [|done]. eapply grows_trans; [exact Hg|].
  apply grows_push_operation; [by eapply grows_faithful|done|done].
Qed.

Lemma plans_modify f : (forall pl, faithful s pl -> grows s ok pl (f pl)) -> scoped s ok (modify f).
Proof. intros Hf pl r pl' Hp [= <- <-]. split; [by apply Hf|done]. Qed.
Definition shown (n d a : string) (p : path) (before after : option string) : DryRunChange :=
  {| dc_display_name := n; dc_description := d; dc_action := a; dc_path := p;
     dc_before := from_utf8_lossy <$> before; dc_after := from_utf8_lossy <$> after |}.
Lemma grows_record_diff n d a p b af pl :
  ok (Show (shown n d a p b af)) -> faithful s pl -> grows s ok pl (record_diff n d a p b af pl).
Proof.
  intros Hok Hf. apply grows_report; try done. eexists. split; [done|].
  by intros c ->%list_elem_of_singleton.
Qed.
(** Only a removal shows the file, as it was read. *)
Lemma grows_record n d a p pl :
  (if String.eqb a "remove"
   then forall b, (forall c, b = Some c -> read_optional s p = Ok (Some c)) ->
          ok (Show (shown n d a p b None))
   else ok (Show (shown n d a p None None))) ->
  faithful s pl -> grows s ok pl (record s n d a p pl).
Proof.
  intros Hok Hf. unfold record. destruct (String.eqb a "remove"); [|by apply grows_record_diff].
  destruct (read s p pl) as [r pl1] eqn:Er. destruct (plans_read _ _ _ _ Hf Er) as (Hg & Ht & _).
  eapply grows_trans; [exact Hg|]. apply grows_record_diff; [|by eapply grows_faithful].
  apply Hok. intros c Hc. destruct r; by simplify_eq/=.
Qed.
Lemma grows_inactive reason pl : faithful s pl -> grows s ok pl (set_inactive reason pl).
Proof. intros Hf. apply grows_report; try done. by apply no_changes. Qed.
Lemma grows_private_dir dir pl : faithful s pl -> grows s ok pl (plan_private_dir dir pl).
Proof. intros Hf. apply grows_report; try done. by apply no_changes. Qed.
End rules.

Lemma grows_record_files s P n d a p pl :
  faithful s pl -> grows s (on_files P) pl (record s n d a p pl).
Proof. apply grows_record. by destruct (String.eqb a "remove"). Qed.

Create HintDb planning discriminated.
#[export] Hint Resolve plans_ret plans_err plans_map_err plans_write_file plans_remove_file
  grows_record_diff grows_record grows_record_files grows_inactive grows_private_dir grows_refl on_files_show
  on_files_change : planning.

(** Walks through a planner's body: binds, the branches of the code, and the
    primitives by their rules; what is left says that a change is of the kind. *)
Ltac plans_step :=
  match goal with
  | |- plans _ _ (st_bind (lift_result _) _) _ => 
      let H := fresh "H" in eapply plans_bind; [apply plans_lift|intros ? H; cbv beta in H]
  | |- plans _ _ (st_bind (attempt (read _ _)) _) _ =>
      eapply plans_bind; [apply plans_attempt_read|intros ? ?]
  | |- plans _ _ (st_bind _ _) _ => eapply (plans_bind _ _ _ _ (fun _ => True)); [|intros ? _]
  | |- plans _ _ (match ?x with _ => _ end) _ => destruct x eqn:?
  | |- plans _ _ (st_map_err _ _) _ => apply plans_map_err
  | |- plans _ _ (lift_result _) (fun _ => True) => eapply plans_mono; [apply plans_lift|done]
  | |- plans _ _ (attempt _) (fun _ => True) => apply plans_attempt
  | |- plans _ _ (modify _) _ => apply plans_modify; intros ? ?
  | |- plans _ _ (let _ := _ in _) _ => intros ?
  | |- grows _ _ _ (record _ _ _ _ _ _) => apply grows_record; [simpl (String.eqb _ _); cbv iota|done]
  | |- grows _ _ _ (match ?x with _ => _ end) => destruct x
  | |- grows _ _ _ ((match ?x with _ => _ end) _) => destruct x
  end.
Ltac solve_plans := repeat plans_step; eauto with planning.

(** ** The JSON merge keeps to its file and its sidecar *)

Section merge.
Context `{C : JsonCodec} (s : fs) (ok : effect -> Prop).

Lemma plans_read_existing p name :
  plans s ok (read_existing s p name) (fun o => read_optional s p = Ok o).
Proof.
  intros pl r pl' Hf H. unfold read_existing in H. destruct (read s p pl) as [r0 pl1] eqn:Er.
  destruct (plans_read s ok _ _ _ _ Hf Er) as (Hg & Ht & _). destruct r0 as [|[]]; by simplify_eq.
Qed.
Lemma plans_read_state p name : scoped s ok (read_state s p name).
Proof.
  intros pl r pl' Hf H. unfold read_state in H. destruct (read s p pl) as [r0 pl1] eqn:Er.
  destruct (plans_read s ok _ _ _ _ Hf Er) as (Hg & _). split; [|by destruct r].
  destruct r0 as [c|[]]; simplify_eq; try done. destruct (state_from_slice c) as [|[]]; by simplify_eq.
Qed.
Lemma plans_managed_after p name : scoped s ok (managed_after s p name).
Proof. eapply plans_bind; [apply plans_read_state|]. intros a _. by apply plans_ret. Qed.
Lemma plans_remove_state_file p name :
  ok (Change {| fc_path := p; fc_contents := None; fc_permissions := 0 |}) ->
  scoped s ok (remove_state_file s p name).
Proof.
  intros Hp pl r pl' Hf H. unfold remove_state_file in H. destruct (remove_file s p pl) as [r0 pl1] eqn:Er.
  destruct (plans_remove_file s ok p Hp _ _ _ Hf Er) as [Hg _].
  destruct r0 as [[]|[]]; by simplify_eq.
Qed.
Lemma scoped_read_existing p name : scoped s ok (read_existing s p name).
Proof. eapply plans_mono; [apply plans_read_existing|done]. Qed.
Hint Resolve scoped_read_existing plans_read_state plans_remove_state_file : planning.

Variables (p sp : path).
Hypothesis ok_files : forall q c m, q = p \/ q = sp ->
  ok (Change {| fc_path := q; fc_contents := c; fc_permissions := m |}).
Variables (desc name : string) (options : MergeOptions).
(** The lines of a merge: one without contents, one that shows them unless the file
    is redacted, and the removal of a blank file, which shows it. *)
Hypothesis ok_line : forall action, ok (Show (shown name desc action p None None)).
Hypothesis ok_diff : mo_redact_diff options = false ->
  forall action before after, ok (Show (shown name desc action p before after)).
Hypothesis ok_blank : forall b, blank b = true ->
  ok (Show (shown name desc "remove" p (Some b) None)).

Lemma scoped_record action : action <> "remove" -> scoped s ok (modify (record s name desc action p)).
Proof.
  intros Ha. apply plans_modify. intros pl Hf. apply grows_record; [|done].
  by rewrite (proj2 (String.eqb_neq _ _) Ha).
Qed.
Lemma scoped_record_action action before after :
  scoped s ok (record_action name desc action p before after (mo_redact_diff options)).
Proof.
  apply plans_modify. intros pl Hf. destruct (mo_redact_diff options) eqn:E;
    apply grows_record_diff; auto.
Qed.
Hint Resolve scoped_record scoped_record_action : planning.

Lemma scoped_plan_merge_with managed owned :
  scoped s ok (plan_merge_with s p sp managed owned desc name options).
Proof. unfold plan_merge_with. solve_plans. Qed.
Lemma scoped_plan_remove_with : scoped s ok (plan_remove_with s p sp desc name options).
Proof.
  unfold plan_remove_with, remove_planned. plans_step; [auto with planning|]. plans_step; [|solve_plans].
  eapply plans_bind; [apply plans_read_existing|]. intros o Ho.
  repeat plans_step; eauto with planning.
  all: intros b Hb; destruct b as [b|]; [|by apply ok_line].
  all: specialize (Hb b eq_refl); apply ok_blank; congruence.
Qed.
End merge.

Lemma files_plan_merge `{JsonCodec} s P p sp managed owned desc name options :
  (forall q c m, q = p \/ q = sp ->
     P {| fc_path := q; fc_contents := c; fc_permissions := m |}) ->
  scoped s (on_files P) (plan_merge_with s p sp managed owned desc name options).
Proof. intros HP. by apply scoped_plan_merge_with. Qed.
Lemma files_plan_remove `{JsonCodec} s P p sp desc name options :
  (forall q c m, q = p \/ q = sp ->
     P {| fc_path := q; fc_contents := c; fc_permissions := m |}) ->
  scoped s (on_files P) (plan_remove_with s p sp desc name options).
Proof. intros HP. by apply scoped_plan_remove_with. Qed.

(** ** Providers that keep to their files *)

(** The files a provider may write or remove, and that its plans keep to them. *)
Definition in_files (files : list path) (c : FileChange) : Prop := fc_path c ∈ files.

Class ProviderScope (p : Provider) : Type := {
  provider_files : list path;
  plan_scoped ctx config s pl :
    provider_plan p ctx config s = Ok pl ->
    grows s (on_files (in_files provider_files)) default_plan pl;
}.
Arguments provider_files p {_}.

#[global] Instance scope_laws p `{ProviderScope p} : ProviderLaws p.
Proof.
  split. intros ctx config s pl Hp. by eapply grows_faithful, plan_scoped.
Qed.
#[global] Instance discovery_only_scope id : ProviderScope (discovery_only id).
Proof.
  refine {| provider_files := [] |}. intros ctx config s pl [= <-].
  apply grows_refl, faithful_default.
Defined.

(** A plan made by running a computation on the empty plan. *)
Definition run_planning {A} (m : planning A) : result ReconcilePlan string :=
  match m default_plan with
  | (Ok _, pl) => Ok pl
  | (Err e, _) => Err e
  end.
Lemma run_planning_grows {A} s ok (m : planning A) Q pl :
  plans s ok m Q -> run_planning m = Ok pl -> grows s ok default_plan pl.
Proof.
  intros Hm H. unfold run_planning in H. destruct (m default_plan) as [[a|e] pl'] eqn:E; simplify_eq.
  by destruct (Hm _ _ _ (faithful_default s) E).
Qed.
(** Every operation of a plan made from the empty one is of its kind. *)
Lemma planned_change s ok pl c :
  grows s (on_files ok) default_plan pl -> c ∈ operations pl -> ok c.
Proof. intros [_ (ops & -> & H) _ _] Hc. by apply H. Qed.
Lemma planned_show s ok pl c :
  grows s ok default_plan pl -> c ∈ changes (report pl) -> ok (Show c).
Proof. intros [_ _ (cs & -> & H) _] Hc. by apply H. Qed.
Lemma skip_unless_grows ctx scope configured name pl s ok :
  skip_unless ctx scope configured name = Some pl -> grows s ok default_plan pl.
Proof.
  unfold skip_unless. pose proof (faithful_default s). destruct (Bool.eqb _ _); [done|].
  destruct configured, scope; intros [= <-];
    first [by apply grows_refl|by apply grows_report; [..|apply no_changes]].
Qed.
