(* ===== verification/ManagedFiles.v ===== *)
(** * Files recognised by their first line: OpenCode, Grok Build and Codex

    [crates/agent/src/provider/opencode], [grok] and [codex]. Each writes whole
    files that start with a header line; a file without that line is the user's and
    is never changed. The three share the shape of the file handling
    ([reconcile_file], [remove_owned]), which each source spells out; their generated
    documents are their own. *)

From S2P Require Import Prelude Str Json Fs Plan Config JsonMerge Reconcile Net Http Routes Shared Planner.

(** ** Whole files under a header *)

(** [MANAGED_FILE_MODE] of the three programs, 0o644. *)
Definition MANAGED_FILE_MODE : Z := 420.

(** [plan.read(path)] with [NotFound] as [None] and another error reported as [what]. *)
Definition read_managed (s : fs) (what : string) (p : path) : planning (option string) :=
  let* existing := attempt (read s p) in
  match existing with
  | Ok existing => st_ret (Some existing)
  | Err NotFound => st_ret None
  | Err e => st_err (context (what +:+ " from " +:+ display p) (io_kind_message e))
  end.

Section header.
(** The header, the names in the report, and how a difference is recorded. *)
Variables (header name description what : string).
Variable show : string -> path -> option string -> option string -> ReconcilePlan -> ReconcilePlan.

Definition reconcile_file (s : fs) (p : path) (contents : string) (mode : Z) : planning unit :=
  let* existing := read_managed s ("read " +:+ what) p in
  let write action :=
    write_file s p contents mode ;* modify (show action p existing (Some contents)) in
  match existing with
  | Some found =>
      if bool_decide (found = contents) && negb (grants_beyond s p mode)
      then modify (record s name description "unchanged" p)
      else if starts_with header found then write "update"
      else modify (show "conflict" p (Some found) (Some contents))
  | None => write "create"
  end.

(** [shown] records the removal of the contents that were read. *)
Definition remove_owned (s : fs) (p : path) (shown : string -> ReconcilePlan -> ReconcilePlan)
  : planning unit :=
  let* existing := read_managed s ("read " +:+ what) p in
  match existing with
  | Some contents =>
      if starts_with header contents
      then st_map_err (fun e => context ("remove " +:+ what +:+ " at " +:+ display p)
                                  (io_kind_message e)) (remove_file s p) ;*
           modify (shown contents)
      else modify (record s name description "unchanged" p)
  | None => modify (record s name description "unchanged" p)
  end.
End header.

(** [plan.record_diff(DISPLAY_NAME, description, ...)]. *)
Definition show_diff (name description action : string) (p : path) (before after : option string)
  : ReconcilePlan -> ReconcilePlan := record_diff name description action p before after.

(** A program's configuration, with the gateway when it is to use it. *)
Definition configured_with {A} (use_llm_gateway : A -> bool) (config : DaemonConfig)
    (program : option A) : option (A * option LlmGatewayConfig) :=
  (fun provider => (provider,
     option_filter (fun _ => use_llm_gateway provider) (dm_llm_gateway config))) <$> program.

(** ** Grok Build *)

Module Grok.
Definition ID : string := "grok".
Definition DISPLAY_NAME : string := "Grok Build".
Definition MANAGED_HEADER : string :=
  "# Managed by agentdesktop. Manual changes will be replaced." +:+ line_feed.
Definition PROVIDER_NAME : string := "agentdesktop".

Definition catalog_entries (config : GrokConfig) (default_model : string)
  : list (string * value) :=
  if bool_decide (gk_models config = ∅)
  then [(default_model,
         Object {[ "model" := VString default_model; "name" := VString "agentdesktop" ]})]
  else btree_iter (gk_models config).

Section with_ops.
Context {U : UrlOps} {P : Printers}.

Definition model_entry (gateway : LlmGatewayConfig) (entry : string * value) : gmap string value :=
  let '(id, v) := entry in
  let m := default ∅ (as_object v) in
  let m := if is_none ((m !! "model") ≫= Json.as_str) then <["model" := VString id]> m else m in
  let m := <["base_url" := VString (responses_base_url gateway)]> m in
  if gateway_uses_helper gateway then <["auth_provider" := VString PROVIDER_NAME]> m else m.

(** [models.insert(id, entry)] for each entry. *)
Definition model_table (gateway : LlmGatewayConfig) (catalog : list (string * value))
  : gmap string value :=
  fold_left (fun models entry => <[fst entry := Object (model_entry gateway entry)]> models)
    catalog ∅.

(** [entry.remove("api_key"); entry.remove("env_key")] in [settings["model"][id]]. *)
Definition drop_static (v : value) : value :=
  match v with Object m => Object (delete "env_key" (delete "api_key" m)) | _ => v end.
Definition clear_static (settings : value) (entry : string * value) : value :=
  update_at "model" (update_at (fst entry) drop_static) settings.

Definition auth_provider (gateway : LlmGatewayConfig) (credential_helper socket : path) : value :=
  Object {[ PROVIDER_NAME := Object (list_to_map
    [("command", VString (display credential_helper));
     ("args", vstrings ["--socket"; display socket; "credential"; "--client-id"; ID]);
     ("timeout_secs", num (if is_oidc (gw_authentication gateway) then 600 else 5))]) ]}.

Definition generated_config (gateway : LlmGatewayConfig) (catalog : list (string * value))
    (default_model : string) (credential_helper socket : path) : gmap string value :=
  let generated : gmap string value :=
    {[ "models" := Object {[ "default" := VString default_model ]};
       "model" := Object (model_table gateway catalog) ]} in
  if gateway_uses_helper gateway
  then <["auth_provider" := auth_provider gateway credential_helper socket]> generated
  else generated.

Definition managed_config (config : GrokConfig) (gateway : option LlmGatewayConfig)
    (credential_helper socket : path) : result value string :=
  let settings := Object (gk_managed_config config) in
  match gateway with
  | None => Ok settings
  | Some gateway =>
      let? default_model :=
        ok_or (option_filter (fun model => negb (trims_empty model)) (gk_model config))
          "Grok gateway configuration has no model" in
      let catalog := catalog_entries config default_model in
      let generated := generated_config gateway catalog default_model credential_helper socket in
      let settings := deep_merge settings (Object generated) in
      Ok (if gateway_uses_helper gateway then fold_left clear_static catalog settings
          else settings)
  end.

Definition contents_of (settings : value) : result string string :=
  let? text := map_err (context "serialize Grok managed configuration as TOML")
                 (toml_to_string_pretty settings) in
  Ok (end_line (MANAGED_HEADER +:+ text)).

Definition reconcile (s : fs) (p : path) (contents : string) : planning unit :=
  reconcile_file MANAGED_HEADER DISPLAY_NAME "configuration" "Grok managed configuration"
    (show_diff DISPLAY_NAME "configuration") s p contents MANAGED_FILE_MODE.
Definition remove (s : fs) (p : path) : planning unit :=
  remove_owned MANAGED_HEADER DISPLAY_NAME "configuration" "Grok managed configuration" s p
    (fun _ => record s DISPLAY_NAME "configuration" "remove" p).

Definition plan (s : fs) (p credential_helper socket : path)
    (config : option (GrokConfig * option LlmGatewayConfig)) : planning unit :=
  match config with
  | None => remove s p
  | Some (config, gateway) =>
      let* settings := lift_result (managed_config config gateway credential_helper socket) in
      let* contents := lift_result (contents_of settings) in
      reconcile s p contents
  end.

(** [impl Provider for Grok]. *)
Definition provider (managed_config_path : path) : Provider :=
  {| provider_id := ID;
     provider_plan := fun ctx config s =>
       match skip_unless ctx System (is_some (grok (dm_programs config))) DISPLAY_NAME with
       | Some pl => Ok pl
       | None =>
           run_planning
             (plan s managed_config_path (credential_helper ctx) (socket ctx)
                (configured_with gk_use_llm_gateway config (grok (dm_programs config))))
       end |}.
End with_ops.
End Grok.

(** ** Codex *)

Module Codex.
Definition ID : string := "codex".
Definition DISPLAY_NAME : string := "Codex".
Definition MANAGED_HEADER : string :=
  "# Managed by Agentdesktop. Manual changes will be replaced." +:+ line_feed.
Definition provider_name : string := "agentdesktop".

(** [contents.windows(len).any(|part| part == PAIRING_HEADER)]. *)
Fixpoint contains (needle s : string) : bool :=
  starts_with needle s || match s with String _ s => contains needle s | EmptyString => false end.
Definition carries_pairing (contents : string) : bool := contains PAIRING_HEADER contents.

Definition record_configuration (action : string) (p : path) (before after : option string)
  : ReconcilePlan -> ReconcilePlan :=
  if is_some_and carries_pairing before || is_some_and carries_pairing after
  then record_diff DISPLAY_NAME "configuration" action p None None
  else record_diff DISPLAY_NAME "configuration" action p before after.

(** [map.insert(path, access)] for each path. *)
Definition grant (access : string) (m : gmap string value) (paths : list path) : gmap string value :=
  fold_left (fun m p => <[display p := VString access]> m) paths m.

Definition filesystem_access (sandbox : SandboxConfig) : gmap string value :=
  let filesystem : gmap string value :=
    {[ ":root" := VString "read"; ":project_roots" := VString "write" ]} in
  let filesystem := grant "write" filesystem (sf_writable (sb_filesystem sandbox)) in
  grant "deny" filesystem (sf_denied (sb_filesystem sandbox)).
Definition allowed_domains (sandbox : SandboxConfig) : gmap string value :=
  fold_left (fun m domain => <[domain := VString "allow"]> m)
    (set_iter (sn_allowed_domains (sb_network sandbox))) ∅.

Definition sandbox_settings (sandbox : SandboxConfig) : value :=
  let domains := allowed_domains sandbox in
  let network_enabled := negb (bool_decide (domains = ∅)) in
  let generated : gmap string value := list_to_map
    [("default_permissions", VString "agentdesktop");
     ("permissions", Object {[ "agentdesktop" := Object {[
        "filesystem" := Object (filesystem_access sandbox);
        "network" := Object (list_to_map
          [("enabled", VBool network_enabled); ("mode", VString "limited");
           ("domains", Object domains)]) ]} ]})] in
  Object (if network_enabled
          then <["features" := Object {[ "network_proxy" := VBool true ]}]> generated
          else generated).

Definition static_fields : list string :=
  ["auth"; "env_key"; "experimental_bearer_token"; "aws"; "gateway_oauth"; "env_http_headers";
   "http_headers"].
(** The pass-through fields a subscription takes out. *)
Definition clear_login (settings : value) : value :=
  match settings with
  | Object m =>
      update_at "model_providers"
        (update_at provider_name (fun existing =>
           match existing with
           | Object fields => Object (fold_left (fun m field => delete field m) static_fields fields)
           | _ => existing
           end))
        (Object (delete "forced_login_method" m))
  | _ => settings
  end.

Section with_ops.
Context {U : UrlOps} {P : Printers}.

Definition codex_responses_base_url (gateway : LlmGatewayConfig) (subscription : bool) : string :=
  let path := trim_end_matches slash (url_path (gw_url gateway)) in
  if subscription && ends_with "/backend-api/codex" path
  then trim_end_matches slash (url_to_string (gw_url gateway))
  else responses_base_url gateway.

Definition uses_subscription (config : CodexConfig) : bool :=
  bool_decide (cx_auth config = Some Subscription).

Definition auth_command (gateway : LlmGatewayConfig) (subscription : bool)
    (credential_helper socket : path) : value :=
  Object (list_to_map
    [("command", VString (display credential_helper));
     ("args", vstrings ["--socket"; display socket; "credential"; "--client-id"; ID]);
     ("timeout_ms", num (if subscription || is_oidc (gw_authentication gateway)
                         then 600000 else 5000));
     ("refresh_interval_ms", num 60000)]).

Definition provider_entry (config : CodexConfig) (gateway : LlmGatewayConfig)
    (credential_helper socket : path) : gmap string value :=
  let subscription := uses_subscription config in
  let entry : gmap string value := list_to_map
    [("name", VString "Agentdesktop");
     ("base_url", VString (codex_responses_base_url gateway subscription));
     ("wire_api", VString "responses")] in
  let entry :=
    if subscription
    then <["supports_websockets" := VBool false]> (<["requires_openai_auth" := VBool false]> entry)
    else entry in
  if gateway_uses_helper gateway
  then <["auth" := auth_command gateway subscription credential_helper socket]> entry
  else entry.

Definition managed_config (config : CodexConfig) (gateway : option LlmGatewayConfig)
    (credential_helper socket : path) (sandbox : option SandboxConfig) : value :=
  let settings := Object (cx_managed_config config) in
  let settings :=
    match sandbox with
    | Some sandbox => deep_merge settings (sandbox_settings sandbox)
    | None => settings
    end in
  match gateway with
  | None => settings
  | Some gateway =>
      let settings := if uses_subscription config then clear_login settings else settings in
      deep_merge settings (Object {[
        "model_provider" := VString provider_name;
        "model_providers" := Object {[
          provider_name := Object (provider_entry config gateway credential_helper socket) ]} ]})
  end.

Definition file_mode (config : CodexConfig) (user_mode : bool) : Z :=
  if uses_subscription config && user_mode then 384 else MANAGED_FILE_MODE.

Definition contents_of (settings : value) : result string string :=
  let? text := map_err (context "serialize Codex managed configuration as TOML")
                 (toml_to_string_pretty settings) in
  Ok (end_line (MANAGED_HEADER +:+ text)).

Definition reconcile (s : fs) (p : path) (contents : string) (mode : Z) : planning unit :=
  reconcile_file MANAGED_HEADER DISPLAY_NAME "configuration" "Codex managed configuration"
    record_configuration s p contents mode.
Definition remove (s : fs) (p : path) : planning unit :=
  remove_owned MANAGED_HEADER DISPLAY_NAME "configuration" "Codex managed configuration" s p
    (fun contents => record_configuration "remove" p (Some contents) None).

Definition plan (s : fs) (p credential_helper socket : path) (sandbox : option SandboxConfig)
    (user_mode : bool) (config : option (CodexConfig * option LlmGatewayConfig)) : planning unit :=
  match config with
  | None => remove s p
  | Some (config, gateway) =>
      let mode := file_mode config user_mode in
      let settings := managed_config config gateway credential_helper socket sandbox in
      let* contents := lift_result (contents_of settings) in
      reconcile s p contents mode
  end.

(** [impl Provider for Codex]. *)
Definition provider (managed_config_path : path) : Provider :=
  {| provider_id := ID;
     provider_plan := fun ctx config s =>
       run_planning
         (plan s managed_config_path (credential_helper ctx) (socket ctx) (dm_sandbox config)
            (user_mode ctx)
            (configured_with cx_use_llm_gateway config (codex (dm_programs config)))) |}.
End with_ops.
End Codex.

(** ** OpenCode *)

Module OpenCode.
Definition ID : string := "opencode".
Definition DISPLAY_NAME : string := "OpenCode".
Definition MANAGED_HEADER : string :=
  "// Managed by Agentdesktop. Manual changes will be replaced." +:+ line_feed.
Definition provider_name : string := "agentdesktop".

Section with_ops.
Context {U : UrlOps} {P : Printers} {C : JsonCodec}.
(** [std::env::current_dir()]. *)
Variable current_dir : result path io_kind.

Definition append_plugin (settings : value) (plugin_url : string) : value :=
  match settings with
  | Object m =>
      let plugins := default [] ((m !! "plugin") ≫= as_array) in
      let plugins :=
        if any (fun v => bool_decide (Json.as_str v = Some plugin_url)) plugins then plugins
        else (plugins ++ [VString plugin_url])%list in
      Object (<["plugin" := Array plugins]> m)
  | _ => settings
  end.

Definition npm_package (api : option OpenCodeApi) : string :=
  match default OpenaiResponses api with
  | OpenaiResponses => "@ai-sdk/openai"
  | OpenaiCompletions => "@ai-sdk/openai-compatible"
  end.

Definition managed_config (config : OpenCodeConfig) (gateway : option LlmGatewayConfig)
    (plugin_url : option string) : result value string :=
  let settings := Object (oc_managed_config config) in
  match gateway with
  | None => Ok settings
  | Some gateway =>
      let? model := ok_or (oc_model config) "OpenCode gateway configuration has no model" in
      let provider := Object (list_to_map
        [("npm", VString (npm_package (oc_api config)));
         ("name", VString "Agentdesktop");
         ("options", Object {[ "baseURL" := VString (responses_base_url gateway);
                               "apiKey" := VString "agentdesktop-managed" ]});
         ("models", Object (oc_models config))]) in
      let generated := Object (list_to_map
        [("$schema", VString "https://opencode.ai/config.json");
         ("enabled_providers", vstrings [provider_name]);
         ("model", VString (provider_name +:+ "/" +:+ model));
         ("provider", Object {[ provider_name := provider ]})]) in
      let settings := deep_merge settings generated in
      Ok (match plugin_url with
          | Some plugin_url => append_plugin settings plugin_url
          | None => settings
          end)
  end.

(** The credential plugin's source. *)
Definition credential_plugin (credential_helper socket : path) : string :=
  let command := [display credential_helper; "--socket"; display socket; "credential";
                  "--client-id"; ID] in
  MANAGED_HEADER +:+ "const provider = " +:+ json_to_string (VString provider_name) +:+ ";
const command = " +:+ json_to_string (vstrings command) +:+ ";
let cachedToken = " +:+ quoted "" +:+ ";
let refreshAfter = 0;

async function credential() {
  if (cachedToken && Date.now() < refreshAfter) return cachedToken;
  const child = Bun.spawn(command, { stdout: " +:+ quoted "pipe" +:+ ", stderr: " +:+ quoted "pipe" +:+ " });
  const [stdout, stderr, exitCode] = await Promise.all([
    new Response(child.stdout).text(),
    new Response(child.stderr).text(),
    child.exited,
  ]);
  if (exitCode !== 0) {
    throw new Error(`Agentdesktop credential helper failed: ${stderr.trim() || `exit ${exitCode}`}`);
  }
  const token = stdout.trim();
  if (!token) throw new Error(" +:+ quoted "Agentdesktop credential helper returned an empty token" +:+ ");
  cachedToken = token;
  refreshAfter = Date.now() + 60_000;
  return token;
}

export const Agentdesktop = async () => ({
  " +:+ quoted "chat.headers" +:+ ": async (input, output) => {
    if (input.model.providerID !== provider) return;
    output.headers.Authorization = `Bearer ${await credential()}`;
  },
});
".

Definition file_url (p : path) : result string string :=
  let? absolute :=
    if path_is_relative p
    then map_err (fun e => context "locate current directory for OpenCode plugin path"
                             (io_kind_message e))
           (match current_dir with Ok d => Ok (path_join d p) | Err e => Err e end)
    else Ok p in
  ok_or (url_from_file_path absolute)
    ("convert OpenCode plugin path " +:+ display absolute +:+ " to file URL").

Definition reconcile (s : fs) (p : path) (contents description : string) : planning unit :=
  reconcile_file MANAGED_HEADER DISPLAY_NAME description description
    (show_diff DISPLAY_NAME description) s p contents MANAGED_FILE_MODE.
Definition remove (s : fs) (p : path) (description : string) : planning unit :=
  remove_owned MANAGED_HEADER DISPLAY_NAME description description s p
    (fun _ => record s DISPLAY_NAME description "remove" p).

Definition plan (s : fs) (config_path plugin_path credential_helper socket : path)
    (config : option (OpenCodeConfig * option LlmGatewayConfig)) : planning unit :=
  match config with
  | None =>
      remove s config_path "managed configuration" ;*
      remove s plugin_path "credential plugin"
  | Some (config, gateway) =>
      let* plugin_url :=
        (if is_some_and gateway_uses_helper gateway
         then reconcile s plugin_path (credential_plugin credential_helper socket)
                "credential plugin" ;*
              (let* url := lift_result (file_url plugin_path) in st_ret (Some url))
         else remove s plugin_path "credential plugin" ;* st_ret None) in
      let* settings := lift_result (managed_config config gateway plugin_url) in
      reconcile s config_path (MANAGED_HEADER +:+ to_vec_pretty settings +:+ line_feed)
        "managed configuration"
  end.

(** [impl Provider for OpenCode]. *)
Definition provider (managed_config_path plugin_path : path) : Provider :=
  {| provider_id := ID;
     provider_plan := fun ctx config s =>
       run_planning
         (plan s managed_config_path plugin_path (credential_helper ctx) (socket ctx)
            (configured_with oc_use_llm_gateway config (open_code (dm_programs config)))) |}.
End with_ops.
End OpenCode.

(** ** Only files under the header change *)

(** A change of a file that is absent or starts with the header, to contents that
    start with it. *)
Definition owned_change (header : string) (s : fs) (c : FileChange) : Prop :=
  match read_optional s (fc_path c) with
  | Ok None => True
  | Ok (Some found) => starts_with header found = true
  | Err _ => False
  end /\
  match fc_contents c with Some new => starts_with header new = true | None => True end.

Section laws.
Variables (header name description what : string) (s : fs).

Lemma plans_read_managed ok w p :
  plans s ok (read_managed s w p) (fun o => read_optional s p = Ok o).
Proof.
  unfold read_managed. plans_step. destruct a as [c|e]; [by apply plans_ret|].
  destruct e; solve_plans.
Qed.

Section plans.
Variable show : string -> path -> option string -> option string -> ReconcilePlan -> ReconcilePlan.
Variable ok : FileChange -> Prop.
Hypothesis show_grows : forall action p before after pl,
  faithful s pl -> grows s (on_files ok) pl (show action p before after pl).

Lemma reconcile_file_plans p contents mode :
  (forall c, fc_path c = p -> owned_change header s c -> ok c) ->
  starts_with header contents = true ->
  scoped s (on_files ok) (reconcile_file header name description what show s p contents mode).
Proof.
  intros Hok Hc. unfold reconcile_file. eapply plans_bind; [apply plans_read_managed|].
  intros o Ho. assert (match o with Some f => starts_with header f = true | None => True end ->
    ok {| fc_path := p; fc_contents := Some contents; fc_permissions := mode |}) as Hwrite.
  { intros Hfound. apply Hok; [done|]. unfold owned_change. simpl. by rewrite Ho. }
  destruct o as [found|]; repeat plans_step; auto with planning.
Qed.

Lemma remove_owned_plans p shown :
  (forall c, fc_path c = p -> owned_change header s c -> ok c) ->
  (forall c pl, faithful s pl -> grows s (on_files ok) pl (shown c pl)) ->
  scoped s (on_files ok) (remove_owned header name description what s p shown).
Proof.
  intros Hok Hs. unfold remove_owned. eapply plans_bind; [apply plans_read_managed|].
  intros o Ho. destruct o as [found|]; repeat plans_step; eauto with planning.
  apply plans_remove_file, Hok; [done|]. unfold owned_change. simpl. by rewrite Ho.
Qed.
End plans.

(** ** What a managed file's plan is *)

Definition header_action (p : path) (contents : string) (mode : Z) (o : option string) : string :=
  match o with
  | Some found =>
      if bool_decide (found = contents) && negb (grants_beyond s p mode) then "unchanged"
      else if starts_with header found then "update" else "conflict"
  | None => "create"
  end.
Definition writes (action : string) (c : FileChange) : list FileChange :=
  if bool_decide (action = "create" \/ action = "update") then [c] else [].

Lemma read_managed_planned w p o :
  read_optional s p = Ok o ->
  exists pl, read_managed s w p default_plan = (Ok o, pl) /\ planned s [] [] default_plan pl /\
    observed pl !! p = Some o /\ faithful s pl.
Proof.
  intros Ho. destruct (read_planned s p default_plan o (faithful_default s) Ho) as (pl & Hr & Hp & Hob).
  exists pl. split; [|by pose proof (planned_faithful _ _ _ _ _ Hp (faithful_default s))].
  unfold read_managed, st_bind, attempt. rewrite Hr. by destruct o.
Qed.

Lemma reconcile_file_planned show p contents mode o :
  (forall action p b a pl, planned s [] [action] pl (show action p b a pl)) ->
  read_optional s p = Ok o ->
  let action := header_action p contents mode o in
  exists pl, reconcile_file header name description what show s p contents mode default_plan
             = (Ok tt, pl) /\
    planned s (writes action (write_op p contents mode)) [action] default_plan pl.
Proof.
  intros Hshow Ho action. destruct (read_managed_planned ("read " +:+ what) p o Ho)
    as (pl1 & Hr & H1 & Hob & Hf).
  assert (forall act before after, act = "create" \/ act = "update" ->
    exists pl, (write_file s p contents mode ;* modify (show act p before after)) pl1 = (Ok tt, pl) /\
      planned s (writes act (write_op p contents mode)) [act] default_plan pl) as Hwrite.
  { intros act before after Hact.
    destruct (write_file_planned s p contents mode pl1 o Hf Ho) as (pl2 & Hw & H2 & _).
    eexists. unfold st_bind at 1. rewrite Hw. split; [done|]. unfold writes.
    rewrite bool_decide_true by done.
    apply (planned_trans s [] [] [_] [act] _ pl1); [done|].
    apply (planned_trans s [_] [] [] [act] _ pl2); [done|apply Hshow]. }
  unfold reconcile_file, st_bind at 1. rewrite Hr. unfold action, header_action.
  destruct o as [found|]; [|by apply Hwrite; left].
  destruct (_ && _); [|destruct (starts_with header found); [by apply Hwrite; right|]].
  1,2: eexists; split; [done|]; apply (planned_trans s [] [] [] _ _ pl1); [done|].
  - by apply record_planned with (o := Some found).
  - apply Hshow.
Qed.

Lemma remove_owned_planned p shown found :
  (forall c pl, faithful s pl -> planned s [] ["remove"] pl (shown c pl)) ->
  read_optional s p = Ok (Some found) -> starts_with header found = true ->
  exists pl, remove_owned header name description what s p shown default_plan = (Ok tt, pl) /\
    planned s [remove_op p] ["remove"] default_plan pl.
Proof.
  intros Hshow Ho Hh. destruct (read_managed_planned ("read " +:+ what) p _ Ho)
    as (pl1 & Hr & H1 & _ & Hf).
  destruct (remove_file_planned s p pl1 found Hf Ho) as (pl2 & Hrm & H2 & _).
  unfold remove_owned, st_bind at 1. rewrite Hr, Hh. eexists. split.
  { unfold st_bind, st_map_err. by rewrite Hrm. }
  apply (planned_trans s [] [] [_] ["remove"] _ pl1); [done|].
  apply (planned_trans s [_] [] [] ["remove"] _ pl2); [done|].
  apply Hshow. by apply (planned_faithful _ _ _ _ _ H2).
Qed.
End laws.

(** ** Applying a managed file's plan, and planning again *)

Lemma starts_with_header header t : starts_with header (header +:+ t) = true.
Proof. apply starts_with_spec. by exists t. Qed.
Lemma starts_with_end_line header t : starts_with header (end_line (header +:+ t)) = true.
Proof.
  unfold end_line. destruct (ends_with _ _); [apply starts_with_header|].
  rewrite append_assoc. apply starts_with_header.
Qed.

Lemma planned_conflict_stops s ops acts pl rng st s' :
  planned s ops acts default_plan pl -> "conflict" ∈ acts ->
  apply_tracked rng pl st = (Ok tt, s') -> False.
Proof.
  intros [_ _ _ Ha _] Hc. simpl in Ha. rewrite <- Ha in Hc.
  apply list_elem_of_fmap in Hc as (c & Hact & Hin).
  unfold apply_tracked. destruct (find is_conflict _) eqn:E; [done|].
  rewrite find_none in E. specialize (E c Hin). unfold is_conflict in E. by rewrite <- Hact in E.
Qed.

(** Applying a plan that has the one operation [c], or none. *)
Lemma planned_apply s (ops : list FileChange) acts pl rng s' :
  planned s ops acts default_plan pl -> NoDup (map fc_path ops) ->
  apply_tracked rng pl s = (Ok tt, s') ->
  (forall c, c ∈ ops -> change_done s' c) /\ frame (map fc_path ops) s s'.
Proof.
  intros [_ Ho _ _ _] Hnd H. simpl in Ho. rewrite <- Ho in Hnd |- *.
  by eapply apply_tracked_Ok.
Qed.

Lemma frame_grants_beyond s s' p mode c m :
  frame [] s s' -> file_at s p = Some (c, m) -> grants_beyond s' p mode = grants_beyond s p mode.
Proof.
  intros [[_ He] Hf] Hp. assert (file_at s' p = Some (c, m)) as Hp' by (rewrite Hf by set_solver; done).
  by rewrite (grants_beyond_file _ _ _ _ _ Hp), (grants_beyond_file _ _ _ _ _ Hp'), He.
Qed.

Lemma read_optional_frame s s' p o c m :
  same_env s s' -> read_optional s p = Ok o -> file_at s' p = Some (c, m) ->
  read_optional s' p = Ok (Some c).
Proof.
  intros [_ He] Ho Hf. eapply read_optional_file; [|done]. rewrite He. by eapply read_optional_fault.
Qed.

(** Removing a headed file removes it and changes nothing else. *)
Lemma remove_owned_settles header name description what s p shown contents :
  (forall c pl, faithful s pl -> planned s [] ["remove"] pl (shown c pl)) ->
  read_optional s p = Ok (Some contents) -> starts_with header contents = true ->
  exists pl, run_planning (remove_owned header name description what s p shown) = Ok pl /\
    forall rng s', apply_tracked rng pl s = (Ok tt, s') -> frame [p] s s' /\ file_at s' p = None.
Proof.
  intros Hs Ho Hh. destruct (remove_owned_planned header name description what s p shown contents Hs Ho Hh)
    as (pl & Hr & Hpl).
  exists pl. unfold run_planning. rewrite Hr. split; [done|]. intros rng s' Happ.
  assert (NoDup (map fc_path [remove_op p])) as Hnd by apply NoDup_singleton.
  destruct (planned_apply _ _ _ _ _ _ Hpl Hnd Happ) as [Hd Hf]. split; [done|].
  apply (Hd (remove_op p)). set_solver.
Qed.
Section lifecycle.
Variables (header name description what : string).
Variable show : string -> path -> option string -> option string -> ReconcilePlan -> ReconcilePlan.
Hypothesis show_planned : forall s action p b a pl, planned s [] [action] pl (show action p b a pl).

(** A successful apply leaves the file with the planned contents, granting no more
    than planned, and no other file changed. *)
Lemma reconcile_file_settles s p contents mode pl rng s' :
  run_planning (reconcile_file header name description what show s p contents mode) = Ok pl ->
  apply_tracked rng pl s = (Ok tt, s') ->
  frame [p] s s' /\ (exists m, file_at s' p = Some (contents, m)) /\
  read_optional s' p = Ok (Some contents) /\ grants_beyond s' p mode = false.
Proof.
  intros Hp Happ. unfold run_planning in Hp.
  destruct (read_optional s p) as [o|e] eqn:Ho.
  2: { unfold reconcile_file, read_managed, st_bind, attempt, read in Hp. simpl in Hp.
       rewrite lookup_empty, Ho in Hp. destruct e; try done. by apply read_optional_not_NotFound in Ho. }
  destruct (reconcile_file_planned header name description what s show p contents mode o
    (show_planned s) Ho) as (pl1 & Hr & Hpl). rewrite Hr in Hp. simplify_eq.
  set (action := header_action header s p contents mode o) in Hpl.
  assert (action <> "conflict") as Hnc.
  { intros Hc. eapply planned_conflict_stops; [exact Hpl| |exact Happ]. rewrite Hc. set_solver. }
  assert (NoDup (map fc_path (writes action (write_op p contents mode)))) as Hnd
    by (unfold writes; case_bool_decide; simpl; [apply NoDup_singleton|apply NoDup_nil_2]).
  destruct (planned_apply _ _ _ _ _ _ Hpl Hnd Happ) as [Hd Hf]. unfold writes in Hd, Hf.
  case_bool_decide as Hact.
  - destruct (Hd (write_op p contents mode)) as (m & Hm & Hw); [set_solver|]. simpl in Hm, Hw.
    split; [done|]. split; [by exists m|]. split; [|by eapply grants_beyond_within].
    by eapply read_optional_frame; [apply Hf|exact Ho|].
  - unfold action, header_action in Hnc, Hact. destruct o as [found|]; [|naive_solver].
    destruct (bool_decide (found = contents)) eqn:Eb; simpl in *;
      [|destruct (starts_with header found); naive_solver].
    apply bool_decide_eq_true in Eb as ->.
    destruct (grants_beyond s p mode) eqn:Eg; simpl in *;
      [destruct (starts_with header contents); naive_solver|].
    destruct (read_optional_Some _ _ _ Ho) as (m & Hm).
    assert (file_at s' p = Some (contents, m)) as Hm' by (destruct Hf as [_ ->]; [done|set_solver]).
    split; [eapply frame_mono; [|exact Hf]; set_solver|]. split; [by exists m|].
    split; [by eapply read_optional_frame; [apply Hf|exact Ho|]|].
    by rewrite (frame_grants_beyond s s' p mode _ _ Hf Hm).
Qed.

(** Planning the same file again then changes nothing. *)
Lemma reconcile_file_again s p contents mode :
  read_optional s p = Ok (Some contents) -> grants_beyond s p mode = false ->
  exists pl, run_planning (reconcile_file header name description what show s p contents mode) = Ok pl /\
    planned s [] ["unchanged"] default_plan pl.
Proof.
  intros Ho Hg. destruct (reconcile_file_planned header name description what s show p contents mode _
    (show_planned s) Ho) as (pl & Hr & Hpl).
  unfold header_action in Hpl. rewrite bool_decide_true, Hg in Hpl by done. simpl in Hpl.
  exists pl. unfold run_planning. by rewrite Hr.
Qed.

End lifecycle.

(** ** The three programs *)

Section programs.
Context {U : UrlOps} {P : Printers} {C : JsonCodec}.
Variable current_dir : result path io_kind.

Lemma grok_contents settings contents :
  Grok.contents_of settings = Ok contents -> starts_with Grok.MANAGED_HEADER contents = true.
Proof.
  unfold Grok.contents_of. destruct (map_err _ _) as [text|]; [|done]. intros [= <-].
  apply starts_with_end_line.
Qed.
Lemma codex_contents settings contents :
  Codex.contents_of settings = Ok contents -> starts_with Codex.MANAGED_HEADER contents = true.
Proof.
  unfold Codex.contents_of. destruct (map_err _ _) as [text|]; [|done]. intros [= <-].
  apply starts_with_end_line.
Qed.
Lemma record_configuration_planned s action p b a pl :
  planned s [] [action] pl (Codex.record_configuration action p b a pl).
Proof. unfold Codex.record_configuration. destruct (_ || _); apply record_diff_planned. Qed.
Lemma record_configuration_grows s ok action p b a pl :
  faithful s pl -> grows s (on_files ok) pl (Codex.record_configuration action p b a pl).
Proof. intros Hf. unfold Codex.record_configuration. destruct (_ || _); by apply grows_record_diff. Qed.
Lemma show_diff_grows s ok name description action p b a pl :
  faithful s pl -> grows s (on_files ok) pl (show_diff name description action p b a pl).
Proof. intros Hf. by apply grows_record_diff. Qed.

(** A change of one of [files] that only touches what the header owns. *)
Definition headed (header : string) (files : list path) (s : fs) (c : FileChange) : Prop :=
  fc_path c ∈ files /\ owned_change header s c.

Hint Resolve show_diff_grows record_configuration_grows grows_record : planning.

Lemma grok_changes s p helper sock config :
  scoped s (on_files (headed Grok.MANAGED_HEADER [p] s)) (Grok.plan s p helper sock config).
Proof.
  assert (forall c, fc_path c = p -> owned_change Grok.MANAGED_HEADER s c ->
            headed Grok.MANAGED_HEADER [p] s c) by (intros c <-; split; [set_solver|done]).
  unfold Grok.plan. destruct config as [[config gateway]|].
  - do 2 plans_step. apply reconcile_file_plans; eauto using grok_contents with planning.
  - apply remove_owned_plans; eauto with planning.
Qed.
Lemma codex_changes s p helper sock sandbox user config :
  scoped s (on_files (headed Codex.MANAGED_HEADER [p] s)) (Codex.plan s p helper sock sandbox user config).
Proof.
  assert (forall c, fc_path c = p -> owned_change Codex.MANAGED_HEADER s c ->
            headed Codex.MANAGED_HEADER [p] s c) by (intros c <-; split; [set_solver|done]).
  unfold Codex.plan. destruct config as [[config gateway]|].
  - plans_step. apply reconcile_file_plans; eauto using codex_contents with planning.
  - apply remove_owned_plans; eauto with planning.
Qed.
Lemma opencode_changes s p q helper sock config :
  scoped s (on_files (headed OpenCode.MANAGED_HEADER [p; q] s))
    (OpenCode.plan current_dir s p q helper sock config).
Proof.
  assert (forall c, fc_path c = p \/ fc_path c = q -> owned_change OpenCode.MANAGED_HEADER s c ->
            headed OpenCode.MANAGED_HEADER [p; q] s c) as Hok
    by (intros c Hc ?; split; [destruct Hc as [-> | ->]; set_solver|done]).
  assert (forall r description, r = p \/ r = q ->
    scoped s (on_files (headed OpenCode.MANAGED_HEADER [p; q] s)) (OpenCode.remove s r description)) as Hremove.
  { intros r description Hr. apply remove_owned_plans; [|eauto with planning].
    intros c Hc. apply Hok. by rewrite Hc. }
  assert (forall r text description, r = p \/ r = q ->
    scoped s (on_files (headed OpenCode.MANAGED_HEADER [p; q] s))
      (OpenCode.reconcile s r (OpenCode.MANAGED_HEADER +:+ text) description)) as Hwrite.
  { intros r text description Hr. apply reconcile_file_plans; [eauto with planning| |].
    - intros c Hc. apply Hok. by rewrite Hc.
    - apply starts_with_header. }
  unfold OpenCode.plan. destruct config as [[config gateway]|]; repeat plans_step; eauto with planning.
Qed.

(** Only files the daemon wrote are changed: every operation of a Grok Build,
    Codex or OpenCode plan is on that program's own path, on a file that is absent
    or starts with the program's header, and what it writes starts with it again. *)
Theorem only_headed_files_change ctx config s gp cp op plugin pl c :
  c ∈ operations pl ->
  (provider_plan (Grok.provider gp) ctx config s = Ok pl ->
     fc_path c = gp /\ owned_change Grok.MANAGED_HEADER s c) /\
  (provider_plan (Codex.provider cp) ctx config s = Ok pl ->
     fc_path c = cp /\ owned_change Codex.MANAGED_HEADER s c) /\
  (provider_plan (OpenCode.provider current_dir op plugin) ctx config s = Ok pl ->
     fc_path c ∈ [op; plugin] /\ owned_change OpenCode.MANAGED_HEADER s c).
Proof.
  intros Hc. split; [|split]; simpl.
  - destruct (skip_unless _ _ _ _) as [pl'|] eqn:E; intros Hp; simplify_eq.
    + eapply (skip_unless_grows _ _ _ _ _ s (on_files (fun _ => False))) in E.
      by apply (planned_change _ _ _ _ E) in Hc.
    + eapply run_planning_grows in Hp; [|apply grok_changes].
      apply (planned_change _ _ _ _ Hp) in Hc as [Hc ?]. by apply list_elem_of_singleton in Hc.
  - intros Hp. eapply run_planning_grows in Hp; [|apply codex_changes].
    apply (planned_change _ _ _ _ Hp) in Hc as [Hc ?]. by apply list_elem_of_singleton in Hc.
  - intros Hp. eapply run_planning_grows in Hp; [|apply opencode_changes].
    by apply (planned_change _ _ _ _ Hp) in Hc.
Qed.
End programs.

(** ** What the providers promise the reconciler *)

Lemma headed_in_files header files s e :
  on_files (headed header files s) e -> on_files (in_files files) e.
Proof. destruct e; [|done]. by intros [? _]. Qed.

#[global] Instance grok_scope `{UrlOps, Printers} p : ProviderScope (Grok.provider p).
Proof.
  refine {| provider_files := [p] |}. intros ctx config s pl. simpl.
  destruct (skip_unless _ _ _ _) as [pl'|] eqn:E; intros Hp; simplify_eq.
  - by eapply skip_unless_grows.
  - eapply run_planning_grows in Hp; [|apply grok_changes].
    eapply grows_mono; [exact Hp|apply headed_in_files].
Defined.
#[global] Instance codex_scope `{UrlOps, Printers} p : ProviderScope (Codex.provider p).
Proof.
  refine {| provider_files := [p] |}. intros ctx config s pl Hp.
  eapply run_planning_grows in Hp; [|apply codex_changes].
  eapply grows_mono; [exact Hp|apply headed_in_files].
Defined.
#[global] Instance opencode_scope `{UrlOps, Printers, JsonCodec} current_dir p q :
  ProviderScope (OpenCode.provider current_dir p q).
Proof.
  refine {| provider_files := [p; q] |}. intros ctx config s pl Hp.
  eapply run_planning_grows in Hp; [|apply opencode_changes].
  eapply grows_mono; [exact Hp|apply headed_in_files].
Defined.

Lemma codex_plan_reconcile `{UrlOps, Printers} s p helper sock sandbox user config gateway :
  run_planning (Codex.plan s p helper sock sandbox user (Some (config, gateway)))
  = match Codex.contents_of (Codex.managed_config config gateway helper sock sandbox) with
    | Ok contents => run_planning (Codex.reconcile s p contents (Codex.file_mode config user))
    | Err e => Err e
    end.
Proof.
  unfold Codex.plan, run_planning, st_bind, lift_result. cbn zeta.
  by destruct (Codex.contents_of _).
Qed.

(** A managed Codex configuration settles and goes again: after a successful
    apply the file holds the generated configuration, nothing beyond its mode is
    granted and no other file changed; planning the same configuration again plans
    no operation; and once the program is no longer configured, a successful apply
    of the plan removes the file and changes nothing else. *)
Theorem codex_lifecycle `{UrlOps, Printers} s p helper sock sandbox user config gateway pl rng s' :
  let plan_now st c := run_planning (Codex.plan st p helper sock sandbox user c) in
  let configured := Some (config, gateway) in
  plan_now s configured = Ok pl ->
  apply_tracked rng pl s = (Ok tt, s') ->
  (exists contents m,
     Codex.contents_of (Codex.managed_config config gateway helper sock sandbox) = Ok contents /\
     file_at s' p = Some (contents, m) /\
     grants_beyond s' p (Codex.file_mode config user) = false /\ frame [p] s s') /\
  (exists again, plan_now s' configured = Ok again /\
     operations again = [] /\ has_conflicts again = false) /\
  (exists gone, plan_now s' None = Ok gone /\
     forall rng' s'', apply_tracked rng' gone s' = (Ok tt, s'') ->
       file_at s'' p = None /\ frame [p] s' s'').
Proof.
  intros plan_now configured. unfold plan_now, configured.
  setoid_rewrite codex_plan_reconcile.
  destruct (Codex.contents_of _) as [contents|e] eqn:Ec; [|done]. intros Hp Happ.
  destruct (reconcile_file_settles _ _ _ _ _ (record_configuration_planned) _ _ _ _ _ _ _ Hp Happ)
    as (Hf & (m & Hm) & Ho & Hg).
  split; [by exists contents, m|]. split.
  - destruct (reconcile_file_again Codex.MANAGED_HEADER Codex.DISPLAY_NAME "configuration"
      "Codex managed configuration" _ record_configuration_planned s' p contents _ Ho Hg)
      as (again & Ha & Hpl).
    exists again. split; [exact Ha|]. split; [apply (planned_operations _ _ _ _ _ Hpl)|].
    pose proof (planned_actions _ _ _ _ _ Hpl) as Hact. simpl in Hact.
    unfold has_conflicts. apply any_false. intros c Hc. unfold is_conflict.
    assert (dc_action c ∈ ["unchanged"]) as ->%list_elem_of_singleton; [|done].
    rewrite <- Hact. by apply list_elem_of_fmap_2.
  - destruct (remove_owned_settles Codex.MANAGED_HEADER Codex.DISPLAY_NAME "configuration"
      "Codex managed configuration" s' p
      (fun contents => Codex.record_configuration "remove" p (Some contents) None) contents)
      as (gone & Hgone & Hrest); [|done|by eapply codex_contents|].
    { intros. apply record_configuration_planned. }
    exists gone. split; [exact Hgone|]. intros rng' s'' H'. by apply and_comm, (Hrest rng').
Qed.

(** ** Credentials *)

(** An object under a path of the merged settings. *)
Lemma merged_object_at base overlay ks m :
  at_path ks (Some overlay) = Some (Object m) ->
  exists m', at_path ks (Some (deep_merge base overlay)) = Some (Object m') /\
    forall k v, m !! k = Some v -> is_object v = false -> m' !! k = Some v.
Proof.
  intros H. rewrite (at_path_deep_merge ks base overlay _ H).
  generalize (default Null (at_path ks (Some base))) as base'. intros base'. destruct (is_object base') eqn:Eb.
  - destruct base' as [| | | | |b]; try done. rewrite deep_merge_objects. eexists. split; [done|].
    intros k v Hk Hv. by rewrite lookup_deep_merged, Hk, deep_merge_not_object by auto.
  - rewrite deep_merge_not_object by auto. by exists m.
Qed.

Lemma model_table_lookup `{UrlOps} gateway catalog id :
  id ∈ map fst catalog ->
  exists v, Grok.model_table gateway catalog !! id = Some (Object (Grok.model_entry gateway (id, v))).
Proof.
  unfold Grok.model_table. rewrite <- fold_left_rev_right. intros Hin.
  assert (id ∈ map fst (rev catalog)) as Hrev by 
    (by rewrite map_rev; apply list_elem_of_In; rewrite <- in_rev; apply list_elem_of_In).
  clear Hin. induction (rev catalog) as [|[k v] l IH]; simpl in *.
  - by apply not_elem_of_nil in Hrev.
  - destruct (decide (k = id)) as [->|Hne].
    + exists v. by rewrite lookup_insert_eq.
    + rewrite lookup_insert_ne by done. apply IH. set_solver.
Qed.

(** Clearing the static credentials of the catalog's entries. *)
Lemma clear_static_other settings entry k :
  k <> "model" -> get k (Grok.clear_static settings entry) = get k settings.
Proof.
  intros Hk. unfold Grok.clear_static, update_at. destruct settings; try done. simpl.
  by rewrite lookup_alter_ne.
Qed.
Lemma clear_static_model settings entry id m :
  at_path ["model"; id] (Some settings) = Some (Object m) ->
  at_path ["model"; id] (Some (Grok.clear_static settings entry))
  = Some (Object (if bool_decide (fst entry = id) then delete "env_key" (delete "api_key" m) else m)).
Proof.
  destruct settings as [| | | | |top]; try done. simpl.
  destruct (top !! "model") as [[| | | | |models]|] eqn:Em; simpl; try done. intros Hid.
  rewrite lookup_alter_eq, Em. simpl. case_bool_decide as He.
  - rewrite He, lookup_alter_eq, Hid. done.
  - by rewrite lookup_alter_ne.
Qed.
Lemma clear_all_model catalog settings id m :
  at_path ["model"; id] (Some settings) = Some (Object m) ->
  exists m', at_path ["model"; id] (Some (fold_left Grok.clear_static catalog settings))
             = Some (Object m') /\
    (forall k, k ∉ ["api_key"; "env_key"] -> m' !! k = m !! k) /\
    (id ∈ map fst catalog \/ (m !! "api_key" = None /\ m !! "env_key" = None) ->
     m' !! "api_key" = None /\ m' !! "env_key" = None).
Proof.
  revert settings m. induction catalog as [|entry catalog IH]; intros settings m H; simpl.
  { exists m. split; [done|]. split; [done|]. intros [Hin|?]; [|done]. by apply not_elem_of_nil in Hin. }
  destruct (IH _ _ (clear_static_model _ entry _ _ H)) as (m' & Hm' & Hk & Hc).
  exists m'. split; [done|]. split.
  - intros k Hks. rewrite Hk by done. case_bool_decide; [|done].
    by rewrite !lookup_delete_ne by set_solver.
  - intros Hin. apply Hc. case_bool_decide as He; [right|].
    + by rewrite lookup_delete_eq, lookup_delete_ne, lookup_delete_eq.
    + destruct Hin as [[->|?]%elem_of_cons|?]; [done|by left|by right].
Qed.
Lemma clear_all_other catalog settings k :
  k <> "model" -> get k (fold_left Grok.clear_static catalog settings) = get k settings.
Proof.
  intros Hk. revert settings. induction catalog as [|e catalog IH]; intros settings; simpl; [done|].
  by rewrite IH, clear_static_other.
Qed.

(** C1. With a gateway that uses the credential helper, every model of the catalog
    is pointed at the gateway and authenticates with the helper only: its entry names
    the gateway's base URL and the helper as its auth provider and has no [api_key]
    and no [env_key], whatever the pass-through configuration says; the default model
    is the configured one, and the helper's command is the daemon's. *)
Theorem grok_models_use_the_helper `{UrlOps} config gateway helper sock settings id :
  Grok.managed_config config (Some gateway) helper sock = Ok settings ->
  gateway_uses_helper gateway = true ->
  exists model, gk_model config = Some model /\
    at_path ["models"; "default"] (Some settings) = Some (VString model) /\
    at_path ["auth_provider"; Grok.PROVIDER_NAME; "command"] (Some settings)
      = Some (VString (display helper)) /\
    (id ∈ map fst (Grok.catalog_entries config model) ->
     exists entry, at_path ["model"; id] (Some settings) = Some (Object entry) /\
       entry !! "base_url" = Some (VString (responses_base_url gateway)) /\
       entry !! "auth_provider" = Some (VString Grok.PROVIDER_NAME) /\
       entry !! "api_key" = None /\ entry !! "env_key" = None).
Proof.
  unfold Grok.managed_config. destruct (gk_model config) as [model|]; simpl; [|done].
  destruct (negb _); simpl; [|done]. intros [= <-] Hh. exists model. split; [done|]. rewrite Hh.
  set (catalog := Grok.catalog_entries config model). 
  set (generated := Object (Grok.generated_config gateway catalog model helper sock)).
  set (merged := deep_merge _ generated).
  assert (forall k ks v, k <> "model" -> at_path (k :: ks) (Some generated) = Some v ->
    is_object v = false ->
    at_path (k :: ks) (Some (fold_left Grok.clear_static catalog merged)) = Some v) as Hleaf.
  { intros k ks v Hk Hg Hv.
    change (at_path ks (get k (fold_left Grok.clear_static catalog merged)) = Some v).
    rewrite clear_all_other by done.
    exact (deep_merge_leaf (Object (gk_managed_config config)) generated (k :: ks) v Hg Hv). }
  split; [apply (Hleaf "models" ["default"])|split; [apply (Hleaf "auth_provider" [_; _])|]]; try done.
  1,2: unfold generated, Grok.generated_config; rewrite Hh; done.
  intros Hid.
  destruct (model_table_lookup gateway catalog id Hid) as (v & Hv).
  assert (at_path ["model"; id] (Some generated) = Some (Object (Grok.model_entry gateway (id, v))))
    as Hg by (unfold generated, Grok.generated_config; rewrite Hh; exact Hv).
  destruct (merged_object_at (Object (gk_managed_config config)) generated _ _ Hg) as (m & Hm & Hkeys).
  destruct (clear_all_model catalog merged id m Hm) as (m' & Hm' & Hk & Hc).
  exists m'. split; [exact Hm'|]. rewrite !Hk by (clear; set_solver).
  split; [|split; [|by apply Hc; left]]; apply Hkeys; try done;
    unfold Grok.model_entry; rewrite Hh; simplify_map_eq; done.
Qed.

Lemma clear_login_spec m :
  exists m', Codex.clear_login (Object m) = Object m' /\ m' !! "forced_login_method" = None /\
    forall e, at_path ["model_providers"; Codex.provider_name] (Some (Object m')) = Some (Object e) ->
      forall field, field ∈ Codex.static_fields -> e !! field = None.
Proof.
  unfold Codex.clear_login, update_at. eexists. split; [done|].
  split; [by rewrite lookup_alter_ne, lookup_delete_eq|].
  intros e He. simpl in He. rewrite lookup_alter_eq in He.
  destruct (delete _ m !! "model_providers") as [[| | | | |ps]|]; try done.
  simpl in He. rewrite lookup_alter_eq in He. destruct (ps !! _) as [[| | | | |fields]|]; try done.
  injection He as <-. intros field Hf. simpl.
  unfold Codex.static_fields in Hf. repeat (apply elem_of_cons in Hf as [->|Hf]; [by simplify_map_eq|]).
  by apply not_elem_of_nil in Hf.
Qed.

(** A Codex subscription through a gateway signs in with the credential helper
    only: the provider Codex is told to use is the daemon's, its credential is the
    helper's command, OpenAI's own sign-in is off, and no static credential or header
    of the pass-through configuration is left on it, nor a forced login method. *)
Theorem codex_subscription_uses_the_helper `{UrlOps} config gateway helper sock sandbox :
  Codex.uses_subscription config = true -> gateway_uses_helper gateway = true ->
  let settings := Codex.managed_config config (Some gateway) helper sock sandbox in
  get "model_provider" settings = Some (VString Codex.provider_name) /\
  get "forced_login_method" settings = None /\
  exists entry,
    at_path ["model_providers"; Codex.provider_name] (Some settings) = Some (Object entry) /\
    entry !! "base_url" = Some (VString (Codex.codex_responses_base_url gateway true)) /\
    entry !! "auth" = Some (Codex.auth_command gateway true helper sock) /\
    entry !! "requires_openai_auth" = Some (VBool false) /\
    (forall field, field ∈ Codex.static_fields -> field <> "auth" -> entry !! field = None).
Proof.
  intros Hs Hh settings. unfold settings, Codex.managed_config. rewrite Hs.
  set (before := match sandbox with Some _ => _ | None => _ end).
  assert (exists m, before = Object m) as [m ->]
    by (unfold before; destruct sandbox; [unfold Codex.sandbox_settings; rewrite deep_merge_objects|]; by eexists).
  destruct (clear_login_spec m) as (m' & -> & Hforced & Hfields).
  set (entry := Codex.provider_entry config gateway helper sock).
  set (generated := Object (<["model_provider" := _]> _)).
  assert (at_path ["model_providers"; Codex.provider_name] (Some generated) = Some (Object entry)) as Hg
    by done.
  split; [|split].
  - change (at_path ["model_provider"] (Some (deep_merge (Object m') generated))
            = Some (VString Codex.provider_name)).
    rewrite (at_path_deep_merge _ _ _ (VString Codex.provider_name)) by done.
    by rewrite deep_merge_not_object by auto.
  - change (at_path ["forced_login_method"] (Some (deep_merge (Object m') generated)) = None).
    by rewrite deep_merge_outside.
  - rewrite (at_path_deep_merge _ _ _ _ Hg), deep_merge_object. eexists. split; [done|].
    set (base := default ∅ _).
    assert (forall field, field ∈ Codex.static_fields -> base !! field = None) as Hb.
    { unfold base. destruct (at_path _ (Some (Object m'))) as [[| | | | |e]|] eqn:Eb; simpl;
        intros; rewrite ?lookup_empty; try done. by eapply Hfields. }
    rewrite !lookup_deep_merged. unfold entry, Codex.provider_entry. rewrite Hs, Hh. simplify_map_eq.
    rewrite (Hb "auth") by (clear; set_solver). rewrite !deep_merge_not_object by auto.
    repeat (split; [done|]). intros field Hf Hne. rewrite lookup_deep_merged.
    replace (_ !! field) with (@None value); [by apply Hb|]. symmetry. clear -Hf Hne.
    unfold Codex.static_fields in Hf.
    repeat (apply elem_of_cons in Hf as [->|Hf]; [by simplify_map_eq|]).
    by apply not_elem_of_nil in Hf.
Qed.

(** ** The sandbox *)

Lemma insert_all_lookup (v : value) (l : list string) (m : gmap string value) k :
  fold_left (fun m key => <[key := v]> m) l m !! k = if bool_decide (k ∈ l) then Some v else m !! k.
Proof.
  revert m. induction l as [|d l IH]; intros m; simpl; [done|].
  rewrite IH. destruct (decide (k ∈ l)) as [Hin|Hout].
  - rewrite !bool_decide_true; [done| |done]. by apply list_elem_of_further.
  - rewrite (bool_decide_false _ Hout). destruct (decide (k = d)) as [->|Hne].
    + rewrite lookup_insert_eq, bool_decide_true; [done|]. apply list_elem_of_here.
    + rewrite lookup_insert_ne by done. rewrite bool_decide_false; [done|].
      by intros [?|?]%elem_of_cons.
Qed.
Lemma grant_lookup access m paths k :
  Codex.grant access m paths !! k =
  if bool_decide (k ∈ map display paths) then Some (VString access) else m !! k.
Proof.
  rewrite <- insert_all_lookup. unfold Codex.grant. f_equal. revert m.
  induction paths as [|p paths IH]; intros m; simpl; [done|]. apply IH.
Qed.

Lemma allowed_domains_lookup sandbox d :
  Codex.allowed_domains sandbox !! d =
  if bool_decide (d ∈ sn_allowed_domains (sb_network sandbox)) then Some (VString "allow") else None.
Proof.
  unfold Codex.allowed_domains. rewrite insert_all_lookup.
  by rewrite (bool_decide_ext _ _ (elem_of_set_iter _ _)).
Qed.
Lemma allowed_domains_empty sandbox :
  bool_decide (Codex.allowed_domains sandbox = ∅)
  = bool_decide (sn_allowed_domains (sb_network sandbox) = ∅).
Proof.
  apply bool_decide_ext. split; intros E.
  - apply set_eq. intros d. split; [|by intros ?%not_elem_of_empty]. intros Hd.
    pose proof (allowed_domains_lookup sandbox d) as Hl.
    by rewrite E, lookup_empty, bool_decide_true in Hl.
  - apply map_eq. intros k. rewrite allowed_domains_lookup, E.
    by rewrite bool_decide_false by apply not_elem_of_empty.
Qed.

Lemma clear_login_get k m :
  k ∉ ["forced_login_method"; "model_providers"] ->
  get k (Codex.clear_login (Object m)) = get k (Object m).
Proof.
  intros Hk. unfold Codex.clear_login, update_at. simpl.
  by rewrite lookup_alter_ne, lookup_delete_ne by (clear -Hk; set_solver).
Qed.

(** The gateway's part leaves the other settings of the configuration alone. *)
Lemma codex_gateway_leaves `{UrlOps} config gateway helper sock sandbox k ks :
  k ∉ ["forced_login_method"; "model_providers"; "model_provider"] ->
  at_path (k :: ks) (Some (Codex.managed_config config gateway helper sock (Some sandbox)))
  = at_path (k :: ks)
      (Some (deep_merge (Object (cx_managed_config config)) (Codex.sandbox_settings sandbox))).
Proof.
  intros Hk. unfold Codex.managed_config. destruct gateway as [gateway|]; [|done].
  rewrite deep_merge_outside.
  2: { simpl. by rewrite lookup_insert_ne, lookup_singleton_ne by (clear -Hk; set_solver). }
  destruct (Codex.uses_subscription config); [|done].
  assert (exists m, deep_merge (Object (cx_managed_config config)) (Codex.sandbox_settings sandbox)
                    = Object m) as [m ->]
    by (unfold Codex.sandbox_settings; rewrite deep_merge_objects; by eexists).
  change (at_path ks (get k (Codex.clear_login (Object m))) = at_path ks (get k (Object m))).
  rewrite clear_login_get; [done|]. clear -Hk; set_solver.
Qed.

(** What the sandbox says of a path of the file system: denied paths are denied, even where
    they are also writable, the root can be read, and the projects be written. *)
Definition codex_access (sandbox : SandboxConfig) (entry : string) : option value :=
  if decide (entry ∈ map display (sf_denied (sb_filesystem sandbox))) then Some (VString "deny")
  else if decide (entry ∈ map display (sf_writable (sb_filesystem sandbox))) then Some (VString "write")
  else if decide (entry = ":root") then Some (VString "read")
  else if decide (entry = ":project_roots") then Some (VString "write")
  else None.
Definition codex_domain (sandbox : SandboxConfig) (domain : string) : option value :=
  if decide (domain ∈ sn_allowed_domains (sb_network sandbox)) then Some (VString "allow") else None.

Lemma filesystem_access_lookup sandbox entry :
  Codex.filesystem_access sandbox !! entry = codex_access sandbox entry.
Proof.
  unfold Codex.filesystem_access, codex_access. rewrite grant_lookup. case_bool_decide; case_decide; try done.
  rewrite grant_lookup. case_bool_decide; case_decide; try done. repeat case_decide; by simplify_map_eq.
Qed.
Lemma allowed_domains_domain sandbox d : Codex.allowed_domains sandbox !! d = codex_domain sandbox d.
Proof. rewrite allowed_domains_lookup. unfold codex_domain. by case_bool_decide; case_decide. Qed.

Definition codex_profile (ks : list string) : list string := ["permissions"; "agentdesktop"] ++ ks.
Definition codex_network (ks : list string) : list string := codex_profile ("network" :: ks).

(** The settings hold Codex to the sandbox: its permissions are the default ones; an entry
    of the file system, and a domain, that the sandbox speaks of is as it says; the network
    is limited, on exactly when some domain is allowed, and then through the proxy. All that
    it does not speak of in these permissions is the pass-through settings': if they have
    no such permissions, there are no other entries. *)
Record codex_sandboxed (sandbox : SandboxConfig) (passthrough settings : option value) : Prop := {
  cxs_default : at_path ["default_permissions"] settings = Some (VString "agentdesktop");
  cxs_files entry : at_path (codex_profile ["filesystem"; entry]) settings
    = match codex_access sandbox entry with
      | Some access => Some access
      | None => at_path (codex_profile ["filesystem"; entry]) passthrough
      end;
  cxs_domains d : at_path (codex_network ["domains"; d]) settings
    = match codex_domain sandbox d with
      | Some access => Some access
      | None => at_path (codex_network ["domains"; d]) passthrough
      end;
  cxs_limited : at_path (codex_network ["mode"]) settings = Some (VString "limited");
  cxs_enabled : at_path (codex_network ["enabled"]) settings
    = Some (VBool (negb (bool_decide (sn_allowed_domains (sb_network sandbox) = ∅))));
  cxs_proxy : sn_allowed_domains (sb_network sandbox) <> ∅ ->
    at_path ["features"; "network_proxy"] settings = Some (VBool true);
  cxs_network k : k ∉ ["enabled"; "mode"; "domains"] ->
    at_path (codex_network [k]) settings = at_path (codex_network [k]) passthrough;
  cxs_profile k : k ∉ ["filesystem"; "network"] ->
    at_path (codex_profile [k]) settings = at_path (codex_profile [k]) passthrough;
  cxs_exact : at_path (codex_profile []) passthrough = None ->
    exists files domains,
      at_path (codex_profile []) settings = Some (Object {[ "filesystem" := Object files; "network" := Object
        {[ "enabled" := VBool (negb (bool_decide (sn_allowed_domains (sb_network sandbox) = ∅)));
           "mode" := VString "limited"; "domains" := Object domains ]} ]}) /\
      (forall entry, files !! entry = codex_access sandbox entry) /\
      (forall d, domains !! d = codex_domain sandbox d);
}.

Lemma codex_sandbox_settings_at sandbox ks :
  at_path (codex_profile ks) (Some (Codex.sandbox_settings sandbox))
  = at_path ks (Some (Object {[ "filesystem" := Object (Codex.filesystem_access sandbox); "network" := Object
      {[ "enabled" := VBool (negb (bool_decide (sn_allowed_domains (sb_network sandbox) = ∅)));
         "mode" := VString "limited"; "domains" := Object (Codex.allowed_domains sandbox) ]} ]})).
Proof. unfold Codex.sandbox_settings. rewrite allowed_domains_empty. by destruct (negb _). Qed.
Lemma codex_sandbox_outside sandbox ks :
  outside (codex_profile ks) (Codex.sandbox_settings sandbox)
  = outside ks (Object {[ "filesystem" := Object (Codex.filesystem_access sandbox); "network" := Object
      {[ "enabled" := VBool (negb (bool_decide (sn_allowed_domains (sb_network sandbox) = ∅)));
         "mode" := VString "limited"; "domains" := Object (Codex.allowed_domains sandbox) ]} ]}).
Proof. unfold Codex.sandbox_settings. rewrite allowed_domains_empty. by destruct (negb _). Qed.

Lemma outside_missing k (o : gmap string value) : o !! k = None -> outside [k] (Object o) = true.
Proof. intros H. simpl. by rewrite H. Qed.
Lemma outside_network k (files o : gmap string value) : o !! k = None ->
  outside ["network"; k] (Object {[ "filesystem" := Object files; "network" := Object o ]}) = true.
Proof. intros H. change (outside [k] (Object o) = true). by apply outside_missing. Qed.
Lemma codex_sandbox_in_force `{UrlOps} config gateway helper sock sandbox :
  codex_sandboxed sandbox (Some (Object (cx_managed_config config)))
    (Some (Codex.managed_config config gateway helper sock (Some sandbox))).
Proof.
  set (settings := Some (Codex.managed_config _ _ _ _ _)).
  set (generated := Object {[ "filesystem" := Object (Codex.filesystem_access sandbox); "network" := Object
      {[ "enabled" := VBool (negb (bool_decide (sn_allowed_domains (sb_network sandbox) = ∅)));
         "mode" := VString "limited"; "domains" := Object (Codex.allowed_domains sandbox) ]} ]}).
  assert (forall ks v, at_path ks (Some generated) = Some v -> is_object v = false ->
    at_path (codex_profile ks) settings = Some v) as Hin.
  { intros ks v Hv Ho. unfold settings, codex_profile. simpl app.
    rewrite codex_gateway_leaves by (clear; set_solver). apply deep_merge_leaf; [|done].
    change (at_path (codex_profile ks) (Some (Codex.sandbox_settings sandbox)) = Some v).
    by rewrite codex_sandbox_settings_at. }
  assert (forall ks, outside ks generated = true ->
    at_path (codex_profile ks) settings = at_path (codex_profile ks) (Some (Object (cx_managed_config config)))) as Hout.
  { intros ks Ho. unfold settings, codex_profile. simpl app.
    rewrite codex_gateway_leaves by (clear; set_solver). apply deep_merge_outside.
    change (outside (codex_profile ks) (Codex.sandbox_settings sandbox) = true).
    by rewrite codex_sandbox_outside. }
  assert (forall ks v, is_object v = false \/ at_path ks (Some (Object (cx_managed_config config))) = None ->
    at_path ks (Some (Codex.sandbox_settings sandbox)) = Some v -> head ks ∈ [Some "permissions"; Some "features"; Some "default_permissions"] ->
    at_path ks settings = Some v) as Hset.
  { intros [|k ks] v Ho Hv Hk; [exfalso; clear -Hk; set_solver|]. unfold settings.
    rewrite codex_gateway_leaves by (clear -Hk; set_solver). rewrite (at_path_deep_merge _ _ _ _ Hv).
    f_equal. destruct Ho as [Ho|Ho]; [by rewrite deep_merge_not_object by auto|]. rewrite Ho. by apply deep_merge_not_object; left. }
  split.
  - apply Hset; [by left| |clear; set_solver]. unfold Codex.sandbox_settings.
    by destruct (bool_decide (Codex.allowed_domains _ = ∅)).
  - intros entry. pose proof (filesystem_access_lookup sandbox entry) as Hl.
    destruct (codex_access sandbox entry) as [v|] eqn:E.
    + apply Hin; [exact Hl|]. unfold codex_access in E. by repeat case_decide; simplify_eq.
    + apply Hout. change (outside [entry] (Object (Codex.filesystem_access sandbox)) = true). cbn. by rewrite Hl.
  - intros d. pose proof (allowed_domains_domain sandbox d) as Hl.
    destruct (codex_domain sandbox d) as [v|] eqn:E.
    + apply (Hin ["network"; "domains"; d]); [exact Hl|]. unfold codex_domain in E. by repeat case_decide; simplify_eq.
    + apply (Hout ["network"; "domains"; d]). change (outside [d] (Object (Codex.allowed_domains sandbox)) = true).
      cbn. by rewrite Hl.
  - by apply (Hin ["network"; "mode"]).
  - by apply (Hin ["network"; "enabled"]).
  - intros Hne. apply Hset; [by left| |clear; set_solver]. unfold Codex.sandbox_settings.
    by rewrite allowed_domains_empty, bool_decide_false.
  - intros k Hk. apply (Hout ["network"; k]), outside_network.
    by rewrite !lookup_insert_ne, lookup_singleton_ne by (clear -Hk; set_solver).
  - intros k Hk. apply (Hout [k]), outside_missing.
    by rewrite !lookup_insert_ne, lookup_singleton_ne by (clear -Hk; set_solver).
  - intros Hnone. exists (Codex.filesystem_access sandbox), (Codex.allowed_domains sandbox).
    split; [|split; intros; [apply filesystem_access_lookup|apply allowed_domains_domain]].
    apply Hset; [by right|by rewrite codex_sandbox_settings_at|clear; set_solver].
Qed.

(** ** Concrete runs *)

Definition headed_fs : fs :=
  {| nodes := {[ ["/"; "home"] := Dir 493; home "codex.toml" := File (Codex.MANAGED_HEADER +:+ "old") 420 ]};
     umask := 18; fs_fault := no_fault |}.
Definition demo_codex : CodexConfig :=
  {| cx_use_llm_gateway := true; cx_auth := Some Subscription;
     cx_managed_config := {[ "forced_login_method" := VString "chatgpt" ]} |}.
Definition demo_grok : GrokConfig :=
  {| gk_use_llm_gateway := true; gk_model := Some "grok-4"; gk_models := ∅; gk_managed_config := ∅ |}.
Definition codex_daemon : DaemonConfig :=
  {| dm_daemon := None; dm_controller := None; dm_llm_gateway := Some demo_gateway; dm_sandbox := None;
     dm_telemetry := {| tl_events := [] |};
     dm_programs := {| claude_code := None; claude_desktop := None; codex := Some demo_codex;
                       open_code := None; grok := None; copilot := None; vscode := None; pi := None |};
     dm_program_selection := {| allow_user_choice := false |};
     dm_inventory_interval := default_inventory_interval |}.

Definition headed_plan : ReconcilePlan :=
  ok_value default_plan
    (provider_plan (Codex.provider (home "codex.toml")) demo_context codex_daemon headed_fs).

(** The old file is rewritten: one operation, on the program's file. *)
Lemma only_headed_files_change_witness : exists c,
  operations headed_plan = [c] /\
  provider_plan (Codex.provider (home "codex.toml")) demo_context codex_daemon headed_fs = Ok headed_plan /\
  fc_path c = home "codex.toml" /\ owned_change Codex.MANAGED_HEADER headed_fs c.
Proof.
  destruct (operations headed_plan) as [|c [|c' l]] eqn:E; [vm_compute in E; discriminate| |vm_compute in E; discriminate].
  exists c. split; [done|].
  assert (provider_plan (Codex.provider (home "codex.toml")) demo_context codex_daemon headed_fs
          = Ok headed_plan) as Hp by (apply value_of_ok; vm_compute; reflexivity).
  split; [exact Hp|].
  assert (c ∈ operations headed_plan) as Hc by (rewrite E; apply list_elem_of_here).
  exact (proj1 (proj2 (only_headed_files_change (Err NotFound) demo_context codex_daemon headed_fs
    (home "grok.toml") (home "codex.toml") (home "opencode.json") (home "plugin.ts") headed_plan c Hc)) Hp).
Defined.

Definition codex_plan (s : fs) : result ReconcilePlan string :=
  run_planning (Codex.plan s (home "codex.toml") (home "helper") (home "socket") None true
    (Some (demo_codex, Some demo_gateway))).
Lemma codex_lifecycle_witness :
  let pl := ok_value default_plan (codex_plan headed_fs) in
  let s' := snd (apply_tracked demo_rng pl headed_fs) in
  codex_plan headed_fs = Ok pl /\ apply_tracked demo_rng pl headed_fs = (Ok tt, s') /\
  exists again, codex_plan s' = Ok again /\ operations again = [] /\ has_conflicts again = false.
Proof.
  intros pl s'. assert (codex_plan headed_fs = Ok pl) as Hp by (apply value_of_ok; vm_compute; reflexivity).
  assert (apply_tracked demo_rng pl headed_fs = (Ok tt, s')) as Ha
    by (exact (state_of_ok (apply_tracked demo_rng pl headed_fs) ltac:(vm_compute; reflexivity))).
  split; [exact Hp|]. split; [exact Ha|].
  exact (proj1 (proj2 (codex_lifecycle headed_fs (home "codex.toml") (home "helper") (home "socket")
    None true demo_codex (Some demo_gateway) pl demo_rng s' Hp Ha))).
Defined.

Lemma grok_models_use_the_helper_witness :
  let settings := ok_value Null (Grok.managed_config demo_grok (Some demo_gateway) (home "helper") (home "socket")) in
  Grok.managed_config demo_grok (Some demo_gateway) (home "helper") (home "socket") = Ok settings /\
  gateway_uses_helper demo_gateway = true /\
  exists model, gk_model demo_grok = Some model /\
    at_path ["models"; "default"] (Some settings) = Some (VString model).
Proof.
  intros settings.
  assert (Grok.managed_config demo_grok (Some demo_gateway) (home "helper") (home "socket") = Ok settings) as Hm
    by (apply value_of_ok; vm_compute; reflexivity).
  split; [exact Hm|]. split; [reflexivity|].
  destruct (grok_models_use_the_helper demo_grok demo_gateway (home "helper") (home "socket") settings "grok-4" Hm eq_refl)
    as (model & H1 & H2 & _). exists model. split; [exact H1|exact H2].
Defined.

Lemma codex_subscription_uses_the_helper_witness :
  Codex.uses_subscription demo_codex = true /\ gateway_uses_helper demo_gateway = true /\
  get "forced_login_method"
    (Codex.managed_config demo_codex (Some demo_gateway) (home "helper") (home "socket") None) = None.
Proof.
  split; [reflexivity|]. split; [reflexivity|].
  exact (proj1 (proj2 (codex_subscription_uses_the_helper demo_codex demo_gateway (home "helper")
    (home "socket") None eq_refl eq_refl))).
Defined.
