(* ===== verification/MarkerFiles.v ===== *)
(** * Files recognised by a marker beside them: Claude Code and Claude Desktop

    [crates/agent/src/provider/claude_code] and [claude_desktop], the Unix build. A
    JSON settings file has no room for a header, so an [.owner] file beside it says
    that the daemon wrote it. In user mode Claude Code's settings are merged instead
    ([JsonMerge]). *)

From S2P Require Import Prelude Str Json Fs Plan Config JsonMerge Reconcile Shared Planner.
From S2P Require Import Net Http Routes ManagedFiles.

(** [OWNER_MARKER] and the mode it is written with. *)
Definition OWNER_MARKER : string := "Agentdesktop" +:+ line_feed.
Definition MARKER_MODE : Z := 420.

(** [owner_path]: [fallback] names the file when its own name is not usable. *)
Definition owner_path (fallback : string) (p : path) : path :=
  with_file_name ("." +:+ default fallback (file_name p) +:+ ".owner") p.

(** [is_owned]; [what] starts the message of a read that fails. *)
Definition is_owned (what : string) (s : fs) (marker : path) : planning bool :=
  let* contents := attempt (read s marker) in
  match contents with
  | Ok contents => st_ret (bool_decide (contents = OWNER_MARKER))
  | Err NotFound => st_ret false
  | Err e => st_err (context (what +:+ display marker) (io_kind_message e))
  end.
Definition remove_owner_marker (what : string) (s : fs) (marker : path) : planning unit :=
  let* removed := attempt (remove_file s marker) in
  match removed with
  | Ok _ | Err NotFound => st_ret tt
  | Err e => st_err (context (what +:+ display marker) (io_kind_message e))
  end.

(** ** Claude Code *)

Module ClaudeCode.
Definition ID : string := "claude-code".
Definition DISPLAY_NAME : string := "Claude Code".

Record Hooks : Type := {
  tool_use : option CommandSpec;
  session_new : option CommandSpec;
}.

Definition credential_helper_command (ctx : ReconcileContext) : string :=
  render_command (new_command (credential_helper ctx)
    ["--socket"; display (socket ctx); "credential"; "--client-id"; "claude-code"]).
Definition hook_command (ctx : ReconcileContext) (include_input : bool) : CommandSpec :=
  new_command (credential_helper ctx)
    (["--socket"; display (socket ctx); "hook"; "claude-pre-tool-use"]
     ++ (if include_input then ["--include-input"] else [])).
Definition session_hook_command (ctx : ReconcileContext) : CommandSpec :=
  new_command (credential_helper ctx)
    ["--socket"; display (socket ctx); "hook"; "claude-session-start"].

Definition is_marked := is_owned "read ownership marker from ".
Definition unmark := remove_owner_marker "remove ownership marker at ".

Definition generated_hook (command : CommandSpec) : value :=
  Object (list_to_map
    [("type", VString "command"); ("command", VString (cs_program command));
     ("args", vstrings (cs_args command))]).
(** A group of an event's hooks holds the generated one. *)
Definition holds_hook (hook group : value) : bool :=
  is_some_and (fun hooks => bool_decide (hook ∈ hooks)) (get "hooks" group ≫= as_array).

(** The settings are an object; its hooks, when present, must be one too, and an
    event's hooks an array. *)
Definition append_hook (settings : gmap string value) (event : string) (command : CommandSpec)
  : result (gmap string value) string :=
  let? hooks :=
    match settings !! "hooks" with
    | None => Ok ∅
    | Some (Object hooks) => Ok hooks
    | Some _ => Err "Claude Code hooks must be an object"
    end in
  let? event_hooks :=
    match hooks !! event with
    | None => Ok []
    | Some (Array event_hooks) => Ok event_hooks
    | Some _ => Err ("Claude Code " +:+ event +:+ " hooks must be an array")
    end in
  let hook := generated_hook command in
  let event_hooks :=
    if any (holds_hook hook) event_hooks then event_hooks
    else (event_hooks ++
          [Object {[ "matcher" := VString ""; "hooks" := Array [hook] ]}])%list in
  Ok (<["hooks" := Object (<[event := Array event_hooks]> hooks)]> settings).

Definition append_hook_for (event : string) (command : option CommandSpec)
    (settings : gmap string value) : result (gmap string value) string :=
  match command with Some command => append_hook settings event command | None => Ok settings end.

Definition paths_value (paths : list path) : value := vstrings (map display paths).
Definition sandbox_settings (sandbox : SandboxConfig) : value :=
  Object {[ "sandbox" := Object (list_to_map
    [("enabled", VBool true); ("failIfUnavailable", VBool true);
     ("allowUnsandboxedCommands", VBool false);
     ("filesystem", Object (list_to_map
       [("allowWrite", paths_value (sf_writable (sb_filesystem sandbox)));
        ("denyRead", paths_value (sf_denied (sb_filesystem sandbox)));
        ("denyWrite", paths_value (sf_denied (sb_filesystem sandbox)))]));
     ("network", Object {[
       "allowedDomains" := vstrings (set_iter (sn_allowed_domains (sb_network sandbox))) ]})]) ]}.

Section with_ops.
Context {U : UrlOps} {C : JsonCodec}.

Definition gateway_settings (gateway : LlmGatewayConfig) (credential_helper : string) : value :=
  let env : gmap string value := {[ "ANTHROPIC_BASE_URL" := VString (url_to_string (gw_url gateway)) ]} in
  if gateway_uses_helper gateway
  then Object {[ "env" := Object (<["CLAUDE_CODE_API_KEY_HELPER_TTL_MS" := VString "60000"]> env);
                 "apiKeyHelper" := VString credential_helper ]}
  else Object {[ "env" := Object env ]}.

Definition managed_settings (config : ClaudeCodeConfig) (gateway : option LlmGatewayConfig)
    (credential_helper : string) (hooks : Hooks) (sandbox : option SandboxConfig)
  : result value string :=
  let? settings := append_hook_for "PreToolUse" (tool_use hooks) (clc_settings config) in
  let? settings := append_hook_for "SessionStart" (session_new hooks) settings in
  let settings := Object settings in
  let settings :=
    match sandbox with
    | Some sandbox => deep_merge settings (sandbox_settings sandbox)
    | None => settings
    end in
  Ok (match gateway with
      | Some gateway => deep_merge settings (gateway_settings gateway credential_helper)
      | None => settings
      end).

(** The file of a system daemon: written whole, with the marker beside it. *)
Definition write_settings (s : fs) (p marker : path) (contents : string) : planning unit :=
  let* owned := is_marked s marker in
  let* existing := read_managed s "read Claude Code managed settings" p in
  let write action :=
    write_file s p contents MANAGED_FILE_MODE ;*
    write_file s marker OWNER_MARKER MARKER_MODE ;*
    modify (record_diff DISPLAY_NAME "settings" action p existing (Some contents)) in
  match existing with
  | Some found =>
      if bool_decide (found = contents) && negb (grants_beyond s p MANAGED_FILE_MODE)
      then (if owned then st_ret tt else write_file s marker OWNER_MARKER MARKER_MODE) ;*
           modify (record s DISPLAY_NAME "settings" "unchanged" p)
      else if owned || bool_decide (found = contents) then write "update"
      else modify (record_diff DISPLAY_NAME "settings" "conflict" p (Some found) (Some contents))
  | None => write "create"
  end.

Definition remove (s : fs) (p marker : path) : planning unit :=
  let* owned := is_marked s marker in
  if owned
  then
    let* existing := attempt (read s p) in
    match existing with
    | Ok _ =>
        st_map_err (fun e => context ("remove Claude Code managed settings at " +:+ display p)
                               (io_kind_message e)) (remove_file s p) ;*
        unmark s marker ;*
        modify (record s DISPLAY_NAME "settings" "remove" p)
    | Err NotFound =>
        unmark s marker ;*
        modify (record s DISPLAY_NAME "settings" "unchanged" p)
    | Err e =>
        st_err (context ("inspect Claude Code managed settings at " +:+ display p) (io_kind_message e))
    end
  else modify (record s DISPLAY_NAME "settings" "unchanged" p).

Definition plan (s : fs) (p : path) (merge_existing : bool) (credential_helper : string)
    (hooks : Hooks) (sandbox : option SandboxConfig)
    (config : option (ClaudeCodeConfig * option LlmGatewayConfig)) : planning unit :=
  let marker := owner_path "settings.json" p in
  let merge_state_path := state_path p in
  match config with
  | None =>
      let* removed :=
        (if merge_existing then plan_remove s p merge_state_path "settings" DISPLAY_NAME
         else st_ret false) in
      if removed : bool then unmark s marker else remove s p marker
  | Some (config, gateway) =>
      let* settings := lift_result (managed_settings config gateway credential_helper hooks sandbox) in
      if merge_existing
      then
        let* owned := is_marked s marker in
        plan_merge s p merge_state_path settings owned "settings" DISPLAY_NAME ;*
        unmark s marker
      else write_settings s p marker (json_lines settings)
  end.

(** [impl Provider for ClaudeCode]. *)
Definition hooks_for (ctx : ReconcileContext) (telemetry : TelemetryConfig) : Hooks :=
  {| tool_use := if collects_tool_use telemetry
                 then Some (hook_command ctx (includes_tool_input telemetry)) else None;
     session_new := if collects_session_new telemetry
                    then Some (session_hook_command ctx) else None |}.
Definition provider (settings_path : path) : Provider :=
  {| provider_id := ID;
     provider_plan := fun ctx config s =>
       run_planning
         (plan s settings_path (merge_user_settings ctx) (credential_helper_command ctx)
            (hooks_for ctx (dm_telemetry config)) (dm_sandbox config)
            (configured_with clc_use_llm_gateway config (claude_code (dm_programs config)))) |}.
End with_ops.
End ClaudeCode.

(** ** Claude Desktop *)

Module ClaudeDesktop.
Definition ID : string := "claude-desktop".
Definition DISPLAY_NAME : string := "Claude Desktop".

Definition is_marked := is_owned "read ".
Definition unmark := remove_owner_marker "remove ".

Definition posix_credential_helper_contents (credential_binary socket : string) : string :=
  "#!/bin/sh" +:+ line_feed +:+ "exec " +:+ shell_quote credential_binary +:+ " --socket "
  +:+ shell_quote socket +:+ " credential --client-id claude-desktop" +:+ line_feed.

Definition write_owned (s : fs) (p marker : path) (contents : string) (permissions : Z)
    (description : string) : planning unit :=
  let* owned := is_marked s marker in
  let* existing := attempt (read s p) in
  let* existing :=
    match existing with
    | Ok existing => st_ret (Some existing)
    | Err NotFound => st_ret None
    | Err e => st_err (context ("read " +:+ display p) (io_kind_message e))
    end in
  let record_as action :=
    modify (record_diff DISPLAY_NAME description action p existing (Some contents)) in
  let write action :=
    write_file s p contents permissions ;*
    write_file s marker OWNER_MARKER MARKER_MODE ;*
    record_as action in
  match existing with
  | Some found =>
      if bool_decide (found = contents) && negb (grants_beyond s p permissions)
      then (if owned then st_ret tt else write_file s marker OWNER_MARKER MARKER_MODE) ;*
           record_as "unchanged"
      else if owned || bool_decide (found = contents) then write "update"
      else modify (record_diff DISPLAY_NAME description "conflict" p (Some found) (Some contents))
  | None => write "create"
  end.

Definition remove_owned (s : fs) (p marker : path) (description : string) : planning unit :=
  let* owned := is_marked s marker in
  if owned
  then
    let* existing := attempt (read s p) in
    match existing with
    | Ok _ =>
        st_map_err (fun e => context ("remove " +:+ display p) (io_kind_message e)) (remove_file s p) ;*
        modify (record s DISPLAY_NAME description "remove" p)
    | Err NotFound => modify (record s DISPLAY_NAME description "unchanged" p)
    | Err e => st_err (context ("inspect " +:+ display p) (io_kind_message e))
    end ;*
    unmark s marker
  else modify (record s DISPLAY_NAME description "unchanged" p).

Section with_ops.
Context {U : UrlOps} {C : JsonCodec}.

Definition gateway_settings (gateway : LlmGatewayConfig) (helper_path : path) : value :=
  let generated : gmap string value :=
    {[ "inferenceProvider" := VString "gateway";
       "inferenceGatewayBaseUrl" := VString (url_to_string (gw_url gateway)) ]} in
  Object (if gateway_uses_helper gateway
          then <["inferenceCredentialHelperTtlSec" := num 60]>
                 (<["inferenceCredentialHelper" := VString (display helper_path)]>
                    (<["inferenceCredentialKind" := VString "helper-script"]> generated))
          else generated).
Definition managed_settings (config : ClaudeDesktopConfig) (gateway : option LlmGatewayConfig)
    (helper_path : path) : value :=
  let settings := Object (cld_settings config) in
  match gateway with
  | None => settings
  | Some gateway => deep_merge settings (gateway_settings gateway helper_path)
  end.

Definition plan (s : fs) (settings_path helper_path : path) (merge_existing : bool)
    (credential_binary socket : path)
    (config : option (ClaudeDesktopConfig * option LlmGatewayConfig)) : planning unit :=
  let settings_owner := owner_path "managed" settings_path in
  let settings_state := state_path settings_path in
  let helper_owner := owner_path "managed" helper_path in
  match config with
  | None =>
      let* removed :=
        (if merge_existing
         then plan_remove s settings_path settings_state "managed settings" DISPLAY_NAME
         else st_ret false) in
      (if removed : bool then unmark s settings_owner
       else remove_owned s settings_path settings_owner "managed settings") ;*
      remove_owned s helper_path helper_owner "credential helper"
  | Some (config, gateway) =>
      (if is_some_and gateway_uses_helper gateway
       then write_owned s helper_path helper_owner
              (posix_credential_helper_contents (display credential_binary) (display socket))
              493 "credential helper"
       else remove_owned s helper_path helper_owner "credential helper") ;*
      let settings := managed_settings config gateway helper_path in
      if merge_existing
      then st_err "Claude Desktop settings cannot be applied to its user preferences; use system-managed settings"
      else write_owned s settings_path settings_owner (json_lines settings) 420 "managed settings"
  end.

(** [impl Provider for ClaudeDesktop]. *)
Definition provider (managed_settings_path credential_helper_path : path) : Provider :=
  {| provider_id := ID;
     provider_plan := fun ctx config s =>
       match skip_unless ctx System (is_some (claude_desktop (dm_programs config))) DISPLAY_NAME with
       | Some pl => Ok pl
       | None =>
           run_planning
             (plan s managed_settings_path credential_helper_path (merge_user_settings ctx)
                (credential_helper ctx) (socket ctx)
                (configured_with cld_use_llm_gateway config (claude_desktop (dm_programs config))))
       end |}.
End with_ops.
End ClaudeDesktop.

(** ** Only marked files change *)

Definition marked (s : fs) (marker : path) : Prop :=
  read_optional s marker = Ok (Some OWNER_MARKER).

(** A change of the marker (written as it is, or removed), or of the file [p] when
    it is absent, when the marker says the daemon wrote it, or to the bytes it
    already has. *)
Definition marked_change (p marker : path) (s : fs) (c : FileChange) : Prop :=
  (fc_path c = marker /\ (fc_contents c = Some OWNER_MARKER \/ fc_contents c = None)) \/
  (fc_path c = p /\
   (read_optional s p = Ok None \/ marked s marker \/
    exists contents, fc_contents c = Some contents /\ read_optional s p = Ok (Some contents))).

Section laws.
Variables (s : fs) (ok : FileChange -> Prop) (p marker : path).
Hypothesis ok_marked : forall c, marked_change p marker s c -> ok c.

Lemma ok_marker contents mode :
  contents = Some OWNER_MARKER \/ contents = None ->
  ok {| fc_path := marker; fc_contents := contents; fc_permissions := mode |}.
Proof using ok_marked. intros Hc. apply ok_marked. by left. Qed.

Lemma plans_is_owned what :
  plans s (on_files ok) (is_owned what s marker) (fun owned => owned = true -> marked s marker).
Proof using Type.
  unfold is_owned. plans_step. unfold marked. destruct a as [c|[]]; try apply plans_err; apply plans_ret;
    [|done]. by intros ->%bool_decide_eq_true.
Qed.
Lemma plans_unmark what : scoped s (on_files ok) (remove_owner_marker what s marker).
Proof using ok_marked.
  unfold remove_owner_marker. eapply plans_bind; [apply plans_attempt, plans_remove_file, ok_marker; by right|].
  intros a _. destruct a as [|[]]; solve_plans.
Qed.
Lemma plans_mark : scoped s (on_files ok) (write_file s marker OWNER_MARKER MARKER_MODE).
Proof using ok_marked. apply plans_write_file, ok_marker. by left. Qed.
Lemma plans_write_marked o contents mode :
  read_optional s p = Ok o ->
  match o with Some found => found = contents \/ marked s marker | None => True end ->
  scoped s (on_files ok) (write_file s p contents mode).
Proof using ok_marked.
  intros Ho Hm. apply plans_write_file, ok_marked. right. split; [done|].
  destruct o as [found|]; [|by left]. right. destruct Hm as [->|]; [right; by exists contents|by left].
Qed.
Lemma plans_remove_marked : marked s marker -> scoped s (on_files ok) (remove_file s p).
Proof using ok_marked. intros Hm. apply plans_remove_file, ok_marked. right. auto. Qed.
End laws.
#[export] Hint Resolve plans_unmark plans_mark plans_remove_marked : planning.

(** The condition under which an existing file is rewritten. *)
Lemma owned_or_same s marker (owned : bool) (found contents : string) :
  (owned = true -> marked s marker) -> owned || bool_decide (found = contents) = true ->
  found = contents \/ marked s marker.
Proof. intros Hm [Ho|Hs%bool_decide_eq_true]%orb_prop; auto. Qed.

Section programs.
Context {U : UrlOps} {C : JsonCodec}.
Variables (s : fs) (ok : FileChange -> Prop).

Lemma claude_code_write_plans p marker contents :
  (forall c, marked_change p marker s c -> ok c) ->
  scoped s (on_files ok) (ClaudeCode.write_settings s p marker contents).
Proof.
  intros Hok. unfold ClaudeCode.write_settings.
  eapply plans_bind; [apply plans_is_owned|]. intros owned Ho.
  eapply plans_bind; [apply plans_read_managed|]. intros o Hread.
  destruct o as [found|]; repeat plans_step; eauto with planning.
  all: (eapply plans_write_marked; [by eauto|by eauto|]); simpl; eauto using owned_or_same.
Qed.
Lemma claude_code_remove_plans p marker :
  (forall c, marked_change p marker s c -> ok c) -> scoped s (on_files ok) (ClaudeCode.remove s p marker).
Proof.
  intros Hok. unfold ClaudeCode.remove.
  eapply plans_bind; [apply plans_is_owned|]. intros owned Ho. unfold ClaudeCode.unmark.
  destruct owned; repeat plans_step; eauto with planning.
Qed.
Lemma desktop_write_plans p marker contents mode description :
  (forall c, marked_change p marker s c -> ok c) ->
  scoped s (on_files ok) (ClaudeDesktop.write_owned s p marker contents mode description).
Proof.
  intros Hok. unfold ClaudeDesktop.write_owned.
  eapply plans_bind; [apply plans_is_owned|]. intros owned Ho. plans_step.
  eapply (plans_bind _ _ _ _ (fun o => read_optional s p = Ok o)).
  { destruct a as [c|[]]; try apply plans_err; by apply plans_ret. }
  intros o Hread. destruct o as [found|]; repeat plans_step; eauto with planning.
  all: (eapply plans_write_marked; [by eauto|by eauto|]); simpl; eauto using owned_or_same.
Qed.
Lemma desktop_remove_plans p marker description :
  (forall c, marked_change p marker s c -> ok c) ->
  scoped s (on_files ok) (ClaudeDesktop.remove_owned s p marker description).
Proof.
  intros Hok. unfold ClaudeDesktop.remove_owned, ClaudeDesktop.unmark.
  eapply plans_bind; [apply plans_is_owned|]. intros owned Ho.
  destruct owned; repeat plans_step; eauto with planning.
Qed.

Lemma claude_code_plans p merge helper hooks sandbox config :
  let marker := owner_path "settings.json" p in
  (forall c, marked_change p marker s c -> ok c) ->
  (merge = true -> forall q o m, q = p \/ q = state_path p ->
     ok {| fc_path := q; fc_contents := o; fc_permissions := m |}) ->
  scoped s (on_files ok) (ClaudeCode.plan s p merge helper hooks sandbox config).
Proof.
  intros marker Hok Hmerge. unfold ClaudeCode.plan. fold marker. unfold ClaudeCode.unmark.
  destruct config as [[config gateway]|].
  - plans_step. destruct merge; [|by apply claude_code_write_plans].
    repeat plans_step; eauto with planning.
    + eapply plans_mono; [by apply plans_is_owned|done].
    + by apply files_plan_merge, Hmerge.
  - repeat plans_step; eauto using claude_code_remove_plans with planning.
    by apply files_plan_remove, Hmerge.
Qed.

Lemma desktop_plans p helper merge binary sock config :
  (forall c, marked_change p (owner_path "managed" p) s c -> ok c) ->
  (forall c, marked_change helper (owner_path "managed" helper) s c -> ok c) ->
  (merge = true -> forall q o m, q = p \/ q = state_path p ->
     ok {| fc_path := q; fc_contents := o; fc_permissions := m |}) ->
  scoped s (on_files ok) (ClaudeDesktop.plan s p helper merge binary sock config).
Proof.
  intros Hp Hh Hmerge. unfold ClaudeDesktop.plan, ClaudeDesktop.unmark.
  destruct config as [[config gateway]|]; repeat plans_step;
    eauto using desktop_remove_plans, desktop_write_plans with planning.
  by apply files_plan_remove, Hmerge.
Qed.
End programs.

(** A system daemon changes only settings files it wrote: every operation of a
    Claude Code or Claude Desktop plan writes or removes a marker, or is on that
    program's own file when the file is absent, when its marker says the daemon wrote
    it, or to give identical bytes a stricter mode. *)
Theorem only_marked_files_change `{UrlOps, JsonCodec} ctx config s sp dp hp pl c :
  merge_user_settings ctx = false ->
  c ∈ operations pl ->
  (provider_plan (ClaudeCode.provider sp) ctx config s = Ok pl ->
     marked_change sp (owner_path "settings.json" sp) s c) /\
  (provider_plan (ClaudeDesktop.provider dp hp) ctx config s = Ok pl ->
     marked_change dp (owner_path "managed" dp) s c \/
     marked_change hp (owner_path "managed" hp) s c).
Proof.
  intros Hm Hc. split; simpl; rewrite Hm.
  - intros Hp. eapply run_planning_grows in Hp; [by eapply planned_change|].
    by apply claude_code_plans.
  - destruct (skip_unless _ _ _ _) as [pl'|] eqn:E; intros Hp; simplify_eq.
    + eapply (skip_unless_grows _ _ _ _ _ s) in E. by eapply planned_change.
    + refine (planned_change s (fun c => marked_change dp _ s c \/ marked_change hp _ s c) _ _ _ Hc).
      eapply run_planning_grows in Hp; [exact Hp|]. apply desktop_plans; auto; done.
Qed.

#[global] Instance claude_code_scope `{UrlOps, JsonCodec} p : ProviderScope (ClaudeCode.provider p).
Proof.
  refine {| provider_files := [p; owner_path "settings.json" p; state_path p] |}.
  intros ctx config s pl Hp. eapply run_planning_grows in Hp; [exact Hp|].
  apply claude_code_plans.
  - intros c [[Hf _]|[Hf _]]; unfold in_files; rewrite Hf; set_solver.
  - intros _ q o m [->| ->]; unfold in_files; simpl; set_solver.
Defined.
#[global] Instance claude_desktop_scope `{UrlOps, JsonCodec} p helper :
  ProviderScope (ClaudeDesktop.provider p helper).
Proof.
  refine {| provider_files := [p; owner_path "managed" p; state_path p; helper;
                               owner_path "managed" helper] |}.
  intros ctx config s pl. simpl. destruct (skip_unless _ _ _ _) as [pl'|] eqn:E; intros Hp; simplify_eq.
  - by eapply skip_unless_grows.
  - eapply run_planning_grows in Hp; [exact Hp|]. apply desktop_plans.
    1,2: intros c [[Hf _]|[Hf _]]; unfold in_files; rewrite Hf; set_solver.
    intros _ q o m [->| ->]; unfold in_files; simpl; set_solver.
Defined.

(** ** The helper script *)

(** Every command line the daemon writes is the words it means: a POSIX shell
    reads the rendered credential-helper command back as the program and its
    arguments, and the command of Claude Desktop's helper script as [exec] of the
    daemon's binary with its socket, whatever bytes the paths hold. No path or
    argument can end its quotes, add a word or run anything else. *)
Theorem command_lines_are_their_words command binary sock :
  sh_words (render_command command) = Some (cs_program command :: cs_args command) /\
  exists line,
    ClaudeDesktop.posix_credential_helper_contents binary sock
      = "#!/bin/sh" +:+ line_feed +:+ line +:+ line_feed /\
    sh_words line
      = Some ["exec"; binary; "--socket"; sock; "credential"; "--client-id"; "claude-desktop"].
Proof.
  split; [apply rendered_words|].
  exists ("exec " +:+ shell_quote binary +:+ " --socket " +:+ shell_quote sock
          +:+ " credential --client-id claude-desktop"). split.
  - unfold ClaudeDesktop.posix_credential_helper_contents. by rewrite !append_assoc.
  - unfold sh_words. change (sh_scan Blank (shell_quote binary +:+ " --socket " +:+ shell_quote sock
      +:+ " credential --client-id claude-desktop") ["exec"] = Some ["exec"; binary; "--socket"; sock;
      "credential"; "--client-id"; "claude-desktop"]).
    rewrite sh_scan_shell_quote.
    change (sh_scan Blank (shell_quote sock +:+ " credential --client-id claude-desktop")
      ["exec"; binary; "--socket"] = Some ["exec"; binary; "--socket"; sock;
      "credential"; "--client-id"; "claude-desktop"]).
    by rewrite sh_scan_shell_quote.
Qed.

(** ** Hooks and the sandbox *)

(** The groups of an event's hooks. *)
Definition hook_groups (event : string) (settings : gmap string value) : list value :=
  let hooks := default ∅ ((settings !! "hooks") ≫= as_object) in
  default [] ((hooks !! event) ≫= as_array).

(** The groups with the generated hook in one of them. *)
Definition with_hook (command : CommandSpec) (groups : list value) : list value :=
  let hook := ClaudeCode.generated_hook command in
  if any (ClaudeCode.holds_hook hook) groups then groups
  else (groups ++ [Object {[ "matcher" := VString ""; "hooks" := Array [hook] ]}])%list.

Lemma append_hook_inv settings event command settings' :
  ClaudeCode.append_hook settings event command = Ok settings' ->
  exists hooks,
    (forall k, hook_groups k settings = default [] ((hooks !! k) ≫= as_array)) /\
    settings' = <["hooks" := Object (<[event := Array (with_hook command
                                         (hook_groups event settings))]> hooks)]> settings.
Proof.
  unfold ClaudeCode.append_hook. cbn zeta. intros H.
  exists (default ∅ ((settings !! "hooks") ≫= as_object)). split; [done|].
  unfold hook_groups. cbn zeta.
  destruct (settings !! "hooks") as [[| | | | |hooks]|]; simplify_eq/=;
    [destruct (hooks !! event) as [[| | | |l|]|]|rewrite lookup_empty in H |- *]; by simplify_eq/=.
Qed.

Lemma with_hook_holds command groups :
  any (ClaudeCode.holds_hook (ClaudeCode.generated_hook command)) (with_hook command groups) = true.
Proof.
  unfold with_hook. set (hook := ClaudeCode.generated_hook command).
  destruct (any _ groups) eqn:E; [done|].
  apply any_true. exists (Object {[ "matcher" := VString ""; "hooks" := Array [hook] ]}).
  split; [apply elem_of_app; right; apply list_elem_of_here|].
  change (bool_decide (hook ∈ [hook]) = true). apply bool_decide_eq_true, list_elem_of_here.
Qed.
Lemma with_hook_again command groups : with_hook command (with_hook command groups) = with_hook command groups.
Proof. unfold with_hook at 1. by rewrite with_hook_holds. Qed.

Lemma append_hook_again settings hooks event command groups :
  ClaudeCode.append_hook
    (<["hooks" := Object (<[event := Array (with_hook command groups)]> hooks)]> settings) event command
  = Ok (<["hooks" := Object (<[event := Array (with_hook command groups)]> hooks)]> settings).
Proof.
  unfold ClaudeCode.append_hook. rewrite lookup_insert_eq, lookup_insert_eq.
  fold (with_hook command (with_hook command groups)). rewrite with_hook_again.
  by rewrite !insert_insert_eq.
Qed.

(** Telemetry hooks are added to the user's own and once: after [append_hook] the
    event has every group it had, in order, and one that runs the daemon's command,
    appended only when none did; other events' hooks and all other settings are as
    they were, and doing it again changes nothing. *)
Theorem hooks_are_added_once settings event command settings' :
  ClaudeCode.append_hook settings event command = Ok settings' ->
  let runs_command := ClaudeCode.holds_hook (ClaudeCode.generated_hook command) in
  hook_groups event settings `prefix_of` hook_groups event settings' /\
  any runs_command (hook_groups event settings') = true /\
  (any runs_command (hook_groups event settings) = true ->
   hook_groups event settings' = hook_groups event settings) /\
  (forall other, other <> event -> hook_groups other settings' = hook_groups other settings) /\
  (forall k, k <> "hooks" -> settings' !! k = settings !! k) /\
  ClaudeCode.append_hook settings' event command = Ok settings'.
Proof.
  intros H runs_command. destruct (append_hook_inv _ _ _ _ H) as (hooks & Hbefore & Heq).
  assert (forall k, hook_groups k settings' = default [] ((<[event := Array (with_hook command
    (hook_groups event settings))]> hooks !! k) ≫= as_array)) as Hafter
    by (intros k; rewrite Heq; unfold hook_groups at 1; by rewrite lookup_insert_eq).
  assert (hook_groups event settings' = with_hook command (hook_groups event settings)) as Hevent
    by (by rewrite Hafter, lookup_insert_eq).
  split; [|split; [|split; [|split; [|split]]]].
  - rewrite Hevent. unfold with_hook. destruct (any _ _); [done|]. by apply prefix_app_r.
  - rewrite Hevent. apply with_hook_holds.
  - intros E. rewrite Hevent. unfold with_hook. fold runs_command. by rewrite E.
  - intros other Hne. by rewrite Hafter, lookup_insert_ne, Hbefore.
  - intros k Hk. by rewrite Heq, lookup_insert_ne.
  - rewrite Heq. apply append_hook_again.
Qed.

(** Claude Code must use the sandbox and cannot leave it; it may write the writable paths
    and no others, may touch no denied one, and reaches the allowed domains and no others.
    Every other sandbox setting is the pass-through settings': if they have none, there is
    none. *)
Record claude_sandboxed (sandbox : SandboxConfig) (passthrough settings : option value) : Prop := {
  ccs_enabled : at_path ["sandbox"; "enabled"] settings = Some (VBool true);
  ccs_required : at_path ["sandbox"; "failIfUnavailable"] settings = Some (VBool true);
  ccs_confined : at_path ["sandbox"; "allowUnsandboxedCommands"] settings = Some (VBool false);
  ccs_writable : at_path ["sandbox"; "filesystem"; "allowWrite"] settings
    = Some (Array (map (fun p => VString (display p)) (sf_writable (sb_filesystem sandbox))));
  ccs_unreadable : at_path ["sandbox"; "filesystem"; "denyRead"] settings
    = Some (Array (map (fun p => VString (display p)) (sf_denied (sb_filesystem sandbox))));
  ccs_unwritable : at_path ["sandbox"; "filesystem"; "denyWrite"] settings
    = Some (Array (map (fun p => VString (display p)) (sf_denied (sb_filesystem sandbox))));
  ccs_domains : exists domains, at_path ["sandbox"; "network"; "allowedDomains"] settings = Some (vstrings domains) /\
    NoDup domains /\ forall d, d ∈ domains <-> d ∈ sn_allowed_domains (sb_network sandbox);
  ccs_other k : k ∉ ["enabled"; "failIfUnavailable"; "allowUnsandboxedCommands"; "filesystem"; "network"] ->
    at_path ["sandbox"; k] settings = at_path ["sandbox"; k] passthrough;
  ccs_files k : k ∉ ["allowWrite"; "denyRead"; "denyWrite"] ->
    at_path ["sandbox"; "filesystem"; k] settings = at_path ["sandbox"; "filesystem"; k] passthrough;
  ccs_network k : k <> "allowedDomains" ->
    at_path ["sandbox"; "network"; k] settings = at_path ["sandbox"; "network"; k] passthrough;
}.

(** Hooks and the gateway's part leave the sandbox alone. *)
Lemma append_hook_for_sandbox event command settings settings' :
  ClaudeCode.append_hook_for event command settings = Ok settings' -> settings' !! "sandbox" = settings !! "sandbox".
Proof.
  unfold ClaudeCode.append_hook_for. destruct command as [command|]; [|by intros [= <-]].
  intros (hooks & _ & ->)%append_hook_inv. by rewrite lookup_insert_ne.
Qed.
Lemma claude_sandbox_at `{UrlOps} config gateway helper hooks sandbox settings ks :
  ClaudeCode.managed_settings config gateway helper hooks (Some sandbox) = Ok settings ->
  exists base, at_path ("sandbox" :: ks) (Some settings)
    = at_path ("sandbox" :: ks) (Some (deep_merge base (ClaudeCode.sandbox_settings sandbox))) /\
    at_path ("sandbox" :: ks) (Some base) = at_path ("sandbox" :: ks) (Some (Object (clc_settings config))).
Proof.
  unfold ClaudeCode.managed_settings.
  destruct (ClaudeCode.append_hook_for "PreToolUse" _ _) as [m|] eqn:E1; [|done]. cbn.
  destruct (ClaudeCode.append_hook_for "SessionStart" _ _) as [m'|] eqn:E2; [|done]. intros [= <-].
  apply append_hook_for_sandbox in E1, E2. exists (Object m'). split; [|cbn; by rewrite E2, E1].
  destruct gateway as [gateway|]; [|done]. apply (deep_merge_outside ("sandbox" :: ks)).
  unfold ClaudeCode.gateway_settings. by destruct (gateway_uses_helper gateway).
Qed.
Lemma claude_sandbox_leaf `{UrlOps} config gateway helper hooks sandbox settings ks v :
  ClaudeCode.managed_settings config gateway helper hooks (Some sandbox) = Ok settings ->
  at_path ("sandbox" :: ks) (Some (ClaudeCode.sandbox_settings sandbox)) = Some v ->
  is_object v = false -> at_path ("sandbox" :: ks) (Some settings) = Some v.
Proof.
  intros Hs Hv Ho. apply (claude_sandbox_at _ _ _ _ _ _ ks) in Hs as (base & -> & _). by apply deep_merge_leaf.
Qed.
Lemma claude_sandbox_rest `{UrlOps} config gateway helper hooks sandbox settings ks :
  ClaudeCode.managed_settings config gateway helper hooks (Some sandbox) = Ok settings ->
  outside ("sandbox" :: ks) (ClaudeCode.sandbox_settings sandbox) = true ->
  at_path ("sandbox" :: ks) (Some settings) = at_path ("sandbox" :: ks) (Some (Object (clc_settings config))).
Proof.
  intros Hs Ho. apply (claude_sandbox_at _ _ _ _ _ _ ks) in Hs as (base & -> & <-). by apply deep_merge_outside.
Qed.
Lemma paths_value_map paths : ClaudeCode.paths_value paths = Array (map (fun p => VString (display p)) paths).
Proof. unfold ClaudeCode.paths_value, vstrings. by rewrite map_map. Qed.

Lemma claude_sandbox_in_force `{UrlOps} config gateway helper hooks sandbox settings :
  ClaudeCode.managed_settings config gateway helper hooks (Some sandbox) = Ok settings ->
  claude_sandboxed sandbox (Some (Object (clc_settings config))) (Some settings).
Proof.
  intros Hs.
  split; try (rewrite <- paths_value_map); try (by eapply claude_sandbox_leaf).
  - exists (set_iter (sn_allowed_domains (sb_network sandbox))). split; [by eapply claude_sandbox_leaf|].
    split; [|intros d; apply elem_of_set_iter]. unfold set_iter. rewrite merge_sort_Permutation. apply NoDup_elements.
  - intros k Hk. eapply claude_sandbox_rest; [exact Hs|]. unfold ClaudeCode.sandbox_settings. cbn [outside].
    rewrite lookup_singleton_eq. apply outside_missing. simpl list_to_map.
    by rewrite !lookup_insert_ne, lookup_empty by (clear -Hk; set_solver).
  - intros k Hk. eapply claude_sandbox_rest; [exact Hs|]. apply (outside_missing k (list_to_map _)). simpl list_to_map.
    by rewrite !lookup_insert_ne, lookup_empty by (clear -Hk; set_solver).
  - intros k Hk. eapply claude_sandbox_rest; [exact Hs|]. apply (outside_missing k {[ _ := _ ]}).
    by rewrite lookup_singleton_ne.
Qed.

(** C33. The configured sandbox is in force whatever the pass-through settings say, with or
    without a gateway. Codex's default permissions have for every path and domain the
    sandbox speaks of the access it gives (denied paths are denied, even where writable),
    limit the network to the proxy, which is on exactly when some domain is allowed, and
    have no other entries than those the pass-through settings put there themselves. Claude
    Code must use its sandbox, and its writable, unreadable and unwritable paths and its
    domains are the configured ones and no others. *)
Theorem programs_run_sandboxed `{UrlOps} cc cx gateway helper_command helper sock hooks sandbox settings :
  ClaudeCode.managed_settings cc gateway helper_command hooks (Some sandbox) = Ok settings ->
  claude_sandboxed sandbox (Some (Object (clc_settings cc))) (Some settings) /\
  codex_sandboxed sandbox (Some (Object (cx_managed_config cx)))
    (Some (Codex.managed_config cx gateway helper sock (Some sandbox))).
Proof. intros Hs. split; [by eapply claude_sandbox_in_force|apply codex_sandbox_in_force]. Qed.

(** ** Concrete runs *)

Definition demo_sandbox : SandboxConfig :=
  {| sb_network := {| sn_allowed_domains := {[ "crates.io" ]} |};
     sb_filesystem := {| sf_writable := [home "work"]; sf_denied := [home "secrets"] |} |}.
Definition system_context : ReconcileContext :=
  {| merge_user_settings := false; user_mode := false; credential_helper := home "helper";
     socket := home "socket"; llm_proxy := None |}.
Definition marked_fs : fs :=
  {| nodes := {[ ["/"; "home"] := Dir 493; home "s.json" := File "old" 420;
                 owner_path "settings.json" (home "s.json") := File OWNER_MARKER 420 ]};
     umask := 18; fs_fault := no_fault |}.
Definition marked_plan : ReconcilePlan :=
  ok_value default_plan
    (provider_plan (ClaudeCode.provider (home "s.json")) system_context default_daemon marked_fs).

(** A program that is no longer configured: its file and its marker are removed. *)
Lemma only_marked_files_change_witness : exists c c',
  operations marked_plan = [c; c'] /\ merge_user_settings system_context = false /\
  provider_plan (ClaudeCode.provider (home "s.json")) system_context default_daemon marked_fs
    = Ok marked_plan /\
  marked_change (home "s.json") (owner_path "settings.json" (home "s.json")) marked_fs c.
Proof.
  destruct (operations marked_plan) as [|c [|c' [|c'' l]]] eqn:E;
    [vm_compute in E; discriminate|vm_compute in E; discriminate| |vm_compute in E; discriminate].
  exists c, c'. split; [reflexivity|]. split; [reflexivity|].
  assert (provider_plan (ClaudeCode.provider (home "s.json")) system_context default_daemon marked_fs
          = Ok marked_plan) as Hp by (apply value_of_ok; vm_compute; reflexivity).
  split; [exact Hp|].
  assert (c ∈ operations marked_plan) as Hc by (rewrite E; apply list_elem_of_here).
  exact (proj1 (only_marked_files_change system_context default_daemon marked_fs (home "s.json")
    (home "d.json") (home "helper.sh") marked_plan c eq_refl Hc) Hp).
Defined.

Lemma hooks_are_added_once_witness :
  let settings : gmap string value := {[ "hooks" := Object {[ "PreToolUse" := Array [] ]} ]} in
  let command := ClaudeCode.session_hook_command system_context in
  let settings' := ok_value ∅ (ClaudeCode.append_hook settings "SessionStart" command) in
  ClaudeCode.append_hook settings "SessionStart" command = Ok settings' /\
  ClaudeCode.append_hook settings' "SessionStart" command = Ok settings'.
Proof.
  intros settings command settings'.
  assert (ClaudeCode.append_hook settings "SessionStart" command = Ok settings') as H
    by (apply value_of_ok; vm_compute; reflexivity).
  split; [exact H|].
  exact (proj2 (proj2 (proj2 (proj2 (proj2 (hooks_are_added_once settings "SessionStart" command settings' H)))))).
Defined.

(** Pass-through permissions under the same name add to the sandbox's, and cannot lift them. *)
Definition opened_codex : CodexConfig :=
  {| cx_use_llm_gateway := false; cx_auth := None;
     cx_managed_config := {[ "permissions" := Object {[ "agentdesktop" := Object {[
       "filesystem" := Object {[ display (home "secrets") := VString "write"; "/opt" := VString "write" ]};
       "network" := Object {[ "domains" := Object {[ "example.com" := VString "allow" ]} ]} ]} ]} ]} |}.
Example pass_through_adds_to_the_sandbox :
  let settings := Some (Codex.managed_config opened_codex None (home "helper") (home "socket") (Some demo_sandbox)) in
  at_path (codex_profile ["filesystem"; display (home "secrets")]) settings = Some (VString "deny") /\
  at_path (codex_profile ["filesystem"; "/opt"]) settings = Some (VString "write") /\
  at_path (codex_network ["domains"; "example.com"]) settings = Some (VString "allow").
Proof. vm_compute. repeat split; reflexivity. Qed.

Lemma programs_run_sandboxed_witness :
  let config := {| clc_use_llm_gateway := false; clc_auth := None;
                   clc_settings := {[ "sandbox" := VBool false ]} |} in
  let hooks := {| ClaudeCode.tool_use := None; ClaudeCode.session_new := None |} in
  let settings := ok_value Null (ClaudeCode.managed_settings config None "" hooks (Some demo_sandbox)) in
  ClaudeCode.managed_settings config None "" hooks (Some demo_sandbox) = Ok settings /\
  claude_sandboxed demo_sandbox (Some (Object (clc_settings config))) (Some settings) /\
  codex_sandboxed demo_sandbox (Some (Object (cx_managed_config demo_codex)))
    (Some (Codex.managed_config demo_codex None (home "helper") (home "socket") (Some demo_sandbox))).
Proof.
  intros config hooks settings.
  assert (ClaudeCode.managed_settings config None "" hooks (Some demo_sandbox) = Ok settings) as H
    by (apply value_of_ok; vm_compute; reflexivity).
  split; [exact H|].
  exact (programs_run_sandboxed config demo_codex None "" (home "helper") (home "socket") hooks
    demo_sandbox settings H).
Defined.
