(* ===== verification/LoopbackFiles.v ===== *)
(** * Files merged with the user's own: Copilot CLI, VS Code chat models and Pi

    [crates/agent/src/provider/copilot], [vscode/reconcile.rs] and [pi]. The managed
    entries are merged into the user's file ([JsonMerge]). Copilot CLI and VS Code are
    pointed at the loopback proxy: their entries carry the pairing value, so the
    file's contents never appear in a report, and entries under the managed names that
    carry no pairing are the user's. *)

From S2P Require Import Prelude Str Json Fs Plan Config JsonMerge Reconcile Net Http Routes.
From S2P Require Import Shared Planner ManagedFiles.

(** A file with the pairing is owner-only: 0o600. *)
Definition FILE_MODE : Z := 384.

(** [plan.ensure_private_dir(parent)] for a parent that does not exist. *)
Definition ensure_parent (s : fs) (p : path) : planning unit :=
  match parent p with
  | Some dir =>
      if negb (bool_decide (dir = [])) && negb (fs_exists s dir)
      then modify (plan_private_dir dir) else st_ret tt
  | None => st_ret tt
  end.

(** [fail_closed_without_proxy], as a step of a plan. *)
Definition fail_closed (gateway : LlmGatewayConfig) (in_place : ReconcilePlan -> bool * ReconcilePlan)
  : planning bool :=
  fun pl => let '(closed, pl') := fail_closed_without_proxy gateway in_place pl in (Ok closed, pl').

(** [pairing_header == value], [!pairing_header.is_null()] when any value will do. *)
Definition pairing_matches (header : value) (pairing : option string) : bool :=
  match pairing with
  | Some pairing => bool_decide (header = VString pairing)
  | None => negb (is_null header)
  end.
Definition pairing_headers (pairing : string) : value :=
  Object {[ PAIRING_HEADER := VString pairing ]}.

(** The proxy's address and pairing, when it runs. *)
Definition loopback (ctx : ReconcileContext) : option (SocketAddr * string) :=
  (fun proxy => (lpc_address proxy, lpc_pairing proxy)) <$> llm_proxy ctx.

Section with_codec.
Context {C : JsonCodec}.

(** The JSON document of a managed file, [None] when the file is absent or is not
    JSON; another read error is reported as [what]. *)
Definition read_document (s : fs) (what : string) (p : path) : planning (option value) :=
  let* existing := read_managed s what p in
  st_ret (existing ≫= (fun contents => result_ok (json_from_slice contents))).

(** A file without its orphaned entries, when that changes it. *)
Definition write_remaining (s : fs) (display_name description : string) (p : path)
    (remaining : value) : planning unit :=
  let* existing := st_map_err io_kind_message (read s p) in
  let contents := json_lines remaining in
  if bool_decide (contents = existing) then st_ret tt
  else modify (record_diff display_name description "update" p None None) ;*
       write_file s p contents (default FILE_MODE (current_mode s p)).
End with_codec.

(** ** GitHub Copilot CLI *)

Module Copilot.
Definition ID : string := "copilot".
Definition DISPLAY_NAME : string := "GitHub Copilot CLI".
Definition DESCRIPTION : string := "providers".

(** [providers_path], over the environment's values. *)
Definition providers_path (env : string -> option string) : result path string :=
  let get name := option_filter (fun v => negb (is_empty v)) (env name) in
  match get "COPILOT_PROVIDERS_CONFIG" with
  | Some explicit => Ok (path_from explicit)
  | None =>
      match get "COPILOT_HOME" with
      | Some copilot_home => Ok (path_from copilot_home ++ ["providers.json"])%list
      | None =>
          let? home := ok_or (match get "HOME" with Some home => Some home | None => get "USERPROFILE" end)
            "the GitHub Copilot CLI providers file needs HOME, USERPROFILE or COPILOT_HOME" in
          Ok (path_from home ++ [".copilot"; "providers.json"])%list
      end
  end.

Definition provider_entry (name type url pairing : string) : value :=
  Object (list_to_map [("name", VString name); ("type", VString type); ("baseUrl", VString url);
                       ("headers", pairing_headers pairing)]).
Definition managed_document (config : CopilotConfig) (listen : SocketAddr) (pairing : string) : value :=
  Object {[
    "providers" := Array
      [provider_entry PROVIDER_OPENAI "openai"
         ("http://" +:+ fmt_socket listen +:+ "/copilot-cli/v1") pairing;
       provider_entry PROVIDER_ANTHROPIC "anthropic"
         ("http://" +:+ fmt_socket listen +:+ "/copilot-cli") pairing];
    "models" := Array (copilot_documents config) ]}.

Definition KEYED : list KeyedArray :=
  [{| ka_field := "providers"; ka_keys := ["name"] |};
   {| ka_field := "models"; ka_keys := ["provider"; "id"] |}].
Definition options : MergeOptions :=
  {| mo_mode := FILE_MODE; mo_keyed_arrays := KEYED; mo_redact_diff := true;
     mo_format := Json; mo_replace_paths := [] |}.

(** [index(v, "headers")[PAIRING_HEADER]] and the name of a provider entry. *)
Definition pairing_of (provider : value) : value := index (index provider "headers") PAIRING_HEADER.
Definition name_of (entry : value) : option string := Json.as_str (index entry "name").
Definition paired (provider : value) (pairing : option string) : bool :=
  is_some_and (fun name => String.eqb name PROVIDER_OPENAI || String.eqb name PROVIDER_ANTHROPIC)
    (name_of provider)
  && pairing_matches (pairing_of provider) pairing.

Definition entries (field : string) (current : gmap string value) : list value :=
  default [] ((current !! field) ≫= as_array).
Definition providers : gmap string value -> list value := entries "providers".

Section with_codec.
Context {C : JsonCodec}.

Definition read_object (s : fs) (p : path) : planning (option (gmap string value)) :=
  let* document := read_document s ("read " +:+ DISPLAY_NAME +:+ " providers") p in
  st_ret (document ≫= as_object).

Definition in_place (s : fs) (p : path) (pl : ReconcilePlan) : bool * ReconcilePlan :=
  let '(current, pl') := read_object s p pl in
  (match current with
   | Ok (Some current) => any (fun provider => paired provider None) (providers current)
   | Ok None | Err _ => false
   end, pl').

(** The first entry under a managed key that no daemon wrote. *)
Definition foreign_provider (managed written : list string) (provider : value) : option string :=
  match name_of provider with
  | Some name =>
      if bool_decide (name ∈ managed) && negb (bool_decide (name ∈ written))
      then Some ("provider " +:+ name +:+ " exists but was not written by agentdesktop")
      else None
  | None => None
  end.
Definition foreign_model (managed written : list string) (model : value) : option string :=
  match Json.as_str (index model "provider"), Json.as_str (index model "id") with
  | Some provider, Some id =>
      if bool_decide (provider ∈ managed) && negb (bool_decide (provider ∈ written))
      then Some ("model " +:+ provider +:+ "/" +:+ id
                 +:+ " exists under a managed provider name that was not written by agentdesktop")
      else None
  | _, _ => None
  end.
Definition foreign_entry (managed : value) (current : gmap string value) : option string :=
  let managed_providers :=
    filter_map name_of (default [] (as_array (index managed "providers"))) in
  let written_by_agentdesktop :=
    filter_map name_of
      (retain (fun provider => negb (is_null (pairing_of provider))) (providers current)) in
  match find_map (foreign_provider managed_providers written_by_agentdesktop) (providers current) with
  | Some reason => Some reason
  | None => find_map (foreign_model managed_providers written_by_agentdesktop) (entries "models" current)
  end.

Definition foreign_managed_entry (s : fs) (p state_p : path) (managed : value)
  : planning (option string) :=
  let* after := managed_after s state_p DISPLAY_NAME in
  if is_some after then st_ret None
  else
    let* current := read_object s p in
    st_ret (current ≫= foreign_entry managed).

(** [entries.retain(..)] in [get_mut(field)], when it is an array. *)
Definition retain_in (field : string) (keep : value -> bool) (v : value) : value :=
  update_at field (fun entries =>
    match entries with Array l => Array (retain keep l) | _ => entries end) v.
Definition not_owned (key : string) (orphaned : list string) (entry : value) : bool :=
  negb (is_some_and (fun name => bool_decide (name ∈ orphaned)) (Json.as_str (index entry key))).
Definition without_orphans (current : gmap string value) (orphaned : list string) : value :=
  retain_in "models" (not_owned "provider" orphaned)
    (retain_in "providers" (not_owned "name" orphaned) (Object current)).

(** A file that cannot be read is skipped. *)
Definition plan_remove_orphaned (s : fs) (p : path) (pairing : option string) : planning unit :=
  let* current := attempt (read_object s p) in
  match current with
  | Ok (Some current) =>
      let orphaned :=
        filter_map name_of (retain (fun provider => paired provider pairing) (providers current)) in
      if bool_decide (orphaned = []) then st_ret tt
      else write_remaining s DISPLAY_NAME DESCRIPTION p (without_orphans current orphaned)
  | Ok None | Err _ => st_ret tt
  end.

Definition remove (s : fs) (p state_p : path) (pairing : option string) : planning unit :=
  let* removed := plan_remove_with s p state_p DESCRIPTION DISPLAY_NAME options in
  if removed : bool then st_ret tt else plan_remove_orphaned s p pairing.

Definition plan (s : fs) (p : path) (proxy : option (SocketAddr * string))
    (configured : option (CopilotConfig * option LlmGatewayConfig)) : planning unit :=
  let state_p := state_path p in
  match configured with
  | Some (config, Some gateway) =>
      match proxy with
      | None =>
          let* closed := fail_closed gateway (in_place s p) in
          if closed : bool then st_ret tt
          else modify (set_inactive FAIL_OPEN_REASON) ;* remove s p state_p None
      | Some (listen, pairing) =>
          let managed := managed_document config listen pairing in
          let* foreign := foreign_managed_entry s p state_p managed in
          match foreign with
          | Some reason =>
              modify (record s DISPLAY_NAME (DESCRIPTION +:+ " (" +:+ reason +:+ ")") "conflict" p)
          | None =>
              ensure_parent s p ;*
              plan_merge_with s p state_p managed false DESCRIPTION DISPLAY_NAME options
          end
      end
  | _ => remove s p state_p (snd <$> proxy)
  end.

(** [impl Provider for Copilot]. *)
Definition provider (providers_path : option path) : Provider :=
  {| provider_id := ID;
     provider_plan := fun ctx config s =>
       let configured := configured_with cp_use_llm_gateway config (copilot (dm_programs config)) in
       match skip_unless ctx User (is_some (copilot (dm_programs config))) DISPLAY_NAME with
       | Some pl => Ok pl
       | None =>
           match providers_path with
           | None =>
               if is_some configured
               then Err (DISPLAY_NAME +:+ " user configuration path is unavailable")
               else Ok default_plan
           | Some p => run_planning (plan s p (loopback ctx) configured)
           end
       end |}.
End with_codec.
End Copilot.

(** ** VS Code's chat models *)

Module VsCodeModels.
Definition DISPLAY_NAME : string := "VS Code".
Definition DESCRIPTION : string := "chat language models".

Definition KEYED : list KeyedArray := [{| ka_field := ""; ka_keys := ["name"] |}].
Definition options : MergeOptions :=
  {| mo_mode := FILE_MODE; mo_keyed_arrays := KEYED; mo_redact_diff := true;
     mo_format := Json; mo_replace_paths := [] |}.

Definition model_document (listen : SocketAddr) (pairing : string) (model : value) : value :=
  match model with
  | Object m =>
      Object (<["requestHeaders" := pairing_headers pairing]>
        (<["url" := VString ("http://" +:+ fmt_socket listen
                             +:+ "/vscode-copilot/v1/chat/completions")]> m))
  | _ => model
  end.
Definition managed_document (config : VsCodeConfig) (listen : SocketAddr) (pairing : string) : value :=
  Array [Object (list_to_map
    [("name", VString VENDOR_NAME); ("vendor", VString "customendpoint");
     ("apiKey", VString "unused"); ("apiType", VString "chat-completions");
     ("models", Array (map (model_document listen pairing) (vscode_documents config)))])].

Definition carries_pairing (vendor : value) (pairing : option string) : bool :=
  any (fun model => pairing_matches (index (index model "requestHeaders") PAIRING_HEADER) pairing)
    (default [] (as_array (index vendor "models"))).
(** The managed vendor entry, with the pairing asked for. *)
Definition is_ours (pairing : option string) (vendor : value) : bool :=
  bool_decide (index vendor "name" = VString VENDOR_NAME) && carries_pairing vendor pairing.

Section with_codec.
Context {C : JsonCodec}.

Definition read_array (s : fs) (p : path) : planning (option (list value)) :=
  let* document := read_document s ("read " +:+ DISPLAY_NAME +:+ " " +:+ DESCRIPTION) p in
  st_ret (document ≫= as_array).

Definition in_place (s : fs) (p : path) (pl : ReconcilePlan) : bool * ReconcilePlan :=
  let '(current, pl') := read_array s p pl in
  (match current with
   | Ok (Some current) => any (is_ours None) current
   | Ok None | Err _ => false
   end, pl').

Definition foreign_vendor (current : list value) : option string :=
  if any (fun vendor => bool_decide (index vendor "name" = VString VENDOR_NAME)
                        && negb (carries_pairing vendor None)) current
  then Some ("vendor entry " +:+ VENDOR_NAME +:+ " exists but was not written by agentdesktop")
  else None.
Definition foreign_managed_entry (s : fs) (p state_p : path) : planning (option string) :=
  let* after := managed_after s state_p DISPLAY_NAME in
  if is_some after then st_ret None
  else
    let* current := read_array s p in
    st_ret (current ≫= foreign_vendor).

Definition plan_remove_orphaned (s : fs) (p : path) (pairing : option string) : planning unit :=
  let* current := attempt (read_array s p) in
  match current with
  | Ok (Some current) =>
      let remaining := retain (fun vendor => negb (is_ours pairing vendor)) current in
      if Nat.eqb (length remaining) (length current) then st_ret tt
      else write_remaining s DISPLAY_NAME DESCRIPTION p (Array remaining)
  | Ok None | Err _ => st_ret tt
  end.

Definition remove (s : fs) (p state_p : path) (pairing : option string) : planning unit :=
  let* removed := plan_remove_with s p state_p DESCRIPTION DISPLAY_NAME options in
  if removed : bool then st_ret tt else plan_remove_orphaned s p pairing.

Definition plan (s : fs) (p : path) (proxy : option (SocketAddr * string))
    (configured : option (VsCodeConfig * option LlmGatewayConfig)) : planning unit :=
  let state_p := state_path p in
  match configured with
  | Some (config, Some gateway) =>
      match proxy with
      | None =>
          let* closed := fail_closed gateway (in_place s p) in
          if closed : bool then st_ret tt
          else modify (set_inactive FAIL_OPEN_REASON) ;* remove s p state_p None
      | Some (listen, pairing) =>
          let managed := managed_document config listen pairing in
          let* foreign := foreign_managed_entry s p state_p in
          match foreign with
          | Some reason =>
              modify (record s DISPLAY_NAME (DESCRIPTION +:+ " (" +:+ reason +:+ ")") "conflict" p)
          | None =>
              ensure_parent s p ;*
              plan_merge_with s p state_p managed false DESCRIPTION DISPLAY_NAME options
          end
      end
  | _ => remove s p state_p (snd <$> proxy)
  end.
End with_codec.
End VsCodeModels.

(** ** Pi *)

Module Pi.
Definition ID : string := "pi".
Definition DISPLAY_NAME : string := "Pi".
Definition PROVIDER_NAME : string := "agentdesktop".
Definition DEFAULT_API : string := "anthropic-messages".

Definition MODELS_OPTIONS : MergeOptions :=
  {| mo_mode := FILE_MODE; mo_keyed_arrays := []; mo_redact_diff := true; mo_format := Jsonc;
     mo_replace_paths := [] |}.
Definition models_options (gateway : bool) : MergeOptions :=
  {| mo_mode := FILE_MODE; mo_keyed_arrays := []; mo_redact_diff := true; mo_format := Jsonc;
     mo_replace_paths := if gateway then ["/providers/agentdesktop/models"] else [] |}.

Definition catalog_entries (config : PiConfig) (default_model : string)
  : list (string * gmap string value) :=
  if bool_decide (pi_models config = ∅) then [(default_model, ∅)]
  else map (fun '(id, v) => (id, default ∅ (as_object v))) (btree_iter (pi_models config)).

(** [config.model] when it is not blank. *)
Definition default_model (config : PiConfig) : result string string :=
  ok_or (option_filter (fun model => negb (trims_empty model)) (pi_model config))
    "Pi gateway configuration has no model".

Definition api_key (gateway : LlmGatewayConfig) (credential_helper socket : path) : string :=
  if gateway_uses_helper gateway
  then "!" +:+ render_command (new_command credential_helper
                 ["--socket"; display socket; "credential"; "--client-id"; ID])
  else "agentdesktop-managed".

Definition managed_settings (config : PiConfig) (gateway : option LlmGatewayConfig)
  : result value string :=
  if is_none gateway then Ok (Object ∅)
  else
    let? model := default_model config in
    Ok (Object {[ "defaultProvider" := VString PROVIDER_NAME; "defaultModel" := VString model ]}).

Section with_ops.
Context {U : UrlOps} {C : JsonCodec}.

Definition gateway_base_url (gateway : LlmGatewayConfig) (api : string) : string :=
  if String.eqb api "openai-completions" || String.eqb api "openai-responses"
  then responses_base_url gateway
  else trim_end_matches slash (url_to_string (gw_url gateway)).

Definition model_entry (gateway : LlmGatewayConfig) (api : string)
    (entry : string * gmap string value) : value :=
  let '(id, m) := entry in
  let m := <["id" := VString id]> m in
  let model_api := default api ((m !! "api") ≫= Json.as_str) in
  Object (<["baseUrl" := VString (gateway_base_url gateway model_api)]> m).

Definition managed_models (config : PiConfig) (gateway : option LlmGatewayConfig)
    (credential_helper socket : path) : result value string :=
  let settings := Object (pi_managed_config config) in
  match gateway with
  | None => Ok settings
  | Some gateway =>
      let? model := default_model config in
      let api := default DEFAULT_API
        (option_filter (fun api => negb (is_empty api)) (trim <$> pi_api config)) in
      let generated := Object {[ "providers" := Object {[ PROVIDER_NAME := Object (list_to_map
        [("baseUrl", VString (gateway_base_url gateway api)); ("api", VString api);
         ("apiKey", VString (api_key gateway credential_helper socket));
         ("authHeader", VBool true);
         ("models", Array (map (model_entry gateway api) (catalog_entries config model)))]) ]} ]} in
      Ok (deep_merge settings generated)
  end.

Definition plan (s : fs) (models_path settings_path credential_helper socket : path)
    (config : option (PiConfig * option LlmGatewayConfig)) : planning unit :=
  let models_state := state_path models_path in
  let settings_state := state_path settings_path in
  match config with
  | None =>
      let* _ := plan_remove_with s models_path models_state "models" DISPLAY_NAME MODELS_OPTIONS in
      let* _ := plan_remove s settings_path settings_state "settings" DISPLAY_NAME in
      st_ret tt
  | Some (config, gateway) =>
      let* models := lift_result (managed_models config gateway credential_helper socket) in
      plan_merge_with s models_path models_state models false "models" DISPLAY_NAME
        (models_options (is_some gateway)) ;*
      let* settings := lift_result (managed_settings config gateway) in
      plan_merge s settings_path settings_state settings false "settings" DISPLAY_NAME
  end.

(** [impl Provider for Pi]. *)
Definition provider (models_path settings_path : option path) : Provider :=
  {| provider_id := ID;
     provider_plan := fun ctx config s =>
       match skip_unless ctx User (is_some (pi (dm_programs config))) DISPLAY_NAME with
       | Some pl => Ok pl
       | None =>
           match models_path, settings_path with
           | Some models_path, Some settings_path =>
               run_planning
                 (plan s models_path settings_path (credential_helper ctx) (socket ctx)
                    (configured_with pi_use_llm_gateway config (pi (dm_programs config))))
           | _, _ => Err "Pi user configuration paths are unavailable"
           end
       end |}.
End with_ops.
End Pi.

(** ** What the plans may do *)

(** Changes of [files] only, and report lines that show nothing but the white space
    of a blank file that is removed. *)
Definition hidden (c : DryRunChange) : Prop :=
  dc_after c = None /\
  (dc_before c = None \/ exists b, dc_before c = Some (from_utf8_lossy b) /\ blank b = true).
Definition paired_kind (files : list path) (e : effect) : Prop :=
  match e with Change c => in_files files c | Show c => hidden c end.

Lemma paired_kind_files files e : paired_kind files e -> on_files (in_files files) e.
Proof. by destruct e. Qed.
Lemma hidden_line n d a p : hidden (shown n d a p None None).
Proof. split; [done|by left]. Qed.
Lemma hidden_blank n d a p b : blank b = true -> hidden (shown n d a p (Some b) None).
Proof. intros Hb. split; [done|]. right. by exists b. Qed.
#[export] Hint Resolve hidden_line hidden_blank : planning.
#[export] Hint Extern 1 (paired_kind _ (Show _)) => apply hidden_line : planning.

Section plans.
Context {C : JsonCodec}.
Variable s : fs.

(** Computations that only look. *)
Definition looks {E A} (m : ST ReconcilePlan E A) : Prop := forall ok, scoped s ok m.

Lemma read_managed_looks w p : looks (read_managed s w p).
Proof. intros ok. unfold read_managed. plans_step. destruct a as [c|[]]; solve_plans. Qed.
Lemma read_document_looks w p : looks (read_document s w p).
Proof. intros ok. eapply plans_bind; [apply read_managed_looks|]. intros a _. by apply plans_ret. Qed.
Lemma copilot_read_looks p : looks (Copilot.read_object s p).
Proof. intros ok. eapply plans_bind; [apply read_document_looks|]. intros a _. by apply plans_ret. Qed.
Lemma models_read_looks p : looks (VsCodeModels.read_array s p).
Proof. intros ok. eapply plans_bind; [apply read_document_looks|]. intros a _. by apply plans_ret. Qed.

Lemma fail_closed_looks gateway in_place :
  (forall ok pl b pl', faithful s pl -> in_place pl = (b, pl') -> grows s ok pl pl') ->
  looks (fail_closed gateway in_place).
Proof.
  intros Hin ok pl r pl' Hf H. unfold fail_closed, fail_closed_without_proxy in H.
  destruct (bool_decide _); [|simplify_eq; split; [by apply grows_refl|done]].
  destruct (in_place pl) as [b pl1] eqn:E. simplify_eq. split; [|done].
  eapply grows_trans; [by eapply Hin|]. eapply grows_inactive. by eapply grows_faithful, (Hin ok).
Qed.
Lemma copilot_in_place_grows p ok pl b pl' :
  faithful s pl -> Copilot.in_place s p pl = (b, pl') -> grows s ok pl pl'.
Proof.
  intros Hf H. unfold Copilot.in_place in H. destruct (Copilot.read_object s p pl) as [r pl1] eqn:E.
  simplify_eq. by destruct (copilot_read_looks p ok _ _ _ Hf E).
Qed.
Lemma models_in_place_grows p ok pl b pl' :
  faithful s pl -> VsCodeModels.in_place s p pl = (b, pl') -> grows s ok pl pl'.
Proof.
  intros Hf H. unfold VsCodeModels.in_place in H. destruct (VsCodeModels.read_array s p pl) as [r pl1] eqn:E.
  simplify_eq. by destruct (models_read_looks p ok _ _ _ Hf E).
Qed.
Lemma ensure_parent_looks p : looks (ensure_parent s p).
Proof. intros ok. unfold ensure_parent. solve_plans. Qed.
Lemma copilot_foreign_looks p sp managed : looks (Copilot.foreign_managed_entry s p sp managed).
Proof.
  intros ok. unfold Copilot.foreign_managed_entry. plans_step; [apply plans_managed_after|].
  plans_step; [solve_plans|]. plans_step; [apply copilot_read_looks|solve_plans].
Qed.
Lemma models_foreign_looks p sp : looks (VsCodeModels.foreign_managed_entry s p sp).
Proof.
  intros ok. unfold VsCodeModels.foreign_managed_entry. plans_step; [apply plans_managed_after|].
  plans_step; [solve_plans|]. plans_step; [apply models_read_looks|solve_plans].
Qed.

Variables (p : path) (files : list path).
Hypothesis files_p : p ∈ files.

Lemma write_remaining_plans name desc remaining :
  scoped s (paired_kind files) (write_remaining s name desc p remaining).
Proof.
  unfold write_remaining. plans_step; [apply plans_map_err|].
  { intros pl r pl' Hf H. destruct (plans_read s (paired_kind files) _ _ _ _ Hf H) as (? & _). by destruct r. }
  plans_step; [solve_plans|]. plans_step; [|by apply plans_write_file].
  plans_step. apply grows_record_diff; [apply hidden_line|done].
Qed.

Hypothesis files_state : state_path p ∈ files.

Lemma paired_files q c m : q = p \/ q = state_path p ->
  paired_kind files (Change {| fc_path := q; fc_contents := c; fc_permissions := m |}).
Proof. intros [->| ->]; done. Qed.
Lemma redacted_merge_plans managed owned desc name options :
  mo_redact_diff options = true ->
  scoped s (paired_kind files) (plan_merge_with s p (state_path p) managed owned desc name options).
Proof.
  intros Hr. apply scoped_plan_merge_with; [apply paired_files| |congruence].
  intros action. apply hidden_line.
Qed.
Lemma redacted_remove_plans desc name options :
  mo_redact_diff options = true ->
  scoped s (paired_kind files) (plan_remove_with s p (state_path p) desc name options).
Proof.
  intros Hr. apply scoped_plan_remove_with; [apply paired_files| |congruence|].
  - intros action. apply hidden_line.
  - intros b Hb. by apply hidden_blank.
Qed.

Lemma copilot_plans proxy configured :
  scoped s (paired_kind files) (Copilot.plan s p proxy configured).
Proof.
  assert (forall pairing, scoped s (paired_kind files) (Copilot.remove s p (state_path p) pairing)) as Hremove.
  { intros pairing. unfold Copilot.remove. plans_step; [by apply redacted_remove_plans|].
    plans_step; [solve_plans|]. unfold Copilot.plan_remove_orphaned.
    plans_step; [apply plans_attempt, copilot_read_looks|].
    repeat plans_step; eauto using write_remaining_plans with planning. }
  unfold Copilot.plan. destruct configured as [[config [gateway|]]|]; [|apply Hremove..].
  destruct proxy as [[listen pairing]|].
  - plans_step; [apply copilot_foreign_looks|]. destruct a as [reason|].
    + plans_step. apply grows_record; [apply hidden_line|done].
    + plans_step; [apply ensure_parent_looks|]. by apply redacted_merge_plans.
  - plans_step; [apply fail_closed_looks; intros; by eapply copilot_in_place_grows|].
    plans_step; [solve_plans|]. plans_step; [solve_plans|apply Hremove].
Qed.

Lemma models_plans proxy configured :
  scoped s (paired_kind files) (VsCodeModels.plan s p proxy configured).
Proof.
  assert (forall pairing, scoped s (paired_kind files) (VsCodeModels.remove s p (state_path p) pairing)) as Hremove.
  { intros pairing. unfold VsCodeModels.remove. plans_step; [by apply redacted_remove_plans|].
    plans_step; [solve_plans|]. unfold VsCodeModels.plan_remove_orphaned.
    plans_step; [apply plans_attempt, models_read_looks|].
    repeat plans_step; eauto using write_remaining_plans with planning. }
  unfold VsCodeModels.plan. destruct configured as [[config [gateway|]]|]; [|apply Hremove..].
  destruct proxy as [[listen pairing]|].
  - plans_step; [apply models_foreign_looks|]. destruct a as [reason|].
    + plans_step. apply grows_record; [apply hidden_line|done].
    + plans_step; [apply ensure_parent_looks|]. by apply redacted_merge_plans.
  - plans_step; [apply fail_closed_looks; intros; by eapply models_in_place_grows|].
    plans_step; [solve_plans|]. plans_step; [solve_plans|apply Hremove].
Qed.
End plans.

Lemma pi_plans `{UrlOps, JsonCodec} s mp sp helper sock config files :
  (forall q, q = mp \/ q = state_path mp \/ q = sp \/ q = state_path sp -> q ∈ files) ->
  scoped s (on_files (in_files files)) (Pi.plan s mp sp helper sock config).
Proof.
  intros Hfiles. unfold Pi.plan, plan_merge, plan_remove.
  destruct config as [[config gateway]|]; repeat plans_step.
  all: try (apply files_plan_merge || apply files_plan_remove; intros q c m Hq; apply Hfiles; simpl; tauto).
  all: solve_plans.
Qed.

#[global] Instance copilot_scope `{JsonCodec} p : ProviderScope (Copilot.provider p).
Proof.
  refine {| provider_files := match p with Some p => [p; state_path p] | None => [] end |}.
  intros ctx config s pl. simpl. destruct (skip_unless _ _ _ _) as [pl'|] eqn:E.
  { intros [= <-]. by eapply skip_unless_grows. }
  destruct p as [p|].
  - intros Hp. eapply run_planning_grows in Hp; [|apply (copilot_plans s p [p; state_path p]); set_solver].
    eapply grows_mono; [exact Hp|apply paired_kind_files].
  - intros Hp. case_match; simplify_eq. apply grows_refl, faithful_default.
Defined.
#[global] Instance pi_scope `{UrlOps, JsonCodec} mp sp : ProviderScope (Pi.provider mp sp).
Proof.
  refine {| provider_files := match mp, sp with
              | Some mp, Some sp => [mp; state_path mp; sp; state_path sp] | _, _ => [] end |}.
  intros ctx config s pl. simpl. destruct (skip_unless _ _ _ _) as [pl'|] eqn:E.
  { intros [= <-]. by eapply skip_unless_grows. }
  destruct mp as [mp|], sp as [sp|]; try done. intros Hp.
  eapply run_planning_grows in Hp; [exact Hp|]. apply pi_plans.
  intros q [-> |[-> |[-> | ->]]]; set_solver.
Defined.

(** ** The user's entries *)

(** Some provider entry of that name was written by a daemon: it has a pairing. *)
Definition daemon_wrote (current : gmap string value) (name : string) : Prop :=
  exists e, e ∈ Copilot.providers current /\ Copilot.name_of e = Some name /\
            Copilot.pairing_of e <> Null.

(** Entries under the managed names are under names a daemon wrote. *)
Definition no_foreign_entries (current : gmap string value) : Prop :=
  let managed := [PROVIDER_OPENAI; PROVIDER_ANTHROPIC] in
  (forall e name, e ∈ Copilot.providers current -> Copilot.name_of e = Some name ->
     name ∈ managed -> daemon_wrote current name) /\
  (forall m name, m ∈ Copilot.entries "models" current ->
     Json.as_str (index m "provider") = Some name -> is_Some (Json.as_str (index m "id")) ->
     name ∈ managed -> daemon_wrote current name).

Lemma written_names current name :
  name ∈ filter_map Copilot.name_of (retain (fun provider => negb (is_null (Copilot.pairing_of provider)))
           (Copilot.providers current)) <-> daemon_wrote current name.
Proof.
  rewrite elem_of_filter_map. unfold daemon_wrote. split.
  - intros (e & [He Hp]%elem_of_retain & Hn). exists e. split; [done|]. split; [done|].
    intros Hnull. by rewrite Hnull in Hp.
  - intros (e & He & Hn & Hp). exists e. split; [|done]. apply elem_of_retain. split; [done|].
    by destruct (Copilot.pairing_of e).
Qed.

Lemma foreign_entry_None config listen pairing current :
  Copilot.foreign_entry (Copilot.managed_document config listen pairing) current = None ->
  no_foreign_entries current.
Proof.
  unfold Copilot.foreign_entry. cbn zeta.
  change (filter_map Copilot.name_of (default [] (as_array (index
    (Copilot.managed_document config listen pairing) "providers")))) with
    [PROVIDER_OPENAI; PROVIDER_ANTHROPIC].
  destruct (find_map _ (Copilot.providers current)) eqn:Ep; [done|]. intros Em.
  rewrite find_map_None in Ep, Em. split.
  - intros e name He Hn Hm. specialize (Ep e He). unfold Copilot.foreign_provider in Ep.
    rewrite Hn, bool_decide_true in Ep by done. simpl in Ep.
    destruct (bool_decide _) eqn:Ew; [|done]. by apply bool_decide_eq_true, written_names in Ew.
  - intros m name Hin Hn [id Hid] Hm. specialize (Em m Hin). unfold Copilot.foreign_model in Em.
    rewrite Hn, Hid, bool_decide_true in Em by done. simpl in Em.
    destruct (bool_decide _) eqn:Ew; [|done]. by apply bool_decide_eq_true, written_names in Ew.
Qed.

Section foreign.
Context {C : JsonCodec}.
Variable s : fs.

Lemma read_managed_value ok w p :
  plans s ok (read_managed s w p) (fun o => read_optional s p = Ok o).
Proof. unfold read_managed. plans_step. destruct a as [c|[]]; try apply plans_err; try apply plans_ret; done. Qed.
Lemma copilot_read_value ok p current contents :
  read_optional s p = Ok (Some contents) -> json_from_slice contents = Ok (Object current) ->
  plans s ok (Copilot.read_object s p) (fun o => o = Some current).
Proof.
  intros Hp Hj. unfold Copilot.read_object, read_document.
  eapply plans_bind.
  { eapply plans_bind; [apply read_managed_value|]. intros o Ho. apply (plans_ret _ _ _ (fun d => d = Some (Object current))).
    rewrite Hp in Ho. injection Ho as <-. simpl. by rewrite Hj. }
  intros d ->. by apply plans_ret.
Qed.
Lemma managed_after_absent ok p name :
  read_optional s p = Ok None -> plans s ok (managed_after s p name) (fun o => o = None).
Proof.
  intros Hp pl r pl' Hf H. unfold managed_after, st_bind in H.
  destruct (read_state s p name pl) as [r0 pl1] eqn:E.
  destruct (plans_read_state s ok p name pl r0 pl1 Hf E) as [Hg _].
  unfold read_state in E. destruct (read_planned s p pl None Hf Hp) as (pl2 & Hr & _).
  rewrite Hr in E. injection E as <- <-. simpl in H. injection H as <- <-. done.
Qed.

(** Until the daemon has written Copilot's providers file, the user's entries are
    theirs: with no sidecar, a plan that points the file at the proxy changes nothing
    unless every provider entry under a managed name, and every model under one,
    has a provider entry of that name that carries a pairing, which only a daemon
    writes; otherwise the plan is a conflict without operations. *)
Theorem copilot_keeps_user_entries p listen pairing config gateway pl contents current :
  read_optional s (state_path p) = Ok None ->
  read_optional s p = Ok (Some contents) -> json_from_slice contents = Ok (Object current) ->
  run_planning (Copilot.plan s p (Some (listen, pairing)) (Some (config, Some gateway))) = Ok pl ->
  (operations pl = [] /\ has_conflicts pl = true) \/ no_foreign_entries current.
Proof.
  intros Hsp Hp Hj Hrun. set (managed := Copilot.managed_document config listen pairing).
  destruct (Copilot.foreign_entry managed current) as [reason|] eqn:Ef.
  2: { right. by eapply foreign_entry_None. }
  left. unfold run_planning in Hrun. unfold Copilot.plan in Hrun. fold managed in Hrun.
  assert (plans s (fun _ => False) (Copilot.foreign_managed_entry s p (state_path p) managed)
            (fun o => o = Some reason)) as Hforeign.
  { unfold Copilot.foreign_managed_entry. eapply plans_bind; [by apply managed_after_absent|].
    intros o ->. simpl. eapply plans_bind; [by eapply copilot_read_value|]. intros o ->.
    apply plans_ret. exact Ef. }
  unfold st_bind at 1 in Hrun.
  destruct (Copilot.foreign_managed_entry s p (state_path p) managed default_plan) as [[o|e] pl1] eqn:E;
    [|done].
  destruct (Hforeign _ _ _ (faithful_default s) E) as [[_ (ops & Hops & Hno) _ _] ->].
  simpl in Hrun. injection Hrun as <-. split.
  - simpl. rewrite Hops. simpl. destruct ops as [|c ops]; [done|].
    destruct (Hno c) as [[] _]. apply list_elem_of_here.
  - unfold has_conflicts, record. simpl. apply any_true. eexists.
    split; [apply elem_of_app; right; by apply list_elem_of_singleton|done].
Qed.
End foreign.

(** A failing proxy does not open a gap: while the gateway is configured fail-closed
    and the local proxy is not running, the plans of Copilot's providers and of VS Code's
    chat models change no file, so the tools stay pointed at the proxy. *)
Theorem fail_closed_changes_nothing `{JsonCodec} s p gateway copilot_config vscode_config pl :
  gw_when_proxy_unavailable gateway = FailClosed ->
  run_planning (Copilot.plan s p None (Some (copilot_config, Some gateway))) = Ok pl \/
  run_planning (VsCodeModels.plan s p None (Some (vscode_config, Some gateway))) = Ok pl ->
  operations pl = [] /\ is_Some (inactive pl) /\ has_conflicts pl = false.
Proof.
  intros Hg Hrun.
  assert (forall in_place : ReconcilePlan -> bool * ReconcilePlan,
    (forall pl b pl', faithful s pl -> in_place pl = (b, pl') -> grows s (fun _ => False) pl pl') ->
    forall b pl1, in_place default_plan = (b, pl1) ->
      operations pl1 = [] /\ has_conflicts pl1 = false) as Hlook.
  { intros in_place Hin b pl1 Hb.
    destruct (Hin _ _ _ (faithful_default s) Hb) as [_ (ops & Hops & Ho) (cs & Hcs & Hc) _].
    assert (ops = []) as -> by (destruct ops as [|c ops]; [done|];
      by destruct (Ho c (list_elem_of_here _ _))).
    assert (cs = []) as -> by (destruct cs as [|c cs]; [done|];
      by destruct (Hc c (list_elem_of_here _ _))).
    split; [done|]. unfold has_conflicts. by rewrite Hcs. }
  unfold run_planning, Copilot.plan, VsCodeModels.plan, st_bind, fail_closed,
    fail_closed_without_proxy in Hrun.
  rewrite bool_decide_true in Hrun by done.
  destruct Hrun as [Hrun|Hrun].
  - destruct (Copilot.in_place s p default_plan) as [b pl1] eqn:E. injection Hrun as <-.
    destruct (Hlook _ (fun pl b pl' Hf => copilot_in_place_grows s p _ pl b pl' Hf) _ _ E).
    by destruct b.
  - destruct (VsCodeModels.in_place s p default_plan) as [b pl1] eqn:E. injection Hrun as <-.
    destruct (Hlook _ (fun pl b pl' Hf => models_in_place_grows s p _ pl b pl' Hf) _ _ E).
    by destruct b.
Qed.

(** ** Concrete runs *)

(** The user has a provider of their own under a managed name. *)
Definition users_providers : gmap string value :=
  {[ "providers" := Array [Object {[ "name" := VString PROVIDER_OPENAI ]}] ]}.
Definition users_fs : fs :=
  {| nodes := {[ ["/"; "home"] := Dir 493; home "p.json" := File (json_lines (Object users_providers)) 420 ]};
     umask := 18; fs_fault := no_fault |}.
Definition demo_listen : SocketAddr := {| sa_ip := V4 127 0 0 1; sa_port := 8788 |}.

Lemma copilot_keeps_user_entries_witness :
  let p := home "p.json" in
  let planned := run_planning (Copilot.plan users_fs p (Some (demo_listen, "pair")) (Some (demo_copilot, Some demo_gateway))) in
  let pl := ok_value default_plan planned in
  read_optional users_fs (state_path p) = Ok None /\
  read_optional users_fs p = Ok (Some (json_lines (Object users_providers))) /\
  planned = Ok pl /\
  ((operations pl = [] /\ has_conflicts pl = true) \/ no_foreign_entries users_providers).
Proof.
  intros p planned pl.
  assert (read_optional users_fs (state_path p) = Ok None) as H1 by (vm_compute; reflexivity).
  assert (read_optional users_fs p = Ok (Some (json_lines (Object users_providers)))) as H2
    by (vm_compute; reflexivity).
  assert (json_from_slice (json_lines (Object users_providers)) = Ok (Object users_providers)) as H3
    by (vm_compute; reflexivity).
  assert (planned = Ok pl) as H4 by (apply value_of_ok; vm_compute; reflexivity).
  split; [exact H1|]. split; [exact H2|]. split; [exact H4|].
  exact (copilot_keeps_user_entries users_fs p demo_listen "pair" demo_copilot demo_gateway pl
    (json_lines (Object users_providers)) users_providers H1 H2 H3 H4).
Defined.

Lemma fail_closed_changes_nothing_witness :
  let planned := run_planning (Copilot.plan users_fs (home "p.json") None (Some (demo_copilot, Some demo_gateway))) in
  let pl := ok_value default_plan planned in
  gw_when_proxy_unavailable demo_gateway = FailClosed /\ planned = Ok pl /\
  operations pl = [] /\ is_Some (inactive pl) /\ has_conflicts pl = false.
Proof.
  intros planned pl. assert (planned = Ok pl) as H by (apply value_of_ok; vm_compute; reflexivity).
  split; [reflexivity|]. split; [exact H|].
  exact (fail_closed_changes_nothing users_fs (home "p.json") demo_gateway demo_copilot demo_vscode pl
    eq_refl (or_introl H)).
Defined.
