(* ===== verification/SyntaxTree.v ===== *)
(** * The syntax tree of [jsonc-parser], an interface

    VS Code's [settings.json] is edited through the lossless syntax tree of the
    [jsonc-parser] crate. Its operations are a class ([SyntaxTree]); its documented
    behaviour is another ([SyntaxTreeLaws]), which says what an edit does to the list
    of the root object's properties. An instance shows that the laws can hold. *)

From stdpp Require Import countable.
From S2P Require Import Prelude Str Json Codec Config JsonMerge Shared.

(** ** The syntax tree, an interface *)

(** [CstInputValue]: what a property or an element is set to. *)
Inductive CstInputValue : Type :=
| InNull
| InBool (b : bool)
| InNumber (text : string)
| InString (text : string)
| InArray (items : list CstInputValue)
| InObject (fields : list (string * CstInputValue)).

(** A property's value as the code looks at it: the elements of an array, each by its
    [to_serde_value], or another node by its own. *)
Inductive node : Type :=
| Elements (elements : list (option value))
| Leaf (v : option value).
Record member : Type := {
  m_name : option string;  (* [decoded_name] *)
  m_node : node;
}.
#[global] Instance node_eq_dec : EqDecision node.
Proof. solve_decision. Defined.
#[global] Instance member_eq_dec : EqDecision member.
Proof. solve_decision. Defined.

(** An edit of the root object: of the property at an index, or of an element of the
    array there. *)
Inductive edit (V : Type) : Type :=
| SetProperty (i : nat) (v : V)                      (* [property.set_value] *)
| RemoveProperty (i : nat)                           (* [property.remove] *)
| InsertProperty (i : nat) (name : string) (v : V)   (* [object.insert] *)
| AppendProperty (name : string) (v : V)             (* [object.append] *)
| AppendElement (i : nat) (v : V)                    (* [array.append] *)
| RemoveElement (i j : nat).                         (* [node.remove] *)
Arguments SetProperty {V}. Arguments RemoveProperty {V}. Arguments InsertProperty {V}.
Arguments AppendProperty {V}. Arguments AppendElement {V}. Arguments RemoveElement {V}.

Definition edit_map {V W} (f : V -> W) (e : edit V) : edit W :=
  match e with
  | SetProperty i v => SetProperty i (f v)
  | RemoveProperty i => RemoveProperty i
  | InsertProperty i name v => InsertProperty i name (f v)
  | AppendProperty name v => AppendProperty name (f v)
  | AppendElement i v => AppendElement i (f v)
  | RemoveElement i j => RemoveElement i j
  end.

Class SyntaxTree : Type := {
  tree : Type;
  (** [CstRootNode::parse] with VS Code's options: comments and trailing commas. *)
  parse_tree : string -> option tree;
  (** [root.to_string()]. *)
  tree_text : tree -> string;
  (** [root.object_value_or_create()]: the tree with its root object. *)
  root_object : tree -> option tree;
  (** [object.properties()]. *)
  properties : tree -> list member;
  apply_edit : edit CstInputValue -> tree -> tree;
}.

Definition EMPTY_OBJECT : string := "{}" +:+ line_feed.

(** Numbers keep their JSON text. *)
Fixpoint input_value `{Printers} (v : value) : CstInputValue :=
  match v with
  | Null => InNull
  | VBool b => InBool b
  | Number n => InNumber (json_to_string (Number n))
  | VString text => InString text
  | Array items => InArray (map input_value items)
  | Object fields => InObject (btree_iter (input_value <$> fields))
  end.

(** ** What an edit does to the properties *)

Definition node_of (v : value) : node :=
  match v with Array l => Elements (map Some l) | _ => Leaf (Some v) end.
Definition property (name : string) (v : value) : member :=
  {| m_name := Some name; m_node := node_of v |}.
Definition with_node (f : node -> node) (m : member) : member :=
  {| m_name := m_name m; m_node := f (m_node m) |}.
Definition with_elements (f : list (option value) -> list (option value)) : member -> member :=
  with_node (fun n => match n with Elements l => Elements (f l) | Leaf v => Leaf v end).

Definition edited (e : edit value) (ms : list member) : list member :=
  match e with
  | SetProperty i v => alter (with_node (fun _ => node_of v)) i ms
  | RemoveProperty i => delete i ms
  | InsertProperty i name v => (take i ms ++ property name v :: drop i ms)%list
  | AppendProperty name v => (ms ++ [property name v])%list
  | AppendElement i v => alter (with_elements (fun l => l ++ [Some v])%list) i ms
  | RemoveElement i j => alter (with_elements (delete j)) i ms
  end.
Definition edited_all (es : list (edit value)) (ms : list member) : list member :=
  fold_left (fun ms e => edited e ms) es ms.

(** The documented behaviour of the tree: parsing is lossless; an edit does to the
    properties what it says, and keeps the root an object; the text of a tree reads back
    with the same properties, is not blank, and starts as it did; and [bare] trees, like
    that of [{}], have no comments: without properties they print their braces. *)
Class SyntaxTreeLaws `{Printers} (T : SyntaxTree) : Type := {
  parse_lossless text t : parse_tree text = Some t -> tree_text t = text;
  root_object_root t u : root_object t = Some u -> root_object u = Some u;
  edit_root e t : root_object t = Some t -> root_object (apply_edit e t) = Some (apply_edit e t);
  edit_properties e t : root_object t = Some t ->
    properties (apply_edit (edit_map input_value e) t) = edited e (properties t);
  leaf_no_array t m l : m ∈ properties t -> m_node m <> Leaf (Some (Array l));
  reparse t : root_object t = Some t ->
    exists u, parse_tree (tree_text t) = Some u /\ root_object u = Some u /\ properties u = properties t;
  text_not_blank t : root_object t = Some t -> trims_empty (tree_text t) = false;
  root_text_bom t u : root_object t = Some u ->
    strip_prefix bom (tree_text t) = None -> strip_prefix bom (tree_text u) = None;
  edit_text_bom e t : root_object t = Some t ->
    strip_prefix bom (tree_text t) = None -> strip_prefix bom (tree_text (apply_edit e t)) = None;
  bare : tree -> Prop;
  bare_empty : exists t, parse_tree EMPTY_OBJECT = Some t /\
    root_object t = Some t /\ properties t = [] /\ bare t;
  bare_edit e t : root_object t = Some t -> bare t -> bare (apply_edit e t);
  bare_reparse t u : root_object t = Some t -> bare t -> parse_tree (tree_text t) = Some u -> bare u;
  bare_text t : root_object t = Some t -> bare t -> properties t = [] ->
    drop_whitespace (tree_text t) = "{}";
}.


(** ** A concrete tree

    An instance of the interface that satisfies the laws, used to run the edits on
    concrete files: the tree is the list of properties, printed between braces as the
    binary digits of its encoding. It is not a model of JSONC's text. *)

(** What an input value means. *)
Fixpoint output_value (i : CstInputValue) : value :=
  match i with
  | InNull => Null
  | InBool b => VBool b
  | InNumber text => default Null (demo_unjson text)
  | InString text => VString text
  | InArray items => Array (map output_value items)
  | InObject fields => Object (list_to_map (map (fun kv => (fst kv, output_value (snd kv))) fields))
  end.
Lemma output_input v : output_value (input_value v) = v.
Proof.
  induction v as [| |n| |l IH|m IH] using value_ind; simpl; try done.
  - by rewrite demo_unjson_json.
  - f_equal. rewrite map_map. rewrite <- (map_id l) at 2. apply map_ext_in.
    intros a Ha. apply IH. by apply list_elem_of_In.
  - f_equal. apply map_eq. intros k.
    assert (forall l : list (string * CstInputValue), NoDup l.*1 ->
      list_to_map (M := gmap string value) (map (fun kv => (fst kv, output_value (snd kv))) l) !! k
      = output_value <$> (list_to_map (M := gmap string CstInputValue) l !! k)) as Hmap.
    { intros l. induction l as [|[k' x] l IHl]; [done|]. simpl. intros [_ Hnd]%NoDup_cons.
      destruct (decide (k' = k)) as [->|Hne]; [by rewrite !lookup_insert_eq|].
      rewrite !lookup_insert_ne by done. by apply IHl. }
    unfold btree_iter.
    rewrite Hmap by (rewrite merge_sort_Permutation; apply NoDup_fst_map_to_list).
    rewrite (list_to_map_proper _ (map_to_list (input_value <$> m))).
    + rewrite list_to_map_to_list, lookup_fmap. destruct (m !! k) eqn:E; [|done]. simpl. f_equal.
      by apply (IH k).
    + rewrite merge_sort_Permutation. apply NoDup_fst_map_to_list.
    + apply merge_sort_Permutation.
Qed.

(** The normal form of a property: arrays show their elements. *)
Definition normal_node (n : node) : node :=
  match n with Leaf (Some (Array l)) => Elements (map Some l) | _ => n end.
Definition normal (m : member) : member := with_node normal_node m.

Definition member_code (m : member)
  : option string * (list (option (gen_tree leaf)) + option (gen_tree leaf)) :=
  (m_name m, match m_node m with
             | Elements l => inl (map (fmap to_tree) l)
             | Leaf v => inr (to_tree <$> v)
             end).
Definition member_of_code (c : option string * (list (option (gen_tree leaf)) + option (gen_tree leaf)))
  : member :=
  {| m_name := fst c; m_node := match snd c with
                                | inl l => Elements (map (fmap of_tree) l)
                                | inr v => Leaf (of_tree <$> v)
                                end |}.
Lemma member_of_member_code m : member_of_code (member_code m) = m.
Proof.
  destruct m as [name [l|v]]; unfold member_of_code, member_code; simpl; do 2 f_equal.
  - rewrite map_map. rewrite <- (map_id l) at 2. apply map_ext. intros [v|]; simpl; [by rewrite of_to_tree|done].
  - destruct v; simpl; [by rewrite of_to_tree|done].
Qed.

Lemma members_of_codes ms : map member_of_code (map member_code ms) = ms.
Proof. induction ms as [|m ms IH]; simpl; [done|]. by rewrite member_of_member_code, IH. Qed.

Fixpoint of_braced (s : string) : option positive :=
  match s with
  | "}}}" => Some xH
  | String "0" s => xO <$> of_braced s
  | String "1" s => xI <$> of_braced s
  | _ => None
  end.
Lemma of_braced_bits p : of_braced (bits p +:+ "}}}") = Some p.
Proof. induction p as [p IH|p IH|]; simpl; [by rewrite IH|by rewrite IH|done]. Qed.

Definition demo_text (ms : list member) : string :=
  match ms with [] => EMPTY_OBJECT | _ => "{" +:+ bits (encode (map member_code ms)) +:+ "}}}" end.
Definition demo_read (s : string) : option (list member) :=
  if String.eqb s EMPTY_OBJECT then Some []
  else
    match s with
    | String "{" s => map member_of_code <$> (of_braced s ≫= decode)
    | _ => None
    end.
(** Parsing is lossless: other texts are refused. *)
Definition demo_parse (s : string) : option (list member) :=
  demo_read s ≫= fun ms => if String.eqb (demo_text ms) s then Some ms else None.
Lemma demo_parse_text ms : demo_parse (demo_text ms) = Some ms.
Proof.
  unfold demo_parse. assert (demo_read (demo_text ms) = Some ms) as ->.
  { destruct ms as [|m ms]; [done|]. unfold demo_read. set (text := demo_text (m :: ms)).
    assert (String.eqb text EMPTY_OBJECT = false) as ->.
    { apply String.eqb_neq. unfold text, demo_text, EMPTY_OBJECT. intros H.
      by destruct (encode (map member_code (m :: ms))). }
    unfold text, demo_text. change ("{" +:+ ?s) with (String "{" s). cbv beta iota.
    rewrite of_braced_bits. simpl (Some _ ≫= _). rewrite decode_encode. simpl (_ <$> Some _). f_equal.
    exact (members_of_codes (m :: ms)). }
  simpl. by rewrite String.eqb_refl.
Qed.
Lemma braced_not_blank s : trims_empty ("{" +:+ s +:+ "}}}") = false.
Proof.
  unfold trims_empty, trim. set (l := bytes ("{" +:+ s +:+ "}}}")).
  assert (l = 123 :: bytes s ++ [125; 125; 125])%Z%list as ->.
  { unfold l. change (bytes ("{" +:+ s +:+ "}}}")) with (123%Z :: bytes (s +:+ "}}}")). f_equal.
    unfold bytes. induction s as [|a s IH]; [done|]. simpl. f_equal. exact IH. }
  change (trim_start_fuel (length (123%Z :: bytes s ++ [125; 125; 125]%Z)) (123%Z :: bytes s ++ [125; 125; 125]%Z))
    with (123%Z :: bytes s ++ [125; 125; 125]%Z)%list.
  set (r := rev (123%Z :: bytes s ++ [125; 125; 125]%Z)).
  assert (r = 125 :: 125 :: 125 :: rev (123 :: bytes s))%Z%list as Hr.
  { unfold r. change (123%Z :: bytes s ++ [125; 125; 125]%Z)%list with ((123%Z :: bytes s) ++ [125; 125; 125]%Z)%list.
    by rewrite rev_app_distr. }
  rewrite Hr. change (trim_end_fuel (length (123%Z :: bytes s ++ [125; 125; 125]%Z)) (125 :: 125 :: 125 :: rev (123 :: bytes s))%Z)
    with (125 :: 125 :: 125 :: rev (123 :: bytes s))%Z. rewrite <- Hr. unfold r. rewrite rev_involutive. done.
Qed.

#[global] Instance demo_tree : SyntaxTree := {|
  tree := list member;
  parse_tree := demo_parse;
  tree_text := demo_text;
  root_object := Some;
  properties := map normal;
  apply_edit e ms := edited (edit_map output_value e) (map normal ms);
|}.

Lemma map_fixed {A} (f : A -> A) l : map f l = l <-> Forall (fun x => f x = x) l.
Proof.
  induction l as [|x l IH]; simpl; [done|]. rewrite Forall_cons, <- IH. split; [by intros [= -> ->]|].
  by intros [-> ->].
Qed.
Lemma normal_edit e ms : map normal ms = ms -> map normal (edited e ms) = edited e ms.
Proof.
  intros Hn%map_fixed.
  apply map_fixed. assert (forall v, normal_node (node_of v) = node_of v) as Hv by (by intros []).
  assert (forall name v, normal (property name v) = property name v) as Hp.
  { intros name v. unfold normal, with_node, property. simpl. by rewrite Hv. }
  assert (forall f m, normal m = m -> normal (with_elements f m) = with_elements f m) as He.
  { intros f [name [l|v]]; unfold normal, with_elements, with_node; simpl; [done|]. done. }
  destruct e as [i v|i|i name v|name v|i v|i j]; simpl.
  - apply Forall_alter; [done|]. intros m _ _. unfold normal, with_node. simpl. by rewrite Hv.
  - by apply Forall_delete.
  - apply Forall_app. split; [by apply Forall_take|]. constructor; [done|by apply Forall_drop].
  - apply Forall_app. split; [done|]. by constructor.
  - apply Forall_alter; [done|]. intros m _ Hm. by apply He.
  - apply Forall_alter; [done|]. intros m _ Hm. by apply He.
Qed.
Lemma normal_normal ms : map normal (map normal ms) = map normal ms.
Proof.
  rewrite map_map. apply map_ext. intros [name [l|[[]|]]]; done.
Qed.
Lemma edit_map_output e : edit_map output_value (edit_map input_value e) = e.
Proof. destruct e; simpl; by rewrite ?output_input. Qed.
Lemma demo_text_bom ms : strip_prefix bom (demo_text ms) = None.
Proof. by destruct ms. Qed.
Lemma demo_text_not_blank ms : trims_empty (demo_text ms) = false.
Proof. destruct ms; [done|]. apply braced_not_blank. Qed.

#[global] Instance demo_tree_laws : SyntaxTreeLaws demo_tree.
Proof.
  refine {| bare := fun _ => True |}; simpl; try done.
  - intros text t. unfold demo_parse. destruct (demo_read text) as [ms|]; simpl; [|done].
    destruct (String.eqb_spec (demo_text ms) text); [|done]. by intros [= <-].
  - intros e t _. rewrite edit_map_output. apply normal_edit, normal_normal.
  - intros t m l (m' & -> & _)%list_elem_of_fmap. by destruct m' as [name [l'|[[]|]]].
  - intros t _. exists t. by rewrite demo_parse_text.
  - intros t _. apply demo_text_not_blank.
  - intros t u _ _. apply demo_text_bom.
  - intros e t _ _. apply demo_text_bom.
  - exists []. split; [|done]. done.
  - intros t _ _ Ht. by destruct t.
Qed.
