(* ===== verification/VsCodeSettings.v ===== *)
(** * VS Code's [settings.json] ([crates/agent/src/provider/vscode/settings.rs])

    Under [githubModels] the daemon sets Copilot Chat's CAPI override in the user's
    [settings.json], a JSONC file it edits in place through a lossless syntax tree
    ([SyntaxTree]): only the override and the two entries of the ignore list change,
    and a sidecar records what removal must restore. *)

From S2P Require Import Prelude Str Json Fs Plan Config JsonMerge Reconcile Net Http Routes.
From S2P Require Import Shared Planner ManagedFiles LoopbackFiles SyntaxTree.

(** The sidecar's printer, [serde_json::to_vec_pretty] of a [SettingsState], and the
    line and column of [serde_json]'s error for text that is not JSON. *)
Definition SETTINGS_STATE_VERSION : N := 2.
Record SettingsState : Type := {
  st_version : N;
  st_created : bool;
  st_override_before : option value;
  st_added_ignored : list string;
  st_ignored_created : bool;
}.
Class SettingsPrinter : Type := {
  state_to_bytes : SettingsState -> string;
  json_error_position : string -> nat * nat;
}.

Module VsCodeSettings.
Definition DISPLAY_NAME : string := "VS Code".
Definition OVERRIDE_KEY : string := "github.copilot.advanced.debug.overrideCapiUrl".
Definition CAPI_ALIAS_KEY : string := "github.copilot.internal.capiUrl".
Definition IGNORED_SETTINGS_KEY : string := "settingsSync.ignoredSettings".
Definition DESCRIPTION : string := "settings".
Definition own_entries : list string := [OVERRIDE_KEY; CAPI_ALIAS_KEY].

Definition override_url (listen : SocketAddr) (pairing : string) : string :=
  "http://" +:+ fmt_socket listen +:+ CAPI_ROUTE +:+ "/" +:+ pairing.

Inductive SettingsConflict : Type := Parse | NotAnObject | IgnoredNotArray | DuplicateKey.
Inductive Removal : Type := Unchanged | Write (text : string) | Delete.

(** ** Looking at the properties *)

Definition named (key : string) (m : member) : bool := bool_decide (m_name m = Some key).
(** [object.get(key)], by its index. *)
Fixpoint find_property (key : string) (ms : list member) : option nat :=
  match ms with
  | [] => None
  | m :: ms => if named key m then Some 0%nat else S <$> find_property key ms
  end.
Definition count_named (key : string) (ms : list member) : nat := length (retain (named key) ms).
(** [to_serde_value] of a property's value. *)
Definition node_value (n : node) : option value :=
  match n with Elements l => Array <$> mapM id l | Leaf v => v end.
Definition node_elements (n : node) : option (list (option value)) :=
  match n with Elements l => Some l | Leaf _ => None end.
Definition property_value (key : string) (ms : list member) : option value :=
  find_property key ms ≫= fun i => ms !! i ≫= fun m => node_value (m_node m).
(** [object.array_value(key)]: where it is, and its elements. *)
Definition array_value (key : string) (ms : list member) : option (nat * list (option value)) :=
  find_property key ms ≫= fun i => ms !! i ≫= fun m =>
    (fun l => (i, l)) <$> node_elements (m_node m).
Definition is_string (element : option value) (text : string) : bool :=
  bool_decide (element ≫= Json.as_str = Some text).
Definition is_own (element : option value) : bool := any (is_string element) own_entries.

(** ** URLs the daemon writes *)

Definition split_bom (text : string) : string * string :=
  match strip_prefix bom text with Some rest => (bom, rest) | None => ("", text) end.

(** [rest.split_at(rest.find('/').unwrap_or(rest.len()))]. *)
Definition split_authority (rest : string) : string * string :=
  match split_once slash rest with
  | Some (authority, path) => (authority, String slash path)
  | None => (rest, "")
  end.
Definition is_daemon_capi_url (url : string) : bool :=
  match strip_prefix "http://" url with
  | None => false
  | Some rest =>
      let '(authority, path) := split_authority rest in
      let loopback :=
        is_some_and (fun address => ip_is_loopback (sa_ip address)) (parse_socket authority)
        || is_some_and (fun '(host, _) => eq_ignore_ascii_case host "localhost")
             (rsplit_once ":" authority) in
      loopback && is_some_and (fun tail => starts_with "/" tail && Nat.ltb 1 (String.length tail))
                    (strip_prefix CAPI_ROUTE path)
  end.

(** ** What is edited *)

Definition set_override (url : string) (ms : list member) : list (edit value) :=
  match find_property OVERRIDE_KEY ms with
  | Some i => [SetProperty i (VString url)]
  | None => [InsertProperty 0 OVERRIDE_KEY (VString url)]
  end.
Definition create_ignored (inserted : nat) (ms : list member) : list (edit value) :=
  [InsertProperty inserted IGNORED_SETTINGS_KEY (vstrings own_entries)].
Definition holds_entry (entry : string) (ms : list member) : bool :=
  match array_value IGNORED_SETTINGS_KEY ms with
  | Some (_, elements) => any (fun element => is_string element entry) elements
  | None => false
  end.
Definition append_entry (entry : string) (ms : list member) : list (edit value) :=
  match array_value IGNORED_SETTINGS_KEY ms with
  | Some (i, _) => if holds_entry entry ms then [] else [AppendElement i (VString entry)]
  | None => []
  end.
Definition only_own_entries (ms : list member) : bool :=
  match array_value IGNORED_SETTINGS_KEY ms with
  | Some (_, elements) => forallb is_own elements
  | None => false
  end.

Definition restore_override (restore : option value) (ms : list member) : list (edit value) :=
  match find_property OVERRIDE_KEY ms, restore with
  | Some i, Some v => [SetProperty i v]
  | Some i, None => [RemoveProperty i]
  | None, Some v => [AppendProperty OVERRIDE_KEY v]
  | None, None => []
  end.
(** The elements to remove, as the earlier removals move them. *)
Fixpoint removals (entries : list string) (i j : nat) (elements : list (option value))
  : list (edit value) :=
  match elements with
  | [] => []
  | element :: elements =>
      if any (is_string element) entries
      then RemoveElement i j :: removals entries i j elements
      else removals entries i (S j) elements
  end.
Definition remove_entries (entries : list string) (ms : list member) : list (edit value) :=
  match array_value IGNORED_SETTINGS_KEY ms with
  | Some (i, elements) => removals entries i 0 elements
  | None => []
  end.
Definition drop_emptied (ms : list member) : list (edit value) :=
  match array_value IGNORED_SETTINGS_KEY ms with
  | Some (i, []) => [RemoveProperty i]
  | _ => []
  end.

(** ** Editing the tree *)

Section with_tree.
Context {P : Printers} {T : SyntaxTree}.

Definition run_edits (es : list (edit value)) (t : tree) : tree :=
  fold_left (fun t e => apply_edit (edit_map input_value e) t) es t.
(** The edits an operation makes, seeing the properties as they are. *)
Definition edited_by (f : list member -> list (edit value)) (t : tree) : tree :=
  run_edits (f (properties t)) t.

Definition parse_object (text : string) : result tree SettingsConflict :=
  match parse_tree text with
  | None => Err Parse
  | Some root =>
      match root_object root with
      | None => Err NotAnObject
      | Some object =>
          let ms := properties object in
          if any (fun key => Nat.ltb 1 (count_named key ms)) [OVERRIDE_KEY; IGNORED_SETTINGS_KEY]
          then Err DuplicateKey
          else if is_some (find_property IGNORED_SETTINGS_KEY ms)
                  && is_none (array_value IGNORED_SETTINGS_KEY ms)
          then Err IgnoredNotArray
          else Ok object
      end
  end.

(** The ignore list with both entries: what was appended, whether it was created. *)
Definition extend_ignored (inserted : nat) (t : tree)
  : result (tree * list string * bool) SettingsConflict :=
  if is_none (find_property IGNORED_SETTINGS_KEY (properties t))
  then Ok (edited_by (create_ignored inserted) t, own_entries, true)
  else match array_value IGNORED_SETTINGS_KEY (properties t) with
       | None => Err IgnoredNotArray
       | Some _ =>
           Ok (fold_left (fun '(t, appended) entry =>
                 (edited_by (append_entry entry) t,
                  if holds_entry entry (properties t) then appended else (appended ++ [entry])%list))
                 own_entries (t, []), false)
       end.

(** What removal needs afterwards. *)
Definition next_state (url : string) (absent : bool) (existing : option value)
    (appended : list string) (created_now only_ours : bool) (state : option SettingsState)
  : SettingsState :=
  match state with
  | Some previous =>
      {| st_version := SETTINGS_STATE_VERSION;
         st_created := st_created previous || absent;
         st_override_before := st_override_before previous;
         st_added_ignored := fold_left (fun added entry =>
           if bool_decide (entry ∈ added) then added else (added ++ [entry])%list)
           appended (st_added_ignored previous);
         st_ignored_created := st_ignored_created previous || created_now |}
  | None =>
      let ours := is_some_and (fun v => String.eqb v url || is_daemon_capi_url v)
                    (existing ≫= Json.as_str) in
      {| st_version := SETTINGS_STATE_VERSION;
         st_created := absent;
         st_override_before := if ours then None else existing;
         st_added_ignored := if ours then own_entries else appended;
         st_ignored_created := created_now || (ours && only_ours) |}
  end.

(** An absent or blank file is edited as an empty object. *)
Definition source_of (text : option string) : string :=
  match text with
  | Some text => if trims_empty text then EMPTY_OBJECT else text
  | None => EMPTY_OBJECT
  end.
Definition edit_settings (text : option string) (url : string) (state : option SettingsState)
  : result (string * SettingsState) SettingsConflict :=
  let '(mark, text) :=
    match text with
    | Some text => let '(mark, rest) := split_bom text in (mark, Some rest)
    | None => ("", None)
    end in
  let? object := parse_object (source_of text) in
  let existing := find_property OVERRIDE_KEY (properties object) in
  let existing_value := property_value OVERRIDE_KEY (properties object) in
  let object := edited_by (set_override url) object in
  let inserted := if is_some existing then 0%nat else 1%nat in
  let? (object, appended, created_now) := extend_ignored inserted object in
  let only_ours := only_own_entries (properties object) in
  Ok (mark +:+ tree_text object,
      next_state url (is_none text) existing_value appended created_now only_ours state).

(** What removal restores: the override's earlier value, the entries that come out
    of the ignore list, whether an emptied list goes; [None] when nothing is ours. *)
Definition to_restore (state : option SettingsState) (own_url : option string) (ms : list member)
  : option (option value * list string * bool) :=
  match state with
  | Some state => Some (st_override_before state, st_added_ignored state, st_ignored_created state)
  | None =>
      if is_some_and (fun v => bool_decide (own_url = Some v) || is_daemon_capi_url v)
           (property_value OVERRIDE_KEY ms ≫= Json.as_str)
      then Some (None, own_entries, true) else None
  end.
Definition restored (restore : option value) (entries : list string) (drop_empty : bool) (t : tree)
  : tree :=
  let t := edited_by (restore_override restore) t in
  let t := edited_by (remove_entries entries) t in
  if drop_empty then edited_by drop_emptied t else t.

Definition remove_settings (original : string) (state : option SettingsState)
    (own_url : option string) : result Removal SettingsConflict :=
  let '(mark, text) := split_bom original in
  if trims_empty text
  then Ok (if is_some_and st_created state then Delete else Unchanged)
  else match parse_object text with
       | Err conflict => if is_some state then Err conflict else Ok Unchanged
       | Ok object =>
           match to_restore state own_url (properties object) with
           | None => Ok Unchanged
           | Some (restore, entries, drop_empty) =>
               let body := tree_text (restored restore entries drop_empty object) in
               let remaining := mark +:+ body in
               if is_some_and st_created state && String.eqb (drop_whitespace body) "{}"
               then Ok Delete
               else Ok (if String.eqb remaining original then Unchanged else Write remaining)
           end
       end.

(** ** The sidecar *)

Definition as_bool (v : value) : option bool := match v with VBool b => Some b | _ => None end.
Definition as_u32 (v : value) : option N :=
  match v with Number (PosInt n) => if (n <=? 4294967295)%N then Some n else None | _ => None end.
Definition as_strings (v : value) : option (list string) := as_array v ≫= mapM Json.as_str.

(** [serde_json::from_value::<SettingsState>] of an object: every field is known and
    of its type, and all but [overrideBefore], which keeps an explicit null, are there. *)
Definition state_fields : list string :=
  ["version"; "created"; "overrideBefore"; "addedIgnored"; "ignoredCreated"].
Definition settings_state_from_value (v : value) : option SettingsState :=
  as_object v ≫= fun m =>
  if forallb (fun '(key, _) => bool_decide (key ∈ state_fields)) (btree_iter m) then
    (m !! "version" ≫= as_u32) ≫= fun version =>
    (m !! "created" ≫= as_bool) ≫= fun created =>
    (m !! "addedIgnored" ≫= as_strings) ≫= fun added =>
    (m !! "ignoredCreated" ≫= as_bool) ≫= fun ignored_created =>
    Some {| st_version := version; st_created := created;
            st_override_before := m !! "overrideBefore";
            st_added_ignored := added; st_ignored_created := ignored_created |}
  else None.
(** [serde_json::from_value::<LegacyMergeState>]: by name, or by position. *)
Definition legacy_from_value (v : value) : option (bool * value) :=
  match v with
  | Object m =>
      (m !! "created" ≫= as_bool) ≫= fun created =>
      m !! "before" ≫= fun before => Some (created, before)
  | Array [created; before] => as_bool created ≫= fun created => Some (created, before)
  | _ => None
  end.

Section with_codecs.
Context {C : JsonCodec} {S : SettingsPrinter}.

Definition read_state (bytes : string) : option SettingsState :=
  result_ok (json_from_slice bytes) ≫= fun v =>
  if is_some (get "version" v)
  then settings_state_from_value v ≫= fun state =>
       if (st_version state =? SETTINGS_STATE_VERSION)%N then Some state else None
  else
    legacy_from_value v ≫= fun '(created, before) =>
    let before_ignored := get IGNORED_SETTINGS_KEY before in
    let held entry := is_some_and (fun entries => bool_decide (VString entry ∈ entries))
                        (before_ignored ≫= as_array) in
    Some {| st_version := SETTINGS_STATE_VERSION; st_created := created;
            st_override_before := get OVERRIDE_KEY before;
            st_added_ignored := retain (fun entry => negb (held entry)) own_entries;
            st_ignored_created := is_none before_ignored |}.

Definition unreadable_sidecar (state_p : path) (bytes : string) : string :=
  let position :=
    match json_from_slice bytes with
    | Err _ => let '(line, column) := json_error_position bytes in
               " (line " +:+ fmt_nat line +:+ ", column " +:+ fmt_nat column +:+ ")"
    | Ok _ => ""
    end in
  "parse " +:+ DISPLAY_NAME +:+ " " +:+ DESCRIPTION +:+ " state from " +:+ display state_p
  +:+ ": not a valid settings state" +:+ position
  +:+ "; fix it, or delete it (the override's earlier value is then not restored)".

Definition read_optional (s : fs) (p : path) : planning (option string) :=
  let* contents := attempt (read s p) in
  match contents with
  | Ok contents => st_ret (Some contents)
  | Err NotFound => st_ret None
  | Err e => st_err (context ("read " +:+ display p) (io_kind_message e))
  end.

Definition read_sidecar (s : fs) (state_p : path) : planning (option string * option SettingsState) :=
  let* bytes := read_optional s state_p in
  match bytes with
  | None => st_ret (None, None)
  | Some contents =>
      let text := default contents (strip_prefix bom contents) in
      match read_state text with
      | Some state => st_ret (bytes, Some state)
      | None => st_err (unreadable_sidecar state_p text)
      end
  end.

(** ** Planning *)

Definition conflict (s : fs) (p : path) : planning unit :=
  modify (record s DISPLAY_NAME DESCRIPTION "conflict" p).

(** The file as text, [Err] when it is not UTF-8. *)
Definition as_text (contents : string) : result string SettingsConflict :=
  if utf8_valid contents then Ok contents else Err Parse.

Definition override_in_place (s : fs) (p : path) (pl : ReconcilePlan) : bool * ReconcilePlan :=
  let '(bytes, pl') := read_optional s p pl in
  (match bytes with
   | Ok (Some bytes) =>
       match as_text bytes with
       | Ok text =>
           match parse_object (snd (split_bom text)) with
           | Ok object => is_some_and is_daemon_capi_url
                            (property_value OVERRIDE_KEY (properties object) ≫= Json.as_str)
           | Err _ => false
           end
       | Err _ => false
       end
   | Ok None | Err _ => false
   end, pl').

(** What becomes of the file when the managed keys go. *)
Definition removal_of (contents : string) (state : option SettingsState) (own_url : option string)
  : result Removal SettingsConflict :=
  match as_text contents with
  | Ok text => remove_settings text state own_url
  | Err conflict => if is_some state then Err conflict else Ok Unchanged
  end.
Definition unchanged_when (sidecar : option string) (s : fs) (p : path) : planning unit :=
  if is_some sidecar then modify (record s DISPLAY_NAME DESCRIPTION "unchanged" p) else st_ret tt.
Definition drop_sidecar (sidecar : option string) (s : fs) (state_p : path) : planning unit :=
  if is_some sidecar
  then st_map_err (fun e => context ("remove " +:+ display state_p) (io_kind_message e))
         (remove_file s state_p)
  else st_ret tt.

Definition remove (s : fs) (p state_p : path) (proxy : option (SocketAddr * string)) : planning unit :=
  let* (sidecar, state) := read_sidecar s state_p in
  let* existing := attempt (read_optional s p) in
  match existing with
  | Err e => if is_none state then st_ret tt else st_err e
  | Ok existing =>
      let own_url := (fun '(listen, pairing) => override_url listen pairing) <$> proxy in
      match existing with
      | None => unchanged_when sidecar s p ;* drop_sidecar sidecar s state_p
      | Some contents =>
          match removal_of contents state own_url with
          | Err _ => conflict s p
          | Ok Unchanged => unchanged_when sidecar s p ;* drop_sidecar sidecar s state_p
          | Ok (Write text) =>
              modify (record_diff DISPLAY_NAME DESCRIPTION "update" p None None) ;*
              write_file s p text (default FILE_MODE (current_mode s p)) ;*
              drop_sidecar sidecar s state_p
          | Ok Delete =>
              modify (record s DISPLAY_NAME DESCRIPTION "remove" p) ;*
              st_map_err (fun e => context ("remove " +:+ display p) (io_kind_message e))
                (remove_file s p) ;*
              drop_sidecar sidecar s state_p
          end
      end
  end.

(** The file with the override, and its sidecar, which is written first. *)
Definition write_settings (s : fs) (p state_p : path) (text sidecar : option string)
    (edited : string) (new_state : SettingsState) : planning unit :=
  let looser := grants_beyond s p FILE_MODE in
  let action := match text with
                | None => "create"
                | Some text => if String.eqb text edited && negb looser then "unchanged" else "update"
                end in
  let state_bytes := state_to_bytes new_state +:+ line_feed in
  (if negb (bool_decide (sidecar = Some state_bytes)) || grants_beyond s state_p FILE_MODE
   then write_file s state_p state_bytes FILE_MODE else st_ret tt) ;*
  if String.eqb action "unchanged"
  then modify (record s DISPLAY_NAME DESCRIPTION action p)
  else modify (record_diff DISPLAY_NAME DESCRIPTION action p None None) ;*
       write_file s p edited FILE_MODE.

Definition active (configured : option (VsCodeConfig * option LlmGatewayConfig)) : bool :=
  match configured with
  | Some (config, Some gateway) =>
      bool_decide (vs_copilot_chat config = GithubModels) && is_some (gw_proxy_url gateway)
  | _ => false
  end.

Definition plan (s : fs) (p : path) (proxy : option (SocketAddr * string))
    (configured : option (VsCodeConfig * option LlmGatewayConfig)) : planning unit :=
  let state_p := state_path p in
  if negb (active configured) then remove s p state_p proxy
  else match proxy with
  | None =>
      let* closed := match configured with
                     | Some (_, Some gateway) => fail_closed gateway (override_in_place s p)
                     | _ => st_ret false
                     end in
      if closed : bool then st_ret tt
      else modify (set_inactive FAIL_OPEN_REASON) ;* remove s p state_p None
  | Some (listen, pairing) =>
      ensure_parent s p ;*
      let* existing := read_optional s p in
      let* (sidecar, state) := read_sidecar s state_p in
      let edited :=
        match existing with
        | Some contents =>
            let? text := as_text contents in
            edit_settings (Some text) (override_url listen pairing) state
        | None => edit_settings None (override_url listen pairing) state
        end in
      match edited with
      | Ok (edited, new_state) => write_settings s p state_p existing sidecar edited new_state
      | Err _ => conflict s p
      end
  end.
End with_codecs.
End with_tree.
End VsCodeSettings.

(** ** What the plan may do *)

(** The settings file and its sidecar only; the report shows no contents, but of a
    file that is removed. *)
Definition settings_kind (files : list path) (e : effect) : Prop :=
  match e with Change c => in_files files c | Show c => dc_action c = "remove" \/ hidden c end.
Lemma settings_kind_files files e : settings_kind files e -> on_files (in_files files) e.
Proof. by destruct e. Qed.

Section plans.
Import VsCodeSettings.
Context {P : Printers} {T : SyntaxTree} {C : JsonCodec} {S : SettingsPrinter}.
Variables (s : fs) (p : path) (files : list path).
Hypothesis files_p : p ∈ files.
Hypothesis files_state : state_path p ∈ files.
Let ok := settings_kind files.

Lemma read_optional_looks q : looks s (VsCodeSettings.read_optional s q).
Proof. intros k. unfold VsCodeSettings.read_optional. plans_step. destruct a as [c|[]]; solve_plans. Qed.
Lemma read_sidecar_looks q : looks s (read_sidecar s q).
Proof.
  intros k. unfold read_sidecar. plans_step; [apply read_optional_looks|]. solve_plans.
Qed.
Lemma in_place_looks k pl b pl' :
  faithful s pl -> override_in_place s p pl = (b, pl') -> grows s k pl pl'.
Proof.
  intros Hf H. unfold override_in_place in H.
  destruct (VsCodeSettings.read_optional s p pl) as [r pl1] eqn:E. simplify_eq.
  by destruct (read_optional_looks p k _ _ _ Hf E).
Qed.
Lemma line_plans action : scoped s ok (modify (record s DISPLAY_NAME DESCRIPTION action p)).
Proof.
  apply plans_modify. intros pl Hf. apply grows_record; [|done].
  destruct (String.eqb_spec action "remove") as [->|]; [by left|]. right. apply hidden_line.
Qed.
Lemma redacted_plans action :
  scoped s ok (modify (record_diff DISPLAY_NAME DESCRIPTION action p None None)).
Proof. apply plans_modify. intros pl Hf. apply grows_record_diff; [|done]. right. apply hidden_line. Qed.
Lemma write_plans q c m : q = p \/ q = state_path p -> scoped s ok (write_file s q c m).
Proof. intros [->| ->]; by apply plans_write_file. Qed.
Lemma delete_plans {E} (f : io_kind -> E) q :
  q = p \/ q = state_path p -> scoped s ok (st_map_err f (remove_file s q)).
Proof. intros [->| ->]; apply plans_map_err; by apply plans_remove_file. Qed.
Hint Resolve line_plans redacted_plans write_plans delete_plans : planning.

Lemma drop_sidecar_plans sidecar : scoped s ok (drop_sidecar sidecar s (state_path p)).
Proof. unfold drop_sidecar. destruct (is_some sidecar); eauto with planning. Qed.
Lemma unchanged_plans sidecar : scoped s ok (unchanged_when sidecar s p).
Proof. unfold unchanged_when. destruct (is_some sidecar); eauto with planning. Qed.
Hint Resolve drop_sidecar_plans unchanged_plans : planning.

Lemma remove_plans proxy : scoped s ok (remove s p (state_path p) proxy).
Proof.
  unfold remove. plans_step; [apply read_sidecar_looks|]. destruct a as [sidecar state].
  plans_step; [apply plans_attempt, read_optional_looks|].
  destruct a as [[contents|]|e]; [|plans_step; eauto with planning|destruct (is_none state); eauto with planning].
  destruct (removal_of _ _ _) as [[|text|]|]; [..|eauto with planning]; repeat (plans_step; [eauto with planning|]);
    eauto with planning.
Qed.
Lemma settings_plans proxy configured : scoped s ok (plan s p proxy configured).
Proof.
  unfold plan. destruct (negb _); [apply remove_plans|]. destruct proxy as [[listen pairing]|].
  - plans_step; [apply ensure_parent_looks|]. plans_step; [apply read_optional_looks|].
    plans_step; [apply read_sidecar_looks|]. match goal with x : _ * option SettingsState |- _ => destruct x as [sidecar state] end.
    match goal with |- plans _ _ (match ?edit with _ => _ end) _ => destruct edit as [[edited new_state]|] end;
      [|unfold conflict; eauto with planning].
    unfold write_settings. plans_step; [destruct (_ || _); eauto with planning|].
    destruct (String.eqb _ _); [eauto with planning|]. plans_step; eauto with planning.
  - plans_step.
    + destruct configured as [[config [gateway|]]|]; [|solve_plans..].
      apply fail_closed_looks. intros. by eapply in_place_looks.
    + destruct a; [solve_plans|]. plans_step; [solve_plans|]. apply remove_plans.
Qed.
End plans.

(** A file the daemon created is shown when it is removed: the line of the report has
    the file as it was, with the override and the pairing in it, where every other
    line of this file shows no contents. *)
Lemma deleted_settings_are_shown `{Printers, SyntaxTree, JsonCodec, SettingsPrinter}
    s p proxy pl pl0 sidecar st contents :
  VsCodeSettings.read_sidecar s (state_path p) default_plan = (Ok (sidecar, st), pl0) ->
  Plan.read_optional s p = Ok (Some contents) ->
  VsCodeSettings.removal_of contents st
    ((fun '(listen, pairing) => VsCodeSettings.override_url listen pairing) <$> proxy)
    = Ok VsCodeSettings.Delete ->
  run_planning (VsCodeSettings.remove s p (state_path p) proxy) = Ok pl ->
  exists c, c ∈ changes (report pl) /\ dc_action c = "remove" /\
            dc_before c = Some (from_utf8_lossy contents).
Proof.
  intros Hside Hread Hdelete Hrun.
  destruct (read_sidecar_looks s (state_path p) (fun _ => True) _ _ _ (faithful_default s) Hside) as [Hg _].
  destruct (read_planned s p pl0 (Some contents) (grows_faithful _ _ _ _ Hg) Hread) as (pl1 & Hr1 & _ & Ho).
  assert (VsCodeSettings.read_optional s p pl0 = (Ok (Some contents), pl1)) as Hopt
    by (unfold VsCodeSettings.read_optional, st_bind, attempt; by rewrite Hr1).
  unfold run_planning, VsCodeSettings.remove in Hrun. unfold st_bind at 1 in Hrun. rewrite Hside in Hrun.
  unfold st_bind at 1 in Hrun. unfold attempt in Hrun. rewrite Hopt, Hdelete in Hrun.
  unfold st_bind at 1, modify at 1, record in Hrun. simpl (String.eqb _ _) in Hrun. cbv iota in Hrun.
  assert (read s p pl1 = (Ok contents, pl1)) as Hr by (unfold read; by rewrite Ho).
  rewrite Hr in Hrun. simpl in Hrun. set (shown_plan := record_diff _ _ _ _ _ _ pl1) in Hrun.
  assert (exists c, c ∈ changes (report shown_plan) /\ dc_action c = "remove" /\
            dc_before c = Some (from_utf8_lossy contents)) as (c & Hc & Hrest).
  { eexists. split; [apply elem_of_app; right; by apply list_elem_of_singleton|done]. }
  exists c. split; [|done]. clear -Hrun Hc. revert Hrun.
  assert (forall {E} (f : io_kind -> E) q (pl2 : ReconcilePlan),
    c ∈ changes (report pl2) -> c ∈ changes (report (snd (st_map_err f (remove_file s q) pl2)))) as Hkeep.
  { intros E f q pl2 H2. unfold st_map_err, remove_file, st_bind, read.
    destruct (observed pl2 !! q) as [[]|]; [done..|].
    by destruct (Plan.read_optional s q) as [[]|]. }
  unfold st_bind, VsCodeSettings.drop_sidecar.
  match goal with |- context [st_map_err ?f (remove_file s p) shown_plan] =>
    pose proof (Hkeep _ f p shown_plan Hc) as H3;
    destruct (st_map_err f (remove_file s p) shown_plan) as [[u|e] pl3] end; [|done].
  simpl in H3. destruct (is_some sidecar); [|by intros [= <-]].
  match goal with |- context [st_map_err ?f (remove_file s ?q) pl3] =>
    pose proof (Hkeep _ f q pl3 H3) as H4; destruct (st_map_err f (remove_file s q) pl3) as [[u'|e] pl4] end;
    [|done]. by intros [= <-].
Qed.

Section own.
Import VsCodeSettings.

(** The daemon knows its overrides again: the URL it writes for any loopback
    listener and any pairing is recognised as a daemon's, so that neither an edit takes
    it for the user's value, nor a removal without a sidecar leaves it. *)
Theorem own_overrides_are_recognised listen pairing :
  ip_is_loopback (sa_ip listen) = true -> socket_in_range listen -> pairing <> "" ->
  is_daemon_capi_url (override_url listen pairing) = true.
Proof.
  intros Hl Hr Hp. unfold is_daemon_capi_url, override_url.
  set (tail := "/" +:+ pairing).
  rewrite (proj2 (strip_prefix_Some "http://" _ (fmt_socket listen +:+ CAPI_ROUTE +:+ tail)) eq_refl).
  assert (split_authority (fmt_socket listen +:+ CAPI_ROUTE +:+ tail)
          = (fmt_socket listen, CAPI_ROUTE +:+ tail)) as ->.
  { unfold split_authority.
    rewrite (proj2 (split_once_Some slash _ (fmt_socket listen) ("vscode-copilot-capi" +:+ tail)));
      [done|]. split; [done|]. by apply loopback_lacks_slash. }
  rewrite loopback_printed by done. simpl (is_some_and _ (Some listen)). rewrite Hl. simpl orb. cbv iota.
  rewrite (proj2 (strip_prefix_Some CAPI_ROUTE _ tail) eq_refl). by destruct pairing.
Qed.

Definition example_listen (port : Z) : SocketAddr := {| sa_ip := V4 127 0 0 1; sa_port := port |}.

Lemma own_overrides_are_recognised_witness :
  ip_is_loopback (sa_ip (example_listen 8788)) = true /\ socket_in_range (example_listen 8788) /\
  is_daemon_capi_url (override_url (example_listen 8788) "p") = true.
Proof.
  assert (socket_in_range (example_listen 8788)) as H by (unfold socket_in_range, is_octet; simpl; lia).
  split; [done|]. split; [exact H|]. by apply own_overrides_are_recognised.
Defined.
End own.
