(* ===== verification/SettingsEdit.v ===== *)
(** * What editing VS Code's settings does to them

    [edit_settings] and [remove_settings] over any syntax tree that keeps its laws: the
    edit touches the managed keys only, editing again changes no state, and removal
    gives the user's properties back. *)

From S2P Require Import Prelude Str Json Codec Fs Plan Config JsonMerge Reconcile Net Http Routes.
From S2P Require Import Shared Planner ManagedFiles LoopbackFiles SyntaxTree VsCodeSettings.

Module SettingsMembers.
Import VsCodeSettings.

Lemma edited_all_app es1 es2 ms : edited_all (es1 ++ es2) ms = edited_all es2 (edited_all es1 ms).
Proof. apply fold_left_app. Qed.

(** *** Finding a property *)

Lemma find_alter key f i ms :
  (forall m, m_name (f m) = m_name m) -> find_property key (alter f i ms) = find_property key ms.
Proof.
  intros Hf. revert i. induction ms as [|m ms IH]; intros [|i]; try done; simpl.
  - unfold named. by rewrite Hf.
  - change (list_alter f i ms) with (alter f i ms). by rewrite IH.
Qed.
Lemma count_alter key f i ms :
  (forall m, m_name (f m) = m_name m) -> count_named key (alter f i ms) = count_named key ms.
Proof.
  intros Hf. unfold count_named. revert i. induction ms as [|m ms IH]; intros [|i]; try done; simpl.
  - unfold named. by rewrite Hf; case_match.
  - change (list_alter f i ms) with (alter f i ms). destruct (named key m); simpl; by rewrite IH.
Qed.
Lemma with_node_name f m : m_name (with_node f m) = m_name m.
Proof. done. Qed.

Lemma find_lookup key ms i :
  find_property key ms = Some i -> exists m, ms !! i = Some m /\ m_name m = Some key.
Proof.
  revert i. induction ms as [|m ms IH]; intros i; simpl; [done|]. unfold named.
  case_bool_decide as Hn; [intros [= <-]; by exists m|].
  destruct (find_property key ms); [|done]. intros [= <-]. by apply IH.
Qed.
Lemma find_None key ms : find_property key ms = None <-> count_named key ms = 0%nat.
Proof.
  unfold count_named. induction ms as [|m ms IH]; simpl; [done|]. destruct (named key m); simpl; [done|].
  rewrite <- IH. by destruct (find_property key ms).
Qed.
Lemma find_distinct k1 k2 ms i j : k1 <> k2 ->
  find_property k1 ms = Some i -> find_property k2 ms = Some j -> i <> j.
Proof.
  intros Hk Hi Hj ->. apply find_lookup in Hi as (m & Hm & Hn1), Hj as (m' & Hm' & Hn2). congruence.
Qed.

Lemma managed_distinct ms i j :
  find_property OVERRIDE_KEY ms = Some i -> find_property IGNORED_SETTINGS_KEY ms = Some j -> i <> j.
Proof. by apply find_distinct. Qed.

Lemma array_value_Some key ms i l :
  array_value key ms = Some (i, l) <->
  find_property key ms = Some i /\ exists m, ms !! i = Some m /\ m_node m = Elements l.
Proof.
  unfold array_value. destruct (find_property key ms) as [j|]; simpl; [|naive_solver].
  destruct (ms !! j) as [m|] eqn:Em; simpl; [|naive_solver congruence].
  destruct (m_node m) as [l'|v] eqn:En; simpl; [|naive_solver congruence].
  split; [intros [= <- <-]; eauto|]. intros [[= ->] (m' & Hm' & Hl)]. congruence.
Qed.
Lemma property_value_Some key ms i m :
  find_property key ms = Some i -> ms !! i = Some m -> property_value key ms = node_value (m_node m).
Proof. intros Hi Hm. unfold property_value. rewrite Hi. simpl. by rewrite Hm. Qed.

(** A value that can be read is the node it came from. *)
Lemma node_of_value n v : node_value n = Some v -> (forall l, n <> Leaf (Some (Array l))) -> node_of v = n.
Proof.
  intros Hn Hleaf. destruct n as [l|o]; simpl in *.
  - destruct (mapM id l) as [l'|] eqn:E; simplify_eq/=. f_equal. apply mapM_Some_1 in E.
    induction E as [|x y l l' Hx _ IH]; simpl; [done|]. by rewrite IH, <- Hx.
  - subst. destruct v; try done. by destruct (Hleaf l).
Qed.

Lemma alter_same {A} (f : A -> A) i (l : list A) :
  (forall x, l !! i = Some x -> f x = x) -> alter f i l = l.
Proof. revert i. induction l as [|x l IH]; intros [|i] H; simpl; f_equal; [by apply H|by apply IH]. Qed.
Lemma alter_alter {A} (f g : A -> A) i (l : list A) :
  alter f i (alter g i l) = alter (fun x => f (g x)) i l.
Proof. revert i. induction l as [|x l IH]; intros [|i]; simpl; f_equal; try done. apply IH. Qed.
Lemma alter_comm {A} (f g : A -> A) i j (l : list A) :
  i <> j -> alter f i (alter g j l) = alter g j (alter f i l).
Proof.
  revert i j. induction l as [|x l IH]; intros [|i] [|j] H; simpl; f_equal; try done.
  apply IH. congruence.
Qed.
Lemma with_node_same f m : f (m_node m) = m_node m -> with_node f m = m.
Proof. intros H. destruct m. unfold with_node. simpl in *. by rewrite H. Qed.

(** *** Entries of the ignore list *)

Definition holds (entry : string) (l : list (option value)) : bool :=
  any (fun element => is_string element entry) l.
Definition missing (l : list (option value)) : list string :=
  retain (fun entry => negb (holds entry l)) own_entries.
Definition complete (l : list (option value)) : list (option value) :=
  (l ++ map (fun entry => Some (VString entry)) (missing l))%list.

Lemma is_string_entry entry entry' :
  is_string (Some (VString entry)) entry' = true <-> entry = entry'.
Proof. unfold is_string. rewrite bool_decide_eq_true. simpl. naive_solver. Qed.
Lemma holds_app entry l1 l2 : holds entry (l1 ++ l2) = holds entry l1 || holds entry l2.
Proof. apply any_app. Qed.
Lemma missing_spec entry l : entry ∈ missing l <-> entry ∈ own_entries /\ holds entry l = false.
Proof. unfold missing. rewrite elem_of_retain. by rewrite negb_true_iff. Qed.
Lemma complete_holds l entry : entry ∈ own_entries -> holds entry (complete l) = true.
Proof.
  intros He. unfold complete. rewrite holds_app. destruct (holds entry l) eqn:E; [done|]. simpl.
  apply any_true. exists (Some (VString entry)). rewrite is_string_entry. split; [|done].
  apply list_elem_of_fmap. exists entry. split; [done|]. by apply missing_spec.
Qed.
Lemma missing_complete l : missing (complete l) = [].
Proof.
  apply retain_none. intros e He. by rewrite (complete_holds _ _ He).
Qed.
Lemma complete_complete l : complete (complete l) = complete l.
Proof. unfold complete at 1. by rewrite missing_complete, app_nil_r. Qed.

(** Taking out what was put in. *)
Definition matches (entries : list string) (element : option value) : bool := any (is_string element) entries.
Lemma without_missing l :
  retain (fun element => negb (matches (missing l) element)) (complete l) = l.
Proof.
  unfold complete. rewrite retain_app, retain_all, retain_none, app_nil_r; [done|..].
  - intros x Hx. apply list_elem_of_fmap in Hx as (entry & -> & He). apply negb_false_iff, any_true.
    exists entry. split; [done|]. by apply is_string_entry.
  - intros x Hx. apply negb_true_iff, any_false. intros entry [_ He]%missing_spec.
    unfold holds in He. rewrite any_false in He. by apply He.
Qed.

(** *** The managed form of a list of properties *)

Definition entries_property : member := property IGNORED_SETTINGS_KEY (vstrings own_entries).
Definition managed_override (url : string) (ms : list member) : list member :=
  match find_property OVERRIDE_KEY ms with
  | Some i => alter (with_node (fun _ => Leaf (Some (VString url)))) i ms
  | None => property OVERRIDE_KEY (VString url) :: ms
  end.
Definition managed_ignored (inserted : nat) (ms : list member) : list member :=
  match array_value IGNORED_SETTINGS_KEY ms with
  | Some (j, l) => alter (with_elements (fun _ => complete l)) j ms
  | None => (take inserted ms ++ entries_property :: drop inserted ms)%list
  end.
Definition managed (url : string) (ms : list member) : list member :=
  managed_ignored (if is_some (find_property OVERRIDE_KEY ms) then 0 else 1) (managed_override url ms).

(** The documents the edit accepts: [parse_object]'s checks. *)
Record valid (ms : list member) : Prop := {
  valid_override : (count_named OVERRIDE_KEY ms <= 1)%nat;
  valid_ignored : (count_named IGNORED_SETTINGS_KEY ms <= 1)%nat;
  valid_array : find_property IGNORED_SETTINGS_KEY ms = None \/
                is_Some (array_value IGNORED_SETTINGS_KEY ms);
}.

Lemma with_elements_name f m : m_name (with_elements f m) = m_name m.
Proof. done. Qed.
Hint Resolve with_elements_name with_node_name : core.

Lemma array_value_alter key f i ms :
  find_property key ms <> Some i -> (forall m, m_name (f m) = m_name m) ->
  array_value key (alter f i ms) = array_value key ms.
Proof.
  intros Hi Hf. unfold array_value. rewrite find_alter by done.
  destruct (find_property key ms) as [j|]; [|done]. simpl. by rewrite list_lookup_alter_ne by congruence.
Qed.
Lemma array_value_elements key ms j l l' :
  array_value key ms = Some (j, l) ->
  array_value key (alter (with_elements (fun _ => l')) j ms) = Some (j, l').
Proof.
  rewrite !array_value_Some. intros (Hf & m & Hm & Hn). rewrite find_alter by done. split; [done|].
  exists (with_elements (fun _ => l') m). split; [by rewrite list_lookup_alter_eq, Hm|].
  unfold with_elements, with_node. simpl. by rewrite Hn.
Qed.
Lemma array_value_cons key m ms :
  named key m = false ->
  array_value key (m :: ms) = (fun '(j, l) => (S j, l)) <$> array_value key ms.
Proof.
  intros Hm. unfold array_value. simpl. rewrite Hm. destruct (find_property key ms); [|done]. simpl.
  destruct (ms !! n); simpl; [|done]. by destruct (node_elements _).
Qed.
Lemma alter_elements_twice l l' j (ms : list member) :
  alter (with_elements (fun _ => l')) j (alter (with_elements (fun _ => l)) j ms)
  = alter (with_elements (fun _ => l')) j ms.
Proof.
  rewrite alter_alter. apply list_alter_ext; [|done]. intros m _. destruct m as [n []]; done.
Qed.
Lemma alter_node_twice (n n' : node) j (ms : list member) :
  alter (with_node (fun _ => n')) j (alter (with_node (fun _ => n)) j ms)
  = alter (with_node (fun _ => n')) j ms.
Proof. rewrite alter_alter. by apply list_alter_ext. Qed.
Lemma alter_complete key ms j l :
  array_value key ms = Some (j, l) -> complete l = l ->
  alter (with_elements (fun _ => complete l)) j ms = ms.
Proof.
  rewrite array_value_Some. intros (_ & m & Hm & Hn) Hl. apply alter_same. intros m' Hm'.
  simplify_eq. apply with_node_same. by rewrite Hn, Hl.
Qed.

(** Removing elements one by one leaves those that do not match. *)
Lemma removals_spec entries i pre rest ms :
  (exists m, ms !! i = Some m /\ m_node m = Elements (pre ++ rest)) ->
  edited_all (removals entries i (length pre) rest) ms
  = alter (with_elements (fun _ => pre ++ retain (fun x => negb (matches entries x)) rest)%list) i ms.
Proof.
  revert pre ms. induction rest as [|x rest IH]; intros pre ms (m & Hm & Hn); simpl.
  - rewrite app_nil_r in *. symmetry. apply alter_same. intros m' Hm'. simplify_eq.
    apply with_node_same. by rewrite Hn.
  - fold (matches entries x). destruct (matches entries x); simpl.
    + rewrite IH.
      * rewrite alter_alter. apply list_alter_ext; [|done].
        intros m' Hm'. simplify_eq. unfold with_elements, with_node. simpl. by rewrite Hn.
      * exists (with_elements (delete (length pre)) m). split; [by rewrite list_lookup_alter_eq, Hm|].
        unfold with_elements, with_node. simpl. rewrite Hn. f_equal.
        by rewrite delete_middle.
    + replace (S (length pre)) with (length (pre ++ [x])) by (rewrite length_app; simpl; lia).
      rewrite IH, <- app_assoc; [done|]. exists m. by rewrite <- app_assoc.
Qed.
Lemma remove_entries_restores ms j l :
  array_value IGNORED_SETTINGS_KEY ms = Some (j, l) ->
  let ms' := alter (with_elements (fun _ => complete l)) j ms in
  edited_all (remove_entries (missing l) ms') ms' = ms.
Proof.
  intros Ha ms'. unfold remove_entries. unfold ms' at 1. rewrite (array_value_elements _ _ _ _ _ Ha).
  apply array_value_Some in Ha as (_ & m & Hm & Hn).
  rewrite (removals_spec (missing l) j []).
  - simpl. rewrite without_missing. unfold ms'. rewrite alter_elements_twice. apply alter_same.
    intros m' Hm'. simplify_eq. apply with_node_same. by rewrite Hn.
  - exists (with_elements (fun _ => complete l) m). unfold ms'.
    rewrite list_lookup_alter_eq, Hm. split; [done|]. unfold with_elements, with_node. simpl. by rewrite Hn.
Qed.

(** *** Managing again, and giving back *)

(** The four forms of a managed list: the override in place or put first, the ignore
    list extended or put after it. *)
Lemma managed_existing url ms i :
  find_property OVERRIDE_KEY ms = Some i ->
  managed url ms = managed_ignored 0 (alter (with_node (fun _ => Leaf (Some (VString url)))) i ms).
Proof. intros Hi. unfold managed, managed_override. by rewrite Hi. Qed.
Lemma managed_absent url ms :
  find_property OVERRIDE_KEY ms = None ->
  managed url ms = managed_ignored 1 (property OVERRIDE_KEY (VString url) :: ms).
Proof. intros Hi. unfold managed, managed_override. by rewrite Hi. Qed.
Lemma ignored_behind n m ms j l :
  named IGNORED_SETTINGS_KEY m = false -> array_value IGNORED_SETTINGS_KEY ms = Some (j, l) ->
  managed_ignored n (m :: ms) = m :: alter (with_elements (fun _ => complete l)) j ms.
Proof. intros Hm Ha. unfold managed_ignored. by rewrite array_value_cons, Ha by done. Qed.
Lemma ignored_created ms :
  array_value IGNORED_SETTINGS_KEY ms = None -> managed_ignored 0 ms = entries_property :: ms.
Proof. intros Ha. unfold managed_ignored. by rewrite Ha, drop_0. Qed.
Lemma find_behind key m ms :
  named key m = false -> find_property key (m :: ms) = S <$> find_property key ms.
Proof. intros Hm. simpl. by rewrite Hm. Qed.
Lemma count_behind key m ms : named key m = false -> count_named key (m :: ms) = count_named key ms.
Proof. intros Hm. unfold count_named. simpl. by rewrite Hm. Qed.
Lemma count_here key m ms : named key m = true -> count_named key (m :: ms) = S (count_named key ms).
Proof. intros Hm. unfold count_named. simpl. by rewrite Hm. Qed.
Lemma ignored_created_behind m ms :
  named IGNORED_SETTINGS_KEY m = false -> array_value IGNORED_SETTINGS_KEY ms = None ->
  managed_ignored 1 (m :: ms) = m :: entries_property :: ms.
Proof. intros Hm Ha. unfold managed_ignored. by rewrite array_value_cons, Ha by done. Qed.
Lemma array_value_override url ms i :
  find_property OVERRIDE_KEY ms = Some i ->
  array_value IGNORED_SETTINGS_KEY (alter (with_node (fun _ => Leaf (Some (VString url)))) i ms)
  = array_value IGNORED_SETTINGS_KEY ms.
Proof.
  intros Hi. apply array_value_alter; [|done]. intros Hj.
  by destruct (managed_distinct ms i i).
Qed.
Lemma no_array_None ms : valid ms -> array_value IGNORED_SETTINGS_KEY ms = None ->
  find_property IGNORED_SETTINGS_KEY ms = None.
Proof. intros [_ _ [H|[? H]]] Ha; [done|congruence]. Qed.

Lemma managed_again url url' ms : valid ms -> managed url' (managed url ms) = managed url' ms.
Proof.
  intros Hv. destruct (array_value IGNORED_SETTINGS_KEY ms) as [[j l]|] eqn:Ea;
    destruct (find_property OVERRIDE_KEY ms) as [i|] eqn:Ei;
    [rewrite !(managed_existing _ _ _ Ei)|rewrite !(managed_absent _ _ Ei)
    |rewrite !(managed_existing _ _ _ Ei)|rewrite !(managed_absent _ _ Ei)].
  - unfold managed_ignored. rewrite !array_value_override, Ea by done.
    pose proof Ea as (Hj & _)%array_value_Some. assert (i <> j) by (by eapply managed_distinct).
    rewrite (managed_existing _ _ i) by (by rewrite !find_alter).
    unfold managed_ignored. rewrite alter_comm, alter_node_twice by done.
    erewrite array_value_elements by (by rewrite array_value_override).
    by rewrite alter_elements_twice, complete_complete.
  - rewrite !(ignored_behind _ _ _ j l), (managed_existing _ _ 0) by done. simpl.
    rewrite (ignored_behind _ _ _ j (complete l)) by (done || by eapply array_value_elements).
    by rewrite alter_elements_twice, complete_complete.
  - rewrite !ignored_created by (by rewrite array_value_override).
    rewrite (managed_existing _ _ (S i)) by (by rewrite find_behind, find_alter, Ei).
    unfold managed_ignored. simpl. f_equal. apply alter_node_twice.
  - by rewrite !ignored_created_behind.
Qed.

(** What the sidecar remembers of a document: the value the override goes back to and
    the entries that were added. *)
Definition added_entries (ms : list member) : list string :=
  match array_value IGNORED_SETTINGS_KEY ms with Some (_, l) => missing l | None => own_entries end.
Definition restored_members (restore : option value) (entries : list string) (drop_empty : bool)
    (ms : list member) : list member :=
  let ms := edited_all (restore_override restore ms) ms in
  let ms := edited_all (remove_entries entries ms) ms in
  if drop_empty then edited_all (drop_emptied ms) ms else ms.

(** Every value of the override can be read. *)
Definition readable (ms : list member) : Prop :=
  forall i m, find_property OVERRIDE_KEY ms = Some i -> ms !! i = Some m ->
    exists v, node_value (m_node m) = Some v /\ node_of v = m_node m.

Lemma restore_existing url ms i :
  readable ms -> find_property OVERRIDE_KEY ms = Some i ->
  exists v, property_value OVERRIDE_KEY ms = Some v /\
    alter (with_node (fun _ => node_of v)) i (alter (with_node (fun _ => Leaf (Some (VString url)))) i ms)
    = ms.
Proof.
  intros Hr Hi. pose proof Hi as (m & Hm & _)%find_lookup. destruct (Hr i m Hi Hm) as (v & Hv & Hn).
  exists v. rewrite (property_value_Some _ _ _ _ Hi Hm). split; [done|].
  rewrite alter_node_twice. apply alter_same. intros m' Hm'. simplify_eq. by apply with_node_same.
Qed.
Lemma entries_property_restored ms :
  restored_members None own_entries true (property OVERRIDE_KEY Null :: entries_property :: ms) = ms.
Proof. reflexivity. Qed.

Lemma managed_restored url ms :
  valid ms -> readable ms ->
  restored_members (property_value OVERRIDE_KEY ms) (added_entries ms)
    (is_none (find_property IGNORED_SETTINGS_KEY ms)) (managed url ms) = ms.
Proof.
  intros Hv Hr. unfold restored_members, added_entries.
  destruct (array_value IGNORED_SETTINGS_KEY ms) as [[j l]|] eqn:Ea.
  - pose proof Ea as (Hj & _)%array_value_Some. rewrite Hj. simpl (is_none _). cbv iota.
    assert (edited_all (restore_override (property_value OVERRIDE_KEY ms) (managed url ms)) (managed url ms)
            = alter (with_elements (fun _ => complete l)) j ms) as ->.
    + destruct (find_property OVERRIDE_KEY ms) as [i|] eqn:Ei.
      * destruct (restore_existing url ms i Hr Ei) as (v & -> & Hback).
        assert (i <> j) by (by eapply managed_distinct).
        rewrite (managed_existing _ _ _ Ei). unfold managed_ignored.
        rewrite array_value_override, Ea by done.
        unfold restore_override. rewrite !find_alter, Ei by done. simpl.
        rewrite alter_comm by done. by rewrite Hback.
      * rewrite (managed_absent _ _ Ei), (ignored_behind _ _ _ j l) by done.
        unfold property_value. rewrite Ei. done.
    + by apply remove_entries_restores.
  - pose proof (no_array_None _ Hv Ea) as Hn. rewrite Hn. simpl (is_none _). cbv iota.
    destruct (find_property OVERRIDE_KEY ms) as [i|] eqn:Ei.
    + destruct (restore_existing url ms i Hr Ei) as (v & -> & Hback).
      rewrite (managed_existing _ _ _ Ei), ignored_created by (by rewrite array_value_override).
      unfold restore_override. rewrite find_behind, find_alter, Ei by done.
      simpl (S <$> Some i). cbv iota.
      replace (edited_all _ (entries_property :: alter _ i ms)) with (entries_property :: ms);
        [done|simpl; f_equal; symmetry; exact Hback].
    + rewrite (managed_absent _ _ Ei), ignored_created_behind by done. unfold property_value. rewrite Ei. done.
Qed.

(** The managed form is a document the edit accepts. *)
Lemma managed_valid url ms : valid ms -> valid (managed url ms).
Proof.
  intros Hv. pose proof Hv as [Ho Hg _].
  destruct (array_value IGNORED_SETTINGS_KEY ms) as [[j l]|] eqn:Ea;
    destruct (find_property OVERRIDE_KEY ms) as [i|] eqn:Ei;
    [rewrite !(managed_existing _ _ _ Ei)|rewrite !(managed_absent _ _ Ei)
    |rewrite !(managed_existing _ _ _ Ei)|rewrite !(managed_absent _ _ Ei)].
  - unfold managed_ignored. rewrite array_value_override, Ea by done. split; [by rewrite !count_alter..|].
    right. erewrite array_value_elements by (by rewrite array_value_override). done.
  - rewrite (ignored_behind _ _ _ j l) by done. apply find_None in Ei.
    split; [rewrite count_here, count_alter by done; lia|by rewrite count_behind, count_alter|].
    right. rewrite array_value_cons by done. by erewrite array_value_elements.
  - pose proof (proj1 (find_None _ _) (no_array_None _ Hv Ea)) as Hz.
    rewrite ignored_created by (by rewrite array_value_override).
    split; [by rewrite count_behind, count_alter|rewrite count_here, count_alter by done; lia|right; by eexists].
  - pose proof (proj1 (find_None _ _) (no_array_None _ Hv Ea)) as Hz. apply find_None in Ei.
    rewrite ignored_created_behind by done. split; [|rewrite count_behind, count_here by done; lia|right; by eexists].
    rewrite count_here, count_behind by done. lia.
Qed.
End SettingsMembers.

(** ** The edit and the removal, over the tree *)

Section laws.
Import VsCodeSettings SettingsMembers.
Context {P : Printers} {T : SyntaxTree} {L : SyntaxTreeLaws T}.

(** A tree that comes of editing [t], and its properties. *)
Record follows (t u : tree) (ms : list member) : Prop := {
  follows_root : root_object u = Some u;
  follows_properties : properties u = ms;
  follows_bare : bare t -> bare u;
  follows_bom : strip_prefix bom (tree_text t) = None -> strip_prefix bom (tree_text u) = None;
}.
Lemma follows_refl t : root_object t = Some t -> follows t t (properties t).
Proof. by split. Qed.
Lemma follows_run t u ms es : follows t u ms -> follows t (run_edits es u) (edited_all es ms).
Proof.
  unfold run_edits, edited_all. revert u ms. induction es as [|e es IH]; intros u ms [Hr Hp Hb Hm]; [done|].
  apply IH. split; [by apply edit_root|by rewrite edit_properties, Hp|..].
  - intros Ht. by apply bare_edit, Hb.
  - intros Ht. by apply edit_text_bom, Hm.
Qed.
Lemma follows_edit t u ms f : follows t u ms -> follows t (edited_by f u) (edited_all (f ms) ms).
Proof. intros H. unfold edited_by. rewrite (follows_properties _ _ _ H). by apply follows_run. Qed.

Lemma parse_object_Ok text object : parse_object text = Ok object <->
  exists root, parse_tree text = Some root /\ root_object root = Some object /\ valid (properties object).
Proof.
  unfold parse_object. destruct (parse_tree text) as [root|]; [|naive_solver].
  destruct (root_object root) as [u|] eqn:Er; [|naive_solver]. simpl.
  assert (forall key, Nat.ltb 1 (count_named key (properties u)) = false <->
                      (count_named key (properties u) <= 1)%nat) as Hle
    by (intros key; rewrite Nat.ltb_ge; done).
  destruct (Nat.ltb 1 (count_named OVERRIDE_KEY (properties u))) eqn:E1; simpl.
  { split; [done|]. intros (? & [= <-] & ? & [Ho _ _]). simplify_eq. apply Hle in Ho. congruence. }
  destruct (Nat.ltb 1 (count_named IGNORED_SETTINGS_KEY (properties u))) eqn:E2; simpl.
  { split; [done|]. intros (? & [= <-] & ? & [_ Ho _]). simplify_eq. apply Hle in Ho. congruence. }
  apply Hle in E1, E2.
  destruct (find_property IGNORED_SETTINGS_KEY (properties u)) as [j|] eqn:Ej; simpl;
    [destruct (array_value IGNORED_SETTINGS_KEY (properties u)) as [a|] eqn:Ea; simpl|].
  - split; [intros [= <-]|naive_solver]. exists root. split; [done|]. split; [done|]. split; eauto.
  - split; [done|]. intros (? & [= <-] & ? & [_ _ [H|[? H]]]); simplify_eq; congruence.
  - split; [intros [= <-]|naive_solver]. exists root. split; [done|]. split; [done|]. split; auto.
Qed.
Lemma parse_object_text t : root_object t = Some t -> valid (properties t) ->
  exists u, parse_object (tree_text t) = Ok u /\ root_object u = Some u /\ properties u = properties t /\
            (bare t -> bare u).
Proof.
  intros Hr Hv. destruct (reparse t Hr) as (u & Hp & Hu & Hms). exists u. split; [|split; [done|split; [done|]]].
  - apply parse_object_Ok. exists u. by rewrite Hms.
  - intros Hb. by apply (bare_reparse t).
Qed.
Lemma properties_readable t :
  (forall i m, find_property OVERRIDE_KEY (properties t) = Some i -> properties t !! i = Some m ->
     is_Some (node_value (m_node m))) -> readable (properties t).
Proof.
  intros H i m Hi Hm. destruct (H i m Hi Hm) as [v Hv]. exists v. split; [done|].
  apply node_of_value; [done|]. intros l. eapply leaf_no_array. by eapply list_elem_of_lookup_2.
Qed.

(** *** The edit *)

Lemma append_entry_spec entry ms j l :
  array_value IGNORED_SETTINGS_KEY ms = Some (j, l) ->
  let l' := if holds entry l then l else (l ++ [Some (VString entry)])%list in
  edited_all (append_entry entry ms) ms = alter (with_elements (fun _ => l')) j ms /\
  holds_entry entry ms = holds entry l.
Proof.
  intros Ha l'. unfold append_entry, holds_entry. rewrite Ha. fold (holds entry l). split; [|done].
  unfold l'. apply array_value_Some in Ha as (_ & m & Hm & Hn). destruct (holds entry l); simpl.
  - symmetry. apply alter_same. intros m' Hm'. simplify_eq. apply with_node_same. by rewrite Hn.
  - apply list_alter_ext; [|done]. intros m' Hm'. simplify_eq.
    unfold with_elements, with_node. simpl. by rewrite Hn.
Qed.
Lemma complete_steps l :
  let l1 := if holds OVERRIDE_KEY l then l else (l ++ [Some (VString OVERRIDE_KEY)])%list in
  let l2 := if holds CAPI_ALIAS_KEY l1 then l1 else (l1 ++ [Some (VString CAPI_ALIAS_KEY)])%list in
  complete l = l2 /\
  missing l = ((if holds OVERRIDE_KEY l then [] else [OVERRIDE_KEY])
               ++ (if holds CAPI_ALIAS_KEY l1 then [] else [CAPI_ALIAS_KEY]))%list.
Proof.
  intros l1 l2. assert (holds CAPI_ALIAS_KEY l1 = holds CAPI_ALIAS_KEY l) as H1.
  { unfold l1. destruct (holds OVERRIDE_KEY l); [done|]. rewrite holds_app. simpl. by rewrite orb_false_r. }
  unfold l2. rewrite H1. unfold complete, missing. simpl. unfold l1.
  destruct (holds OVERRIDE_KEY l), (holds CAPI_ALIAS_KEY l); simpl; by rewrite <- ?app_assoc, ?app_nil_r.
Qed.

Lemma extend_ignored_spec n t0 t ms : follows t0 t ms ->
  (find_property IGNORED_SETTINGS_KEY ms = None \/ is_Some (array_value IGNORED_SETTINGS_KEY ms)) ->
  exists u, extend_ignored n t
    = Ok (u, added_entries ms, is_none (find_property IGNORED_SETTINGS_KEY ms)) /\
    follows t0 u (managed_ignored n ms).
Proof.
  intros Hf Hi. unfold extend_ignored, added_entries. rewrite (follows_properties _ _ _ Hf).
  destruct Hi as [Hi|[[j l] Ha]].
  - unfold managed_ignored, array_value. rewrite Hi. simpl. eexists. split; [done|].
    by apply (follows_edit _ _ _ (create_ignored n)) in Hf.
  - pose proof Ha as (Hj & _)%array_value_Some. rewrite Hj, Ha. simpl.
    destruct (append_entry_spec OVERRIDE_KEY ms j l Ha) as [He1 Hh1].
    pose proof (follows_edit _ _ _ (append_entry OVERRIDE_KEY) Hf) as Hf1. rewrite He1 in Hf1.
    set (l1 := if holds OVERRIDE_KEY l then l else (l ++ [Some (VString OVERRIDE_KEY)])%list) in *.
    pose proof (array_value_elements _ _ _ _ l1 Ha) as Ha1.
    destruct (append_entry_spec CAPI_ALIAS_KEY _ j l1 Ha1) as [He2 Hh2].
    pose proof (follows_edit _ _ _ (append_entry CAPI_ALIAS_KEY) Hf1) as Hf2. rewrite He2 in Hf2.
    rewrite (follows_properties _ _ _ Hf), (follows_properties _ _ _ Hf1), Hh1, Hh2.
    destruct (complete_steps l) as [Hc Hm]. fold l1 in Hc, Hm.
    eexists. split.
    + rewrite Hm. do 3 f_equal. by destruct (holds OVERRIDE_KEY l), (holds CAPI_ALIAS_KEY l1).
    + unfold managed_ignored. rewrite Ha, Hc. by rewrite alter_elements_twice in Hf2.
Qed.

(** The mark a file starts with, and what is edited. *)
Definition mark_of (text : option string) : string :=
  match text with Some text => fst (split_bom text) | None => "" end.
Definition body_of (text : option string) : option string := (fun text => snd (split_bom text)) <$> text.
(** The properties of a settings file, as the edit sees it. *)
Definition text_properties (text : option string) : result (list member) SettingsConflict :=
  let? object := parse_object (source_of (body_of text)) in Ok (properties object).

Lemma split_bom_marked mark body :
  mark = bom \/ (mark = "" /\ strip_prefix bom body = None) ->
  split_bom (mark +:+ body) = (mark, body).
Proof.
  unfold split_bom. intros [->|[-> H]].
  - by rewrite (proj2 (strip_prefix_Some bom (bom +:+ body) body) eq_refl).
  - change ("" +:+ body) with body. by rewrite H.
Qed.
Lemma source_bom text :
  mark_of text = bom \/ (mark_of text = "" /\ strip_prefix bom (source_of (body_of text)) = None).
Proof.
  destruct text as [text|]; simpl; [|by right]. unfold split_bom.
  destruct (strip_prefix bom text) as [rest|] eqn:E; simpl; [by left|]. right. split; [done|].
  by destruct (trims_empty text).
Qed.

(** A text in the managed form: after the mark, a tree whose properties are it. *)
Record managed_text (mark : string) (t0 : tree) (url : string) (text : string) (u : tree) : Prop := {
  mt_text : text = mark +:+ tree_text u;
  mt_split : split_bom text = (mark, tree_text u);
  mt_root : root_object u = Some u;
  mt_properties : properties u = managed url (properties t0);
  mt_bare : bare t0 -> bare u;
}.

Lemma edit_settings_spec text url state t0 :
  parse_object (source_of (body_of text)) = Ok t0 ->
  let ms := properties t0 in
  exists edited u, edit_settings text url state
    = Ok (edited, next_state url (is_none text) (property_value OVERRIDE_KEY ms) (added_entries ms)
            (is_none (find_property IGNORED_SETTINGS_KEY ms)) (only_own_entries (managed url ms)) state) /\
    managed_text (mark_of text) t0 url edited u.
Proof.
  intros Hp ms. pose proof Hp as (root & Hroot & Ho & Hv)%parse_object_Ok.
  pose proof (root_object_root _ _ Ho) as Hoo.
  pose proof (follows_edit _ _ _ (set_override url) (follows_refl _ Hoo)) as Hf.
  fold ms in Hf. assert (edited_all (set_override url ms) ms = managed_override url ms) as Hms.
  { unfold managed_override, set_override. by destruct (find_property OVERRIDE_KEY ms). }
  rewrite Hms in Hf.
  destruct (extend_ignored_spec (if is_some (find_property OVERRIDE_KEY ms) then 0 else 1) _ _ _ Hf)
    as (u & He & Hu).
  { unfold managed_override. destruct (find_property OVERRIDE_KEY ms) as [i|] eqn:Ei.
    - rewrite find_alter, array_value_override by done. apply Hv.
    - rewrite find_behind, array_value_cons by done. destruct (valid_array _ Hv) as [Hn|[a Ha]].
      + left. fold ms in Hn. by rewrite Hn.
      + right. fold ms in Ha. rewrite Ha. by destruct a. }
  fold (managed url ms) in Hu.
  assert (added_entries (managed_override url ms) = added_entries ms /\
          is_none (find_property IGNORED_SETTINGS_KEY (managed_override url ms))
          = is_none (find_property IGNORED_SETTINGS_KEY ms)) as [Hadd Hnone].
  { unfold managed_override, added_entries. destruct (find_property OVERRIDE_KEY ms) as [i|] eqn:Ei.
    - by rewrite find_alter, array_value_override.
    - rewrite find_behind, array_value_cons by done.
      by destruct (array_value IGNORED_SETTINGS_KEY ms) as [[]|], (find_property IGNORED_SETTINGS_KEY ms). }
  rewrite Hadd, Hnone in He. exists (mark_of text +:+ tree_text u), u. split.
  - unfold edit_settings.
    replace (match text with Some text => let '(mark, rest) := split_bom text in (mark, Some rest)
             | None => ("", None) end) with (mark_of text, body_of text)
      by (destruct text as [t|]; [simpl; by destruct (split_bom t)|done]).
    rewrite Hp. fold ms. rewrite He, (follows_properties _ _ _ Hu). by destruct text.
  - assert (mark_of text = bom \/ (mark_of text = "" /\ strip_prefix bom (tree_text u) = None)) as Hmark.
    { destruct (source_bom text) as [Hb|[Hb Hs]]; [by left|right]. split; [done|].
      apply (follows_bom _ _ _ Hu). eapply root_text_bom; [exact Ho|]. by rewrite (parse_lossless _ _ Hroot). }
    split; [done|by apply split_bom_marked|apply Hu..].
Qed.

(** The managed text, read again. *)
Lemma managed_text_parse mark t0 url text u :
  valid (properties t0) -> managed_text mark t0 url text u ->
  exists t, parse_object (source_of (body_of (Some text))) = Ok t /\ root_object t = Some t /\
    mark_of (Some text) = mark /\ body_of (Some text) = Some (tree_text u) /\
    trims_empty (tree_text u) = false /\
    properties t = managed url (properties t0) /\ (bare t0 -> bare t).
Proof.
  intros Hv [Ht Hs Hr Hp Hb]. destruct (parse_object_text u Hr) as (t & Hpt & Htr & Htp & Htb).
  { rewrite Hp. by apply managed_valid. }
  pose proof (text_not_blank _ Hr) as Hblank. exists t. simpl. rewrite Hs. simpl. rewrite Hblank.
  rewrite Htp. auto 10.
Qed.
Lemma managed_complete url ms : valid ms ->
  added_entries (managed url ms) = [] /\ is_none (find_property IGNORED_SETTINGS_KEY (managed url ms)) = false.
Proof.
  intros Hv. unfold added_entries. assert (exists j l, array_value IGNORED_SETTINGS_KEY (managed url ms)
    = Some (j, complete l)) as (j & l & Ha).
  { destruct (array_value IGNORED_SETTINGS_KEY ms) as [[j l]|] eqn:Ea;
      destruct (find_property OVERRIDE_KEY ms) as [i|] eqn:Ei;
      [rewrite (managed_existing _ _ _ Ei)|rewrite (managed_absent _ _ Ei)
      |rewrite (managed_existing _ _ _ Ei)|rewrite (managed_absent _ _ Ei)].
    - exists j, l. unfold managed_ignored. rewrite array_value_override, Ea by done.
      eapply array_value_elements. by rewrite array_value_override.
    - exists (S j), l. rewrite (ignored_behind _ _ _ j l), array_value_cons by done.
      by erewrite array_value_elements.
    - exists 0%nat, []. by rewrite ignored_created by (by rewrite array_value_override).
    - exists 1%nat, []. by rewrite ignored_created_behind. }
  rewrite Ha. apply array_value_Some in Ha as (-> & _). split; [apply missing_complete|done].
Qed.

Lemma edit_settings_again mark t0 url url' text u st :
  valid (properties t0) -> managed_text mark t0 url text u -> st_version st = SETTINGS_STATE_VERSION ->
  exists text' u', edit_settings (Some text) url' (Some st) = Ok (text', st) /\
    managed_text mark t0 url' text' u'.
Proof.
  intros Hv Hm Hst. destruct (managed_text_parse _ _ _ _ _ Hv Hm) as (t & Hp & _ & Hmark & _ & _ & Ht & Hb).
  destruct (edit_settings_spec _ url' (Some st) _ Hp) as (text' & u' & He & [Ht' Hs' Hr' Hp' Hb']).
  rewrite Hmark in *. exists text', u'. split.
  - rewrite He, Ht. destruct (managed_complete url _ Hv) as [-> ->]. simpl.
    destruct st; simpl in *. by rewrite !orb_false_r, <- Hst.
  - split; try done; [by rewrite Hp', Ht, managed_again|auto].
Qed.

(** *** The removal *)

Lemma restored_follows restore entries drop_empty t :
  root_object t = Some t ->
  follows t (restored restore entries drop_empty t)
    (restored_members restore entries drop_empty (properties t)).
Proof.
  intros Hr. unfold restored, restored_members.
  pose proof (follows_edit _ _ _ (restore_override restore) (follows_refl _ Hr)) as H1.
  pose proof (follows_edit _ _ _ (remove_entries entries) H1) as H2.
  destruct drop_empty; [|done]. by apply (follows_edit _ _ _ drop_emptied) in H2.
Qed.

(** The text a removal leaves. *)
Definition removed_text (text : string) (removal : Removal) : option string :=
  match removal with Unchanged => Some text | Write text' => Some text' | Delete => None end.

(** The user's own override: it can be read, and is no URL of a daemon's. *)
Definition users_own (url : string) (ms : list member) : Prop :=
  forall i, find_property OVERRIDE_KEY ms = Some i ->
    exists v, property_value OVERRIDE_KEY ms = Some v /\
      is_some_and (fun v => String.eqb v url || is_daemon_capi_url v) (Json.as_str v) = false.

Lemma remove_settings_spec mark t0 url text u st own :
  valid (properties t0) -> readable (properties t0) ->
  managed_text mark t0 url text u ->
  st_override_before st = property_value OVERRIDE_KEY (properties t0) ->
  st_added_ignored st = added_entries (properties t0) ->
  st_ignored_created st = is_none (find_property IGNORED_SETTINGS_KEY (properties t0)) ->
  exists removal, remove_settings text (Some st) own = Ok removal /\
    (st_created st = false -> exists after, removed_text text removal = Some after /\
       text_properties (Some after) = Ok (properties t0)) /\
    (st_created st = true -> bare t0 -> properties t0 = [] -> removal = Delete).
Proof.
  intros Hv Hr Hm Hbefore Hadded Hcreated.
  pose proof (managed_text_parse _ _ _ _ _ Hv Hm) as (t & Hp & Htr & Hmark & Hbody & Hblank & Ht & Hb).
  pose proof (restored_follows (st_override_before st) (st_added_ignored st) (st_ignored_created st) _ Htr)
    as Hf. rewrite Hbefore, Hadded, Hcreated, Ht, managed_restored in Hf by done.
  set (back := restored _ _ _ t) in Hf. pose proof (follows_root _ _ _ Hf) as Hback.
  assert (text_properties (Some (mark +:+ tree_text back)) = Ok (properties t0)) as Hafter.
  { destruct (parse_object_text back Hback) as (w & Hw & _ & Hwp & _).
    { by rewrite (follows_properties _ _ _ Hf). }
    unfold text_properties, body_of. simpl. rewrite split_bom_marked.
    - simpl. rewrite (text_not_blank _ Hback), Hw. by rewrite Hwp, (follows_properties _ _ _ Hf).
    - rewrite <- Hmark. destruct (source_bom (Some text)) as [|[Hn Hs]]; [by left|right]. split; [done|].
      apply (follows_bom _ _ _ Hf). pose proof Hp as (root & Hroot & Ho & _)%parse_object_Ok.
      eapply root_text_bom; [exact Ho|]. by rewrite (parse_lossless _ _ Hroot). }
  unfold remove_settings. rewrite (mt_split _ _ _ _ _ Hm), Hblank.
  simpl in Hbody. rewrite (mt_split _ _ _ _ _ Hm) in Hbody. unfold body_of in Hp. simpl in Hp.
  rewrite (mt_split _ _ _ _ _ Hm) in Hp. simpl in Hp. rewrite Hblank in Hp. rewrite Hp. simpl.
  rewrite Hbefore, Hadded, Hcreated. fold back.
  destruct (st_created st) eqn:Ec; simpl.
  - destruct (String.eqb_spec (drop_whitespace (tree_text back)) "{}") as [E|E].
    + by exists Delete.
    + eexists. split; [done|]. split; [done|]. intros _ Hb0 Hp0. destruct E. apply bare_text; [done|..].
      * by apply (follows_bare _ _ _ Hf), Hb.
      * by rewrite (follows_properties _ _ _ Hf).
  - eexists. split; [done|]. split; [|done]. intros _.
    destruct (String.eqb_spec (mark +:+ tree_text back) text) as [E|E]; simpl; eexists; split; try done.
    by rewrite <- E.
Qed.

(** Edits after the first, each with its own URL, over the sidecar's state. *)
Fixpoint edit_again (urls : list string) (text : string) (st : SettingsState)
  : result (string * SettingsState) SettingsConflict :=
  match urls with
  | [] => Ok (text, st)
  | url :: urls =>
      let? (text, st) := edit_settings (Some text) url (Some st) in
      edit_again urls text st
  end.
Lemma edit_again_spec mark t0 url text u st urls :
  valid (properties t0) -> managed_text mark t0 url text u -> st_version st = SETTINGS_STATE_VERSION ->
  exists text' url' u', edit_again urls text st = Ok (text', st) /\ managed_text mark t0 url' text' u'.
Proof.
  intros Hv Hm Hst. revert url text u Hm. induction urls as [|url' urls IH]; intros url text u Hm; simpl.
  - by exists text, url, u.
  - destruct (edit_settings_again _ _ _ url' _ _ _ Hv Hm Hst) as (text' & u' & -> & Hm'). by eapply IH.
Qed.

(** C25. The user's settings come back: after a first edit of [settings.json] without a
    sidecar, of a file whose override is absent or the user's own, and any number of
    further edits with other URLs, each of which keeps the sidecar's state as it is, the
    removal with that state gives a file with exactly the user's properties, in their
    order, the override's value and the ignore list included; a file the daemon created
    is deleted. *)
Theorem user_settings_come_back text url edited st ms urls own :
  edit_settings text url None = Ok (edited, st) ->
  text_properties text = Ok ms -> users_own url ms ->
  exists final removal, edit_again urls edited st = Ok (final, st) /\
    remove_settings final (Some st) own = Ok removal /\
    match text with
    | None => removal = Delete
    | Some _ => exists after, removed_text final removal = Some after /\ text_properties (Some after) = Ok ms
    end.
Proof.
  intros He Hms Hown. unfold text_properties in Hms.
  destruct (parse_object (source_of (body_of text))) as [t0|] eqn:Hp; [|done]. injection Hms as <-.
  destruct (edit_settings_spec text url None t0 Hp) as (edited' & u & He' & Hm).
  rewrite He in He'. injection He' as <- Hst.
  pose proof Hp as (root & Hroot & Ho & Hv)%parse_object_Ok.
  assert (readable (properties t0)) as Hr.
  { apply properties_readable. intros i m Hi Hm'. destruct (Hown i Hi) as (v & Hval & _).
    rewrite (property_value_Some _ _ _ _ Hi Hm') in Hval. by eexists. }
  assert (is_some_and (fun v => String.eqb v url || is_daemon_capi_url v)
            (property_value OVERRIDE_KEY (properties t0) ≫= Json.as_str) = false) as Hnot.
  { destruct (find_property OVERRIDE_KEY (properties t0)) as [i|] eqn:Ei.
    - by destruct (Hown i Ei) as (v & -> & H).
    - unfold property_value. by rewrite Ei. }
  unfold next_state in Hst. rewrite Hnot in Hst. simpl in Hst. rewrite orb_false_r in Hst.
  assert (st_version st = SETTINGS_STATE_VERSION) as Hver by (by rewrite Hst).
  destruct (edit_again_spec _ _ _ _ _ _ urls Hv Hm Hver) as (final & url' & u' & Hagain & Hm').
  destruct (remove_settings_spec _ _ _ _ _ st own Hv Hr Hm') as (removal & Hrem & Hkept & Hdel);
    [by rewrite Hst..|].
  exists final, removal. split; [done|]. split; [done|]. rewrite Hst in Hkept, Hdel. simpl in *.
  destruct text as [text|]; [by apply Hkept|].
  destruct bare_empty as (e & Hpe & Hre & Hpr & Hbe). simpl in *. rewrite Hpe in Hroot. simplify_eq.
  by apply Hdel.
Qed.

(** Every other property. *)
Definition others (ms : list member) : list member :=
  retain (fun m => negb (named OVERRIDE_KEY m || named IGNORED_SETTINGS_KEY m)) ms.
Lemma others_alter key f i ms :
  (forall m, m_name (f m) = m_name m) -> find_property key ms = Some i ->
  key = OVERRIDE_KEY \/ key = IGNORED_SETTINGS_KEY -> others (alter f i ms) = others ms.
Proof.
  intros Hf Hi Hk. unfold others. revert i Hi. induction ms as [|m ms IH]; intros i; simpl; [done|].
  assert (forall k, named k (f m) = named k m) as Hn by (intros k; unfold named; by rewrite Hf).
  destruct (named key m) eqn:E.
  - intros [= <-]. simpl. rewrite !Hn. by destruct Hk as [-> | ->]; rewrite E, ?orb_true_r.
  - destruct (find_property key ms) as [j|]; [|done]. intros [= <-]. simpl.
    change (list_alter f j ms) with (alter f j ms). by rewrite IH.
Qed.

Lemma managed_spec url ms : valid ms ->
  property_value OVERRIDE_KEY (managed url ms) = Some (VString url) /\
  others (managed url ms) = others ms /\
  exists j, array_value IGNORED_SETTINGS_KEY (managed url ms)
    = Some (j, complete (default [] (snd <$> array_value IGNORED_SETTINGS_KEY ms))).
Proof.
  intros Hv. assert (forall i ms', ms' !! i = Some (property OVERRIDE_KEY (VString url)) \/
    (exists m, ms' !! i = Some m /\ m_node m = Leaf (Some (VString url))) ->
    find_property OVERRIDE_KEY ms' = Some i -> property_value OVERRIDE_KEY ms' = Some (VString url)) as Hval.
  { intros i ms' [Hi|(m & Hi & Hn)] Hfi; rewrite (property_value_Some _ _ _ _ Hfi Hi); [done|by rewrite Hn]. }
  destruct (array_value IGNORED_SETTINGS_KEY ms) as [[j l]|] eqn:Ea;
    destruct (find_property OVERRIDE_KEY ms) as [i|] eqn:Ei;
    [rewrite (managed_existing _ _ _ Ei)|rewrite (managed_absent _ _ Ei)
    |rewrite (managed_existing _ _ _ Ei)|rewrite (managed_absent _ _ Ei)]; simpl (default _ _).
  - pose proof Ei as (m & Hm & _)%find_lookup. pose proof Ea as (Hj & _)%array_value_Some.
    assert (i <> j) by (by eapply managed_distinct).
    unfold managed_ignored. rewrite array_value_override, Ea by done. split; [|split].
    + apply (Hval i); [|by rewrite !find_alter]. right. eexists.
      rewrite list_lookup_alter_ne, list_lookup_alter_eq, Hm by done. done.
    + rewrite (others_alter IGNORED_SETTINGS_KEY), (others_alter OVERRIDE_KEY);
        rewrite ?find_alter; auto.
    + exists j. eapply array_value_elements. by rewrite array_value_override.
  - pose proof Ea as (Hj & _)%array_value_Some. rewrite (ignored_behind _ _ _ j l) by done.
    split; [by apply (Hval 0%nat); [left|]|]. split.
    + unfold others at 1. simpl. fold (others (alter (with_elements (fun _ => complete l)) j ms)).
      by rewrite (others_alter IGNORED_SETTINGS_KEY) by auto.
    + exists (S j). rewrite array_value_cons by done. by erewrite array_value_elements.
  - pose proof Ei as (m & Hm & _)%find_lookup. rewrite ignored_created by (by rewrite array_value_override).
    split; [|split].
    + apply (Hval (S i)); [|by rewrite find_behind, find_alter, Ei]. right. eexists. simpl.
      change (list_alter ?f i ms) with (alter f i ms). by rewrite list_lookup_alter_eq, Hm.
    + unfold others at 1. simpl. by apply (others_alter OVERRIDE_KEY); auto.
    + by exists 0%nat.
  - rewrite ignored_created_behind by done. split; [by apply (Hval 0%nat); [left|]|]. split; [done|].
    by exists 1%nat.
Qed.

(** The edit of [settings.json] is total and touches what is the daemon's only: a
    file that is refused is one that is not VS Code's JSONC, has no root object, repeats a
    managed key or has an ignore list that is no array; any other gets the override, and
    an ignore list with the entries it had and both managed ones, each once more only if
    it was missing; every other property is as it was, in its order. *)
Theorem settings_edit_is_local text url state :
  match text_properties text with
  | Err refused => edit_settings text url state = Err refused
  | Ok ms => exists edited st ms', edit_settings text url state = Ok (edited, st) /\
      text_properties (Some edited) = Ok ms' /\
      property_value OVERRIDE_KEY ms' = Some (VString url) /\
      snd <$> array_value IGNORED_SETTINGS_KEY ms'
        = Some (complete (default [] (snd <$> array_value IGNORED_SETTINGS_KEY ms))) /\
      others ms' = others ms
  end.
Proof.
  unfold text_properties at 1. destruct (parse_object (source_of (body_of text))) as [t0|refused] eqn:Hp.
  - destruct (edit_settings_spec text url state t0 Hp) as (edited & u & He & Hm).
    pose proof Hp as (root & _ & _ & Hv)%parse_object_Ok.
    destruct (managed_text_parse _ _ _ _ _ Hv Hm) as (t & Hpt & _ & _ & _ & _ & Ht & _).
    destruct (managed_spec url _ Hv) as (Hval & Hoth & j & Ha).
    do 2 eexists. exists (managed url (properties t0)). split; [exact He|]. split; [|by rewrite Ha].
    unfold text_properties. by rewrite Hpt, Ht.
  - unfold edit_settings. destruct text as [text|]; simpl in *; [|by rewrite Hp].
    destruct (split_bom text) as [mark rest]. simpl in *. by rewrite Hp.
Qed.
End laws.

(** ** Witnesses *)

Section witnesses.
Import VsCodeSettings SettingsMembers.

Lemma user_settings_come_back_witness : exists edited st,
  edit_settings (Some EMPTY_OBJECT) (override_url (example_listen 8788) "p") None = Ok (edited, st) /\
  exists final removal, edit_again [override_url (example_listen 9000) "q"] edited st = Ok (final, st) /\
    remove_settings final (Some st) None = Ok removal /\
    exists after, removed_text final removal = Some after /\ text_properties (Some after) = Ok [].
Proof.
  destruct (edit_settings_spec (T := demo_tree) (Some EMPTY_OBJECT) (override_url (example_listen 8788) "p") None
    ([] : list member) eq_refl)
    as (edited & u & E & _).
  eexists edited, _. split; [exact E|].
  eapply (user_settings_come_back (Some EMPTY_OBJECT)); [exact E|reflexivity|done].
Defined.
End witnesses.
