(* ===== verification/Programs.v ===== *)
(** * Every program together ([provider/vscode/mod.rs], [Reconciler::new])

    VS Code's provider plans the chat models and the settings; [Reconciler::new] puts
    the providers in their order. A reconciliation of all of them, whatever the
    configuration and however it ends, changes no file but those the programs'
    definitions name. *)

From S2P Require Import Prelude Str Json Codec Fs Plan JsonMerge Config Reconcile Net Http Routes.
From S2P Require Import Shared Planner ManagedFiles MarkerFiles LoopbackFiles SyntaxTree VsCodeSettings.

Module VsCode.
Definition ID : string := "vscode".

Section with_codecs.
Context {P : Printers} {T : SyntaxTree} {C : JsonCodec} {S : SettingsPrinter}.

(** The two variants of [copilotChat] are exclusive: each plan removes what the other
    would have written. *)
Definition plan_both (s : fs) (chat_models settings : path) (proxy : option (SocketAddr * string))
    (configured : option (VsCodeConfig * option LlmGatewayConfig)) : planning unit :=
  let own_models :=
    match configured with
    | Some (program, gateway) =>
        if bool_decide (vs_copilot_chat program = OwnModels) then Some (program, gateway) else None
    | None => None
    end in
  VsCodeModels.plan s chat_models proxy own_models ;*
  VsCodeSettings.plan s settings proxy configured.

(** [impl Provider for VsCode]. *)
Definition provider (chat_models_path settings_path : option path) : Provider :=
  {| provider_id := ID;
     provider_plan := fun ctx config s =>
       let configured := configured_with vs_use_llm_gateway config (vscode (dm_programs config)) in
       match skip_unless ctx User (is_some (vscode (dm_programs config))) VsCodeModels.DISPLAY_NAME with
       | Some pl => Ok pl
       | None =>
           match chat_models_path, settings_path with
           | Some chat_models, Some settings =>
               run_planning (plan_both s chat_models settings (loopback ctx) configured)
           | _, _ =>
               if is_some configured
               then Err (VsCodeModels.DISPLAY_NAME +:+ " user configuration paths are unavailable")
               else Ok default_plan
           end
       end |}.
End with_codecs.
End VsCode.

Lemma vscode_plans `{Printers, SyntaxTree, JsonCodec, SettingsPrinter} s models settings files proxy configured :
  models ∈ files -> state_path models ∈ files -> settings ∈ files -> state_path settings ∈ files ->
  scoped s (settings_kind files) (VsCode.plan_both s models settings proxy configured).
Proof.
  intros. unfold VsCode.plan_both. eapply (plans_bind _ _ _ _ (fun _ => True)).
  - intros pl r pl' Hf Hp. destruct (models_plans s models files ltac:(done) ltac:(done) _ _ _ _ _ Hf Hp) as [Hg HQ].
    split; [|done]. eapply grows_mono; [exact Hg|]. intros [c|c] Hc; [done|by right].
  - intros [] _. by apply settings_plans.
Qed.
#[global] Instance vscode_scope `{Printers, SyntaxTree, JsonCodec, SettingsPrinter} mp sp :
  ProviderScope (VsCode.provider mp sp).
Proof.
  refine {| provider_files := match mp, sp with
              | Some mp, Some sp => [mp; state_path mp; sp; state_path sp] | _, _ => [] end |}.
  intros ctx config s pl. simpl. destruct (skip_unless _ _ _ _) as [pl'|] eqn:E.
  { intros [= <-]. by eapply skip_unless_grows. }
  assert (forall r, (if r : bool then Err (VsCodeModels.DISPLAY_NAME +:+ " user configuration paths are unavailable")
                     else Ok default_plan) = Ok pl -> grows s (on_files (in_files [])) default_plan pl) as Hnone.
  { intros [] Hp; [done|]. simplify_eq. apply grows_refl, faithful_default. }
  destruct mp as [mp|], sp as [sp|]; [|apply Hnone..].
  intros Hp. eapply run_planning_grows in Hp; [|apply (vscode_plans s mp sp [mp; state_path mp; sp; state_path sp]); set_solver].
  eapply grows_mono; [exact Hp|apply settings_kind_files].
Defined.

(** ** The reconciler of the daemon *)

Section reconciler.
Context {U : UrlOps} {P : Printers} {T : SyntaxTree} {C : JsonCodec} {S : SettingsPrinter}.
Variable current_dir : result path io_kind.

(** [Reconciler::new]. *)
Definition reconciler_providers
    (claude_code_settings_path claude_desktop_managed_settings_path
     claude_desktop_credential_helper_path codex_managed_config_path
     open_code_managed_config_path open_code_plugin_path grok_managed_config_path : path)
    (copilot_providers_path vscode_chat_models_path vscode_settings_path
     pi_models_path pi_settings_path : option path) : list Provider :=
  [ClaudeCode.provider claude_code_settings_path;
   ClaudeDesktop.provider claude_desktop_managed_settings_path claude_desktop_credential_helper_path;
   Codex.provider codex_managed_config_path;
   OpenCode.provider current_dir open_code_managed_config_path open_code_plugin_path;
   VsCode.provider vscode_chat_models_path vscode_settings_path;
   discovery_only "cursor";
   Grok.provider grok_managed_config_path;
   Copilot.provider copilot_providers_path;
   Pi.provider pi_models_path pi_settings_path;
   discovery_only "ollama"].
Definition new_reconciler (merge_user_settings : bool) (providers : list Provider)
    (credential_helper socket : path) : Reconciler :=
  {| rc_context := {| merge_user_settings := merge_user_settings; user_mode := merge_user_settings;
                      credential_helper := credential_helper; socket := socket; llm_proxy := None |};
     rc_providers := providers; rc_last_apply := None; rc_choice := AllPrograms |}.
End reconciler.

(** ** Providers in a list *)

Class ProviderScopes (ps : list Provider) : Type := {
  all_files : list path;
  all_scoped ctx config s p pl : In p ps ->
    provider_plan p ctx config s = Ok pl -> grows s (on_files (in_files all_files)) default_plan pl;
}.
Arguments all_files ps {_}.
Lemma in_files_mono fs1 fs2 e : fs1 ⊆ fs2 -> on_files (in_files fs1) e -> on_files (in_files fs2) e.
Proof. destruct e as [c|c]; [|done]. intros Hsub Hc. by apply Hsub. Qed.
#[global] Instance no_scopes : ProviderScopes [].
Proof. refine {| all_files := [] |}. intros ctx config s p pl []. Defined.
#[global] Instance more_scopes p ps `{ProviderScope p, ProviderScopes ps} : ProviderScopes (p :: ps).
Proof.
  refine {| all_files := (provider_files p ++ all_files ps)%list |}.
  intros ctx config s p' pl [<-|Hin] Hp.
  - eapply grows_mono; [by eapply plan_scoped|]. intros e. apply in_files_mono. set_solver.
  - eapply grows_mono; [by eapply all_scoped|]. intros e. apply in_files_mono. set_solver.
Defined.

(** ** What a reconciliation may change *)

Definition keeps (files : list path) (pl : ReconcilePlan) : Prop :=
  NoDup (map fc_path (operations pl)) /\ forall c, c ∈ operations pl -> in_files files c.

Lemma append_keeps files other pl r pl' :
  append_attributed other pl = (r, pl') -> (forall c, c ∈ operations other -> in_files files c) ->
  keeps files pl -> keeps files pl'.
Proof.
  intros H Hother [Hnd Hpl]. split; [by apply (append_attributed_operations _ _ _ _ H)|].
  unfold append_attributed in H.
  apply st_bind_inv in H as [(e & H & _)|([] & pl1 & H & H2)];
    apply append_observed_spec in H as (Ho & _); [by rewrite Ho|].
  apply st_bind_inv in H2 as [(e & H & _)|([] & pl2 & [= <-] & H2)]; [done|].
  assert (forall r pl3, append_operations (operations other)
    {| observed := observed pl1; operations := operations pl1;
       private_dirs := private_dirs pl1 ++ private_dirs other; report := report pl1;
       inactive := inactive pl1 |} = (r, pl3) -> forall c, c ∈ operations pl3 -> in_files files c) as Hops.
  { intros r' pl3 H3. apply append_operations_spec in H3 as (_ & _ & _ & _ & _ & Hr). simpl in Hr.
    rewrite Ho in Hr. destruct r' as [|[e p]].
    - rewrite Hr. intros c [Hc|Hc]%elem_of_app; auto.
    - destruct Hr as (l1 & c' & l2 & Hl & -> & _). intros c [Hc|Hc]%elem_of_app; [auto|].
      apply Hother. rewrite Hl. apply elem_of_app. by left. }
  apply st_bind_inv in H2 as [(e & H & _)|([] & pl3 & H & [= _ <-])]; simpl; by eapply Hops.
Qed.

Lemma plan_entries_keep files ctx config s configured opted_out providers ap :
  (forall p own, In p providers -> provider_plan p ctx config s = Ok own ->
     forall c, c ∈ operations own -> in_files files c) ->
  keeps files (ap_plan ap) ->
  keeps files (ap_plan (fold_left (plan_entry ctx config s configured opted_out) providers ap)).
Proof.
  revert ap. induction providers as [|p providers IH]; intros ap Hp Hk; [done|]. simpl. apply IH.
  { intros p' own Hin. by apply Hp; right. }
  unfold plan_entry. destruct (provider_plan p ctx config s) as [own|error] eqn:E; [|done].
  destruct (append_attributed own (ap_plan ap)) as [r pl] eqn:Ea.
  eapply append_keeps in Ea; [|eapply (Hp p own); [by left|done]|done].
  by destruct r as [|[e q]].
Qed.

Lemma apply_keeps files rng pl s r s' :
  keeps files pl -> apply_tracked rng pl s = (r, s') ->
  (forall q, q ∉ files -> is_Some (file_at s q) \/ r = Ok tt -> file_at s' q = file_at s q).
Proof.
  intros [Hnd Hops] H q Hq Hex. assert (q ∉ map fc_path (operations pl)) as Hout.
  { intros (c & -> & Hc)%list_elem_of_fmap. by apply Hq, Hops. }
  destruct r as [[]|[e stop]].
  - apply apply_tracked_Ok in H as [_ [_ Hf]]; [|done]. by apply Hf.
  - destruct Hex as [Hex|]; [|done].
    apply apply_tracked_inv in H as [(? & ? & _ & _ & ->)|(_ & Hread & [(? & ? & _ & [_ Hf])|(s1 & Hs1 & H)])];
      [done|apply Hf; set_solver|].
    apply apply_operations_spec in H as (k & c & mid & _ & _ & [_ Hf] & _ & _ & Hsame);
      [|done|by eapply observed_reads_hold].
    assert (file_at mid q = file_at s q) as Hmid.
    { destruct Hs1 as [_ Hs1]. rewrite <- Hs1 by set_solver. apply Hf.
      intros (c' & -> & (j & Hj & _)%elem_of_take)%list_elem_of_fmap.
      apply Hout, list_elem_of_fmap_2. by eapply list_elem_of_lookup_2. }
    rewrite Hsame, Hmid; [done|]. right. by rewrite Hmid.
Qed.

(** What a reconciliation changes, by any reconciler whose providers keep to files. *)
Lemma reconciliation_keeps rng r config s out r' s' `{!ProviderScopes (rc_providers r)} :
  apply_with_report rng config r s = (out, r', s') ->
  rc_providers r' = rc_providers r /\
  forall q, q ∉ all_files (rc_providers r) ->
    is_Some (file_at s q) \/ (snd <$> out) = Some (Ok tt) -> file_at s' q = file_at s q.
Proof.
  unfold apply_with_report. simpl.
  destruct (attributed_apply rng (plan_with_report r config s) s) as [[report res] s1] eqn:E.
  intros [= <- <- <-]. split; [done|]. simpl. intros q Hq Hex.
  assert (keeps (all_files (rc_providers r)) (ap_plan (plan_with_report r config s))) as Hk.
  { unfold plan_with_report. destruct (apply_program_choice config (rc_choice r)) as [config' out].
    apply plan_entries_keep.
    - intros p own Hin Hp c Hc. eapply planned_change; [|exact Hc]. by eapply all_scoped.
    - split; [apply NoDup_nil_2|]. intros c Hc. by apply not_elem_of_nil in Hc. }
  unfold attributed_apply in E. destruct (run_plan rng (plan_with_report r config s) s) as [[r0 stop] s2] eqn:Er.
  injection E as _ <- <-. unfold run_plan in Er.
  destruct (ap_first_error _); [by simplify_eq|].
  destruct (any _ _).
  - destruct (apply rng _ s) as [r1 s3] eqn:Ea. simplify_eq. unfold apply in Ea.
    apply st_map_err_inv in Ea as (r2 & Ea & Hr). eapply apply_keeps; [exact Hk|exact Ea|exact Hq|].
    destruct Hex as [|[= ->]]; [by left|right]. by destruct r2 as [[]|].
  - destruct (apply_tracked rng _ s) as [r1 s3] eqn:Ea.
    eapply (apply_keeps _ _ _ _ _ s2 Hk); [|exact Hq|].
    + rewrite Ea. by destruct r1 as [[]|[e []]]; simplify_eq.
    + destruct Hex as [|[= Hres]]; [by left|right]. destruct r1 as [[]|[e a]]; [done|].
      destruct a; simplify_eq.
Qed.

(** The files of the programs: each one's own, with its marker or its sidecar. *)
Definition program_files
    (claude_code claude_desktop claude_desktop_helper codex open_code open_code_plugin grok : path)
    (copilot chat_models vscode_settings pi_models pi_settings : option path) : list path :=
  let both a b := match a, b with
                  | Some a, Some b => [a; state_path a; b; state_path b] | _, _ => [] end in
  ([claude_code; owner_path "settings.json" claude_code; state_path claude_code;
    claude_desktop; owner_path "managed" claude_desktop; state_path claude_desktop;
    claude_desktop_helper; owner_path "managed" claude_desktop_helper;
    codex; open_code; open_code_plugin]
   ++ both chat_models vscode_settings ++ [grok]
   ++ (match copilot with Some p => [p; state_path p] | None => [] end)
   ++ both pi_models pi_settings)%list.

(** What happens to a daemon's reconciler and to the files it sees: configurations are
    applied, the user's choice and the proxy change in between. *)
Inductive reconciler_step : Reconciler * fs -> Reconciler * fs -> Prop :=
| step_apply rng config r s out r' s' :
    apply_with_report rng config r s = (out, r', s') -> reconciler_step (r, s) (r', s')
| step_choice choice r s : reconciler_step (r, s) (set_program_choice choice r, s)
| step_proxy proxy r s : reconciler_step (r, s) (with_llm_proxy proxy r, s).

Section daemon.
Context {U : UrlOps} {P : Printers} {T : SyntaxTree} {C : JsonCodec} {S : SettingsPrinter}.
Variable current_dir : result path io_kind.

Lemma step_keeps r s r' s' `{!ProviderScopes (rc_providers r)} q :
  reconciler_step (r, s) (r', s') ->
  rc_providers r' = rc_providers r /\
  (q ∉ all_files (rc_providers r) -> is_Some (file_at s q) -> file_at s' q = file_at s q).
Proof.
  intros H. inversion H; subst; [|by split..].
  match goal with Ha : apply_with_report _ _ _ _ = _ |- _ =>
    destruct (reconciliation_keeps _ _ _ _ _ _ _ Ha) as [Hp Hk] end. split; [done|].
  intros Hq Hex. apply Hk; [done|by left].
Qed.

(** C4. Reconciliation changes the programs' files and no other: over a daemon's whole
    life, whatever configurations it applies, with whatever outcome, choice and proxy,
    every existing file that is not one of the programs' own, with their markers and
    sidecars, keeps its contents and its mode. *)
Theorem only_program_files_change cc cdm cdh cx oc op gk cp vm vs pm ps r s r' s' q :
  rc_providers r = reconciler_providers current_dir cc cdm cdh cx oc op gk cp vm vs pm ps ->
  rtc reconciler_step (r, s) (r', s') ->
  q ∉ program_files cc cdm cdh cx oc op gk cp vm vs pm ps ->
  is_Some (file_at s q) -> file_at s' q = file_at s q.
Proof.
  intros Hp Hsteps Hq.
  assert (forall before after, rtc reconciler_step before after ->
    rc_providers (fst before) = reconciler_providers current_dir cc cdm cdh cx oc op gk cp vm vs pm ps ->
    is_Some (file_at (snd before) q) -> file_at (snd after) q = file_at (snd before) q) as Hall.
  { intros before after Hrtc. induction Hrtc as [x|x y z Hxy _ IH]; [done|]. intros Hx Hex.
    destruct x as [[ctx providers last choice] sx], y as [ry sy]. simpl in *. subst providers.
    destruct (step_keeps _ _ _ _ q Hxy) as [Hy Hk]. simpl in *.
    assert (Hout : q ∉ program_files cc cdm cdh cx oc op gk cp vm vs pm ps) by done.
    specialize (Hk ltac:(simpl; unfold program_files in Hout; clear -Hout; set_solver) Hex).
    rewrite IH; [done|by rewrite Hy|by rewrite Hk]. }
  exact (Hall _ _ Hsteps Hp).
Qed.
End daemon.

(** ** A concrete run *)

#[global] Instance demo_settings_printer : SettingsPrinter :=
  {| state_to_bytes st := demo_json (vstrings (st_added_ignored st)); json_error_position _ := (1, 1)%nat |}.
Definition demo_daemon_reconciler : Reconciler :=
  new_reconciler false
    (reconciler_providers (Ok (home "")) (home "s.json") (home "d.json") (home "helper.sh")
       (home "codex.toml") (home "opencode.json") (home "plugin.ts") (home "grok.toml")
       None None None None None) (home "helper") (home "socket").

Lemma only_program_files_change_witness :
  let after := apply_with_report demo_rng codex_daemon demo_daemon_reconciler (demo_fs no_fault) in
  rtc reconciler_step (demo_daemon_reconciler, demo_fs no_fault) (snd (fst after), snd after) /\
  file_at (snd after) (home "codex.toml") <> None /\
  file_at (snd after) (home "a.json") = file_at (demo_fs no_fault) (home "a.json").
Proof.
  intros after.
  assert (rtc reconciler_step (demo_daemon_reconciler, demo_fs no_fault) (snd (fst after), snd after)) as H.
  { apply rtc_once. apply (step_apply demo_rng codex_daemon _ _ (fst (fst after))).
    unfold after. by destruct (apply_with_report _ _ _ _) as [[out r'] s']. }
  split; [exact H|]. split; [vm_compute; discriminate|].
  refine (only_program_files_change (Ok (home "")) (home "s.json") (home "d.json") (home "helper.sh")
    (home "codex.toml") (home "opencode.json") (home "plugin.ts") (home "grok.toml")
    None None None None None demo_daemon_reconciler (demo_fs no_fault) _ _ (home "a.json") eq_refl H _ _).
  - apply (bool_decide_unpack _). vm_compute. exact I.
  - vm_compute. eexists. reflexivity.
Defined.
