(* ===== verification/Float.v ===== *)
(** * Binary64 numbers as the usage code computes with them

    An [f64] is IEEE 754 binary64, the Standard Library's [spec_float] at 53 bits of
    precision: conversion from and to bits and integers, rounding to the nearest
    integer away from zero ([f64::round]), the saturating cast to [i64], and
    [str::parse::<f64>], which rounds the decimal to the nearest double. *)

From Stdlib Require Import SpecFloat.
From S2P Require Import Prelude Str.

Definition f64_precision : Z := 53.
Definition f64_emax : Z := 1024.
Definition f64 : Type := spec_float.

(** [f64::from_bits]: the sign, eleven bits of exponent, 52 of fraction. *)
Definition f64_from_bits (bits : Z) : f64 :=
  let negative := Z.testbit bits 63 in
  let exponent := Z.land (Z.shiftr bits 52) 2047 in
  let fraction := Z.land bits (2 ^ 52 - 1) in
  if exponent =? 2047
  then (if fraction =? 0 then S754_infinity negative else S754_nan)
  else if exponent =? 0
  then match fraction with
       | Zpos m => S754_finite negative m (-1074)
       | _ => S754_zero negative
       end
  else match 2 ^ 52 + fraction with
       | Zpos m => S754_finite negative m (exponent - 1075)
       | _ => S754_nan
       end.

(** [i as f64], to the nearest. *)
Definition f64_of_i64 (i : Z) : f64 := binary_normalize f64_precision f64_emax i 0 false.

Definition f64_mul : f64 -> f64 -> f64 := SFmul f64_precision f64_emax.
Definition f64_div : f64 -> f64 -> f64 := SFdiv f64_precision f64_emax.

Definition f64_is_finite (x : f64) : bool :=
  match x with S754_zero _ | S754_finite _ _ _ => true | _ => false end.

(** The integer part of a magnitude [m * 2 ^ e], and whether that is all of it. *)
Definition whole_part (m : positive) (e : Z) : Z := Z.shiftl (Zpos m) e.
Definition is_whole (m : positive) (e : Z) : bool :=
  (0 <=? e) || (Zpos m mod 2 ^ (- e) =? 0).

(** [x.fract() == 0.0]. *)
Definition f64_is_integral (x : f64) : bool :=
  match x with
  | S754_zero _ => true
  | S754_finite _ m e => is_whole m e
  | _ => false
  end.

(** [x as i64]: towards zero, saturating, [NaN] to zero. *)
Definition f64_to_i64 (x : f64) : Z :=
  match x with
  | S754_zero _ | S754_nan => 0
  | S754_infinity negative => if negative then I64_MIN else I64_MAX
  | S754_finite negative m e =>
      clamp I64_MIN I64_MAX (if negative then - whole_part m e else whole_part m e)
  end.

(** [x.round()]: half away from zero; a zero keeps its sign. *)
Definition f64_round (x : f64) : f64 :=
  match x with
  | S754_finite negative m e =>
      if 0 <=? e then x
      else
        let rounded := Z.shiftr (Zpos m + 2 ^ (- e - 1)) (- e) in
        binary_normalize f64_precision f64_emax (if negative then - rounded else rounded) 0 negative
  | _ => x
  end.

(** ** [str::parse::<f64>] *)

Definition digit_of (a : ascii) : Z := byte_of a - 48.
(** The leading digits and the rest. *)
Fixpoint leading_digits (s : string) : string * string :=
  match s with
  | String a s' =>
      if is_ascii_digit a
      then let '(digits, rest) := leading_digits s' in (String a digits, rest)
      else (EmptyString, s)
  | EmptyString => (EmptyString, EmptyString)
  end.
(** The number written by digits, most significant first. *)
Definition number_from (acc : Z) (digits : list ascii) : Z :=
  fold_left (fun acc a => acc * 10 + digit_of a) digits acc.
Definition number_of (s : string) : Z := number_from 0 (String.list_ascii_of_string s).

(** An exponent stops growing once it is past every double's. *)
Definition exponent_of (s : string) : Z :=
  fold_left (fun acc a => if acc <? 65536 then acc * 10 + digit_of a else acc)
    (String.list_ascii_of_string s) 0.

(** A leading sign: whether it is a minus, and the rest. *)
Definition split_sign (s : string) : bool * string :=
  match s with
  | String a rest =>
      if Ascii.eqb a "-" then (true, rest) else if Ascii.eqb a "+" then (false, rest) else (false, s)
  | EmptyString => (false, s)
  end.

(** [e] or [E], a sign, at least one digit, and nothing after. *)
Definition parse_exponent (s : string) : option Z :=
  match s with
  | EmptyString => Some 0
  | String a rest =>
      if Ascii.eqb a "e" || Ascii.eqb a "E"
      then
        let '(negative, rest) := split_sign rest in
        let '(digits, rest) := leading_digits rest in
        if is_empty digits || negb (is_empty rest) then None
        else Some (if negative then - exponent_of digits else exponent_of digits)
      else None
  end.

(** The double nearest to [mantissa * 10 ^ exponent]. *)
Definition nearest (negative : bool) (mantissa exponent : Z) : f64 :=
  match mantissa with
  | Zpos m =>
      if 0 <=? exponent
      then binary_normalize f64_precision f64_emax
             (if negative then - (Zpos m * 10 ^ exponent) else Zpos m * 10 ^ exponent) 0 negative
      else match 10 ^ (- exponent) with
           | Zpos power => f64_div (S754_finite negative m 0) (S754_finite false power 0)
           | _ => S754_nan
           end
  | _ => S754_zero negative
  end.

Definition parse_decimal (negative : bool) (s : string) : option f64 :=
  let '(whole, rest) := leading_digits s in
  let '(fraction, rest) :=
    match rest with
    | String a rest' => if Ascii.eqb a "." then leading_digits rest' else (EmptyString, rest)
    | EmptyString => (EmptyString, rest)
    end in
  if is_empty whole && is_empty fraction then None
  else match parse_exponent rest with
       | Some exponent =>
           Some (nearest negative (number_of (whole +:+ fraction))
                   (exponent - Z.of_nat (String.length fraction)))
       | None => None
       end.

Definition f64_parse (s : string) : option f64 :=
  let '(negative, rest) := split_sign s in
  let name := to_ascii_lowercase rest in
  if String.eqb name "inf" || String.eqb name "infinity" then Some (S754_infinity negative)
  else if String.eqb name "nan" then Some S754_nan
  else parse_decimal negative rest.

(** ** Integers *)

(** [str::parse::<i64>]: an optional sign and digits, within the range. *)
Definition i64_parse (s : string) : option Z :=
  let '(negative, digits) := split_sign s in
  if is_empty digits || negb (str_all is_ascii_digit digits) then None
  else
    let n := if negative then - number_of digits else number_of digits in
    if in_i64 n then Some n else None.

(** ** Lemmas *)

Lemma whole_part_nonneg m e : 0 <= whole_part m e.
Proof. unfold whole_part. by apply Z.shiftl_nonneg. Qed.

Lemma f64_to_i64_nonneg x : SFleb (S754_zero false) x = true -> 0 <= f64_to_i64 x.
Proof.
  destruct x as [| [] | |[] m e]; try done. intros _. simpl.
  pose proof (whole_part_nonneg m e). unfold clamp, I64_MIN, I64_MAX. lia.
Qed.

Lemma digit_of_range a : is_ascii_digit a = true -> 0 <= digit_of a <= 9.
Proof. unfold is_ascii_digit, in_range, digit_of. lia. Qed.

Lemma number_from_app acc l1 l2 :
  number_from acc (l1 ++ l2)%list = number_from (number_from acc l1) l2.
Proof. apply fold_left_app. Qed.

Lemma number_from_shift acc l :
  number_from acc l = acc * 10 ^ Z.of_nat (length l) + number_from 0 l.
Proof.
  revert acc. induction l as [|a l IH]; intros acc; [unfold number_from; simpl; lia|].
  change (number_from acc (a :: l)) with (number_from (acc * 10 + digit_of a) l).
  change (number_from 0 (a :: l)) with (number_from (0 * 10 + digit_of a) l).
  rewrite IH, (IH (0 * 10 + _)). simpl length.
  rewrite Nat2Z.inj_succ, Z.pow_succ_r by lia. lia.
Qed.

Lemma number_from_range l :
  Forall (fun a => is_ascii_digit a = true) l ->
  0 <= number_from 0 l < 10 ^ Z.of_nat (length l).
Proof.
  induction 1 as [|a l Ha _ IH]; [unfold number_from; simpl; lia|].
  change (number_from 0 (a :: l)) with (number_from (0 * 10 + digit_of a) l).
  rewrite number_from_shift. apply digit_of_range in Ha. simpl length.
  rewrite Nat2Z.inj_succ, Z.pow_succ_r by lia.
  pose proof (Z.pow_nonneg 10 (Z.of_nat (length l))). nia.
Qed.

(** ** Examples *)

Example f64_bits : f64_from_bits 4607182418800017408 = f64_of_i64 1.
Proof. reflexivity. Qed.
Example f64_tenth : f64_parse "0.1" = Some (f64_from_bits 4591870180066957722).
Proof. reflexivity. Qed.
Example f64_exponent : f64_parse "-1.5e-6" = Some (f64_from_bits 13743062413204317268).
Proof. reflexivity. Qed.
Example f64_large : f64_parse "1E23" = Some (f64_from_bits 4950912855330343670).
Proof. reflexivity. Qed.
Example f64_least : f64_parse "5e-324" = Some (f64_from_bits 1).
Proof. reflexivity. Qed.
Example f64_half : f64_round (f64_div (f64_of_i64 (-5)) (f64_of_i64 2)) = f64_of_i64 (-3).
Proof. reflexivity. Qed.
Example f64_refused : map f64_parse [""; "."; "e5"; "1e"; "1.5 "] = [None; None; None; None; None].
Proof. reflexivity. Qed.
