(* ===== verification/Sql.v ===== *)
(** * Databases

    The tables of a database and the calls on them, as [sqlx] documents its pools: a
    statement fails or takes effect whole, a transaction is undone unless it is
    committed, and a call whose answer is lost may have happened. The tables are any
    type: the usage tables and the controller's are both kept this way. *)

From S2P Require Import Prelude Str.

(** ** Statements and transactions *)

(** What happens to a call on the database: it runs, it fails, or its answer is lost
    after it took effect. *)
Inductive fault : Type := Runs | Fails | AnswerLost.

Record Connection (T : Type) : Type := {
  tables : T;
  executed : nat;
  faults : nat -> fault;
}.
Arguments tables {T} _.
Arguments executed {T} _.
Arguments faults {T} _.
Arguments Build_Connection {T} _ _ _.

Section database.
Context {T : Type}.

(** One statement; [None] is the database's own refusal. *)
Definition statement {A} (what : string) (run : T -> option (A * T))
  : ST (Connection T) string A := fun c =>
  let after t := {| tables := t; executed := S (executed c); faults := faults c |} in
  match faults c (executed c), run (tables c) with
  | Runs, Some (a, t) => (Ok a, after t)
  | AnswerLost, Some (_, t) => (Err what, after t)
  | _, _ => (Err what, after (tables c))
  end.

(** [pool.begin()], the statements, [commit()]: an error before the commit drops the
    transaction, which rolls back. *)
Definition transaction {A} (body : ST (Connection T) string A) : ST (Connection T) string A := fun c =>
  let before := tables c in
  let rolled_back c := {| tables := before; executed := executed c; faults := faults c |} in
  match statement "begin transaction" (fun t => Some (tt, t)) c with
  | (Err e, c) => (Err e, rolled_back c)
  | (Ok _, c) =>
      match body c with
      | (Err e, c) => (Err e, rolled_back c)
      | (Ok a, c) =>
          let next := {| tables := tables c; executed := S (executed c); faults := faults c |} in
          match faults c (executed c) with
          | Runs => (Ok a, next)
          | AnswerLost => (Err "commit", next)
          | Fails => (Err "commit", rolled_back next)
          end
      end
  end.

(** A statement that reads. *)
Definition query {B} (what : string) (run : T -> option B) : ST (Connection T) string B :=
  statement what (fun t => b ← run t; Some (b, t)).

Definition connected (f : nat -> fault) (t : T) : Connection T :=
  {| tables := t; executed := 0; faults := f |}.

(** ** What a computation does unless the database fails *)

Definition healthy (c : Connection T) : Prop := forall n, faults c n = Runs.
Definition does {B} (m : ST (Connection T) string B) (t : T) (b : B) (t' : T) : Prop :=
  forall c, tables c = t ->
    faults (snd (m c)) = faults c /\
    match m c with (Ok b', c') => b' = b /\ tables c' = t' | (Err _, _) => ~ healthy c end.
(** The same of a computation that may also fail after it took effect. *)
Definition does_or_not {B} (m : ST (Connection T) string B) (t : T) (b : B) (t' : T) : Prop :=
  forall c, tables c = t ->
    match m c with
    | (Ok b', c') => b' = b /\ tables c' = t'
    | (Err _, c') => ~ healthy c /\ (tables c' = t \/ tables c' = t')
    end.

Lemma does_ret {B} (b : B) t : does (st_ret b) t b t.
Proof. by intros c <-. Qed.
Lemma does_statement {B} what (run : T -> option (B * T)) t b t' :
  run t = Some (b, t') -> does (statement what run) t b t'.
Proof.
  intros Hr c Hc. unfold statement. rewrite Hc, Hr.
  destruct (faults c (executed c)) eqn:E; (split; [done|]); [done| |]; intros Hh; by rewrite Hh in E.
Qed.
Lemma does_bind {B C} (m : ST (Connection T) string B) (k : B -> ST (Connection T) string C) t b t1 d t2 :
  does m t b t1 -> does (k b) t1 d t2 -> does (st_bind m k) t d t2.
Proof.
  intros Hm Hk c Hc. specialize (Hm c Hc). unfold st_bind.
  destruct (m c) as [[b'|e] c1]; simpl in *; [|done]. destruct Hm as (Hf & -> & Ht).
  specialize (Hk c1 Ht). unfold healthy in *. by rewrite <- Hf.
Qed.
Lemma does_transaction {B} (body : ST (Connection T) string B) t b t' :
  does body t b t' -> does_or_not (transaction body) t b t'.
Proof.
  intros Hb c Hc. unfold transaction.
  pose proof (does_statement "begin transaction" (fun t => Some (tt, t)) t tt t eq_refl c Hc) as [Hf Hm].
  destruct (statement _ _ c) as [[[]|e] c1]; simpl in *; [|by split; [|left]].
  destruct Hm as [_ Ht]. specialize (Hb c1 Ht) as [Hf' Hm].
  destruct (body c1) as [[b'|e] c2]; simpl in *.
  - destruct Hm as [-> Ht']. destruct (faults c2 (executed c2)) eqn:E; simpl; [done| |];
      (split; [|auto]); intros Hh; rewrite Hf', Hf in E; by rewrite Hh in E.
  - split; [|by left]. unfold healthy in *. by rewrite Hf in Hm.
Qed.

(** ** Invariants of the tables *)

(** A computation that keeps a property of the tables. *)
Definition keeps {E B} (P : T -> Prop) (m : ST (Connection T) E B) : Prop :=
  forall c, P (tables c) -> P (tables (snd (m c))).
Lemma keeps_ret {E B} P (b : B) : keeps (E := E) P (st_ret b).
Proof. by intros c. Qed.
Lemma keeps_bind {E B C} P (m : ST (Connection T) E B) (k : B -> ST (Connection T) E C) :
  keeps P m -> (forall b, keeps P (k b)) -> keeps P (st_bind m k).
Proof.
  intros Hm Hk c Hc. specialize (Hm c Hc). unfold st_bind. destruct (m c) as [[b|e] c']; simpl in *; [by apply Hk|done].
Qed.
Lemma keeps_map_err {E F B} P (f : E -> F) (m : ST (Connection T) E B) : keeps P m -> keeps P (st_map_err f m).
Proof. intros Hm c Hc. specialize (Hm c Hc). unfold st_map_err. by destruct (m c) as [[b|e] c']. Qed.
Lemma keeps_statement {B} P what (run : T -> option (B * T)) :
  (forall t b t', P t -> run t = Some (b, t') -> P t') -> keeps P (statement what run).
Proof.
  intros Hrun c Hc. unfold statement. destruct (faults c (executed c)), (run (tables c)) as [[b t']|] eqn:E;
    simpl; eauto.
Qed.
Lemma keeps_transaction {B} P (body : ST (Connection T) string B) : keeps P body -> keeps P (transaction body).
Proof.
  intros Hb c Hc. unfold transaction.
  pose proof (keeps_statement P "begin transaction" (fun t => Some (tt, t)) ltac:(intros; by simplify_eq/=) c Hc) as H1.
  destruct (statement _ _ c) as [[[]|e] c1]; [|done]. simpl in H1. specialize (Hb c1 H1).
  destruct (body c1) as [[b|e] c2]; [|done]. simpl in *. by destruct (faults c2 (executed c2)).
Qed.
Lemma keeps_iter {E B} P (f : B -> ST (Connection T) E unit) l :
  (forall b, b ∈ l -> keeps P (f b)) -> keeps P (st_iter f l).
Proof.
  induction l as [|b l IH]; intros Hf; simpl; [apply keeps_ret|].
  apply keeps_bind; [apply Hf; by left|]. intros _. apply IH. intros b' Hb. apply Hf. by right.
Qed.
Lemma keeps_query {B} P what (run : T -> option B) : keeps P (query what run).
Proof.
  apply keeps_statement. intros t b t' Ht Hr. destruct (run t); simplify_eq/=. done.
Qed.

(** ** All or nothing *)

Lemma statement_cases {B} what (run : T -> option (B * T)) c r c' : statement what run c = (r, c') ->
  match r with
  | Ok b => run (tables c) = Some (b, tables c')
  | Err _ => tables c' = tables c \/ exists b, run (tables c) = Some (b, tables c')
  end.
Proof.
  unfold statement. intros H. destruct (faults c (executed c)), (run (tables c)) as [[b t]|];
    injection H as <- <-; simpl; eauto.
Qed.
Lemma query_tables {B} what (run : T -> option B) c r c' : query what run c = (r, c') ->
  tables c' = tables c /\ forall b, r = Ok b -> run (tables c) = Some b.
Proof.
  intros H%statement_cases. destruct r as [b|e].
  - destruct (run (tables c)); simplify_eq/=. split; [done|]. by intros ? [= ->].
  - split; [|done]. destruct H as [?|(b & H)]; [done|]. by destruct (run (tables c)); simplify_eq/=.
Qed.
(** A transaction changes nothing, or what its body did. *)
Lemma transaction_cases {B} (body : ST (Connection T) string B) c r c' : transaction body c = (r, c') ->
  exists c0, tables c0 = tables c /\
  match r with
  | Ok b => exists c1, body c0 = (Ok b, c1) /\ tables c' = tables c1
  | Err _ => tables c' = tables c \/ exists b c1, body c0 = (Ok b, c1) /\ tables c' = tables c1
  end.
Proof.
  unfold transaction. intros H.
  destruct (statement "begin transaction" _ c) as [[[]|e] c0] eqn:E.
  - apply statement_cases in E. injection E as E. exists c0. split; [done|].
    destruct (body c0) as [[b|e] c1] eqn:Eb; [|injection H as <- <-; by left].
    destruct (faults c1 (executed c1)); injection H as <- <-; simpl; eauto.
  - exists c. split; [done|]. injection H as <- <-. by left.
Qed.
End database.
