(* ===== verification/Usage.v ===== *)
(** * Usage: records, totals and reporting windows ([crates/usage/src/lib.rs])

    What the usage of language models is summed by, the sums themselves, which
    saturate at [i64], and the windows of a report: equal buckets, hours or local days,
    that end with the current one. Timestamps are seconds; they are plain integers, far
    from the ends of [i64] for any clock reading below [2 ^ 62]. *)

From Stdlib Require Import SpecFloat.
From S2P Require Import Prelude Str Float.

Definition HOUR : Z := 60 * 60.
Definition DAY : Z := 24 * HOUR.
Definition HOURLY_RETENTION : Z := 90 * DAY.
Definition DAILY_RETENTION : Z := 395 * DAY.
Definition RECEIPT_RETENTION : Z := 7 * DAY.
Definition MAX_UTC_OFFSET_MINUTES : Z := 14 * 60.

(** ** Records *)

Inductive Billing : Type := Api | Subscription.
#[global] Instance Billing_eq_dec : EqDecision Billing.
Proof. solve_decision. Defined.

Definition billing_as_str (b : Billing) : string :=
  match b with Api => "api" | Subscription => "subscription" end.

Record RollupKey : Type := {
  ru_bucket_start : Z;
  ru_subject : string;
  ru_device_id : string;
  ru_client_id : string;
  ru_provider : string;
  ru_model : string;
  ru_billing : Billing;
}.
#[global] Instance RollupKey_eq_dec : EqDecision RollupKey.
Proof. solve_decision. Defined.

Record Measures : Type := {
  ms_requests : Z;
  ms_errors : Z;
  ms_input_tokens : Z;
  ms_output_tokens : Z;
  ms_cache_read_tokens : Z;
  ms_cache_write_tokens : Z;
  ms_cost_nanos : Z;
  ms_unpriced_requests : Z;
}.
#[global] Instance Measures_eq_dec : EqDecision Measures.
Proof. solve_decision. Defined.

(** [Measures::default]. *)
Definition no_measures : Measures :=
  {| ms_requests := 0; ms_errors := 0; ms_input_tokens := 0; ms_output_tokens := 0;
     ms_cache_read_tokens := 0; ms_cache_write_tokens := 0; ms_cost_nanos := 0;
     ms_unpriced_requests := 0 |}.

(** [Measures::add]. *)
Definition measures_add (m other : Measures) : Measures :=
  let add f := i64_saturating_add (f m) (f other) in
  {| ms_requests := add ms_requests; ms_errors := add ms_errors;
     ms_input_tokens := add ms_input_tokens; ms_output_tokens := add ms_output_tokens;
     ms_cache_read_tokens := add ms_cache_read_tokens;
     ms_cache_write_tokens := add ms_cache_write_tokens;
     ms_cost_nanos := add ms_cost_nanos;
     ms_unpriced_requests := add ms_unpriced_requests |}.

Record UsageRecord : Type := {
  us_id : string;
  us_key : RollupKey;
  us_measures : Measures;
}.

(** ** Totals *)

Record Totals : Type := {
  tt_requests : Z;
  tt_errors : Z;
  tt_input_tokens : Z;
  tt_output_tokens : Z;
  tt_cache_read_tokens : Z;
  tt_cache_write_tokens : Z;
  tt_cost_nanos : Z;
  tt_subscription_cost_nanos : Z;
  tt_subscription_requests : Z;
  tt_unpriced_requests : Z;
}.

Definition no_totals : Totals :=
  {| tt_requests := 0; tt_errors := 0; tt_input_tokens := 0; tt_output_tokens := 0;
     tt_cache_read_tokens := 0; tt_cache_write_tokens := 0; tt_cost_nanos := 0;
     tt_subscription_cost_nanos := 0; tt_subscription_requests := 0;
     tt_unpriced_requests := 0 |}.

(** [Totals::add]. *)
Definition totals_add (t other : Totals) : Totals :=
  let add f := i64_saturating_add (f t) (f other) in
  {| tt_requests := add tt_requests; tt_errors := add tt_errors;
     tt_input_tokens := add tt_input_tokens; tt_output_tokens := add tt_output_tokens;
     tt_cache_read_tokens := add tt_cache_read_tokens;
     tt_cache_write_tokens := add tt_cache_write_tokens;
     tt_cost_nanos := add tt_cost_nanos;
     tt_subscription_cost_nanos := add tt_subscription_cost_nanos;
     tt_subscription_requests := add tt_subscription_requests;
     tt_unpriced_requests := add tt_unpriced_requests |}.

(** [Totals::rank]. *)
Definition rank (t : Totals) : Z * Z * Z :=
  (i64_saturating_add (tt_cost_nanos t) (tt_subscription_cost_nanos t),
   i64_saturating_add (tt_input_tokens t) (tt_output_tokens t),
   tt_requests t).

(** [unsigned] and [dollars]. *)
Definition unsigned (value : Z) : Z := if 0 <=? value then value else 0.
Definition dollars (nanos : Z) : f64 := f64_div (f64_of_i64 nanos) (f64_of_i64 1000000000).

(** [model::UsageTotals] and [fleet::UsageTotals]. *)
Record ModelTotals : Type := {
  mt_requests : Z;
  mt_errors : Z;
  mt_input_tokens : Z;
  mt_output_tokens : Z;
  mt_cache_read_tokens : Z;
  mt_cache_write_tokens : Z;
  mt_cost_usd : f64;
  mt_subscription_cost_usd : f64;
  mt_subscription_requests : Z;
  mt_unpriced_requests : Z;
}.
Record FleetTotals : Type := {
  ft_requests : Z;
  ft_errors : Z;
  ft_input_tokens : Z;
  ft_output_tokens : Z;
  ft_cache_read_tokens : Z;
  ft_cache_write_tokens : Z;
  ft_cost_nanos : Z;
  ft_subscription_cost_nanos : Z;
  ft_subscription_requests : Z;
  ft_unpriced_requests : Z;
}.

Definition to_model (t : Totals) : ModelTotals :=
  {| mt_requests := unsigned (tt_requests t); mt_errors := unsigned (tt_errors t);
     mt_input_tokens := unsigned (tt_input_tokens t);
     mt_output_tokens := unsigned (tt_output_tokens t);
     mt_cache_read_tokens := unsigned (tt_cache_read_tokens t);
     mt_cache_write_tokens := unsigned (tt_cache_write_tokens t);
     mt_cost_usd := dollars (tt_cost_nanos t);
     mt_subscription_cost_usd := dollars (tt_subscription_cost_nanos t);
     mt_subscription_requests := unsigned (tt_subscription_requests t);
     mt_unpriced_requests := unsigned (tt_unpriced_requests t) |}.
Definition to_proto (t : Totals) : FleetTotals :=
  {| ft_requests := unsigned (tt_requests t); ft_errors := unsigned (tt_errors t);
     ft_input_tokens := unsigned (tt_input_tokens t);
     ft_output_tokens := unsigned (tt_output_tokens t);
     ft_cache_read_tokens := unsigned (tt_cache_read_tokens t);
     ft_cache_write_tokens := unsigned (tt_cache_write_tokens t);
     ft_cost_nanos := tt_cost_nanos t;
     ft_subscription_cost_nanos := tt_subscription_cost_nanos t;
     ft_subscription_requests := unsigned (tt_subscription_requests t);
     ft_unpriced_requests := unsigned (tt_unpriced_requests t) |}.

(** ** Dimensions and filters *)

Inductive Dimension : Type := ByUser | ByDevice | ByTool | ByProvider | ByModel.
#[global] Instance Dimension_eq_dec : EqDecision Dimension.
Proof. solve_decision. Defined.

(** [Dimension::parse]. *)
Definition parse_dimension (name : string) : option Dimension :=
  if String.eqb name "user" then Some ByUser
  else if String.eqb name "device" then Some ByDevice
  else if String.eqb name "tool" then Some ByTool
  else if String.eqb name "provider" then Some ByProvider
  else if String.eqb name "model" then Some ByModel
  else None.
(** [Dimension::name] and [Dimension::column]. *)
Definition dimension_name (d : Dimension) : string :=
  match d with
  | ByUser => "user" | ByDevice => "device" | ByTool => "tool"
  | ByProvider => "provider" | ByModel => "model"
  end.
Definition dimension_column (d : Dimension) : string :=
  match d with
  | ByUser => "subject" | ByDevice => "device_id" | ByTool => "client_id"
  | ByProvider => "provider" | ByModel => "model"
  end.

Definition Filter : Type := list (Dimension * string).
(** [Filter::with] and [Filter::without]. *)
Definition filter_with (f : Filter) (d : Dimension) (value : string) : Filter :=
  (f ++ [(d, value)])%list.
Definition filter_without (f : Filter) (dimensions : list Dimension) : Filter :=
  retain (fun '(d, _) => negb (bool_decide (d ∈ dimensions))) f.

(** ** Sorting *)

(** [slice::sort_by], which is stable: an element goes before its equals that follow. *)
Section sort_by.
Context {A : Type} (le : A -> A -> bool).
Fixpoint insert_by (x : A) (l : list A) : list A :=
  match l with
  | [] => [x]
  | y :: l' => if le x y then x :: l else y :: insert_by x l'
  end.
Definition sort_by (l : list A) : list A := foldr insert_by [] l.

Lemma insert_by_Permutation x l : insert_by x l ≡ₚ x :: l.
Proof.
  induction l as [|y l IH]; simpl; [done|]. destruct (le x y); [done|]. by rewrite IH, Permutation_swap.
Qed.
Lemma sort_by_Permutation l : sort_by l ≡ₚ l.
Proof. induction l as [|x l IH]; simpl; [done|]. by rewrite insert_by_Permutation, IH. Qed.
Lemma sort_by_Sorted l : (forall x y, le x y = false -> le y x = true) ->
  Sorted (fun x y => le x y = true) (sort_by l).
Proof.
  intros Htotal. induction l as [|x l IH]; simpl; [constructor|].
  assert (forall a l, le a x = true -> HdRel (fun x y => le x y = true) a l ->
    HdRel (fun x y => le x y = true) a (insert_by x l)) as Hhead.
  { intros a l' Ha Hh. destruct Hh as [|b l' Hb]; simpl; [by constructor|].
    destruct (le x b); by constructor. }
  induction IH as [|y l' Hs IHs Hh]; simpl; [by repeat constructor|].
  destruct (le x y) eqn:E; [by repeat constructor|]. constructor; [done|]. apply Hhead; auto.
Qed.
End sort_by.

(** ** Windows *)

Record Window : Type := {
  wd_start : Z;
  wd_end : Z;
  wd_bucket_seconds : Z;
  wd_utc_offset_seconds : Z;
}.

Definition local_day_start (timestamp utc_offset_seconds : Z) : Z :=
  (timestamp + utc_offset_seconds) / DAY * DAY - utc_offset_seconds.

(** The bucket length and the number of buckets of a range. *)
Definition range_buckets (range : string) : option (Z * Z) :=
  if String.eqb range "24h" then Some (HOUR, 24)
  else if String.eqb range "7d" then Some (DAY, 7)
  else if String.eqb range "30d" then Some (DAY, 30)
  else if String.eqb range "90d" then Some (DAY, 90)
  else None.

(** [Window::preset]. *)
Definition preset (range : string) (now utc_offset_minutes : Z) : option Window :=
  if negb ((- MAX_UTC_OFFSET_MINUTES <=? utc_offset_minutes)
           && (utc_offset_minutes <=? MAX_UTC_OFFSET_MINUTES))
  then None
  else
    let utc_offset_seconds := utc_offset_minutes * 60 in
    match range_buckets range with
    | None => None
    | Some (bucket_seconds, buckets) =>
        let window_end :=
          if bucket_seconds =? HOUR then now / HOUR * HOUR + HOUR
          else local_day_start now utc_offset_seconds + DAY in
        Some {| wd_start := window_end - buckets * bucket_seconds;
                wd_end := window_end;
                wd_bucket_seconds := bucket_seconds;
                wd_utc_offset_seconds := utc_offset_seconds |}
    end.

(** [Window::previous]. *)
Definition previous (w : Window) (now : Z) : Window :=
  let start := wd_start w - (wd_end w - wd_start w) in
  let start := if start <? now - HOURLY_RETENTION then (start + DAY / 2) / DAY * DAY else start in
  {| wd_start := start; wd_end := wd_start w;
     wd_bucket_seconds := wd_bucket_seconds w;
     wd_utc_offset_seconds := wd_utc_offset_seconds w |}.

(** [Window::bucket_count], [bucket_start] and [bucket_index]. *)
Definition bucket_count (w : Window) : nat :=
  Z.to_nat (Z.quot (wd_end w - wd_start w) (wd_bucket_seconds w)).
Definition bucket_start (w : Window) (index : nat) : Z :=
  wd_start w + (if Z.of_nat index <=? I64_MAX then Z.of_nat index else 0) * wd_bucket_seconds w.
Definition bucket_index (w : Window) (rollup_start : Z) : option nat :=
  let start :=
    if wd_bucket_seconds w =? DAY then local_day_start rollup_start (wd_utc_offset_seconds w)
    else rollup_start / HOUR * HOUR in
  if (start <? wd_start w) || (wd_end w <=? start) then None
  else
    let index := Z.quot (start - wd_start w) (wd_bucket_seconds w) in
    if 0 <=? index then Some (Z.to_nat index) else None.

(** ** What a window is *)

Lemma floor_spec n d : 0 < d -> n / d * d <= n < n / d * d + d.
Proof. intros Hd. pose proof (Z.mod_pos_bound n d Hd). pose proof (Z.div_mod n d). lia. Qed.

Lemma local_day_spec t offset :
  local_day_start t offset <= t < local_day_start t offset + DAY.
Proof.
  unfold local_day_start. pose proof (floor_spec (t + offset) DAY ltac:(unfold DAY, HOUR; lia)). lia.
Qed.

(** A window of a report: a number of whole buckets from a bucket's start, which is a
    whole hour or a local midnight. *)
Record report_window (w : Window) : Prop := {
  rw_seconds : wd_bucket_seconds w = HOUR \/ wd_bucket_seconds w = DAY;
  rw_whole : exists n, 0 < n <= 90 /\ wd_end w = wd_start w + n * wd_bucket_seconds w;
  rw_aligned : exists k,
    wd_start w + (if wd_bucket_seconds w =? DAY then wd_utc_offset_seconds w else 0)
    = k * wd_bucket_seconds w;
}.

(** Where the buckets of a window begin. *)
Definition bucket_floor (w : Window) (t : Z) : Z :=
  if wd_bucket_seconds w =? DAY then local_day_start t (wd_utc_offset_seconds w)
  else t / HOUR * HOUR.

Lemma bucket_floor_spec w t : report_window w ->
  bucket_floor w t <= t < bucket_floor w t + wd_bucket_seconds w /\
  exists k, bucket_floor w t = wd_start w + k * wd_bucket_seconds w.
Proof.
  intros [Hs _ [k Hk]]. unfold bucket_floor in *. destruct (Z.eqb_spec (wd_bucket_seconds w) DAY) as [E|E].
  - rewrite E. split; [apply local_day_spec|]. unfold local_day_start.
    exists ((t + wd_utc_offset_seconds w) / DAY - k). rewrite E in Hk. lia.
  - destruct Hs as [Hs|]; [|done]. rewrite Hs in *. split; [by apply floor_spec|].
    exists (t / HOUR - k). lia.
Qed.

Lemma same_bucket s b t k j :
  0 < b -> s + k * b <= t < s + k * b + b -> s + j * b <= t < s + j * b + b -> k = j.
Proof. intros. nia. Qed.

Lemma bucket_count_spec w n : report_window w -> wd_end w = wd_start w + n * wd_bucket_seconds w ->
  0 < n -> bucket_count w = Z.to_nat n.
Proof.
  intros [Hs _ _] He Hn. unfold bucket_count. f_equal.
  replace (wd_end w - wd_start w) with (n * wd_bucket_seconds w) by lia.
  apply Z.quot_mul. destruct Hs as [->| ->]; unfold DAY, HOUR; lia.
Qed.

Lemma bucket_start_small w i : report_window w -> (i < bucket_count w)%nat ->
  bucket_start w i = wd_start w + Z.of_nat i * wd_bucket_seconds w.
Proof.
  intros Hw Hi. pose proof Hw as [_ (n & Hn & He) _].
  rewrite (bucket_count_spec w n Hw He) in Hi by lia.
  unfold bucket_start. rewrite (proj2 (Z.leb_le _ _)); [done|]. unfold I64_MAX. lia.
Qed.

(** The bucket of a rollup is the one its start falls in. *)
Lemma bucket_index_exact w t i : report_window w ->
  bucket_index w t = Some i <->
  (i < bucket_count w)%nat /\ bucket_start w i <= t < bucket_start w i + wd_bucket_seconds w.
Proof.
  intros Hw. pose proof Hw as [Hs (n & Hn & He) _].
  pose proof (bucket_count_spec w n Hw He ltac:(lia)) as Hcount.
  destruct (bucket_floor_spec w t Hw) as [Hf [k Hk]].
  unfold bucket_index. change (if wd_bucket_seconds w =? DAY then _ else _) with (bucket_floor w t).
  assert (0 < wd_bucket_seconds w) as Hb by (destruct Hs as [->| ->]; unfold DAY, HOUR; lia).
  set (b := wd_bucket_seconds w) in *. rewrite Hk in *.
  replace (wd_start w + k * b - wd_start w) with (k * b) by lia. rewrite Z.quot_mul by lia.
  assert ((wd_start w + k * b <? wd_start w) = (k <? 0)) as -> by
    (destruct (Z.ltb_spec k 0); [apply Z.ltb_lt|apply Z.ltb_ge]; nia).
  assert ((wd_end w <=? wd_start w + k * b) = (n <=? k)) as -> by
    (destruct (Z.leb_spec n k); [apply Z.leb_le|apply Z.leb_gt]; nia).
  split.
  - destruct (Z.ltb_spec k 0); [done|]. destruct (Z.leb_spec n k); [done|]. simpl.
    rewrite (proj2 (Z.leb_le _ _)) by lia. intros [= <-].
    assert (Z.to_nat k < bucket_count w)%nat as Hi by lia. split; [done|].
    rewrite bucket_start_small by done. fold b. rewrite Z2Nat.id by lia. lia.
  - intros [Hi Ht]. rewrite bucket_start_small in Ht by done. fold b in Ht.
    assert (k = Z.of_nat i) as -> by (eapply (same_bucket (wd_start w) b t); lia).
    rewrite (proj2 (Z.ltb_ge _ _)), (proj2 (Z.leb_gt _ _)) by lia. simpl.
    rewrite (proj2 (Z.leb_le _ _)) by lia. by rewrite Nat2Z.id.
Qed.

Lemma preset_inv range now offset w : preset range now offset = Some w ->
  - MAX_UTC_OFFSET_MINUTES <= offset <= MAX_UTC_OFFSET_MINUTES /\
  exists n, range_buckets range = Some (wd_bucket_seconds w, n) /\ 0 < n <= 90 /\
    wd_utc_offset_seconds w = offset * 60 /\ wd_end w = wd_start w + n * wd_bucket_seconds w /\
    (wd_bucket_seconds w = HOUR \/ wd_bucket_seconds w = DAY) /\
    wd_end w = bucket_floor w now + wd_bucket_seconds w.
Proof.
  unfold preset. destruct (_ && _) eqn:Ho; [|done]. simpl.
  destruct (range_buckets range) as [[b n]|] eqn:Er; [|done]. intros [= <-]. simpl.
  split; [lia|]. exists n. unfold bucket_floor. simpl.
  unfold range_buckets in Er. repeat case_match; simplify_eq; simpl;
    unfold local_day_start, DAY, HOUR; repeat split; try lia; auto.
Qed.

Lemma preset_window range now offset w :
  preset range now offset = Some w -> report_window w.
Proof.
  intros (_ & n & _ & Hn & Ho & He & Hs & Hend)%preset_inv. split; [done|by exists n|].
  unfold bucket_floor in Hend.
  destruct (Z.eqb_spec (wd_bucket_seconds w) DAY) as [E|E].
  - exists ((now + wd_utc_offset_seconds w) / DAY + 1 - n). unfold local_day_start in Hend. rewrite E in *. lia.
  - destruct Hs as [Hs|]; [|done]. exists (now / HOUR + 1 - n). rewrite Hs in *. lia.
Qed.

(** A report's window ends with the bucket of the present. *)
Lemma preset_now range now offset w : preset range now offset = Some w ->
  wd_start w <= now < wd_end w /\ wd_end w - wd_start w <= 90 * DAY /\ wd_end w <= now + DAY.
Proof.
  intros Hp. pose proof (preset_window _ _ _ _ Hp) as Hw.
  apply preset_inv in Hp as (_ & n & _ & Hn & Ho & He & Hs & Hend).
  destruct (bucket_floor_spec w now Hw) as [Hf _].
  destruct Hs as [Hs|Hs]; rewrite Hs in *; unfold DAY, HOUR in *; lia.
Qed.
