(* ===== verification/UsageStore.v ===== *)
(** * Usage storage ([crates/usage/src/store.rs])

    The two tables, keyed by their primary keys, and the statements run on them: a
    statement fails or takes effect whole, a transaction is undone unless it is
    committed, and a commit whose answer is lost may have happened. Sums are the
    database's ([SqlArithmetic]): exact where they fit [BIGINT]. *)

From S2P Require Import Prelude Str Sql Usage.

(** ** Tables *)

(** The primary key of [usage_rollups]. *)
Record RowKey : Type := {
  rk_bucket_start : Z;
  rk_bucket_seconds : Z;
  rk_subject : string;
  rk_device_id : string;
  rk_client_id : string;
  rk_provider : string;
  rk_model : string;
  rk_billing : string;
}.
#[global] Instance RowKey_eq_dec : EqDecision RowKey.
Proof. solve_decision. Defined.
#[global] Instance RowKey_countable : Countable RowKey.
Proof.
  refine (inj_countable'
    (fun k => (rk_bucket_start k, rk_bucket_seconds k, rk_subject k, rk_device_id k,
               rk_client_id k, rk_provider k, rk_model k, rk_billing k))
    (fun '(a, b, c, d, e, f, g, h) =>
       {| rk_bucket_start := a; rk_bucket_seconds := b; rk_subject := c; rk_device_id := d;
          rk_client_id := e; rk_provider := f; rk_model := g; rk_billing := h |}) _).
  by intros [].
Defined.

(** [usage_receipts] (identifier to [received_at]) and [usage_rollups]. *)
Record Tables : Type := {
  receipts : gmap string Z;
  rollups : gmap RowKey Measures;
}.
Definition set_receipts (r : gmap string Z) (t : Tables) : Tables :=
  {| receipts := r; rollups := rollups t |}.
Definition set_rollups (r : gmap RowKey Measures) (t : Tables) : Tables :=
  {| receipts := receipts t; rollups := r |}.

(** [BIGINT] addition and [SUM(..)] cast to [BIGINT]; what an overflow does is the
    database's own (an error, or in SQLite a floating-point value). *)
Class SqlArithmetic : Type := {
  sql_add : Z -> Z -> option Z;
  sql_sum : list Z -> option Z;
}.
Definition sum_list (l : list Z) : Z := foldr Z.add 0 l.
Class SqlArithmeticLaws (S : SqlArithmetic) : Prop := {
  sql_add_exact a b : 0 <= a -> 0 <= b -> a + b <= I64_MAX -> sql_add a b = Some (a + b);
  sql_sum_exact l : Forall (fun x => 0 <= x) l -> sum_list l <= I64_MAX ->
    sql_sum l = Some (sum_list l);
}.

(** ** Storing records *)

Section arithmetic.
Context {A : SqlArithmetic}.

(** [requests = usage_rollups.requests + excluded.requests, ..] ([add_measures!]). *)
Definition add_measures (row excluded : Measures) : option Measures :=
  let add f := sql_add (f row) (f excluded) in
  requests ← add ms_requests;
  errors ← add ms_errors;
  input_tokens ← add ms_input_tokens;
  output_tokens ← add ms_output_tokens;
  cache_read_tokens ← add ms_cache_read_tokens;
  cache_write_tokens ← add ms_cache_write_tokens;
  cost_nanos ← add ms_cost_nanos;
  unpriced_requests ← add ms_unpriced_requests;
  Some {| ms_requests := requests; ms_errors := errors; ms_input_tokens := input_tokens;
          ms_output_tokens := output_tokens; ms_cache_read_tokens := cache_read_tokens;
          ms_cache_write_tokens := cache_write_tokens; ms_cost_nanos := cost_nanos;
          ms_unpriced_requests := unpriced_requests |}.

(** [INSERT .. ON CONFLICT .. DO UPDATE SET ..] of one row. *)
Definition upsert (key : RowKey) (m : Measures) (rows : gmap RowKey Measures)
  : option (gmap RowKey Measures) :=
  match rows !! key with
  | None => Some (<[key := m]> rows)
  | Some row => sum ← add_measures row m; Some (<[key := sum]> rows)
  end.

(** The row of an hourly rollup. *)
Definition hourly_row (k : RollupKey) : RowKey :=
  {| rk_bucket_start := ru_bucket_start k; rk_bucket_seconds := HOUR;
     rk_subject := ru_subject k; rk_device_id := ru_device_id k;
     rk_client_id := ru_client_id k; rk_provider := ru_provider k;
     rk_model := ru_model k; rk_billing := billing_as_str (ru_billing k) |}.

(** [INSERT INTO usage_receipts .. ON CONFLICT (id) DO NOTHING]: whether it is new. *)
Definition insert_receipt (id : string) (received_at : Z) (t : Tables) : option (bool * Tables) :=
  match receipts t !! id with
  | Some _ => Some (false, t)
  | None => Some (true, set_receipts (<[id := received_at]> (receipts t)) t)
  end.

(** [BTreeMap<&RollupKey, Measures>]: distinct keys with their sums, and
    [rollups.entry(&record.key).or_default().add(&record.measures)]. *)
Fixpoint add_rollup (key : RollupKey) (m : Measures) (sums : list (RollupKey * Measures))
  : list (RollupKey * Measures) :=
  match sums with
  | [] => [(key, measures_add no_measures m)]
  | (key', m') :: sums =>
      if decide (key' = key) then (key', measures_add m' m) :: sums
      else (key', m') :: add_rollup key m sums
  end.

(** The derived order of [RollupKey]: field by field. *)
Definition lexicographic (c next : comparison) : comparison :=
  match c with Eq => next | _ => c end.
Definition compare_keys (k k' : RollupKey) : comparison :=
  lexicographic (Z.compare (ru_bucket_start k) (ru_bucket_start k'))
  (lexicographic (String.compare (ru_subject k) (ru_subject k'))
  (lexicographic (String.compare (ru_device_id k) (ru_device_id k'))
  (lexicographic (String.compare (ru_client_id k) (ru_client_id k'))
  (lexicographic (String.compare (ru_provider k) (ru_provider k'))
  (lexicographic (String.compare (ru_model k) (ru_model k'))
  (match ru_billing k, ru_billing k' with
   | Api, Subscription => Lt | Subscription, Api => Gt | _, _ => Eq end)))))).
Definition rollup_le (a b : RollupKey * Measures) : Prop := compare_keys (fst a) (fst b) <> Gt.
#[global] Instance rollup_le_dec : RelDecision rollup_le.
Proof. intros a b. unfold rollup_le. apply _. Defined.
(** [for (key, measures) in rollups]. *)
Definition in_key_order (sums : list (RollupKey * Measures)) : list (RollupKey * Measures) :=
  merge_sort rollup_le sums.

(** The receipts of the records: the sums of the new ones and how many there are. *)
Fixpoint store_receipts (records : list UsageRecord) (received_at : Z)
    (sums : list (RollupKey * Measures)) (stored : nat)
  : ST (Connection Tables) string (list (RollupKey * Measures) * nat) :=
  match records with
  | [] => st_ret (sums, stored)
  | record :: records =>
      let* inserted :=
        statement "store usage record identifier" (insert_receipt (us_id record) received_at) in
      if inserted : bool
      then store_receipts records received_at
             (add_rollup (us_key record) (us_measures record) sums) (S stored)
      else store_receipts records received_at sums stored
  end.

(** [ingest]. *)
Definition ingest (records : list UsageRecord) (received_at : Z) : ST (Connection Tables) string nat :=
  if match records with [] => true | _ => false end then st_ret 0%nat
  else transaction (
    let* (sums, stored) := store_receipts records received_at [] 0%nat in
    st_iter (fun '(key, m) =>
      statement "store usage rollup" (fun t =>
        rows ← upsert (hourly_row key) m (rollups t); Some (tt, set_rollups rows t)))
      (in_key_order sums) ;*
    st_ret stored).

(** ** Compaction *)

(** Rows as the database visits them. *)
Definition rows_where (p : RowKey -> bool) (rows : gmap RowKey Measures) : list (RowKey * Measures) :=
  map_to_list (filter (fun row => p (fst row) = true) rows).
(** [SUM(..)] of every measure; of no row it is zero, as with [COALESCE(.., 0)]. *)
Definition sum_measures (l : list Measures) : option Measures :=
  let sum f := sql_sum (map f l) in
  requests ← sum ms_requests;
  errors ← sum ms_errors;
  input_tokens ← sum ms_input_tokens;
  output_tokens ← sum ms_output_tokens;
  cache_read_tokens ← sum ms_cache_read_tokens;
  cache_write_tokens ← sum ms_cache_write_tokens;
  cost_nanos ← sum ms_cost_nanos;
  unpriced_requests ← sum ms_unpriced_requests;
  Some {| ms_requests := requests; ms_errors := errors; ms_input_tokens := input_tokens;
          ms_output_tokens := output_tokens; ms_cache_read_tokens := cache_read_tokens;
          ms_cache_write_tokens := cache_write_tokens; ms_cost_nanos := cost_nanos;
          ms_unpriced_requests := unpriced_requests |}.

(** The distinct values of a list of rows, in no particular order ([GROUP BY]). *)
Definition groups_of {K} `{Countable K} (f : RowKey -> K) (rows : list (RowKey * Measures)) : list K :=
  elements (list_to_set (map (fun row => f (fst row)) rows) : gset K).
Definition group {K} `{EqDecision K} (f : RowKey -> K) (g : K) (rows : list (RowKey * Measures))
  : list (RowKey * Measures) := retain (fun row => bool_decide (f (fst row) = g)) rows.

(** Whole days only, so a day is never split between granularities. *)
Definition hourly_before (now : Z) : Z := (now - HOURLY_RETENTION) / DAY * DAY.
(** [bucket_seconds = 3600 AND bucket_start < $1]. *)
Definition hourly_older (before : Z) (k : RowKey) : bool :=
  (rk_bucket_seconds k =? 3600) && (rk_bucket_start k <? before).
(** The daily row of an hourly one. *)
Definition day_row (k : RowKey) : RowKey :=
  {| rk_bucket_start := Z.quot (rk_bucket_start k) 86400 * 86400; rk_bucket_seconds := 86400;
     rk_subject := rk_subject k; rk_device_id := rk_device_id k;
     rk_client_id := rk_client_id k; rk_provider := rk_provider k;
     rk_model := rk_model k; rk_billing := rk_billing k |}.

(** [INSERT .. SELECT .. GROUP BY .. ON CONFLICT .. DO UPDATE]. *)
Definition compact_days (before : Z) (rows : gmap RowKey Measures) : option (gmap RowKey Measures) :=
  let old := rows_where (hourly_older before) rows in
  foldr (fun day rows =>
    rows ← rows; m ← sum_measures (map snd (group day_row day old)); upsert day m rows)
    (Some rows) (groups_of day_row old).
(** [DELETE FROM usage_rollups WHERE ..]. *)
Definition delete_where (p : RowKey -> bool) (rows : gmap RowKey Measures) : gmap RowKey Measures :=
  filter (fun row => p (fst row) = false) rows.
(** [bucket_seconds = 86400 AND bucket_start < $1]. *)
Definition daily_older (before : Z) (k : RowKey) : bool :=
  (rk_bucket_seconds k =? 86400) && (rk_bucket_start k <? before).

(** [compact]. *)
Definition compact (now : Z) : ST (Connection Tables) string unit :=
  transaction (
    statement "compact hourly usage into days" (fun t =>
      rows ← compact_days (hourly_before now) (rollups t); Some (tt, set_rollups rows t)) ;*
    statement "delete compacted hourly usage" (fun t =>
      Some (tt, set_rollups (delete_where (hourly_older (hourly_before now)) (rollups t)) t))) ;*
  statement "delete expired daily usage" (fun t =>
    Some (tt, set_rollups (delete_where (daily_older (now - DAILY_RETENTION)) (rollups t)) t)) ;*
  statement "delete expired usage record identifiers" (fun t =>
    Some (tt, set_receipts
      (filter (fun receipt => ~ snd receipt < now - RECEIPT_RETENTION) (receipts t)) t)).

(** ** Queries *)

Definition column_value (d : Dimension) (k : RowKey) : string :=
  match d with
  | ByUser => rk_subject k | ByDevice => rk_device_id k | ByTool => rk_client_id k
  | ByProvider => rk_provider k | ByModel => rk_model k
  end.
(** [conditions]: what the [WHERE] clause selects. *)
Definition selected (start stop : Z) (f : Filter) (k : RowKey) : bool :=
  (start <=? rk_bucket_start k) && (rk_bucket_start k <? stop)
  && all (fun '(d, value) => String.eqb (column_value d k) value) f.

Definition is_subscription (k : RowKey) : bool := String.eqb (rk_billing k) "subscription".
(** [TOTALS], as [totals] reads it. *)
Definition totals_of (rows : list (RowKey * Measures)) : option Totals :=
  let sum f := sql_sum (map (fun '(k, m) => f k m) rows) in
  requests ← sum (fun _ m => ms_requests m);
  errors ← sum (fun _ m => ms_errors m);
  input_tokens ← sum (fun _ m => ms_input_tokens m);
  output_tokens ← sum (fun _ m => ms_output_tokens m);
  cache_read_tokens ← sum (fun _ m => ms_cache_read_tokens m);
  cache_write_tokens ← sum (fun _ m => ms_cache_write_tokens m);
  cost_nanos ← sum (fun k m => if is_subscription k then 0 else ms_cost_nanos m);
  subscription_cost_nanos ← sum (fun k m => if is_subscription k then ms_cost_nanos m else 0);
  subscription_requests ← sum (fun k m => if is_subscription k then ms_requests m else 0);
  unpriced_requests ← sum (fun _ m => ms_unpriced_requests m);
  Some {| tt_requests := requests; tt_errors := errors; tt_input_tokens := input_tokens;
          tt_output_tokens := output_tokens; tt_cache_read_tokens := cache_read_tokens;
          tt_cache_write_tokens := cache_write_tokens; tt_cost_nanos := cost_nanos;
          tt_subscription_cost_nanos := subscription_cost_nanos;
          tt_subscription_requests := subscription_requests;
          tt_unpriced_requests := unpriced_requests |}.

Record Summary : Type := {
  sm_totals : Totals;
  sm_users : Z;
  sm_devices : Z;
}.
(** [COUNT(DISTINCT CASE WHEN column <> '' THEN column END)]. *)
Definition count_distinct (d : Dimension) (rows : list (RowKey * Measures)) : Z :=
  Z.of_nat (length (retain (fun value => negb (String.eqb value "")) (groups_of (column_value d) rows))).
(** [summary], [series] and [breakdown]. *)
Definition summary (start stop : Z) (f : Filter) : ST (Connection Tables) string Summary :=
  query "summarize usage" (fun t =>
    let rows := rows_where (selected start stop f) (rollups t) in
    totals ← totals_of rows;
    Some {| sm_totals := totals; sm_users := count_distinct ByUser rows;
            sm_devices := count_distinct ByDevice rows |}).
(** [GROUP BY ..]: each value with the totals of its rows. *)
Definition grouped_totals {K} `{Countable K} (f : RowKey -> K) (rows : list (RowKey * Measures))
    (groups : list K) : option (list (K * Totals)) :=
  mapM (fun g => totals ← totals_of (group f g rows); Some (g, totals)) groups.
Definition series (start stop : Z) (f : Filter) : ST (Connection Tables) string (list (Z * Totals)) :=
  query "load usage over time" (fun t =>
    let rows := rows_where (selected start stop f) (rollups t) in
    grouped_totals rk_bucket_start rows (merge_sort Z.le (groups_of rk_bucket_start rows))).
Definition breakdown (start stop : Z) (f : Filter) (d : Dimension)
  : ST (Connection Tables) string (list (string * Totals)) :=
  query ("break usage down by " +:+ dimension_name d) (fun t =>
    let rows := rows_where (selected start stop f) (rollups t) in
    grouped_totals (column_value d) rows (groups_of (column_value d) rows)).

(** ** Labels *)

Record Labels : Type := {
  lb_users : gmap string string;
  lb_devices : gmap string string;
}.
(** [Labels::get]. *)
Definition label_of (labels : Labels) (d : Dimension) (key : string) : option string :=
  match d with
  | ByUser => lb_users labels !! key
  | ByDevice => lb_devices labels !! key
  | _ => None
  end.

(** ** What ingesting is *)

(** Exact sums: the specification of [measures_add] and [add_measures]. *)
Definition plus (m m' : Measures) : Measures :=
  {| ms_requests := ms_requests m + ms_requests m'; ms_errors := ms_errors m + ms_errors m';
     ms_input_tokens := ms_input_tokens m + ms_input_tokens m';
     ms_output_tokens := ms_output_tokens m + ms_output_tokens m';
     ms_cache_read_tokens := ms_cache_read_tokens m + ms_cache_read_tokens m';
     ms_cache_write_tokens := ms_cache_write_tokens m + ms_cache_write_tokens m';
     ms_cost_nanos := ms_cost_nanos m + ms_cost_nanos m';
     ms_unpriced_requests := ms_unpriced_requests m + ms_unpriced_requests m' |}.

(** Counting measures under a key. *)
Definition count (key : RowKey) (m : Measures) (rows : gmap RowKey Measures)
  : gmap RowKey Measures := <[key := plus (default no_measures (rows !! key)) m]> rows.
Definition count_all (sums : list (RollupKey * Measures)) (rows : gmap RowKey Measures)
  : gmap RowKey Measures :=
  foldr (fun '(key, m) => count (hourly_row key) m) rows sums.

(** The records whose identifiers were not seen before. *)
Fixpoint new_records (seen : gset string) (records : list UsageRecord) : list UsageRecord :=
  match records with
  | [] => []
  | r :: records =>
      if decide (us_id r ∈ seen) then new_records seen records
      else r :: new_records ({[ us_id r ]} ∪ seen) records
  end.
Definition record_ids (records : list UsageRecord) : list string := map us_id records.
Definition receive (records : list UsageRecord) (received_at : Z) (receipts : gmap string Z)
  : gmap string Z :=
  fold_left (fun receipts r => match receipts !! us_id r with
                               | Some _ => receipts
                               | None => <[us_id r := received_at]> receipts end) records receipts.

(** The tables after storing records: each new one is counted once. *)
Definition stored (records : list UsageRecord) (received_at : Z) (t : Tables) : Tables :=
  {| receipts := receive records received_at (receipts t);
     rollups := count_all (map (fun r => (us_key r, us_measures r))
                             (new_records (dom (receipts t)) records)) (rollups t) |}.

Definition fields : list (Measures -> Z) :=
  [ms_requests; ms_errors; ms_input_tokens; ms_output_tokens; ms_cache_read_tokens;
   ms_cache_write_tokens; ms_cost_nanos; ms_unpriced_requests].

(** The sum of a function of the rows. *)
Definition total (f : RowKey -> Measures -> Z) (rows : gmap RowKey Measures) : Z :=
  map_fold (fun k m acc => f k m + acc) 0 rows.

Definition nonneg (m : Measures) : Prop := forall field, In field fields -> 0 <= field m.
Definition sound (rows : gmap RowKey Measures) : Prop := map_Forall (fun _ => nonneg) rows.
(** The table's sums and the records' fit [BIGINT] together. *)
Definition room (rows : gmap RowKey Measures) (l : list Measures) : Prop :=
  forall field, In field fields ->
    total (fun _ => field) rows + sum_list (map field l) <= I64_MAX.
End arithmetic.

(** ** Sums over rows *)

Lemma total_None f k m rows : rows !! k = None -> total f (<[k := m]> rows) = f k m + total f rows.
Proof. intros Hk. unfold total. by rewrite map_fold_insert_L by (done || intros; lia). Qed.
Lemma total_delete f k m rows :
  rows !! k = Some m -> total f rows = f k m + total f (delete k rows).
Proof.
  intros Hk. unfold total. rewrite (map_fold_delete_L _ _ k m rows); [done|intros; lia|done].
Qed.
Lemma total_insert f k m rows :
  total f (<[k := m]> rows) = total f rows + f k m - from_option (f k) 0 (rows !! k).
Proof.
  destruct (rows !! k) as [m'|] eqn:E; simpl.
  - rewrite <- insert_delete_eq, total_None by apply lookup_delete_eq.
    rewrite (total_delete f k m' rows E). lia.
  - rewrite total_None by done. lia.
Qed.
Lemma total_nonneg f rows : (forall k m, rows !! k = Some m -> 0 <= f k m) -> 0 <= total f rows.
Proof.
  unfold total. intros H. apply (map_fold_weak_ind (fun r rows' =>
    (forall k m, rows' !! k = Some m -> 0 <= f k m) -> 0 <= r)); [lia| |done].
  intros k m rows' r Hk IH Hr. pose proof (Hr k m ltac:(by rewrite lookup_insert_eq)).
  assert (0 <= r) by (apply IH; intros k' m' Hm'; apply Hr; rewrite lookup_insert_ne; [done|congruence]).
  lia.
Qed.
Lemma total_lookup f k m rows : (forall k m, rows !! k = Some m -> 0 <= f k m) ->
  rows !! k = Some m -> f k m <= total f rows.
Proof.
  intros Hf Hk. rewrite (total_delete f k m rows Hk).
  assert (0 <= total f (delete k rows)); [|lia]. apply total_nonneg.
  intros k' m' [_ Hk']%lookup_delete_Some. by apply Hf.
Qed.
Lemma total_ext f g rows :
  (forall k m, rows !! k = Some m -> f k m = g k m) -> total f rows = total g rows.
Proof.
  intros H. unfold total. rewrite !map_fold_foldr.
  assert (forall l, (forall k m, (k, m) ∈ l -> f k m = g k m) ->
    foldr (uncurry (fun k m acc => f k m + acc)) 0 l = foldr (uncurry (fun k m acc => g k m + acc)) 0 l) as Hl.
  { induction l as [|[k m] l IH]; intros Hl; [done|]. simpl.
    rewrite IH, (Hl k m); [done|by left|]. intros k' m' Hm. apply Hl. by right. }
  apply Hl. intros k m Hm%elem_of_map_to_list. by apply H.
Qed.

(** ** Exact sums *)

Lemma field_plus field m m' : In field fields -> field (plus m m') = field m + field m'.
Proof. intros H. simpl in H. destruct_or! H; by subst. Qed.
Lemma measures_ext m m' : (forall field, In field fields -> field m = field m') -> m = m'.
Proof.
  intros H. destruct m as [a1 a2 a3 a4 a5 a6 a7 a8], m' as [b1 b2 b3 b4 b5 b6 b7 b8]. f_equal.
  - apply (H ms_requests). by left.
  - apply (H ms_errors). simpl; tauto.
  - apply (H ms_input_tokens). simpl; tauto.
  - apply (H ms_output_tokens). simpl; tauto.
  - apply (H ms_cache_read_tokens). simpl; tauto.
  - apply (H ms_cache_write_tokens). simpl; tauto.
  - apply (H ms_cost_nanos). simpl; tauto.
  - apply (H ms_unpriced_requests). simpl; tauto.
Qed.
Lemma field_none field : In field fields -> field no_measures = 0.
Proof. intros H. simpl in H. destruct_or! H; by subst. Qed.

#[global] Instance plus_comm : Comm (=) plus.
Proof. intros a b. apply measures_ext. intros f Hf. rewrite !field_plus by done. lia. Qed.
#[global] Instance plus_assoc : Assoc (=) plus.
Proof. intros a b c. apply measures_ext. intros f Hf. rewrite !field_plus by done. lia. Qed.
#[global] Instance plus_none : LeftId (=) no_measures plus.
Proof. intros a. apply measures_ext. intros f Hf. by rewrite !field_plus, field_none. Qed.

Lemma nonneg_plus m m' : nonneg m -> nonneg m' -> nonneg (plus m m').
Proof. intros H H' f Hf. rewrite field_plus by done. specialize (H f Hf). specialize (H' f Hf). lia. Qed.
Lemma nonneg_none : nonneg no_measures.
Proof. intros f Hf. by rewrite field_none. Qed.

Lemma measures_add_exact m m' : nonneg m -> nonneg m' ->
  (forall field, In field fields -> field m + field m' <= I64_MAX) -> measures_add m m' = plus m m'.
Proof.
  intros Hm Hm' Hr. apply measures_ext. intros f Hf. rewrite field_plus by done.
  specialize (Hm f Hf). specialize (Hm' f Hf). specialize (Hr f Hf).
  assert (f (measures_add m m') = i64_saturating_add (f m) (f m')) as ->
    by (simpl in Hf; destruct_or! Hf; by subst).
  apply i64_saturating_add_exact. unfold I64_MIN. lia.
Qed.

Lemma add_measures_exact `{SqlArithmeticLaws} m m' : nonneg m -> nonneg m' ->
  (forall field, In field fields -> field m + field m' <= I64_MAX) ->
  add_measures m m' = Some (plus m m').
Proof.
  intros Hm Hm' Hr. unfold add_measures.
  rewrite !sql_add_exact; [done|..]; first [apply Hm|apply Hm'|apply Hr]; simpl; tauto.
Qed.

(** ** Counting *)

Lemma count_lookup k m rows k' :
  count k m rows !! k'
  = if decide (k' = k) then Some (plus (default no_measures (rows !! k)) m) else rows !! k'.
Proof.
  unfold count. destruct (decide (k' = k)) as [->|]; [apply lookup_insert_eq|by apply lookup_insert_ne].
Qed.
Lemma count_comm k m k' m' rows : count k m (count k' m' rows) = count k' m' (count k m rows).
Proof.
  apply map_eq. intros j. rewrite !count_lookup. repeat case_decide; subst; try done. simpl. f_equal.
  rewrite <- !(assoc plus). f_equal. apply (comm plus).
Qed.
Lemma count_twice k m m' rows : count k m' (count k m rows) = count k (plus m m') rows.
Proof.
  apply map_eq. intros j. rewrite !count_lookup. repeat case_decide; subst; try done. simpl.
  by rewrite (assoc plus).
Qed.
Lemma count_all_count k m sums rows :
  count_all sums (count k m rows) = count k m (count_all sums rows).
Proof. induction sums as [|[k' m'] sums IH]; [done|]. simpl. by rewrite IH, count_comm. Qed.
Lemma count_all_app l1 l2 rows : count_all (l1 ++ l2)%list rows = count_all l1 (count_all l2 rows).
Proof. apply foldr_app. Qed.
#[global] Instance count_all_Permutation rows :
  Proper (Permutation ==> eq) (fun sums => count_all sums rows).
Proof.
  intros l1 l2. induction 1 as [|[k m] l1 l2 _ IH|[k m] [k' m'] l|]; simpl; [done|by rewrite IH| |congruence].
  apply count_comm.
Qed.

Lemma sound_count k m rows : sound rows -> nonneg m -> sound (count k m rows).
Proof.
  intros Hr Hm. unfold count. apply map_Forall_insert_2; [|done]. apply nonneg_plus; [|done].
  destruct (rows !! k) as [m'|] eqn:E; [by apply (Hr k)|apply nonneg_none].
Qed.

(** A sum of one measure over some of the rows. *)
Definition part (p : RowKey -> bool) (field : Measures -> Z) (k : RowKey) (m : Measures) : Z :=
  if p k then field m else 0.

Lemma total_count p field k m rows : In field fields ->
  total (part p field) (count k m rows) = total (part p field) rows + part p field k m.
Proof.
  intros Hf. unfold count. rewrite total_insert. unfold part at 2 3 5.
  destruct (p k); [|by destruct (rows !! k); simpl; lia].
  rewrite field_plus by done. destruct (rows !! k); simpl; rewrite ?field_none by done; lia.
Qed.
Lemma total_count_all p field sums rows : In field fields ->
  total (part p field) (count_all sums rows)
  = total (part p field) rows + sum_list (map (fun '(k, m) => part p field (hourly_row k) m) sums).
Proof.
  intros Hf. induction sums as [|[k m] sums IH]; simpl; [lia|]. rewrite total_count, IH by done. lia.
Qed.

(** ** Storing records *)

Lemma fits_row (rows : gmap RowKey Measures) k m field :
  sound rows -> rows !! k = Some m -> In field fields -> field m <= total (fun _ => field) rows.
Proof.
  intros Hr Hk Hf. apply (total_lookup (fun _ => field) k m rows); [|done].
  intros k' m' Hk'. by apply (Hr k' m' Hk').
Qed.

Lemma upsert_row `{SqlArithmeticLaws} k m rows : sound rows -> nonneg m ->
  (forall field, In field fields -> field (default no_measures (rows !! k)) + field m <= I64_MAX) ->
  upsert k m rows = Some (count k m rows).
Proof.
  intros Hr Hm Hfit. unfold upsert, count. destruct (rows !! k) as [row|] eqn:E; simpl in *.
  - by rewrite add_measures_exact; [|by apply (Hr k)|..].
  - by rewrite (left_id no_measures plus).
Qed.
Lemma upsert_exact `{SqlArithmeticLaws} k m rows : sound rows -> nonneg m ->
  (forall field, In field fields -> total (fun _ => field) rows + field m <= I64_MAX) ->
  upsert k m rows = Some (count k m rows).
Proof.
  intros Hr Hm Hfit. apply upsert_row; [done..|]. intros f Hf. specialize (Hfit f Hf).
  destruct (rows !! k) as [row|] eqn:E; simpl.
  - pose proof (fits_row rows k row f Hr E Hf). lia.
  - rewrite field_none by done. etrans; [|exact Hfit]. apply Z.add_le_mono_r, total_nonneg.
    intros k' m' Hk. by apply (Hr k' m').
Qed.

(** Every sum of a measure is bounded by that of the whole table. *)
Lemma total_all field rows : total (fun _ => field) rows = total (part (fun _ => true) field) rows.
Proof. apply total_ext. done. Qed.
Lemma room_cons rows k m l : room rows (m :: l) -> room (count k m rows) l.
Proof.
  intros Hr f Hf. specialize (Hr f Hf). rewrite total_all in *.
  rewrite total_count by done. unfold part in *. simpl in *. lia.
Qed.
Lemma sum_list_nonneg l : Forall (fun x => 0 <= x) l -> 0 <= sum_list l.
Proof. induction 1; simpl; lia. Qed.
Lemma sum_field_nonneg l field : Forall nonneg l -> In field fields -> 0 <= sum_list (map field l).
Proof. intros Hl Hf. apply sum_list_nonneg, Forall_map. eapply Forall_impl; [exact Hl|]. intros m Hm. by apply Hm. Qed.
Lemma room_head rows m l field : Forall nonneg l -> room rows (m :: l) -> In field fields ->
  total (fun _ => field) rows + field m <= I64_MAX.
Proof.
  intros Hl Hr Hf. specialize (Hr field Hf). simpl in Hr. pose proof (sum_field_nonneg l field Hl Hf). lia.
Qed.

Lemma does_upserts `{SqlArithmeticLaws} sums t :
  sound (rollups t) -> Forall nonneg (map snd sums) -> room (rollups t) (map snd sums) ->
  does (st_iter (fun '(key, m) => statement "store usage rollup" (fun t =>
      rows ← upsert (hourly_row key) m (rollups t); Some (tt, set_rollups rows t))) sums)
    t tt (set_rollups (count_all sums (rollups t)) t).
Proof.
  revert t. induction sums as [|[k m] sums IH]; intros t Hs Hn Hr; simpl.
  - destruct t. apply does_ret.
  - simpl in Hn. apply Forall_cons in Hn as [Hm Hn]. simpl in Hr.
    eapply does_bind.
    + apply does_statement. rewrite upsert_exact; [reflexivity|done|done|]. intros f Hf.
      by eapply room_head.
    + rewrite <- count_all_count.
      apply (IH (set_rollups (count (hourly_row k) m (rollups t)) t)); [by apply sound_count|done|].
      by apply room_cons.
Qed.

(** The batch's sums, each key once, are the records counted one by one. *)
Lemma add_rollup_sums k m sums field : In field fields -> Forall nonneg (map snd sums) -> nonneg m ->
  sum_list (map field (map snd sums)) + field m <= I64_MAX ->
  sum_list (map field (map snd (add_rollup k m sums))) = sum_list (map field (map snd sums)) + field m.
Proof.
  intros Hf Hn Hm Hr.
  assert (forall m', nonneg m' -> field m' + field m <= I64_MAX ->
    field (measures_add m' m) = field m' + field m) as Hadd.
  { intros m' Hm' Hle. assert (field (measures_add m' m) = i64_saturating_add (field m') (field m)) as ->
      by (simpl in Hf; destruct_or! Hf; by subst).
    apply i64_saturating_add_exact. specialize (Hm field Hf). specialize (Hm' field Hf).
    unfold I64_MIN. lia. }
  induction sums as [|[k' m'] sums IH]; simpl in *.
  - rewrite Hadd by (apply nonneg_none || by rewrite field_none). rewrite field_none by done. lia.
  - apply Forall_cons in Hn as [Hm' Hn]. pose proof (sum_field_nonneg _ field Hn Hf).
    pose proof (Hm' field Hf). destruct (decide (k' = k)); simpl.
    + rewrite Hadd by (done || lia). lia.
    + rewrite IH by (done || lia). lia.
Qed.
Lemma add_rollup_counts k m sums rows : Forall nonneg (map snd sums) -> nonneg m ->
  (forall field, In field fields -> sum_list (map field (map snd sums)) + field m <= I64_MAX) ->
  count_all (add_rollup k m sums) rows = count (hourly_row k) m (count_all sums rows) /\
  Forall nonneg (map snd (add_rollup k m sums)).
Proof.
  intros Hn Hm. induction sums as [|[k' m'] sums IH]; simpl; intros Hr.
  - rewrite measures_add_exact; [|apply nonneg_none|done|].
    { rewrite (left_id no_measures plus). split; [done|by repeat constructor]. }
    intros f Hf. rewrite field_none by done. by apply Hr.
  - apply Forall_cons in Hn as [Hm' Hn].
    assert (forall field, In field fields -> 0 <= sum_list (map field (map snd sums))) as Hpos
      by (intros f Hf; by apply sum_field_nonneg).
    destruct (decide (k' = k)) as [->|]; simpl.
    + rewrite measures_add_exact; [|done..|].
      { rewrite <- count_twice. split; [done|]. constructor; [by apply nonneg_plus|done]. }
      intros f Hf. specialize (Hr f Hf). specialize (Hpos f Hf). lia.
    + destruct IH as [-> IH]; [done| |split; [apply count_comm|by constructor]].
      intros f Hf. specialize (Hr f Hf). specialize (Hm' f Hf). simpl in *. lia.
Qed.

(** The receipts and the sums of a batch: each record counted once. *)
Lemma room_nil rows l : Forall nonneg l -> room rows l -> room rows [].
Proof. intros Hn Hr f Hf. specialize (Hr f Hf). pose proof (sum_field_nonneg l f Hn Hf). simpl. lia. Qed.

Lemma new_records_sub seen records : new_records seen records `sublist_of` records.
Proof.
  revert seen. induction records as [|r records IH]; intros seen; simpl; [constructor|].
  destruct (decide _); by constructor.
Qed.
Definition keyed (r : UsageRecord) : RollupKey * Measures := (us_key r, us_measures r).

Lemma does_store_receipts records received_at t sums n rows :
  Forall nonneg (map snd sums) -> Forall nonneg (map us_measures records) ->
  (forall field, In field fields ->
     sum_list (map field (map snd sums)) + sum_list (map field (map us_measures records)) <= I64_MAX) ->
  exists sums', does (store_receipts records received_at sums n) t
    (sums', n + length (new_records (dom (receipts t)) records))%nat
    (set_receipts (receive records received_at (receipts t)) t) /\
  count_all sums' rows
  = count_all (map keyed (new_records (dom (receipts t)) records)) (count_all sums rows) /\
  Forall nonneg (map snd sums') /\
  forall field, In field fields -> sum_list (map field (map snd sums'))
    = sum_list (map field (map snd sums))
      + sum_list (map field (map us_measures (new_records (dom (receipts t)) records))).
Proof.
  revert t sums n. induction records as [|r records IH]; intros t sums n Hs Hr Hroom.
  - exists sums. split; [|split; [done|split; [done|intros; simpl; lia]]].
    destruct t. simpl. rewrite Nat.add_0_r. apply does_ret.
  - simpl in Hr. apply Forall_cons in Hr as [Hm Hr].
    assert (forall field, In field fields -> 0 <= sum_list (map field (map us_measures records))) as Hpos
      by (intros f Hf; by apply sum_field_nonneg).
    assert (forall field, In field fields ->
      sum_list (map field (map snd sums)) + field (us_measures r) <= I64_MAX) as Hone.
    { intros f Hf. specialize (Hroom f Hf). specialize (Hpos f Hf). simpl in Hroom. lia. }
    simpl. destruct (decide (us_id r ∈ dom (receipts t))) as [Hin|Hin]; simpl.
    + apply elem_of_dom in Hin as [at' Hat]. rewrite Hat.
      destruct (IH t sums n Hs Hr) as (sums' & Hdo & Hspec).
      { intros f Hf. specialize (Hroom f Hf). specialize (Hm f Hf). simpl in Hroom. lia. }
      exists sums'. split; [|done]. eapply does_bind; [apply does_statement; unfold insert_receipt; by rewrite Hat|exact Hdo].
    + rewrite not_elem_of_dom in Hin. rewrite Hin.
      destruct (add_rollup_counts (us_key r) (us_measures r) sums rows Hs Hm Hone) as [Hc Hn].
      set (t1 := set_receipts (<[us_id r := received_at]> (receipts t)) t).
      destruct (IH t1 (add_rollup (us_key r) (us_measures r) sums) (S n) Hn Hr)
        as (sums' & Hdo & Hcount & Hn' & Hsum).
      { intros f Hf. rewrite add_rollup_sums by auto. specialize (Hroom f Hf). simpl in Hroom. lia. }
      simpl in Hcount, Hsum, Hdo. rewrite dom_insert_L in Hcount, Hsum, Hdo. exists sums'. split; [|split; [|split]].
      * eapply does_bind; [apply does_statement; unfold insert_receipt; by rewrite Hin|]. simpl.
        by rewrite <- plus_n_Sm.
      * rewrite Hcount, Hc. by rewrite count_all_count.
      * done.
      * intros f Hf. rewrite Hsum, add_rollup_sums by auto. simpl. lia.
Qed.

#[global] Instance sum_list_Permutation : Proper (Permutation ==> eq) sum_list.
Proof. intros l1 l2. induction 1; simpl; lia. Qed.
Lemma sum_field_sublist (l l' : list UsageRecord) field :
  l `sublist_of` l' -> Forall nonneg (map us_measures l') -> In field fields ->
  sum_list (map field (map us_measures l)) <= sum_list (map field (map us_measures l')).
Proof.
  induction 1 as [|r l l' _ IH|r l l' _ IH]; simpl; intros Hn Hf; [lia|..];
    apply Forall_cons in Hn as [Hr Hn]; specialize (IH Hn Hf); specialize (Hr field Hf); simpl in *; lia.
Qed.

Lemma sublist_nonneg (l l' : list UsageRecord) :
  l `sublist_of` l' -> Forall nonneg (map us_measures l') -> Forall nonneg (map snd (map keyed l)).
Proof.
  induction 1 as [|r l l' _ IH|r l l' _ IH]; simpl; intros Hn; [done|..];
    apply Forall_cons in Hn as [Hr Hn]; [constructor|]; auto.
Qed.
Lemma sound_count_all sums rows :
  sound rows -> Forall nonneg (map snd sums) -> sound (count_all sums rows).
Proof.
  intros Hs. induction sums as [|[k m] sums IH]; simpl; intros Hn; [done|].
  apply Forall_cons in Hn as [Hm Hn]. apply sound_count; auto.
Qed.

Lemma ingest_does `{SqlArithmeticLaws} records received_at t :
  let fresh := new_records (dom (receipts t)) records in
  sound (rollups t) -> Forall nonneg (map us_measures records) ->
  (forall field, In field fields -> sum_list (map field (map us_measures records)) <= I64_MAX) ->
  room (rollups t) (map us_measures fresh) ->
  does_or_not (ingest records received_at) t (length fresh) (stored records received_at t).
Proof.
  intros fresh Hs Hn Hbatch Hroom. unfold ingest. destruct records as [|r records].
  { intros c Hc. simpl. by destruct t. }
  apply does_transaction.
  destruct (does_store_receipts (r :: records) received_at t [] 0 (rollups t)) as (sums & Hdo & Hc & Hns & Hsum);
    [done|done|intros f Hf; specialize (Hbatch f Hf); simpl in *; lia|].
  fold fresh in Hdo, Hc, Hsum.
  assert (map snd (in_key_order sums) ≡ₚ map snd sums) as Hperm
    by (unfold in_key_order; by rewrite (merge_sort_Permutation rollup_le sums)).
  eapply does_bind; [exact Hdo|]. cbv beta iota. eapply does_bind.
  - apply does_upserts; simpl; [done|by rewrite Hperm|].
    intros f Hf. rewrite Hperm, Hsum by done. specialize (Hroom f Hf). simpl. lia.
  - assert (count_all (in_key_order sums) (rollups t) = rollups (stored (r :: records) received_at t)) as Heq.
    { rewrite (count_all_Permutation _ _ sums) by apply merge_sort_Permutation. rewrite Hc. reflexivity. }
    change (rollups (set_receipts _ t)) with (rollups t). rewrite Heq. simpl (0 + _)%nat. apply does_ret.
Qed.

Lemma new_records_seen seen records :
  (forall r, r ∈ records -> us_id r ∈ seen) -> new_records seen records = [].
Proof.
  induction records as [|r records IH]; intros Hs; simpl; [done|].
  rewrite decide_True by (apply Hs; by left). apply IH. intros r' Hr'. apply Hs. by right.
Qed.
Lemma receive_spec records received_at rs :
  dom (receive records received_at rs) = dom rs ∪ list_to_set (record_ids records) /\
  ((forall r, r ∈ records -> us_id r ∈ dom rs) -> receive records received_at rs = rs).
Proof.
  unfold receive. revert rs. induction records as [|r records IH]; intros rs; simpl; [set_solver|].
  destruct (rs !! us_id r) as [at'|] eqn:E.
  - assert (us_id r ∈ dom rs) by (apply elem_of_dom; by exists at').
    destruct (IH rs) as [-> Hsame]. split; [set_solver|]. intros Hs. apply Hsame. set_solver.
  - destruct (IH (<[us_id r := received_at]> rs)) as [-> _]. split; [rewrite dom_insert_L; set_solver|].
    intros Hs. exfalso. apply not_elem_of_dom in E. apply E, Hs. by left.
Qed.

(** ** A database *)

(** PostgreSQL's: out of range is an error. *)
#[global] Instance checked_arithmetic : SqlArithmetic :=
  {| sql_add a b := if in_i64 (a + b) then Some (a + b) else None;
     sql_sum l := if in_i64 (sum_list l) then Some (sum_list l) else None |}.
#[global] Instance checked_arithmetic_laws : SqlArithmeticLaws checked_arithmetic.
Proof.
  split; simpl; unfold in_i64.
  - intros a b Ha Hb Hr. by rewrite (proj2 (Z.leb_le I64_MIN _)), (proj2 (Z.leb_le _ I64_MAX))
      by (unfold I64_MIN; lia).
  - intros l Hl Hr. pose proof (sum_list_nonneg l Hl).
    by rewrite (proj2 (Z.leb_le I64_MIN _)), (proj2 (Z.leb_le _ I64_MAX)) by (unfold I64_MIN; lia).
Qed.
Definition empty_tables : Tables := {| receipts := ∅; rollups := ∅ |}.
