(* ===== verification/UsageReport.v ===== *)
(** * Usage reports ([crates/usage/src/report.rs]) and what compaction keeps

    A report reads the rollups of a window and of the period before it. The theorems
    say that its chart and its breakdowns add up to its totals, and that compaction,
    however far it gets, does not change any later report. *)

From S2P Require Import Prelude Str Sql Float Usage UsageStore.

Inductive UsageError : Type := InvalidQuery (message : string) | Storage (error : string).

Record UsageQuery : Type := {
  uq_range : option string;
  uq_by : option string;
  uq_utc_offset_minutes : option Z;
  uq_user : option string;
  uq_device : option string;
  uq_tool : option string;
  uq_provider : option string;
  uq_model : option string;
}.
Record UsageFilterOption : Type := { fo_key : string; fo_label : option string }.
Record UsageFilterOptions : Type := {
  fo_user : list UsageFilterOption;
  fo_device : list UsageFilterOption;
}.
Record UsageBreakdownRow : Type := {
  br_key : string;
  br_label : option string;
  br_totals : ModelTotals;
}.
Record UsageReport : Type := {
  rp_enabled : bool;
  rp_range : string;
  rp_from_unix_seconds : Z;
  rp_to_unix_seconds : Z;
  rp_bucket_seconds : Z;
  rp_totals : ModelTotals;
  rp_previous_totals : ModelTotals;
  rp_active_users : Z;
  rp_active_devices : Z;
  rp_buckets : list (Z * ModelTotals);
  rp_breakdowns : gmap string (list UsageBreakdownRow);
  rp_filter_options : UsageFilterOptions;
}.

Definition MAX_BREAKDOWN_ROWS : nat := 200.

(** [left.cmp(right)] of ranks. *)
Definition compare_ranks (left right : Z * Z * Z) : comparison :=
  let '(a, b, c) := left in let '(a', b', c') := right in
  lexicographic (Z.compare a a') (lexicographic (Z.compare b b') (Z.compare c c')).
(** Larger ranks first, equal ones by key. *)
Definition compare_rows (left right : string * Totals) : comparison :=
  lexicographic (compare_ranks (rank (snd right)) (rank (snd left)))
                (String.compare (fst left) (fst right)).
Definition not_after (left right : string * Totals) : bool :=
  match compare_rows left right with Gt => false | _ => true end.
(** [ranked]. *)
Definition ranked (rows : list (string * Totals)) : list (string * Totals) :=
  take MAX_BREAKDOWN_ROWS (sort_by not_after rows).

(** [buckets]. *)
Definition buckets (w : Window) (rows : list (Z * Totals)) : list (Z * Totals) :=
  fold_left (fun buckets '(rollup_start, totals) =>
    match bucket_index w rollup_start with
    | Some index => alter (fun '(start, bucket) => (start, totals_add bucket totals)) index buckets
    | None => buckets
    end) rows (map (fun index => (bucket_start w index, no_totals)) (seq 0 (bucket_count w))).

Section arithmetic.
Context {A : SqlArithmetic}.

(** [.map(|name| Dimension::parse(name).ok_or(..)).collect::<Result<Vec<_>, _>>()]. *)
Fixpoint parse_dimensions (names : list string) : result (list Dimension) UsageError :=
  match names with
  | [] => Ok []
  | name :: names =>
      match parse_dimension name with
      | None => Err (InvalidQuery "unknown usage breakdown")
      | Some d => let? dimensions := parse_dimensions names in Ok (d :: dimensions)
      end
  end.
Definition dimensions_of (by_ : option string) : result (list Dimension) UsageError :=
  parse_dimensions (retain (fun name => negb (is_empty name)) (split "," (default "" by_))).

Definition filter_of (q : UsageQuery) : Filter :=
  fold_left (fun f '(d, value) =>
    match value with Some value => filter_with f d value | None => f end)
    [(ByUser, uq_user q); (ByDevice, uq_device q); (ByTool, uq_tool q);
     (ByProvider, uq_provider q); (ByModel, uq_model q)] [].

(** [?] on a query. *)
Definition stored_query {B} (m : ST (Connection Tables) string B) : ST (Connection Tables) UsageError B :=
  st_map_err Storage m.

Definition breakdown_rows (labels : Labels) (d : Dimension) (rows : list (string * Totals))
  : list UsageBreakdownRow :=
  map (fun '(key, totals) =>
    {| br_key := key; br_label := label_of labels d key; br_totals := to_model totals |}) (ranked rows).
Definition options (labels : Labels) (d : Dimension) (rows : list (string * Totals))
  : list UsageFilterOption :=
  map (fun '(key, _) => {| fo_key := key; fo_label := label_of labels d key |}) (ranked rows).

(** [for dimension in dimensions { breakdowns.insert(dimension.name(), rows) }]. *)
Fixpoint breakdowns (labels : Labels) (w : Window) (f : Filter) (dimensions : list Dimension)
    (acc : gmap string (list UsageBreakdownRow))
  : ST (Connection Tables) UsageError (gmap string (list UsageBreakdownRow)) :=
  match dimensions with
  | [] => st_ret acc
  | d :: dimensions =>
      let* rows := stored_query (breakdown (wd_start w) (wd_end w) f d) in
      breakdowns labels w f dimensions (<[dimension_name d := breakdown_rows labels d rows]> acc)
  end.

Definition unknown_window : UsageError := InvalidQuery "unknown usage range or UTC offset".

(** What is asked of the store for a report on a window. *)
Definition report_on (q : UsageQuery) (range : string) (now : Z) (w : Window)
    (dimensions : list Dimension) (enabled : bool) (labels : Labels)
  : ST (Connection Tables) UsageError UsageReport :=
  let f := filter_of q in
  let* current := stored_query (summary (wd_start w) (wd_end w) f) in
  let before := previous w now in
  let* earlier := stored_query (summary (wd_start before) (wd_end before) f) in
  let* rows := stored_query (series (wd_start w) (wd_end w) f) in
  let* broken_down := breakdowns labels w f dimensions ∅ in
  let* users := stored_query
    (breakdown (wd_start w) (wd_end w) (filter_without f [ByUser; ByDevice]) ByUser) in
  let* devices := stored_query
    (breakdown (wd_start w) (wd_end w) (filter_without f [ByDevice]) ByDevice) in
  st_ret
    {| rp_enabled := enabled; rp_range := range;
       rp_from_unix_seconds := wd_start w; rp_to_unix_seconds := wd_end w;
       rp_bucket_seconds := wd_bucket_seconds w;
       rp_totals := to_model (sm_totals current);
       rp_previous_totals := to_model (sm_totals earlier);
       rp_active_users := sm_users current; rp_active_devices := sm_devices current;
       rp_buckets := map (fun '(start, totals) => (unsigned start, to_model totals)) (buckets w rows);
       rp_breakdowns := broken_down;
       rp_filter_options := {| fo_user := options labels ByUser users;
                               fo_device := options labels ByDevice devices |} |}.

(** [report], at the clock reading [now]. *)
Definition report (q : UsageQuery) (now : Z) (enabled : bool) (labels : Labels)
  : ST (Connection Tables) UsageError UsageReport :=
  let range := default "7d" (uq_range q) in
  match preset range now (default 0 (uq_utc_offset_minutes q)) with
  | None => st_err unknown_window
  | Some w =>
      match dimensions_of (uq_by q) with
      | Err e => st_err e
      | Ok dimensions => report_on q range now w dimensions enabled labels
      end
  end.

(** [fleet::DeviceUsageResponse] and [device_usage]. *)
Record DeviceUsageResponse : Type := {
  du_enabled : bool;
  du_from_unix_seconds : Z;
  du_to_unix_seconds : Z;
  du_bucket_seconds : Z;
  du_totals : FleetTotals;
  du_buckets : list (Z * FleetTotals);
  du_by_tool : list (string * FleetTotals);
  du_by_model : list (string * FleetTotals);
}.
Definition fleet_groups (rows : list (string * Totals)) : list (string * FleetTotals) :=
  map (fun '(key, totals) => (key, to_proto totals)) (ranked rows).
Definition device_usage (device_id : option string) (range : string) (utc_offset_minutes now : Z)
    (enabled : bool) : ST (Connection Tables) UsageError DeviceUsageResponse :=
  match preset range now utc_offset_minutes with
  | None => st_err unknown_window
  | Some w =>
      let f := match device_id with Some device_id => filter_with [] ByDevice device_id | None => [] end in
      let* current := stored_query (summary (wd_start w) (wd_end w) f) in
      let* rows := stored_query (series (wd_start w) (wd_end w) f) in
      let* tools := stored_query (breakdown (wd_start w) (wd_end w) f ByTool) in
      let* models := stored_query (breakdown (wd_start w) (wd_end w) f ByModel) in
      st_ret
        {| du_enabled := enabled;
           du_from_unix_seconds := unsigned (wd_start w); du_to_unix_seconds := unsigned (wd_end w);
           du_bucket_seconds := unsigned (wd_bucket_seconds w);
           du_totals := to_proto (sm_totals current);
           du_buckets := map (fun '(start, totals) => (unsigned start, to_proto totals)) (buckets w rows);
           du_by_tool := fleet_groups tools; du_by_model := fleet_groups models |}
  end.
End arithmetic.

(** ** Sums that a query makes *)

Lemma total_filter f p rows :
  total f (filter (fun row => p (fst row) = true) rows) = total (fun k m => if p k then f k m else 0) rows.
Proof.
  induction rows as [|k m rows Hk IH] using map_ind; [by rewrite map_filter_empty|].
  rewrite (total_None (fun k m => if p k then f k m else 0)), map_filter_insert by done.
  case_decide as Hp; simpl in Hp.
  - rewrite Hp, total_None, IH; [done|]. apply map_lookup_filter_None. by left.
  - rewrite delete_id, IH by done. by destruct (p k).
Qed.
Lemma sum_rows f rows : sum_list (map (fun '(k, m) => f k m) (map_to_list rows)) = total f rows.
Proof.
  unfold total. rewrite map_fold_foldr. induction (map_to_list rows) as [|[k m] l IH]; [done|].
  simpl. by rewrite IH.
Qed.
Lemma sum_rows_where f p rows :
  sum_list (map (fun '(k, m) => f k m) (rows_where p rows)) = total (fun k m => if p k then f k m else 0) rows.
Proof. unfold rows_where. by rewrite sum_rows, total_filter. Qed.

Definition fits (rows : gmap RowKey Measures) : Prop :=
  forall field, In field fields -> total (fun _ => field) rows <= I64_MAX.

Lemma total_part_le p field rows : sound rows -> In field fields ->
  total (part p field) rows <= total (fun _ => field) rows.
Proof.
  intros Hs Hf. induction rows as [|k m rows Hk IH] using map_ind; [done|].
  apply map_Forall_insert in Hs as [Hm Hs]; [|done]. rewrite !total_None by done.
  specialize (IH Hs). specialize (Hm field Hf). unfold part at 1. destruct (p k); lia.
Qed.
Lemma part_nonneg p field k m : nonneg m -> In field fields -> 0 <= part p field k m.
Proof. intros Hm Hf. specialize (Hm field Hf). unfold part. destruct (p k); lia. Qed.

(** Each total is a sum of one measure over some rows. *)
Definition total_fields : list ((RowKey -> bool) * (Measures -> Z) * (Totals -> Z)) :=
  let every := fun _ : RowKey => true in
  [(every, ms_requests, tt_requests); (every, ms_errors, tt_errors);
   (every, ms_input_tokens, tt_input_tokens); (every, ms_output_tokens, tt_output_tokens);
   (every, ms_cache_read_tokens, tt_cache_read_tokens);
   (every, ms_cache_write_tokens, tt_cache_write_tokens);
   (fun k => negb (is_subscription k), ms_cost_nanos, tt_cost_nanos);
   (is_subscription, ms_cost_nanos, tt_subscription_cost_nanos);
   (is_subscription, ms_requests, tt_subscription_requests);
   (every, ms_unpriced_requests, tt_unpriced_requests)].
Lemma total_fields_field q field pr : In (q, field, pr) total_fields -> In field fields.
Proof. simpl. intros H. destruct_or! H; simplify_eq; tauto. Qed.

(** Rows of a query: what they sum to is what their totals are. *)
Definition summed (rows : list (RowKey * Measures)) (t : Totals) : Prop :=
  forall q field pr, In (q, field, pr) total_fields ->
    pr t = sum_list (map (fun '(k, m) => part q field k m) rows).
Definition rows_fit (rows : list (RowKey * Measures)) : Prop :=
  Forall (fun row => nonneg (snd row)) rows /\
  forall field, In field fields -> sum_list (map (fun '(_, m) => field m) rows) <= I64_MAX.

Lemma sum_part_le q field rows : Forall (fun row => nonneg (snd row)) rows -> In field fields ->
  0 <= sum_list (map (fun '(k, m) => part q field k m) rows)
    <= sum_list (map (fun '(_, m) => field m) rows).
Proof.
  intros Hn Hf. induction Hn as [|[k m] rows Hm _ IH]; simpl; [lia|].
  specialize (Hm field Hf). simpl in Hm. unfold part at 1 3. destruct (q k); lia.
Qed.

Lemma totals_of_exact `{SqlArithmeticLaws} rows :
  rows_fit rows -> exists t, totals_of rows = Some t /\ summed rows t.
Proof.
  intros [Hn Hfit].
  assert (forall q field f, In field fields -> (forall k m, f k m = part q field k m) ->
    sql_sum (map (fun '(k, m) => f k m) rows)
    = Some (sum_list (map (fun '(k, m) => part q field k m) rows))) as Hsum.
  { intros q field f Hf Heq.
    replace (map (fun '(k, m) => f k m) rows) with (map (fun '(k, m) => part q field k m) rows)
      by (apply map_ext; intros [k m]; by rewrite Heq).
    apply sql_sum_exact.
    - apply Forall_map. eapply Forall_impl; [exact Hn|]. intros [k m] Hm. by apply part_nonneg.
    - specialize (Hfit field Hf). pose proof (sum_part_le q field rows Hn Hf). lia. }
  unfold totals_of.
  rewrite (Hsum (fun _ => true) ms_requests (fun _ m => ms_requests m)); [|simpl; tauto|done].
  rewrite (Hsum (fun _ => true) ms_errors (fun _ m => ms_errors m)); [|simpl; tauto|done].
  rewrite (Hsum (fun _ => true) ms_input_tokens (fun _ m => ms_input_tokens m)); [|simpl; tauto|done].
  rewrite (Hsum (fun _ => true) ms_output_tokens (fun _ m => ms_output_tokens m)); [|simpl; tauto|done].
  rewrite (Hsum (fun _ => true) ms_cache_read_tokens (fun _ m => ms_cache_read_tokens m)); [|simpl; tauto|done].
  rewrite (Hsum (fun _ => true) ms_cache_write_tokens (fun _ m => ms_cache_write_tokens m)); [|simpl; tauto|done].
  rewrite (Hsum (fun k => negb (is_subscription k)) ms_cost_nanos
             (fun k m => if is_subscription k then 0 else ms_cost_nanos m));
    [|simpl; tauto|intros k m; unfold part; by destruct (is_subscription k)].
  rewrite (Hsum is_subscription ms_cost_nanos (fun k m => if is_subscription k then ms_cost_nanos m else 0)); [|simpl; tauto|done].
  rewrite (Hsum is_subscription ms_requests (fun k m => if is_subscription k then ms_requests m else 0)); [|simpl; tauto|done].
  rewrite (Hsum (fun _ => true) ms_unpriced_requests (fun _ m => ms_unpriced_requests m)); [|simpl; tauto|done].
  cbn [mbind option_bind].
  eexists. split; [done|]. intros q field pr Hin. simpl in Hin. by destruct_or! Hin; simplify_eq.
Qed.

Lemma fits_rows p rows : sound rows -> fits rows -> rows_fit (rows_where p rows).
Proof.
  intros Hs Hf. split.
  - apply Forall_forall. intros [k m] Hin%elem_of_map_to_list.
    apply map_lookup_filter_Some in Hin as [Hin _]. by apply (Hs k m).
  - intros field Hin. specialize (Hf field Hin).
    pose proof (sum_rows_where (fun _ => field) p rows) as ->.
    etrans; [|exact Hf]. apply (total_part_le p field rows Hs Hin).
Qed.

(** ** Groups *)

Lemma group_sums {K} `{EqDecision K} (f : RowKey -> K) (w : RowKey * Measures -> Z) (P : K -> bool)
    rows groups :
  NoDup groups -> (forall row, row ∈ rows -> f (fst row) ∈ groups) ->
  sum_list (map (fun g => if P g then sum_list (map w (group f g rows)) else 0) groups)
  = sum_list (map (fun row => if P (f (fst row)) then w row else 0) rows).
Proof.
  intros Hnd. induction rows as [|row rows IH]; intros Hall.
  - simpl. clear. induction groups as [|g groups IH]; simpl; [done|]. rewrite IH. by destruct (P g).
  - simpl. rewrite <- IH by (intros row' Hr; apply Hall; by right).
    assert (f (fst row) ∈ groups) as Hg by (apply Hall; by left). clear IH Hall.
    induction Hnd as [|g groups Hg' Hnd IH]; [by apply not_elem_of_nil in Hg|].
    simpl. unfold group at 1. simpl. case_bool_decide as E.
    + rewrite E. replace (map _ groups) with
        (map (fun g => if P g then sum_list (map w (group f g rows)) else 0) groups).
      { unfold group. destruct (P g); simpl; lia. }
      apply map_ext_in. intros g' Hin. unfold group. simpl. rewrite bool_decide_false; [done|].
      intros <-. subst g. by apply Hg', list_elem_of_In.
    + fold (group f g rows). rewrite IH; [lia|]. apply elem_of_cons in Hg as [Hg|]; [by subst|done].
Qed.

Lemma rows_fit_retain p rows : rows_fit rows -> rows_fit (retain p rows).
Proof.
  intros [Hn Hf]. split.
  - apply Forall_forall. intros row [Hr _]%elem_of_retain. by eapply Forall_forall in Hn.
  - intros field Hin. specialize (Hf field Hin). etrans; [|exact Hf]. clear Hf.
    induction Hn as [|[k m] rows Hm _ IH]; simpl; [done|]. specialize (Hm field Hin). simpl in Hm.
    destruct (p (k, m)); simpl; lia.
Qed.

Lemma grouped_totals_exact `{SqlArithmeticLaws} {K} `{Countable K} (f : RowKey -> K) rows groups :
  rows_fit rows -> exists l, grouped_totals f rows groups = Some l /\
    Forall2 (fun g row => fst row = g /\ summed (group f g rows) (snd row)) groups l.
Proof.
  intros Hf. unfold grouped_totals. induction groups as [|g groups (l & Hl & IH)]; [by exists []|].
  destruct (totals_of_exact (group f g rows)) as (t & Ht & Hs); [by apply rows_fit_retain|].
  exists ((g, t) :: l). split; [|by constructor]. simpl. by rewrite Ht, Hl.
Qed.

Lemma groups_cover {K} `{Countable K} (f : RowKey -> K) rows row :
  row ∈ rows -> f (fst row) ∈ groups_of f rows.
Proof.
  intros Hr. unfold groups_of. apply elem_of_elements, elem_of_list_to_set.
  by apply (list_elem_of_fmap_2 (fun row => f (fst row))).
Qed.
Lemma groups_NoDup {K} `{Countable K} (f : RowKey -> K) rows : NoDup (groups_of f rows).
Proof. apply NoDup_elements. Qed.

(** The groups a query returns, weighed by a predicate on them, are the rows so weighed. *)
Lemma grouped_sums {K} `{Countable K} (f : RowKey -> K) rows groups
    (l : list (K * Totals)) (P : K -> bool) q field pr :
  NoDup groups -> (forall row, row ∈ rows -> f (fst row) ∈ groups) ->
  Forall2 (fun g row => fst row = g /\ summed (group f g rows) (snd row)) groups l ->
  In (q, field, pr) total_fields ->
  sum_list (map (fun '(g, t) => if P g then pr t else 0) l)
  = sum_list (map (fun '(k, m) => if P (f k) then part q field k m else 0) rows).
Proof.
  intros Hnd Hall Hl Hin.
  pose proof (group_sums f (fun '(k, m) => part q field k m) P rows groups Hnd Hall) as Hg.
  replace (map (fun '(k, m) => if P (f k) then part q field k m else 0) rows)
    with (map (fun row => if P (f (fst row)) then (let '(k, m) := row in part q field k m) else 0) rows)
    by (apply map_ext; by intros []).
  rewrite <- Hg. clear Hg Hnd Hall. induction Hl as [|g [g' t] groups l [Hg Hs] _ IH]; [done|].
  simpl in *. subst g'. rewrite IH. by rewrite (Hs q field pr Hin).
Qed.

(** ** The chart *)

Lemma totals_add_exact q field pr a b : In (q, field, pr) total_fields ->
  0 <= pr a -> 0 <= pr b -> pr a + pr b <= I64_MAX -> pr (totals_add a b) = pr a + pr b.
Proof.
  intros Hin Ha Hb Hr. assert (pr (totals_add a b) = i64_saturating_add (pr a) (pr b)) as ->
    by (simpl in Hin; by destruct_or! Hin; try (injection Hin as <- <- <-)).
  apply i64_saturating_add_exact. unfold I64_MIN. lia.
Qed.
Lemma no_totals_zero q field pr : In (q, field, pr) total_fields -> pr no_totals = 0.
Proof. intros Hin. simpl in Hin. by destruct_or! Hin; try (injection Hin as <- <- <-). Qed.

Definition put_in_bucket (w : Window) (bs : list (Z * Totals)) (row : Z * Totals) : list (Z * Totals) :=
  match bucket_index w (fst row) with
  | Some index => alter (fun '(start, bucket) => (start, totals_add bucket (snd row))) index bs
  | None => bs
  end.
Lemma buckets_fold w rows : buckets w rows
  = fold_left (put_in_bucket w) rows
      (map (fun index => (bucket_start w index, no_totals)) (seq 0 (bucket_count w))).
Proof. unfold buckets. generalize (map (fun index => (bucket_start w index, no_totals)) (seq 0 (bucket_count w))).
  induction rows as [|[s t] rows IH]; intros bs; [done|]. apply IH.
Qed.

Lemma sum_alter {X} (g : X -> Z) (h : X -> X) i x l : l !! i = Some x ->
  sum_list (map g (alter h i l)) = sum_list (map g l) + g (h x) - g x.
Proof.
  revert i. induction l as [|y l IH]; intros [|i] Hx; try done; simpl in *.
  - injection Hx as ->. lia.
  - change (list_alter h i l) with (alter h i l). rewrite (IH i Hx). lia.
Qed.

(** A bucket receives the rows of its index, and nothing is lost. *)
Lemma fold_buckets w q field pr rows bs i s t :
  In (q, field, pr) total_fields -> bs !! i = Some (s, t) -> 0 <= pr t ->
  (forall row, row ∈ rows -> 0 <= pr (snd row)) ->
  pr t + sum_list (map (fun row => pr (snd row)) rows) <= I64_MAX ->
  exists t', fold_left (put_in_bucket w) rows bs !! i = Some (s, t') /\
    pr t' = pr t + sum_list (map (fun '(start, t) =>
              if bool_decide (bucket_index w start = Some i) then pr t else 0) rows).
Proof.
  intros Hin. revert bs t. induction rows as [|[start t1] rows IH]; intros bs t Hi Ht Hn Hr.
  - exists t. split; [done|]. simpl. lia.
  - assert (0 <= pr t1) as H1 by (apply (Hn (start, t1)); by left).
    assert (forall row, row ∈ rows -> 0 <= pr (snd row)) as Hn' by (intros row ?; apply Hn; by right).
    assert (0 <= sum_list (map (fun row => pr (snd row)) rows)) as Hpos.
    { apply sum_list_nonneg, Forall_map, Forall_forall. intros row ?. by apply Hn'. }
    simpl in *. case_bool_decide as Hidx.
    + destruct (IH (put_in_bucket w bs (start, t1)) (totals_add t t1)) as (t' & Hl & Hs).
      * unfold put_in_bucket. simpl. rewrite Hidx, list_lookup_alter_eq, Hi. done.
      * rewrite (totals_add_exact q field pr) by (done || lia). lia.
      * done.
      * rewrite (totals_add_exact q field pr) by (done || lia). lia.
      * exists t'. split; [done|]. rewrite Hs, (totals_add_exact q field pr) by (done || lia). lia.
    + destruct (IH (put_in_bucket w bs (start, t1)) t) as (t' & Hl & Hs); [|done|done|lia|].
      * unfold put_in_bucket. simpl. destruct (bucket_index w start) as [j|]; [|done].
        rewrite list_lookup_alter_ne; [done|congruence].
      * exists t'. split; [done|]. rewrite Hs. lia.
Qed.

(** ** What the queries return *)

Lemma does_query {B} what (run : Tables -> option B) t b :
  run t = Some b -> does (query what run) t b t.
Proof. intros Hr. apply does_statement. by rewrite Hr. Qed.
Lemma does_healthy {B} (m : ST (Connection Tables) string B) t b t' c :
  does m t b t' -> tables c = t -> healthy c -> fst (m c) = Ok b.
Proof.
  intros Hd Hc Hh. destruct (Hd c Hc) as [_ Hm]. destruct (m c) as [[b'|e] c']; [|done].
  destruct Hm as [-> _]. done.
Qed.

(** The usage in a period: a measure summed over the rows a query selects. *)
Definition used (rows : gmap RowKey Measures) (f : Filter) (q : RowKey -> bool) (field : Measures -> Z)
    (start stop : Z) : Z :=
  total (part (fun k => selected start stop f k && q k) field) rows.

Lemma part_and (p q : RowKey -> bool) field k m :
  (if p k then part q field k m else 0) = part (fun k => p k && q k) field k m.
Proof. unfold part. by destruct (p k). Qed.
Lemma total_plus f g rows : total f rows + total g rows = total (fun k m => f k m + g k m) rows.
Proof.
  induction rows as [|k m rows Hk IH] using map_ind; [done|]. rewrite !total_None by done. lia.
Qed.
Lemma used_split rows f q field a b c : a <= b <= c ->
  used rows f q field a b + used rows f q field b c = used rows f q field a c.
Proof.
  intros Habc. unfold used. rewrite total_plus. apply total_ext. intros k m _. unfold part, selected.
  set (same := all _ f). destruct same, (q k); rewrite ?andb_false_r, ?andb_true_r; try done.
  destruct (Z.leb_spec a (rk_bucket_start k)), (Z.ltb_spec (rk_bucket_start k) b),
    (Z.leb_spec b (rk_bucket_start k)), (Z.ltb_spec (rk_bucket_start k) c); simpl; lia.
Qed.
Lemma used_none rows f q field a : used rows f q field a a = 0.
Proof. pose proof (used_split rows f q field a a a). lia. Qed.
Lemma used_steps rows f q field start step n : 0 <= step ->
  sum_list (map (fun i => used rows f q field (start + Z.of_nat i * step)
                            (start + Z.of_nat i * step + step)) (seq 0 n))
  = used rows f q field start (start + Z.of_nat n * step).
Proof.
  intros Hs. induction n as [|n IH].
  - simpl. rewrite Z.add_0_r. by rewrite used_none.
  - rewrite seq_S, map_app. simpl.
    assert (forall l1 l2, sum_list (l1 ++ l2)%list = sum_list l1 + sum_list l2) as ->
      by (intros l1 l2; induction l1; simpl; lia).
    rewrite IH. simpl. rewrite Z.add_0_r.
    replace (start + Z.of_nat (S n) * step) with (start + Z.of_nat n * step + step) by lia.
    apply used_split. nia.
Qed.

Lemma rows_where_used rows f q field start stop :
  sum_list (map (fun '(k, m) => part q field k m) (rows_where (selected start stop f) rows))
  = used rows f q field start stop.
Proof. rewrite sum_rows_where. apply total_ext. intros k m _. apply part_and. Qed.

Lemma summary_exact `{SqlArithmeticLaws} start stop f t : sound (rollups t) -> fits (rollups t) ->
  exists s, does (summary start stop f) t s t /\
    forall q field pr, In (q, field, pr) total_fields ->
      pr (sm_totals s) = used (rollups t) f q field start stop.
Proof.
  intros Hs Hf. destruct (totals_of_exact (rows_where (selected start stop f) (rollups t))) as (tt & Ht & Hsum);
    [by apply fits_rows|].
  eexists. split; [apply does_query; cbv beta zeta; rewrite Ht; reflexivity|]. intros q field pr Hin.
  simpl. rewrite (Hsum q field pr Hin). apply rows_where_used.
Qed.

(** A grouped query: the totals of the groups a predicate picks are the usage of the rows
    in them. *)
Definition grouped {K} (f : RowKey -> K) start stop (flt : Filter) (t : Tables)
    (rows : list (K * Totals)) : Prop :=
  (forall q field pr row, In (q, field, pr) total_fields -> row ∈ rows -> 0 <= pr (snd row)) /\
  forall (P : K -> bool) q field pr, In (q, field, pr) total_fields ->
    sum_list (map (fun '(g, t) => if P g then pr t else 0) rows)
    = total (part (fun k => selected start stop flt k && (P (f k) && q k)) field) (rollups t).

Lemma grouped_query_exact `{SqlArithmeticLaws} {K} `{Countable K} (f : RowKey -> K) (order : list K -> list K)
    what start stop flt t :
  (forall l, order l ≡ₚ l) -> sound (rollups t) -> fits (rollups t) ->
  exists rows,
    does (query what (fun t =>
      let rows := rows_where (selected start stop flt) (rollups t) in
      grouped_totals f rows (order (groups_of f rows)))) t rows t /\
    grouped f start stop flt t rows.
Proof.
  intros Ho Hs Hf. set (rows := rows_where (selected start stop flt) (rollups t)).
  assert (rows_fit rows) as Hfit by by apply fits_rows.
  destruct (grouped_totals_exact f rows (order (groups_of f rows))) as (l & Hl & Hall); [done|].
  exists l. split; [by apply does_query|]. split.
  - intros q field pr row Hin Hrow. apply list_elem_of_lookup in Hrow as [i Hi].
    destruct (Forall2_lookup_r _ _ _ _ _ Hall Hi) as (g & _ & _ & Hsum). rewrite (Hsum q field pr Hin).
    apply (sum_part_le q field); [|by eapply total_fields_field].
    by apply (rows_fit_retain (fun row => bool_decide (f (fst row) = g)) rows Hfit).
  - intros P q field pr Hin. rewrite (grouped_sums f rows (order (groups_of f rows)) l P q field pr);
      [|rewrite Ho; apply groups_NoDup| |done|done].
    + unfold rows. rewrite (sum_rows_where (fun k m => if P (f k) then part q field k m else 0)).
      apply total_ext. intros k m _. unfold part. by destruct (selected _ _ _ _), (P _).
    + intros row Hr. rewrite Ho. by apply groups_cover.
Qed.

Lemma series_exact `{SqlArithmeticLaws} start stop f t : sound (rollups t) -> fits (rollups t) ->
  exists rows, does (series start stop f) t rows t /\ grouped rk_bucket_start start stop f t rows.
Proof. apply (grouped_query_exact rk_bucket_start (merge_sort Z.le)). apply merge_sort_Permutation. Qed.
Lemma breakdown_exact `{SqlArithmeticLaws} start stop f d t : sound (rollups t) -> fits (rollups t) ->
  exists rows, does (breakdown start stop f d) t rows t /\ grouped (column_value d) start stop f t rows.
Proof. by apply (grouped_query_exact (column_value d) (fun l => l)). Qed.

(** ** Everything adds up *)

Lemma sum_by_index {X} (g : X -> Z) (v : nat -> Z) (l : list X) :
  (forall i x, l !! i = Some x -> g x = v i) -> sum_list (map g l) = sum_list (map v (seq 0 (length l))).
Proof.
  revert v. induction l as [|x l IH]; intros v Hl; [done|]. simpl. rewrite (Hl 0%nat x eq_refl).
  rewrite <- seq_shift, map_map. f_equal. apply (IH (fun i => v (S i))). intros i y Hi. by apply (Hl (S i)).
Qed.
Lemma length_buckets w rows : length (buckets w rows) = bucket_count w.
Proof.
  rewrite buckets_fold.
  assert (forall bs, length (fold_left (put_in_bucket w) rows bs) = length bs) as ->.
  { induction rows as [|row rows IH]; intros bs; [done|]. simpl. rewrite IH. unfold put_in_bucket.
    destruct (bucket_index w _); [by rewrite length_alter|done]. }
  by rewrite length_map, length_seq.
Qed.

Lemma bucket_exact w f t rows q field pr i :
  report_window w -> sound (rollups t) -> fits (rollups t) ->
  grouped rk_bucket_start (wd_start w) (wd_end w) f t rows -> In (q, field, pr) total_fields ->
  (i < bucket_count w)%nat ->
  exists t', buckets w rows !! i = Some (bucket_start w i, t') /\
    pr t' = used (rollups t) f q field (bucket_start w i) (bucket_start w i + wd_bucket_seconds w).
Proof.
  intros Hw Hs Hf [Hn Hg] Hin Hi. rewrite buckets_fold.
  pose proof (total_fields_field _ _ _ Hin) as Hfield.
  pose proof (Hg (fun _ => true) q field pr Hin) as Hall. simpl in Hall.
  destruct (fold_buckets w q field pr rows
    (map (fun index => (bucket_start w index, no_totals)) (seq 0 (bucket_count w))) i (bucket_start w i) no_totals)
    as (t' & Hl & Hsum); [done| | | | |].
  - rewrite list_lookup_fmap, lookup_seq_lt by done. done.
  - by rewrite (no_totals_zero q field pr Hin).
  - intros row Hrow. by apply (Hn q field pr).
  - rewrite (no_totals_zero q field pr Hin).
    replace (map (fun row => pr (snd row)) rows) with (map (fun '(_, t) => pr t) rows)
      by (apply map_ext; by intros []).
    rewrite Hall. etrans; [|exact (Hf field Hfield)]. by apply total_part_le.
  - exists t'. split; [done|]. rewrite Hsum, (no_totals_zero q field pr Hin).
    rewrite (Hg (fun g => bool_decide (bucket_index w g = Some i)) q field pr Hin).
    apply total_ext. intros k m _. unfold part, selected.
    set (same := all _ f). pose proof (bucket_index_exact w (rk_bucket_start k) i Hw) as Hidx.
    pose proof Hw as [Hsec (n & Hpos & He) _]. pose proof (bucket_count_spec w n Hw He ltac:(lia)) as Hc.
    rewrite (bucket_start_small w i Hw Hi) in *.
    assert (0 < wd_bucket_seconds w) by (destruct Hsec as [->| ->]; unfold DAY, HOUR; lia).
    assert (wd_start w + Z.of_nat i * wd_bucket_seconds w + wd_bucket_seconds w <= wd_end w) by nia.
    case_bool_decide as Hb.
    + apply Hidx in Hb as [_ Hb]. destruct same, (q k); rewrite ?andb_false_r, ?andb_true_r; try done.
      rewrite !(proj2 (Z.leb_le _ _)), !(proj2 (Z.ltb_lt _ _)) by nia. done.
    + destruct same, (q k); rewrite ?andb_false_r, ?andb_true_r; try done.
      destruct (Z.leb_spec (wd_start w + Z.of_nat i * wd_bucket_seconds w) (rk_bucket_start k)),
        (Z.ltb_spec (rk_bucket_start k)
           (wd_start w + Z.of_nat i * wd_bucket_seconds w + wd_bucket_seconds w)); simpl; try done.
      exfalso. apply Hb, Hidx. split; [done|lia].
Qed.

(** Every view of the usage adds up: over tables whose sums fit, on the window of any
    range, the summary is the usage of the window, bucket [i] of the chart is exactly the
    usage that started in its hour or local day, the buckets together and the rows of a
    breakdown together are the summary's totals, each of the ten totals apart. *)
Theorem reports_add_up `{SqlArithmeticLaws} range now offset w f d t c :
  preset range now offset = Some w ->
  sound (rollups t) -> fits (rollups t) -> tables c = t -> healthy c ->
  exists s rows groups,
    fst (summary (wd_start w) (wd_end w) f c) = Ok s /\
    fst (series (wd_start w) (wd_end w) f c) = Ok rows /\
    fst (breakdown (wd_start w) (wd_end w) f d c) = Ok groups /\
    length (buckets w rows) = bucket_count w /\
    forall q field pr, In (q, field, pr) total_fields ->
      pr (sm_totals s) = used (rollups t) f q field (wd_start w) (wd_end w) /\
      (forall i b, buckets w rows !! i = Some b ->
         fst b = bucket_start w i /\
         pr (snd b) = used (rollups t) f q field (fst b) (fst b + wd_bucket_seconds w)) /\
      sum_list (map (fun b => pr (snd b)) (buckets w rows)) = pr (sm_totals s) /\
      sum_list (map (fun g => pr (snd g)) groups) = pr (sm_totals s).
Proof.
  intros Hw%preset_window Hs Hf Hc Hh.
  destruct (summary_exact (wd_start w) (wd_end w) f t Hs Hf) as (s & Hds & Hsum).
  destruct (series_exact (wd_start w) (wd_end w) f t Hs Hf) as (rows & Hdr & Hrows).
  destruct (breakdown_exact (wd_start w) (wd_end w) f d t Hs Hf) as (groups & Hdg & _ & Hgroups).
  exists s, rows, groups. repeat (split; [by eapply does_healthy || apply length_buckets|]).
  intros q field pr Hin. rewrite (Hsum q field pr Hin). split; [done|].
  assert (forall i b, buckets w rows !! i = Some b -> fst b = bucket_start w i /\
    pr (snd b) = used (rollups t) f q field (fst b) (fst b + wd_bucket_seconds w)) as Hb.
  { intros i b Hi. pose proof (lookup_lt_Some _ _ _ Hi) as Hlt. rewrite length_buckets in Hlt.
    destruct (bucket_exact w f t rows q field pr i Hw Hs Hf Hrows Hin Hlt) as (t' & Hi' & Hpr).
    rewrite Hi in Hi'. by injection Hi' as ->. }
  split; [done|]. split.
  - pose proof Hw as [_ (n & Hn & He) _]. pose proof (bucket_count_spec w n Hw He ltac:(lia)) as Hcount.
    rewrite (sum_by_index _ (fun i => used (rollups t) f q field (wd_start w + Z.of_nat i * wd_bucket_seconds w)
      (wd_start w + Z.of_nat i * wd_bucket_seconds w + wd_bucket_seconds w))).
    + rewrite length_buckets, used_steps.
      * f_equal. rewrite Hcount, Z2Nat.id by lia. lia.
      * destruct Hw as [[->| ->] _ _]; unfold DAY, HOUR; lia.
    + intros i b Hi. destruct (Hb i b Hi) as [Hst ->].
      apply lookup_lt_Some in Hi. rewrite length_buckets in Hi. by rewrite Hst, bucket_start_small.
  - specialize (Hgroups (fun _ => true) q field pr Hin). simpl in Hgroups.
    rewrite <- (map_ext (fun '(_, t) => pr t)) by (by intros []). rewrite Hgroups. done.
Qed.

(** ** One row *)

Definition one_request : Measures :=
  {| ms_requests := 1; ms_errors := 0; ms_input_tokens := 120; ms_output_tokens := 30;
     ms_cache_read_tokens := 0; ms_cache_write_tokens := 0; ms_cost_nanos := 1500;
     ms_unpriced_requests := 0 |}.
Definition row_at (start : Z) : RowKey :=
  {| rk_bucket_start := start; rk_bucket_seconds := HOUR; rk_subject := "user"; rk_device_id := "device";
     rk_client_id := "codex"; rk_provider := "openai"; rk_model := "gpt"; rk_billing := "api" |}.
Definition one_row (start : Z) : Tables := {| receipts := ∅; rollups := {[row_at start := one_request]} |}.

Lemma one_row_sound start : sound (rollups (one_row start)).
Proof.
  intros k m Hk field Hf. simpl in Hk. apply lookup_singleton_Some in Hk as [_ <-]. simpl in Hf.
  destruct_or! Hf; subst field; simpl; lia.
Qed.
Lemma one_row_fits start : fits (rollups (one_row start)).
Proof.
  intros field Hf. unfold one_row. simpl rollups. rewrite <- insert_empty, total_None by apply lookup_empty.
  assert (total (fun _ => field) ∅ = 0) as -> by apply map_fold_empty.
  simpl in Hf. destruct_or! Hf; subst field; simpl; unfold I64_MAX; lia.
Qed.

Lemma reports_add_up_witness :
  let w := default {| wd_start := 0; wd_end := 0; wd_bucket_seconds := 0; wd_utc_offset_seconds := 0 |}
    (preset "24h" 1773156000 60) in
  preset "24h" 1773156000 60 = Some w /\
  exists s, fst (summary (wd_start w) (wd_end w) [] (connected (fun _ => Runs) (one_row 1773154800))) = Ok s /\
    tt_requests (sm_totals s) = 1.
Proof.
  intros w. assert (preset "24h" 1773156000 60 = Some w) as Hw by reflexivity. split; [exact Hw|].
  destruct (reports_add_up "24h" 1773156000 60 w [] ByTool (one_row 1773154800)
    (connected (fun _ => Runs) (one_row 1773154800)) Hw (one_row_sound _) (one_row_fits _) eq_refl ltac:(done))
    as (s & rows & groups & Hs & _ & _ & _ & Hall).
  exists s. split; [exact Hs|].
  destruct (Hall (fun _ => true) ms_requests tt_requests ltac:(by left)) as [-> _]. vm_compute. reflexivity.
Defined.
