(* ===== verification/UsageCompaction.v ===== *)
(** * Compaction of usage ([crates/usage/src/store.rs], [compact])

    Hourly rows past their retention become daily rows. A sum over rows that does not
    split one of those days is the same before and after, and the windows a report asks
    for split none of them. *)

From S2P Require Import Prelude Str Sql Float Usage UsageStore UsageReport.

(** ** The daily rows *)

Definition psum (l : list Measures) : Measures := foldr plus no_measures l.
Lemma field_psum field l : In field fields -> field (psum l) = sum_list (map field l).
Proof.
  intros Hf. induction l as [|m l IH]; simpl; [by rewrite field_none|]. by rewrite field_plus, IH.
Qed.
Lemma nonneg_psum l : Forall nonneg l -> nonneg (psum l).
Proof. induction 1; simpl; [apply nonneg_none|by apply nonneg_plus]. Qed.

Lemma sum_measures_exact `{SqlArithmeticLaws} rows :
  rows_fit rows -> sum_measures (map snd rows) = Some (psum (map snd rows)).
Proof.
  intros [Hn Hf]. unfold sum_measures.
  assert (forall field, In field fields ->
    sql_sum (map field (map snd rows)) = Some (sum_list (map field (map snd rows)))) as Hs.
  { intros field Hin. apply sql_sum_exact.
    - apply Forall_map, Forall_map. eapply Forall_impl; [exact Hn|]. intros row Hrow. by apply Hrow.
    - rewrite map_map. specialize (Hf field Hin). etrans; [|exact Hf].
      by rewrite (map_ext _ (fun '(_, m) => field m)) by (by intros []). }
  rewrite !Hs by (simpl; tauto). cbn [mbind option_bind]. f_equal.
  apply measures_ext. intros field Hin. rewrite field_psum by done.
  simpl in Hin. by destruct_or! Hin; subst.
Qed.

(** The compacted table, with exact sums. *)
Definition with_days (before : Z) (days : list RowKey) (rows : gmap RowKey Measures) : gmap RowKey Measures :=
  foldr (fun day => count day (psum (map snd
    (group day_row day (rows_where (hourly_older before) rows))))) rows days.
Definition compacted (before : Z) (rows : gmap RowKey Measures) : gmap RowKey Measures :=
  delete_where (hourly_older before)
    (with_days before (groups_of day_row (rows_where (hourly_older before) rows)) rows).

Lemma hourly_older_day before k : hourly_older before (day_row k) = false.
Proof. done. Qed.

Lemma with_days_lookup before days rows k :
  k ∉ days -> with_days before days rows !! k = rows !! k.
Proof.
  unfold with_days. induction days as [|day days IH]; [done|]. intros [Hk Hd]%not_elem_of_cons.
  simpl. rewrite count_lookup, decide_False by done. by apply IH.
Qed.

(** The old rows of a day. *)
Definition of_day (before : Z) (day k : RowKey) : bool :=
  hourly_older before k && bool_decide (day_row k = day).
Lemma group_sum before day rows field :
  sum_list (map field (map snd (group day_row day (rows_where (hourly_older before) rows))))
  = total (part (of_day before day) field) rows.
Proof.
  transitivity (sum_list (map (fun '(k, m) => if bool_decide (day_row k = day) then field m else 0)
    (rows_where (hourly_older before) rows))).
  - rewrite map_map. unfold group. induction (rows_where _ _) as [|[k m] l IH]; [done|]. simpl.
    case_bool_decide; simpl; by rewrite IH.
  - rewrite (sum_rows_where (fun k m => if bool_decide (day_row k = day) then field m else 0)).
    apply total_ext. intros k m _. unfold part, of_day. by destruct (hourly_older before k).
Qed.

Lemma day_fits before day rows field : sound rows -> fits rows -> In field fields ->
  (exists k, day = day_row k) ->
  field (default no_measures (rows !! day))
  + sum_list (map field (map snd (group day_row day (rows_where (hourly_older before) rows)))) <= I64_MAX.
Proof.
  intros Hs Hf Hin [k0 ->]. rewrite group_sum. etrans; [|exact (Hf field Hin)].
  destruct (rows !! day_row k0) as [m|] eqn:E; simpl.
  - rewrite (total_delete (part _ field) (day_row k0) m rows E), (total_delete (fun _ => field) _ m rows E).
    unfold part at 1, of_day at 1. rewrite hourly_older_day. simpl.
    pose proof (total_part_le (of_day before (day_row k0)) field (delete (day_row k0) rows)) as Hle.
    assert (sound (delete (day_row k0) rows)) as Hs' by by apply map_Forall_delete.
    specialize (Hle Hs' Hin). lia.
  - rewrite field_none by done. by apply (total_part_le _ field rows).
Qed.

Lemma group_nonneg before day rows : sound rows ->
  Forall nonneg (map snd (group day_row day (rows_where (hourly_older before) rows))).
Proof.
  intros Hs. apply Forall_map, Forall_forall. intros [k m] [Hin _]%elem_of_retain.
  apply elem_of_map_to_list, map_lookup_filter_Some in Hin as [Hin _]. by apply (Hs k m).
Qed.
Lemma sound_with_days before days rows : sound rows -> sound (with_days before days rows).
Proof.
  intros Hs. unfold with_days. induction days as [|day days IH]; [done|]. simpl.
  apply sound_count; [done|]. by apply nonneg_psum, group_nonneg.
Qed.

Lemma compact_days_exact `{SqlArithmeticLaws} before rows : sound rows -> fits rows ->
  compact_days before rows
  = Some (with_days before (groups_of day_row (rows_where (hourly_older before) rows)) rows).
Proof.
  intros Hs Hf. unfold compact_days, with_days.
  set (old := rows_where (hourly_older before) rows).
  assert (forall day, day ∈ groups_of day_row old -> exists k, day = day_row k) as Hdays.
  { intros day Hd. unfold groups_of in Hd. apply elem_of_elements, elem_of_list_to_set in Hd.
    apply list_elem_of_fmap in Hd as (row & -> & _). by eexists. }
  pose proof (groups_NoDup day_row old) as Hnd.
  induction (groups_of day_row old) as [|day days IH]; [done|].
  apply NoDup_cons in Hnd as [Hnew Hnd]. simpl. rewrite IH by (done || set_solver). cbn [mbind option_bind].
  rewrite sum_measures_exact by (apply rows_fit_retain, fits_rows; done). cbn [mbind option_bind].
  apply upsert_row; [by apply sound_with_days|by apply nonneg_psum, group_nonneg|].
  intros field Hin. change (foldr _ rows days) with (with_days before days rows).
  rewrite with_days_lookup by done.
  rewrite field_psum by done. apply day_fits; [done..|]. apply Hdays. by left.
Qed.

(** ** Sums that do not split a day *)

Definition unsplit (before : Z) (rows : gmap RowKey Measures) (p : RowKey -> bool) : Prop :=
  forall k, is_Some (rows !! k) -> hourly_older before k = true -> p (day_row k) = p k.

Lemma total_with_days before rows p field : In field fields ->
  total (part p field)
    (with_days before (groups_of day_row (rows_where (hourly_older before) rows)) rows)
  = total (part p field) rows
    + total (part (fun k => hourly_older before k && p (day_row k)) field) rows.
Proof.
  intros Hin. set (old := rows_where (hourly_older before) rows).
  assert (forall days, total (part p field) (with_days before days rows)
    = total (part p field) rows
      + sum_list (map (fun day => if p day then
          sum_list (map (fun row => field (snd row)) (group day_row day old)) else 0) days)) as Hdays.
  { induction days as [|day days IH]; simpl; [lia|].
    rewrite total_count by done. fold (with_days before days rows). rewrite IH.
    change (part p field day ?m) with (if p day then field m else 0).
    destruct (p day); [|lia]. rewrite (field_psum field), map_map by done. unfold old. lia. }
  rewrite Hdays. f_equal.
  rewrite (group_sums day_row (fun row => field (snd row)) p old) by (apply groups_NoDup || apply groups_cover).
  rewrite (map_ext _ (fun '(k, m) => if p (day_row k) then field m else 0)) by (by intros []).
  unfold old. rewrite (sum_rows_where (fun k m => if p (day_row k) then field m else 0)).
  apply total_ext. intros k m _. unfold part. by destruct (hourly_older before k).
Qed.

Lemma total_delete_where f q rows :
  total f (delete_where q rows) = total (fun k m => if q k then 0 else f k m) rows.
Proof.
  unfold delete_where. transitivity (total f (filter (fun row => negb (q (fst row)) = true) rows)).
  - f_equal. apply map_filter_ext. intros k m _. simpl. by destruct (q k).
  - rewrite (total_filter f (fun k => negb (q k))). apply total_ext. intros k m _. by destruct (q k).
Qed.

Lemma total_compacted before rows p field : In field fields -> unsplit before rows p ->
  total (part p field) (compacted before rows) = total (part p field) rows.
Proof.
  intros Hin Hp. unfold compacted. rewrite total_delete_where.
  set (p' := fun k => negb (hourly_older before k) && p k).
  rewrite (total_ext _ (part p' field)) by
    (intros k m _; unfold part, p'; by destruct (hourly_older before k)).
  rewrite total_with_days, total_plus by done. apply total_ext. intros k m Hk. unfold part, p'.
  rewrite hourly_older_day. simpl. destruct (hourly_older before k) eqn:E; simpl; [|lia].
  rewrite (Hp k (mk_is_Some _ _ Hk) E). lia.
Qed.

Lemma sound_filter (P : RowKey * Measures -> Prop) `{!forall x, Decision (P x)} rows :
  sound rows -> sound (filter P rows).
Proof. intros Hs k m [Hk _]%map_lookup_filter_Some. by apply (Hs k m). Qed.
Lemma sound_compacted before rows : sound rows -> sound (compacted before rows).
Proof. intros Hs. by apply sound_filter, sound_with_days. Qed.
Lemma fits_compacted before rows : fits rows -> fits (compacted before rows).
Proof.
  intros Hf field Hin. specialize (Hf field Hin). rewrite total_all in *.
  by rewrite total_compacted.
Qed.
Lemma fits_delete_where q rows : sound rows -> fits rows -> fits (delete_where q rows).
Proof.
  intros Hs Hf field Hin. rewrite total_delete_where. etrans; [|exact (Hf field Hin)].
  rewrite (total_ext _ (part (fun k => negb (q k)) field)) by (intros k m _; unfold part; by destruct (q k)).
  by apply total_part_le.
Qed.

(** ** What compaction leaves alone *)

(** Rows start at or after the epoch. *)
Definition placed (rows : gmap RowKey Measures) : Prop :=
  forall k, is_Some (rows !! k) -> 0 <= rk_bucket_start k.

Lemma day_row_start k : 0 <= rk_bucket_start k ->
  rk_bucket_start (day_row k) = rk_bucket_start k / DAY * DAY.
Proof. intros Hk. simpl. by rewrite Z.quot_div_nonneg. Qed.

Lemma compacted_later before rows k : placed rows -> before <= rk_bucket_start k ->
  compacted before rows !! k = rows !! k.
Proof.
  intros Hp Hk. unfold compacted, delete_where. rewrite map_lookup_filter.
  rewrite with_days_lookup.
  - assert (hourly_older before k = false) as Hold
      by (unfold hourly_older; rewrite (proj2 (Z.ltb_ge _ _)) by lia; apply andb_false_r).
    destruct (rows !! k); simpl; [|done]. by rewrite option_guard_True.
  - unfold groups_of. rewrite elem_of_elements, elem_of_list_to_set.
    intros (row & -> & Hrow)%list_elem_of_fmap. destruct row as [k0 m].
    apply elem_of_map_to_list, map_lookup_filter_Some in Hrow as [Hk0 Hold]. simpl in *.
    assert (0 <= rk_bucket_start k0) as Hpos by by apply Hp.
    change (Z.quot (rk_bucket_start k0) 86400 * 86400) with (rk_bucket_start (day_row k0)) in Hk.
    rewrite day_row_start in Hk by done.
    pose proof (floor_spec (rk_bucket_start k0) DAY ltac:(unfold DAY, HOUR; lia)).
    unfold hourly_older in Hold. apply andb_true_iff in Hold as [_ Hlt%Z.ltb_lt]. lia.
Qed.

Lemma rows_where_ext p rows rows' :
  (forall k, p k = true -> rows !! k = rows' !! k) -> rows_where p rows = rows_where p rows'.
Proof.
  intros H. unfold rows_where. f_equal. apply map_eq. intros k. rewrite !map_lookup_filter. simpl.
  destruct (p k) eqn:E; [by rewrite H|]. destruct (rows !! k), (rows' !! k); simpl; try done;
    by repeat case_guard.
Qed.
Lemma delete_where_lookup q rows k : q k = false -> delete_where q rows !! k = rows !! k.
Proof.
  intros Hq. unfold delete_where. rewrite map_lookup_filter. destruct (rows !! k); simpl; [|done].
  by rewrite option_guard_True.
Qed.

(** ** The windows of a report *)

Lemma hourly_before_le now0 now : now0 <= now -> hourly_before now0 <= now - HOURLY_RETENTION.
Proof.
  intros Hle. unfold hourly_before.
  pose proof (floor_spec (now0 - HOURLY_RETENTION) DAY ltac:(unfold DAY, HOUR; lia)). lia.
Qed.
Lemma window_recent range now offset w now0 : preset range now offset = Some w -> now0 <= now ->
  hourly_before now0 <= wd_start w.
Proof.
  intros Hw Hle. apply preset_now in Hw as (Hn & Hlen & _). pose proof (hourly_before_le now0 now Hle).
  unfold HOURLY_RETENTION in *. lia.
Qed.
Lemma previous_start w now : exists start, wd_start (previous w now) = start /\
  wd_start w - (wd_end w - wd_start w) - DAY <= start /\
  (now - HOURLY_RETENTION <= start \/ exists n, start = n * DAY).
Proof.
  unfold previous. simpl. destruct (Z.ltb_spec (wd_start w - (wd_end w - wd_start w)) (now - HOURLY_RETENTION)).
  - eexists. split; [done|]. split; [|right; by eexists].
    pose proof (floor_spec (wd_start w - (wd_end w - wd_start w) + DAY / 2) DAY ltac:(unfold DAY, HOUR; lia)).
    pose proof (Z.div_pos DAY 2). unfold DAY, HOUR in *. lia.
  - eexists. split; [done|]. split; [unfold DAY, HOUR; lia|by left].
Qed.

Lemma previous_unsplit range now offset w now0 f rows :
  preset range now offset = Some w -> now0 <= now -> placed rows ->
  forall q, unsplit (hourly_before now0) rows
    (fun k => selected (wd_start (previous w now)) (wd_end (previous w now)) f k
              && q (is_subscription k)).
Proof.
  intros Hw Hle Hp q k Hk Hold.
  pose proof (window_recent range now offset w now0 Hw Hle) as Hend.
  pose proof (hourly_before_le now0 now Hle) as Hbefore.
  destruct (previous_start w now) as (start & -> & _ & Hstart).
  change (wd_end (previous w now)) with (wd_start w).
  unfold hourly_older in Hold. apply andb_true_iff in Hold as [_ Hlt%Z.ltb_lt].
  pose proof (Hp k Hk) as Hpos. pose proof (floor_spec (rk_bucket_start k) DAY ltac:(unfold DAY, HOUR; lia)) as Hfl.
  f_equal. unfold selected. rewrite day_row_start by done. f_equal.
  set (day := rk_bucket_start k / DAY) in *.
  rewrite !(proj2 (Z.ltb_lt _ (wd_start w))), !andb_true_r by lia.
  destruct Hstart as [Hs|[n ->]].
  - rewrite !(proj2 (Z.leb_gt start _)) by lia. done.
  - destruct (Z.leb_spec (n * DAY) (rk_bucket_start k)); [apply Z.leb_le|apply Z.leb_gt]; [|lia].
    assert (n <= day); [|unfold DAY, HOUR in *; nia]. unfold day. apply Z.div_le_lower_bound; unfold DAY, HOUR in *; lia.
Qed.

(** ** Tables a report cannot tell apart *)

Record same_reports (now : Z) (rows rows' : gmap RowKey Measures) : Prop := {
  sr_sound : sound rows';
  sr_fits : fits rows';
  sr_window range offset w f : preset range now offset = Some w ->
    rows_where (selected (wd_start w) (wd_end w) f) rows'
    = rows_where (selected (wd_start w) (wd_end w) f) rows;
  sr_previous range offset w f q field pr : preset range now offset = Some w ->
    In (q, field, pr) total_fields ->
    used rows' f q field (wd_start (previous w now)) (wd_end (previous w now))
    = used rows f q field (wd_start (previous w now)) (wd_end (previous w now));
}.

Lemma same_reports_compacted now0 now rows : now0 <= now -> sound rows -> fits rows -> placed rows ->
  same_reports now rows (compacted (hourly_before now0) rows).
Proof.
  intros Hle Hs Hf Hp. split; [by apply sound_compacted|by apply fits_compacted|..].
  - intros range offset w f Hw. apply rows_where_ext. intros k Hk. apply compacted_later; [done|].
    etrans; [by eapply window_recent|]. unfold selected in Hk. apply andb_true_iff in Hk as [Hk _].
    apply andb_true_iff in Hk as [Hk%Z.leb_le _]. done.
  - intros range offset w f q field pr Hw Hin. unfold used. apply total_compacted.
    { by eapply total_fields_field. }
    pose proof (previous_unsplit range now offset w now0 f rows Hw Hle Hp) as Hu.
    simpl in Hin. destruct_or! Hin; try (injection Hin as <- <- <-).
    all: first [exact (Hu (fun _ => true))|exact (Hu negb)|exact (Hu (fun b => b))|done].
Qed.

Lemma same_reports_expired now0 now rows rows' : now0 <= now -> same_reports now rows rows' ->
  same_reports now rows (delete_where (daily_older (now0 - DAILY_RETENTION)) rows').
Proof.
  intros Hle [Hs Hf Hw Hp]. split; [by apply sound_filter|by apply fits_delete_where|..].
  - intros range offset w f Hpre. rewrite <- (Hw range offset w f Hpre). apply rows_where_ext. intros k Hk.
    apply delete_where_lookup. unfold daily_older. apply andb_false_iff. right. apply Z.ltb_ge.
    unfold selected in Hk. apply andb_true_iff in Hk as [Hk _]. apply andb_true_iff in Hk as [Hk%Z.leb_le _].
    apply preset_now in Hpre as (Hn & Hlen & _). unfold DAILY_RETENTION. unfold DAY, HOUR in *. lia.
  - intros range offset w f q field pr Hpre Hin. rewrite <- (Hp range offset w f q field pr Hpre Hin).
    unfold used. rewrite total_delete_where. apply total_ext. intros k m _.
    destruct (daily_older _ k) eqn:E; [|done]. unfold part, selected.
    destruct (previous_start w now) as (start & -> & Hstart & _).
    unfold daily_older in E. apply andb_true_iff in E as [_ E%Z.ltb_lt].
    apply preset_now in Hpre as (Hn & Hlen & _).
    rewrite (proj2 (Z.leb_gt start _)); [done|]. unfold DAILY_RETENTION in E. unfold DAY, HOUR in *. lia.
Qed.

(** However far a compaction gets. *)
Lemma compact_cases `{SqlArithmeticLaws} now c r c' :
  sound (rollups (tables c)) -> fits (rollups (tables c)) -> compact now c = (r, c') ->
  let rows := rollups (tables c) in
  let days := compacted (hourly_before now) rows in
  (rollups (tables c') = rows \/ rollups (tables c') = days \/
   rollups (tables c') = delete_where (daily_older (now - DAILY_RETENTION)) days) /\
  (receipts (tables c') = receipts (tables c) \/
   receipts (tables c') = filter (fun receipt => ~ snd receipt < now - RECEIPT_RETENTION) (receipts (tables c))).
Proof.
  intros Hs Hf Hrun rows days. unfold compact in Hrun.
  set (t1 := set_rollups days (tables c)).
  match type of Hrun with (transaction ?body ;* _) _ = _ =>
    assert (does body (tables c) tt t1) as Hbody end.
  { eapply does_bind; apply does_statement; [by rewrite compact_days_exact|done]. }
  apply does_transaction in Hbody. specialize (Hbody c eq_refl).
  apply st_bind_inv in Hrun as [(e & Htx & _)|([] & c1 & Htx & Hrest)]; rewrite Htx in Hbody.
  { destruct Hbody as [_ [->| ->]]; auto. }
  destruct Hbody as [_ Ht1].
  assert (forall {B} what (run : Tables -> option (B * Tables)) b t' c r c',
    run (tables c) = Some (b, t') -> statement what run c = (r, c') ->
    tables c' = tables c \/ tables c' = t') as Hstep.
  { clear. intros B what run b t' c r c' Hr Hc. unfold statement in Hc. rewrite Hr in Hc.
    destruct (faults c (executed c)); injection Hc as <- <-; auto. }
  apply st_bind_inv in Hrest as [(e & Hd & _)|([] & c2 & Hd & Hrest)];
    destruct (Hstep _ _ _ _ _ _ _ _ eq_refl Hd) as [Ht2|Ht2]; rewrite ?Ht2, ?Ht1; simpl; auto.
  all: destruct (Hstep _ _ _ _ _ _ _ _ eq_refl Hrest) as [Ht3|Ht3]; rewrite Ht3; simpl;
    rewrite ?Ht2; simpl; rewrite ?Ht1; auto.
Qed.

(** ** Two runs side by side *)

(** On tables [ta] and [tb], with nothing failing, two computations fail alike or return
    related values, and change nothing. *)
Definition agree {E B B'} (R : B -> B' -> Prop) (ta tb : Tables)
    (m : ST (Connection Tables) E B) (m' : ST (Connection Tables) E B') : Prop :=
  forall ca cb, tables ca = ta -> tables cb = tb -> healthy ca -> healthy cb ->
    match m ca, m' cb with
    | (Ok b, ca'), (Ok b', cb') =>
        R b b' /\ tables ca' = ta /\ tables cb' = tb /\ healthy ca' /\ healthy cb'
    | (Err e, _), (Err e', _) => e = e'
    | _, _ => False
    end.

Lemma agree_ret {E B B'} (R : B -> B' -> Prop) ta tb b b' :
  R b b' -> agree (E := E) R ta tb (st_ret b) (st_ret b').
Proof. by intros HR ca cb. Qed.
Lemma agree_bind {E B B' C C'} (R : B -> B' -> Prop) (Q : C -> C' -> Prop) ta tb m m'
    (k : B -> ST (Connection Tables) E C) (k' : B' -> ST (Connection Tables) E C') :
  agree R ta tb m m' -> (forall b b', R b b' -> agree Q ta tb (k b) (k' b')) ->
  agree Q ta tb (st_bind m k) (st_bind m' k').
Proof.
  intros Hm Hk ca cb Ha Hb Hha Hhb. specialize (Hm ca cb Ha Hb Hha Hhb). unfold st_bind.
  destruct (m ca) as [[b|e] ca'], (m' cb) as [[b'|e'] cb']; try done.
  destruct Hm as (HR & Ha' & Hb' & Hha' & Hhb'). by apply Hk.
Qed.
Lemma agree_same_query {B} what (run : Tables -> option B) ta tb :
  run ta = run tb -> agree eq ta tb (stored_query (query what run)) (stored_query (query what run)).
Proof.
  intros Hrun ca cb Ha Hb Hha Hhb. unfold stored_query, st_map_err, query, statement.
  rewrite (Hha (executed ca)), (Hhb (executed cb)), Ha, Hb, Hrun.
  destruct (run tb); simpl; [|done]. repeat split; done.
Qed.

Lemma totals_ext a b :
  (forall q field pr, In (q, field, pr) total_fields -> pr a = pr b) -> a = b.
Proof.
  intros H. destruct a as [a1 a2 a3 a4 a5 a6 a7 a8 a9 a10], b as [b1 b2 b3 b4 b5 b6 b7 b8 b9 b10].
  assert (forall n t, nth_error total_fields n = Some t ->
    snd t {| tt_requests := a1; tt_errors := a2; tt_input_tokens := a3; tt_output_tokens := a4;
             tt_cache_read_tokens := a5; tt_cache_write_tokens := a6; tt_cost_nanos := a7;
             tt_subscription_cost_nanos := a8; tt_subscription_requests := a9; tt_unpriced_requests := a10 |}
    = snd t {| tt_requests := b1; tt_errors := b2; tt_input_tokens := b3; tt_output_tokens := b4;
             tt_cache_read_tokens := b5; tt_cache_write_tokens := b6; tt_cost_nanos := b7;
             tt_subscription_cost_nanos := b8; tt_subscription_requests := b9; tt_unpriced_requests := b10 |}) as Hn.
  { intros n [[q field] pr] Ht. apply (H q field). by eapply nth_error_In. }
  f_equal; [apply (Hn 0%nat _ eq_refl)|apply (Hn 1%nat _ eq_refl)|apply (Hn 2%nat _ eq_refl)|
    apply (Hn 3%nat _ eq_refl)|apply (Hn 4%nat _ eq_refl)|apply (Hn 5%nat _ eq_refl)|
    apply (Hn 6%nat _ eq_refl)|apply (Hn 7%nat _ eq_refl)|apply (Hn 8%nat _ eq_refl)|
    apply (Hn 9%nat _ eq_refl)].
Qed.

Lemma agree_does {B} (R : B -> B -> Prop) (m m' : ST (Connection Tables) string B) ta tb b b' :
  does m ta b ta -> does m' tb b' tb -> R b b' -> agree R ta tb (stored_query m) (stored_query m').
Proof.
  intros Hm Hm' HR ca cb Ha Hb Hha Hhb. specialize (Hm ca Ha) as [Hfa Hma].
  specialize (Hm' cb Hb) as [Hfb Hmb]. unfold stored_query, st_map_err.
  destruct (m ca) as [[x|e] ca'], (m' cb) as [[x'|e'] cb']; simpl in *; try done.
  destruct Hma as [-> Hta], Hmb as [-> Htb]. unfold healthy in *. by rewrite Hfa, Hfb.
Qed.

Lemma agree_report `{SqlArithmeticLaws} qy range offset now w dims enabled labels ta tb :
  preset range now offset = Some w -> sound (rollups ta) -> fits (rollups ta) ->
  same_reports now (rollups ta) (rollups tb) ->
  agree eq ta tb (report_on qy range now w dims enabled labels) (report_on qy range now w dims enabled labels).
Proof.
  intros Hw Hs Hf [Hs' Hf' Hsame Hprev].
  assert (forall f, rows_where (selected (wd_start w) (wd_end w) f) (rollups ta)
                  = rows_where (selected (wd_start w) (wd_end w) f) (rollups tb)) as Hrows.
  { intros f. symmetry. by eapply Hsame. }
  assert (forall f d, agree eq ta tb (stored_query (breakdown (wd_start w) (wd_end w) f d))
                                     (stored_query (breakdown (wd_start w) (wd_end w) f d))) as Hbreak.
  { intros f d. apply agree_same_query. by rewrite Hrows. }
  assert (forall f acc, agree eq ta tb (breakdowns labels w f dims acc) (breakdowns labels w f dims acc)) as Hdims.
  { intros f. induction dims as [|d dims IH]; intros acc; simpl; [by apply agree_ret|].
    eapply agree_bind; [apply Hbreak|]. intros rows ? <-. apply IH. }
  unfold report_on. set (f := filter_of qy).
  eapply agree_bind; [apply agree_same_query; by rewrite Hrows|]. intros current ? <-.
  eapply (agree_bind (fun a b => sm_totals a = sm_totals b)).
  { destruct (summary_exact (wd_start (previous w now)) (wd_end (previous w now)) f ta Hs Hf) as (sa & Hda & Ha).
    destruct (summary_exact (wd_start (previous w now)) (wd_end (previous w now)) f tb Hs' Hf') as (sb & Hdb & Hb).
    eapply agree_does; [exact Hda|exact Hdb|]. apply totals_ext. intros q field pr Hin.
    rewrite (Ha q field pr Hin), (Hb q field pr Hin). symmetry. by eapply Hprev. }
  intros earlier earlier' He. eapply agree_bind; [apply agree_same_query; by rewrite Hrows|]. intros rows ? <-.
  eapply agree_bind; [apply Hdims|]. intros broken ? <-.
  eapply agree_bind; [apply Hbreak|]. intros users ? <-.
  eapply agree_bind; [apply Hbreak|]. intros devices ? <-.
  apply agree_ret. by rewrite He.
Qed.

(** C23. Compaction is invisible: over tables whose sums fit and whose rows start at or
    after the epoch, a compaction at any earlier time, whether it completes or stops
    anywhere because a statement, the commit or an answer failed, leaves every report of
    every range, offset, filter and breakdown exactly as it would have been, the totals
    of the period before included. *)
Theorem compaction_is_invisible `{SqlArithmeticLaws} now0 now c0 r c0' ca cb qy enabled labels :
  now0 <= now ->
  sound (rollups (tables c0)) -> fits (rollups (tables c0)) -> placed (rollups (tables c0)) ->
  compact now0 c0 = (r, c0') ->
  tables ca = tables c0 -> tables cb = tables c0' -> healthy ca -> healthy cb ->
  fst (report qy now enabled labels ca) = fst (report qy now enabled labels cb).
Proof.
  intros Hle Hs Hf Hp Hrun Ha Hb Hha Hhb. unfold report.
  destruct (preset _ _ _) as [w|] eqn:Hw; [|done]. destruct (dimensions_of (uq_by qy)) as [dims|]; [|done].
  assert (same_reports now (rollups (tables c0)) (rollups (tables c0'))) as Hsame.
  { destruct (compact_cases now0 c0 r c0' Hs Hf Hrun) as [[->|[->| ->]] _]; [by split| |apply same_reports_expired; [done|]];
      by apply same_reports_compacted. }
  pose proof (agree_report qy (default "7d" (uq_range qy)) _ now w dims enabled labels _ _ Hw Hs Hf Hsame
    ca cb Ha Hb Hha Hhb) as Hag.
  destruct (report_on _ _ _ _ _ _ _ ca) as [[x|e] ?], (report_on _ _ _ _ _ _ _ cb) as [[y|e'] ?]; try done;
    simpl; [by destruct Hag as [-> _]|by rewrite Hag].
Qed.
Lemma compaction_is_invisible_witness :
  let c := connected (fun n => if Nat.eqb n 4 then AnswerLost else Runs) (one_row 1762520400) in
  let qy := {| uq_range := Some "90d"; uq_by := Some "tool"; uq_utc_offset_minutes := Some (-300);
               uq_user := None; uq_device := None; uq_tool := None; uq_provider := None; uq_model := None |} in
  let labels := {| lb_users := ∅; lb_devices := ∅ |} in
  is_ok (fst (compact 1773156000 c)) = false /\
  fst (report qy 1773160000 true labels (connected (fun _ => Runs) (one_row 1762520400)))
  = fst (report qy 1773160000 true labels (connected (fun _ => Runs) (tables (snd (compact 1773156000 c))))).
Proof.
  intros c qy labels. split; [vm_compute; reflexivity|].
  destruct (compact 1773156000 c) as [r c'] eqn:E. simpl fst. simpl snd.
  apply (compaction_is_invisible 1773156000 1773160000 c r c').
  - lia.
  - exact (one_row_sound _).
  - exact (one_row_fits _).
  - intros k [m Hk]. simpl in Hk. apply lookup_singleton_Some in Hk as [<- _]. vm_compute. discriminate.
  - exact E.
  - reflexivity.
  - reflexivity.
  - intros n. reflexivity.
  - intros n. reflexivity.
Defined.
