(* ===== verification/UsageIngest.v ===== *)
(** * Receiving usage ([crates/usage/src/otlp.rs])

    An access-log record of the gateway becomes a usage record: its attributes are read
    and checked, its identifier is the digest of its contents, and the records of an
    export are stored together. UUIDs, SHA-256 and Base64 are third-party code, functions
    of the text they are given ([Digests]). *)

From Stdlib Require Import SpecFloat.
From S2P Require Import Prelude Str Sql Float Fs Config Usage UsageStore.

(** ** Messages ([proto/otlp_logs.proto]) *)

(** [any_value::Value]; an [AnyValue] has at most one, and a list's items and an entry's
    value are [AnyValue]s. A double is its bits. *)
Inductive Value : Type :=
| StringValue (text : string)
| BoolValue (flag : bool)
| IntValue (number : Z)
| DoubleValue (bits : Z)
| ArrayValue (values : list (option Value))
| KvlistValue (values : list (string * option (option Value)))
| BytesValue (bytes : string).
Definition AnyValue : Type := option Value.
Record KeyValue : Type := { kv_key : string; kv_value : option AnyValue }.

(** The fields of [LogRecord] the code reads. *)
Record LogRecord : Type := {
  lr_time_unix_nano : Z;
  lr_observed_time_unix_nano : Z;
  lr_body : option AnyValue;
  lr_attributes : list KeyValue;
  lr_trace_id : string;
  lr_span_id : string;
}.

(** [Uuid::parse_str] with the UUID's text, [Sha256::digest], Base64's URL-safe alphabet
    without padding, and the constant-time comparison of slices. *)
Class Digests : Type := {
  parse_uuid : string -> option string;
  sha256 : string -> string;
  url_safe_base64 : string -> string;
  verify_slices_are_equal : string -> string -> bool;
}.
Class DigestsLaws (D : Digests) : Prop := {
  slices_equal a b : verify_slices_are_equal a b = true <-> a = b;
}.

Definition MIN_TOKEN_LENGTH : nat := 32.
Definition MAX_LABEL_BYTES : nat := 128.
Definition MAX_SUBJECT_BYTES : nat := 256.
Definition MAX_TOKENS_PER_REQUEST : Z := 1000000000.
Definition MAX_COST_NANOS_PER_REQUEST : Z := 1000000000000000.
Definition MAX_CLOCK_SKEW : Z := 5 * 60.

Definition PROVIDER := "gen_ai.provider.name".
Definition REQUEST_MODEL := "gen_ai.request.model".
Definition RESPONSE_MODEL := "gen_ai.response.model".
Definition INPUT_TOKENS := "gen_ai.usage.input_tokens".
Definition OUTPUT_TOKENS := "gen_ai.usage.output_tokens".
Definition CACHE_READ_TOKENS := "gen_ai.usage.cache_read.input_tokens".
Definition CACHE_WRITE_TOKENS := "gen_ai.usage.cache_creation.input_tokens".
Definition COST := "agw.ai.usage.cost.total".
Definition STATUS := "http.response.status_code".
Definition ERROR := "error".
Definition JWT_SUBJECT := "jwt.sub".
Definition USER_AGENT := "user_agent.original".
Definition SUBJECT := "agentdesktop.subject".
Definition DEVICE := "agentdesktop.device".
Definition CLIENT := "agentdesktop.client".
Definition BILLING := "agentdesktop.billing".
Definition USER_AGENT_TOOLS : list (string * string) :=
  [("claude-cli/", "claude-code"); ("codex_", "codex")].

(** ** Values *)

(** [integer]. *)
Definition integer (value : Value) : option Z :=
  match value with
  | IntValue number => Some number
  | DoubleValue bits =>
      let number := f64_from_bits bits in
      if f64_is_finite number && f64_is_integral number
         && SFltb (SFabs number) (f64_of_i64 9000000000000000)
      then Some (f64_to_i64 number) else None
  | StringValue text => i64_parse (trim text)
  | _ => None
  end.

(** [i64::checked_mul] and [checked_add]. *)
Definition in_range_i64 (z : Z) : option Z := if in_i64 z then Some z else None.

(** [dollars_to_nanos]. *)
Definition dollars_to_nanos (dollars : f64) : option Z :=
  let nanos := f64_round (f64_mul dollars (f64_of_i64 1000000000)) in
  if f64_is_finite nanos && SFleb (S754_zero false) nanos
     && SFltb nanos (f64_of_i64 9000000000000000000)
  then Some (f64_to_i64 nanos) else None.

(** The first [n] digits after the point, zeros where there are none. *)
Fixpoint fraction_digits (n : nat) (digits : list ascii) (nanos : Z) : Z :=
  match n with
  | O => nanos
  | S n =>
      fraction_digits n (tail digits)
        (nanos * 10 + match digits with a :: _ => digit_of a | [] => 0 end)
  end.

(** [decimal_nanos]. *)
Definition decimal_nanos (text : string) : option Z :=
  let '(whole, fraction) := default (text, "") (split_once "." text) in
  let plain := negb (is_empty whole && is_empty fraction)
               && str_all is_ascii_digit (whole +:+ fraction) in
  if negb plain then f64_parse text ≫= dollars_to_nanos
  else
    whole ← (if is_empty whole then Some 0 else i64_parse whole);
    let digits := String.list_ascii_of_string fraction in
    let nanos := fraction_digits 9 digits 0 in
    let round_up := is_some_and (fun a => 53 <=? byte_of a) (digits !! 9%nat) in
    scaled ← in_range_i64 (whole * 1000000000);
    in_range_i64 (scaled + (nanos + (if round_up then 1 else 0))).

(** [cost_nanos]. *)
Definition cost_nanos (value : Value) : option Z :=
  match value with
  | StringValue text => decimal_nanos (trim text)
  | DoubleValue bits => dollars_to_nanos (f64_from_bits bits)
  | IntValue dollars =>
      option_filter (fun nanos => 0 <=? nanos) (in_range_i64 (dollars * 1000000000))
  | _ => None
  end.

(** [value.chars().any(char::is_control)] on UTF-8: the C0 controls and DEL, and the C1
    controls, which are encoded with the byte 194. *)
Fixpoint has_control (l : list Z) : bool :=
  match l with
  | [] => false
  | b :: rest =>
      (b <? 32) || (b =? 127)
      || ((b =? 194) && match rest with c :: _ => (128 <=? c) && (c <=? 159) | [] => false end)
      || has_control rest
  end.
(** [label], which does not fail. *)
Definition label (value : string) (max_bytes : nat) : string :=
  if Nat.ltb max_bytes (String.length value) || has_control (bytes value) then "" else value.

(** ** The digest of a record *)

(** [to_be_bytes] of a [width]-byte integer. *)
Fixpoint be_bytes (width : nat) (z : Z) : string :=
  match width with
  | O => ""
  | S width => be_bytes width (z / 256) +:+ String (of_byte (z mod 256)) ""
  end.
Definition length_bytes (n : nat) : string := be_bytes 8 (Z.of_nat n).
(** [hash_bytes]. *)
Definition hash_bytes (b : string) : string := length_bytes (String.length b) +:+ b.
Definition tag (n : Z) : string := String (of_byte n) "".
(** [hash_value]: what is fed to the digest. *)
Fixpoint hash_content (value : Value) : string :=
  let item (v : option Value) := match v with None => tag 0 | Some v => hash_content v end in
  match value with
  | StringValue text => tag 1 +:+ hash_bytes text
  | BoolValue flag => tag 2 +:+ tag (if flag then 1 else 0)
  | IntValue number => tag 3 +:+ be_bytes 8 (number mod 2 ^ 64)
  | DoubleValue bits => tag 4 +:+ be_bytes 8 bits
  | ArrayValue values =>
      tag 5 +:+ length_bytes (length values)
      +:+ foldr (fun v rest => item v +:+ rest) "" values
  | KvlistValue values =>
      tag 6 +:+ length_bytes (length values)
      +:+ foldr (fun '(key, v) rest =>
            hash_bytes key +:+ match v with None => tag 0 | Some v => item v end +:+ rest) "" values
  | BytesValue b => tag 7 +:+ hash_bytes b
  end.
Definition hash_value (value : option AnyValue) : string :=
  match value with Some (Some value) => hash_content value | _ => tag 0 end.

(** [attributes.sort_by(|left, right| left.key.cmp(&right.key))]. *)
Definition by_key (left right : KeyValue) : bool := String.leb (kv_key left) (kv_key right).
Definition hash_attribute (a : KeyValue) : string := hash_bytes (kv_key a) +:+ hash_value (kv_value a).
Definition record_bytes (r : LogRecord) : string :=
  be_bytes 8 (lr_time_unix_nano r) +:+ be_bytes 8 (lr_observed_time_unix_nano r)
  +:+ hash_bytes (lr_trace_id r) +:+ hash_bytes (lr_span_id r)
  +:+ length_bytes (length (lr_attributes r))
  +:+ foldr (fun a rest => hash_attribute a +:+ rest) "" (sort_by by_key (lr_attributes r))
  +:+ hash_value (lr_body r).

(** ** Reading a record *)

(** The attributes with a value, the last one of a key. *)
Definition attributes_of (r : LogRecord) : gmap string Value :=
  fold_left (fun m a => match kv_value a with Some (Some v) => <[kv_key a := v]> m | _ => m end)
    (lr_attributes r) ∅.

(** The record's own time, or when it was observed. *)
Definition stamp_of (r : LogRecord) : Z :=
  if lr_time_unix_nano r =? 0 then lr_observed_time_unix_nano r else lr_time_unix_nano r.
(** [occurred_at]. *)
Definition occurred_at (r : LogRecord) (now : Z) : result Z string :=
  let nanos := stamp_of r in
  if nanos =? 0 then Ok now
  else
    let seconds := nanos / 1000000000 in
    if i64_saturating_add now MAX_CLOCK_SKEW <? seconds then Ok now
    else if seconds <? now - DAILY_RETENTION then Err "record is older than usage retention"
    else Ok seconds.

Definition text_of (attributes : gmap string Value) (key : string) : option string :=
  match attributes !! key with Some (StringValue text) => Some text | _ => None end.
(** A token count of a record. *)
Definition token_count (attributes : gmap string Value) (key : string) : result Z string :=
  match attributes !! key with
  | None => Ok 0
  | Some value =>
      ok_or (option_filter (fun count => (0 <=? count) && (count <=? MAX_TOKENS_PER_REQUEST))
               (integer value))
        (key +:+ " must be an integer between 0 and 1000000000")
  end.
Definition cost_of (attributes : gmap string Value) : result (option Z) string :=
  match attributes !! COST with
  | None => Ok None
  | Some value =>
      let? amount :=
        ok_or (option_filter (fun amount => amount <=? MAX_COST_NANOS_PER_REQUEST) (cost_nanos value))
          (COST +:+ " must be a dollar amount no greater than $1,000,000 per request") in
      Ok (Some amount)
  end.
Definition or_else {A} (o o' : option A) : option A := match o with Some _ => o | None => o' end.

Section digests.
Context {D : Digests}.

Definition record_id (r : LogRecord) : string := url_safe_base64 (sha256 (record_bytes r)).

(** Who a request is counted for. *)
Definition device_of (attributes : gmap string Value) : string :=
  default "" (text_of attributes DEVICE ≫= parse_uuid).
Definition client_of (attributes : gmap string Value) : string :=
  default "" (or_else (option_filter valid_client_id (text_of attributes CLIENT))
    (user_agent ← text_of attributes USER_AGENT;
     snd <$> find (fun '(prefix, _) => starts_with prefix user_agent) USER_AGENT_TOOLS)).
Definition billing_of (attributes : gmap string Value) : Billing :=
  if bool_decide (text_of attributes BILLING = Some "subscription") then Subscription else Api.
Definition model_of (attributes : gmap string Value) : string :=
  default "" (or_else (option_filter (fun model => negb (is_empty model))
                         (text_of attributes RESPONSE_MODEL))
                (text_of attributes REQUEST_MODEL)).
Definition subject_of (attributes : gmap string Value) : string :=
  default "" (or_else (text_of attributes SUBJECT) (text_of attributes JWT_SUBJECT)).
Definition failed (attributes : gmap string Value) : bool :=
  let status := default 0 (attributes !! STATUS ≫= integer) in
  is_some_and (fun value => match value with StringValue "" => false | _ => true end)
    (attributes !! ERROR)
  || (400 <=? status).

(** [parse_record]. *)
Definition parse_record (r : LogRecord) (now : Z) : result (option UsageRecord) string :=
  let attributes := attributes_of r in
  match option_filter (fun provider => negb (is_empty provider)) (text_of attributes PROVIDER) with
  | None => Ok None
  | Some provider =>
      let? input_tokens := token_count attributes INPUT_TOKENS in
      let? output_tokens := token_count attributes OUTPUT_TOKENS in
      let? cost := cost_of attributes in
      let? at_ := occurred_at r now in
      let? cache_read_tokens := token_count attributes CACHE_READ_TOKENS in
      let? cache_write_tokens := token_count attributes CACHE_WRITE_TOKENS in
      Ok (Some
        {| us_id := record_id r;
           us_key :=
             {| ru_bucket_start := at_ / HOUR * HOUR;
                ru_subject := label (subject_of attributes) MAX_SUBJECT_BYTES;
                ru_device_id := device_of attributes;
                ru_client_id := client_of attributes;
                ru_provider := label provider MAX_LABEL_BYTES;
                ru_model := label (model_of attributes) MAX_LABEL_BYTES;
                ru_billing := billing_of attributes |};
           us_measures :=
             {| ms_requests := 1;
                ms_errors := if failed attributes then 1 else 0;
                ms_input_tokens := input_tokens;
                ms_output_tokens := output_tokens;
                ms_cache_read_tokens := cache_read_tokens;
                ms_cache_write_tokens := cache_write_tokens;
                ms_cost_nanos := default 0 cost;
                ms_unpriced_requests :=
                  if negb (is_some cost) && (0 <? i64_saturating_add input_tokens output_tokens)
                  then 1 else 0 |} |})
  end.

(** ** An export *)

(** [ExportLogsServiceRequest]: resources, their scopes, their records. *)
Definition ExportRequest : Type := list (list (list LogRecord)).
Record PartialSuccess : Type := { ps_rejected_log_records : Z; ps_error_message : string }.

Record parsed : Type := {
  pd_records : list UsageRecord;
  pd_rejected : Z;
  pd_first_error : option string;
}.
Definition parse_next (now : Z) (p : parsed) (r : LogRecord) : parsed :=
  match parse_record r now with
  | Ok (Some usage) =>
      {| pd_records := pd_records p ++ [usage]; pd_rejected := pd_rejected p;
         pd_first_error := pd_first_error p |}
  | Ok None => p
  | Err error =>
      {| pd_records := pd_records p; pd_rejected := pd_rejected p + 1;
         pd_first_error := Some (default error (pd_first_error p)) |}
  end.
Definition parse_export (request : ExportRequest) (now : Z) : parsed :=
  fold_left (parse_next now) (concat (concat request))
    {| pd_records := []; pd_rejected := 0; pd_first_error := None |}.

(** [LogsService::export]; the error is the gRPC status [Unavailable]. *)
Definition export `{SqlArithmetic} (request : ExportRequest) (now : Z)
  : ST (Connection Tables) string (option PartialSuccess) :=
  let p := parse_export request now in
  st_map_err (fun _ => "usage storage is unavailable") (ingest (pd_records p) now) ;*
  st_ret ((fun error_message =>
    {| ps_rejected_log_records := pd_rejected p; ps_error_message := error_message |})
    <$> pd_first_error p).

(** ** The export token *)

(** [UsageTokenCheck::new] and [call], on the text of the [authorization] header. *)
Definition token_check (token : string) : string := sha256 token.
Definition check_call (digest : string) (authorization : option string) : result unit string :=
  match authorization ≫= strip_prefix "Bearer " with
  | None => Err "missing usage export token"
  | Some token =>
      if verify_slices_are_equal (sha256 token) digest then Ok tt
      else Err "invalid usage export token"
  end.
End digests.

(** [load_token]. *)
Definition load_token (s : fs) (p : path) : result string string :=
  let? contents := map_err (fun e => context ("read usage token from " +:+ display p) (io_kind_message e))
                     (fs_read_to_string s p) in
  let token := trim contents in
  if Nat.ltb (String.length token) MIN_TOKEN_LENGTH
  then Err ("usage token in " +:+ display p +:+ " must be at least 32 characters")
  else if negb (str_all is_ascii_graphic token)
  then Err ("usage token in " +:+ display p +:+ " must be printable ASCII without spaces")
  else Ok token.

(** ** Numbers *)

Definition all_digits (s : string) : Prop := str_all is_ascii_digit s = true.
Lemma all_digits_Forall s :
  all_digits s -> Forall (fun a => is_ascii_digit a = true) (String.list_ascii_of_string s).
Proof.
  unfold all_digits. induction s as [|a s IH]; simpl; [constructor|].
  intros [Ha Hs]%andb_true_iff. constructor; auto.
Qed.
Lemma length_list_ascii s : length (String.list_ascii_of_string s) = String.length s.
Proof. induction s; simpl; congruence. Qed.
Lemma list_ascii_app s t : String.list_ascii_of_string (s +:+ t)
  = (String.list_ascii_of_string s ++ String.list_ascii_of_string t)%list.
Proof. induction s as [|a s IH]; [done|]. simpl. by rewrite IH. Qed.
Lemma number_of_range s : all_digits s -> 0 <= number_of s < 10 ^ Z.of_nat (String.length s).
Proof.
  intros Hs%all_digits_Forall. rewrite <- length_list_ascii. by apply number_from_range.
Qed.
Lemma number_of_app s t : number_of (s +:+ t) = number_of s * 10 ^ Z.of_nat (String.length t) + number_of t.
Proof.
  unfold number_of. rewrite list_ascii_app, number_from_app, number_from_shift.
  by rewrite length_list_ascii.
Qed.

Lemma digit_not_sign a : is_ascii_digit a = true -> Ascii.eqb a "-" = false /\ Ascii.eqb a "+" = false.
Proof. intros Ha. split; apply Ascii.eqb_neq; intros ->; done. Qed.
Lemma i64_parse_digits s : all_digits s -> s <> "" ->
  i64_parse s = if number_of s <=? I64_MAX then Some (number_of s) else None.
Proof.
  intros Hs Hne. pose proof (number_of_range s Hs) as Hr. destruct s as [|a s]; [done|].
  pose proof Hs as Ha. apply andb_true_iff in Ha as [Ha _]. apply digit_not_sign in Ha as [H1 H2].
  unfold i64_parse, split_sign. rewrite H1, H2. unfold all_digits in Hs. rewrite Hs. simpl (is_empty _ || _).
  cbv iota. unfold in_i64. rewrite (proj2 (Z.leb_le _ _)) by (unfold I64_MIN; lia). done.
Qed.

Lemma fraction_digits_long n l acc : (n <= length l)%nat ->
  fraction_digits n l acc = number_from acc (take n l).
Proof.
  revert l acc. induction n as [|n IH]; intros [|a l] acc Hn; simpl in *; try lia; try done.
  by rewrite IH by lia.
Qed.
Lemma fraction_digits_short n l acc : (length l <= n)%nat ->
  fraction_digits n l acc = number_from acc l * 10 ^ (Z.of_nat n - Z.of_nat (length l)).
Proof.
  revert l acc. induction n as [|n IH]; intros l acc Hn.
  - destruct l; [|simpl in Hn; lia]. unfold number_from. simpl. lia.
  - destruct l as [|a l]; simpl in *.
    + rewrite IH by (simpl; lia). unfold number_from. simpl length. simpl fold_left.
      rewrite Z.sub_0_r, Z.sub_0_r, Z.add_0_r.
      replace (Z.of_nat (S n)) with (1 + Z.of_nat n) by lia. rewrite Z.pow_add_r by lia. lia.
    + rewrite IH by lia. unfold number_from. simpl fold_left. do 2 f_equal. lia.
Qed.

(** ** Amounts *)

(** The billionths nearest to [digits / 10 ^ places], a half up. *)
Definition nearest_nanos (digits : Z) (places : nat) : Z :=
  (2 * digits * 10 ^ 9 + 10 ^ Z.of_nat places) / (2 * 10 ^ Z.of_nat places).

Lemma div_add_mul a b c : 0 < c -> (a * c + b) / c = a + b / c.
Proof. intros Hc. rewrite Z.add_comm, Z.div_add by lia. lia. Qed.

(** The code's nine digits and its look at the tenth are the rounding. *)
Lemma fraction_nearest s : all_digits s ->
  let digits := String.list_ascii_of_string s in
  fraction_digits 9 digits 0
  + (if is_some_and (fun a : ascii => 53 <=? byte_of a) (digits !! 9%nat) then 1 else 0)
  = nearest_nanos (number_of s) (String.length s).
Proof.
  intros Hs digits. apply all_digits_Forall in Hs as Hd. fold digits in Hd.
  unfold nearest_nanos, number_of. fold digits. rewrite <- (length_list_ascii s). fold digits.
  destruct (decide (length digits <= 9)%nat) as [Hshort|Hlong].
  - rewrite lookup_ge_None_2 by lia. simpl (is_some_and _ _). cbv iota. rewrite Z.add_0_r.
    rewrite fraction_digits_short by lia. set (k := Z.of_nat (length digits)).
    assert (10 ^ 9 = 10 ^ (Z.of_nat 9 - k) * 10 ^ k) as ->
      by (rewrite <- Z.pow_add_r by lia; f_equal; lia).
    assert (0 < 10 ^ k) as Hk by (apply Z.pow_pos_nonneg; lia).
    replace (2 * number_from 0 digits * (10 ^ (Z.of_nat 9 - k) * 10 ^ k) + 10 ^ k)
      with (number_from 0 digits * 10 ^ (Z.of_nat 9 - k) * (2 * 10 ^ k) + 10 ^ k) by lia.
    rewrite div_add_mul by lia. rewrite (Z.div_small (10 ^ k)) by lia. lia.
  - assert (9 < length digits)%nat as Hlen by lia. destruct (lookup_lt_is_Some_2 digits 9 Hlen) as [a Ha].
    rewrite Ha. simpl (is_some_and _ _). rewrite fraction_digits_long by lia.
    pose proof (take_drop_middle digits 9 a Ha) as Hsplit.
    rewrite <- Hsplit in Hd. apply Forall_app in Hd as [_ Hd].
    apply Forall_cons in Hd as [Ha' Hd]. apply digit_of_range in Ha'.
    assert (length digits = (10 + length (drop 10 digits))%nat) as -> by (rewrite length_drop; lia).
    assert (number_from 0 digits = number_from 0 (take 9 digits ++ a :: drop 10 digits)) as -> by by rewrite Hsplit.
    pose proof (number_from_range _ Hd) as Hrest. set (rest := drop 10 digits) in *.
    rewrite number_from_app. set (N := number_from 0 (take 9 digits)).
    change (number_from N (a :: rest)) with (number_from (N * 10 + digit_of a) rest).
    rewrite number_from_shift. set (r := Z.of_nat (length rest)) in *.
    replace (Z.of_nat (10 + length rest)) with (10 + r) by lia. rewrite Z.pow_add_r by lia.
    set (T := 10 ^ r) in *. change (10 ^ 10) with (10 * 10 ^ 9). unfold digit_of in *.
    replace (2 * ((N * 10 + (byte_of a - 48)) * T + number_from 0 rest) * 10 ^ 9 + 10 * 10 ^ 9 * T)
      with (N * (2 * (10 * 10 ^ 9 * T))
            + (2 * ((byte_of a - 48) * T + number_from 0 rest) + 10 * T) * 10 ^ 9) by lia.
    rewrite div_add_mul by lia. f_equal.
    replace (2 * (10 * 10 ^ 9 * T)) with ((20 * T) * 10 ^ 9) by lia.
    rewrite Z.div_mul_cancel_r by lia.
    destruct (Z.leb_spec 53 (byte_of a)).
    + apply (Z.div_unique_pos _ _ _ (2 * ((byte_of a - 53) * T + number_from 0 rest))); nia.
    + apply (Z.div_unique_pos _ _ _ (2 * ((byte_of a - 48) * T + number_from 0 rest) + 10 * T)); nia.
Qed.

Lemma nearest_carry w f k : 0 <= k -> nearest_nanos (w * 10 ^ k + f) (Z.to_nat k)
  = w * 1000000000 + nearest_nanos f (Z.to_nat k).
Proof.
  intros Hk. unfold nearest_nanos. rewrite Z2Nat.id by done.
  assert (0 < 10 ^ k) by (apply Z.pow_pos_nonneg; lia).
  replace (2 * (w * 10 ^ k + f) * 10 ^ 9 + 10 ^ k)
    with (w * 1000000000 * (2 * 10 ^ k) + (2 * f * 10 ^ 9 + 10 ^ k)) by lia.
  by rewrite div_add_mul by lia.
Qed.
Lemma nearest_nonneg v places : 0 <= v -> 0 <= nearest_nanos v places.
Proof. intros Hv. unfold nearest_nanos. apply Z.div_pos; pose proof (Z.pow_pos_nonneg 10 (Z.of_nat places)); lia. Qed.

(** A plain decimal is read exactly, and refused only when its amount does not fit. *)
Lemma decimal_exact text whole fraction :
  default (text, "") (split_once "." text) = (whole, fraction) ->
  all_digits whole -> all_digits fraction -> (whole <> "" \/ fraction <> "") ->
  let nanos := nearest_nanos (number_of (whole +:+ fraction)) (String.length fraction) in
  decimal_nanos text = if nanos <=? I64_MAX then Some nanos else None.
Proof.
  intros Hsplit Hw Hf Hne nanos. unfold decimal_nanos. rewrite Hsplit.
  assert (negb (is_empty whole && is_empty fraction) = true) as -> by (destruct whole, fraction; naive_solver).
  rewrite str_all_app. unfold all_digits in Hw, Hf. rewrite Hw, Hf. simpl (negb _). cbv iota zeta.
  pose proof (fraction_nearest fraction Hf) as Hfrac. cbv zeta in Hfrac. rewrite Hfrac.
  pose proof (number_of_range whole Hw) as Hwr. pose proof (number_of_range fraction Hf) as Hfr.
  pose proof (nearest_nonneg (number_of fraction) (String.length fraction) ltac:(lia)) as Hpos.
  assert (nanos = number_of whole * 1000000000 + nearest_nanos (number_of fraction) (String.length fraction)) as Hn.
  { unfold nanos. rewrite number_of_app.
    pose proof (nearest_carry (number_of whole) (number_of fraction) (Z.of_nat (String.length fraction)) ltac:(lia)) as Hc.
    by rewrite Nat2Z.id in Hc. }
  clearbody nanos. subst nanos.
  set (up := nearest_nanos (number_of fraction) (String.length fraction)) in *.
  assert ((if is_empty whole then Some 0 else i64_parse whole)
          = if number_of whole <=? I64_MAX then Some (number_of whole) else None) as ->.
  { destruct whole as [|a whole']; [done|]. simpl (is_empty _). cbv iota. by apply i64_parse_digits. }
  set (n := number_of whole) in *.
  destruct (Z.leb_spec n I64_MAX) as [Hle|Hgt]; cbn [mbind option_bind].
  - unfold in_range_i64, in_i64. rewrite (proj2 (Z.leb_le I64_MIN (n * _))) by (unfold I64_MIN; lia).
    simpl (true && _). destruct (Z.leb_spec (n * 1000000000) I64_MAX); cbn [mbind option_bind].
    + by rewrite (proj2 (Z.leb_le I64_MIN _)) by (unfold I64_MIN; lia).
    + by rewrite (proj2 (Z.leb_gt _ _)) by lia.
  - by rewrite (proj2 (Z.leb_gt _ _)) by (unfold I64_MAX in *; lia).
Qed.

Lemma dollars_nonneg x n : dollars_to_nanos x = Some n -> 0 <= n.
Proof.
  unfold dollars_to_nanos. destruct (_ && _ && _) eqn:E; [|done]. intros [= <-].
  apply andb_true_iff in E as [E _]. apply andb_true_iff in E as [_ E]. by apply f64_to_i64_nonneg.
Qed.
Lemma decimal_nonneg text n : decimal_nanos text = Some n -> 0 <= n.
Proof.
  intros Hd. destruct (default (text, "") (split_once "." text)) as [whole fraction] eqn:E.
  destruct (negb (is_empty whole && is_empty fraction) && str_all is_ascii_digit (whole +:+ fraction)) eqn:Hp.
  - apply andb_true_iff in Hp as [Hne Hp]. rewrite str_all_app in Hp. apply andb_true_iff in Hp as [Hw Hf].
    rewrite (decimal_exact text whole fraction E Hw Hf) in Hd by (destruct whole; [right; by destruct fraction|by left]).
    destruct (_ <=? I64_MAX); [|done]. injection Hd as <-. apply nearest_nonneg.
    apply number_of_range. unfold all_digits. by rewrite str_all_app, Hw, Hf.
  - unfold decimal_nanos in Hd. rewrite E, Hp in Hd. simpl in Hd.
    destruct (f64_parse text); [|done]. by eapply dollars_nonneg.
Qed.
Lemma cost_nonneg value n : cost_nanos value = Some n -> 0 <= n.
Proof.
  destruct value; simpl; try done; [apply decimal_nonneg| |apply dollars_nonneg].
  unfold in_range_i64. destruct (in_i64 _); [|done]. simpl. destruct (0 <=? _) eqn:E; [|done].
  intros [= <-]. lia.
Qed.

(** An amount of money is read exactly: a plain decimal with any number of digits
    before and after the point (at least one in all, the point and the white space
    around it optional) becomes the nearest whole number of billionths of a dollar, a
    half rounded up, and is refused only when that does not fit [i64]; it never passes
    through a floating-point number. *)
Theorem amounts_are_rounded_exactly text whole fraction :
  trim text = whole +:+ "." +:+ fraction \/ (trim text = whole /\ fraction = "") ->
  all_digits whole -> all_digits fraction -> (whole <> "" \/ fraction <> "") ->
  let nanos := nearest_nanos (number_of (whole +:+ fraction)) (String.length fraction) in
  cost_nanos (StringValue text) = if nanos <=? I64_MAX then Some nanos else None.
Proof.
  intros Ht Hw Hf Hne. simpl. apply decimal_exact; [|done..].
  assert (lacks "." whole) as Hl.
  { unfold lacks. unfold all_digits in Hw. clear -Hw. induction whole as [|a whole IH]; [done|]. simpl in *.
    apply andb_true_iff in Hw as [Ha Hw]. rewrite IH by done.
    assert (Ascii.eqb a "." = false) as -> by (apply Ascii.eqb_neq; intros ->; done). done. }
  destruct Ht as [->|[-> ->]].
  - by rewrite (proj2 (split_once_Some "." (whole +:+ "." +:+ fraction) whole fraction) (conj eq_refl Hl)).
  - by rewrite (proj2 (split_once_None "." whole) Hl).
Qed.
Lemma amounts_are_rounded_exactly_witness :
  (trim " 0.0000000015 " = "0" +:+ "." +:+ "0000000015" \/ trim " 0.0000000015 " = "0" /\ "0000000015" = "") /\
  cost_nanos (StringValue " 0.0000000015 ") = Some 2.
Proof.
  split; [by left|].
  pose proof (amounts_are_rounded_exactly " 0.0000000015 " "0" "0000000015" ltac:(by left) eq_refl eq_refl
    ltac:(by left)) as H. simpl in H. exact H.
Defined.

(** ** What is stored of a request *)

Lemma token_count_range attributes key n :
  token_count attributes key = Ok n -> 0 <= n <= MAX_TOKENS_PER_REQUEST.
Proof.
  unfold token_count. destruct (attributes !! key) as [value|].
  - destruct (integer value) as [m|]; simpl; [|done]. destruct (_ && _) eqn:E; simpl; [|done].
    intros [= <-]. lia.
  - intros [= <-]. by vm_compute.
Qed.
Lemma cost_of_range attributes o : cost_of attributes = Ok o ->
  0 <= default 0 o <= MAX_COST_NANOS_PER_REQUEST.
Proof.
  unfold cost_of. destruct (attributes !! COST) as [value|].
  - destruct (cost_nanos value) as [n|] eqn:En; simpl; [|done].
    destruct (n <=? _) eqn:E; simpl; [|done]. intros [= <-]. simpl. apply cost_nonneg in En. lia.
  - intros [= <-]. by vm_compute.
Qed.

(** [u64] stamps. *)
Definition stamped (r : LogRecord) : Prop :=
  0 <= lr_time_unix_nano r /\ 0 <= lr_observed_time_unix_nano r.
Lemma occurred_at_range r now t : stamped r -> 0 <= now -> occurred_at r now = Ok t ->
  0 <= t /\ now - DAILY_RETENTION <= t <= now + MAX_CLOCK_SKEW.
Proof.
  intros [H1 H2] Hn. unfold occurred_at.
  assert (0 <= stamp_of r) as Hpos by (unfold stamp_of; by case_match). cbv zeta. set (nanos := stamp_of r) in *.
  assert (0 <= DAILY_RETENTION) by by vm_compute. assert (0 <= MAX_CLOCK_SKEW) by by vm_compute.
  destruct (nanos =? 0); [intros [= <-]; lia|].
  destruct (Z.ltb_spec (i64_saturating_add now MAX_CLOCK_SKEW) (nanos / 1000000000)) as [|Hle]; [intros [= <-]; lia|].
  destruct (Z.ltb_spec (nanos / 1000000000) (now - DAILY_RETENTION)); [done|]. intros [= <-].
  pose proof (Z.div_pos nanos 1000000000). unfold i64_saturating_add, clamp, I64_MIN in Hle. lia.
Qed.

Definition clean (value : string) (max_bytes : nat) : Prop :=
  (String.length value <= max_bytes)%nat /\ has_control (bytes value) = false.
Lemma label_clean value max_bytes : clean (label value max_bytes) max_bytes.
Proof.
  unfold label. destruct (Nat.ltb_spec max_bytes (String.length value)); simpl; [split; [simpl; lia|done]|].
  destruct (has_control (bytes value)) eqn:E; split; done || simpl; lia.
Qed.

Section parsed.
Context {D : Digests}.

Lemma client_valid attributes : client_of attributes = "" \/ valid_client_id (client_of attributes) = true.
Proof.
  unfold client_of. destruct (option_filter valid_client_id (text_of attributes CLIENT)) as [c|] eqn:E; simpl.
  - right. destruct (text_of attributes CLIENT); simpl in E; [|done]. destruct (valid_client_id s) eqn:Ev; [|done].
    by injection E as <-.
  - destruct (text_of attributes USER_AGENT) as [agent|]; simpl; [|by left].
    repeat case_match; simplify_eq/=; auto.
Qed.

Record within_bounds (now : Z) (u : UsageRecord) : Prop := {
  wb_hour : exists h, ru_bucket_start (us_key u) = h * HOUR;
  wb_time : 0 <= ru_bucket_start (us_key u) /\
    now - DAILY_RETENTION - HOUR < ru_bucket_start (us_key u) <= now + MAX_CLOCK_SKEW;
  wb_subject : clean (ru_subject (us_key u)) MAX_SUBJECT_BYTES;
  wb_provider : clean (ru_provider (us_key u)) MAX_LABEL_BYTES;
  wb_model : clean (ru_model (us_key u)) MAX_LABEL_BYTES;
  wb_client : ru_client_id (us_key u) = "" \/ valid_client_id (ru_client_id (us_key u)) = true;
  wb_device : ru_device_id (us_key u) = "" \/ exists text, parse_uuid text = Some (ru_device_id (us_key u));
  wb_requests : ms_requests (us_measures u) = 1;
  wb_flags : 0 <= ms_errors (us_measures u) <= 1 /\ 0 <= ms_unpriced_requests (us_measures u) <= 1;
  wb_input : 0 <= ms_input_tokens (us_measures u) <= MAX_TOKENS_PER_REQUEST;
  wb_output : 0 <= ms_output_tokens (us_measures u) <= MAX_TOKENS_PER_REQUEST;
  wb_cache_read : 0 <= ms_cache_read_tokens (us_measures u) <= MAX_TOKENS_PER_REQUEST;
  wb_cache_write : 0 <= ms_cache_write_tokens (us_measures u) <= MAX_TOKENS_PER_REQUEST;
  wb_cost : 0 <= ms_cost_nanos (us_measures u) <= MAX_COST_NANOS_PER_REQUEST;
  wb_unpriced : ms_unpriced_requests (us_measures u) = 1 ->
    ms_cost_nanos (us_measures u) = 0 /\
    0 < ms_input_tokens (us_measures u) + ms_output_tokens (us_measures u);
}.

Lemma parse_record_inv r now u : parse_record r now = Ok (Some u) ->
  exists provider cost at_,
    text_of (attributes_of r) PROVIDER = Some provider /\ provider <> "" /\
    cost_of (attributes_of r) = Ok cost /\ occurred_at r now = Ok at_ /\
    token_count (attributes_of r) INPUT_TOKENS = Ok (ms_input_tokens (us_measures u)) /\
    token_count (attributes_of r) OUTPUT_TOKENS = Ok (ms_output_tokens (us_measures u)) /\
    token_count (attributes_of r) CACHE_READ_TOKENS = Ok (ms_cache_read_tokens (us_measures u)) /\
    token_count (attributes_of r) CACHE_WRITE_TOKENS = Ok (ms_cache_write_tokens (us_measures u)) /\
    us_id u = record_id r /\
    us_key u = {| ru_bucket_start := at_ / HOUR * HOUR;
                  ru_subject := label (subject_of (attributes_of r)) MAX_SUBJECT_BYTES;
                  ru_device_id := device_of (attributes_of r);
                  ru_client_id := client_of (attributes_of r);
                  ru_provider := label provider MAX_LABEL_BYTES;
                  ru_model := label (model_of (attributes_of r)) MAX_LABEL_BYTES;
                  ru_billing := billing_of (attributes_of r) |} /\
    ms_requests (us_measures u) = 1 /\
    ms_errors (us_measures u) = (if failed (attributes_of r) then 1 else 0) /\
    ms_cost_nanos (us_measures u) = default 0 cost /\
    ms_unpriced_requests (us_measures u)
    = (if negb (is_some cost) && (0 <? i64_saturating_add (ms_input_tokens (us_measures u))
                                          (ms_output_tokens (us_measures u))) then 1 else 0).
Proof.
  unfold parse_record. destruct (text_of _ PROVIDER) as [provider|]; simpl; [|done].
  destruct (is_empty provider) eqn:Ee; simpl; [done|].
  destruct (token_count _ INPUT_TOKENS); [|done]. destruct (token_count _ OUTPUT_TOKENS); [|done].
  destruct (cost_of _) as [cost|]; [|done]. destruct (occurred_at _ _) as [at_|]; [|done].
  destruct (token_count _ CACHE_READ_TOKENS); [|done]. destruct (token_count _ CACHE_WRITE_TOKENS); [|done].
  intros [= <-]. exists provider, cost, at_. simpl. repeat split; try done. by intros ->.
Qed.

Lemma parse_record_within r now u : stamped r -> 0 <= now -> parse_record r now = Ok (Some u) ->
  within_bounds now u.
Proof.
  intros Hr Hn (provider & cost & at_ & _ & _ & Hcost & Hat & Hi & Ho & Hcr & Hcw & _ & Hk & H1 & He & Hc & Hu)%parse_record_inv.
  apply token_count_range in Hi, Ho, Hcr, Hcw. apply cost_of_range in Hcost.
  apply occurred_at_range in Hat as [Hat0 Hat]; [|done..].
  assert (0 < HOUR) as Hh by by vm_compute. pose proof (floor_spec at_ HOUR Hh) as Hfloor.
  pose proof (Z.div_pos at_ HOUR Hat0 Hh).
  split; rewrite ?Hk, ?H1, ?He, ?Hc, ?Hu; simpl; try apply label_clean; try done.
  - by eexists.
  - nia.
  - apply client_valid.
  - unfold device_of. destruct (text_of _ DEVICE) as [text|]; simpl; [|by left].
    destruct (parse_uuid text) as [device|] eqn:E; simpl; [|by left]. right. by exists text.
  - split; [by destruct (failed _)|by destruct (_ && _)].
  - destruct cost as [n|]; simpl; [done|]. intros Hone. split; [done|].
    destruct (Z.ltb_spec 0 (i64_saturating_add (ms_input_tokens (us_measures u)) (ms_output_tokens (us_measures u))))
      as [Hlt|]; [|done]. unfold i64_saturating_add, clamp, I64_MAX, I64_MIN in Hlt. lia.
Qed.

Lemma parsed_nonneg r now u : parse_record r now = Ok (Some u) -> nonneg (us_measures u).
Proof.
  intros (provider & cost & at_ & _ & _ & Hcost & _ & Hi & Ho & Hcr & Hcw & _ & _ & H1 & He & Hc & Hu)%parse_record_inv.
  apply token_count_range in Hi, Ho, Hcr, Hcw. apply cost_of_range in Hcost.
  intros field Hf. simpl in Hf. destruct_or! Hf; subst field; rewrite ?H1, ?He, ?Hc, ?Hu; try lia; first [by destruct (failed _)|by destruct (_ && _)].
Qed.

(** ** Exports *)

Lemma parse_fold now records p :
  pd_records (fold_left (parse_next now) records p)
  = (pd_records p ++ filter_map (fun r => match parse_record r now with Ok o => o | Err _ => None end) records)%list.
Proof.
  revert p. induction records as [|r records IH]; intros p; simpl; [by rewrite app_nil_r|].
  rewrite IH. unfold parse_next. destruct (parse_record r now) as [[u|]|e]; simpl; [|done..].
  by rewrite <- app_assoc.
Qed.
Lemma parse_export_records request now :
  pd_records (parse_export request now)
  = filter_map (fun r => match parse_record r now with Ok o => o | Err _ => None end) (concat (concat request)).
Proof. unfold parse_export. by rewrite parse_fold. Qed.

(** A record stamped in the past, within the retention: it reads the same at any time. *)
Definition timely (now : Z) (r : LogRecord) : Prop :=
  stamp_of r <> 0 /\
  now - DAILY_RETENTION <= stamp_of r / 1000000000 <= i64_saturating_add now MAX_CLOCK_SKEW.
Lemma timely_parse now now' r : timely now r -> timely now' r -> parse_record r now = parse_record r now'.
Proof.
  intros [Hz H] [_ H'].
  assert (forall t, t - DAILY_RETENTION <= stamp_of r / 1000000000 <= i64_saturating_add t MAX_CLOCK_SKEW ->
    occurred_at r t = Ok (stamp_of r / 1000000000)) as Hat.
  { intros t Ht. unfold occurred_at. rewrite (proj2 (Z.eqb_neq _ _) Hz).
    by rewrite (proj2 (Z.ltb_ge _ _)), (proj2 (Z.ltb_ge _ _)) by lia. }
  unfold parse_record. by rewrite (Hat now H), (Hat now' H').
Qed.
Lemma timely_records now now' request :
  Forall (timely now) (concat (concat request)) -> Forall (timely now') (concat (concat request)) ->
  pd_records (parse_export request now) = pd_records (parse_export request now').
Proof.
  rewrite !parse_export_records. induction 1 as [|r l Hr _ IH]; intros H'; [done|].
  apply Forall_cons in H' as [Hr' H']. simpl. rewrite (timely_parse now now' r Hr Hr'), IH by done. done.
Qed.
Lemma exported_nonneg request now : Forall nonneg (map us_measures (pd_records (parse_export request now))).
Proof.
  rewrite parse_export_records. apply Forall_map, Forall_forall. intros u (r & _ & Hr)%elem_of_filter_map.
  destruct (parse_record r now) as [o|] eqn:E; [|done]. subst o. by eapply parsed_nonneg.
Qed.

End parsed.

(** C37. What is stored of a request is within bounds, whatever the gateway sends: the
    bucket is a whole hour, not before the epoch, within the retention and at most the
    accepted clock skew ahead; the request counts once; tokens and cost are between zero
    and their limits; a request without a price is unpriced only when it used tokens; the
    labels are short and free of control characters, the tool a valid client identifier
    and the device a UUID, or empty. *)
Theorem stored_usage_is_within_bounds `{Digests} r now u :
  stamped r -> 0 <= now -> parse_record r now = Ok (Some u) -> within_bounds now u.
Proof. apply parse_record_within. Qed.

(** ** A request *)

(** Digests that keep their input. *)
Definition plain_digests : Digests :=
  {| parse_uuid := fun s => if Nat.eqb (String.length s) 36 then Some s else None;
     sha256 := fun s => s; url_safe_base64 := fun s => s;
     verify_slices_are_equal := String.eqb |}.
Definition text_attribute (key text : string) : KeyValue :=
  {| kv_key := key; kv_value := Some (Some (StringValue text)) |}.
Definition codex_request : LogRecord :=
  {| lr_time_unix_nano := 1773155990000000000; lr_observed_time_unix_nano := 1773155991000000000;
     lr_body := None;
     lr_attributes := [text_attribute PROVIDER "openai"; text_attribute CLIENT "codex";
       text_attribute INPUT_TOKENS "120"; text_attribute COST "0.0000015"];
     lr_trace_id := "trace"; lr_span_id := "span" |}.

Lemma stored_usage_is_within_bounds_witness :
  let u := default {| us_id := ""; us_key := {| ru_bucket_start := 0; ru_subject := ""; ru_device_id := "";
      ru_client_id := ""; ru_provider := ""; ru_model := ""; ru_billing := Api |}; us_measures := no_measures |}
    (ok_value None (@parse_record plain_digests codex_request 1773156000)) in
  @parse_record plain_digests codex_request 1773156000 = Ok (Some u) /\
  @within_bounds plain_digests 1773156000 u /\ ms_cost_nanos (us_measures u) = 1500.
Proof.
  intros u.
  assert (@parse_record plain_digests codex_request 1773156000 = Ok (Some u)) as Hu by (vm_compute; reflexivity).
  split; [exact Hu|]. split; [|vm_compute; reflexivity].
  refine (@stored_usage_is_within_bounds plain_digests codex_request 1773156000 u _ _ Hu);
    [split; vm_compute; discriminate|lia].
Defined.
