(* ===== verification/UsageRetries.v ===== *)
(** * Exports sent again ([crates/usage/src/store.rs], [otlp.rs])

    What a gateway's retries of one export add up to while the hourly maintenance runs:
    the identifiers of the records are kept for [RECEIPT_RETENTION], and within that time
    every report is one of tables where the batch is counted once. *)

From S2P Require Import Prelude Str Sql Float Usage UsageStore UsageReport UsageCompaction UsageIngest.

(** ** Tables a report cannot tell apart, from some time on *)

Record tracks (later : Z) (rows rows' : gmap RowKey Measures) : Prop := {
  tk_reports now : later <= now -> same_reports now rows rows';
  tk_placed : placed rows';
  tk_total field : In field fields -> total (fun _ => field) rows' <= total (fun _ => field) rows;
}.

Lemma same_reports_trans now a b d : same_reports now a b -> same_reports now b d -> same_reports now a d.
Proof.
  intros [_ _ Hw Hp] [Hs Hf Hw' Hp']. split; [done|done|..].
  - intros range offset w f E. rewrite <- (Hw range offset w f E). by apply (Hw' range offset w f).
  - intros range offset w f q field pr E Hin. rewrite <- (Hp range offset w f q field pr E Hin).
    by apply (Hp' range offset w f q field pr).
Qed.

Lemma tracks_refl later rows : sound rows -> fits rows -> placed rows -> tracks later rows rows.
Proof. intros Hs Hf Hp. split; [by split|done|done]. Qed.
Lemma tracks_sound later rows rows' : tracks later rows rows' -> sound rows'.
Proof. intros [H _ _]. apply (sr_sound _ _ _ (H later ltac:(lia))). Qed.
Lemma tracks_fits later rows rows' : tracks later rows rows' -> fits rows'.
Proof. intros [H _ _]. apply (sr_fits _ _ _ (H later ltac:(lia))). Qed.

Lemma day_row_placed k : 0 <= rk_bucket_start k -> 0 <= rk_bucket_start (day_row k).
Proof. intros Hk. rewrite day_row_start by done. pose proof (Z.div_pos (rk_bucket_start k) DAY Hk ltac:(unfold DAY, HOUR; lia)). unfold DAY, HOUR in *. lia. Qed.
Lemma placed_filter q rows : placed rows -> placed (delete_where q rows).
Proof. intros Hp k [m Hk]. apply map_lookup_filter_Some in Hk as [Hk _]. apply Hp. by exists m. Qed.
Lemma placed_count k m rows : placed rows -> 0 <= rk_bucket_start k -> placed (count k m rows).
Proof.
  intros Hp Hk k'. rewrite count_lookup. destruct (decide (k' = k)) as [->|]; [done|apply Hp].
Qed.
Lemma placed_compacted before rows : placed rows -> placed (compacted before rows).
Proof.
  intros Hp. apply placed_filter. unfold with_days.
  assert (forall day, day ∈ groups_of day_row (rows_where (hourly_older before) rows) -> 0 <= rk_bucket_start day) as Hd.
  { intros day Hday. unfold groups_of in Hday. apply elem_of_elements, elem_of_list_to_set in Hday.
    apply list_elem_of_fmap in Hday as ([k m] & -> & Hrow).
    apply elem_of_map_to_list, map_lookup_filter_Some in Hrow as [Hrow _]. apply day_row_placed, Hp. by exists m. }
  induction (groups_of _ _) as [|day days IH]; [done|]. simpl.
  apply placed_count; [apply IH; intros d Hday; apply Hd; by right|apply Hd; by left].
Qed.

(** However far a compaction gets, the reports after it stay. *)
Lemma tracks_compacted `{SqlArithmeticLaws} later now0 rows c r c' :
  now0 <= later -> tracks later rows (rollups (tables c)) -> compact now0 c = (r, c') ->
  tracks later rows (rollups (tables c')).
Proof.
  intros Hle Ht Hrun. pose proof (tracks_sound _ _ _ Ht) as Hs. pose proof (tracks_fits _ _ _ Ht) as Hf.
  destruct Ht as [Hr Hp Htot]. set (rows0 := rollups (tables c)) in *.
  assert (forall field, In field fields ->
    total (fun _ => field) (compacted (hourly_before now0) rows0) = total (fun _ => field) rows0) as Hsame.
  { intros field Hin. rewrite !total_all. by apply total_compacted. }
  destruct (compact_cases now0 c r c' Hs Hf Hrun) as [[->|[->| ->]] _]; fold rows0.
  - by split.
  - split; [|by apply placed_compacted|intros field Hin; rewrite Hsame by done; by apply Htot].
    intros now Hnow. eapply same_reports_trans; [by apply Hr|]. apply same_reports_compacted; done || lia.
  - split; [|by apply placed_filter, placed_compacted|].
    + intros now Hnow. eapply same_reports_trans; [by apply Hr|]. apply same_reports_expired; [lia|].
      apply same_reports_compacted; done || lia.
    + intros field Hin. etrans; [|by apply Htot]. rewrite <- Hsame by done. rewrite total_delete_where.
      rewrite (total_ext _ (part (fun k => negb (daily_older (now0 - DAILY_RETENTION) k)) field))
        by (intros k m _; unfold part; by destruct (daily_older _ k)).
      apply total_part_le; [by apply sound_compacted|done].
Qed.

(** ** A batch counted on both *)

Lemma rows_where_lookup p rows rows' k : rows_where p rows = rows_where p rows' -> p k = true -> rows !! k = rows' !! k.
Proof.
  intros H Hk. assert (filter (fun row => p (fst row) = true) rows = filter (fun row => p (fst row) = true) rows') as Hf
    by (apply map_to_list_inj; unfold rows_where in H; by rewrite H).
  assert (forall r : gmap RowKey Measures, filter (fun row => p (fst row) = true) r !! k = r !! k) as Hl.
  { intros r. rewrite map_lookup_filter. destruct (r !! k); simpl; [|done]. by rewrite option_guard_True. }
  by rewrite <- (Hl rows), <- (Hl rows'), Hf.
Qed.

Lemma count_all_lookup sums rows rows' k : rows !! k = rows' !! k ->
  count_all sums rows !! k = count_all sums rows' !! k.
Proof.
  intros H. induction sums as [|[key m] sums IH]; [done|]. simpl. rewrite !count_lookup.
  destruct (decide (k = hourly_row key)) as [<-|]; [by rewrite IH|done].
Qed.

Lemma tracks_counted later sums rows rows' :
  tracks later rows rows' -> Forall nonneg (map snd sums) -> room rows (map snd sums) ->
  (forall key m, (key, m) ∈ sums -> 0 <= ru_bucket_start key) ->
  tracks later (count_all sums rows) (count_all sums rows').
Proof.
  intros Ht Hn Hroom Hkeys. pose proof (tracks_sound _ _ _ Ht) as Hs. destruct Ht as [Hr Hp Htot].
  assert (forall r field, In field fields -> total (fun _ => field) (count_all sums r)
    = total (fun _ => field) r + sum_list (map field (map snd sums))) as Hsum.
  { intros r field Hin. rewrite !total_all, total_count_all by done. f_equal. rewrite map_map. f_equal.
    apply map_ext. by intros []. }
  split.
  - intros now Hnow. destruct (Hr now Hnow) as [_ _ Hw Hprev]. split.
    + by apply sound_count_all.
    + intros field Hin. rewrite Hsum by done. specialize (Htot field Hin). specialize (Hroom field Hin). lia.
    + intros range offset w f E. apply rows_where_ext. intros k Hk. apply count_all_lookup.
      eapply rows_where_lookup; [by apply (Hw range offset w f E)|done].
    + intros range offset w f q field pr E Hin. unfold used. pose proof (total_fields_field _ _ _ Hin) as Hin'.
      rewrite !total_count_all by done. f_equal. exact (Hprev range offset w f q field pr E Hin).
  - clear -Hp Hkeys. induction sums as [|[key m] sums IH]; [done|]. simpl. apply placed_count.
    + apply IH. intros k m' Hin. apply (Hkeys k m'). by right.
    + apply (Hkeys key m). by left.
  - intros field Hin. rewrite !Hsum by done. specialize (Htot field Hin). lia.
Qed.

(** ** The receipts of a batch *)

(** A record that reads the same at every time between two, or is refused at each. *)
Definition dated (since until : Z) (r : LogRecord) : Prop :=
  stamp_of r <> 0 /\
  until - DAILY_RETENTION <= stamp_of r / 1000000000 <= i64_saturating_add since MAX_CLOCK_SKEW.
Lemma dated_timely since until now r : since <= now <= until -> dated since until r -> timely now r.
Proof.
  intros Hnow [Hz H]. split; [done|]. split; [lia|]. etrans; [apply H|].
  unfold i64_saturating_add, clamp. lia.
Qed.

(** What happens while a gateway retries an export: its attempts, with whatever faults
    they meet, and the maintenance, however far it gets. *)
Inductive usage_step `{SqlArithmetic} `{Digests} (request : ExportRequest) (since until : Z) : Tables -> Tables -> Prop :=
| attempted now c r c' : since <= now <= until ->
    export request now c = (r, c') -> usage_step request since until (tables c) (tables c')
| maintained now c r c' : now <= until ->
    compact now c = (r, c') -> usage_step request since until (tables c) (tables c').

Lemma tried_and_maintained `{SqlArithmetic} `{Digests} request since until now now' f f' t :
  since <= now <= until -> now' <= until ->
  rtc (usage_step request since until) t
    (tables (snd (compact now' (connected f' (tables (snd (export request now (connected f t)))))))).
Proof.
  intros Hnow Hnow'. eapply rtc_l.
  - by eapply (attempted request since until now (connected f t)), surjective_pairing.
  - apply rtc_once. set (t1 := tables (snd (export _ _ _))).
    by eapply (maintained request since until now' (connected f' t1)), surjective_pairing.
Qed.
Lemma tables_connected {T} f (t : T) : tables (connected f t) = t.
Proof. done. Qed.

(** Nobody can tell two states of the rollups apart by any report. *)
Definition reports_alike `{SqlArithmetic} (later : Z) (rows rows' : gmap RowKey Measures) : Prop :=
  forall now qy enabled labels ca cb, later <= now ->
    rollups (tables ca) = rows -> rollups (tables cb) = rows' -> healthy ca -> healthy cb ->
    fst (report qy now enabled labels ca) = fst (report qy now enabled labels cb).

Lemma tracks_alike `{SqlArithmeticLaws} later rows rows' :
  sound rows -> fits rows -> tracks later rows rows' -> reports_alike later rows rows'.
Proof.
  intros Hs Hf [Hr _ _] now qy enabled labels ca cb Hnow <- <- Hha Hhb. unfold report.
  destruct (preset _ _ _) as [w|] eqn:Hw; [|done]. destruct (dimensions_of (uq_by qy)) as [dims|]; [|done].
  pose proof (agree_report qy (default "7d" (uq_range qy)) _ now w dims enabled labels _ _ Hw Hs Hf
    (Hr now Hnow) ca cb eq_refl eq_refl Hha Hhb) as Hag.
  destruct (report_on _ _ _ _ _ _ _ ca) as [[x|e] ?], (report_on _ _ _ _ _ _ _ cb) as [[y|e'] ?]; try done;
    simpl; [by destruct Hag as [-> _]|by rewrite Hag].
Qed.

Lemma new_records_ext seen seen' records :
  (forall r, r ∈ records -> us_id r ∈ seen <-> us_id r ∈ seen') ->
  new_records seen records = new_records seen' records.
Proof.
  revert seen seen'. induction records as [|r records IH]; intros seen seen' H; simpl; [done|].
  pose proof (H r ltac:(by left)) as Hr.
  rewrite (decide_ext (us_id r ∈ seen) (us_id r ∈ seen')) by done. destruct (decide _).
  - apply IH. intros r' Hr'. apply H. by right.
  - f_equal. apply IH. intros r' Hr'. rewrite !elem_of_union, (H r') by (by right). done.
Qed.

Lemma receive_lookup records received_at rs id at_ :
  receive records received_at rs !! id = Some at_ -> rs !! id = Some at_ \/ at_ = received_at.
Proof.
  unfold receive. revert rs. induction records as [|r records IH]; intros rs; simpl; [by left|].
  intros [Hl|Hl]%IH; [|by right]. destruct (rs !! us_id r); [by left|].
  apply lookup_insert_Some in Hl as [[_ <-]|[_ Hl]]; [by right|by left].
Qed.

Section attempts.
Context `{SqlArithmeticLaws} (records : list UsageRecord) (since until : Z) (t : Tables).
Hypothesis records_nonneg : Forall nonneg (map us_measures records).
Hypothesis records_placed : forall r, r ∈ records -> 0 <= ru_bucket_start (us_key r).
Hypothesis rows_sound : sound (rollups t).
Hypothesis rows_placed : placed (rollups t).
Hypothesis rows_room : room (rollups t) (map us_measures records).
Hypothesis retained : until <= since + RECEIPT_RETENTION.
Abbreviation fresh := (new_records (dom (receipts t)) records).
Abbreviation counted := (count_all (map keyed fresh) (rollups t)).

(** The receipts of the batch are recent, so no maintenance forgets them. *)
Definition recent (rs : gmap string Z) : Prop :=
  forall r at_, r ∈ records -> rs !! us_id r = Some at_ -> since <= at_.
Definition before_count (t' : Tables) : Prop :=
  tracks until (rollups t) (rollups t') /\ recent (receipts t') /\
  forall r, r ∈ records -> us_id r ∈ dom (receipts t') <-> us_id r ∈ dom (receipts t).
Definition after_count (t' : Tables) : Prop :=
  tracks until counted (rollups t') /\ recent (receipts t') /\
  forall r, r ∈ records -> us_id r ∈ dom (receipts t').

Lemma rows_fit_now : fits (rollups t).
Proof.
  intros field Hin. specialize (rows_room field Hin).
  assert (0 <= sum_list (map field (map us_measures records))); [|lia].
  apply sum_list_nonneg, Forall_map. eapply Forall_impl; [exact records_nonneg|]. intros m Hm. by apply Hm.
Qed.
Lemma keyed_measures (l : list UsageRecord) : map snd (map keyed l) = map us_measures l.
Proof. by rewrite map_map. Qed.
Lemma fresh_room rows : (forall field, In field fields -> total (fun _ => field) rows <= total (fun _ => field) (rollups t)) ->
  room rows (map us_measures fresh).
Proof.
  intros Hle field Hin. specialize (rows_room field Hin). specialize (Hle field Hin).
  pose proof (sum_field_sublist _ _ field (new_records_sub (dom (receipts t)) records) records_nonneg Hin). lia.
Qed.
Lemma fresh_nonneg : Forall nonneg (map snd (map keyed fresh)).
Proof. eapply sublist_nonneg; [apply new_records_sub|done]. Qed.
Lemma counted_sound : sound counted.
Proof. apply sound_count_all; [done|apply fresh_nonneg]. Qed.
Lemma counted_total field : In field fields ->
  total (fun _ => field) counted = total (fun _ => field) (rollups t) + sum_list (map field (map us_measures fresh)).
Proof.
  intros Hin. rewrite !total_all, total_count_all by done. f_equal. rewrite !map_map. done.
Qed.
Lemma counted_fits : fits counted.
Proof. intros field Hin. rewrite counted_total by done. by apply (fresh_room (rollups t)). Qed.
Lemma tracks_now : tracks until (rollups t) (rollups t).
Proof. apply tracks_refl; [done|apply rows_fit_now|done]. Qed.
Lemma batch_fits field : In field fields -> sum_list (map field (map us_measures records)) <= I64_MAX.
Proof.
  intros Hin. specialize (rows_room field Hin).
  assert (0 <= total (fun _ => field) (rollups t)); [|lia].
  apply total_nonneg. intros k m Hk. by apply (rows_sound k m Hk).
Qed.

Lemma attempt_tracked now c r c' :
  since <= now -> before_count (tables c) \/ after_count (tables c) ->
  ingest records now c = (r, c') ->
  match r with
  | Ok _ => after_count (tables c')
  | Err _ => ~ healthy c /\ (before_count (tables c') \/ after_count (tables c'))
  end.
Proof.
  intros Hnow Hst Hi. set (t1 := tables c) in *.
  assert (exists rows, tracks until rows (rollups t1)) as (rows & Htr) by (destruct Hst as [[? _]|[? _]]; eauto).
  pose proof (tracks_sound _ _ _ Htr) as Hs1.
  assert (room (rollups t1) (map us_measures (new_records (dom (receipts t1)) records)) /\
    after_count (stored records now t1)) as [Hroom Hafter].
  { destruct Hst as [(Ht & Hrec & Hdom)|(Ht & Hrec & Hdom)].
    - rewrite (new_records_ext _ (dom (receipts t)) records Hdom).
      split; [apply fresh_room; apply Ht|]. split; [|split]; simpl.
      + rewrite (new_records_ext _ (dom (receipts t)) records Hdom).
        apply (tracks_counted until (map keyed fresh) (rollups t) (rollups t1)); [done|apply fresh_nonneg| |].
        * rewrite keyed_measures. by apply fresh_room.
        * intros key m (x & [= -> ->] & Hx)%list_elem_of_fmap. apply records_placed.
          by eapply elem_of_sublist; [|apply new_records_sub].
      + intros x at_ Hx [Hl| ->]%receive_lookup; [by eapply Hrec|done].
      + intros x Hx. destruct (receive_spec records now (receipts t1)) as [-> _].
        apply elem_of_union_r, elem_of_list_to_set. by apply list_elem_of_fmap_2.
    - rewrite new_records_seen by done. split.
      + apply (fun f => f : room _ []). intros field Hin. rewrite Z.add_0_r. by apply (tracks_fits _ _ _ Htr).
      + assert (stored records now t1 = t1) as ->; [|done]. unfold stored.
        rewrite (proj2 (receive_spec records now (receipts t1)) Hdom), new_records_seen by done. by destruct t1. }
  pose proof (ingest_does records now t1 Hs1 records_nonneg batch_fits Hroom c eq_refl) as Hdo. rewrite Hi in Hdo.
  destruct r as [n|e]; [by destruct Hdo as [_ ->]|].
  destruct Hdo as [Hh [->| ->]]; (split; [done|]); [done|by right].
Qed.

Lemma maintenance_tracked now c r c' :
  now <= until -> before_count (tables c) \/ after_count (tables c) -> compact now c = (r, c') ->
  before_count (tables c') \/ after_count (tables c').
Proof.
  intros Hnow Hst Hrun.
  assert (exists rows, tracks until rows (rollups (tables c))) as (rows & Htr) by (destruct Hst as [[? _]|[? _]]; eauto).
  destruct (compact_cases now c r c' (tracks_sound _ _ _ Htr) (tracks_fits _ _ _ Htr) Hrun) as [_ Hrec].
  assert (recent (receipts (tables c)) -> recent (receipts (tables c')) /\
    forall x, x ∈ records -> us_id x ∈ dom (receipts (tables c')) <-> us_id x ∈ dom (receipts (tables c))) as Hkeep.
  { intros Hr. destruct Hrec as [->| ->]; [done|]. split.
    - intros x at_ Hx [Hl _]%map_lookup_filter_Some. by eapply Hr.
    - intros x Hx. rewrite !elem_of_dom. split; intros [at_ Hl].
      + apply map_lookup_filter_Some in Hl as [Hl _]. by exists at_.
      + exists at_. apply map_lookup_filter_Some. split; [done|]. simpl. specialize (Hr x at_ Hx Hl). lia. }
  destruct Hst as [(Ht & Hr & Hdom)|(Ht & Hr & Hdom)]; destruct (Hkeep Hr) as [Hr' Hdom']; [left|right];
    (split; [by eapply tracks_compacted|]); (split; [done|]); intros x Hx; rewrite Hdom' by done; by apply Hdom.
Qed.
End attempts.

(** C19. A request is counted once however often its record is exported within seven
    days. Take an export whose records carry their time (not later than the gateway's
    clock may be ahead, not older than 388 days) and tables whose sums have room for it,
    and let its attempts meet whatever faults (a statement or the commit failing, an
    answer lost) at any times within the seven days its identifiers are kept, with the
    hourly maintenance running in between and stopping anywhere too. After every
    attempt that succeeds each report (of any time after those days, range, offset, filter and breakdown) is the one of the tables where exactly the
    batch's records not received before are counted, each once even when it is in the
    batch twice; after a failed attempt it is that one or the one without the batch; and
    an attempt that meets no fault succeeds. After seven days an identifier is forgotten
    and its record would be counted again. *)
Theorem retried_exports_count_once `{SqlArithmeticLaws} `{Digests} request since t t1 now c r c' :
  let stop := since + RECEIPT_RETENTION in
  let records := pd_records (parse_export request since) in
  let counted := count_all (map keyed (new_records (dom (receipts t)) records)) (rollups t) in
  0 <= since -> Forall stamped (concat (concat request)) -> Forall (dated since stop) (concat (concat request)) ->
  sound (rollups t) -> placed (rollups t) -> room (rollups t) (map us_measures records) ->
  recent records since (receipts t) ->
  rtc (usage_step request since stop) t t1 -> tables c = t1 -> since <= now <= stop ->
  export request now c = (r, c') ->
  match r with
  | Ok _ => reports_alike stop counted (rollups (tables c'))
  | Err _ => ~ healthy c /\
      (reports_alike stop (rollups t) (rollups (tables c')) \/ reports_alike stop counted (rollups (tables c')))
  end.
Proof.
  intros stop records counted Hsince Hst Hd Hs Hp Hroom Hrec Hsteps Hc Hnow Hrun.
  assert (since <= stop) as Hle by (unfold stop, RECEIPT_RETENTION, DAY, HOUR; lia).
  assert (forall now c r c', since <= now <= stop -> export request now c = (r, c') ->
    exists r', ingest records now c = (r', c') /\ is_ok r' = is_ok r) as Hexport.
  { clear -Hd Hle. intros now' c r c' Hnow Hrun. unfold export, st_bind, st_map_err in Hrun.
    assert (forall a, since <= a <= stop -> Forall (timely a) (concat (concat request))) as Ht
      by (intros a Ha; eapply Forall_impl; [exact Hd|]; intros x; by apply dated_timely).
    rewrite <- (timely_records since now' request) in Hrun by (apply Ht; lia). fold records in Hrun.
    destruct (ingest records now' c) as [[n|e] c1]; injection Hrun as <- <-; by eexists. }
  assert (Forall nonneg (map us_measures records)) as Hn by apply exported_nonneg.
  assert (forall x, x ∈ records -> 0 <= ru_bucket_start (us_key x)) as Hplaced.
  { intros x Hx. unfold records in Hx. rewrite parse_export_records in Hx.
    apply elem_of_filter_map in Hx as (l & Hl & Hx). destruct (parse_record l since) as [o|] eqn:E; [|done]. subst o.
    rewrite Forall_forall in Hst. by apply (parse_record_within l since x (Hst l Hl) Hsince E). }
  assert (forall a b, usage_step request since stop a b ->
    before_count records since stop t a \/ after_count records since stop t a ->
    before_count records since stop t b \/ after_count records since stop t b) as Hstep.
  { intros a b [now' c1 r1 c1' Hnow' Hrun1|now' c1 r1 c1' Hnow' Hrun1] Ha.
    - destruct (Hexport now' c1 r1 c1' Hnow' Hrun1) as (r' & Hi & _).
      apply (attempt_tracked records since stop t Hn Hplaced Hs Hroom) in Hi; [|lia|done].
      destruct r'; [by right|by destruct Hi].
    - by apply (maintenance_tracked records since stop t ltac:(unfold stop; lia) now' c1 r1 c1'). }
  assert (before_count records since stop t t1 \/ after_count records since stop t t1) as Ht1.
  { assert (forall a b, rtc (usage_step request since stop) a b ->
      before_count records since stop t a \/ after_count records since stop t a ->
      before_count records since stop t b \/ after_count records since stop t b) as Hrtc
      by (induction 1 as [|x y z Hxy _ IH]; [done|]; intros Hx; apply IH; by eapply Hstep).
    apply (Hrtc t t1 Hsteps). left. split; [by apply (tracks_now records)|done]. }
  destruct (Hexport now c r c' Hnow Hrun) as (r' & Hi & Hok). rewrite <- Hc in Ht1.
  apply (attempt_tracked records since stop t Hn Hplaced Hs Hroom) in Hi; [|lia|done].
  assert (before_count records since stop t (tables c') -> reports_alike stop (rollups t) (rollups (tables c'))) as Hb.
  { intros [Htr _]. apply tracks_alike; [done|by apply (rows_fit_now records)|done]. }
  assert (after_count records since stop t (tables c') -> reports_alike stop counted (rollups (tables c'))) as Ha.
  { intros [Htr _]. apply tracks_alike; [by apply counted_sound|by apply counted_fits|done]. }
  destruct r, r'; try done; [by apply Ha|]. destruct Hi as [Hh [Hi|Hi]]; auto.
Qed.

(** ** A run *)

(** The first attempt commits but its answer is lost, the maintenance stops when it
    deletes identifiers, and the second attempt, a day later, counts nothing again. *)
Definition retried_request : ExportRequest := [[[codex_request]; [codex_request]]].
Abbreviation sent := (@export plain_digests checked_arithmetic retried_request).
Definition first_attempt : Connection Tables := connected (fun n => if Nat.eqb n 4 then AnswerLost else Runs) empty_tables.
Definition upkeep : Connection Tables :=
  connected (fun n => if Nat.eqb n 5 then AnswerLost else Runs) (tables (snd (sent 1773156000 first_attempt))).
Definition second_attempt : Connection Tables :=
  connected (fun _ => Runs) (tables (snd (@compact checked_arithmetic 1773159600 upkeep))).
Definition counted_request : gmap RowKey Measures :=
  count_all (map keyed (new_records ∅ (pd_records (@parse_export plain_digests retried_request 1773156000)))) ∅.

Lemma codex_dated : Forall (dated 1773156000 (1773156000 + RECEIPT_RETENTION)) (concat (concat retried_request)).
Proof.
  assert (dated 1773156000 (1773156000 + RECEIPT_RETENTION) codex_request) as Hone.
  { split; [discriminate|]. change (stamp_of codex_request / 1000000000) with 1773155990. vm_compute. split; discriminate. }
  change (concat (concat retried_request)) with [codex_request; codex_request].
  apply List.Forall_cons; [exact Hone|]. apply List.Forall_cons; [exact Hone|]. apply List.Forall_nil.
Qed.
Lemma codex_stamped : Forall stamped (concat (concat retried_request)).
Proof.
  assert (stamped codex_request) as Hone by (split; vm_compute; discriminate).
  change (concat (concat retried_request)) with [codex_request; codex_request].
  apply List.Forall_cons; [exact Hone|]. apply List.Forall_cons; [exact Hone|]. apply List.Forall_nil.
Qed.

Lemma retried_exports_count_once_witness :
  is_ok (fst (sent 1773156000 first_attempt)) = false /\
  is_ok (fst (@compact checked_arithmetic 1773159600 upkeep)) = false /\
  is_ok (fst (sent 1773242400 second_attempt)) = true /\
  @reports_alike checked_arithmetic (1773156000 + RECEIPT_RETENTION) counted_request
    (rollups (tables (snd (sent 1773242400 second_attempt)))) /\
  map ms_requests (map snd (map_to_list counted_request)) = [1].
Proof.
  split; [vm_compute; reflexivity|]. split; [vm_compute; reflexivity|].
  assert (is_ok (fst (sent 1773242400 second_attempt)) = true) as Hok by (vm_compute; reflexivity).
  split; [exact Hok|]. split; [|vm_compute; reflexivity].
  pose proof (@retried_exports_count_once checked_arithmetic checked_arithmetic_laws plain_digests retried_request
    1773156000 empty_tables (tables (snd (@compact checked_arithmetic 1773159600 upkeep))) 1773242400 second_attempt
    (fst (sent 1773242400 second_attempt)) (snd (sent 1773242400 second_attempt))) as H. cbv zeta in H.
  destruct (fst (sent 1773242400 second_attempt)) as [a|e] eqn:E; [|discriminate Hok]. apply H; clear H.
  - lia.
  - exact codex_stamped.
  - exact codex_dated.
  - intros k m Hk. unfold empty_tables in Hk. simpl in Hk. rewrite lookup_empty in Hk. discriminate Hk.
  - intros k [m Hk]. unfold empty_tables in Hk. simpl in Hk. rewrite lookup_empty in Hk. discriminate Hk.
  - intros field Hf. simpl in Hf. destruct_or! Hf; subst field; vm_compute; discriminate.
  - intros x at_ _ Hx. unfold empty_tables in Hx. simpl in Hx. rewrite lookup_empty in Hx. discriminate Hx.
  - unfold upkeep, first_attempt. apply tried_and_maintained; vm_compute; [split|]; discriminate.
  - apply tables_connected.
  - vm_compute. split; discriminate.
  - rewrite <- E. apply surjective_pairing.
Defined.

(** After seven days and a maintenance, the same record counts again. *)
Example forgotten_record_counts_again :
  let first := snd (sent 1773156000 (connected (fun _ => Runs) empty_tables)) in
  let kept := snd (@compact checked_arithmetic (1773156000 + RECEIPT_RETENTION + 1) (connected (fun _ => Runs) (tables first))) in
  let again := snd (sent (1773156000 + RECEIPT_RETENTION + 2) (connected (fun _ => Runs) (tables kept))) in
  map ms_requests (map snd (map_to_list (rollups (tables again)))) = [2].
Proof. vm_compute. reflexivity. Qed.
