(* ===== verification/UsageTables.v ===== *)
(** * What the usage tables hold ([crates/usage/src/store.rs])

    The rows of every table that exports and compactions can lead to: hourly rows start
    on an hour, daily rows on a day, and none before the epoch. *)

From S2P Require Import Prelude Str Sql Float Usage UsageStore UsageReport UsageCompaction UsageIngest.

(** A row of one of the two granularities, on its boundary. *)
Definition aligned (k : RowKey) : Prop :=
  0 <= rk_bucket_start k /\
  (rk_bucket_seconds k = HOUR \/ rk_bucket_seconds k = DAY) /\
  exists n, rk_bucket_start k = n * rk_bucket_seconds k.
Definition aligned_rows (rows : gmap RowKey Measures) : Prop := map_Forall (fun k _ => aligned k) rows.

(** What happens to the tables: an export or a compaction, at any time and with any
    faults. *)
Inductive step `{SqlArithmetic} `{Digests} : Tables -> Tables -> Prop :=
| step_export request now c r c' : 0 <= now ->
    Forall stamped (concat (concat request)) ->
    export request now c = (r, c') -> step (tables c) (tables c')
| step_compact now c r c' : compact now c = (r, c') -> step (tables c) (tables c').

Lemma aligned_day k : aligned k -> aligned (day_row k).
Proof.
  intros (Hk & _). unfold aligned. rewrite day_row_start by done. simpl.
  pose proof (Z.div_pos (rk_bucket_start k) DAY Hk ltac:(unfold DAY, HOUR; lia)).
  split; [unfold DAY, HOUR in *; lia|]. split; [by right|]. by eexists.
Qed.
Lemma aligned_insert k m rows : aligned k -> aligned_rows rows -> aligned_rows (<[k := m]> rows).
Proof. intros Hk Hr. by apply map_Forall_insert_2. Qed.
Lemma aligned_filter (P : RowKey * Measures -> Prop) `{!forall x, Decision (P x)} rows :
  aligned_rows rows -> aligned_rows (filter P rows).
Proof. intros Hr k m [Hk _]%map_lookup_filter_Some. by apply (Hr k m). Qed.
Lemma aligned_upsert `{SqlArithmetic} k m rows rows' : aligned k -> aligned_rows rows ->
  upsert k m rows = Some rows' -> aligned_rows rows'.
Proof.
  intros Hk Hr Hu. unfold upsert in Hu. destruct (rows !! k) as [row|].
  - destruct (add_measures row m); simplify_eq/=. by apply aligned_insert.
  - simplify_eq. by apply aligned_insert.
Qed.
Lemma aligned_compact_days `{SqlArithmetic} before rows rows' : aligned_rows rows ->
  compact_days before rows = Some rows' -> aligned_rows rows'.
Proof.
  intros Hr. unfold compact_days. set (old := rows_where (hourly_older before) rows).
  assert (forall day, day ∈ groups_of day_row old -> aligned day) as Hdays.
  { intros day Hd. unfold groups_of in Hd. apply elem_of_elements, elem_of_list_to_set in Hd.
    apply list_elem_of_fmap in Hd as ([k m] & -> & Hin). apply aligned_day, (Hr k m).
    by apply elem_of_map_to_list, map_lookup_filter_Some in Hin as [Hin _]. }
  revert rows'. induction (groups_of day_row old) as [|day days IH]; simpl; intros rows' Hc; [by simplify_eq|].
  destruct (foldr _ _ days) as [rows1|]; [|done]. simpl in Hc.
  destruct (sum_measures _) as [m|]; [|done]. simpl in Hc.
  eapply aligned_upsert; [| |exact Hc]; [apply Hdays; by left|]. apply IH; [|done]. intros d Hd. apply Hdays. by right.
Qed.

Definition well_placed (t : Tables) : Prop := aligned_rows (rollups t).
Definition hourly_key (k : RollupKey) : Prop := aligned (hourly_row k).

Lemma add_rollup_keys k m sums : hourly_key k -> Forall (fun s => hourly_key (fst s)) sums ->
  Forall (fun s => hourly_key (fst s)) (add_rollup k m sums).
Proof.
  intros Hk. induction 1 as [|[k' m'] sums Hk' Hs IH]; simpl; [by apply Forall_singleton|].
  case_decide; by constructor.
Qed.
Lemma store_receipts_keys records received_at sums n c r c' :
  Forall (fun u => hourly_key (us_key u)) records -> Forall (fun s => hourly_key (fst s)) sums ->
  store_receipts records received_at sums n c = (Ok r, c') ->
  Forall (fun s => hourly_key (fst s)) (fst r).
Proof.
  revert sums n c. induction records as [|u records IH]; intros sums n c Hr Hs Hrun; simpl in Hrun;
    [by injection Hrun as <- <-|].
  apply Forall_cons in Hr as [Hu Hr]. apply st_bind_inv in Hrun as [(e & _ & ?)|(b & c1 & _ & Hrest)]; [done|].
  destruct b; (eapply IH; [done| |exact Hrest]); [by apply add_rollup_keys|done].
Qed.
Lemma keeps_store_receipts records received_at sums n :
  keeps well_placed (store_receipts records received_at sums n).
Proof.
  revert sums n. induction records as [|u records IH]; intros sums n; simpl; [apply keeps_ret|].
  apply keeps_bind; [|intros []; apply IH]. apply keeps_statement. intros t b t' Ht. unfold insert_receipt.
  destruct (receipts t !! us_id u); intros; by simplify_eq/=.
Qed.

Lemma keeps_ingest `{SqlArithmetic} records received_at :
  Forall (fun u => hourly_key (us_key u)) records -> keeps well_placed (ingest records received_at).
Proof.
  intros Hr. unfold ingest. case_match; [apply keeps_ret|]. rewrite <- H0 in *. clear H0.
  apply keeps_transaction. intros c Hc.
  pose proof (keeps_store_receipts records received_at [] 0 c Hc) as H1.
  unfold st_bind at 1. destruct (store_receipts _ _ _ _ c) as [[[sums stored]|e] c1] eqn:E; [|done]. simpl in H1.
  apply store_receipts_keys in E; [|done|by constructor]. simpl in E.
  revert H1. apply keeps_bind; [|intros; apply keeps_ret]. apply keeps_iter. intros [k m] Hin.
  apply keeps_statement. intros t b t' Ht Hrun.
  destruct (upsert _ _ _) as [rows|] eqn:Eu; simplify_eq/=. unfold well_placed. simpl.
  eapply aligned_upsert; [|exact Ht|exact Eu].
  assert ((k, m) ∈ sums) as Hin' by by rewrite <- (merge_sort_Permutation rollup_le sums).
  by apply (proj1 (Forall_forall _ _) E (k, m) Hin').
Qed.
Lemma keeps_compact `{SqlArithmetic} now : keeps well_placed (compact now).
Proof.
  unfold compact. apply keeps_bind; [apply keeps_transaction, keeps_bind; [|intros _]|
    intros _; apply keeps_bind; [|intros _]]; apply keeps_statement; intros t b t' Ht Hrun.
  - destruct (compact_days _ _) as [rows|] eqn:E; simplify_eq/=. by eapply aligned_compact_days.
  - simplify_eq/=. by apply aligned_filter.
  - simplify_eq/=. by apply aligned_filter.
  - by simplify_eq/=.
Qed.

Lemma parsed_keys `{Digests} request now : 0 <= now -> Forall stamped (concat (concat request)) ->
  Forall (fun u => hourly_key (us_key u)) (pd_records (parse_export request now)).
Proof.
  intros Hn Hst. rewrite parse_export_records. apply Forall_forall. intros u (r & Hin & Hr)%elem_of_filter_map.
  destruct (parse_record r now) as [o|] eqn:E; [|done]. subst o.
  apply (proj1 (Forall_forall _ _) Hst) in Hin.
  destruct (parse_record_within r now u Hin Hn E) as [(h & Hh) [Hpos _] _ _ _ _ _ _ _ _ _ _ _ _ _].
  split; [done|]. split; [by left|]. by exists h.
Qed.

(** Whatever exports and compactions happen, at whatever times and with whatever
    faults of the database, from empty tables: every rollup is an hourly one that starts
    on an hour or a daily one that starts on a day, and none starts before the epoch. *)
Theorem rollups_stay_aligned `{SqlArithmetic} `{Digests} t k :
  rtc step empty_tables t -> is_Some (rollups t !! k) -> aligned k.
Proof.
  intros Hsteps [m Hk].
  assert (forall a b, rtc step a b -> well_placed a -> well_placed b) as Hinv.
  { intros a b. induction 1 as [a|a b d Hstep _ IH]; [done|]. intros Ha. apply IH.
    destruct Hstep as [request now c r c' Hn Hst Hrun|now c r c' Hrun].
    - assert (keeps well_placed (export request now)) as Hkeep.
      { apply keeps_bind; [|intros; apply keeps_ret]. by apply keeps_map_err, keeps_ingest, parsed_keys. }
      specialize (Hkeep c Ha). by rewrite Hrun in Hkeep.
    - pose proof (keeps_compact now c Ha) as Hkeep. by rewrite Hrun in Hkeep. }
  assert (well_placed t) as Ht by (apply (Hinv _ _ Hsteps), map_Forall_empty). exact (Ht k m Hk).
Qed.

(** An export whose answer is lost, then a compaction. *)
Lemma rollups_stay_aligned_witness :
  let first := connected (fun n => if Nat.eqb n 3 then AnswerLost else Runs) empty_tables in
  let c1 := snd (@export plain_digests checked_arithmetic [[[codex_request]]] 1773156000 first) in
  let c2 := snd (compact 1786156000 c1) in
  exists k, is_Some (rollups (tables c2) !! k) /\ rk_bucket_seconds k = DAY /\ aligned k.
Proof.
  intros first c1 c2.
  exists {| rk_bucket_start := 1773100800; rk_bucket_seconds := 86400; rk_subject := ""; rk_device_id := "";
            rk_client_id := "codex"; rk_provider := "openai"; rk_model := ""; rk_billing := "api" |}.
  match goal with |- is_Some (_ !! ?k) /\ _ => set (key := k) end.
  assert (is_ok (fst (compact 1786156000 c1)) = true /\
    bool_decide (is_Some (rollups (tables c2) !! key)) = true) as [_ Hkey%bool_decide_eq_true]
    by (vm_compute; split; reflexivity).
  split; [exact Hkey|]. split; [reflexivity|].
  destruct (@export plain_digests checked_arithmetic [[[codex_request]]] 1773156000 first) as [r1 c1'] eqn:E1.
  destruct (compact 1786156000 c1) as [r2 c2'] eqn:E2.
  apply (@rollups_stay_aligned checked_arithmetic plain_digests (tables c2) key); [|exact Hkey].
  change empty_tables with (tables first). apply rtc_l with (tables c1).
  - eapply step_export; [|..|exact E1]; [lia|].
    change (concat (concat [[[codex_request]]])) with [codex_request]. apply List.Forall_cons; [|apply List.Forall_nil].
    split; vm_compute; discriminate.
  - apply rtc_once. eapply step_compact. exact E2.
Defined.
