(* ===== verification/UsageDigest.v ===== *)
(** * The digest of a usage record ([crates/usage/src/otlp.rs], [record_id])

    What is fed to the digest determines the record: the encoding of a value starts with
    its kind and every list and text with its length, so that no encoding is a prefix of
    another's. Two records have the same input exactly when they have the same times,
    identifiers, body and attributes, up to the order of attributes with different keys
    and to an absent value being the same as an empty one. *)

From S2P Require Import Prelude Str Float Usage UsageStore UsageIngest.

(** ** Values and their normal forms *)

Section value_induction.
Context (P : Value -> Prop).
Definition held (v : option Value) : Prop := match v with Some v => P v | None => True end.
Definition held_entry (e : string * option (option Value)) : Prop :=
  match snd e with Some v => held v | None => True end.
Hypothesis Hstring : forall text, P (StringValue text).
Hypothesis Hbool : forall flag, P (BoolValue flag).
Hypothesis Hint : forall number, P (IntValue number).
Hypothesis Hdouble : forall bits, P (DoubleValue bits).
Hypothesis Harray : forall values, Forall held values -> P (ArrayValue values).
Hypothesis Hlist : forall values, Forall held_entry values -> P (KvlistValue values).
Hypothesis Hbytes : forall b, P (BytesValue b).

Fixpoint value_induction (v : Value) : P v :=
  let item (v : option Value) : held v :=
    match v with Some v => value_induction v | None => I end in
  match v with
  | StringValue text => Hstring text
  | BoolValue flag => Hbool flag
  | IntValue number => Hint number
  | DoubleValue bits => Hdouble bits
  | ArrayValue values =>
      Harray values ((fix go (l : list (option Value)) : Forall held l :=
        match l with [] => @List.Forall_nil _ _ | v :: l => @List.Forall_cons _ _ v l (item v) (go l) end) values)
  | KvlistValue values =>
      Hlist values ((fix go (l : list (string * option (option Value))) : Forall held_entry l :=
        match l with
        | [] => @List.Forall_nil _ _
        | e :: l =>
            @List.Forall_cons _ held_entry e l
              (match snd e as v return match v with Some v => held v | None => True end
               with Some v => item v | None => I end) (go l)
        end) values)
  | BytesValue b => Hbytes b
  end.
End value_induction.

(** An entry with an empty value is an entry without one. *)
Fixpoint normal (v : Value) : Value :=
  let item (v : option Value) := match v with Some v => Some (normal v) | None => None end in
  match v with
  | ArrayValue values => ArrayValue (map item values)
  | KvlistValue values =>
      KvlistValue (map (fun '(k, v) =>
        (k, match v with Some (Some v) => Some (Some (normal v)) | _ => None end)) values)
  | _ => v
  end.
Definition normal_any (v : option AnyValue) : option Value :=
  match v with Some (Some v) => Some (normal v) | _ => None end.

(** Lengths fit [u64], integers [i64] and the bits of a double [u64]. *)
Definition short {A} (l : list A) : Prop := Z.of_nat (length l) < 2 ^ 64.
Definition short_text (s : string) : Prop := Z.of_nat (String.length s) < 2 ^ 64.
Fixpoint sized (v : Value) : Prop :=
  let item (v : option Value) := match v with Some v => sized v | None => True end in
  match v with
  | StringValue s | BytesValue s => short_text s
  | BoolValue _ => True
  | IntValue n => I64_MIN <= n <= I64_MAX
  | DoubleValue bits => 0 <= bits < 2 ^ 64
  | ArrayValue values => short values /\ foldr (fun v rest => item v /\ rest) True values
  | KvlistValue values =>
      short values /\
      foldr (fun '(k, v) rest =>
        short_text k /\ match v with Some v => item v | None => True end /\ rest) True values
  end.
Definition sized_any (v : option AnyValue) : Prop :=
  match v with Some (Some v) => sized v | _ => True end.

(** ** Prefix-free pieces *)

Lemma append_inj (s s' t t' : string) : String.length s = String.length s' ->
  s +:+ t = s' +:+ t' -> s = s' /\ t = t'.
Proof.
  revert s'. induction s as [|a s IH]; intros [|b s'] Hl H; try done.
  simpl in Hl. injection H as -> H. apply IH in H as [-> ->]; [done|]. by injection Hl.
Qed.
Lemma length_be_bytes w z : String.length (be_bytes w z) = w.
Proof. revert z. induction w as [|w IH]; intros z; simpl; [done|]. rewrite length_append, IH. simpl. lia. Qed.
Lemma of_byte_inj a b : 0 <= a < 256 -> 0 <= b < 256 -> of_byte a = of_byte b -> a = b.
Proof.
  intros Ha Hb H. apply (f_equal byte_of) in H. unfold byte_of, of_byte in H.
  rewrite !N_ascii_embedding in H by lia. lia.
Qed.
Lemma be_bytes_inj w a b : 0 <= a < 256 ^ Z.of_nat w -> 0 <= b < 256 ^ Z.of_nat w ->
  be_bytes w a = be_bytes w b -> a = b.
Proof.
  revert a b. induction w as [|w IH]; intros a b Ha Hb H; [simpl in *; lia|].
  simpl in H. apply append_inj in H as [H1 H2]; [|by rewrite !length_be_bytes].
  injection H2 as H2. apply of_byte_inj in H2; [|apply Z.mod_pos_bound; lia..].
  rewrite Nat2Z.inj_succ, Z.pow_succ_r in Ha, Hb by lia.
  apply IH in H1; [|split; [apply Z.div_pos|apply Z.div_lt_upper_bound]; lia..].
  rewrite (Z.div_mod a 256), (Z.div_mod b 256) by lia. by rewrite H1, H2.
Qed.
Lemma be_bytes_app w a b s t : 0 <= a < 256 ^ Z.of_nat w -> 0 <= b < 256 ^ Z.of_nat w ->
  be_bytes w a +:+ s = be_bytes w b +:+ t -> a = b /\ s = t.
Proof.
  intros Ha Hb [H1 H2]%append_inj; [|by rewrite !length_be_bytes]. split; [by apply (be_bytes_inj w)|done].
Qed.
Lemma length_bytes_app n n' s t : Z.of_nat n < 2 ^ 64 -> Z.of_nat n' < 2 ^ 64 ->
  length_bytes n +:+ s = length_bytes n' +:+ t -> n = n' /\ s = t.
Proof.
  intros Hn Hn' [H ->]%be_bytes_app; [|lia..]. split; [lia|done].
Qed.
Lemma hash_bytes_app a b s t : short_text a -> short_text b ->
  hash_bytes a +:+ s = hash_bytes b +:+ t -> a = b /\ s = t.
Proof.
  intros Ha Hb H. unfold hash_bytes in H. rewrite !append_assoc in H.
  apply length_bytes_app in H as [Hl H]; [|done..]. by apply append_inj in H.
Qed.
Lemma tag_app a b s t : tag a +:+ s = tag b +:+ t -> of_byte a = of_byte b /\ s = t.
Proof. intros H. cbn in H. by injection H. Qed.

#[local] Arguments be_bytes : simpl never.

(** ** The encoding of values *)

Definition hash_item (v : option Value) : string := match v with None => tag 0 | Some v => hash_content v end.

(** One value's encoding is never followed to another's. *)
Definition decodes (v : Value) : Prop := forall v' s t, sized v -> sized v' ->
  hash_content v +:+ s = hash_content v' +:+ t -> normal v = normal v' /\ s = t.

Lemma kinds_differ v s t : hash_content v +:+ s <> tag 0 +:+ t.
Proof. destruct v; simpl; intros H; injection H as H _; discriminate H. Qed.

Lemma hash_item_app v v' s t :
  match v with Some v => decodes v | None => True end ->
  match v with Some v => sized v | None => True end ->
  match v' with Some v => sized v | None => True end ->
  hash_item v +:+ s = hash_item v' +:+ t ->
  match v with Some v => Some (normal v) | None => None end
  = match v' with Some v => Some (normal v) | None => None end /\ s = t.
Proof.
  destruct v as [v|], v' as [v'|]; simpl; intros Hd Hv Hv' H.
  - apply Hd in H as [-> ->]; done.
  - by apply kinds_differ in H.
  - symmetry in H. by apply kinds_differ in H.
  - by apply tag_app in H as [_ ->].
Qed.

(** Lists of encodings of known length. *)
Lemma items_app {A B} (enc : A -> string) (norm : A -> B) (fine : A -> Prop) l l' s t :
  (forall x, x ∈ l -> forall x' s t, fine x -> fine x' ->
     enc x +:+ s = enc x' +:+ t -> norm x = norm x' /\ s = t) ->
  length l = length l' -> Forall fine l -> Forall fine l' ->
  foldr (fun x rest => enc x +:+ rest) "" l +:+ s = foldr (fun x rest => enc x +:+ rest) "" l' +:+ t ->
  map norm l = map norm l' /\ s = t.
Proof.
  revert l'. induction l as [|x l IH]; intros [|x' l'] Henc Hl Hf Hf' H; try done.
  simpl in Hl. injection Hl as Hl. apply Forall_cons in Hf as [Hx Hf], Hf' as [Hx' Hf'].
  simpl in H. rewrite !append_assoc in H. apply Henc in H as [Hn H]; [|by left|done..].
  apply IH in H as [Hm ->]; [|intros y Hy; apply Henc; by right|done..]. split; [|done]. simpl. by rewrite Hn, Hm.
Qed.

Definition fine_item (v : option Value) : Prop := match v with Some v => sized v | None => True end.
Definition fine_entry (e : string * option (option Value)) : Prop :=
  short_text (fst e) /\ match snd e with Some v => fine_item v | None => True end.
Definition hash_entry (e : string * option (option Value)) : string :=
  hash_bytes (fst e) +:+ match snd e with None => tag 0 | Some v => hash_item v end.
Definition normal_item (v : option Value) : option Value :=
  match v with Some v => Some (normal v) | None => None end.
Definition normal_entry (e : string * option (option Value)) : string * option (option Value) :=
  (fst e, match snd e with Some (Some v) => Some (Some (normal v)) | _ => None end).

Lemma hash_array values : hash_content (ArrayValue values)
  = tag 5 +:+ length_bytes (length values) +:+ foldr (fun v rest => hash_item v +:+ rest) "" values.
Proof. done. Qed.
Lemma hash_kvlist values : hash_content (KvlistValue values)
  = tag 6 +:+ length_bytes (length values) +:+ foldr (fun e rest => hash_entry e +:+ rest) "" values.
Proof.
  simpl. do 2 f_equal. induction values as [|[k v] values IH]; [done|]. simpl. unfold hash_entry. simpl.
  rewrite IH, append_assoc. by destruct v.
Qed.
Lemma sized_array values : sized (ArrayValue values) <-> short values /\ Forall fine_item values.
Proof.
  simpl. apply and_iff_both; [done|]. induction values as [|v values IH]; simpl.
  - split; [constructor|done].
  - rewrite Forall_cons, IH. done.
Qed.
Lemma sized_kvlist values : sized (KvlistValue values) <-> short values /\ Forall fine_entry values.
Proof.
  simpl. apply and_iff_both; [done|]. induction values as [|[k v] values IH]; simpl.
  - split; [constructor|done].
  - rewrite Forall_cons, IH. unfold fine_entry. simpl. tauto.
Qed.
Lemma normal_kvlist values : normal (KvlistValue values) = KvlistValue (map normal_entry values).
Proof. simpl. f_equal. apply map_ext. by intros [k v]. Qed.

Lemma i64_mod_inj a b : I64_MIN <= a <= I64_MAX -> I64_MIN <= b <= I64_MAX ->
  a mod 2 ^ 64 = b mod 2 ^ 64 -> a = b.
Proof.
  unfold I64_MIN, I64_MAX. intros Ha Hb H.
  assert ((a - b) mod 2 ^ 64 = 0) as Hd by (rewrite Zminus_mod, H, Z.sub_diag; done).
  apply Z.mod_divide in Hd as [q Hq]; [|done]. assert (q = 0) as -> by lia. lia.
Qed.

Lemma values_decode v : decodes v.
Proof.
  assert (forall a b s t, 0 <= a < 256 -> 0 <= b < 256 -> tag a +:+ s = tag b +:+ t -> a = b /\ s = t) as Htag.
  { intros a b s t Ha Hb [H ->]%tag_app. by apply of_byte_inj in H. }
  induction v as [text|flag|number|bits|values IH|values IH|b] using value_induction;
    intros v' s t Hv Hv' H.
  5: { destruct v'; rewrite ?hash_array, ?hash_kvlist in H; simpl in H; rewrite ?append_assoc in H;
         apply Htag in H as [Hk H]; try lia; try done.
       apply sized_array in Hv as [Hs Hv], Hv' as [Hs' Hv'].
       apply length_bytes_app in H as [Hl H]; [|done..].
       apply (items_app hash_item normal_item fine_item) in H as [Hm ->]; [|clear -IH|done..].
       - split; [|done]. change (ArrayValue (map normal_item values) = ArrayValue (map normal_item values0)).
         by rewrite Hm.
       - intros x Hx x' s t Hf Hf' H. eapply Forall_forall in IH; [|exact Hx].
         by apply hash_item_app in H. }
  5: { destruct v'; rewrite ?hash_array, ?hash_kvlist in H; simpl in H; rewrite ?append_assoc in H;
         apply Htag in H as [Hk H]; try lia; try done.
       apply sized_kvlist in Hv as [Hs Hv], Hv' as [Hs' Hv'].
       apply length_bytes_app in H as [Hl H]; [|done..].
       apply (items_app hash_entry normal_entry fine_entry) in H as [Hm ->]; [|clear -IH|done..].
       - split; [|done]. rewrite !normal_kvlist. by rewrite Hm.
       - intros [k x] Hx [k' x'] s t [Hk Hf] [Hk' Hf'] H. eapply Forall_forall in IH; [|exact Hx].
         unfold hash_entry in H. simpl in *. rewrite !append_assoc in H.
         apply hash_bytes_app in H as [-> H]; [|done..].
         assert (forall y : option (option Value), match y with Some v => hash_item v | None => tag 0 end
           = hash_item (match y with Some v => v | None => None end)) as Hjoin by by intros [].
         rewrite !Hjoin in H.
         apply hash_item_app in H as [Hn ->]; [|by destruct x as [[]|]|by destruct x as [[]|]|by destruct x' as [[]|]].
         split; [|done]. unfold normal_entry. simpl.
         destruct x as [[]|], x' as [[]|]; simpl in Hn; try done; by injection Hn as ->. }
  all: destruct v'; simpl in H; rewrite ?append_assoc in H; apply Htag in H as [Hk H]; try lia; try done.
  - apply hash_bytes_app in H as [-> ->]; done.
  - apply Htag in H as [Hf ->]; [|by destruct flag|by destruct flag0]. by destruct flag, flag0.
  - apply be_bytes_app in H as [Hn ->]; [|apply Z.mod_pos_bound; lia..].
    apply i64_mod_inj in Hn as ->; done.
  - apply be_bytes_app in H as [-> ->]; done.
  - apply hash_bytes_app in H as [-> ->]; done.
Qed.

(** A value and its normal form have the same encoding. *)
Lemma hash_normal v : hash_content (normal v) = hash_content v.
Proof.
  induction v as [text|flag|number|bits|values IH|values IH|b] using value_induction; try done.
  - change (normal (ArrayValue values)) with (ArrayValue (map normal_item values)).
    rewrite !hash_array, length_map. do 2 f_equal.
    induction IH as [|v values Hv _ IH]; [done|]. simpl. rewrite IH. f_equal.
    destruct v as [v|]; [exact Hv|done].
  - rewrite normal_kvlist, !hash_kvlist, length_map. do 2 f_equal.
    induction IH as [|[k v] values Hv _ IH]; [done|]. simpl. rewrite IH. f_equal. unfold hash_entry. simpl.
    f_equal. destruct v as [[v|]|]; [exact Hv|done..].
Qed.

(** ** Records *)

Definition joined (v : option AnyValue) : option Value := match v with Some v => v | None => None end.
Lemma hash_value_joined v : hash_value v = hash_item (joined v).
Proof. by destruct v as [[]|]. Qed.
Lemma normal_any_joined v : normal_any v = normal_item (joined v).
Proof. by destruct v as [[]|]. Qed.
Lemma sized_any_joined v : sized_any v = fine_item (joined v).
Proof. by destruct v as [[]|]. Qed.

Definition well_sized (r : LogRecord) : Prop :=
  0 <= lr_time_unix_nano r < 2 ^ 64 /\ 0 <= lr_observed_time_unix_nano r < 2 ^ 64 /\
  short_text (lr_trace_id r) /\ short_text (lr_span_id r) /\ short (lr_attributes r) /\
  Forall (fun a => short_text (kv_key a) /\ sized_any (kv_value a)) (lr_attributes r) /\
  sized_any (lr_body r).

(** What the digest depends on. *)
Definition canonical_attribute (a : KeyValue) : string * option Value := (kv_key a, normal_any (kv_value a)).
Definition canonical (r : LogRecord)
  : Z * Z * string * string * list (string * option Value) * option Value :=
  (lr_time_unix_nano r, lr_observed_time_unix_nano r, lr_trace_id r, lr_span_id r,
   map canonical_attribute (sort_by by_key (lr_attributes r)), normal_any (lr_body r)).

Lemma hash_value_app v v' s t : sized_any v -> sized_any v' ->
  hash_value v +:+ s = hash_value v' +:+ t -> normal_any v = normal_any v' /\ s = t.
Proof.
  rewrite !hash_value_joined, !normal_any_joined, !sized_any_joined. intros Hv Hv' H.
  apply hash_item_app in H; [done| |done..]. destruct (joined v); [apply values_decode|done].
Qed.
Lemma hash_value_normal v v' : normal_any v = normal_any v' -> hash_value v = hash_value v'.
Proof.
  rewrite !hash_value_joined, !normal_any_joined. destruct (joined v) as [x|], (joined v') as [y|]; try done.
  simpl. intros [= H]. by rewrite <- (hash_normal x), <- (hash_normal y), H.
Qed.

(** The identifier of a usage record stands for the record: the bytes that are
    digested are the same for two records exactly when their times, trace and span
    identifiers, bodies and attributes are, up to the order of attributes under different
    keys and to an absent value being an empty one; no list, text or number can be
    mistaken for another. *)
Theorem record_digest_stands_for_record r r' :
  well_sized r -> well_sized r' -> record_bytes r = record_bytes r' <-> canonical r = canonical r'.
Proof.
  intros (Ht & Ho & Htr & Hsp & Hl & Ha & Hb) (Ht' & Ho' & Htr' & Hsp' & Hl' & Ha' & Hb').
  pose proof (sort_by_Permutation by_key (lr_attributes r)) as Hperm.
  pose proof (sort_by_Permutation by_key (lr_attributes r')) as Hperm'.
  unfold record_bytes, canonical. split.
  - intros H. apply be_bytes_app in H as [-> H]; [|lia..]. apply be_bytes_app in H as [-> H]; [|lia..].
    apply hash_bytes_app in H as [-> H]; [|done..]. apply hash_bytes_app in H as [-> H]; [|done..].
    apply length_bytes_app in H as [Hlen H]; [|done..].
    apply (items_app hash_attribute canonical_attribute
      (fun a => short_text (kv_key a) /\ sized_any (kv_value a))) in H as [-> H].
    + rewrite <- (append_nil_r (hash_value (lr_body r))), <- (append_nil_r (hash_value (lr_body r'))) in H.
      apply hash_value_app in H as [-> _]; done.
    + intros a _ a' s t [Hk Hv] [Hk' Hv'] He. unfold hash_attribute in He. rewrite !append_assoc in He.
      apply hash_bytes_app in He as [Heq He]; [|done..]. apply hash_value_app in He as [Hn ->]; [|done..].
      split; [|done]. unfold canonical_attribute. by rewrite Heq, Hn.
    + by rewrite Hperm, Hperm'.
    + by rewrite Hperm.
    + by rewrite Hperm'.
  - intros [= -> -> -> -> Hattrs Hbody]. do 4 f_equal. rewrite (hash_value_normal _ _ Hbody).
    assert (length (lr_attributes r) = length (lr_attributes r')) as ->
      by (apply (f_equal length) in Hattrs; by rewrite !length_map, Hperm, Hperm' in Hattrs).
    do 2 f_equal. clear -Hattrs. revert Hattrs. generalize (sort_by by_key (lr_attributes r')) as l'.
    generalize (sort_by by_key (lr_attributes r)) as l.
    induction l as [|a l IH]; intros [|a' l'] H; try done. simpl in *. injection H as Hk Hv H.
    rewrite (IH l' H). unfold hash_attribute. by rewrite Hk, (hash_value_normal _ _ Hv).
Qed.

Definition sent_record (order : list KeyValue) : LogRecord :=
  {| lr_time_unix_nano := 0; lr_observed_time_unix_nano := 1773156000000000000; lr_body := None;
     lr_attributes := order; lr_trace_id := "trace"; lr_span_id := "span" |}.
Definition sent_attribute (key text : string) : KeyValue :=
  {| kv_key := key; kv_value := Some (Some (StringValue text)) |}.
Lemma record_digest_stands_for_record_witness :
  let a := sent_attribute PROVIDER "anthropic" in let b := sent_attribute CLIENT "codex" in
  well_sized (sent_record [a; b]) /\ well_sized (sent_record [b; a]) /\
  record_bytes (sent_record [a; b]) = record_bytes (sent_record [b; a]).
Proof.
  intros a b.
  assert (forall l, l = [a; b] \/ l = [b; a] -> well_sized (sent_record l)) as Hw.
  { assert (Forall (fun a => short_text (kv_key a) /\ sized_any (kv_value a)) [a; b; a]) as Hs.
    { repeat (apply List.Forall_cons; [unfold short_text; simpl; unfold short_text; simpl; split; reflexivity|]).
      apply List.Forall_nil. }
    apply Forall_cons in Hs as [Ha Hs]. apply Forall_cons in Hs as [Hb _].
    intros l Hl. unfold well_sized, short_text, short.
    assert (Z.of_nat (length (lr_attributes (sent_record l))) < 2 ^ 64) as Hlen
      by (destruct Hl as [->| ->]; reflexivity).
    assert (Forall (fun a => short_text (kv_key a) /\ sized_any (kv_value a)) l) as Hl'
      by (destruct Hl as [->| ->]; repeat apply List.Forall_cons; done || apply List.Forall_nil).
    split; [split; [discriminate|reflexivity]|]. split; [split; [discriminate|reflexivity]|].
    split; [reflexivity|]. split; [reflexivity|]. split; [exact Hlen|]. split; [exact Hl'|exact I]. }
  split; [by apply Hw; left|]. split; [by apply Hw; right|].
  apply record_digest_stands_for_record; [by apply Hw; left|by apply Hw; right|vm_compute; reflexivity].
Defined.
