(* ===== verification/Fleet.v ===== *)
(** * Messages between daemons and the controller ([crates/proto/proto/fleet.proto])

    The fields are those of the wire; [u64] fields are integers and enumerations their
    numbers. A pushed configuration is [Remote.PushedConfig]. *)

From S2P Require Import Prelude Str Reconcile Tick Remote.

Record Hello : Type := {
  hl_device_id : string;
  hl_hostname : string;
  hl_os : string;
  hl_architecture : string;
  hl_agent_version : string;
}.
(** [fleet::McpServer], [Skill], [Discovery] and [Inventory]. *)
Record WireMcpServer : Type := {
  wm_name : string;
  wm_transport : string;
  wm_command : string;
  wm_url : string;
  wm_enabled : bool;
  wm_source : string;
}.
Record WireSkill : Type := { wk_path : string; wk_front_matter_json : string }.
Record WireDiscovery : Type := {
  wd_kind : string;
  wd_version : string;
  wd_path : string;
  wd_mcp_servers : list WireMcpServer;
  wd_skills : list WireSkill;
}.
Record WireRuntime : Type := { wr_kind : string; wr_models : list string }.
Record Inventory : Type := {
  in_discoveries : list WireDiscovery;
  in_model_runtimes : list WireRuntime;
}.
(** [fleet::ConfigStatus]; its programs are [Remote.ProgramStatus]. *)
Record WireStatus : Type := {
  ws_revision : Z;
  ws_state : Z;
  ws_error : string;
  ws_programs : list ProgramStatus;
  ws_programs_reported : bool;
}.
Inductive WireEvent : Type :=
| SessionNew (client_id session_id : string)
| ToolUse (client_id tool_name tool_use_id input_json : string).
Record WireTelemetry : Type := { wt_timestamp_unix_ms : Z; wt_event : option WireEvent }.

Inductive AgentMessage : Type :=
| MHello (hello : Hello)
| MHeartbeat (unix_time_seconds : Z)
| MInventory (inventory : Inventory)
| MConfigStatus (status : WireStatus)
| MTelemetry (event : WireTelemetry)
| MNone.

(** A daemon's status on the wire: [CONFIG_STATE_APPLIED] and [CONFIG_STATE_FAILED]. *)
Definition wire_status (s : ConfigStatus) : WireStatus :=
  {| ws_revision := cs_revision s;
     ws_state := match cs_state s with StateApplied => 1 | StateFailed => 2 end;
     ws_error := cs_error s; ws_programs := cs_programs s;
     ws_programs_reported := cs_programs_reported s |}.

(** [i64::try_from(..).unwrap_or(i64::MAX)] of a [u64]. *)
Definition i64_or_max (n : Z) : Z := Z.min n I64_MAX.
