(* ===== verification/ControllerDb.v ===== *)
(** * The controller's database ([crates/controller/src/database.rs], [usage.rs])

    The tables of [crates/controller/migrations] as finite maps keyed by their primary
    keys. An insertion is refused when its key exists or its device does not, and a
    device's rows are deleted with it, as the schema says. Text columns hold JSON that
    [serde_json] prints and reads ([RowCodec]). Times are arguments. *)

From S2P Require Import Prelude Str Json Sql Remote Fleet Usage UsageStore.

(** ** Rows *)

Record DeviceRow : Type := {
  dr_hostname : string;
  dr_os : string;
  dr_architecture : string;
  dr_agent_version : string;
  dr_created_at : Z;
  dr_last_seen_at : option Z;
  dr_issuer : string;
  dr_subject : string;
  dr_idp_claims_json : option string;
}.
Record ConfigRow : Type := {
  cr_revision : Z;
  cr_state : Z;
  cr_error : string;
  cr_updated_at : Z;
  cr_programs_reported : Z;
}.
Record ProgramRow : Type := {
  pr_position : Z;
  pr_revision : Z;
  pr_state : Z;
  pr_detail : string;
  pr_updated_at : Z;
}.
Record DiscoveryRow : Type := {
  di_version : string;
  di_mcp_servers_json : string;
  di_skills_json : string;
}.
Record EventRow : Type := {
  ev_device : string;
  ev_timestamp_unix_ms : Z;
  ev_type : string;
  ev_payload_json : string;
}.

Record FleetTables : Type := {
  devices : gmap string DeviceRow;
  device_config_status : gmap string ConfigRow;
  (** by device and program *)
  device_program_status : gmap (string * string) ProgramRow;
  (** by device, kind and path *)
  discoveries : gmap (string * string * string) DiscoveryRow;
  (** by device and kind, the models *)
  model_runtimes : gmap (string * string) string;
  telemetry_events : gmap string EventRow;
  usage_tables : Tables;
}.
Definition set_devices (x : gmap string DeviceRow) (t : FleetTables) : FleetTables :=
  {| devices := x; device_config_status := device_config_status t;
     device_program_status := device_program_status t; discoveries := discoveries t;
     model_runtimes := model_runtimes t; telemetry_events := telemetry_events t;
     usage_tables := usage_tables t |}.
Definition set_config_status (x : gmap string ConfigRow) (t : FleetTables) : FleetTables :=
  {| devices := devices t; device_config_status := x;
     device_program_status := device_program_status t; discoveries := discoveries t;
     model_runtimes := model_runtimes t; telemetry_events := telemetry_events t;
     usage_tables := usage_tables t |}.
Definition set_program_status (x : gmap (string * string) ProgramRow) (t : FleetTables) : FleetTables :=
  {| devices := devices t; device_config_status := device_config_status t;
     device_program_status := x; discoveries := discoveries t;
     model_runtimes := model_runtimes t; telemetry_events := telemetry_events t;
     usage_tables := usage_tables t |}.
Definition set_discoveries (x : gmap (string * string * string) DiscoveryRow) (t : FleetTables) : FleetTables :=
  {| devices := devices t; device_config_status := device_config_status t;
     device_program_status := device_program_status t; discoveries := x;
     model_runtimes := model_runtimes t; telemetry_events := telemetry_events t;
     usage_tables := usage_tables t |}.
Definition set_model_runtimes (x : gmap (string * string) string) (t : FleetTables) : FleetTables :=
  {| devices := devices t; device_config_status := device_config_status t;
     device_program_status := device_program_status t; discoveries := discoveries t;
     model_runtimes := x; telemetry_events := telemetry_events t;
     usage_tables := usage_tables t |}.
Definition set_telemetry_events (x : gmap string EventRow) (t : FleetTables) : FleetTables :=
  {| devices := devices t; device_config_status := device_config_status t;
     device_program_status := device_program_status t; discoveries := discoveries t;
     model_runtimes := model_runtimes t; telemetry_events := x;
     usage_tables := usage_tables t |}.
Definition set_usage_tables (x : Tables) (t : FleetTables) : FleetTables :=
  {| devices := devices t; device_config_status := device_config_status t;
     device_program_status := device_program_status t; discoveries := discoveries t;
     model_runtimes := model_runtimes t; telemetry_events := telemetry_events t;
     usage_tables := x |}.

Abbreviation DB := (ST (Connection FleetTables) string).

(** A check in Rust between statements. *)
Definition db_lift {A} (r : result A string) : DB A := fun c => (r, c).

(** [UsageStore::new(self.pool.clone())]: the usage tables of this database. *)
Definition usage {E A} (m : ST (Connection Tables) E A) : ST (Connection FleetTables) E A := fun c =>
  let '(r, c') := m {| tables := usage_tables (tables c); executed := executed c; faults := faults c |} in
  (r, {| tables := set_usage_tables (tables c') (tables c); executed := executed c'; faults := faults c' |}).

(** Rust's [model::McpServer] and [Skill]. *)
Record McpServer : Type := {
  mc_name : string;
  mc_transport : string;
  mc_command : option string;
  mc_url : option string;
  mc_enabled : bool;
  mc_source : string;
}.
Record Skill : Type := { sk_path : string; sk_front_matter : gmap string value }.

(** [serde_json]'s printers and readers of the types stored as text. *)
Class RowCodec : Type := {
  claims_json : gmap string value -> string;
  parse_claims : string -> result (gmap string value) string;
  value_json : value -> string;
  parse_value : string -> result value string;
  mcp_servers_json : list McpServer -> string;
  parse_mcp_servers : string -> result (list McpServer) string;
  skills_json : list Skill -> string;
  parse_skills : string -> result (list Skill) string;
  models_json : list string -> string;
  parse_models : string -> result (list string) string;
}.

Section codec.
Context {C : RowCodec}.

(** [readable_name]. *)
Definition readable_name (idp_claims : string) : option string :=
  claims ← result_ok (parse_value idp_claims);
  find_map (fun claim =>
    option_filter (fun s => negb (is_empty s)) (get claim claims ≫= as_str))
    ["email"; "preferred_username"; "name"].

(** ** Devices *)

(** [enroll_device]. *)
Definition enroll_device (device_id hostname issuer subject : string)
    (idp_claims : option (gmap string value)) (now : Z) : DB unit :=
  let row :=
    {| dr_hostname := hostname; dr_os := ""; dr_architecture := ""; dr_agent_version := "";
       dr_created_at := now; dr_last_seen_at := Some now; dr_issuer := issuer;
       dr_subject := subject; dr_idp_claims_json := claims_json <$> idp_claims |} in
  transaction (statement "insert device" (fun t =>
    match devices t !! device_id with
    | Some _ => None
    | None => Some (tt, set_devices (<[device_id := row]> (devices t)) t)
    end)).

Record DevicePrincipal : Type := {
  dp_issuer : string;
  dp_subject : string;
  dp_idp_claims : option (gmap string value);
}.
(** [device_principal]. *)
Definition device_principal (device_id : string) : DB DevicePrincipal :=
  let* row := query "load device enrollment principal" (fun t => devices t !! device_id) in
  let* idp_claims :=
    db_lift match dr_idp_claims_json row with
            | None => Ok None
            | Some claims =>
                map_err (context "decode verified IdP claims")
                  (let? claims := parse_claims claims in Ok (Some claims))
            end in
  st_ret {| dp_issuer := dr_issuer row; dp_subject := dr_subject row; dp_idp_claims := idp_claims |}.

(** [ON DELETE CASCADE]. *)
Definition delete_cascade (device_id : string) (t : FleetTables) : FleetTables :=
  {| devices := delete device_id (devices t);
     device_config_status := delete device_id (device_config_status t);
     device_program_status := filter (fun row => fst (fst row) <> device_id) (device_program_status t);
     discoveries := filter (fun row => fst (fst (fst row)) <> device_id) (discoveries t);
     model_runtimes := filter (fun row => fst (fst row) <> device_id) (model_runtimes t);
     telemetry_events := filter (fun row => ev_device (snd row) <> device_id) (telemetry_events t);
     usage_tables := usage_tables t |}.
(** [delete_device]: whether there was one. *)
Definition delete_device (device_id : string) : DB bool :=
  statement "delete device" (fun t =>
    Some (bool_decide (is_Some (devices t !! device_id)), delete_cascade device_id t)).

(** [update_hello] and [update_heartbeat]. *)
Definition update_hello (device_id : string) (hello : Hello) (now : Z) : DB unit :=
  statement "update device" (fun t =>
    Some (tt, set_devices (alter (fun row =>
      {| dr_hostname := hl_hostname hello; dr_os := hl_os hello;
         dr_architecture := hl_architecture hello; dr_agent_version := hl_agent_version hello;
         dr_created_at := dr_created_at row; dr_last_seen_at := Some now;
         dr_issuer := dr_issuer row; dr_subject := dr_subject row;
         dr_idp_claims_json := dr_idp_claims_json row |}) device_id (devices t)) t)).
Definition update_heartbeat (device_id : string) (timestamp : Z) : DB unit :=
  statement "update last seen" (fun t =>
    Some (tt, set_devices (alter (fun row =>
      {| dr_hostname := dr_hostname row; dr_os := dr_os row; dr_architecture := dr_architecture row;
         dr_agent_version := dr_agent_version row; dr_created_at := dr_created_at row;
         dr_last_seen_at := Some (i64_or_max timestamp); dr_issuer := dr_issuer row;
         dr_subject := dr_subject row; dr_idp_claims_json := dr_idp_claims_json row |})
      device_id (devices t)) t)).

(** An insertion into a table that references [devices]. *)
Definition insert_row {K V} `{Countable K} (device_id : string) (key : K) (row : V)
    (get : FleetTables -> gmap K V) (set : gmap K V -> FleetTables -> FleetTables) (t : FleetTables)
  : option (unit * FleetTables) :=
  match devices t !! device_id, get t !! key with
  | Some _, None => Some (tt, set (<[key := row]> (get t)) t)
  | _, _ => None
  end.
End codec.

Section codec.
Context {C : RowCodec}.

(** ** Inventories *)

(** [(!text.is_empty()).then(|| text.clone())]. *)
Definition non_empty (text : string) : option string := if is_empty text then None else Some text.
Definition reported_server (s : WireMcpServer) : McpServer :=
  {| mc_name := wm_name s; mc_transport := wm_transport s; mc_command := non_empty (wm_command s);
     mc_url := non_empty (wm_url s); mc_enabled := wm_enabled s; mc_source := wm_source s |}.
Fixpoint reported_skills (l : list WireSkill) : result (list Skill) string :=
  match l with
  | [] => Ok []
  | s :: l =>
      let? front_matter :=
        map_err (context "decode reported skill front matter") (parse_claims (wk_front_matter_json s)) in
      let? skills := reported_skills l in
      Ok ({| sk_path := wk_path s; sk_front_matter := front_matter |} :: skills)
  end.

(** [replace_inventory]. *)
Definition insert_discovery (device_id : string) (d : WireDiscovery) : DB unit :=
  let* skills := db_lift (reported_skills (wd_skills d)) in
  let row := {| di_version := wd_version d;
                di_mcp_servers_json := mcp_servers_json (map reported_server (wd_mcp_servers d));
                di_skills_json := skills_json skills |} in
  statement "insert discovery"
    (insert_row device_id (device_id, wd_kind d, wd_path d) row discoveries set_discoveries).
Definition insert_runtime (device_id : string) (r : WireRuntime) : DB unit :=
  statement "insert model runtime"
    (insert_row device_id (device_id, wr_kind r) (models_json (wr_models r))
       model_runtimes set_model_runtimes).
Definition replace_inventory (device_id : string) (inventory : Inventory) : DB unit :=
  transaction (
    statement "delete discoveries" (fun t =>
      Some (tt, set_discoveries
        (filter (fun row => fst (fst (fst row)) <> device_id) (discoveries t)) t)) ;*
    st_iter (insert_discovery device_id) (in_discoveries inventory) ;*
    statement "delete model runtimes" (fun t =>
      Some (tt, set_model_runtimes
        (filter (fun row => fst (fst row) <> device_id) (model_runtimes t)) t)) ;*
    st_iter (insert_runtime device_id) (in_model_runtimes inventory)).

(** ** Configuration statuses *)

Definition is_program_byte (a : ascii) : bool :=
  is_ascii_lower a || is_ascii_digit a || Ascii.eqb a "-".
(** The checks of one program; [seen] are the programs before it. *)
Definition validate_program (seen : gset string) (p : ProgramStatus) : result unit string :=
  if negb (negb (is_empty (ps_program p)) && Nat.leb (String.length (ps_program p)) 64
           && str_all is_program_byte (ps_program p))
  then Err "invalid program in configuration status"
  else if bool_decide (ps_program p ∈ seen) then Err "duplicate program in configuration status"
  else if negb (Nat.leb (String.length (ps_detail p)) 2048)
  then Err "program detail too long in configuration status"
  else Ok tt.
Fixpoint validate_programs (seen : gset string) (l : list ProgramStatus) : result unit string :=
  match l with
  | [] => Ok tt
  | p :: l => let? _ := validate_program seen p in validate_programs ({[ps_program p]} ∪ seen) l
  end.
(** [validate_program_status]. *)
Definition validate_program_status (status : WireStatus) : result unit string :=
  if Nat.ltb 32 (length (ws_programs status)) then Err "too many programs in configuration status"
  else validate_programs ∅ (ws_programs status).

(** [INSERT .. ON CONFLICT (device_id) DO UPDATE] of a status; a new row's
    [programs_reported] is 0 unless it is given. *)
Definition upsert_status (device_id : string) (status : WireStatus) (reported : option Z) (now : Z)
    (t : FleetTables) : option (unit * FleetTables) :=
  match devices t !! device_id with
  | None => None
  | Some _ =>
      let before := default 0 (cr_programs_reported <$> device_config_status t !! device_id) in
      Some (tt, set_config_status (<[device_id :=
        {| cr_revision := i64_or_max (ws_revision status); cr_state := ws_state status;
           cr_error := ws_error status; cr_updated_at := now;
           cr_programs_reported := default before reported |}]> (device_config_status t)) t)
  end.
(** [update_device_config_state]. *)
Definition update_device_config_state (device_id : string) (status : WireStatus) (now : Z) : DB unit :=
  statement "update configuration state" (upsert_status device_id status None now).

Definition insert_program (device_id : string) (revision now : Z) (entry : nat * ProgramStatus) : DB unit :=
  let '(position, p) := entry in
  statement "insert program status"
    (insert_row device_id (device_id, ps_program p)
       {| pr_position := Z.of_nat position; pr_revision := revision; pr_state := ps_state p;
          pr_detail := ps_detail p; pr_updated_at := now |}
       device_program_status set_program_status).
(** [update_config_status]. *)
Definition update_config_status (device_id : string) (status : WireStatus) (now : Z) : DB unit :=
  db_lift (validate_program_status status) ;*
  transaction (
    statement "update configuration status"
      (upsert_status device_id status (Some (if ws_programs_reported status then 1 else 0)) now) ;*
    statement "delete program statuses" (fun t =>
      Some (tt, set_program_status
        (filter (fun row => fst (fst row) <> device_id) (device_program_status t)) t)) ;*
    st_iter (insert_program device_id (i64_or_max (ws_revision status)) now)
      (imap pair (ws_programs status))).

(** ** Telemetry *)

Definition too_long (text : string) (limit : nat) : bool :=
  is_empty text || Nat.ltb limit (String.length text).
(** The type and payload of an event. *)
Definition telemetry_payload (event : option WireEvent) : result (string * value) string :=
  match event with
  | None => Err "telemetry has no event"
  | Some (SessionNew client_id session_id) =>
      if too_long client_id 64 then Err "invalid telemetry client ID"
      else if too_long session_id 256 then Err "invalid telemetry session ID"
      else Ok ("session.new",
        Object (<["clientId" := VString client_id]> {["sessionId" := VString session_id]}))
  | Some (ToolUse client_id tool_name tool_use_id input_json) =>
      if too_long client_id 64 then Err "invalid telemetry client ID"
      else if too_long tool_name 128 then Err "invalid telemetry tool name"
      else if Nat.ltb 256 (String.length tool_use_id) then Err "invalid telemetry tool use ID"
      else if (256 * 1024 <? Z.of_nat (String.length input_json)) then Err "telemetry tool input is too large"
      else
        let? tool_input :=
          if is_empty input_json then Ok None
          else map_err (context "decode telemetry tool input")
                 (let? v := parse_value input_json in Ok (Some v)) in
        let payload : gmap string value :=
          <["clientId" := VString client_id]> (<["toolName" := VString tool_name]>
            {["toolUseId" := match non_empty tool_use_id with Some id => VString id | None => Null end]}) in
        Ok ("tool.use",
          Object match tool_input with Some v => <["toolInput" := v]> payload | None => payload end)
  end.
(** [insert_telemetry]; [id] is the new UUID. *)
Definition insert_telemetry (device_id id : string) (telemetry : WireTelemetry) : DB unit :=
  let* (event_type, payload) := db_lift (telemetry_payload (wt_event telemetry)) in
  statement "store telemetry event"
    (insert_row device_id id
       {| ev_device := device_id; ev_timestamp_unix_ms := i64_or_max (wt_timestamp_unix_ms telemetry);
          ev_type := event_type; ev_payload_json := value_json payload |}
       telemetry_events set_telemetry_events).
End codec.

(** ** Reading *)

Record DeviceSummary : Type := {
  ds_id : string;
  ds_hostname : string;
  ds_os : string;
  ds_architecture : string;
  ds_agent_version : string;
  ds_created_at : Z;
  ds_last_seen_at : option Z;
  ds_issuer : string;
  ds_subject : string;
  ds_name : option string;
  ds_config_revision : option Z;
  ds_config_state : option Z;
  ds_config_error : option string;
  ds_config_updated_at : option Z;
  ds_discovery_count : Z;
  ds_installed_tools : list string;
}.
Record DeviceDiscovery : Type := {
  dd_kind : string;
  dd_version : string;
  dd_path : string;
  dd_mcp_servers : list McpServer;
  dd_skills : list Skill;
}.
Record ModelRuntime : Type := { mr_kind : string; mr_models : list string }.
Record TelemetryEventRecord : Type := {
  te_id : string;
  te_timestamp_unix_ms : Z;
  te_event_type : string;
  te_payload : value;
}.
Record ProgramStatusRecord : Type := {
  ps_name : string;
  ps_state_name : string;
  ps_status_detail : string;
  ps_revision : Z;
  ps_updated_at : Z;
}.
Record DeviceDetail : Type := {
  dt_device : DeviceSummary;
  dt_discoveries : list DeviceDiscovery;
  dt_model_runtimes : list ModelRuntime;
  dt_recent_events : list TelemetryEventRecord;
  dt_programs : list ProgramStatusRecord;
  dt_programs_reported : option bool;
}.

(** [program_state_name]. *)
Definition program_state_name (state : Z) : string :=
  if state =? 1 then "applied" else if state =? 2 then "unchanged" else if state =? 3 then "removed"
  else if state =? 4 then "conflict" else if state =? 5 then "inactive" else if state =? 6 then "blocked"
  else if state =? 8 then "opted_out" else if state =? 7 then "failed" else "unspecified".

Section codec.
Context {C : RowCodec}.

(** [DISCOVERIES WHERE device_id = $1], [ORDER BY kind, path]. *)
Definition device_discoveries (device_id : string) (t : FleetTables)
  : list (string * string * string * DiscoveryRow) :=
  sort_by (fun a b => match String.compare (snd (fst (fst a))) (snd (fst (fst b))) with
                      | Lt => true | Gt => false
                      | Eq => String.leb (snd (fst a)) (snd (fst b)) end)
    (retain (fun row => String.eqb (fst (fst (fst row))) device_id) (map_to_list (discoveries t))).
Definition device_runtimes (device_id : string) (t : FleetTables) : list (string * string * string) :=
  sort_by (fun a b => String.leb (snd (fst a)) (snd (fst b)))
    (retain (fun row => String.eqb (fst (fst row)) device_id) (map_to_list (model_runtimes t))).
Definition device_programs (device_id : string) (t : FleetTables) : list (string * string * ProgramRow) :=
  sort_by (fun a b => pr_position (snd a) <=? pr_position (snd b))
    (retain (fun row => String.eqb (fst (fst row)) device_id) (map_to_list (device_program_status t))).
Definition device_events (device_id : string) (t : FleetTables) : list (string * EventRow) :=
  sort_by (fun a b => ev_timestamp_unix_ms (snd b) <=? ev_timestamp_unix_ms (snd a))
    (retain (fun row => String.eqb (ev_device (snd row)) device_id) (map_to_list (telemetry_events t))).

(** [DeviceRow] and [DeviceSummary::from]: a device joined with its status. *)
Definition device_summary (t : FleetTables) (id : string) (row : DeviceRow) : DeviceSummary :=
  let status := device_config_status t !! id in
  {| ds_id := id; ds_hostname := dr_hostname row; ds_os := dr_os row;
     ds_architecture := dr_architecture row; ds_agent_version := dr_agent_version row;
     ds_created_at := dr_created_at row; ds_last_seen_at := dr_last_seen_at row;
     ds_issuer := dr_issuer row; ds_subject := dr_subject row;
     ds_name := dr_idp_claims_json row ≫= readable_name;
     ds_config_revision := cr_revision <$> status; ds_config_state := cr_state <$> status;
     ds_config_error := cr_error <$> status; ds_config_updated_at := cr_updated_at <$> status;
     ds_discovery_count := Z.of_nat (length (device_discoveries id t));
     ds_installed_tools := [] |}.
Definition with_tools (tools : list string) (d : DeviceSummary) : DeviceSummary :=
  {| ds_id := ds_id d; ds_hostname := ds_hostname d; ds_os := ds_os d;
     ds_architecture := ds_architecture d; ds_agent_version := ds_agent_version d;
     ds_created_at := ds_created_at d; ds_last_seen_at := ds_last_seen_at d;
     ds_issuer := ds_issuer d; ds_subject := ds_subject d; ds_name := ds_name d;
     ds_config_revision := ds_config_revision d; ds_config_state := ds_config_state d;
     ds_config_error := ds_config_error d; ds_config_updated_at := ds_config_updated_at d;
     ds_discovery_count := ds_discovery_count d; ds_installed_tools := tools |}.

(** [ORDER BY last_seen_at DESC, hostname ASC]; a device without a time comes last. *)
Definition seen_before (a b : DeviceSummary) : bool :=
  match ds_last_seen_at a, ds_last_seen_at b with
  | Some x, Some y => if x =? y then String.leb (ds_hostname a) (ds_hostname b) else y <? x
  | Some _, None => true
  | None, Some _ => false
  | None, None => String.leb (ds_hostname a) (ds_hostname b)
  end.
(** [list_devices]: the devices, then the tools of each. *)
Definition list_devices : DB (list DeviceSummary) :=
  let* listed := query "list devices" (fun t =>
    Some (sort_by seen_before (map (fun '(id, row) => device_summary t id row) (map_to_list (devices t))))) in
  let* tools := query "list installed developer tools" (fun t =>
    Some (fun id => map (fun row => snd (fst (fst row))) (device_discoveries id t))) in
  st_ret (map (fun d => with_tools (tools (ds_id d)) d) listed).

(** [DeviceDiscovery::try_from], [ModelRuntime::try_from] and
    [TelemetryEventRecord::try_from]. *)
Definition read_discovery (row : string * string * string * DiscoveryRow) : result DeviceDiscovery string :=
  let '(_, kind, p, d) := row in
  let? mcp_servers :=
    map_err (context "decode discovered MCP servers") (parse_mcp_servers (di_mcp_servers_json d)) in
  let? skills := map_err (context "decode discovered skills") (parse_skills (di_skills_json d)) in
  Ok {| dd_kind := kind; dd_version := di_version d; dd_path := p; dd_mcp_servers := mcp_servers;
        dd_skills := skills |}.
Definition read_runtime (row : string * string * string) : result ModelRuntime string :=
  let '(_, kind, models) := row in
  let? models := map_err (context "decode discovered local models") (parse_models models) in
  Ok {| mr_kind := kind; mr_models := models |}.
Definition read_event (row : string * EventRow) : result TelemetryEventRecord string :=
  let '(id, e) := row in
  let? payload := map_err (context "decode telemetry payload") (parse_value (ev_payload_json e)) in
  Ok {| te_id := id; te_timestamp_unix_ms := ev_timestamp_unix_ms e; te_event_type := ev_type e;
        te_payload := payload |}.
Definition read_program (row : string * string * ProgramRow) : ProgramStatusRecord :=
  let '(_, program, p) := row in
  {| ps_name := program; ps_state_name := program_state_name (pr_state p);
     ps_status_detail := pr_detail p; ps_revision := pr_revision p; ps_updated_at := pr_updated_at p |}.
(** [.collect::<anyhow::Result<_>>()]. *)
Fixpoint collect {A B E} (f : A -> result B E) (l : list A) : result (list B) E :=
  match l with
  | [] => Ok []
  | a :: l => let? b := f a in let? bs := collect f l in Ok (b :: bs)
  end.

(** [recent_telemetry]. *)
Definition recent_telemetry (device_id : string) (limit : nat) : DB (list TelemetryEventRecord) :=
  let* rows := query "load recent telemetry" (fun t => Some (take limit (device_events device_id t))) in
  db_lift (collect read_event rows).

(** [get_device]. *)
Definition get_device (device_id : string) : DB (option DeviceDetail) :=
  let* device := query "load device" (fun t =>
    Some (device_summary t device_id <$> devices t !! device_id)) in
  match device with
  | None => st_ret None
  | Some device =>
      let* rows := query "load device discoveries" (fun t => Some (device_discoveries device_id t)) in
      let* discovered := db_lift (collect read_discovery rows) in
      let* rows := query "load discovered model runtimes" (fun t => Some (device_runtimes device_id t)) in
      let* runtimes := db_lift (collect read_runtime rows) in
      let* recent_events := recent_telemetry device_id 50 in
      let* programs_reported := query "load configuration status reporting" (fun t =>
        Some (cr_programs_reported <$> device_config_status t !! device_id)) in
      let* rows := query "load program configuration status" (fun t => Some (device_programs device_id t)) in
      st_ret (Some
        {| dt_device := with_tools (map dd_kind discovered) device; dt_discoveries := discovered;
           dt_model_runtimes := runtimes; dt_recent_events := recent_events;
           dt_programs := map read_program rows;
           dt_programs_reported := (fun reported => negb (reported =? 0)) <$> programs_reported |})
  end.

(** [usage::labels]: [ORDER BY created_at], a later enrollment by a subject wins. *)
Definition add_label (labels : Labels) (device : string * DeviceRow) : Labels :=
  let '(device_id, row) := device in
  {| lb_users := match dr_idp_claims_json row ≫= readable_name with
                 | Some name => <[dr_subject row := name]> (lb_users labels)
                 | None => lb_users labels
                 end;
     lb_devices := <[device_id := dr_hostname row]> (lb_devices labels) |}.
Definition labels : DB Labels :=
  query "load usage labels" (fun t =>
    Some (fold_left add_label
      (sort_by (fun a b => dr_created_at (snd a) <=? dr_created_at (snd b)) (map_to_list (devices t)))
      {| lb_users := ∅; lb_devices := ∅ |})).
End codec.
