(* ===== verification/ControllerRows.v ===== *)
(** * What the controller's tables hold

    Every row belongs to an enrolled device, whatever calls are made and whatever fails;
    a configuration status replaces the previous one and is shown as it was reported; a
    daemon's own reports are always accepted. *)

From S2P Require Import Prelude Str Json Sql Remote Fleet Usage UsageStore ControllerDb.

(** ** Rows of a table that references [devices] *)

Record table {K V} `{Countable K} (get : FleetTables -> gmap K V)
    (set : gmap K V -> FleetTables -> FleetTables) : Prop := {
  tb_get x t : get (set x t) = x;
  tb_set x y t : set x (set y t) = set x t;
  tb_same t : set (get t) t = t;
  tb_devices x t : devices (set x t) = devices t;
}.
Lemma programs_table : table device_program_status set_program_status.
Proof. by split; intros; destruct t. Qed.
Lemma discoveries_table : table discoveries set_discoveries.
Proof. by split; intros; destruct t. Qed.
Lemma runtimes_table : table model_runtimes set_model_runtimes.
Proof. by split; intros; destruct t. Qed.
Lemma events_table : table telemetry_events set_telemetry_events.
Proof. by split; intros; destruct t. Qed.

Lemma db_lift_inv {A} (r : result A string) c a c' : db_lift r c = (Ok a, c') -> r = Ok a /\ c' = c.
Proof. by intros [= -> ->]. Qed.

Section insertions.
Context {K V} `{Countable K} (get : FleetTables -> gmap K V) (set : gmap K V -> FleetTables -> FleetTables).
Hypothesis T : table get set.

Lemma insert_row_inv d k v t t' : insert_row d k v get set t = Some (tt, t') ->
  is_Some (devices t !! d) /\ get t !! k = None /\ t' = set (<[k := v]> (get t)) t.
Proof.
  unfold insert_row. destruct (devices t !! d), (get t !! k); try done. intros [= <-]. by split; [eexists|].
Qed.

(** A loop of insertions. *)
Definition inserting {A} (d : string) (body : A -> DB unit) (key : A -> K) (row : A -> V -> Prop) : Prop :=
  forall a c c', body a c = (Ok tt, c') ->
    exists v, row a v /\ insert_row d (key a) v get set (tables c) = Some (tt, tables c').

Lemma iter_inserts {A} d (body : A -> DB unit) key row l c c' : inserting d body key row ->
  st_iter body l c = (Ok tt, c') ->
  exists vs, Forall2 row l vs /\ NoDup (map key l) /\
    (forall a, a ∈ l -> get (tables c) !! key a = None) /\
    tables c' = set (list_to_map (zip (map key l) vs) ∪ get (tables c)) (tables c).
Proof.
  intros Hbody. revert c. induction l as [|a l IH]; intros c Hrun; simpl in Hrun.
  - injection Hrun as <-. exists []. split; [constructor|]. split; [constructor|]. split.
    + intros a Ha. by apply not_elem_of_nil in Ha.
    + simpl. rewrite (left_id_L ∅ (∪)). by rewrite (tb_same _ _ T).
  - apply st_bind_inv in Hrun as [(e & _ & ?)|([] & c1 & Ha & Hrest)]; [done|].
    destruct (Hbody a c c1 Ha) as (v & Hv & (_ & Hnew & Ht)%insert_row_inv).
    destruct (IH c1 Hrest) as (vs & Hvs & Hnd & Hfresh & Ht').
    rewrite Ht, (tb_get _ _ T), (tb_set _ _ T) in Ht'. rewrite Ht, (tb_get _ _ T) in Hfresh.
    assert (key a ∉ map key l) as Hkey.
    { intros (b & Heq & Hb)%list_elem_of_fmap. specialize (Hfresh b Hb).
      rewrite <- Heq, lookup_insert_eq in Hfresh. done. }
    exists (v :: vs). split; [by constructor|]. split; [by constructor|]. split.
    + intros b [->|Hb]%elem_of_cons; [done|]. specialize (Hfresh b Hb).
      by apply lookup_insert_None in Hfresh as [Hfresh _].
    + rewrite Ht'. f_equal. rewrite <- insert_union_r, insert_union_l; [done|].
      apply not_elem_of_list_to_map. rewrite fst_zip; [done|]. rewrite length_map. by rewrite (Forall2_length _ _ _ Hvs).
Qed.

(** The rows of one device after its old ones were deleted. *)
Lemma device_rows (dev : K -> string) d keys (vs : list V) base : length keys = length vs ->
  NoDup keys -> (forall k, k ∈ keys -> dev k = d) -> (forall k v, base !! k = Some v -> dev k <> d) ->
  retain (fun row => String.eqb (dev (fst row)) d) (map_to_list (list_to_map (zip keys vs) ∪ base))
  ≡ₚ zip keys vs.
Proof.
  intros Hl Hnd Hkeys Hbase.
  assert (NoDup (zip keys vs).*1) as Hz by (by rewrite fst_zip by lia).
  apply NoDup_Permutation.
  - eapply sublist_NoDup; [|apply retain_sublist]. apply NoDup_map_to_list.
  - by eapply NoDup_fmap_1.
  - intros [k v]. rewrite elem_of_retain, elem_of_map_to_list. simpl. split.
    + intros [Hk Hd%String.eqb_eq]. apply lookup_union_Some_raw in Hk as [Hk|[_ Hk]].
      * by apply elem_of_list_to_map in Hk.
      * by apply Hbase in Hk.
    + intros Hin. split.
      * apply lookup_union_Some_raw. left. by apply elem_of_list_to_map.
      * apply String.eqb_eq, Hkeys. rewrite <- (fst_zip keys vs) by lia. by apply (list_elem_of_fmap_2 fst) in Hin.
Qed.
End insertions.

(** ** Sorted rows *)

Section sorted.
Context {A : Type} (le : A -> A -> bool).
Hypothesis le_total : forall x y, le x y = false -> le y x = true.
Hypothesis le_trans : forall x y z, le x y = true -> le y z = true -> le x z = true.

Definition before (x y : A) : Prop := le y x = false.

Lemma sorted_unique l l' : l ≡ₚ l' -> StronglySorted before l' -> sort_by le l = l'.
Proof.
  intros Hp Hs.
  assert (forall x y, x ∈ l' -> y ∈ l' -> x = y \/ before x y \/ before y x) as Hcmp.
  { clear Hp. induction Hs as [|a l' Hs IH Ha]; intros x y Hx Hy; [by apply not_elem_of_nil in Hx|].
    rewrite Forall_forall in Ha.
    apply elem_of_cons in Hx as [Hx|Hx]; apply elem_of_cons in Hy as [Hy|Hy]; subst; auto. }
  assert (sort_by le l ≡ₚ l') as Hperm by (by rewrite sort_by_Permutation).
  apply (StronglySorted_unique_strong (fun x y => le x y = true)); [|..|done].
  - intros x y Hx Hy Hxy Hyx. rewrite Hperm in Hx. unfold before in Hcmp.
    destruct (Hcmp x y Hx Hy) as [?|[E|E]]; [done|by rewrite E in Hyx|by rewrite E in Hxy].
  - apply Sorted_StronglySorted; [exact le_trans|]. by apply sort_by_Sorted.
  - clear Hp Hcmp Hperm. induction Hs as [|a l' Hs IH Ha]; constructor; [done|].
    eapply Forall_impl; [exact Ha|]. intros y Hy. by apply le_total.
Qed.
End sorted.

(** ** Every row belongs to a device *)

Record belongs (t : FleetTables) : Prop := {
  bl_status d : is_Some (device_config_status t !! d) -> is_Some (devices t !! d);
  bl_program d p : is_Some (device_program_status t !! (d, p)) -> is_Some (devices t !! d);
  bl_discovery d k p : is_Some (discoveries t !! (d, k, p)) -> is_Some (devices t !! d);
  bl_runtime d k : is_Some (model_runtimes t !! (d, k)) -> is_Some (devices t !! d);
  bl_event id e : telemetry_events t !! id = Some e -> is_Some (devices t !! ev_device e);
}.

Lemma belongs_devices x t : dom (devices t) ⊆ dom x -> belongs t -> belongs (set_devices x t).
Proof.
  intros Hd [H1 H2 H3 H4 H5].
  assert (forall d, is_Some (devices t !! d) -> is_Some (x !! d)) as Hx.
  { intros d. rewrite <- !elem_of_dom. set_solver. }
  split; simpl; eauto.
Qed.
Lemma belongs_same_devices (t t' : FleetTables) : devices t' = devices t ->
  (forall d, is_Some (device_config_status t' !! d) ->
     is_Some (device_config_status t !! d) \/ is_Some (devices t !! d)) ->
  (forall d p, is_Some (device_program_status t' !! (d, p)) ->
     is_Some (device_program_status t !! (d, p)) \/ is_Some (devices t !! d)) ->
  (forall d k p, is_Some (discoveries t' !! (d, k, p)) ->
     is_Some (discoveries t !! (d, k, p)) \/ is_Some (devices t !! d)) ->
  (forall d k, is_Some (model_runtimes t' !! (d, k)) ->
     is_Some (model_runtimes t !! (d, k)) \/ is_Some (devices t !! d)) ->
  (forall id e, telemetry_events t' !! id = Some e ->
     telemetry_events t !! id = Some e \/ is_Some (devices t !! ev_device e)) ->
  belongs t -> belongs t'.
Proof.
  intros Hd H1 H2 H3 H4 H5 [B1 B2 B3 B4 B5]. split; rewrite Hd.
  - intros d H. destruct (H1 d H); eauto.
  - intros d p H. destruct (H2 d p H); eauto.
  - intros d k p H. destruct (H3 d k p H); eauto.
  - intros d k H. destruct (H4 d k H); eauto.
  - intros id e H. destruct (H5 id e H); eauto.
Qed.
Ltac same_devices :=
  match goal with H : belongs ?t |- _ => apply (belongs_same_devices t); [reflexivity|..|exact H]; simpl; eauto end.

Section codec.
Context {C : RowCodec}.

Lemma keeps_lift {A} P (r : result A string) : keeps P (db_lift r).
Proof. by intros c. Qed.
Lemma keeps_enroll d hostname issuer subject claims now :
  keeps belongs (enroll_device d hostname issuer subject claims now).
Proof.
  apply keeps_transaction, keeps_statement. intros t b t' Ht. destruct (devices t !! d); intros; simplify_eq/=.
  apply belongs_devices; [|done]. rewrite dom_insert. set_solver.
Qed.
Lemma keeps_hello d hello now : keeps belongs (update_hello d hello now).
Proof.
  apply keeps_statement. intros t b t' Ht [= _ <-]. apply belongs_devices; [|done]. by rewrite dom_alter.
Qed.
Lemma keeps_heartbeat d timestamp : keeps belongs (update_heartbeat d timestamp).
Proof.
  apply keeps_statement. intros t b t' Ht [= _ <-]. apply belongs_devices; [|done]. by rewrite dom_alter.
Qed.
Lemma keeps_delete d : keeps belongs (delete_device d).
Proof.
  apply keeps_statement. intros t b t' [H1 H2 H3 H4 H5] [= _ <-].
  assert (forall d', d' <> d -> is_Some (devices t !! d') -> is_Some (delete d (devices t) !! d')) as Hd
    by (intros d' Hne; by rewrite lookup_delete_ne).
  split; simpl.
  - intros d' [x [Hne Hx]%lookup_delete_Some]. apply Hd; [done|]. eauto.
  - intros d' p [x [Hx Hne]%map_lookup_filter_Some]. apply Hd; [done|]. eauto.
  - intros d' k p [x [Hx Hne]%map_lookup_filter_Some]. apply Hd; [done|]. eauto.
  - intros d' k [x [Hx Hne]%map_lookup_filter_Some]. apply Hd; [done|]. eauto.
  - intros id e [Hx Hne]%map_lookup_filter_Some. apply Hd; [done|]. eauto.
Qed.
Lemma belongs_upsert d status reported now t t' :
  belongs t -> upsert_status d status reported now t = Some (tt, t') -> belongs t'.
Proof.
  intros Ht. unfold upsert_status. destruct (devices t !! d) eqn:E; [|done]. intros [= <-].
  same_devices. intros d' H. destruct (decide (d' = d)) as [->|]; [by rewrite E; right; eexists|].
  rewrite lookup_insert_ne in H by done. by left.
Qed.
Lemma belongs_insert_program d p v t t' : belongs t ->
  insert_row d (d, p) v device_program_status set_program_status t = Some (tt, t') -> belongs t'.
Proof.
  intros Ht (Hd & _ & ->)%(insert_row_inv _ _). same_devices. intros d' p' H.
  destruct (decide ((d', p') = (d, p))) as [[= -> ->]|]; [by right|]. rewrite lookup_insert_ne in H by done. by left.
Qed.
Lemma belongs_insert_discovery d k p v t t' : belongs t ->
  insert_row d (d, k, p) v discoveries set_discoveries t = Some (tt, t') -> belongs t'.
Proof.
  intros Ht (Hd & _ & ->)%(insert_row_inv _ _). same_devices. intros d' k' p' H.
  destruct (decide ((d', k', p') = (d, k, p))) as [[= -> -> ->]|]; [by right|]. rewrite lookup_insert_ne in H by done. by left.
Qed.
Lemma belongs_insert_runtime d k v t t' : belongs t ->
  insert_row d (d, k) v model_runtimes set_model_runtimes t = Some (tt, t') -> belongs t'.
Proof.
  intros Ht (Hd & _ & ->)%(insert_row_inv _ _). same_devices. intros d' k' H.
  destruct (decide ((d', k') = (d, k))) as [[= -> ->]|]; [by right|]. rewrite lookup_insert_ne in H by done. by left.
Qed.
Lemma belongs_insert_event d id v t t' : ev_device v = d -> belongs t ->
  insert_row d id v telemetry_events set_telemetry_events t = Some (tt, t') -> belongs t'.
Proof.
  intros Hv Ht (Hd & _ & ->)%(insert_row_inv _ _). same_devices. intros id' e H.
  destruct (decide (id' = id)) as [->|]; [rewrite lookup_insert_eq in H; injection H as <-; rewrite Hv; by right|].
  rewrite lookup_insert_ne in H by done. by left.
Qed.
Lemma belongs_filter_programs (P : string * string * ProgramRow -> Prop) `{!forall x, Decision (P x)} t :
  belongs t -> belongs (set_program_status (filter P (device_program_status t)) t).
Proof. intros Ht. same_devices. intros d p [x [Hx _]%map_lookup_filter_Some]. left. by eexists. Qed.

Lemma keeps_config_state d status now : keeps belongs (update_device_config_state d status now).
Proof. apply keeps_statement. intros t [] t' Ht. by apply belongs_upsert. Qed.
Lemma keeps_config_status d status now : keeps belongs (update_config_status d status now).
Proof.
  apply keeps_bind; [apply keeps_lift|]. intros _.
  apply keeps_transaction, keeps_bind; [|intros _; apply keeps_bind; [|intros _]].
  - apply keeps_statement. intros t [] t' Ht. by apply belongs_upsert.
  - apply keeps_statement. intros t [] t' Ht [= <-]. by apply belongs_filter_programs.
  - apply keeps_iter. intros [i p] _. apply keeps_statement. intros t [] t' Ht. by apply belongs_insert_program.
Qed.
Lemma keeps_inventory d inventory : keeps belongs (replace_inventory d inventory).
Proof.
  apply keeps_transaction, keeps_bind; [|intros _; apply keeps_bind; [|intros _; apply keeps_bind; [|intros _]]].
  - apply keeps_statement. intros t [] t' Ht [= <-]. same_devices.
    intros d' k p [x [Hx _]%map_lookup_filter_Some]. left. by eexists.
  - apply keeps_iter. intros a _. apply keeps_bind; [apply keeps_lift|]. intros skills.
    apply keeps_statement. intros t [] t' Ht. by apply belongs_insert_discovery.
  - apply keeps_statement. intros t [] t' Ht [= <-]. same_devices.
    intros d' k [x [Hx _]%map_lookup_filter_Some]. left. by eexists.
  - apply keeps_iter. intros a _. apply keeps_statement. intros t [] t' Ht. by apply belongs_insert_runtime.
Qed.
Lemma keeps_telemetry d id event : keeps belongs (insert_telemetry d id event).
Proof.
  apply keeps_bind; [apply keeps_lift|]. intros [event_type payload].
  apply keeps_statement. intros t [] t' Ht. by apply belongs_insert_event.
Qed.
End codec.

(** ** A status replaces the one before *)

Section codec.
Context {C : RowCodec}.

Definition status_row (status : WireStatus) (reported now : Z) : ConfigRow :=
  {| cr_revision := i64_or_max (ws_revision status); cr_state := ws_state status;
     cr_error := ws_error status; cr_updated_at := now; cr_programs_reported := reported |}.
Definition program_row (status : WireStatus) (now : Z) (position : nat) (p : ProgramStatus) : ProgramRow :=
  {| pr_position := Z.of_nat position; pr_revision := i64_or_max (ws_revision status);
     pr_state := ps_state p; pr_detail := ps_detail p; pr_updated_at := now |}.
Definition program_rows (d : string) (status : WireStatus) (now : Z) : list (string * string * ProgramRow) :=
  map (fun e => ((d, ps_program (snd e)), program_row status now (fst e) (snd e)))
    (imap pair (ws_programs status)).

Lemma zip_map {A K V} (f : A -> K) (g : A -> V) l : zip (map f l) (map g l) = map (fun a => (f a, g a)) l.
Proof. induction l as [|a l IH]; simpl; [done|]. by rewrite IH. Qed.
Lemma Forall2_is_map {A B} (g : A -> B) l vs : Forall2 (fun a v => v = g a) l vs -> vs = map g l.
Proof. induction 1; simpl; by subst. Qed.

(** The tables after a status was stored: not at all, or whole. *)
Definition status_stored (d : string) (status : WireStatus) (now : Z) (t t' : FleetTables) : Prop :=
  exists base,
    is_Some (devices t !! d) /\ NoDup (map fst (program_rows d status now)) /\
    (forall k v, base !! k = Some v -> fst k <> d) /\
    t' = set_program_status (list_to_map (program_rows d status now) ∪ base)
      (set_config_status (<[d := status_row status (if ws_programs_reported status then 1 else 0) now]>
        (device_config_status t)) t).
Lemma status_statements d status now c c' :
  (statement "update configuration status"
      (upsert_status d status (Some (if ws_programs_reported status then 1 else 0)) now) ;*
    statement "delete program statuses" (fun t =>
      Some (tt, set_program_status
        (filter (fun row => fst (fst row) <> d) (device_program_status t)) t)) ;*
    st_iter (insert_program d (i64_or_max (ws_revision status)) now) (imap pair (ws_programs status))) c
  = (Ok tt, c') -> status_stored d status now (tables c) (tables c').
Proof.
  intros H.
  apply st_bind_inv in H as [(e & _ & ?)|([] & c2 & H1 & H)]; [done|].
  apply st_bind_inv in H as [(e & _ & ?)|([] & c3 & H2 & H)]; [done|].
  apply statement_cases in H1, H2. unfold upsert_status in H1.
  destruct (devices (tables c) !! d) as [row|] eqn:Hd; [|done]. injection H1 as H1. injection H2 as H2.
  apply (iter_inserts _ _ programs_table d _ (fun e => (d, ps_program (snd e)))
    (fun e v => v = program_row status now (fst e) (snd e))) in H as (vs & Hvs & Hnd & Hfresh & Ht4).
  - apply Forall2_is_map in Hvs. subst vs. rewrite zip_map in Ht4.
    change (map (fun a => _) (imap pair (ws_programs status))) with (program_rows d status now) in Ht4.
    rewrite <- H2, <- H1 in Ht4. simpl in Ht4.
    eexists. split; [by eexists|]. split; [|split; [|exact Ht4]].
    + unfold program_rows. rewrite map_map. exact Hnd.
    + intros k v [_ Hk]%map_lookup_filter_Some. exact Hk.
  - intros [i p] c4 c6 Hi. apply statement_cases in Hi. eexists. split; [done|exact Hi].
Qed.
Lemma update_config_status_inv d status now c r c' :
  update_config_status d status now c = (r, c') ->
  (r <> Ok tt /\ tables c' = tables c) \/ status_stored d status now (tables c) (tables c').
Proof.
  intros H. unfold update_config_status in H.
  apply st_bind_inv in H as [(e & H & ->)|([] & c1 & [_ ->]%db_lift_inv & H)].
  - left. split; [done|]. unfold db_lift in H. congruence.
  - apply transaction_cases in H as (c0 & Ht0 & H). destruct r as [[]|e].
    + destruct H as (c5 & H%status_statements & ->). right. by rewrite Ht0 in H.
    + destruct H as [->|([] & c5 & H%status_statements & ->)]; [by left|]. right. by rewrite Ht0 in H.
Qed.

Lemma program_rows_sorted d status now :
  StronglySorted (before (fun a b : string * string * ProgramRow =>
    pr_position (snd a) <=? pr_position (snd b))) (program_rows d status now).
Proof.
  unfold program_rows.
  assert (forall n l, StronglySorted (before (fun a b : string * string * ProgramRow =>
      pr_position (snd a) <=? pr_position (snd b)))
    (map (fun e => ((d, ps_program (snd e)), program_row status now (fst e) (snd e)))
      (imap (fun i p => (n + i, p)%nat) l))) as Hall; [|exact (Hall 0%nat _)].
  intros n l. revert n. induction l as [|p l IH]; intros n; simpl; [constructor|].
  assert (imap ((fun i p => (n + i, p)%nat) ∘ S) l = imap (fun i p => (S n + i, p)%nat) l) as ->
    by (apply imap_ext; intros i x _; simpl; f_equal; lia).
  constructor; [apply IH|]. apply Forall_forall. intros row (e & -> & He)%list_elem_of_fmap.
  apply elem_of_lookup_imap_1 in He as (i & q & -> & _). unfold before. simpl. apply Z.leb_gt. lia.
Qed.

Lemma device_programs_after d status now (t : FleetTables) base :
  NoDup (map fst (program_rows d status now)) -> (forall k v, base !! k = Some v -> fst k <> d) ->
  device_program_status t = list_to_map (program_rows d status now) ∪ base ->
  device_programs d t = program_rows d status now.
Proof.
  intros Hnd Hbase Ht. unfold device_programs. apply sorted_unique.
  - intros x y H%Z.leb_gt. apply Z.leb_le. lia.
  - intros x y z H1%Z.leb_le H2%Z.leb_le. apply Z.leb_le. lia.
  - rewrite Ht. set (rows := program_rows d status now) in *.
    assert (rows = zip (map fst rows) (map snd rows)) as Hz by (rewrite zip_map; clear; induction rows as [|[k v] l IH]; simpl; congruence).
    rewrite Hz. apply (device_rows (fst : string * string -> string)); [by rewrite !length_map|done| |done].
    intros k (row & -> & Hrow)%list_elem_of_fmap. unfold rows, program_rows in Hrow.
    by apply list_elem_of_fmap in Hrow as (e & -> & _).
  - apply program_rows_sorted.
Qed.

(** What a device's page shows. *)
Lemma get_device_inv d c o c' : get_device d c = (Ok o, c') ->
  tables c' = tables c /\
  match o with
  | None => devices (tables c) !! d = None
  | Some detail =>
      exists row, devices (tables c) !! d = Some row /\
        dt_device detail = with_tools (map dd_kind (dt_discoveries detail)) (device_summary (tables c) d row) /\
        collect read_discovery (device_discoveries d (tables c)) = Ok (dt_discoveries detail) /\
        collect read_runtime (device_runtimes d (tables c)) = Ok (dt_model_runtimes detail) /\
        collect read_event (take 50 (device_events d (tables c))) = Ok (dt_recent_events detail) /\
        dt_programs detail = map read_program (device_programs d (tables c)) /\
        dt_programs_reported detail
        = (fun reported => negb (reported =? 0)) <$> (cr_programs_reported <$> device_config_status (tables c) !! d)
  end.
Proof.
  intros H. unfold get_device in H.
  apply st_bind_inv in H as [(e & _ & ?)|(device & c1 & Hq & H)]; [done|].
  apply query_tables in Hq as [Ht1 Hq]. specialize (Hq _ eq_refl). injection Hq as Hq.
  destruct (devices (tables c) !! d) as [row|] eqn:Hrow; simpl in Hq; subst device;
    [|injection H as <- <-; done].
  apply st_bind_inv in H as [(e & _ & ?)|(rows1 & c2 & Hq & H)]; [done|].
  apply query_tables in Hq as [Ht2 Hq]. specialize (Hq _ eq_refl). injection Hq as <-.
  apply st_bind_inv in H as [(e & _ & ?)|(found & c3 & [Hf ->]%db_lift_inv & H)]; [done|].
  apply st_bind_inv in H as [(e & _ & ?)|(rows2 & c4 & Hq & H)]; [done|].
  apply query_tables in Hq as [Ht4 Hq]. specialize (Hq _ eq_refl). injection Hq as <-.
  apply st_bind_inv in H as [(e & _ & ?)|(runtimes & c5 & [Hr ->]%db_lift_inv & H)]; [done|].
  apply st_bind_inv in H as [(e & _ & ?)|(events & c6 & He & H)]; [done|].
  apply st_bind_inv in He as [(e & _ & ?)|(rows3 & c7 & Hq & He)]; [done|].
  apply query_tables in Hq as [Ht7 Hq]. specialize (Hq _ eq_refl). injection Hq as <-.
  apply db_lift_inv in He as [He ->].
  apply st_bind_inv in H as [(e & _ & ?)|(reported & c8 & Hq & H)]; [done|].
  apply query_tables in Hq as [Ht8 Hq]. specialize (Hq _ eq_refl). injection Hq as <-.
  apply st_bind_inv in H as [(e & _ & ?)|(rows4 & c9 & Hq & H)]; [done|].
  apply query_tables in Hq as [Ht9 Hq]. specialize (Hq _ eq_refl). injection Hq as <-.
  injection H as <- <-. rewrite Ht8, Ht7, Ht4, Ht2, Ht1 in *. rewrite Ht9. split; [done|].
  exists row. simpl. done.
Qed.
End codec.
