(* ===== verification/ControllerOidc.v ===== *)
(** * Enrollment and sign-in at the controller ([crates/controller/src/oidc.rs])

    Enrollments wait in a map until they are completed or expire; a completed one names
    the user that both the ID token and the access token belong to. The identity
    provider is a third party: what it answers is an argument of each call. Checking a
    signature and the standard claims is [jsonwebtoken]'s ([JwtOps]); building and
    reading URLs is [url]'s. Instants are nanoseconds. *)

From S2P Require Import Prelude Str Json Config.

(** [jsonwebtoken]: the header of a token, and its claims once its signature, issuer,
    audience and required claims are valid for a key. The rest of the claims is what
    the token has besides [sub] and [nonce]. *)
Record JwtHeader : Type := { jh_alg : string; jh_kid : option string }.
Record Jwk : Type := { jk_kid : option string; jk_key : string }.
Record IdTokenClaims : Type := {
  ic_sub : string;
  ic_nonce : option string;
  ic_additional : gmap string value;
}.
Class JwtOps : Type := {
  decode_header : string -> result JwtHeader string;
  (** by key, algorithm, issuer and audience *)
  decode_token : Jwk -> string -> string -> string -> string -> result IdTokenClaims string;
}.
Class UrlBuilder : Type := {
  with_query : string -> list (string * string) -> string;
  is_url : string -> bool;
}.

Definition ENROLLMENT_LIFETIME : Z := secs (10 * 60).
Definition MAX_PENDING_ENROLLMENTS : nat := 1024.
Definition JWKS_REFRESH_COOLDOWN : Z := secs 30.
Definition ENROLLMENT_SCOPE : string := "openid profile email offline_access".
Definition DEFAULT_DEVICE_POLL_INTERVAL : Z := 5.

Record PendingEnrollment : Type := {
  pe_hostname : string;
  pe_nonce : option string;
  pe_expires_at : Z;
}.
Record Provider : Type := {
  op_issuer : string;
  op_client_id : string;
  op_redirect_uri : string;
  op_authorization_endpoint : string;
  op_token_endpoint : string;
  op_device_authorization_endpoint : option string;
}.
Record BeginEnrollmentResponse : Type := {
  be_enrollment_id : string;
  be_authorization_url : string;
  be_state : string;
  be_redirect_uri : string;
  be_token_endpoint : string;
  be_client_id : string;
  be_device_code : string;
  be_user_code : string;
  be_verification_uri : string;
  be_verification_uri_complete : string;
  be_interval_seconds : Z;
  be_expires_in_seconds : Z;
}.

Abbreviation pendings := (gmap string PendingEnrollment).

(** ** Pending enrollments *)

(** [insert_pending], at the instant [now]. *)
Definition unexpired (now : Z) (pending : pendings) : pendings :=
  filter (fun entry => now < pe_expires_at (snd entry)) pending.
Definition insert_pending (enrollment_id hostname : string) (nonce : option string) (lifetime now : Z)
  : ST pendings string unit := fun pending =>
  let pending := unexpired now pending in
  if Nat.leb MAX_PENDING_ENROLLMENTS (size pending) then (Err "too many pending enrollments", pending)
  else (Ok tt,
    <[enrollment_id := {| pe_hostname := hostname; pe_nonce := nonce; pe_expires_at := now + lifetime |}]>
      pending).
(** [release_pending] and [set_pending_expiry]. *)
Definition release_pending (enrollment_id : string) (pending : pendings) : pendings :=
  delete enrollment_id pending.
Definition set_pending_expiry (enrollment_id : string) (lifetime now : Z) (pending : pendings) : pendings :=
  alter (fun e => {| pe_hostname := pe_hostname e; pe_nonce := pe_nonce e;
                     pe_expires_at := now + lifetime |}) enrollment_id pending.

Definition is_challenge_byte (a : ascii) : bool :=
  is_ascii_alphanumeric a || Ascii.eqb a "-" || Ascii.eqb a "_".

Section provider.
Context {U : UrlBuilder} (op : Provider).

(** The random secrets of one [begin]. *)
Record Secrets : Type := { sc_enrollment_id : string; sc_state : string; sc_nonce : string }.

(** [begin]. *)
Definition begin (hostname code_challenge : string) (s : Secrets) (now : Z)
  : ST pendings string BeginEnrollmentResponse :=
  if is_empty (trim hostname) then st_err "hostname is required"
  else if negb (Nat.eqb (String.length code_challenge) 43 && str_all is_challenge_byte code_challenge)
  then st_err "invalid PKCE code challenge"
  else
    let authorization_url := with_query (op_authorization_endpoint op)
      [("response_type", "code"); ("scope", ENROLLMENT_SCOPE); ("client_id", op_client_id op);
       ("redirect_uri", op_redirect_uri op); ("state", sc_state s); ("nonce", sc_nonce s);
       ("code_challenge", code_challenge); ("code_challenge_method", "S256")] in
    insert_pending (sc_enrollment_id s) hostname (Some (sc_nonce s)) ENROLLMENT_LIFETIME now ;*
    st_ret
      {| be_enrollment_id := sc_enrollment_id s; be_authorization_url := authorization_url;
         be_state := sc_state s; be_redirect_uri := op_redirect_uri op;
         be_token_endpoint := op_token_endpoint op; be_client_id := op_client_id op;
         be_device_code := ""; be_user_code := ""; be_verification_uri := "";
         be_verification_uri_complete := ""; be_interval_seconds := 0; be_expires_in_seconds := 0 |}.

Record DeviceAuthorizationResponse : Type := {
  da_device_code : string;
  da_user_code : string;
  da_verification_uri : string;
  da_verification_uri_complete : option string;
  da_expires_in : Z;
  da_interval : option Z;
}.
(** [device_enrollment_response]: the response and how long the enrollment is pending. *)
Definition device_enrollment_response (enrollment_id : string) (device : DeviceAuthorizationResponse)
  : result (BeginEnrollmentResponse * Z) string :=
  if is_empty (da_device_code device) || is_empty (da_user_code device)
  then Err "OIDC device authorization response has no device or user code"
  else if negb (is_url (da_verification_uri device)) then Err "OIDC device verification URI is invalid"
  else
    let lifetime := Z.min (secs (da_expires_in device)) ENROLLMENT_LIFETIME in
    if lifetime =? 0 then Err "OIDC device authorization has already expired"
    else Ok
      ({| be_enrollment_id := enrollment_id; be_authorization_url := ""; be_state := "";
          be_redirect_uri := ""; be_token_endpoint := op_token_endpoint op;
          be_client_id := op_client_id op; be_device_code := da_device_code device;
          be_user_code := da_user_code device; be_verification_uri := da_verification_uri device;
          be_verification_uri_complete :=
            default "" (option_filter is_url (da_verification_uri_complete device));
          be_interval_seconds :=
            default DEFAULT_DEVICE_POLL_INTERVAL (option_filter (fun i => 0 <? i) (da_interval device));
          be_expires_in_seconds := lifetime / 1000000000 |}, lifetime).

(** [begin_device] up to the request of the identity provider, which is sent once a slot
    is reserved; and from its answer on. *)
Definition begin_device_reserve (hostname enrollment_id : string) (now : Z) : ST pendings string string :=
  if is_empty (trim hostname) then st_err "hostname is required"
  else match op_device_authorization_endpoint op with
       | None => st_err "OIDC provider does not support device authorization"
       | Some endpoint => insert_pending enrollment_id hostname None ENROLLMENT_LIFETIME now ;* st_ret endpoint
       end.
Definition begin_device_answer (enrollment_id : string)
    (answer : result DeviceAuthorizationResponse string) (now : Z)
  : ST pendings string BeginEnrollmentResponse := fun pending =>
  match (let? device := answer in device_enrollment_response enrollment_id device) with
  | Ok (response, lifetime) => (Ok response, set_pending_expiry enrollment_id lifetime now pending)
  | Err error => (Err error, release_pending enrollment_id pending)
  end.
End provider.

(** ** Signing keys *)

(** [JwksCache]: the keys and when they were last asked for; the times of all fetches
    are recorded. *)
Record JwksCache : Type := {
  jc_keys : list Jwk;
  jc_refresh : option Z;
  jc_fetches : list Z;
}.
Definition cached_key (c : JwksCache) (kid : string) : option Jwk :=
  find (fun k => bool_decide (jk_kid k = Some kid)) (jc_keys c).
(** [key_for_with] while it holds the refresh gate; [fetched] is what the identity
    provider answers if it is asked. *)
Definition refresh_key (kid : string) (now : Z) (fetched : result (list Jwk) string)
  : ST JwksCache string Jwk := fun c =>
  match cached_key c kid with
  | Some key => (Ok key, c)
  | None =>
      if is_some_and (fun last_attempt => Z.max 0 (now - last_attempt) <? JWKS_REFRESH_COOLDOWN) (jc_refresh c)
      then (Err "ID token refers to an unknown key; OIDC JWKS refresh is rate limited", c)
      else
        let c := {| jc_keys := jc_keys c; jc_refresh := Some now; jc_fetches := now :: jc_fetches c |} in
        match fetched with
        | Err e => (Err (context "refresh OIDC JWKS after unknown key" e), c)
        | Ok keys =>
            let c := {| jc_keys := keys; jc_refresh := jc_refresh c; jc_fetches := jc_fetches c |} in
            (ok_or (cached_key c kid) "ID token refers to an unknown key after refreshing OIDC JWKS", c)
        end
  end.
(** [fetch_jwks]: an empty key set is an error. *)
Definition fetch_jwks (answer : result (list Jwk) string) : result (list Jwk) string :=
  let? keys := answer in
  match keys with [] => Err "OIDC JWKS is empty" | _ => Ok keys end.
(** [key_for_with]: the cache is read, and, without the key, again once the gate is
    held; [waited] is what other requests do to the cache meanwhile. *)
Definition key_for (kid : string) (waited : JwksCache -> JwksCache) (now : Z)
    (fetched : result (list Jwk) string) : ST JwksCache string Jwk := fun c =>
  match cached_key c kid with
  | Some key => (Ok key, c)
  | None => refresh_key kid now (fetch_jwks fetched) (waited c)
  end.

(** ** Access tokens *)

Record OidcPrincipal : Type := { pn_issuer : string; pn_subject : string }.
#[global] Instance OidcPrincipal_eq_dec : EqDecision OidcPrincipal.
Proof. solve_decision. Defined.

(** The UserInfo endpoint's answer: none, or a status and the subject of the body where
    it has one. *)
Inductive UserInfoAnswer : Type :=
| NoAnswer
| Answered (status : Z) (subject : option string).
(** A [reqwest::Error] with its status, or another error. *)
Inductive AccessError : Type :=
| RequestError (status : option Z)
| OtherError (message : string).

(** [authenticate_access_token]. *)
Definition authenticate_access_token (op : Provider) (access_token : string) (answer : UserInfoAnswer)
  : result OidcPrincipal AccessError :=
  if is_empty access_token then Err (OtherError "access token is required")
  else match answer with
  | NoAnswer => Err (RequestError None)
  | Answered status subject =>
      if (400 <=? status) && (status <=? 599) then Err (RequestError (Some status))
      else match subject with
           | None => Err (RequestError None)
           | Some subject =>
               if is_empty subject then Err (OtherError "OIDC UserInfo response has no subject")
               else Ok {| pn_issuer := op_issuer op; pn_subject := subject |}
           end
  end.

(** ** Completing an enrollment *)

Record CompletedEnrollment : Type := {
  cm_hostname : string;
  cm_issuer : string;
  cm_subject : string;
  cm_idp_claims : gmap string value;
}.
(** What the identity provider answers and the clocks read while one call runs. *)
Record CompletionEnv : Type := {
  cv_now : Z;
  cv_key_waited : JwksCache -> JwksCache;
  cv_key_now : Z;
  cv_fetched : result (list Jwk) string;
  cv_userinfo : UserInfoAnswer;
}.
Record OidcState : Type := { os_pending : pendings; os_jwks : JwksCache }.

(** [.map_err] of the errors of the tokens, which [complete]'s caller answers alike. *)
Definition access_error (e : AccessError) : string :=
  match e with RequestError _ => "query OIDC UserInfo endpoint" | OtherError m => m end.

(** The checks of [complete] on the tokens of a pending enrollment. *)
Definition verify_tokens `{JwtOps} (op : Provider) (pending : PendingEnrollment) (claims : IdTokenClaims)
    (access_token : string) (answer : UserInfoAnswer) : result CompletedEnrollment string :=
  if match pe_nonce pending with
     | Some expected => negb (bool_decide (ic_nonce claims = Some expected))
     | None => false
     end
  then Err "OIDC nonce mismatch"
  else
    let? access_principal := map_err access_error (authenticate_access_token op access_token answer) in
    if negb (String.eqb (pn_subject access_principal) (ic_sub claims))
    then Err "access token and ID token subjects do not match"
    else
      let idp_claims := <["sub" := VString (ic_sub claims)]> (ic_additional claims) in
      Ok {| cm_hostname := pe_hostname pending; cm_issuer := pn_issuer access_principal;
            cm_subject := pn_subject access_principal;
            cm_idp_claims := match ic_nonce claims with
                             | Some nonce => <["nonce" := VString nonce]> idp_claims
                             | None => idp_claims
                             end |}.
(** [complete]. The enrollment is taken out first, whatever follows. *)
Definition complete `{JwtOps} (op : Provider) (enrollment_id id_token access_token : string)
    (env : CompletionEnv) : ST OidcState string CompletedEnrollment := fun st =>
  let taken := {| os_pending := delete enrollment_id (os_pending st); os_jwks := os_jwks st |} in
  match os_pending st !! enrollment_id with
  | None => (Err "unknown or already completed enrollment", taken)
  | Some pending =>
      if pe_expires_at pending <=? cv_now env then (Err "enrollment expired", taken)
      else if is_empty id_token || is_empty access_token
      then (Err "ID token and access token are required", taken)
      else match (let? header := decode_header id_token in
                  let? kid := ok_or (jh_kid header) "ID token has no key ID" in Ok (header, kid)) with
           | Err e => (Err e, taken)
           | Ok (header, kid) =>
               let '(key, jwks) := key_for kid (cv_key_waited env) (cv_key_now env) (cv_fetched env) (os_jwks st) in
               (let? key := key in
                let? claims := decode_token key (jh_alg header) (op_issuer op) (op_client_id op) id_token in
                verify_tokens op pending claims access_token (cv_userinfo env),
                {| os_pending := os_pending taken; os_jwks := jwks |})
           end
  end.
