(* ===== verification/ControllerEnrollment.v ===== *)
(** * Enrollments and signing keys over the controller's life

    [ControllerOidc] used by any number of callers, as step relations: what can be
    pending, what a completed enrollment went through, and how often the identity
    provider is asked for keys. *)

From S2P Require Import Prelude Str Json Config ControllerOidc.

(** ** Enrollments *)

(** What happened: an enrollment began (with a nonce in a browser), or was completed. *)
Inductive event : Type :=
| Begun (enrollment_id hostname : string) (nonce : option string) (at_ : Z)
| Completed (enrollment_id : string) (enrollment : CompletedEnrollment) (at_ : Z).
Definition begun_ids (log : list event) : list string :=
  filter_map (fun e => match e with Begun id _ _ _ => Some id | _ => None end) log.
Definition completed_ids (log : list event) : list string :=
  filter_map (fun e => match e with Completed id _ _ => Some id | _ => None end) log.

Section steps.
Context {U : UrlBuilder} {J : JwtOps} (op : Provider).

(** The calls, at any times and with any answers of the identity provider. Secrets are
    new: they are 256 random bits. *)
Inductive step : OidcState * list event -> OidcState * list event -> Prop :=
| step_begin st log hostname challenge s now r pending :
    sc_enrollment_id s ∉ begun_ids log ->
    begin op hostname challenge s now (os_pending st) = (r, pending) ->
    step (st, log) ({| os_pending := pending; os_jwks := os_jwks st |},
                    if is_ok r then Begun (sc_enrollment_id s) hostname (Some (sc_nonce s)) now :: log else log)
| step_reserve st log hostname enrollment_id now r pending :
    enrollment_id ∉ begun_ids log ->
    begin_device_reserve op hostname enrollment_id now (os_pending st) = (r, pending) ->
    step (st, log) ({| os_pending := pending; os_jwks := os_jwks st |},
                    if is_ok r then Begun enrollment_id hostname None now :: log else log)
| step_answer st log hostname enrollment_id at_ answer now r pending :
    Begun enrollment_id hostname None at_ ∈ log ->
    begin_device_answer op enrollment_id answer now (os_pending st) = (r, pending) ->
    step (st, log) ({| os_pending := pending; os_jwks := os_jwks st |}, log)
| step_complete st log enrollment_id id_token access_token env r st' :
    complete op enrollment_id id_token access_token env st = (r, st') ->
    step (st, log) (st', match r with
                         | Ok done => Completed enrollment_id done (cv_now env) :: log
                         | Err _ => log end).
End steps.

Lemma begun_id id hostname nonce at_ log : Begun id hostname nonce at_ ∈ log -> id ∈ begun_ids log.
Proof. intros H. apply elem_of_filter_map. by eexists. Qed.

Lemma begun_unique log id h n a h' n' a' : NoDup (begun_ids log) ->
  Begun id h n a ∈ log -> Begun id h' n' a' ∈ log -> h = h' /\ n = n' /\ a = a'.
Proof.
  induction log as [|e log IH]; intros Hnd Hb Hb'; [by apply not_elem_of_nil in Hb|].
  assert (NoDup (begun_ids log)) as Hnd' by (destruct e; [by apply NoDup_cons in Hnd as [_ ?]|done]).
  apply elem_of_cons in Hb as [Hb|Hb]; apply elem_of_cons in Hb' as [Hb'|Hb']; [by simplify_eq|..|by apply IH];
    subst e; apply NoDup_cons in Hnd as [Hout _]; exfalso; apply Hout; by eapply begun_id.
Qed.

(** A pending enrollment began, was not completed, and in a browser expires ten minutes
    after it began; a completed one began before, for the same host. *)
Record history (st : OidcState) (log : list event) : Prop := {
  hs_size : (size (os_pending st) <= MAX_PENDING_ENROLLMENTS)%nat;
  hs_begun : NoDup (begun_ids log);
  hs_pending id p : os_pending st !! id = Some p ->
    (id ∉ completed_ids log) /\
    exists at_, Begun id (pe_hostname p) (pe_nonce p) at_ ∈ log /\
      (is_Some (pe_nonce p) -> pe_expires_at p = at_ + ENROLLMENT_LIFETIME);
  hs_completed : NoDup (completed_ids log);
  hs_done id d now : Completed id d now ∈ log ->
    exists nonce at_, Begun id (cm_hostname d) nonce at_ ∈ log /\
      (is_Some nonce -> now < at_ + ENROLLMENT_LIFETIME);
}.

Lemma size_filter_le {K A} `{Countable K} (P : K * A -> Prop) `{!forall x, Decision (P x)} (m : gmap K A) :
  (size (filter P m) <= size m)%nat.
Proof. apply map_subseteq_size, map_filter_subseteq. Qed.

Lemma insert_pending_inv id hostname nonce lifetime now pending r pending' :
  insert_pending id hostname nonce lifetime now pending = (r, pending') ->
  match r with
  | Ok _ => pending' = <[id := {| pe_hostname := hostname; pe_nonce := nonce; pe_expires_at := now + lifetime |}]>
                         (unexpired now pending) /\ (size (unexpired now pending) < MAX_PENDING_ENROLLMENTS)%nat
  | Err _ => pending' = unexpired now pending
  end.
Proof.
  unfold insert_pending. destruct (Nat.leb_spec MAX_PENDING_ENROLLMENTS (size (unexpired now pending)));
    intros [= <- <-]; [done|by split].
Qed.

Lemma history_sub st log pending :
  (forall id p, pending !! id = Some p -> os_pending st !! id = Some p) -> history st log ->
  history {| os_pending := pending; os_jwks := os_jwks st |} log.
Proof.
  intros Hsub [H1 H2 H3 H4 H5]. split; simpl; [|done|by eauto|done|done].
  etrans; [apply map_subseteq_size|exact H1]. apply map_subseteq_spec. exact Hsub.
Qed.
Lemma unexpired_sub now pending id p : unexpired now pending !! id = Some p -> pending !! id = Some p.
Proof. by intros [H _]%map_lookup_filter_Some. Qed.

Lemma history_insert st log id hostname nonce now :
  history st log -> id ∉ begun_ids log ->
  (size (unexpired now (os_pending st)) < MAX_PENDING_ENROLLMENTS)%nat ->
  history {| os_pending := <[id := {| pe_hostname := hostname; pe_nonce := nonce;
                                      pe_expires_at := now + ENROLLMENT_LIFETIME |}]>
                             (unexpired now (os_pending st)); os_jwks := os_jwks st |}
          (Begun id hostname nonce now :: log).
Proof.
  intros [H1 H2 H3 H4 H5] Hnew Hsize.
  assert (id ∉ completed_ids log) as Hnc.
  { intros (e & He & Hid)%elem_of_filter_map. destruct e as [|id' d at_]; simplify_eq/=.
    destruct (H5 _ _ _ He) as (nonce' & at' & Hb & _). by apply Hnew, (begun_id _ _ _ _ _ Hb). }
  split; simpl.
  - rewrite map_size_insert. case_match; unfold Datatypes.id; lia.
  - by constructor.
  - intros id' p [(<- & <-)|(Hne & Hp%unexpired_sub)]%lookup_insert_Some.
    + split; [done|]. simpl. exists now. split; [by left|done].
    + destruct (H3 id' p Hp) as [Hc (at_ & Hb & He)]. split; [done|]. exists at_. split; [by right|done].
  - done.
  - intros id' d at_ [?|Hd]%elem_of_cons; [done|]. destruct (H5 id' d at_ Hd) as (n & a & Hb & He).
    exists n, a. split; [by right|done].
Qed.

Section steps.
Context {U : UrlBuilder} {J : JwtOps} (op : Provider).

Lemma complete_inv enrollment_id id_token access_token env st r st' :
  complete op enrollment_id id_token access_token env st = (r, st') ->
  os_pending st' = delete enrollment_id (os_pending st) /\
  forall done, r = Ok done ->
    exists pending header kid key claims,
      os_pending st !! enrollment_id = Some pending /\ cv_now env < pe_expires_at pending /\
      decode_header id_token = Ok header /\ jh_kid header = Some kid /\
      fst (key_for kid (cv_key_waited env) (cv_key_now env) (cv_fetched env) (os_jwks st)) = Ok key /\
      decode_token key (jh_alg header) (op_issuer op) (op_client_id op) id_token = Ok claims /\
      verify_tokens op pending claims access_token (cv_userinfo env) = Ok done.
Proof.
  unfold complete. destruct (os_pending st !! enrollment_id) as [pending|] eqn:Hp; [|intros [= <- <-]; split; [done|by intros ?]].
  destruct (Z.leb_spec (pe_expires_at pending) (cv_now env)) as [|Hlt]; [intros [= <- <-]; split; [done|by intros ?]|].
  destruct (_ || _); [intros [= <- <-]; split; [done|by intros ?]|].
  destruct (decode_header id_token) as [header|e] eqn:Hh; [|intros [= <- <-]; split; [done|by intros ?]].
  destruct (jh_kid header) as [kid|] eqn:Hk; [|intros [= <- <-]; split; [done|by intros ?]]. cbn.
  destruct (key_for _ _ _ _ _) as [[key|e] jwks] eqn:Hkey; [|intros [= <- <-]; split; [done|by intros ?]].
  destruct (decode_token _ _ _ _ _) as [claims|e] eqn:Hc; intros [= <- <-]; (split; [done|]); [|by intros ?].
  intros done Hd. exists pending, header, kid, key, claims. by rewrite Hkey.
Qed.
Lemma verify_tokens_inv pending claims access_token answer d :
  verify_tokens op pending claims access_token answer = Ok d ->
  (forall expected, pe_nonce pending = Some expected -> ic_nonce claims = Some expected) /\
  authenticate_access_token op access_token answer
  = Ok {| pn_issuer := cm_issuer d; pn_subject := cm_subject d |} /\
  cm_subject d = ic_sub claims /\ cm_issuer d = op_issuer op /\ cm_subject d <> "" /\
  cm_hostname d = pe_hostname pending /\ cm_idp_claims d !! "sub" = Some (VString (cm_subject d)).
Proof.
  unfold verify_tokens. destruct (match pe_nonce pending with Some _ => _ | None => _ end) eqn:Hn; [done|].
  destruct (authenticate_access_token op access_token answer) as [p|e] eqn:Ha; simpl; [|done].
  destruct (String.eqb_spec (pn_subject p) (ic_sub claims)) as [Hs|]; simpl; [|done]. intros [= <-]. simpl.
  split; [|split; [|split; [|split; [|split; [|split]]]]].
  - intros expected Hp. rewrite Hp in Hn. apply negb_false_iff, bool_decide_eq_true in Hn. done.
  - by destruct p.
  - done.
  - unfold authenticate_access_token in Ha. repeat case_match; simplify_eq/=; done.
  - unfold authenticate_access_token in Ha. intros E. repeat case_match; simplify_eq/=; by rewrite E in *.
  - done.
  - rewrite Hs. destruct (ic_nonce claims); by rewrite ?lookup_insert_ne, lookup_insert_eq by done.
Qed.

Lemma step_history st log st' log' : step op (st, log) (st', log') -> history st log -> history st' log'.
Proof.
  intros Hstep Hh. inversion Hstep as [? ? hostname challenge s now r pending Hnew Hrun|
    ? ? hostname id now r pending Hnew Hrun|? ? hostname id at_ answer now r pending Hb Hrun|
    ? ? id id_token access_token env r ? Hrun]; subst; clear Hstep.
  - unfold begin in Hrun. destruct (is_empty (trim hostname)); [injection Hrun as <- <-; by destruct st|].
    destruct (negb _); [injection Hrun as <- <-; by destruct st|].
    apply st_bind_inv in Hrun as [(e & Hi%insert_pending_inv & ->)|([] & p1 & Hi%insert_pending_inv & [= <- <-])].
    + subst. apply history_sub; [|done]. apply unexpired_sub.
    + destruct Hi as [-> Hsize]. by apply history_insert.
  - unfold begin_device_reserve in Hrun. destruct (is_empty (trim hostname)); [injection Hrun as <- <-; by destruct st|].
    destruct (op_device_authorization_endpoint op); [|injection Hrun as <- <-; by destruct st].
    apply st_bind_inv in Hrun as [(e & Hi%insert_pending_inv & ->)|([] & p1 & Hi%insert_pending_inv & [= <- <-])].
    + subst. apply history_sub; [|done]. apply unexpired_sub.
    + destruct Hi as [-> Hsize]. by apply history_insert.
  - unfold begin_device_answer in Hrun.
    destruct (match answer with Ok device => _ | Err e => _ end) as [[response lifetime]|e];
      injection Hrun as <- <-.
    + destruct Hh as [H1 H2 H3 H4 H5]. split; simpl; [|done| |done|done].
      { unfold set_pending_expiry. rewrite <- (size_dom (alter _ _ _)), dom_alter_L, size_dom. done. }
      intros id' p Hp. unfold set_pending_expiry in Hp.
      destruct (decide (id' = id)) as [->|Hne]; [|rewrite lookup_alter_ne in Hp by done; by apply H3].
      rewrite lookup_alter_eq in Hp. destruct (os_pending st !! id) as [p0|] eqn:E; simplify_eq/=.
      destruct (H3 id p0 E) as [Hc (at' & Hb' & He)]. split; [done|]. exists at'. split; [done|].
      intros [nonce Hnonce]. exfalso. rewrite Hnonce in Hb'.
      by destruct (begun_unique _ _ _ _ _ _ _ _ H2 Hb Hb') as (_ & ? & _).
    + apply history_sub; [|done]. intros id' p Hp. unfold release_pending in Hp.
      by apply lookup_delete_Some in Hp as [_ Hp].
  - apply complete_inv in Hrun as [Hpend Hok].
    assert (history st' log) as Hh'.
    { assert (st' = {| os_pending := os_pending st'; os_jwks := os_jwks st' |}) as -> by by destruct st'.
      assert (forall jwks, history st log -> history {| os_pending := os_pending st; os_jwks := jwks |} log) as Hj.
      { intros jwks [H1 H2 H3 H4 H5]. by split. }
      apply (history_sub {| os_pending := os_pending st; os_jwks := os_jwks st' |}); [|by apply Hj].
      intros id' p Hp. rewrite Hpend in Hp. by apply lookup_delete_Some in Hp as [_ Hp]. }
    destruct r as [d|e]; [|done]. destruct (Hok d eq_refl) as (pending & header & kid & key & claims & Hp & Hlt & _ & _ & _ & _ & Hv).
    apply verify_tokens_inv in Hv as (_ & _ & _ & _ & _ & Hhost & _).
    destruct (hs_pending _ _ Hh _ _ Hp) as [Hnc (at_ & Hb & He)]. destruct Hh' as [H1 H2 H3 H4 H5].
    split; simpl; [done|done| |by constructor|].
    + intros id' p' Hp'. assert (id' <> id) by (intros ->; rewrite Hpend, lookup_delete_eq in Hp'; done).
      destruct (H3 id' p' Hp') as [Hc (at' & Hb' & He')]. split; [by intros [?|?]%elem_of_cons|].
      exists at'. split; [by right|done].
    + intros id' d' now' [[= -> -> ->]|Hd]%elem_of_cons.
      * exists (pe_nonce pending), at_. rewrite Hhost. split; [by right|]. intros Hn. rewrite <- He; done.
      * destruct (H5 id' d' now' Hd) as (n & a & Hb' & He'). exists n, a. split; [by right|done].
Qed.
End steps.

(** C31. An enrollment completes at most once, for the host it began for, and a browser's
    within ten minutes: over any sequence of calls to the controller, at any times, with
    any tokens and any answers of the identity provider, no more than 1,024 enrollments
    are pending, no enrollment is completed twice or while it is still pending, and each
    completed one began before. *)
Theorem enrollments_complete_once {U : UrlBuilder} {J : JwtOps} (op : Provider) jwks st log :
  rtc (step op) ({| os_pending := ∅; os_jwks := jwks |}, []) (st, log) ->
  (size (os_pending st) <= MAX_PENDING_ENROLLMENTS)%nat /\
  NoDup (completed_ids log) /\
  (forall id, id ∈ completed_ids log -> os_pending st !! id = None) /\
  forall id enrollment now, Completed id enrollment now ∈ log ->
    exists nonce at_, Begun id (cm_hostname enrollment) nonce at_ ∈ log /\
      (is_Some nonce -> now < at_ + ENROLLMENT_LIFETIME).
Proof.
  intros Hsteps.
  assert (forall a b, rtc (step op) a b -> history (fst a) (snd a) -> history (fst b) (snd b)) as Hinv.
  { intros a b. induction 1 as [a|[sa la] [sb lb] b Hstep _ IH]; [done|]. intros Ha. by eapply IH, step_history. }
  destruct (Hinv _ _ Hsteps) as [H1 H2 H3 H4 H5].
  { split; simpl; try by constructor.
    - rewrite map_size_empty. unfold MAX_PENDING_ENROLLMENTS. lia.
    - intros id d now Hin. by apply not_elem_of_nil in Hin. }
  split; [done|]. split; [done|]. split; [|done]. intros id Hid.
  destruct (os_pending st !! id) as [p|] eqn:E; [|done]. by destruct (H3 id p E) as [Hc _].
Qed.

(** ** Keys *)

Inductive jwks_step : JwksCache -> JwksCache -> Prop :=
| step_refresh c kid now answer r c' :
    refresh_key kid now (fetch_jwks answer) c = (r, c') -> jwks_step c c'.

(** What callers do between two readings of the cache are such steps, so a call as a
    whole is a sequence of them. *)
Lemma key_for_steps kid waited now answer c r c' :
  (forall c, rtc jwks_step c (waited c)) -> key_for kid waited now answer c = (r, c') -> rtc jwks_step c c'.
Proof.
  intros Hw. unfold key_for. destruct (cached_key c kid); [by intros [= _ <-]|]. intros Hr.
  etrans; [apply Hw|]. apply rtc_once. by econstructor.
Qed.

Definition spaced (later earlier : Z) : Prop := earlier + JWKS_REFRESH_COOLDOWN <= later.
Record paced (c : JwksCache) : Prop := {
  pc_head : jc_refresh c = head (jc_fetches c);
  pc_spaced : StronglySorted spaced (jc_fetches c);
}.
Lemma refresh_key_paced kid now answer c r c' : refresh_key kid now answer c = (r, c') -> paced c -> paced c'.
Proof.
  unfold refresh_key. intros H Hp. destruct (cached_key c kid); [by injection H as _ <-|].
  destruct (is_some_and _ (jc_refresh c)) eqn:Hcool; [by injection H as _ <-|].
  assert (paced {| jc_keys := jc_keys c; jc_refresh := Some now; jc_fetches := now :: jc_fetches c |}) as Hnew.
  { destruct Hp as [Hh Hs]. split; [done|]. simpl. constructor; [done|].
    rewrite Hh in Hcool. destruct Hs as [|last l Hs Hl]; [constructor|]. simpl in Hcool.
    apply Z.ltb_ge in Hcool. unfold spaced, JWKS_REFRESH_COOLDOWN, secs in *.
    constructor; [lia|]. eapply Forall_impl; [exact Hl|]. intros x Hx. simpl in Hx. lia. }
  destruct answer as [keys|e]; injection H as _ <-; [|done]. by destruct Hnew.
Qed.
Lemma spaced_length from t l : StronglySorted spaced (t :: l) -> Forall (fun x => from <= x) (t :: l) ->
  from + Z.of_nat (length l) * JWKS_REFRESH_COOLDOWN <= t.
Proof.
  revert t. induction l as [|x l IH]; intros t Hs Hl; apply Forall_cons in Hl as [Ht Hl]; [simpl; lia|].
  apply StronglySorted_inv in Hs as [Hs Hx]. apply Forall_cons in Hx as [Hx _]. unfold spaced in Hx.
  specialize (IH x Hs Hl). simpl length. lia.
Qed.
Lemma spaced_retain p l : StronglySorted spaced l -> StronglySorted spaced (retain p l).
Proof.
  induction 1 as [|x l _ IH Hx]; simpl; [constructor|]. destruct (p x); [|done]. constructor; [done|].
  apply Forall_forall. intros y [Hy _]%elem_of_retain. by apply (proj1 (Forall_forall _ _) Hx).
Qed.

(** The identity provider is not asked for its keys in a storm: however many
    enrollments name unknown keys, in any order and at any readings of the clock, two
    fetches are at least the cooldown of thirty seconds apart, so a period of [window]
    nanoseconds sees at most [window / cooldown + 1] of them. *)
Theorem key_refreshes_are_rate_limited keys c from window :
  rtc jwks_step {| jc_keys := keys; jc_refresh := None; jc_fetches := [] |} c -> 0 <= window ->
  StronglySorted spaced (jc_fetches c) /\
  Z.of_nat (length (retain (fun t => (from <=? t) && (t <? from + window)) (jc_fetches c)))
  <= window / JWKS_REFRESH_COOLDOWN + 1.
Proof.
  intros Hsteps Hw.
  assert (forall a b, rtc jwks_step a b -> paced a -> paced b) as Hinv.
  { intros a b. induction 1 as [a|a b d Hstep _ IH]; [done|]. intros Ha. apply IH.
    destruct Hstep as [c1 kid now answer r c2 Hr]. by eapply refresh_key_paced. }
  destruct (Hinv _ _ Hsteps) as [_ Hs]; [split; [done|constructor]|]. split; [done|].
  pose proof (spaced_retain (fun t => (from <=? t) && (t <? from + window)) _ Hs) as Hs'.
  assert (Forall (fun t => from <= t < from + window)
    (retain (fun t => (from <=? t) && (t <? from + window)) (jc_fetches c))) as Hl.
  { apply Forall_forall. intros t [_ Ht]%elem_of_retain. lia. }
  destruct (retain _ _) as [|t l]; [simpl; pose proof (Z.div_pos window JWKS_REFRESH_COOLDOWN Hw); unfold JWKS_REFRESH_COOLDOWN, secs in *; lia|].
  apply Forall_cons in Hl as [Ht Hl]. assert (from + Z.of_nat (length l) * JWKS_REFRESH_COOLDOWN <= t) as Hlen.
  { apply spaced_length; [done|]. constructor; [lia|]. eapply Forall_impl; [exact Hl|]. simpl. lia. }
  assert (Z.of_nat (length l) <= window / JWKS_REFRESH_COOLDOWN); [|simpl length; lia].
  apply Z.div_le_lower_bound; unfold JWKS_REFRESH_COOLDOWN, secs in *; lia.
Qed.

(** ** A provider *)

Definition demo_urls : UrlBuilder := {| with_query := fun u _ => u; is_url := starts_with "https://" |}.
(** A token is its subject and is signed by any key. *)
Definition demo_jwt : JwtOps :=
  {| decode_header := fun _ => Ok {| jh_alg := "RS256"; jh_kid := Some "kid" |};
     decode_token := fun _ _ _ _ token => Ok {| ic_sub := token; ic_nonce := Some "nonce";
                                            ic_additional := {["email" := VString (token +:+ "@example.com")]} |} |}.
Definition demo_provider : Provider :=
  {| op_issuer := "https://idp"; op_client_id := "agentdesktop"; op_redirect_uri := "http://127.0.0.1";
     op_authorization_endpoint := "https://idp/authorize"; op_token_endpoint := "https://idp/token";
     op_device_authorization_endpoint := None |}.
Definition demo_keys : JwksCache :=
  {| jc_keys := [{| jk_kid := Some "kid"; jk_key := "key" |}]; jc_refresh := None; jc_fetches := [] |}.
Definition demo_secrets : Secrets := {| sc_enrollment_id := "e1"; sc_state := "s1"; sc_nonce := "nonce" |}.
Definition demo_env : CompletionEnv :=
  {| cv_now := secs 60; cv_key_waited := fun c => c; cv_key_now := secs 60; cv_fetched := Ok [];
     cv_userinfo := Answered 200 (Some "alice") |}.
Definition demo_begun :=
  @begin demo_urls demo_provider "laptop" "abcdefghijklmnopqrstuvwxyzabcdefghijklmnopq" demo_secrets 0 ∅.
Definition demo_completed :=
  @complete demo_jwt demo_provider "e1" "alice" "token" demo_env {| os_pending := snd demo_begun; os_jwks := demo_keys |}.

Lemma enrollments_complete_once_witness :
  exists enrollment log st, fst demo_completed = Ok enrollment /\ completed_ids log = ["e1"] /\
    rtc (@step demo_urls demo_jwt demo_provider) ({| os_pending := ∅; os_jwks := demo_keys |}, []) (st, log) /\
    os_pending st !! "e1" = None.
Proof.
  set (d := ok_value {| cm_hostname := ""; cm_issuer := ""; cm_subject := ""; cm_idp_claims := ∅ |} (fst demo_completed)).
  assert (fst demo_completed = Ok d) as Hd by (vm_compute; reflexivity). clearbody d.
  exists d, [Completed "e1" d (secs 60); Begun "e1" "laptop" (Some "nonce") 0], (snd demo_completed).
  assert (rtc (@step demo_urls demo_jwt demo_provider) ({| os_pending := ∅; os_jwks := demo_keys |}, [])
    (snd demo_completed, [Completed "e1" d (secs 60); Begun "e1" "laptop" (Some "nonce") 0])) as Hsteps.
  { eapply rtc_l.
    - apply (@step_begin demo_urls demo_jwt demo_provider {| os_pending := ∅; os_jwks := demo_keys |} [] "laptop"
        "abcdefghijklmnopqrstuvwxyzabcdefghijklmnopq" demo_secrets 0 (fst demo_begun) (snd demo_begun));
        [apply not_elem_of_nil|apply surjective_pairing].
    - assert (is_ok (fst demo_begun) = true) as Hb by (vm_compute; reflexivity). simpl os_jwks. rewrite Hb.
      apply rtc_once. pose proof (@step_complete demo_urls demo_jwt demo_provider
        {| os_pending := snd demo_begun; os_jwks := demo_keys |} [Begun "e1" "laptop" (Some "nonce") 0]
        "e1" "alice" "token" demo_env (fst demo_completed) (snd demo_completed) (surjective_pairing _)) as Hstep.
      rewrite Hd in Hstep. exact Hstep. }
  split; [exact Hd|]. split; [reflexivity|]. split; [exact Hsteps|].
  destruct (enrollments_complete_once demo_provider demo_keys (snd demo_completed)
    [Completed "e1" d (secs 60); Begun "e1" "laptop" (Some "nonce") 0] Hsteps) as (_ & _ & Hgone & _).
  apply Hgone. by left.
Defined.
Lemma key_refreshes_are_rate_limited_witness :
  let c0 := {| jc_keys := []; jc_refresh := None; jc_fetches := [] |} in
  let c := snd (refresh_key "b" (secs 31) (fetch_jwks (Ok [])) (snd (refresh_key "b" (secs 30) (fetch_jwks (Ok []))
             (snd (refresh_key "a" 0 (fetch_jwks (Err "down")) c0))))) in
  jc_fetches c = [secs 30; 0] /\ rtc jwks_step c0 c /\ 0 <= secs 60 /\
  Z.of_nat (length (retain (fun t => (0 <=? t) && (t <? 0 + secs 60)) (jc_fetches c)))
  <= secs 60 / JWKS_REFRESH_COOLDOWN + 1.
Proof.
  intros c0 c. split; [vm_compute; reflexivity|].
  assert (rtc jwks_step c0 c) as Hsteps.
  { eapply rtc_l; [eapply (step_refresh _ "a" 0 (Err "down")); apply surjective_pairing|].
    eapply rtc_l; [eapply (step_refresh _ "b" (secs 30) (Ok [])); apply surjective_pairing|].
    apply rtc_once. eapply (step_refresh _ "b" (secs 31) (Ok [])). apply surjective_pairing. }
  split; [exact Hsteps|]. split; [vm_compute; discriminate|].
  apply (key_refreshes_are_rate_limited [] c 0 (secs 60) Hsteps). vm_compute. discriminate.
Defined.
