(* ===== verification/ControllerConfig.v ===== *)
(** * The controller's daemon configuration ([crates/controller/src/daemon_config.rs])

    The last configuration that loaded is kept and published to the connected daemons;
    one that does not load leaves it in place and is remembered as an error. The second
    part is the sending half of [FleetAgentService::connect] ([service.rs]): what a
    connected daemon is sent while the configuration changes. *)

From S2P Require Import Prelude Str Fs Config Reconcile Tick Remote.

(** ** The store *)

(** [DaemonConfigStore]: the watch channel's value and how often it was sent, and the
    last reload's error. *)
Record DaemonConfigStore : Type := {
  dc_current : option PushedConfig;
  dc_version : nat;
  dc_reload_error : option string;
}.
(** [DaemonConfigStore::new]. *)
Definition new_store (initial : option PushedConfig) : DaemonConfigStore :=
  {| dc_current := initial; dc_version := 0; dc_reload_error := None |}.
(** [publish]: whether it changed anything. *)
Definition publish (next : PushedConfig) (store : DaemonConfigStore) : bool * DaemonConfigStore :=
  let unchanged :=
    is_some_and (fun current => (pc_revision current =? pc_revision next)
                                && String.eqb (pc_sha256 current) (pc_sha256 next)) (dc_current store) in
  if unchanged
  then (false, {| dc_current := dc_current store; dc_version := dc_version store; dc_reload_error := None |})
  else (true, {| dc_current := Some next; dc_version := S (dc_version store); dc_reload_error := None |}).
(** [record_error]. *)
Definition record_error (error : string) (store : DaemonConfigStore) : DaemonConfigStore :=
  {| dc_current := dc_current store; dc_version := dc_version store; dc_reload_error := Some error |}.

(** ** Loading *)

Section environment.
Variable sha256 : string -> string.
Variable parse_url : string -> result Url string.
Variable daemon_from_str : string -> result DaemonConfig string.

(** [load]. *)
Definition load (s : fs) (p : path) (revision : Z) : result PushedConfig string :=
  let? yaml := map_err (fun e => context ("read daemon configuration from " +:+ display p) (io_kind_message e))
                 (fs_read s p) in
  let? text := if utf8_valid yaml then Ok yaml
               else Err (context "daemon configuration is not UTF-8" "invalid utf-8 sequence") in
  let? _ := map_err (context "validate daemon configuration") (parse_daemon parse_url daemon_from_str text) in
  Ok {| pc_revision := revision; pc_yaml := yaml; pc_sha256 := sha256 yaml |}.

(** ** Watching *)

(** [notify::EventKind], as far as the code tells events apart. *)
Inductive EventKind : Type := Create | Remove | ModifyName | ModifyOther | CloseWrite | OtherKind.
Record Event : Type := { en_kind : EventKind; en_paths : list path }.

(** [directory_structure_changed] and [event_triggers_reload]. *)
Definition directory_structure_changed (e : Event) (parent_ : path) : bool :=
  match en_kind e with Create | Remove | ModifyName => true | _ => false end
  && any (fun p => bool_decide (parent p = Some parent_)) (en_paths e).
Definition event_triggers_reload (e : Event) (p : path) (previous_target current_target : option path) : bool :=
  match en_kind e with OtherKind => false | _ => true end
  && any (fun event_path =>
       bool_decide (event_path = p)
       || is_some_and (fun target => bool_decide (event_path = target)) previous_target
       || is_some_and (fun target => bool_decide (event_path = target)) current_target) (en_paths e).

(** One message of the watcher: a batch of events or its errors, with where the path leads
    now ([resolve_target], which follows links) and the file system it is loaded from.
    The state is the store and the previous target. *)
Record Batch : Type := {
  bt_events : option (list Event);
  bt_target : option path;
  bt_fs : fs;
}.
Definition on_batch (p parent_ : path) (revision : Z) (b : Batch) (st : DaemonConfigStore * option path)
  : DaemonConfigStore * option path :=
  let '(store, target) := st in
  match bt_events b with
  | None => st
  | Some batch =>
      let relevant :=
        negb (bool_decide (target = bt_target b))
        || any (fun e => event_triggers_reload e p target (bt_target b)) batch
        || any (fun e => directory_structure_changed e parent_) batch in
      if negb relevant then (store, bt_target b)
      else match load (bt_fs b) p revision with
           | Ok config => (snd (publish config store), bt_target b)
           | Err error => (record_error error store, bt_target b)
           end
  end.
End environment.

Arguments on_batch : simpl never.

(** ** A connected daemon *)

(** Where the sending half of [connect] is: not subscribed; before it reads the current
    configuration; sending it; waiting for a change; woken; sending what it read. *)
Inductive Phase : Type :=
| Unsubscribed | Subscribed | First (c : PushedConfig) | Waiting | Woken | Sending (c : PushedConfig).
Record Subscription : Type := {
  sb_seen : nat;
  sb_phase : Phase;
  sb_sent : list PushedConfig;
}.
Definition subscribe : Subscription := {| sb_seen := 0; sb_phase := Unsubscribed; sb_sent := [] |}.
Definition in_phase (phase : Phase) (s : Subscription) : Subscription :=
  {| sb_seen := sb_seen s; sb_phase := phase; sb_sent := sb_sent s |}.
(** The next thing the sending half does; [None] while it waits with nothing new. *)
Definition send_step (store : DaemonConfigStore) (s : Subscription) : option Subscription :=
  let deliver c := Some {| sb_seen := sb_seen s; sb_phase := Waiting; sb_sent := sb_sent s ++ [c] |} in
  match sb_phase s with
  | Unsubscribed =>
      Some {| sb_seen := dc_version store; sb_phase := Subscribed; sb_sent := sb_sent s |}
  | Subscribed => Some (in_phase (match dc_current store with Some c => First c | None => Waiting end) s)
  | First c => deliver c
  | Waiting =>
      if Nat.eqb (sb_seen s) (dc_version store) then None
      else Some {| sb_seen := dc_version store; sb_phase := Woken; sb_sent := sb_sent s |}
  | Woken => Some (in_phase (match dc_current store with Some c => Sending c | None => Waiting end) s)
  | Sending c => deliver c
  end.

(** ** The last good configuration *)

Section environment.
Variable sha256 : string -> string.
Variable parse_url : string -> result Url string.
Variable daemon_from_str : string -> result DaemonConfig string.

(** What the controller does from its start: the watcher's messages and the steps of one
    connected daemon, in any order. *)
Inductive serving (p parent_ : path) (revision : Z) :
  (DaemonConfigStore * option path) * Subscription -> (DaemonConfigStore * option path) * Subscription -> Prop :=
| serve_batch st s b :
    serving p parent_ revision (st, s) (on_batch sha256 parse_url daemon_from_str p parent_ revision b st, s)
| serve_send st s s' : send_step (fst st) s = Some s' -> serving p parent_ revision (st, s) (st, s').

(** A configuration that was loaded from the file at some time. *)
Definition loaded (p : path) (revision : Z) (c : PushedConfig) : Prop :=
  exists s, load sha256 parse_url daemon_from_str s p revision = Ok c.

Lemma loaded_parses p revision c : loaded p revision c ->
  pc_revision c = revision /\ is_ok (parse_pushed_config sha256 parse_url daemon_from_str c) = true.
Proof.
  intros [s H]. unfold load in H. destruct (fs_read s p) as [yaml|e]; [|done]. cbn in H.
  destruct (utf8_valid yaml) eqn:Hu; [|done]. cbn in H.
  destruct (parse_daemon parse_url daemon_from_str yaml) as [config|e] eqn:Hp; [|done]. cbn in H.
  injection H as <-. split; [done|]. unfold parse_pushed_config. simpl. by rewrite String.eqb_refl, Hu, Hp.
Qed.

Lemma load_reads f p revision c : load sha256 parse_url daemon_from_str f p revision = Ok c ->
  fs_read f p = Ok (pc_yaml c).
Proof.
  unfold load. destruct (fs_read f p) as [yaml|e]; [|done]. cbn. destruct (utf8_valid yaml); [|done]. cbn.
  destruct (parse_daemon _ _ yaml); [|done]. cbn. by intros [= <-].
Qed.
(** The configuration is the published one, by its revision and its digest. *)
Definition published (store : DaemonConfigStore) (c : PushedConfig) : Prop :=
  exists old, dc_current store = Some old /\ pc_revision old = pc_revision c /\ pc_sha256 old = pc_sha256 c.
Lemma publish_cases c store : let store' := snd (publish c store) in
  dc_reload_error store' = None /\
  (published store c /\ dc_current store' = dc_current store /\ dc_version store' = dc_version store \/
   ~ published store c /\ dc_current store' = Some c /\ dc_version store' = S (dc_version store)).
Proof.
  unfold publish, published. destruct (dc_current store) as [old|]; simpl; [|split; [done|right; naive_solver]].
  destruct (_ && _) eqn:E; simpl; (split; [done|]).
  - left. apply andb_true_iff in E as [E1%Z.eqb_eq E2%String.eqb_eq]. split; [by exists old|done].
  - right. split; [|done]. intros (old' & [= <-] & E1%Z.eqb_eq & E2%String.eqb_eq). by rewrite E1, E2 in E.
Qed.

(** What a subscription knows: the value last read is the current one, or there is a
    version it has not seen. *)
Definition up_to_date (store : DaemonConfigStore) (s : Subscription) : Prop :=
  (sb_seen s <= dc_version store)%nat /\
  (sb_seen s = dc_version store ->
   match sb_phase s with
   | Unsubscribed | Subscribed | Woken => True
   | First c | Sending c => dc_current store = Some c
   | Waiting => forall c, dc_current store = Some c -> last (sb_sent s) = Some c
   end).

Record good (L : PushedConfig -> Prop) (x : (DaemonConfigStore * option path) * Subscription) : Prop := {
  gd_current c : dc_current (fst (fst x)) = Some c -> L c;
  gd_phase c : sb_phase (snd x) = First c \/ sb_phase (snd x) = Sending c -> L c;
  gd_sent c : c ∈ sb_sent (snd x) -> L c;
  gd_date : sb_phase (snd x) <> Unsubscribed -> up_to_date (fst (fst x)) (snd x);
}.

(** The same published value: only the reload error may differ. *)
Definition same_value (store store' : DaemonConfigStore) : Prop :=
  dc_current store' = dc_current store /\ dc_version store' = dc_version store.
Lemma up_to_date_batch store s store' :
  (same_value store store' \/ dc_version store' = S (dc_version store)) ->
  up_to_date store s -> up_to_date store' s.
Proof.
  intros [[Hc Hv]|Hv] [Hle Hs]; unfold up_to_date; rewrite Hv, ?Hc; [done|]. split; [lia|]. intros E. lia.
Qed.

Lemma on_batch_store p parent_ revision b store target :
  let store' := fst (on_batch sha256 parse_url daemon_from_str p parent_ revision b (store, target)) in
  same_value store store'
  \/ (dc_version store' = S (dc_version store) /\
      exists c, load sha256 parse_url daemon_from_str (bt_fs b) p revision = Ok c /\ dc_current store' = Some c).
Proof.
  unfold on_batch. destruct (bt_events b) as [batch|]; [|left; by destruct store].
  destruct (negb _); [left; by destruct store|].
  destruct (load _ _ _ (bt_fs b) p revision) as [c|e] eqn:Hl; [|by left]. simpl. unfold publish.
  destruct (is_some_and _ _); [by left|]. right. split; [done|]. by exists c.
Qed.

Lemma batch_good L p parent_ revision b store target s :
  (forall c, load sha256 parse_url daemon_from_str (bt_fs b) p revision = Ok c -> L c) ->
  good L ((store, target), s) ->
  good L (on_batch sha256 parse_url daemon_from_str p parent_ revision b (store, target), s).
Proof.
  intros HL [H1 H2 H3 H4]. simpl in *.
  pose proof (on_batch_store p parent_ revision b store target) as Hb. cbv zeta in Hb.
  destruct (on_batch _ _ _ p parent_ revision b (store, target)) as [store' target']. simpl in *.
  split; simpl; [|done|done|].
  - intros c Hc. destruct Hb as [Hb|(_ & c' & Hl & Hc')]; [apply H1; by rewrite <-(proj1 Hb)|].
    rewrite Hc' in Hc. injection Hc as <-. by apply HL.
  - intros Hp. eapply up_to_date_batch; [|by apply H4]. destruct Hb as [Hb|[Hb _]]; auto.
Qed.
Lemma send_good L store target s s' : send_step store s = Some s' ->
  good L ((store, target), s) -> good L ((store, target), s').
Proof.
  intros Hsend [H1 H2 H3 H4]. simpl in *.
  unfold send_step in Hsend. destruct (sb_phase s) as [| |c| | |c] eqn:Hph; simplify_eq/=.
  - split; simpl; [done|by intros c [?|?]|done|]. intros _. by split.
  - assert (up_to_date store (in_phase (match dc_current store with Some c => First c | None => Waiting end) s)).
    { destruct H4 as [Hle _]; [done|]. split; [done|]. intros _. simpl. by destruct (dc_current store). }
    split; simpl; [done| |done|done].
    intros c' Hc'. apply H1. destruct (dc_current store) as [c|], Hc'; simplify_eq; done.
  - assert (L c) as Hl by (apply H2; by left). split; simpl; [done|by intros c' [?|?]| |].
    * intros c' [?|Hin%list_elem_of_singleton]%elem_of_app; [auto|by subst].
    * intros _. destruct H4 as [Hle Hs]; [done|]. split; [done|]. simpl. rewrite Hph in Hs.
      intros E c' Hc'. rewrite (Hs E) in Hc'. by rewrite last_snoc.
  - destruct (Nat.eqb_spec (sb_seen s) (dc_version store)); simplify_eq/=.
    split; simpl; [done|by intros c' [?|?]|done|]. intros _. by split.
  - assert (up_to_date store (in_phase (match dc_current store with Some c => Sending c | None => Waiting end) s)).
    { destruct H4 as [Hle _]; [done|]. split; [done|]. intros _. simpl. by destruct (dc_current store). }
    split; simpl; [done| |done|done].
    intros c' Hc'. apply H1. destruct (dc_current store) as [c|], Hc'; simplify_eq; done.
  - assert (L c) as Hl by (apply H2; by right). split; simpl; [done|by intros c' [?|?]| |].
    * intros c' [?|Hin%list_elem_of_singleton]%elem_of_app; [auto|by subst].
    * intros _. destruct H4 as [Hle Hs]; [done|]. split; [done|]. simpl. rewrite Hph in Hs.
      intros E c' Hc'. rewrite (Hs E) in Hc'. by rewrite last_snoc.
Qed.

Lemma serving_good p parent_ revision x y :
  serving p parent_ revision x y -> good (loaded p revision) x -> good (loaded p revision) y.
Proof.
  intros [[store target] s b|[store target] s s' Hsend] Hg; [|by apply (send_good _ _ _ _ _ Hsend)].
  apply batch_good; [|done]. intros c Hc. by exists (bt_fs b).
Qed.

Lemma start_good L initial target :
  (forall c, initial = Some c -> L c) -> good L ((new_store initial, target), subscribe).
Proof. intros H. split; simpl; [done|by intros c [?|?]|by intros c ?%not_elem_of_nil|done]. Qed.

Lemma reach_good p parent_ revision initial target y :
  (forall c, initial = Some c -> loaded p revision c) ->
  rtc (serving p parent_ revision) ((new_store initial, target), subscribe) y -> good (loaded p revision) y.
Proof.
  intros H Hr. pose proof (start_good _ initial target H) as Hg. revert Hg.
  induction Hr as [x|x y z Hs _ IH]; [done|]. intros Hg. by apply IH, (serving_good _ _ _ _ _ Hs).
Qed.

(** The sending half left alone with the store until it has nothing to do. *)
Fixpoint drain (fuel : nat) (store : DaemonConfigStore) (s : Subscription) : Subscription :=
  match fuel with
  | O => s
  | S fuel => match send_step store s with Some s' => drain fuel store s' | None => s end
  end.

Lemma serving_drain p parent_ revision fuel st s :
  rtc (serving p parent_ revision) (st, s) (st, drain fuel (fst st) s).
Proof.
  revert s. induction fuel as [|fuel IH]; intros s; simpl; [done|].
  destruct (send_step (fst st) s) as [s'|] eqn:E; [|done]. eapply rtc_l; [by apply serve_send|apply IH].
Qed.

Lemma drain_more n store s s' : send_step store s = Some s' -> drain (S n) store s = drain n store s'.
Proof. intros E. simpl. by rewrite E. Qed.
Lemma drain_none n store s : send_step store s = None -> drain n store s = s.
Proof. intros E. destruct n; [done|]. simpl. by rewrite E. Qed.

(** From waiting, three steps are enough; from anywhere, five. *)
Lemma drain_waiting n store s :
  sb_phase s = Waiting -> send_step store (drain (3 + n) store s) = None.
Proof.
  intros Hp. destruct (send_step store s) as [s1|] eqn:E; [|by rewrite drain_none].
  simpl (3 + n)%nat. rewrite (drain_more _ _ _ _ E). unfold send_step in E. rewrite Hp in E.
  destruct (Nat.eqb _ _); [done|]. injection E as <-.
  destruct (dc_current store) as [c|] eqn:Hc;
    repeat (erewrite drain_more; [|unfold send_step; simpl; by rewrite Hc]);
    assert (forall s0, sb_phase s0 = Waiting -> sb_seen s0 = dc_version store -> send_step store s0 = None)
      as Hend by (intros s0 Hw Hv; unfold send_step; by rewrite Hw, Hv, Nat.eqb_refl).
  - erewrite drain_more by reflexivity. rewrite drain_none; by apply Hend.
  - rewrite drain_none; by apply Hend.
Qed.
Lemma drain_waits store s : send_step store (drain 5 store s) = None.
Proof.
  destruct (sb_phase s) as [| |c| | |c] eqn:Hp;
    [| | | by apply (drain_waiting 2)| |];
    erewrite (drain_more 4) by (unfold send_step; rewrite Hp; reflexivity);
    try by apply (drain_waiting 1).
  - erewrite (drain_more 3) by reflexivity. simpl sb_seen. simpl sb_sent.
    destruct (dc_current store) as [c|]; [|by apply (drain_waiting 0)].
    erewrite (drain_more 2) by reflexivity. rewrite drain_none; unfold send_step; simpl; by rewrite Nat.eqb_refl.
  - destruct (dc_current store) as [c|]; [|by apply (drain_waiting 1)].
    erewrite (drain_more 3) by reflexivity. by apply (drain_waiting 0).
  - destruct (dc_current store) as [c|]; [|by apply (drain_waiting 1)].
    erewrite (drain_more 3) by reflexivity. by apply (drain_waiting 0).
Qed.

(** A run, with the files the watcher was there to load, each as it was then. *)
Inductive watched (p parent_ : path) (revision : Z) :
  list fs -> (DaemonConfigStore * option path) * Subscription ->
  (DaemonConfigStore * option path) * Subscription -> Prop :=
| watched_refl x : watched p parent_ revision [] x x
| watched_batch files st s b y :
    watched p parent_ revision files (on_batch sha256 parse_url daemon_from_str p parent_ revision b st, s) y ->
    watched p parent_ revision (bt_fs b :: files) (st, s) y
| watched_send files st s s' y : send_step (fst st) s = Some s' ->
    watched p parent_ revision files (st, s') y -> watched p parent_ revision files (st, s) y.

Lemma watched_good p parent_ revision files x y (L : PushedConfig -> Prop) :
  watched p parent_ revision files x y ->
  (forall f c, f ∈ files -> load sha256 parse_url daemon_from_str f p revision = Ok c -> L c) -> good L x -> good L y.
Proof.
  induction 1 as [x|files [store target] s b y _ IH|files [store target] s s' y Hs _ IH]; intros HL Hx; [done| |].
  - apply IH; [intros f c Hf; apply HL; by right|]. apply batch_good; [|done]. intros c. apply HL. by left.
  - apply IH; [done|]. by apply (send_good _ _ _ _ _ Hs).
Qed.
Lemma watched_current p parent_ revision files x y :
  watched p parent_ revision files x y -> is_Some (dc_current (fst (fst x))) -> is_Some (dc_current (fst (fst y))).
Proof.
  induction 1 as [x|files [store target] s b y _ IH|files [store target] s s' y Hs _ IH]; intros Hx; [done| |by apply IH].
  apply IH. destruct (on_batch_store p parent_ revision b store target) as [[E _]|(_ & c & _ & E)]; simpl; by rewrite E.
Qed.

(** A batch that is about the file: what the path leads to changed, the file or what it
    leads to was changed, or its directory's entries were. *)
Definition concerns (p parent_ : path) (target : option path) (b : Batch) : Prop :=
  target <> bt_target b \/
  exists batch e changed, bt_events b = Some batch /\ e ∈ batch /\ changed ∈ en_paths e /\
    (en_kind e <> OtherKind /\ (changed = p \/ target = Some changed \/ bt_target b = Some changed) \/
     (en_kind e = Create \/ en_kind e = Remove \/ en_kind e = ModifyName) /\ parent changed = Some parent_).
Lemma relevant_spec p parent_ target b batch : bt_events b = Some batch ->
  negb (bool_decide (target = bt_target b))
  || any (fun e => event_triggers_reload e p target (bt_target b)) batch
  || any (fun e => directory_structure_changed e parent_) batch = true <-> concerns p parent_ target b.
Proof.
  intros Hb. rewrite !orb_true_iff, negb_true_iff, bool_decide_eq_false, !any_true. unfold concerns. rewrite Hb.
  unfold event_triggers_reload, directory_structure_changed.
  setoid_rewrite andb_true_iff. setoid_rewrite any_true. setoid_rewrite orb_true_iff. setoid_rewrite orb_true_iff.
  split.
  - intros [[H|(e & He & Hk & q & Hq & Hc)]|(e & He & Hk & q & Hq & Hc)]; [by left|right..]; exists batch, e, q.
    + split_and!; try done. left. split; [by destruct (en_kind e)|].
      destruct Hc as [[Hc|Hc]|Hc]; [left; by apply bool_decide_eq_true in Hc|right; left|right; right].
      * destruct target; [|done]. simpl in Hc. apply bool_decide_eq_true in Hc. congruence.
      * destruct (bt_target b); [|done]. simpl in Hc. apply bool_decide_eq_true in Hc. congruence.
    + split_and!; try done. right. apply bool_decide_eq_true in Hc. split; [|done]. destruct (en_kind e); auto; done.
  - intros [H|(batch' & e & q & [= <-] & He & Hq & [[Hk Hc]|[Hk Hc]])]; [by left; left|left; right|right]; exists e.
    + split; [done|]. split; [by destruct (en_kind e)|]. exists q. split; [done|].
      destruct Hc as [->|[->| ->]]; [left; left|left; right|right]; by apply bool_decide_eq_true.
    + split; [done|]. split; [by destruct Hk as [->|[->| ->]]|]. exists q. split; [done|]. by apply bool_decide_eq_true.
Qed.

(** C27. The controller never publishes, sends or is about to send a configuration other than
    one it loaded, with the configured revision, from the file as it was when it started or
    when the watcher reported a change, and that the daemon's own check
    ([Remote.parse_pushed_config]: digest, UTF-8, parsing, validation) accepts; a daemon
    that had one is never left without. A change to a file that does not load leaves what
    is published and records the error; one to a file that does publishes it, if its
    revision or digest is another, and clears the error; what is not about the file, or is
    the watcher's own error, changes nothing. *)
Theorem published_configurations_are_accepted p parent_ revision initial target f0 files store target' s :
  (forall c, initial = Some c -> load sha256 parse_url daemon_from_str f0 p revision = Ok c) ->
  watched p parent_ revision files ((new_store initial, target), subscribe) ((store, target'), s) ->
  (forall c, dc_current store = Some c \/ c ∈ sb_sent s \/ sb_phase s = First c \/ sb_phase s = Sending c ->
     pc_revision c = revision /\
     (exists f, f ∈ f0 :: files /\ fs_read f p = Ok (pc_yaml c) /\ load sha256 parse_url daemon_from_str f p revision = Ok c) /\
     exists config, parse_pushed_config sha256 parse_url daemon_from_str c = Ok config) /\
  (is_Some initial -> is_Some (dc_current store)) /\
  (forall b, let store' := fst (on_batch sha256 parse_url daemon_from_str p parent_ revision b (store, target')) in
     (bt_events b <> None -> concerns p parent_ target' b ->
      match load sha256 parse_url daemon_from_str (bt_fs b) p revision with
      | Err error =>
          dc_current store' = dc_current store /\ dc_version store' = dc_version store /\
          dc_reload_error store' = Some error
      | Ok c =>
          dc_reload_error store' = None /\
          (published store c /\ dc_current store' = dc_current store /\ dc_version store' = dc_version store \/
           ~ published store c /\ dc_current store' = Some c /\ dc_version store' = S (dc_version store))
      end) /\
     (bt_events b = None \/ ~ concerns p parent_ target' b -> store' = store)).
Proof.
  intros Hi Hr.
  assert (good (fun c => exists f, f ∈ f0 :: files /\ load sha256 parse_url daemon_from_str f p revision = Ok c)
            ((store, target'), s)) as [H1 H2 H3 _].
  { apply (watched_good _ _ _ _ _ _ _ Hr); [intros f c Hf Hl; exists f; split; [by right|done]|].
    apply start_good. intros c Hc. exists f0. split; [by left|by apply Hi]. }
  simpl in *. split_and!.
  - intros c Hc. assert (exists f, f ∈ f0 :: files /\ load sha256 parse_url daemon_from_str f p revision = Ok c) as (f & Hf & Hl)
      by (destruct Hc as [?|[?|?]]; auto).
    assert (loaded p revision c) as [Hv Hp]%loaded_parses by (by exists f).
    split; [done|]. split; [|destruct (parse_pushed_config _ _ _ c) as [config|]; [by exists config|done]].
    exists f. split; [done|]. split; [|done]. by apply load_reads in Hl.
  - intros Hsome. exact (watched_current _ _ _ _ _ _ Hr Hsome).
  - intros b. split.
    + intros Hb Hcon. unfold on_batch. destruct (bt_events b) as [batch|] eqn:Hev; [|done].
      apply (relevant_spec p parent_ target' b batch Hev) in Hcon. rewrite Hcon. simpl.
      destruct (load _ _ _ (bt_fs b) p revision) as [c|e]; [|done]. by apply publish_cases.
    + intros Hno. unfold on_batch. destruct (bt_events b) as [batch|] eqn:Hev; [|done].
      destruct Hno as [?|Hno]; [done|]. destruct (negb _) eqn:Hrel; [done|]. apply negb_false_iff in Hrel.
      by apply (relevant_spec p parent_ target' b batch Hev) in Hrel.
Qed.

(** C36. A connected daemon is brought up to date: whenever changes stop, at most five steps of
    the sending half leave it waiting, and the last configuration it was sent is the
    controller's current one, however its steps and the changes were interleaved before. *)
Theorem daemons_converge_to_current p parent_ revision initial target store target' s c :
  (forall c, initial = Some c -> loaded p revision c) ->
  rtc (serving p parent_ revision) ((new_store initial, target), subscribe) ((store, target'), s) ->
  dc_current store = Some c ->
  send_step store (drain 5 store s) = None /\ last (sb_sent (drain 5 store s)) = Some c.
Proof.
  intros Hi Hr Hc. pose proof (drain_waits store s) as Hn. split; [done|].
  assert (good (loaded p revision) ((store, target'), drain 5 store s)) as [_ _ _ H].
  { apply (reach_good _ parent_ _ initial target); [done|]. etrans; [exact Hr|].
    apply (serving_drain _ _ _ 5 (store, target')). }
  cbn [fst snd] in H. unfold send_step in Hn. destruct (sb_phase (drain 5 store s)) eqn:Hp; try done.
  destruct H as [_ H]; [done|]. revert Hn. destruct (Nat.eqb_spec (sb_seen (drain 5 store s)) (dc_version store)) as [E|]; [|done].
  intros _. specialize (H E). rewrite Hp in H. by apply H.
Qed.

End environment.

(** ** Concrete runs *)

Definition config_path : path := ["etc"; "agentdesktop"; "daemon.yaml"].
Definition config_parent : path := ["etc"; "agentdesktop"].
Definition on_disk (yaml : string) : fs :=
  {| nodes := {[ config_path := File yaml 420 ]}; umask := 18; fs_fault := fun _ _ => None |}.
Definition edited (yaml : string) : Batch :=
  {| bt_events := Some [{| en_kind := ModifyName; en_paths := [config_path] |}];
     bt_target := Some config_path; bt_fs := on_disk yaml |}.
Definition demo_config (yaml : string) : PushedConfig :=
  {| pc_revision := 3; pc_yaml := yaml; pc_sha256 := demo_hash yaml |}.
Definition demo_store : DaemonConfigStore :=
  {| dc_current := Some (demo_config "b"); dc_version := 1; dc_reload_error := None |}.
(** A daemon that subscribed before the file was edited and read the value after. *)
Definition demo_subscription : Subscription :=
  {| sb_seen := 0; sb_phase := Waiting; sb_sent := [demo_config "b"] |}.
Definition serving_demo := serving demo_hash demo_parse_url demo_from_str config_path config_parent 3.

Lemma demo_served :
  rtc serving_demo ((new_store (Some (demo_config "a")), Some config_path), subscribe)
    ((demo_store, Some config_path), demo_subscription).
Proof.
  eapply rtc_l; [by apply serve_send|]. eapply rtc_l; [apply (serve_batch _ _ _ _ _ _ _ _ (edited "b"))|].
  eapply rtc_l; [by apply serve_send|]. eapply rtc_l; [by apply serve_send|].
  vm_compute. apply rtc_refl.
Qed.
Lemma demo_loaded c : Some (demo_config "a") = Some c ->
  loaded demo_hash demo_parse_url demo_from_str config_path 3 c.
Proof. intros [= <-]. by exists (on_disk "a"). Qed.

Lemma demo_watched :
  watched demo_hash demo_parse_url demo_from_str config_path config_parent 3 [on_disk "b"]
    ((new_store (Some (demo_config "a")), Some config_path), subscribe) ((demo_store, Some config_path), demo_subscription).
Proof.
  eapply watched_send; [done|]. apply (watched_batch _ _ _ _ _ _ _ _ _ (edited "b")).
  eapply watched_send; [done|]. eapply watched_send; [done|]. vm_compute. apply watched_refl.
Qed.
(** A file that is not UTF-8 is then written. *)
Lemma demo_concerns yaml : concerns config_path config_parent (Some config_path) (edited yaml).
Proof.
  right. eexists _, _, config_path. split; [reflexivity|]. split; [apply list_elem_of_here|].
  split; [apply list_elem_of_here|]. left. split; [discriminate|by left].
Qed.
Lemma published_configurations_are_accepted_witness :
  (forall c, Some (demo_config "b") = Some c \/ c ∈ [demo_config "b"] ->
     pc_revision c = 3 /\
     exists config, parse_pushed_config demo_hash demo_parse_url demo_from_str c = Ok config) /\
  is_Some (dc_current demo_store) /\
  let broken := edited (String "255" EmptyString) in
  dc_reload_error (fst (on_batch demo_hash demo_parse_url demo_from_str config_path config_parent 3 broken
    (demo_store, Some config_path))) = Some "daemon configuration is not UTF-8: invalid utf-8 sequence".
Proof.
  pose proof (published_configurations_are_accepted demo_hash demo_parse_url demo_from_str config_path
    config_parent 3 (Some (demo_config "a")) (Some config_path) (on_disk "a") [on_disk "b"] demo_store
    (Some config_path) demo_subscription (fun c Hc => f_equal (from_option Ok (Err "")) Hc) demo_watched) as (H1 & H2 & H3).
  split; [|split; [exact (H2 (ex_intro _ (demo_config "a") eq_refl))|]].
  - intros c Hc. destruct (H1 c) as (H4 & _ & H5); [destruct Hc; auto|]. exact (conj H4 H5).
  - exact (proj2 (proj2 (proj1 (H3 (edited (String "255" EmptyString))) ltac:(discriminate) (demo_concerns _)))).
Defined.

Lemma daemons_converge_to_current_witness :
  send_step demo_store (drain 5 demo_store demo_subscription) = None /\
  last (sb_sent (drain 5 demo_store demo_subscription)) = Some (demo_config "b").
Proof.
  exact (daemons_converge_to_current demo_hash demo_parse_url demo_from_str config_path
    config_parent 3 (Some (demo_config "a")) (Some config_path) demo_store (Some config_path)
    demo_subscription (demo_config "b") demo_loaded demo_served eq_refl).
Defined.
