(* ===== verification/ControllerService.v ===== *)
(** * The controller's calls ([crates/controller/src/service.rs], [gateway_jwt.rs],
      [device_ca.rs], [admin.rs])

    What a daemon asks of the controller and what an administrator reads. Certificates
    ([x509_parser], [rcgen]), UUIDs and signatures ([jsonwebtoken]) are third-party code;
    clocks, new identifiers and the identity provider's answers are arguments. *)

From S2P Require Import Prelude Str Http Json Config Reconcile Tick Remote Sql Fleet Usage UsageStore.
From S2P Require Import UsageReport ControllerDb ControllerOidc ControllerConfig.

(** ** Statuses *)

(** [tonic::Code]. *)
Inductive Code : Type :=
| Unauthenticated | PermissionDenied | FailedPrecondition | InvalidArgument | NotFoundCode | Internal
| Unavailable.
#[global] Instance Code_eq_dec : EqDecision Code.
Proof. solve_decision. Defined.
Record Status : Type := { st_code : Code; st_message : string }.
Definition status (code : Code) (message : string) : Status := {| st_code := code; st_message := message |}.

(** [internal], [invalid_enrollment] and [invalid_csr]. *)
Definition internal (err : string) : Status := status Internal "controller state error".
Definition invalid_enrollment (err : string) : Status := status Unauthenticated "OIDC enrollment failed".
Definition invalid_csr (err : string) : Status :=
  status InvalidArgument "invalid certificate signing request".
(** [invalid_access_token]. *)
Definition invalid_access_token (err : AccessError) : Status :=
  match err with
  | RequestError (Some s) =>
      if (s =? 401) || (s =? 403) then status Unauthenticated "OIDC access token rejected"
      else status Unavailable "OIDC access-token validation is unavailable"
  | RequestError None => status Unavailable "OIDC access-token validation is unavailable"
  | OtherError _ => status Unauthenticated "OIDC access token rejected"
  end.

(** ** Certificates *)

Inductive GeneralName : Type := DNSName (name : string) | OtherName.
(** [rcgen::CertificateParams], the fields that are set. *)
Record CertificateParams : Type := {
  cp_public_key : string;
  cp_common_name : option string;
  cp_alt_names : list GeneralName;
  cp_is_ca : bool;
  cp_key_usages : list string;
  cp_extended_key_usages : list string;
  cp_not_before : Z;
  cp_not_after : Z;
}.
Class Certificates : Type := {
  (** [parse_x509_certificate] and [subject_alternative_name]: its general names. *)
  subject_alternative_name : string -> result (result (option (list GeneralName)) unit) unit;
  is_uuid : string -> bool;
  (** [CertificateSigningRequestParams::from_der], which verifies the request. *)
  csr_from_der : string -> result CertificateParams string;
  dns_name : string -> result string string;
  (** the device CA's signature, and its own certificate *)
  sign_certificate : CertificateParams -> result string string;
  ca_certificate_pem : string;
}.

Definition SUFFIX : string := ".device.agentdesktop.invalid".
Definition strip_suffix (suffix s : string) : option string :=
  if ends_with suffix s then Some (String.substring 0 (String.length s - String.length suffix) s) else None.

Record IssuedCertificate : Type := { ic_chain_pem : string; ic_expires_at : Z }.

Section certificates.
Context {X : Certificates}.

(** [device_id_from_certificate]. *)
Definition device_id_from_certificate (certificate_der : string) : result string Status :=
  let? extension := map_err (fun _ => status Unauthenticated "invalid device certificate")
                      (subject_alternative_name certificate_der) in
  let? extension := map_err (fun _ => status Unauthenticated "invalid device certificate subject") extension in
  let? general_names := ok_or extension (status Unauthenticated "device certificate has no subject identity") in
  match omap (fun name => match name with DNSName name => strip_suffix SUFFIX name | OtherName => None end)
          general_names with
  | [] => Err (status Unauthenticated "device certificate has no device identity")
  | device_id :: more =>
      if negb (match more with [] => true | _ => false end) || negb (is_uuid device_id)
      then Err (status Unauthenticated "device certificate has an invalid device identity")
      else Ok device_id
  end.
(** [peer_certificate_device_id]: [None] for a connection without TLS. *)
Definition peer_certificate_device_id (peer_certs : option (list string)) : result (option string) Status :=
  match peer_certs with
  | None => Ok None
  | Some [] => Err (status Unauthenticated "missing device certificate")
  | Some (certificate :: _) =>
      let? device_id := device_id_from_certificate certificate in Ok (Some device_id)
  end.

(** [DeviceCertificateIssuer::issue], at [now] in seconds. *)
Definition issue_certificate (device_id csr_der : string) (now : Z) : result IssuedCertificate string :=
  if is_empty csr_der then Err "certificate signing request is required"
  else
    let? csr := map_err (context "parse and verify certificate signing request") (csr_from_der csr_der) in
    let? name := map_err (context "encode device certificate DNS name") (dns_name (device_id +:+ SUFFIX)) in
    let not_after := now + 30 * 86400 in
    let? certificate := map_err (context "sign device certificate") (sign_certificate
      {| cp_public_key := cp_public_key csr; cp_common_name := Some device_id;
         cp_alt_names := [DNSName name]; cp_is_ca := false; cp_key_usages := ["digitalSignature"];
         cp_extended_key_usages := ["clientAuth"]; cp_not_before := now - 5 * 60;
         cp_not_after := not_after |}) in
    Ok {| ic_chain_pem := certificate +:+ ca_certificate_pem; ic_expires_at := Z.max 0 not_after |}.
End certificates.

(** ** Gateway credentials *)

(** [Claims] and [Actor], with the header's key. *)
Record Claims : Type := {
  jc_kid : string;
  jc_iss : string;
  jc_sub : string;
  jc_aud : string;
  jc_iat : Z;
  jc_exp : Z;
  jc_act_sub : string;
  jc_client_id : string;
  jc_email : option string;
  jc_email_verified : option bool;
  jc_idp : option (gmap string value);
  jc_billing : option string;
}.
Record GatewayJwtIssuer : Type := {
  gj_issuer : string;
  gj_key_id : string;
  gj_lifetime : Z;
  (** [jsonwebtoken::encode] with its key *)
  gj_sign : Claims -> result string string;
}.
Definition u64_saturating_add (a b : Z) : Z := Z.min U64_MAX (a + b).
Definition as_bool (v : value) : option bool := match v with VBool b => Some b | _ => None end.

Definition claim (key : string) (idp : option (gmap string value)) : option value :=
  match idp with Some claims => claims !! key | None => None end.

(** The claims of [GatewayJwtIssuer::issue], and itself. *)
Definition gateway_claims (issuer : GatewayJwtIssuer) (subject device_id client_id audience : string)
    (idp : option (gmap string value)) (subscription : bool) (issued_at : Z) : Claims :=
  {| jc_kid := gj_key_id issuer; jc_iss := gj_issuer issuer; jc_sub := subject; jc_aud := audience;
     jc_iat := issued_at; jc_exp := u64_saturating_add issued_at (gj_lifetime issuer / secs 1);
     jc_act_sub := device_id; jc_client_id := client_id;
     jc_email := claim "email" idp ≫= Json.as_str;
     jc_email_verified := claim "email_verified" idp ≫= as_bool;
     jc_idp := idp; jc_billing := if subscription then Some "subscription" else None |}.
Definition issue_credential (issuer : GatewayJwtIssuer) (subject device_id client_id audience : string)
    (idp : option (gmap string value)) (subscription : bool) (now : Z) : result (string * Z) string :=
  if now <? 0 then Err "system clock is before Unix epoch"
  else
    let claims := gateway_claims issuer subject device_id client_id audience idp subscription now in
    let? credential := map_err (context "sign gateway JWT") (gj_sign issuer claims) in
    Ok (credential, jc_exp claims).

(** ** The service *)

Record FleetAgentService : Type := {
  fa_oidc : option Provider;
  fa_gateway_jwt_issuer : option GatewayJwtIssuer;
  fa_certificates : bool;
  fa_usage_enabled : bool;
}.
(** What a request carries besides its message: the connection's client certificates and
    the [authorization] metadata. *)
Record Request : Type := { rq_peer_certs : option (list string); rq_authorization : option string }.

(** [bearer_credential]. *)
Definition bearer_credential {H : HeaderMap} (rq : Request) : result string Status :=
  let? value := ok_or (rq_authorization rq) (status Unauthenticated "missing OIDC access token") in
  let? value := ok_or (to_str value) (status Unauthenticated "invalid OIDC access token") in
  ok_or (strip_prefix "Bearer " value) (status Unauthenticated "invalid OIDC access token").

(** [oidc_principals_match]. *)
Definition oidc_principals_match (authenticated : OidcPrincipal) (enrolled : DevicePrincipal) : bool :=
  negb (is_empty (dp_issuer enrolled)) && negb (is_empty (dp_subject enrolled))
  && String.eqb (pn_issuer authenticated) (dp_issuer enrolled)
  && String.eqb (pn_subject authenticated) (dp_subject enrolled).

(** [subscription_is_configured_for_client]. *)
Definition subscription_is_configured_for_client (programs : ProgramsConfig) (client_id : string) : bool :=
  is_some (subscription_auth programs client_id).

(** The state [complete_enrollment] changes: the provider's and the database. *)
Record Server : Type := { sr_oidc : OidcState; sr_database : Connection FleetTables }.

(** Calls on the database as a call of the service sees them, and an error without one. *)
Abbreviation RPC := (ST (Connection FleetTables) Status).
Definition rpc_lift {A} (r : result A Status) : RPC A := fun c => (r, c).
Definition db_call {A} (m : DB A) : RPC A := st_map_err internal m.

Section service.
Context {C : RowCodec} {X : Certificates} {H : HeaderMap} {J : JwtOps} {U : UrlBuilder}.
Variable parse_url : string -> result Url string.
Variable daemon_from_str : string -> result DaemonConfig string.
Variable sv : FleetAgentService.

(** *** Who is calling *)

(** [authenticate_device_certificate_identity]. *)
Definition authenticate_device_certificate_identity (device_id : string) (access_principal : OidcPrincipal)
  : RPC string :=
  let* principal := st_map_err (fun _ => status Unauthenticated "unrecognized device certificate")
                      (device_principal device_id) in
  if negb (oidc_principals_match access_principal principal)
  then st_err (status PermissionDenied "access token principal does not match enrolled device user")
  else st_ret device_id.
(** [authenticate_device_identity] and [authenticate_device]; [answer] is UserInfo's. *)
Definition authenticate_device_identity (certificate_device_id : option string) (rq : Request)
    (answer : UserInfoAnswer) : RPC string :=
  let* device_id := rpc_lift (ok_or certificate_device_id (status Unauthenticated "missing device certificate")) in
  let* access_token := rpc_lift (bearer_credential rq) in
  let* oidc := rpc_lift (ok_or (fa_oidc sv)
                 (status FailedPrecondition "OIDC access-token validation is disabled")) in
  let* access_principal := rpc_lift (map_err invalid_access_token
                             (authenticate_access_token oidc access_token answer)) in
  authenticate_device_certificate_identity device_id access_principal.
Definition authenticate_device (rq : Request) (answer : UserInfoAnswer) : RPC string :=
  let* certificate_device_id := rpc_lift (peer_certificate_device_id (rq_peer_certs rq)) in
  authenticate_device_identity certificate_device_id rq answer.

(** *** Enrollment *)

(** [begin_enrollment] of the browser flow; the device flow is
    [ControllerOidc.begin_device_reserve] and [begin_device_answer], between which the
    provider is asked. *)
Definition begin_enrollment (hostname code_challenge : string) (secrets : Secrets) (now : Z)
  : ST pendings Status BeginEnrollmentResponse :=
  match fa_oidc sv with
  | None => st_err (status FailedPrecondition "OIDC enrollment is disabled")
  | Some oidc => st_map_err invalid_enrollment (begin oidc hostname code_challenge secrets now)
  end.
Definition begin_device_enrollment (hostname enrollment_id : string) (now : Z) : ST pendings Status string :=
  match fa_oidc sv with
  | None => st_err (status FailedPrecondition "OIDC enrollment is disabled")
  | Some oidc => st_map_err invalid_enrollment (begin_device_reserve oidc hostname enrollment_id now)
  end.

Record EnrollResponse : Type := {
  er_device_id : string;
  er_client_certificate_pem : string;
  er_expires_at : Z;
}.
(** [FleetAgentService::enroll_device]; [device_id] is the new UUID. *)
Definition service_enroll_device (device_id hostname issuer subject : string) (idp_claims : option (gmap string value))
    (csr_der : string) (now : Z) : RPC EnrollResponse :=
  let* issued := rpc_lift
    (if fa_certificates sv then map_err invalid_csr (issue_certificate device_id csr_der now)
     else Err (status FailedPrecondition "device certificate issuance is disabled")) in
  db_call (enroll_device device_id hostname issuer subject idp_claims now) ;*
  st_ret {| er_device_id := device_id; er_client_certificate_pem := ic_chain_pem issued;
            er_expires_at := ic_expires_at issued |}.
(** [complete_enrollment]. *)
Definition complete_enrollment (rq : Request) (enrollment_id id_token csr_der device_id : string)
    (env : CompletionEnv) (now : Z) : ST Server Status EnrollResponse := fun s =>
  match fa_oidc sv, bearer_credential rq with
  | None, _ => (Err (status FailedPrecondition "OIDC enrollment is disabled"), s)
  | Some _, Err e => (Err e, s)
  | Some oidc, Ok access_token =>
      match complete oidc enrollment_id id_token access_token env (sr_oidc s) with
      | (Err e, st) => (Err (invalid_enrollment e), {| sr_oidc := st; sr_database := sr_database s |})
      | (Ok completed, st) =>
          let '(r, c) := service_enroll_device device_id (cm_hostname completed) (cm_issuer completed)
            (cm_subject completed) (Some (cm_idp_claims completed)) csr_der now (sr_database s) in
          (r, {| sr_oidc := st; sr_database := c |})
      end
  end.

(** [renew_device_certificate]. *)
Definition renew_device_certificate (rq : Request) (csr_der : string) (answer : UserInfoAnswer) (now : Z)
  : RPC IssuedCertificate :=
  let* device_id := authenticate_device rq answer in
  rpc_lift (if fa_certificates sv then map_err invalid_csr (issue_certificate device_id csr_der now)
            else Err (status FailedPrecondition "device certificate issuance is disabled")).

(** *** Credentials for the LLM gateway *)

(** The audience and clients of the current configuration. *)
Definition controller_jwt (gateway : LlmGatewayConfig) : result (string * gset string) Status :=
  match gw_authentication gateway with
  | Some (ControllerJwt audience allowed_client_ids) => Ok (audience, allowed_client_ids)
  | _ => Err (status FailedPrecondition "LLM gateway does not use controller JWT authentication")
  end.
(** The checks of [get_llm_gateway_credential] on the configuration: the audience, and
    whether the credential is for a subscription. *)
Definition credential_request (current : option PushedConfig) (client_id : string) (subscription : bool)
  : result (string * bool) Status :=
  let? daemon := ok_or current (status FailedPrecondition "no daemon configuration is active") in
  let? yaml := if utf8_valid (pc_yaml daemon) then Ok (pc_yaml daemon)
               else Err (status Internal "daemon configuration is not UTF-8") in
  let? config := map_err internal (parse_daemon parse_url daemon_from_str yaml) in
  let? gateway := ok_or (dm_llm_gateway config) (status NotFoundCode "LLM gateway is not configured") in
  let? (audience, allowed_client_ids) := controller_jwt gateway in
  if negb (bool_decide (client_id ∈ allowed_client_ids))
  then Err (status PermissionDenied "client_id is not allowed")
  else Ok (audience, subscription && subscription_is_configured_for_client (dm_programs config) client_id).
(** [get_llm_gateway_credential]. *)
Definition get_llm_gateway_credential (rq : Request) (current : option PushedConfig) (client_id : string)
    (subscription : bool) (answer : UserInfoAnswer) (now : Z) : RPC (string * Z) :=
  let* device_id := authenticate_device rq answer in
  if negb (valid_client_id client_id) then st_err (status InvalidArgument "invalid client_id")
  else
    let* (audience, subscription) := rpc_lift (credential_request current client_id subscription) in
    let* issuer := rpc_lift (ok_or (fa_gateway_jwt_issuer sv)
                     (status FailedPrecondition "controller gateway JWT issuer is not configured")) in
    let* principal := db_call (device_principal device_id) in
    let subject := if is_empty (dp_subject principal) then device_id else dp_subject principal in
    rpc_lift (map_err internal
      (issue_credential issuer subject device_id client_id audience (dp_idp_claims principal) subscription now)).

(** [get_device_usage]. *)
Definition usage_status (e : UsageError) : Status :=
  match e with
  | InvalidQuery message => status InvalidArgument message
  | Storage error => internal error
  end.
Definition get_device_usage (rq : Request) (range : string) (utc_offset_minutes : Z)
    (answer : UserInfoAnswer) (now : Z) : RPC DeviceUsageResponse :=
  let* device_id := authenticate_device rq answer in
  st_map_err usage_status
    (usage (device_usage (Some device_id) range utc_offset_minutes now (fa_usage_enabled sv))).

(** *** The device stream *)

(** [store_config_status]: a report the controller rejects keeps the last program rows. *)
Definition store_config_status (device_id : string) (s : WireStatus) (now : Z) : DB unit :=
  match validate_program_status s with
  | Err _ => update_device_config_state device_id s now
  | Ok _ => update_config_status device_id s now
  end.
(** [handle_agent_message]; [id] is the new UUID of a telemetry event. *)
Definition handle_agent_message (device_id : string) (message : AgentMessage) (now : Z) (id : string) : DB unit :=
  match message with
  | MHello hello => update_hello device_id hello now
  | MHeartbeat unix_time_seconds => update_heartbeat device_id unix_time_seconds
  | MInventory inventory => replace_inventory device_id inventory
  | MConfigStatus s => store_config_status device_id s now
  | MTelemetry event => insert_telemetry device_id id event
  | MNone => st_ret tt
  end.

(** What the stream's task selects: a message, the end or an error of the stream, or the
    check of the access token every five minutes. *)
Inductive StreamEvent : Type :=
| Received (message : AgentMessage) (now : Z) (id : string)
| StreamClosed
| StreamFailed
| Revalidate (answer : UserInfoAnswer).
(** One turn of the loop: an error ends it, with the status the device is sent. *)
Definition on_stream_event (oidc : Provider) (access_token device_id : string) (enrolled : DevicePrincipal)
    (event : StreamEvent) : ST (Connection FleetTables) (option Status) unit :=
  match event with
  | Revalidate answer =>
      match authenticate_access_token oidc access_token answer with
      | Ok principal =>
          if oidc_principals_match principal enrolled then st_ret tt
          else st_err (Some (status PermissionDenied "OIDC principal changed"))
      | Err error =>
          let s := invalid_access_token error in
          if decide (st_code s = Unavailable) then st_ret tt else st_err (Some s)
      end
  | Received message now id =>
      match message with
      | MHello hello =>
          if negb (String.eqb (hl_device_id hello) device_id) then st_err None
          else st_map_err (fun _ => None) (handle_agent_message device_id message now id)
      | _ => st_map_err (fun _ => None) (handle_agent_message device_id message now id)
      end
  | StreamClosed | StreamFailed => st_err None
  end.
(** The task of a connected device, over what it selects in turn. *)
Definition device_stream (oidc : Provider) (access_token device_id : string) (events : list StreamEvent)
  : ST (Connection FleetTables) (option Status) unit :=
  let* enrolled := st_map_err (fun _ => None) (device_principal device_id) in
  st_iter (on_stream_event oidc access_token device_id enrolled) events.
(** [connect] up to its tasks: the device, the provider and the token they use. *)
Definition connect (rq : Request) (answer : UserInfoAnswer) : RPC (string * Provider * string) :=
  let* device_id := authenticate_device rq answer in
  let* oidc := rpc_lift (ok_or (fa_oidc sv)
                 (status FailedPrecondition "OIDC access-token validation is disabled")) in
  let* access_token := rpc_lift (bearer_credential rq) in
  st_ret (device_id, oidc, access_token).
End service.

(** ** The administrator's pages *)

Inductive AdminError : Type :=
| AdminInternal (error : string)
| AdminNotFound
| AdminBadRequest (message : string).
(** [IntoResponse for AdminError]. *)
Definition admin_response (e : AdminError) : Z * string :=
  match e with
  | AdminNotFound => (404, "device not found")
  | AdminBadRequest message => (400, message)
  | AdminInternal _ => (500, "controller state error")
  end.
Definition admin_usage_error (e : UsageError) : AdminError :=
  match e with InvalidQuery message => AdminBadRequest message | Storage error => AdminInternal error end.

Record Overview : Type := {
  ov_total_devices : Z;
  ov_online_devices : Z;
  ov_offline_devices : Z;
  ov_config_failures : Z;
  ov_active_revision : option Z;
  ov_recent_devices : list DeviceSummary;
}.

Section admin.
Context {C : RowCodec}.
Variable parse_url : string -> result Url string.
Variable daemon_from_str : string -> result DaemonConfig string.

Abbreviation AdminCall := (ST (Connection FleetTables) AdminError).
Definition admin_call {A} (m : DB A) : AdminCall A := st_map_err AdminInternal m.

(** [overview], at [now]: [i64] and [usize] arithmetic wraps. *)
Definition i64_wrap (z : Z) : Z := (z + 2 ^ 63) mod 2 ^ 64 - 2 ^ 63.
Definition is_online (now : Z) (d : DeviceSummary) : bool :=
  is_some_and (fun last_seen => i64_wrap (now - last_seen) <=? 90) (ds_last_seen_at d).
Definition overview (current : option PushedConfig) (now : Z) : AdminCall Overview :=
  let* devices := admin_call list_devices in
  let total := Z.of_nat (length devices) in
  let online := Z.of_nat (length (retain (is_online now) devices)) in
  st_ret
    {| ov_total_devices := total; ov_online_devices := online;
       ov_offline_devices := (total - online) mod 2 ^ 64;
       ov_config_failures :=
         Z.of_nat (length (retain (fun d => bool_decide (ds_config_state d = Some 2)) devices));
       ov_active_revision := pc_revision <$> current; ov_recent_devices := take 5 devices |}.
(** [devices], [device], [delete_device], [usage_report] and [daemon_config]. *)
Definition admin_devices : AdminCall (list DeviceSummary) := admin_call list_devices.
Definition admin_device (device_id : string) : AdminCall DeviceDetail :=
  let* device := admin_call (get_device device_id) in
  match device with Some detail => st_ret detail | None => st_err AdminNotFound end.
Definition admin_delete_device (device_id : string) : AdminCall Z :=
  let* deleted := admin_call (delete_device device_id) in
  if negb deleted then st_err AdminNotFound else st_ret 204.
Definition admin_usage_report (q : UsageQuery) (now : Z) (usage_enabled : bool) : AdminCall UsageReport :=
  let* names := admin_call labels in
  st_map_err admin_usage_error (usage (report q now usage_enabled names)).
Definition admin_daemon_config (current : option PushedConfig) : AdminCall (option DaemonConfig) := fun c =>
  (match current with
   | None => Ok None
   | Some active =>
       if utf8_valid (pc_yaml active) then
         match parse_daemon parse_url daemon_from_str (pc_yaml active) with
         | Ok config => Ok (Some config)
         | Err e => Err (AdminInternal e)
         end
       else Err (AdminInternal (context "daemon config is not UTF-8" "invalid utf-8 sequence"))
   end, c).
End admin.
