(* ===== verification/ControllerReports.v ===== *)
(** * Configuration reports, from the daemon to the administrator's page

    What a daemon reports passes the controller's checks, replaces the last report and
    is what the device's page shows; a report that does not pass leaves the programs. *)

From S2P Require Import Prelude Str Net Fs Json Config Reconcile Shared SyntaxTree VsCodeSettings.
From S2P Require Import Programs Tick Remote Sql Fleet Usage UsageStore UsageReport ControllerDb.
From S2P Require Import ControllerRows ControllerOidc ControllerConfig ControllerService.

Section codec.
Context {C : RowCodec}.

(** The page's entry of a reported program. *)
Definition shown_program (s : WireStatus) (now : Z) (p : ProgramStatus) : ProgramStatusRecord :=
  {| ps_name := ps_program p; ps_state_name := program_state_name (ps_state p);
     ps_status_detail := ps_detail p; ps_revision := i64_or_max (ws_revision s); ps_updated_at := now |}.
Lemma shown_programs d s now : map read_program (program_rows d s now) = map (shown_program s now) (ws_programs s).
Proof.
  unfold program_rows. rewrite map_map. generalize (ws_programs s) as l. intros l.
  assert (forall n, map (fun e => read_program (d, ps_program (snd e), program_row s now (fst e) (snd e)))
    (imap (fun i p => (n + i, p)%nat) l) = map (shown_program s now) l) as H; [|exact (H 0%nat)].
  induction l as [|p l IH]; intros n; simpl; [done|]. f_equal. rewrite <- (IH (S n)). f_equal.
  apply imap_ext. intros i x _. simpl. f_equal. lia.
Qed.

(** A status as a device's page shows it. *)
Record page_shows (s : WireStatus) (now : Z) (detail : DeviceDetail) : Prop := {
  pg_revision : ds_config_revision (dt_device detail) = Some (i64_or_max (ws_revision s));
  pg_state : ds_config_state (dt_device detail) = Some (ws_state s);
  pg_error : ds_config_error (dt_device detail) = Some (ws_error s);
  pg_updated : ds_config_updated_at (dt_device detail) = Some now;
}.

Lemma state_stored d s now c r c' : update_device_config_state d s now c = (r, c') ->
  (r <> Ok tt /\ tables c' = tables c) \/
  tables c' = set_config_status (<[d := status_row s
      (default 0 (cr_programs_reported <$> device_config_status (tables c) !! d)) now]>
    (device_config_status (tables c))) (tables c).
Proof.
  unfold update_device_config_state. intros H%statement_cases.
  assert (forall t, upsert_status d s None now (tables c) = Some (tt, t) ->
    t = set_config_status (<[d := status_row s
      (default 0 (cr_programs_reported <$> device_config_status (tables c) !! d)) now]>
    (device_config_status (tables c))) (tables c)) as Hs.
  { unfold upsert_status. destruct (devices (tables c) !! d); [|done]. intros t [= <-]. done. }
  destruct r as [[]|e]; [right; by apply Hs|].
  destruct H as [H|([] & H)]; [by left|right; by apply Hs].
Qed.

(** C20. A device's report, once the controller acknowledged it or changed anything for it, is
    what its page shows: the revision, state and error always; the programs, in the order
    they were reported, when the report passes the controller's checks; and otherwise the
    programs and their flag of the last report that did. *)
Theorem reported_status_is_shown d s now c r c' detail c'' :
  store_config_status d s now c = (r, c') -> r = Ok tt \/ tables c' <> tables c ->
  get_device d c' = (Ok (Some detail), c'') ->
  page_shows s now detail /\
  match validate_program_status s with
  | Ok _ => dt_programs detail = map (shown_program s now) (ws_programs s) /\
            dt_programs_reported detail = Some (ws_programs_reported s)
  | Err _ => dt_programs detail = map read_program (device_programs d (tables c)) /\
             dt_programs_reported detail
             = Some (negb (default 0 (cr_programs_reported <$> device_config_status (tables c) !! d) =? 0))
  end.
Proof.
  intros Hst Hr [_ (row & Hrow & Hdev & _ & _ & _ & Hp & Hrep)]%get_device_inv.
  unfold store_config_status in Hst. destruct (validate_program_status s) as [[]|e] eqn:Hv.
  - apply update_config_status_inv in Hst as [[? ?]|(base & _ & Hnd & Hbase & Ht)]; [naive_solver|].
    rewrite Hp, Hrep, (device_programs_after d s now _ base Hnd Hbase) by (by rewrite Ht).
    rewrite shown_programs, Ht. simpl. rewrite lookup_insert_eq. split.
    + split; rewrite Hdev, Ht; simpl; by rewrite lookup_insert_eq.
    + split; [done|]. simpl. by destruct (ws_programs_reported s).
  - apply state_stored in Hst as [[? ?]|Ht]; [naive_solver|]. rewrite Hp, Hrep, Ht. simpl.
    rewrite lookup_insert_eq. split; [|by split].
    split; rewrite Hdev, Ht; simpl; by rewrite lookup_insert_eq.
Qed.
End codec.

(** ** The daemon's own reports *)

(** The checks, as the conditions they are. *)
Lemma validate_programs_ok seen l :
  (forall p, p ∈ l -> (ps_program p ∉ seen) /\ ps_program p <> "" /\ (String.length (ps_program p) <= 64)%nat /\
     str_all is_program_byte (ps_program p) = true /\ (String.length (ps_detail p) <= 2048)%nat) ->
  NoDup (map ps_program l) -> validate_programs seen l = Ok tt.
Proof.
  revert seen. induction l as [|p l IH]; intros seen Hl Hnd; simpl; [done|].
  apply NoDup_cons in Hnd as [Hnew Hnd].
  destruct (Hl p ltac:(by left)) as (Hs & He & Hlen & Hb & Hd). unfold validate_program.
  rewrite (proj2 (Nat.leb_le _ _) Hlen), Hb, bool_decide_false by done.
  rewrite (proj2 (Nat.leb_le _ _) Hd). destruct (ps_program p) as [|a rest] eqn:Hp; [done|]. simpl. rewrite <- Hp.
  apply IH; [|done]. intros q Hq. destruct (Hl q ltac:(by right)) as (Hs' & ?). split; [|done].
  intros [Heq%elem_of_singleton|?]%elem_of_union; [|done]. apply Hnew. rewrite <- Hp, <- Heq. by apply list_elem_of_fmap_2.
Qed.

(** A daemon's status that passes the controller's checks of its programs. *)
Definition passes_checks (s : ConfigStatus) : Prop := validate_program_status (wire_status s) = Ok tt.

Section daemon.
Context {U : UrlOps} {P : Printers} {T : SyntaxTree} {JC : JsonCodec} {S : SettingsPrinter}.
Variable current_dir : result path io_kind.

(** The programs of a daemon's reconciler. *)
Definition program_ids : list string :=
  ["claude-code"; "claude-desktop"; "codex"; "opencode"; "vscode"; "cursor"; "grok"; "copilot"; "pi"; "ollama"].
Lemma reconciler_ids cc cdm cdh cx oc op gk cp vm vs pm ps :
  map provider_id (reconciler_providers current_dir cc cdm cdh cx oc op gk cp vm vs pm ps) = program_ids.
Proof. reflexivity. Qed.

Lemma attributed_report_accepted rng r config s report res s' revision res' :
  map provider_id (rc_providers r) = program_ids ->
  attributed_apply rng (plan_with_report r config s) s = (report, res, s') ->
  validate_program_status (wire_status (config_status revision (program_statuses report) res')) = Ok tt.
Proof.
  intros Hids. unfold attributed_apply. set (ap := plan_with_report r config s).
  pose proof (at_ids _ _ (plan_with_report_attributed r config s)) as Hap. fold ap in Hap.
  destruct (run_plan rng ap s) as [[res0 stop] s0]. intros [= <- _ _].
  set (outcomes := filter_map _ (ap_entries ap)).
  assert (ws_programs (wire_status (config_status revision
            (program_statuses {| ar_programs := outcomes; ar_sequence := 0 |}) res'))
          = map (fun o => {| ps_program := po_program o; ps_state := program_state_proto (po_state o);
                             ps_detail := po_detail o |}) outcomes) as Hw by (by destruct res').
  assert (map po_program outcomes `sublist_of` program_ids) as Hsub.
  { rewrite <- Hids, <- Hap. apply reported_programs. }
  unfold validate_program_status. rewrite Hw.
  assert ((length outcomes <= 10)%nat) as Hlen.
  { apply sublist_length in Hsub. by rewrite length_map in Hsub. }
  rewrite length_map. destruct (Nat.ltb_spec 32 (length outcomes)); [lia|].
  apply validate_programs_ok.
  - intros p (o & -> & Ho)%list_elem_of_fmap. simpl. split; [set_solver|].
    assert (po_program o ∈ program_ids) as Hin.
    { apply (elem_of_sublist (map po_program outcomes)); [by apply list_elem_of_fmap_2|done]. }
    assert (forall x, x ∈ program_ids -> x <> "" /\ (String.length x <= 64)%nat /\ str_all is_program_byte x = true) as Hall.
    { apply Forall_forall. repeat (apply List.Forall_cons; [split_and!; [done|simpl; lia|done]|]). apply List.Forall_nil. }
    destruct (Hall _ Hin) as (? & ? & ?). split_and!; try done.
    apply elem_of_filter_map in Ho as (e & _ & Hd%reported_detail). unfold DETAIL_LIMIT in Hd. lia.
  - rewrite map_map. simpl. apply (sublist_NoDup _ program_ids); [by apply (bool_decide_unpack _)|done].
Qed.

(** C32. A daemon never sends a report the controller rejects: the status that answers a pushed
    configuration, whatever it is and however it ends, and the status of every tick name
    at most the reconciler's programs, each once, with details that fit, so the controller
    keeps their program rows. *)
Theorem daemon_reports_are_accepted sha256 parse_url daemon_from_str state_dir rng save_rng
    cc cdm cdh cx oc op gk cp vm vs pm ps c dv ss latest r s :
  rc_providers (dv_reconciler dv) = reconciler_providers current_dir cc cdm cdh cx oc op gk cp vm vs pm ps ->
  rc_providers r = reconciler_providers current_dir cc cdm cdh cx oc op gk cp vm vs pm ps ->
  passes_checks (fst (fst (handle_push sha256 parse_url daemon_from_str state_dir rng save_rng c dv ss))) /\
  (forall out r' s', apply_current rng latest r s = (out, r', s') ->
     match out with
     | None => latest = None
     | Some (revision, _, report, res) =>
         passes_checks (config_status (default 0 revision) (program_statuses report) res)
     end).
Proof.
  intros Hdv Hr.
  assert (forall rv l, l = rc_providers rv -> rc_providers rv
      = reconciler_providers current_dir cc cdm cdh cx oc op gk cp vm vs pm ps -> map provider_id l = program_ids) as Hids.
  { intros rv l -> ->. apply reconciler_ids. }
  split.
  - unfold handle_push. destruct (replace_current_config _ _ _ _ _) as [parsed current].
    unfold apply_parsed. destruct parsed as [config|e]; [|reflexivity]. simpl.
    unfold apply_with_report, apply_read_under_lock.
    destruct (attributed_apply _ _ _) as [[report res] s1] eqn:E. simpl.
    pose proof (fun rev res' => attributed_report_accepted _ _ _ _ _ _ _ rev res' (Hids _ _ eq_refl Hdv) E) as H.
    unfold program_statuses in *. simpl in *.
    destruct res as [[]|e]; [|apply H]. destruct (persist_config _ _ _ _) as [[[]|e] s2]; apply H.
  - intros out r' s'. unfold apply_current, apply_read_under_lock.
    destruct latest as [current|]; simpl; [|by intros [= <- _ _]].
    destruct (attributed_apply _ _ _) as [[report res] s1] eqn:E. intros [= <- _ _].
    pose proof (attributed_report_accepted _ _ _ _ _ _ _ (default 0 (cur_revision current)) res (Hids _ _ eq_refl Hr) E) as H.
    exact H.
Qed.
End daemon.
