(* ===== verification/ControllerStream.v ===== *)
(** * The device stream

    Whatever a device sends, only its own rows change, and nothing is stored once its
    user's access token is refused. *)

From S2P Require Import Prelude Str Http Json Config Reconcile Tick Remote Sql Fleet Usage UsageStore.
From S2P Require Import UsageReport ControllerDb ControllerRows ControllerOidc ControllerConfig.
From S2P Require Import ControllerService.

Lemma map_lookup_filter_all_at {K A} `{Countable K} (P : K * A -> Prop) `{!forall x, Decision (P x)}
    (m : gmap K A) k : (forall v, P (k, v)) -> filter P m !! k = m !! k.
Proof.
  intros HP. destruct (m !! k) as [v|] eqn:E.
  - apply map_lookup_filter_Some_2; [done|apply HP].
  - apply map_lookup_filter_None. by left.
Qed.

(** ** Properties the calls of a stream keep *)

Lemma keeps_rpc_lift {A} P (r : result A Status) : keeps P (rpc_lift r).
Proof. by intros c. Qed.
Lemma keeps_err {E A} P (e : E) : keeps (B := A) (T := FleetTables) P (st_err e).
Proof. by intros c. Qed.

(** A clock's reading in seconds. *)
Definition clock (now : Z) : Prop := 0 <= now <= I64_MAX.
(** What a stream's task can see: clocks do not show times before the epoch, and a
    heartbeat's time is a [u64]. *)
Definition plausible (event : StreamEvent) : Prop :=
  match event with
  | Received message now _ => clock now /\ match message with MHeartbeat t => 0 <= t | _ => True end
  | _ => True
  end.

Section codec.
Context {C : RowCodec}.

Record message_kept (P : FleetTables -> Prop) (d : string) : Prop := {
  mk_hello hello now : clock now -> keeps P (update_hello d hello now);
  mk_heartbeat t : 0 <= t -> keeps P (update_heartbeat d t);
  mk_inventory inventory : keeps P (replace_inventory d inventory);
  mk_state s now : keeps P (update_device_config_state d s now);
  mk_status s now : keeps P (update_config_status d s now);
  mk_telemetry id event : keeps P (insert_telemetry d id event);
}.
Lemma keeps_message P d message now id : message_kept P d -> plausible (Received message now id) ->
  keeps P (handle_agent_message d message now id).
Proof.
  intros [H1 H2 H3 H4 H5 H6] [Hc Ht]. destruct message; simpl; auto using keeps_ret.
  unfold store_config_status. destruct (validate_program_status _); auto.
Qed.
Lemma keeps_principal P d : keeps P (device_principal d).
Proof.
  apply keeps_bind; [apply keeps_query|]. intros row. apply keeps_bind; [apply keeps_lift|].
  intros claims. apply keeps_ret.
Qed.
Lemma keeps_event P oidc token d enrolled event : message_kept P d -> plausible event ->
  keeps P (on_stream_event oidc token d enrolled event).
Proof.
  intros HP He. assert (forall message now id, event = Received message now id ->
    keeps P (st_map_err (fun _ => None) (handle_agent_message d message now id) : ST _ (option Status) _)) as Hm.
  { intros message now id ->. by apply keeps_map_err, keeps_message. }
  destruct event as [message now id| | |answer]; simpl; try apply keeps_err.
  - destruct message as [hello| | | | |]; try by apply Hm.
    destruct (negb _); [apply keeps_err|by apply (Hm (MHello hello))].
  - destruct (authenticate_access_token _ _ _) as [p|e].
    + destruct (oidc_principals_match _ _); [apply keeps_ret|apply keeps_err].
    + destruct (decide _); [apply keeps_ret|apply keeps_err].
Qed.
Lemma keeps_stream P oidc token d events : message_kept P d -> Forall plausible events ->
  keeps P (device_stream oidc token d events).
Proof.
  intros HP He. apply keeps_bind; [apply keeps_map_err, keeps_principal|]. intros enrolled.
  apply keeps_iter. intros event Hin. apply keeps_event; [done|]. by eapply Forall_forall in He.
Qed.

(** ** Only the device's own rows *)

(** Who a device is: what does not come from the device itself. *)
Definition identity (row : DeviceRow) : Z * string * string * option string :=
  (dr_created_at row, dr_issuer row, dr_subject row, dr_idp_claims_json row).

(** [t'] has the rows of [t], but for what the device [d] may say of itself. *)
Record elsewhere (d : string) (t t' : FleetTables) : Prop := {
  el_identity d' : identity <$> devices t' !! d' = identity <$> devices t !! d';
  el_device d' : d' <> d -> devices t' !! d' = devices t !! d';
  el_status d' : d' <> d -> device_config_status t' !! d' = device_config_status t !! d';
  el_programs d' p : d' <> d -> device_program_status t' !! (d', p) = device_program_status t !! (d', p);
  el_discoveries d' k p : d' <> d -> discoveries t' !! (d', k, p) = discoveries t !! (d', k, p);
  el_runtimes d' k : d' <> d -> model_runtimes t' !! (d', k) = model_runtimes t !! (d', k);
  el_events id e : ev_device e <> d ->
    (telemetry_events t' !! id = Some e <-> telemetry_events t !! id = Some e);
  el_usage : usage_tables t' = usage_tables t;
}.
Lemma elsewhere_refl d t : elsewhere d t t.
Proof. by split. Qed.

Ltac elsewhere_same Ht :=
  destruct Ht as [E1 E2 E3 E4 E5 E6 E7 E8]; split; simpl; auto.

Lemma elsewhere_alter d f t0 t : (forall row, identity (f row) = identity row) ->
  elsewhere d t0 t -> elsewhere d t0 (set_devices (alter f d (devices t)) t).
Proof.
  intros Hf Ht. elsewhere_same Ht.
  - intros d'. rewrite <- E1. destruct (decide (d' = d)) as [->|].
    + rewrite lookup_alter_eq. destruct (devices t !! d); simpl; [|done]. by rewrite Hf.
    + by rewrite lookup_alter_ne.
  - intros d' Hne. rewrite lookup_alter_ne by done. auto.
Qed.
Lemma elsewhere_upsert d s reported now t0 t t' :
  elsewhere d t0 t -> upsert_status d s reported now t = Some (tt, t') -> elsewhere d t0 t'.
Proof.
  intros Ht. unfold upsert_status. destruct (devices t !! d); [|done]. intros [= <-].
  elsewhere_same Ht. intros d' Hne. rewrite lookup_insert_ne by done. auto.
Qed.

Lemma elsewhere_kept d t0 : message_kept (elsewhere d t0) d.
Proof.
  split.
  - intros hello now _. apply keeps_statement. intros t [] t' Ht [= <-]. by apply elsewhere_alter.
  - intros x _. apply keeps_statement. intros t [] t' Ht [= <-]. by apply elsewhere_alter.
  - intros inventory.
    apply keeps_transaction, keeps_bind; [|intros _; apply keeps_bind; [|intros _; apply keeps_bind; [|intros _]]].
    + apply keeps_statement. intros t [] t' Ht [= <-]. elsewhere_same Ht.
      intros d' k p Hne. rewrite <- E5 by done. by apply map_lookup_filter_all_at.
    + apply keeps_iter. intros a _. apply keeps_bind; [apply keeps_lift|]. intros skills.
      apply keeps_statement. intros t [] t' Ht (_ & _ & ->)%(insert_row_inv _ _). elsewhere_same Ht.
      intros d' k p Hne. rewrite lookup_insert_ne by congruence. auto.
    + apply keeps_statement. intros t [] t' Ht [= <-]. elsewhere_same Ht.
      intros d' k Hne. rewrite <- E6 by done. by apply map_lookup_filter_all_at.
    + apply keeps_iter. intros a _.
      apply keeps_statement. intros t [] t' Ht (_ & _ & ->)%(insert_row_inv _ _). elsewhere_same Ht.
      intros d' k Hne. rewrite lookup_insert_ne by congruence. auto.
  - intros s now. apply keeps_statement. intros t [] t' Ht. by apply elsewhere_upsert.
  - intros s now. apply keeps_bind; [apply keeps_lift|]. intros _.
    apply keeps_transaction, keeps_bind; [|intros _; apply keeps_bind; [|intros _]].
    + apply keeps_statement. intros t [] t' Ht. by apply elsewhere_upsert.
    + apply keeps_statement. intros t [] t' Ht [= <-]. elsewhere_same Ht.
      intros d' p Hne. rewrite <- E4 by done. by apply map_lookup_filter_all_at.
    + apply keeps_iter. intros [i p] _. apply keeps_statement.
      intros t [] t' Ht (_ & _ & ->)%(insert_row_inv _ _). elsewhere_same Ht.
      intros d' q Hne. rewrite lookup_insert_ne by congruence. auto.
  - intros id event. apply keeps_bind; [apply keeps_lift|]. intros [event_type payload].
    apply keeps_statement. intros t [] t' Ht (_ & Hnew & ->)%(insert_row_inv _ _). elsewhere_same Ht.
    intros id' e Hne. rewrite <- E7 by done. destruct (decide (id' = id)) as [->|].
    + rewrite lookup_insert_eq, Hnew. split; [|done]. intros [= <-]. by destruct Hne.
    + by rewrite lookup_insert_ne.
Qed.

(** C14. A device can only change what the controller keeps about itself, and never who it is:
    after any stream of messages, in any order, whatever fails in the database, the rows
    of every other device, every other device's telemetry and the gateway's usage are
    what they were, no device was added or removed, and no device's enrolled user,
    claims or enrollment time changed. *)
Theorem streams_change_their_own_device_only oidc token d events c :
  Forall plausible events ->
  elsewhere d (tables c) (tables (snd (device_stream oidc token d events c))).
Proof.
  intros He. apply keeps_stream; [apply elsewhere_kept|done|apply elsewhere_refl].
Qed.

(** ** The user's access *)

(** The UserInfo answers after which a device may not go on: the token is refused, or it
    is another user's. An endpoint that cannot be asked is not one of them. *)
Definition access_lost (oidc : Provider) (enrolled : DevicePrincipal) (answer : UserInfoAnswer) : Prop :=
  match answer with
  | NoAnswer => False
  | Answered s subject =>
      if decide (400 <= s <= 599) then s = 401 \/ s = 403
      else match subject with
           | None => False
           | Some subject =>
               ~ (subject <> "" /\ dp_issuer enrolled <> "" /\
                  op_issuer oidc = dp_issuer enrolled /\ subject = dp_subject enrolled)
           end
  end.
Lemma is_empty_false s : is_empty s = false <-> s <> "".
Proof. by destruct s. Qed.
Lemma principals_match p e : oidc_principals_match p e = true <->
  dp_issuer e <> "" /\ dp_subject e <> "" /\ pn_issuer p = dp_issuer e /\ pn_subject p = dp_subject e.
Proof.
  unfold oidc_principals_match. rewrite !andb_true_iff, !negb_true_iff, !is_empty_false, !String.eqb_eq. tauto.
Qed.
Lemma revalidation oidc token d enrolled answer (c : Connection FleetTables) : token <> "" ->
  (~ access_lost oidc enrolled answer ->
     on_stream_event oidc token d enrolled (Revalidate answer) c = (Ok tt, c)) /\
  (access_lost oidc enrolled answer ->
     exists s, on_stream_event oidc token d enrolled (Revalidate answer) c = (Err (Some s), c) /\
       (st_code s = Unauthenticated \/ st_code s = PermissionDenied)).
Proof.
  intros Ht%is_empty_false. simpl. unfold authenticate_access_token. rewrite Ht.
  destruct answer as [|s subject]; simpl; [by split|].
  destruct (decide (400 <= s <= 599)) as [Hs|Hs].
  - rewrite (proj2 (Z.leb_le 400 s)), (proj2 (Z.leb_le s 599)) by lia. simpl.
    destruct (Z.eqb_spec s 401); [split; [intros []; by left|intros _; by eexists; split; [|left]]|].
    destruct (Z.eqb_spec s 403); [split; [intros []; by right|intros _; by eexists; split; [|left]]|].
    simpl. split; [done|]. intros [?|?]; lia.
  - assert ((400 <=? s) && (s <=? 599) = false) as ->.
    { apply not_true_iff_false. intros [?%Z.leb_le ?%Z.leb_le]%andb_prop. lia. }
    destruct subject as [subject|]; [|by split].
    destruct (is_empty subject) eqn:Hsub.
    { destruct subject; [|done]. split; [intros []; by intros []|intros _; by eexists; split; [|left]]. }
    apply is_empty_false in Hsub. simpl.
    destruct (oidc_principals_match _ enrolled) eqn:Hm.
    + apply principals_match in Hm as (Hi & _ & Hi' & Hs'). simpl in *. split; [done|]. intros Hl. by destruct Hl.
    + split; [|intros _; by eexists; split; [|right]]. intros Hl. exfalso. apply Hl. intros (_ & Hi & Hi' & Hs').
      assert (oidc_principals_match {| pn_issuer := op_issuer oidc; pn_subject := subject |} enrolled = true) as Hm'.
      { apply principals_match. simpl. by rewrite <- Hs'. }
      congruence.
Qed.

(** C34. Nothing is stored for a device whose user lost access: once a check of the access
    token finds it refused, or another user's, the stream ends with that status and the
    tables are as the messages before the check left them; a check that finds the user
    unchanged, or cannot reach the provider, changes nothing at all. *)
Theorem stream_ends_when_access_is_lost oidc token d enrolled before answer after c c1 :
  token <> "" -> device_principal d c = (Ok enrolled, c1) ->
  let run events := device_stream oidc token d events c in
  (~ access_lost oidc enrolled answer -> run (before ++ Revalidate answer :: after) = run (before ++ after)) /\
  (access_lost oidc enrolled answer ->
     snd (run (before ++ Revalidate answer :: after)) = snd (run before) /\
     (fst (run before) = Ok tt ->
        exists s, fst (run (before ++ Revalidate answer :: after)) = Err (Some s) /\
          (st_code s = Unauthenticated \/ st_code s = PermissionDenied))).
Proof.
  intros Ht Hp. unfold device_stream, st_bind, st_map_err. rewrite Hp. cbv zeta.
  assert (forall c events more,
    st_iter (on_stream_event oidc token d enrolled) (events ++ more) c
    = match st_iter (on_stream_event oidc token d enrolled) events c with
      | (Ok _, c') => st_iter (on_stream_event oidc token d enrolled) more c'
      | (Err e, c') => (Err e, c')
      end) as Happ.
  { intros c0 events more. revert c0. induction events as [|event events IH]; intros c0; [done|].
    cbn [app st_iter]. unfold st_bind. destruct (on_stream_event _ _ _ _ event c0) as [[[]|e] c2]; [apply IH|done]. }
  rewrite !Happ. destruct (st_iter _ before c1) as [[[]|e] c2]; [|by split].
  cbn [st_iter]. unfold st_bind. destruct (revalidation oidc token d enrolled answer c2 Ht) as [Hok Hlost].
  split; [intros Hl; by rewrite (Hok Hl)|].
  intros (s & -> & Hs)%Hlost. split; [done|]. intros _. by exists s.
Qed.
End codec.
