(* ===== verification/ControllerAccess.v ===== *)
(** * Who may use a device

    All the controller's calls together: a device belongs to the user whose sign-in
    enrolled it, for ever, and no other user's access token works with its certificate;
    a gateway credential names that user and that device. *)

From S2P Require Import Prelude Str Http Json Config Reconcile Tick Remote Sql Fleet Usage UsageStore.
From S2P Require Import UsageReport ControllerDb ControllerRows ControllerOidc ControllerEnrollment.
From S2P Require Import ControllerConfig ControllerService ControllerStream.

Section service.
Context {C : RowCodec} {X : Certificates} {H : HeaderMap} {J : JwtOps} {U : UrlBuilder}.
Variable parse_url : string -> result Url string.
Variable daemon_from_str : string -> result DaemonConfig string.
Variable sv : FleetAgentService.

(** ** Authentication *)

(** What a request that was let through shows: the certificate's device, the provider
    and the user its access token belongs to. *)
Record authenticated (rq : Request) (answer : UserInfoAnswer) (t : FleetTables) (d : string)
    (oidc : Provider) (token : string) (row : DeviceRow) : Prop := {
  au_certificate : peer_certificate_device_id (rq_peer_certs rq) = Ok (Some d);
  au_provider : fa_oidc sv = Some oidc;
  au_token : bearer_credential rq = Ok token;
  au_row : devices t !! d = Some row;
  au_enrolled : dr_issuer row <> "" /\ dr_subject row <> "";
  au_user : authenticate_access_token oidc token answer
            = Ok {| pn_issuer := dr_issuer row; pn_subject := dr_subject row |};
}.
Lemma rpc_lift_inv {A} (r : result A Status) c a c' : rpc_lift r c = (Ok a, c') -> r = Ok a /\ c' = c.
Proof. by intros [= -> ->]. Qed.
Lemma device_principal_inv d c p c' : device_principal d c = (Ok p, c') ->
  tables c' = tables c /\ exists row, devices (tables c) !! d = Some row /\
    dp_issuer p = dr_issuer row /\ dp_subject p = dr_subject row /\
    match dr_idp_claims_json row with
    | None => dp_idp_claims p = None
    | Some text => exists claims, parse_claims text = Ok claims /\ dp_idp_claims p = Some claims
    end.
Proof.
  unfold device_principal. intros Hp.
  apply st_bind_inv in Hp as [(e & _ & ?)|(row & c1 & [Ht Hrow]%query_tables & Hp)]; [done|].
  specialize (Hrow _ eq_refl).
  apply st_bind_inv in Hp as [(e & _ & ?)|(claims & c2 & [Hc ->]%db_lift_inv & Hp)]; [done|].
  injection Hp as <- <-. split; [done|]. exists row. split; [done|]. split; [done|]. split; [done|]. simpl.
  revert Hc. destruct (dr_idp_claims_json row) as [text|]; [|by intros [= <-]].
  destruct (parse_claims text) as [m|e]; [|done]. intros [= <-]. by exists m.
Qed.
Lemma map_err_Ok {A E F} (f : E -> F) (r : result A E) a : map_err f r = Ok a -> r = Ok a.
Proof. destruct r; [by intros [= ->]|done]. Qed.
Lemma ok_or_Ok {A E} (o : option A) (e : E) a : ok_or o e = Ok a -> o = Some a.
Proof. destruct o; [|done]. by intros [= ->]. Qed.

Lemma authenticate_device_inv rq answer c d c' : authenticate_device sv rq answer c = (Ok d, c') ->
  tables c' = tables c /\ exists oidc token row, authenticated rq answer (tables c) d oidc token row.
Proof.
  unfold authenticate_device, authenticate_device_identity, authenticate_device_certificate_identity. intros Hr.
  apply st_bind_inv in Hr as [(e & _ & ?)|(certificate & c1 & [Hcert ->]%rpc_lift_inv & Hr)]; [done|].
  apply st_bind_inv in Hr as [(e & _ & ?)|(d' & c2 & [Hd%ok_or_Ok ->]%rpc_lift_inv & Hr)]; [done|]. subst certificate.
  apply st_bind_inv in Hr as [(e & _ & ?)|(token & c3 & [Htok ->]%rpc_lift_inv & Hr)]; [done|].
  apply st_bind_inv in Hr as [(e & _ & ?)|(oidc & c4 & [Hoidc%ok_or_Ok ->]%rpc_lift_inv & Hr)]; [done|].
  apply st_bind_inv in Hr as [(e & _ & ?)|(p & c5 & [Hp%map_err_Ok ->]%rpc_lift_inv & Hr)]; [done|].
  apply st_bind_inv in Hr as [(e & _ & ?)|(enrolled & c6 & He & Hr)]; [done|].
  apply st_map_err_inv in He as (r0 & He & Hr0). destruct r0 as [enrolled'|e]; [|done]. injection Hr0 as <-.
  apply device_principal_inv in He as (Ht & row & Hrow & Hi & Hs & _).
  destruct (oidc_principals_match p enrolled) eqn:Hm; [|done]. injection Hr as <- <-. split; [done|].
  apply principals_match in Hm as (H1 & H2 & H3 & H4). exists oidc, token, row. split; try done.
  - by rewrite <- Hi, <- Hs.
  - rewrite Hp. destruct p as [i s]. simpl in *. congruence.
Qed.

(** ** Gateway credentials *)

Lemma credential_request_inv current client_id subscription audience billed :
  credential_request parse_url daemon_from_str current client_id subscription = Ok (audience, billed) ->
  exists pushed config gateway allowed,
    current = Some pushed /\ parse_daemon parse_url daemon_from_str (pc_yaml pushed) = Ok config /\
    dm_llm_gateway config = Some gateway /\
    gw_authentication gateway = Some (ControllerJwt audience allowed) /\ client_id ∈ allowed /\
    (billed = true <-> subscription = true /\ is_Some (subscription_auth (dm_programs config) client_id)).
Proof.
  unfold credential_request. destruct current as [pushed|]; [|done]. cbn.
  destruct (utf8_valid _); [|done]. destruct (parse_daemon _ _ _) as [config|e] eqn:Hp; [|done]. cbn.
  destruct (dm_llm_gateway config) as [gateway|] eqn:Hg; [|done]. cbn. unfold controller_jwt.
  destruct (gw_authentication gateway) as [[aud allowed|]|] eqn:Ha; try done.
  destruct (bool_decide (client_id ∈ allowed)) eqn:Hin; [|done]. intros [= <- <-].
  exists pushed, config, gateway, allowed. split_and!; try done; [by apply bool_decide_eq_true in Hin|].
  unfold subscription_is_configured_for_client. rewrite andb_true_iff.
  destruct (subscription_auth _ _); simpl; split; naive_solver.
Qed.
Lemma credential_inv rq current client_id subscription answer now c credential expires c' :
  get_llm_gateway_credential parse_url daemon_from_str sv rq current client_id subscription answer now c
  = (Ok (credential, expires), c') ->
  exists d oidc token row issuer pushed config gateway allowed audience idp billed,
    authenticated rq answer (tables c) d oidc token row /\
    fa_gateway_jwt_issuer sv = Some issuer /\
    current = Some pushed /\ parse_daemon parse_url daemon_from_str (pc_yaml pushed) = Ok config /\
    dm_llm_gateway config = Some gateway /\
    gw_authentication gateway = Some (ControllerJwt audience allowed) /\ client_id ∈ allowed /\
    (billed = true <-> subscription = true /\ is_Some (subscription_auth (dm_programs config) client_id)) /\
    valid_client_id client_id = true /\
    match dr_idp_claims_json row with
    | None => idp = None
    | Some text => exists m, parse_claims text = Ok m /\ idp = Some m
    end /\
    gj_sign issuer (gateway_claims issuer (dr_subject row) d client_id audience idp billed now) = Ok credential /\
    expires = Z.min U64_MAX (now + gj_lifetime issuer / secs 1) /\ tables c' = tables c.
Proof.
  unfold get_llm_gateway_credential. intros Hr.
  apply st_bind_inv in Hr as [(e & _ & ?)|(d & c1 & Ha & Hr)]; [done|].
  apply authenticate_device_inv in Ha as (Ht1 & oidc & token & row & Hau).
  destruct (valid_client_id client_id) eqn:Hv; [|done]. cbn [negb] in Hr.
  apply st_bind_inv in Hr as [(e & _ & ?)|([audience billed] & c2 & [Hreq ->]%rpc_lift_inv & Hr)]; [done|].
  apply credential_request_inv in Hreq as (pushed & config & gateway & allowed & H1 & H2 & H3 & H4 & H5 & H6).
  apply st_bind_inv in Hr as [(e & _ & ?)|(issuer & c3 & [Hi%ok_or_Ok ->]%rpc_lift_inv & Hr)]; [done|].
  apply st_bind_inv in Hr as [(e & _ & ?)|(p & c4 & Hp & Hr)]; [done|].
  apply st_map_err_inv in Hp as (r0 & Hp & Hr0). destruct r0 as [p'|e]; [|done]. injection Hr0 as ->.
  apply device_principal_inv in Hp as (Ht2 & row' & Hrow & _ & Hs & Hclaims).
  rewrite Ht1, (au_row _ _ _ _ _ _ _ Hau) in Hrow. injection Hrow as <-.
  pose proof (au_enrolled _ _ _ _ _ _ _ Hau) as [_ Hsub]. rewrite Hs in Hr.
  rewrite (proj2 (is_empty_false _) Hsub) in Hr.
  apply rpc_lift_inv in Hr as [Hr%map_err_Ok <-]. unfold issue_credential in Hr.
  destruct (now <? 0); [done|]. cbv zeta in Hr.
  destruct (gj_sign issuer _) as [signed|e] eqn:Hsign in Hr; [|done]. injection Hr as <- <-.
  exists d, oidc, token, row, issuer, pushed, config, gateway, allowed, audience, (dp_idp_claims p'), billed.
  split_and!; try done. by rewrite Ht2.
Qed.

(** ** All the calls *)

(** The sign-in that enrolled a device: what was completed, with the access token and the
    UserInfo answer it was completed with. *)
Record SignIn : Type := {
  si_enrollment : CompletedEnrollment;
  si_token : string;
  si_answer : UserInfoAnswer;
}.
(** The sign-in that [complete_enrollment] accepts, whatever becomes of the device. *)
Definition signed_in (rq : Request) (enrollment_id id_token : string) (env : CompletionEnv) (st : OidcState)
  : option SignIn :=
  oidc ← fa_oidc sv; token ← result_ok (bearer_credential rq);
  completed ← result_ok (fst (complete oidc enrollment_id id_token token env st));
  Some {| si_enrollment := completed; si_token := token; si_answer := cv_userinfo env |}.

(** The calls besides enrollment. *)
Inductive Call : Type :=
| Renew (rq : Request) (csr_der : string) (answer : UserInfoAnswer) (now : Z)
| Credential (rq : Request) (current : option PushedConfig) (client_id : string) (subscription : bool)
    (answer : UserInfoAnswer) (now : Z)
| OwnUsage (rq : Request) (range : string) (utc_offset_minutes : Z) (answer : UserInfoAnswer) (now : Z)
| Stream (oidc : Provider) (token device_id : string) (events : list StreamEvent)
| DeleteDevice (device_id : string)
| ReadOverview (current : option PushedConfig) (now : Z)
| ReadDevice (device_id : string)
| ReadUsage (q : UsageQuery) (now : Z)
| Collect (export : ST (Connection Tables) string unit).
Definition serve (call : Call) (c : Connection FleetTables) : Connection FleetTables :=
  match call with
  | Renew rq csr answer now => snd (renew_device_certificate sv rq csr answer now c)
  | Credential rq current client_id subscription answer now =>
      snd (get_llm_gateway_credential parse_url daemon_from_str sv rq current client_id subscription answer now c)
  | OwnUsage rq range offset answer now => snd (get_device_usage sv rq range offset answer now c)
  | Stream oidc token device_id events => snd (device_stream oidc token device_id events c)
  | DeleteDevice device_id => snd (admin_delete_device device_id c)
  | ReadOverview current now => snd (overview current now c)
  | ReadDevice device_id => snd (admin_device device_id c)
  | ReadUsage q now => snd (admin_usage_report q now (fa_usage_enabled sv) c)
  | Collect export => snd (usage export c)
  end.
Definition plausible_call (call : Call) : Prop :=
  match call with Stream _ _ _ events => Forall plausible events | _ => True end.

(** The server from its start, with the sign-ins it accepted and the device identifiers
    it gave them; enrollments may begin and keys be fetched at any time. *)
Inductive service_step : Server * list (string * SignIn) -> Server * list (string * SignIn) -> Prop :=
| step_complete_enrollment s log rq enrollment_id id_token csr_der device_id env now r s' :
    clock now -> complete_enrollment sv rq enrollment_id id_token csr_der device_id env now s = (r, s') ->
    service_step (s, log)
      (s', match signed_in rq enrollment_id id_token env (sr_oidc s) with
           | Some e => (device_id, e) :: log
           | None => log
           end)
| step_pending s log st :
    service_step (s, log) ({| sr_oidc := st; sr_database := sr_database s |}, log)
| step_call s log call : plausible_call call ->
    service_step (s, log) ({| sr_oidc := sr_oidc s; sr_database := serve call (sr_database s) |}, log).

(** ** Calls that only read *)

Lemma keeps_usage {E A} (P : FleetTables -> Prop) (m : ST (Connection Tables) E A) :
  (forall t x, P t -> P (set_usage_tables x t)) -> keeps P (usage m).
Proof. intros HP c Hc. unfold usage. destruct (m _) as [r c']. simpl. by apply HP. Qed.

Ltac reads :=
  repeat (intros; first
    [ apply keeps_ret | apply keeps_err | apply keeps_query | apply keeps_lift | apply keeps_rpc_lift
    | apply keeps_principal | apply keeps_map_err | apply keeps_bind
    | match goal with |- keeps _ (match ?x with _ => _ end) => destruct x end ]).
Lemma keeps_authenticate P rq answer : keeps P (authenticate_device sv rq answer).
Proof. unfold authenticate_device, authenticate_device_identity, authenticate_device_certificate_identity. reads. Qed.

Lemma keeps_serve (P : FleetTables -> Prop) call :
  (forall d, message_kept P d) -> (forall t x, P t -> P (set_usage_tables x t)) ->
  (forall d, keeps P (delete_device d)) -> plausible_call call ->
  forall c, P (tables c) -> P (tables (serve call c)).
Proof.
  intros Hm Hu Hd Hp. destruct call; simpl.
  - change (keeps P (renew_device_certificate sv rq csr_der answer now)).
    apply keeps_bind; [apply keeps_authenticate|reads].
  - change (keeps P (get_llm_gateway_credential parse_url daemon_from_str sv rq current client_id subscription answer now)).
    apply keeps_bind; [apply keeps_authenticate|reads].
  - change (keeps P (get_device_usage sv rq range utc_offset_minutes answer now)).
    apply keeps_bind; [apply keeps_authenticate|]. intros d. apply keeps_map_err. by apply keeps_usage.
  - change (keeps P (device_stream oidc token device_id events)). by apply keeps_stream.
  - change (keeps P (admin_delete_device device_id)).
    apply keeps_bind; [by apply keeps_map_err|reads].
  - change (keeps P (overview current now)). unfold overview, admin_call, list_devices. reads.
  - change (keeps P (admin_device device_id)). unfold admin_device, admin_call, get_device, recent_telemetry. reads.
  - change (keeps P (admin_usage_report q now (fa_usage_enabled sv))). unfold admin_usage_report, admin_call, labels.
    apply keeps_bind; [reads|]. intros names. apply keeps_map_err. by apply keeps_usage.
  - change (keeps P (usage export)). by apply keeps_usage.
Qed.

(** ** What enrollment writes *)

Definition enrolled_row (e : SignIn) (now : Z) : DeviceRow :=
  {| dr_hostname := cm_hostname (si_enrollment e); dr_os := ""; dr_architecture := ""; dr_agent_version := "";
     dr_created_at := now; dr_last_seen_at := Some now; dr_issuer := cm_issuer (si_enrollment e);
     dr_subject := cm_subject (si_enrollment e);
     dr_idp_claims_json := Some (claims_json (cm_idp_claims (si_enrollment e))) |}.
(** The identity claims of a sign-in are its ID token's, which the provider's key verified:
    the subject, the nonce and whatever else that token says. *)
Definition of_id_token (oidc : Provider) (completed : CompletedEnrollment) : Prop :=
  exists id_token key alg claims,
    decode_token key alg (op_issuer oidc) (op_client_id oidc) id_token = Ok claims /\
    cm_subject completed = ic_sub claims /\
    forall k, cm_idp_claims completed !! k =
      if decide (k = "nonce" /\ is_Some (ic_nonce claims)) then VString <$> ic_nonce claims
      else if decide (k = "sub") then Some (VString (ic_sub claims))
      else ic_additional claims !! k.
(** The user of a sign-in is the one its access token belongs to. *)
Definition signed_in_user (e : SignIn) : Prop :=
  exists oidc, fa_oidc sv = Some oidc /\
    authenticate_access_token oidc (si_token e) (si_answer e)
    = Ok {| pn_issuer := cm_issuer (si_enrollment e); pn_subject := cm_subject (si_enrollment e) |} /\
    of_id_token oidc (si_enrollment e).
Lemma verify_tokens_claims oidc pending claims access_token answer completed k :
  verify_tokens oidc pending claims access_token answer = Ok completed ->
  cm_idp_claims completed !! k =
    if decide (k = "nonce" /\ is_Some (ic_nonce claims)) then VString <$> ic_nonce claims
    else if decide (k = "sub") then Some (VString (ic_sub claims))
    else ic_additional claims !! k.
Proof.
  unfold verify_tokens. destruct (match pe_nonce pending with Some _ => _ | None => _ end); [done|].
  destruct (authenticate_access_token _ _ _) as [p|e]; simpl; [|done].
  destruct (negb _); [done|]. intros [= <-]. simpl.
  destruct (ic_nonce claims) as [n|]; repeat case_decide; naive_solver (simplify_map_eq; done).
Qed.
Lemma signed_in_is_user rq enrollment_id id_token env st e :
  signed_in rq enrollment_id id_token env st = Some e -> signed_in_user e.
Proof.
  unfold signed_in. destruct (fa_oidc sv) as [oidc|] eqn:Ho; [|done]. simpl.
  destruct (bearer_credential rq) as [token|]; [|done]. simpl.
  destruct (complete oidc enrollment_id id_token token env st) as [[completed|e'] st'] eqn:Hc; [|done]. simpl.
  intros [= <-]. exists oidc. split; [done|]. simpl. apply complete_inv in Hc as [_ Hc].
  destruct (Hc _ eq_refl) as (pending & header & kid & key & claims & _ & _ & _ & _ & _ & Hd & Hv). split.
  - by apply verify_tokens_inv in Hv as (_ & Hv & _).
  - exists id_token, key, (jh_alg header), claims. split; [done|]. split.
    + by apply verify_tokens_inv in Hv as (_ & _ & Hv & _).
    + intros k. by eapply verify_tokens_claims.
Qed.

Lemma enroll_device_tables d hostname issuer subject claims now c r c' :
  enroll_device d hostname issuer subject (Some claims) now c = (r, c') ->
  tables c' = tables c \/
  (devices (tables c) !! d = None /\
   tables c' = set_devices (<[d :=
     {| dr_hostname := hostname; dr_os := ""; dr_architecture := ""; dr_agent_version := "";
        dr_created_at := now; dr_last_seen_at := Some now; dr_issuer := issuer; dr_subject := subject;
        dr_idp_claims_json := Some (claims_json claims) |}]> (devices (tables c))) (tables c)).
Proof.
  unfold enroll_device. intros (c0 & Ht & Hr)%transaction_cases. rewrite <- Ht.
  destruct r as [b|e]; [destruct Hr as (c1 & Hs & ->)|destruct Hr as [Hr|(b & c1 & Hs & ->)]; [left; congruence|]];
    right; apply statement_cases in Hs; destruct (devices (tables c0) !! d); try done; by injection Hs as <-.
Qed.

Lemma complete_enrollment_tables rq enrollment_id id_token csr_der d env now s r s' :
  complete_enrollment sv rq enrollment_id id_token csr_der d env now s = (r, s') ->
  tables (sr_database s') = tables (sr_database s) \/
  exists e, signed_in rq enrollment_id id_token env (sr_oidc s) = Some e /\
    devices (tables (sr_database s)) !! d = None /\
    tables (sr_database s')
    = set_devices (<[d := enrolled_row e now]> (devices (tables (sr_database s)))) (tables (sr_database s)).
Proof.
  unfold complete_enrollment, signed_in.
  destruct (fa_oidc sv) as [oidc|]; [|intros [= <- <-]; by left].
  destruct (bearer_credential rq) as [token|e]; [|intros [= <- <-]; by left]. simpl.
  destruct (complete oidc _ _ token env (sr_oidc s)) as [[completed|e] st]; [|intros [= <- <-]; by left]. simpl.
  unfold service_enroll_device.
  destruct ((let* issued := _ in _) (sr_database s)) as [r1 c1] eqn:Hr. intros [= <- <-]. simpl.
  apply st_bind_inv in Hr as [(e & He & _)|(issued & c2 & [_ ->]%rpc_lift_inv & Hr)].
  { left. unfold rpc_lift in He. by injection He as _ <-. }
  set (e := {| si_enrollment := completed; si_token := token; si_answer := cv_userinfo env |}).
  assert (tables c1 = tables (sr_database s) \/ devices (tables (sr_database s)) !! d = None /\
    tables c1 = set_devices (<[d := enrolled_row e now]> (devices (tables (sr_database s)))) (tables (sr_database s)))
    as [Hc|[Hn Hc]].
  2: { by left. }
  2: { right. by exists e. }
  apply st_bind_inv in Hr as [(e' & He & _)|([] & c3 & He & Hr)].
  - apply st_map_err_inv in He as (r0 & He & _). by apply enroll_device_tables in He.
  - injection Hr as _ <-. apply st_map_err_inv in He as (r0 & He & _). by apply enroll_device_tables in He.
Qed.

(** ** What holds from the start *)

Definition owned (log : list (string * SignIn)) (t : FleetTables) : Prop :=
  forall d row, devices t !! d = Some row ->
    exists e, (d, e) ∈ log /\ dr_issuer row = cm_issuer (si_enrollment e) /\
      dr_subject row = cm_subject (si_enrollment e) /\
      dr_idp_claims_json row = Some (claims_json (cm_idp_claims (si_enrollment e))).
Definition seen_at_clocks (t : FleetTables) : Prop :=
  forall d row x, devices t !! d = Some row -> dr_last_seen_at row = Some x -> clock x.

Lemma keeps_and {E A} P Q (m : ST (Connection FleetTables) E A) :
  keeps P m -> keeps Q m -> keeps (fun t => P t /\ Q t) m.
Proof. intros HP HQ c [H1 H2]. split; [by apply HP|by apply HQ]. Qed.
Lemma message_kept_and P Q d : message_kept P d -> message_kept Q d -> message_kept (fun t => P t /\ Q t) d.
Proof. intros [] []. split; intros; apply keeps_and; auto. Qed.
Lemma belongs_kept d : message_kept belongs d.
Proof.
  split; intros; auto using keeps_hello, keeps_heartbeat, keeps_inventory, keeps_config_state,
    keeps_config_status, keeps_telemetry.
Qed.

(** Properties of the devices' rows alone: only two messages change those. *)
Lemma devices_kept P d : (forall t t', devices t' = devices t -> P t -> P t') ->
  (forall hello now, clock now -> keeps P (update_hello d hello now)) ->
  (forall x, 0 <= x -> keeps P (update_heartbeat d x)) -> message_kept P d.
Proof.
  intros HP Hh Hb.
  assert (forall {K V} `{Countable K} (get : FleetTables -> gmap K V) set d k v t t', table get set ->
    insert_row d k v get set t = Some (tt, t') -> P t -> P t') as Hins.
  { intros K V ? ? get set d' k v t t' T Hi Ht. apply (insert_row_inv _ _) in Hi as (_ & _ & ->).
    apply (HP t); [apply (tb_devices _ _ T)|done]. }
  assert (forall s reported now t t', upsert_status d s reported now t = Some (tt, t') -> P t -> P t') as Hup.
  { unfold upsert_status. intros s reported now t t'. destruct (devices t !! d); [|done].
    intros [= <-]. by apply HP. }
  split; auto.
  - intros inventory. apply keeps_transaction, keeps_bind; [|intros _; apply keeps_bind; [|intros _; apply keeps_bind; [|intros _]]].
    + apply keeps_statement. intros t [] t' Ht [= <-]. by apply (HP t).
    + apply keeps_iter. intros a _. apply keeps_bind; [apply keeps_lift|]. intros skills.
      apply keeps_statement. intros t [] t' Ht Hi. by apply (Hins _ _ _ _ _ _ _ _ _ _ _ discoveries_table Hi).
    + apply keeps_statement. intros t [] t' Ht [= <-]. by apply (HP t).
    + apply keeps_iter. intros a _. apply keeps_statement. intros t [] t' Ht Hi.
      by apply (Hins _ _ _ _ _ _ _ _ _ _ _ runtimes_table Hi).
  - intros s now. apply keeps_statement. intros t [] t' Ht Hu. by apply (Hup _ _ _ _ _ Hu).
  - intros s now. apply keeps_bind; [apply keeps_lift|]. intros _.
    apply keeps_transaction, keeps_bind; [|intros _; apply keeps_bind; [|intros _]].
    + apply keeps_statement. intros t [] t' Ht Hu. by apply (Hup _ _ _ _ _ Hu).
    + apply keeps_statement. intros t [] t' Ht [= <-]. by apply (HP t).
    + apply keeps_iter. intros [i p] _. apply keeps_statement. intros t [] t' Ht Hi.
      by apply (Hins _ _ _ _ _ _ _ _ _ _ _ programs_table Hi).
  - intros id event. apply keeps_bind; [apply keeps_lift|]. intros [event_type payload].
    apply keeps_statement. intros t [] t' Ht Hi. by apply (Hins _ _ _ _ _ _ _ _ _ _ _ events_table Hi).
Qed.

Lemma owned_alter log d f t : (forall row, identity (f row) = identity row) ->
  owned log t -> owned log (set_devices (alter f d (devices t)) t).
Proof.
  intros Hf Ht d' row. simpl. destruct (decide (d' = d)) as [->|]; [|rewrite lookup_alter_ne by done; apply Ht].
  rewrite lookup_alter_eq. intros (old & Hold & ->)%fmap_Some. specialize (Hf old). injection Hf as _ -> -> ->.
  by apply (Ht d).
Qed.
Lemma owned_kept log d : message_kept (owned log) d.
Proof.
  apply devices_kept.
  - intros t t' Hd Ht d' row. rewrite Hd. apply Ht.
  - intros hello now _. apply keeps_statement. intros t [] t' Ht [= <-]. by apply owned_alter.
  - intros x _. apply keeps_statement. intros t [] t' Ht [= <-]. by apply owned_alter.
Qed.
Lemma seen_alter d f t : (forall row x, dr_last_seen_at (f row) = Some x -> clock x) ->
  seen_at_clocks t -> seen_at_clocks (set_devices (alter f d (devices t)) t).
Proof.
  intros Hf Ht d' row x. simpl. destruct (decide (d' = d)) as [->|]; [|rewrite lookup_alter_ne by done; apply Ht].
  rewrite lookup_alter_eq. intros (old & Hold & ->)%fmap_Some. apply Hf.
Qed.
Lemma seen_kept d : message_kept seen_at_clocks d.
Proof.
  apply devices_kept.
  - intros t t' Hd Ht d' row x. rewrite Hd. apply Ht.
  - intros hello now Hnow. apply keeps_statement. intros t [] t' Ht [= <-]. apply seen_alter; [|done].
    intros row x. simpl. by intros [= <-].
  - intros n Hn. apply keeps_statement. intros t [] t' Ht [= <-]. apply seen_alter; [|done].
    intros row x. simpl. intros [= <-]. unfold clock, i64_or_max, I64_MAX in *. lia.
Qed.

Definition sound (log : list (string * SignIn)) (t : FleetTables) : Prop :=
  belongs t /\ owned log t /\ seen_at_clocks t.
Lemma sound_kept log d : message_kept (sound log) d.
Proof. apply message_kept_and; [apply belongs_kept|]. apply message_kept_and; [apply owned_kept|apply seen_kept]. Qed.
Lemma sound_delete log d : keeps (sound log) (delete_device d).
Proof.
  apply keeps_and; [apply keeps_delete|].
  apply keeps_statement. intros t b t' [H1 H2] [= _ <-]. split.
  - intros d' row Hrow. simpl in Hrow. apply lookup_delete_Some in Hrow as [_ Hrow]. by apply H1.
  - intros d' row x Hrow. simpl in Hrow. apply lookup_delete_Some in Hrow as [_ Hrow]. by apply (H2 d').
Qed.
Lemma sound_usage log t x : sound log t -> sound log (set_usage_tables x t).
Proof. intros ([] & H2 & H3). split; [by split|]. split; [exact H2|exact H3]. Qed.
Lemma sound_more log e t : sound log t -> sound (e :: log) t.
Proof.
  intros (H1 & H2 & H3). split; [done|]. split; [|done]. intros d row Hrow.
  destruct (H2 d row Hrow) as (e' & Hin & ?). exists e'. split; [by right|done].
Qed.
Lemma sound_enrolled log d e now t : clock now -> sound log t -> devices t !! d = None ->
  sound ((d, e) :: log) (set_devices (<[d := enrolled_row e now]> (devices t)) t).
Proof.
  intros Hnow Ht Hd. pose proof (sound_more log (d, e) t Ht) as (H1 & H2 & H3). split; [|split].
  - apply belongs_devices; [|done]. rewrite dom_insert. set_solver.
  - intros d' row Hrow. simpl in Hrow. apply lookup_insert_Some in Hrow as [[<- <-]|[Hne Hrow]]; [|by apply H2].
    exists e. split; [by left|done].
  - intros d' row x Hrow. simpl in Hrow.
    apply lookup_insert_Some in Hrow as [[<- <-]|[Hne Hrow]]; [by intros [= <-]|by apply (H3 d')].
Qed.

Lemma step_sound s log s' log' : service_step (s, log) (s', log') ->
  sound log (tables (sr_database s)) -> (forall d e, (d, e) ∈ log -> signed_in_user e) ->
  sound log' (tables (sr_database s')) /\ forall d e, (d, e) ∈ log' -> signed_in_user e.
Proof.
  intros Hstep Ht Hlog. inversion Hstep as
    [? ? rq eid idt csr d env now r ? Hnow Hc|? ? st|? ? call Hp]; subst; simpl.
  - split.
    + apply complete_enrollment_tables in Hc as [->|(e & -> & Hd & ->)]; [|by apply sound_enrolled].
      destruct (signed_in _ _ _ _ _); [by apply sound_more|done].
    + intros d' e. destruct (signed_in _ _ _ _ _) as [e'|] eqn:He; [|by apply Hlog].
      intros [[= -> ->]|Hin]%elem_of_cons; [by eapply signed_in_is_user|by eapply Hlog].
  - by split.
  - split; [|done]. apply keeps_serve; [apply sound_kept|intros; by apply sound_usage|apply sound_delete|done|done].
Qed.
Lemma steps_sound t s log : belongs t -> devices t = ∅ ->
  forall c0 st, tables c0 = t -> rtc service_step ({| sr_oidc := st; sr_database := c0 |}, []) (s, log) ->
  sound log (tables (sr_database s)) /\ forall d e, (d, e) ∈ log -> signed_in_user e.
Proof.
  intros Hb Hd c0 st Hc Hr.
  assert (forall x y, rtc service_step x y -> sound (snd x) (tables (sr_database (fst x))) ->
    (forall d e, (d, e) ∈ snd x -> signed_in_user e) ->
    sound (snd y) (tables (sr_database (fst y))) /\ forall d e, (d, e) ∈ snd y -> signed_in_user e) as Hall.
  { intros x y Hxy. induction Hxy as [x|[s1 l1] [s2 l2] z Hs _ IH]; [by intros|]. intros H1 H2.
    destruct (step_sound _ _ _ _ Hs H1 H2) as [H3 H4]. by apply IH. }
  apply (Hall _ _ Hr); simpl; [|by intros d e ?%not_elem_of_nil]. rewrite Hc. split; [done|].
  split; intros d row; rewrite Hd; by rewrite lookup_empty.
Qed.

(** C6. A device answers to the user who enrolled it and to nobody else: whatever calls were
    served since the controller's tables were empty and whatever failed, a request is
    accepted for a device only if the certificate names it, some sign-in enrolled it, and
    the request's access token is, by the provider's answer, of the very user whose
    access token completed that sign-in. *)
Theorem devices_answer_to_their_enroller_only t0 c0 st s log rq answer d c' :
  tables c0 = t0 -> belongs t0 -> devices t0 = ∅ ->
  rtc service_step ({| sr_oidc := st; sr_database := c0 |}, []) (s, log) ->
  authenticate_device sv rq answer (sr_database s) = (Ok d, c') ->
  exists oidc token e user,
    fa_oidc sv = Some oidc /\ (d, e) ∈ log /\
    peer_certificate_device_id (rq_peer_certs rq) = Ok (Some d) /\ bearer_credential rq = Ok token /\
    user = {| pn_issuer := cm_issuer (si_enrollment e); pn_subject := cm_subject (si_enrollment e) |} /\
    authenticate_access_token oidc token answer = Ok user /\
    authenticate_access_token oidc (si_token e) (si_answer e) = Ok user /\
    tables c' = tables (sr_database s).
Proof.
  intros Hc Hb Hd Hr Ha. destruct (steps_sound t0 s log Hb Hd c0 st Hc Hr) as [(_ & Howned & _) Hlog].
  apply authenticate_device_inv in Ha as (Ht & oidc & token & row & []).
  destruct (Howned d row au_row0) as (e & Hin & Hi & Hs & _).
  destruct (Hlog d e Hin) as (oidc' & Ho & Hu & _).
  exists oidc, token, e, {| pn_issuer := cm_issuer (si_enrollment e); pn_subject := cm_subject (si_enrollment e) |}.
  split_and!; try done; congruence.
Qed.

(** C40. Every row the controller keeps of a device (status, programs, discoveries, runtimes,
    telemetry) is of a device that is enrolled, at any time of the controller's life,
    whatever was reported, deleted or failed; and every enrolled device has a sign-in. *)
Theorem rows_belong_to_enrolled_devices t0 c0 st s log :
  tables c0 = t0 -> belongs t0 -> devices t0 = ∅ ->
  rtc service_step ({| sr_oidc := st; sr_database := c0 |}, []) (s, log) ->
  belongs (tables (sr_database s)) /\ owned log (tables (sr_database s)).
Proof.
  intros Hc Hb Hd Hr. by destruct (steps_sound t0 s log Hb Hd c0 st Hc Hr) as [(H1 & H2 & _) _].
Qed.

(** ** Gateway credentials name their caller *)

Lemma text_claim (v : option value) text : v ≫= Json.as_str = Some text <-> v = Some (VString text).
Proof. split; [|by intros ->]. by destruct v as [[]|]; intros [= ->]. Qed.
Lemma flag_claim (v : option value) b : v ≫= as_bool = Some b <-> v = Some (VBool b).
Proof. split; [|by intros ->]. by destruct v as [[]|]; intros [= ->]. Qed.

(** C24. A gateway credential that is issued is the signature of claims that name the calling
    user and device and no other, whatever calls were served before. The subject is the
    user to whom the request's access token belongs, and whose sign-in enrolled the
    certificate's device; the actor is that device; the identity claims are those of the ID
    token of that sign-in, as the device's row keeps them, and the e-mail and its
    verification are theirs; the client is one the active configuration allows, the audience
    the configuration's, the issuer and the key the controller's; it is for a subscription
    exactly when that was asked for and the configuration has one for the client; and it
    expires the configured lifetime after it was issued. *)
Theorem gateway_credentials_name_their_caller t0 c0 st s log rq current client_id subscription answer now credential
    expires c' :
  tables c0 = t0 -> belongs t0 -> devices t0 = ∅ ->
  rtc service_step ({| sr_oidc := st; sr_database := c0 |}, []) (s, log) ->
  get_llm_gateway_credential parse_url daemon_from_str sv rq current client_id subscription answer now (sr_database s)
  = (Ok (credential, expires), c') ->
  exists d oidc token e m issuer pushed config gateway allowed claims,
    fa_gateway_jwt_issuer sv = Some issuer /\ gj_sign issuer claims = Ok credential /\
    (* the caller *)
    peer_certificate_device_id (rq_peer_certs rq) = Ok (Some d) /\ (d, e) ∈ log /\
    fa_oidc sv = Some oidc /\ bearer_credential rq = Ok token /\
    authenticate_access_token oidc token answer
    = Ok {| pn_issuer := cm_issuer (si_enrollment e); pn_subject := cm_subject (si_enrollment e) |} /\
    of_id_token oidc (si_enrollment e) /\ parse_claims (claims_json (cm_idp_claims (si_enrollment e))) = Ok m /\
    (* the configuration *)
    current = Some pushed /\ parse_daemon parse_url daemon_from_str (pc_yaml pushed) = Ok config /\
    dm_llm_gateway config = Some gateway /\
    gw_authentication gateway = Some (ControllerJwt (jc_aud claims) allowed) /\
    client_id ∈ allowed /\ valid_client_id client_id = true /\
    (* the claims *)
    jc_sub claims = cm_subject (si_enrollment e) /\ jc_act_sub claims = d /\ jc_client_id claims = client_id /\
    jc_idp claims = Some m /\
    (forall email, jc_email claims = Some email <-> m !! "email" = Some (VString email)) /\
    (forall verified, jc_email_verified claims = Some verified <-> m !! "email_verified" = Some (VBool verified)) /\
    jc_iss claims = gj_issuer issuer /\ jc_kid claims = gj_key_id issuer /\
    (jc_billing claims = Some "subscription" /\ subscription = true /\
       is_Some (subscription_auth (dm_programs config) client_id) \/
     jc_billing claims = None /\ ~ (subscription = true /\
       is_Some (subscription_auth (dm_programs config) client_id))) /\
    jc_iat claims = now /\ jc_exp claims = expires /\
    expires = Z.min U64_MAX (now + gj_lifetime issuer / secs 1) /\ tables c' = tables (sr_database s).
Proof.
  intros Hc Hb Hd0 Hrun Hr. destruct (steps_sound t0 s log Hb Hd0 c0 st Hc Hrun) as [(_ & Howned & _) Hlog].
  apply credential_inv in Hr as (d & oidc & token & row & issuer & pushed & config & gateway & allowed & audience &
    idp & billed & [] & Hi & H1 & H2 & H3 & H4 & H5 & H6 & Hv & Hidp & Hsign & -> & Ht).
  destruct (Howned d row au_row0) as (e & Hin & Hiss & Hsub & Hclaims).
  destruct (Hlog d e Hin) as (oidc' & Ho & Hu & Htok). assert (oidc' = oidc) as -> by congruence.
  rewrite Hclaims in Hidp. destruct Hidp as (m & Hm & ->).
  exists d, oidc, token, e, m, issuer, pushed, config, gateway, allowed,
    (gateway_claims issuer (dr_subject row) d client_id audience (Some m) billed now).
  split_and!; try done; simpl.
  - congruence.
  - intros email. apply text_claim.
  - intros verified. apply flag_claim.
  - rewrite <- H6. destruct billed; naive_solver.
Qed.

(** ** The overview *)

Lemma retain_perm {A} (p : A -> bool) l l' : l ≡ₚ l' -> length (retain p l) = length (retain p l').
Proof.
  induction 1 as [|x l l' _ IH|x y l|l l' l'' _ IH1 _ IH2]; simpl; [done| |by destruct (p x), (p y)|congruence].
  destruct (p x); simpl; by rewrite IH.
Qed.
Lemma retain_map {A B} (p : B -> bool) (f : A -> B) l :
  length (retain p (map f l)) = length (retain (fun a => p (f a)) l).
Proof. induction l as [|a l IH]; simpl; [done|]. destruct (p (f a)); simpl; by rewrite IH. Qed.
Lemma retain_ext {A} (p q : A -> bool) l : (forall x, x ∈ l -> p x = q x) -> retain p l = retain q l.
Proof.
  induction l as [|x l IH]; intros Hpq; simpl; [done|].
  rewrite (Hpq x) by (by left). rewrite IH; [done|]. intros y Hy. apply Hpq. by right.
Qed.
Lemma retain_length {A} (p : A -> bool) l : (length (retain p l) <= length l)%nat.
Proof. apply sublist_length, retain_sublist. Qed.

(** Heard of in the last 90 seconds, without machine arithmetic. *)
Definition heard_of (now : Z) (device : string * DeviceRow) : bool :=
  match dr_last_seen_at (snd device) with Some last_seen => now - last_seen <=? 90 | None => false end.
Definition failed_config (t : FleetTables) (device : string * DeviceRow) : bool :=
  match device_config_status t !! fst device with Some row => cr_state row =? 2 | None => false end.

Lemma list_devices_inv c l c' : list_devices c = (Ok l, c') ->
  tables c' = tables c /\ exists l0, l0 ≡ₚ map_to_list (devices (tables c)) /\
    map (fun d => (ds_last_seen_at d, ds_config_state d)) l
    = map (fun '(id, row) => (dr_last_seen_at row, cr_state <$> device_config_status (tables c) !! id)) l0.
Proof.
  unfold list_devices. intros Hl.
  apply st_bind_inv in Hl as [(e & _ & ?)|(listed & c1 & [Ht1 Hq]%query_tables & Hl)]; [done|].
  specialize (Hq _ eq_refl). injection Hq as <-.
  apply st_bind_inv in Hl as [(e & _ & ?)|(tools & c2 & [Ht2 _]%query_tables & Hl)]; [done|].
  injection Hl as <- <-. split; [congruence|].
  set (f := fun '(id, row) => device_summary (tables c) id row).
  pose proof (sort_by_Permutation seen_before (map f (map_to_list (devices (tables c))))) as Hp.
  apply Permutation_map_inv in Hp as (l0 & Heq & Hp). exists l0. split; [by symmetry|].
  rewrite map_map. simpl. fold f. rewrite Heq, map_map. apply map_ext. by intros [id row].
Qed.

(** The overview counts what it says: every enrolled device once, the ones heard of in
    the last 90 seconds and the ones whose configuration failed; its machine arithmetic
    on the clock, on the times devices report of themselves and on the counts neither
    wraps nor underflows, whatever times were reported. *)
Theorem overview_counts t0 c0 st s log current now o c' :
  tables c0 = t0 -> belongs t0 -> devices t0 = ∅ ->
  rtc service_step ({| sr_oidc := st; sr_database := c0 |}, []) (s, log) ->
  clock now -> Z.of_nat (size (devices (tables (sr_database s)))) < 2 ^ 64 ->
  overview current now (sr_database s) = (Ok o, c') ->
  let t := tables (sr_database s) in
  let count p := Z.of_nat (length (retain p (map_to_list (devices t)))) in
  ov_total_devices o = Z.of_nat (size (devices t)) /\
  ov_online_devices o = count (heard_of now) /\
  ov_offline_devices o = ov_total_devices o - ov_online_devices o /\ 0 <= ov_offline_devices o /\
  ov_config_failures o = count (failed_config t) /\
  ov_active_revision o = pc_revision <$> current /\ tables c' = t.
Proof.
  intros Hc Hb Hd Hr Hnow Hsize Ho t count.
  destruct (steps_sound t0 s log Hb Hd c0 st Hc Hr) as [(_ & _ & Hseen) _]. fold t in Hseen, Hsize.
  unfold overview in Ho. apply st_bind_inv in Ho as [(e & _ & ?)|(l & c1 & Hl & Ho)]; [done|].
  apply st_map_err_inv in Hl as ([l'|e] & Hl & Hl'); [|done]. injection Hl' as ->.
  apply list_devices_inv in Hl as (Ht & l0 & Hp & Hmap). fold t in Ht, Hp, Hmap. injection Ho as <- <-.
  assert (length l' = size (devices t)) as Hlen.
  { rewrite <- (length_map (fun d => (ds_last_seen_at d, ds_config_state d))), Hmap, length_map, Hp. apply length_map_to_list. }
  assert (forall p q, (forall x, x ∈ map_to_list (devices t) ->
      p (dr_last_seen_at (snd x), cr_state <$> device_config_status t !! fst x) = q x) ->
    Z.of_nat (length (retain (fun d => p (ds_last_seen_at d, ds_config_state d)) l')) = count q) as Hcount.
  { intros p q Hpq. unfold count. f_equal.
    rewrite <- (retain_map p (fun d => (ds_last_seen_at d, ds_config_state d))), Hmap, retain_map.
    rewrite (retain_perm _ _ _ Hp). f_equal. apply retain_ext. intros [id row] Hin. by rewrite <- Hpq. }
  assert (Z.of_nat (length (retain (is_online now) l')) = count (heard_of now)) as Honline.
  { apply (Hcount (fun x => is_some_and (fun last_seen => i64_wrap (now - last_seen) <=? 90) (fst x))).
    intros [id row] Hin%elem_of_map_to_list. unfold heard_of. simpl.
    destruct (dr_last_seen_at row) as [x|] eqn:Hx; [|done]. simpl. specialize (Hseen id row x Hin Hx).
    unfold clock, I64_MAX in *. f_equal. unfold i64_wrap. rewrite Z.mod_small; lia. }
  pose proof (retain_length (is_online now) l') as Hle.
  simpl. rewrite Z.mod_small by lia. split_and!; try lia; try done.
  - set (p2 := fun x : option Z * option Z => match snd x with Some n => n =? 2 | None => false end).
    rewrite (retain_ext _ (fun d => p2 (ds_last_seen_at d, ds_config_state d))).
    + apply (Hcount p2). intros [id row] Hin. unfold failed_config. simpl. by destruct (device_config_status t !! id).
    + intros d _. unfold p2. simpl. destruct (ds_config_state d) as [n|]; [|done].
      destruct (Z.eqb_spec n 2) as [->|Hne]; [done|]. apply bool_decide_eq_false. congruence.
Qed.
End service.
