(* ===== verification/ControllerRuns.v ===== *)
(** * Concrete runs of the controller

    One enrollment, stream, report and credential, on which the theorems of the
    controller's files are applied. *)

From S2P Require Import Prelude Str Http Net Fs Plan Json Codec Config Reconcile Shared SyntaxTree.
From S2P Require Import VsCodeSettings Programs Tick Remote Sql Fleet Usage UsageStore UsageReport.
From S2P Require Import ControllerDb ControllerRows ControllerOidc ControllerEnrollment ControllerConfig.
From S2P Require Import ControllerService ControllerReports ControllerStream ControllerAccess.

(** Text columns that keep the e-mail of the claims and forget the rest. *)
#[local] Instance demo_rows : RowCodec := {|
  claims_json m := match m !! "email" with Some (VString email) => email | _ => "" end;
  parse_claims email := Ok (if is_empty email then ∅ else {["email" := VString email]}); value_json _ := "null"; parse_value _ := Ok Null;
  mcp_servers_json _ := "[]"; parse_mcp_servers _ := Ok []; skills_json _ := "[]"; parse_skills _ := Ok [];
  models_json _ := "[]"; parse_models _ := Ok [];
|}.
(** A certificate is its device's identifier. *)
#[local] Instance demo_certificates : Certificates := {|
  subject_alternative_name der := Ok (Ok (Some [DNSName (der +:+ SUFFIX)]));
  is_uuid s := Nat.eqb (String.length s) 36;
  csr_from_der csr := Ok {| cp_public_key := csr; cp_common_name := None; cp_alt_names := []; cp_is_ca := false;
                            cp_key_usages := []; cp_extended_key_usages := []; cp_not_before := 0; cp_not_after := 0 |};
  dns_name s := Ok s;
  sign_certificate p := Ok (default "" (cp_common_name p));
  ca_certificate_pem := "ca";
|}.
#[local] Existing Instance ControllerEnrollment.demo_urls.
#[local] Existing Instance ControllerEnrollment.demo_jwt.

Definition demo_service : FleetAgentService :=
  {| fa_oidc := Some demo_provider;
     fa_gateway_jwt_issuer := Some {| gj_issuer := "agentdesktop-controller"; gj_key_id := "agentdesktop";
       gj_lifetime := secs 300; gj_sign claims := Ok (jc_sub claims) |};
     fa_certificates := true; fa_usage_enabled := true |}.
Definition demo_device_id : string := "7ca03414-bb20-4c80-98ef-7b0538b988ba".
Definition demo_request : Request :=
  {| rq_peer_certs := Some [demo_device_id]; rq_authorization := Some "Bearer token" |}.
Definition demo_answer : UserInfoAnswer := Answered 200 (Some "alice").
Definition no_rows : FleetTables :=
  {| devices := ∅; device_config_status := ∅; device_program_status := ∅; discoveries := ∅;
     model_runtimes := ∅; telemetry_events := ∅; usage_tables := empty_tables |}.
Definition demo_oidc_state : OidcState := {| os_pending := snd demo_begun; os_jwks := demo_keys |}.
Definition demo_start : Server :=
  {| sr_oidc := demo_oidc_state; sr_database := connected (fun _ => Runs) no_rows |}.
Definition demo_enroll : result EnrollResponse Status * Server :=
  complete_enrollment demo_service demo_request "e1" "alice" "csr" demo_device_id demo_env 100 demo_start.
Definition demo_server : Server := snd demo_enroll.
Definition demo_sign_in : SignIn :=
  {| si_enrollment := ok_value {| cm_hostname := ""; cm_issuer := ""; cm_subject := ""; cm_idp_claims := ∅ |}
       (fst demo_completed); si_token := "token"; si_answer := demo_answer |}.
Definition demo_connection : Connection FleetTables := sr_database demo_server.

Lemma no_rows_belong : belongs no_rows.
Proof.
  split; cbn; intros; exfalso;
    match goal with
    | H : is_Some (∅ !! _) |- _ => destruct H as [x H]; by rewrite lookup_empty in H
    | H : ∅ !! _ = Some _ |- _ => by rewrite lookup_empty in H
    end.
Qed.
Lemma demo_enrolled :
  rtc (service_step demo_parse_url demo_from_str demo_service) (demo_start, []) (demo_server, [(demo_device_id, demo_sign_in)]).
Proof.
  apply rtc_once.
  assert (signed_in demo_service demo_request "e1" "alice" demo_env (sr_oidc demo_start) = Some demo_sign_in) as H
    by (vm_compute; reflexivity).
  pose proof (step_complete_enrollment demo_parse_url demo_from_str demo_service demo_start [] demo_request
    "e1" "alice" "csr" demo_device_id demo_env 100 (fst demo_enroll) demo_server) as Hs.
  rewrite H in Hs. apply Hs; [unfold clock, I64_MAX; lia|]. apply surjective_pairing.
Qed.
Lemma demo_authenticated :
  fst (authenticate_device demo_service demo_request demo_answer demo_connection) = Ok demo_device_id.
Proof. vm_compute. reflexivity. Qed.

Lemma devices_answer_to_their_enroller_only_witness :
  exists oidc token e user,
    fa_oidc demo_service = Some oidc /\ (demo_device_id, e) ∈ [(demo_device_id, demo_sign_in)] /\
    bearer_credential demo_request = Ok token /\
    authenticate_access_token oidc token demo_answer = Ok user /\
    authenticate_access_token oidc (si_token e) (si_answer e) = Ok user.
Proof.
  destruct (authenticate_device demo_service demo_request demo_answer demo_connection) as [r c'] eqn:E.
  pose proof demo_authenticated as Hr. rewrite E in Hr. cbn [fst] in Hr. rewrite Hr in E.
  destruct (devices_answer_to_their_enroller_only demo_parse_url demo_from_str demo_service no_rows
    (sr_database demo_start) demo_oidc_state demo_server [(demo_device_id, demo_sign_in)] demo_request demo_answer
    demo_device_id c' eq_refl no_rows_belong eq_refl demo_enrolled E)
    as (oidc & token & e & user & H1 & H2 & _ & H3 & _ & H4 & H5 & _).
  exists oidc, token, e, user. exact (conj H1 (conj H2 (conj H3 (conj H4 H5)))).
Defined.

Lemma rows_belong_to_enrolled_devices_witness :
  is_Some (devices (tables demo_connection) !! demo_device_id) /\
  belongs (tables demo_connection) /\ owned [(demo_device_id, demo_sign_in)] (tables demo_connection).
Proof.
  split; [vm_compute; eexists; reflexivity|].
  exact (rows_belong_to_enrolled_devices demo_parse_url demo_from_str demo_service no_rows
    (sr_database demo_start) demo_oidc_state demo_server [(demo_device_id, demo_sign_in)]
    eq_refl no_rows_belong eq_refl demo_enrolled).
Defined.

Lemma overview_counts_witness :
  exists o, fst (overview None 150 demo_connection) = Ok o /\ ov_total_devices o = 1 /\
    ov_online_devices o = 1 /\ ov_offline_devices o = ov_total_devices o - ov_online_devices o.
Proof.
  destruct (overview None 150 demo_connection) as [r c'] eqn:E.
  assert (exists o, r = Ok o /\ ov_online_devices o = 1 /\ ov_total_devices o = 1) as (o & Hr & H1 & H2).
  { pose proof (f_equal fst E) as Hr. cbn [fst] in Hr. rewrite <- Hr. eexists. vm_compute. split; [reflexivity|]. split; reflexivity. }
  rewrite Hr in E |- *. exists o. split; [reflexivity|]. split; [exact H2|]. split; [exact H1|].
  refine (proj1 (proj2 (proj2 (overview_counts demo_parse_url demo_from_str demo_service no_rows
    (sr_database demo_start) demo_oidc_state demo_server [(demo_device_id, demo_sign_in)] None 150 o c'
    eq_refl no_rows_belong eq_refl demo_enrolled _ _ E)))).
  - unfold clock, I64_MAX. lia.
  - vm_compute. reflexivity.
Defined.

Lemma gateway_credentials_name_their_caller_witness :
  let pushed := demo_config "yaml" in
  exists d config claims, (d, demo_sign_in) ∈ [(demo_device_id, demo_sign_in)] /\
    parse_daemon demo_parse_url demo_from_str (pc_yaml pushed) = Ok config /\
    jc_act_sub claims = d /\ jc_sub claims = "alice" /\ jc_client_id claims = "claude-code" /\
    (forall email, jc_email claims = Some email <-> email = "alice@example.com") /\ jc_kid claims = "agentdesktop".
Proof.
  intros pushed.
  destruct (get_llm_gateway_credential demo_parse_url demo_from_str demo_service demo_request (Some pushed)
    "claude-code" true demo_answer 200 demo_connection) as [r c'] eqn:E.
  assert (r = Ok ("alice", 500)) as Hr.
  { pose proof (f_equal fst E) as Hr. cbn [fst] in Hr. rewrite <- Hr. vm_compute. reflexivity. }
  rewrite Hr in E.
  destruct (gateway_credentials_name_their_caller demo_parse_url demo_from_str demo_service no_rows
    (sr_database demo_start) demo_oidc_state demo_server [(demo_device_id, demo_sign_in)] demo_request (Some pushed)
    "claude-code" true demo_answer 200 "alice" 500 c' eq_refl no_rows_belong eq_refl demo_enrolled E)
    as (d & oidc & token & e & m & issuer & p & config & gateway & allowed & claims & Hi & Hsign & Hcert & Hin & Ho & _ &
        _ & _ & Hm & Hp & Hparse & _ & _ & _ & _ & Hsub & Hact & Hclient & _ & Hemail & _ & _ & Hkid & _).
  assert (p = pushed) as Hpp by congruence. rewrite Hpp in Hparse.
  assert (e = demo_sign_in) as He by (apply list_elem_of_singleton in Hin; congruence). subst e.
  exists d, config, claims. split; [exact Hin|]. split; [exact Hparse|]. split; [exact Hact|].
  split; [exact Hsub|]. split; [exact Hclient|]. split.
  - assert (m = {["email" := VString "alice@example.com"]}) as ->.
    { enough (Ok m =@{result _ string} Ok {["email" := VString "alice@example.com"]}) as H by congruence.
      rewrite <- Hm. vm_compute. reflexivity. }
    intros email. rewrite (Hemail email), lookup_singleton_eq. split; [intros [=]; congruence|intros ->; reflexivity].
  - injection Hi as <-. exact Hkid.
Defined.

(** ** A stream *)

Definition demo_hello : Hello :=
  {| hl_device_id := demo_device_id; hl_hostname := "laptop-2"; hl_os := "macos"; hl_architecture := "arm64";
     hl_agent_version := "1" |}.
Definition demo_events : list StreamEvent :=
  [Received (MHello demo_hello) 300 ""; Revalidate demo_answer; Received (MHeartbeat 360) 360 ""].
Lemma demo_plausible : Forall plausible demo_events.
Proof.
  unfold demo_events. repeat apply List.Forall_cons; [|exact I| |apply List.Forall_nil];
    (split; [unfold clock, I64_MAX; lia|]); [exact I|lia].
Qed.
Lemma streams_change_their_own_device_only_witness :
  let c' := snd (device_stream demo_provider "token" demo_device_id demo_events demo_connection) in
  dr_hostname <$> devices (tables c') !! demo_device_id = Some "laptop-2" /\
  elsewhere demo_device_id (tables demo_connection) (tables c').
Proof.
  intros c'. split; [vm_compute; reflexivity|].
  exact (streams_change_their_own_device_only demo_provider "token" demo_device_id demo_events demo_connection
    demo_plausible).
Defined.

Lemma stream_ends_when_access_is_lost_witness :
  exists enrolled c1, device_principal demo_device_id demo_connection = (Ok enrolled, c1) /\
    access_lost demo_provider enrolled (Answered 200 (Some "mallory")) /\
    snd (device_stream demo_provider "token" demo_device_id
      (demo_events ++ Revalidate (Answered 200 (Some "mallory")) :: demo_events) demo_connection)
    = snd (device_stream demo_provider "token" demo_device_id demo_events demo_connection).
Proof.
  destruct (device_principal demo_device_id demo_connection) as [r c1] eqn:E.
  assert (r = Ok {| dp_issuer := "https://idp"; dp_subject := "alice"; dp_idp_claims := Some {["email" := VString "alice@example.com"]} |}) as Hr.
  { pose proof (f_equal fst E) as Hr. cbn [fst] in Hr. rewrite <- Hr. vm_compute. reflexivity. }
  rewrite Hr in E |- *. eexists _, c1. split; [reflexivity|].
  assert (access_lost demo_provider {| dp_issuer := "https://idp"; dp_subject := "alice"; dp_idp_claims := Some {["email" := VString "alice@example.com"]} |}
    (Answered 200 (Some "mallory"))) as Hl.
  { unfold access_lost. destruct (decide (400 <= 200 <= 599)); [lia|]. intros (_ & _ & _ & H). discriminate H. }
  split; [exact Hl|].
  exact (proj1 (proj2 (stream_ends_when_access_is_lost demo_provider "token" demo_device_id _ demo_events
    (Answered 200 (Some "mallory")) demo_events demo_connection c1 ltac:(discriminate) E) Hl)).
Defined.

(** ** A report *)

Definition demo_status : WireStatus :=
  {| ws_revision := 3; ws_state := 1; ws_error := "";
     ws_programs := [{| ps_program := "codex"; ps_state := 1; ps_detail := "" |};
                     {| ps_program := "claude-code"; ps_state := 4; ps_detail := "kept" |}];
     ws_programs_reported := true |}.
Lemma reported_status_is_shown_witness :
  exists detail,
    fst (get_device demo_device_id (snd (store_config_status demo_device_id demo_status 400 demo_connection)))
    = Ok (Some detail) /\
    page_shows demo_status 400 detail /\
    dt_programs detail = map (shown_program demo_status 400) (ws_programs demo_status).
Proof.
  destruct (store_config_status demo_device_id demo_status 400 demo_connection) as [r c1] eqn:E1.
  assert (r = Ok tt) as Hr.
  { pose proof (f_equal fst E1) as Hr. cbn [fst] in Hr. rewrite <- Hr. vm_compute. reflexivity. }
  destruct (get_device demo_device_id c1) as [[[detail|]|e] c2] eqn:E2.
  - exists detail. split; [simpl; rewrite E2; reflexivity|].
    pose proof (reported_status_is_shown demo_device_id demo_status 400 demo_connection r c1 detail c2 E1
      (or_introl Hr) E2) as [H1 [H2 _]]. exact (conj H1 H2).
  - exfalso. pose proof (f_equal snd E1) as H1. cbn [snd] in H1. rewrite <- H1 in E2.
    pose proof (f_equal fst E2) as H2. vm_compute in H2. discriminate H2.
  - exfalso. pose proof (f_equal snd E1) as H1. cbn [snd] in H1. rewrite <- H1 in E2.
    pose proof (f_equal fst E2) as H2. vm_compute in H2. discriminate H2.
Defined.

Lemma daemon_reports_are_accepted_witness :
  let dv := {| dv_current := Some demo_current; dv_reconciler := demo_daemon_reconciler; dv_fs := demo_fs no_fault;
               dv_login := false |} in
  passes_checks (fst (fst (handle_push demo_hash demo_parse_url demo_from_str state_home demo_rng demo_save
    demo_push dv Remote.connected))).
Proof.
  intros dv.
  exact (proj1 (daemon_reports_are_accepted (Ok (home "")) demo_hash demo_parse_url demo_from_str state_home demo_rng
    demo_save (home "s.json") (home "d.json") (home "helper.sh")
    (home "codex.toml") (home "opencode.json") (home "plugin.ts") (home "grok.toml")
    None None None None None demo_push dv Remote.connected None demo_daemon_reconciler (demo_fs no_fault)
    eq_refl eq_refl)).
Defined.
