(* ===== verification/SecretStore.v ===== *)
(** * The daemon's secrets ([crates/agent/src/secret_store.rs], on Linux)

    A secret is a file of the private directory [secrets] of the state directory,
    named by the hash of the entry's service and account. SHA-256 is a parameter;
    that two entries the daemon uses have different names is a hypothesis of the
    theorems that need it. *)

From S2P Require Import Prelude Str Fs Config Credential.

(** [format!("{byte:02x}")] over the bytes of a digest. *)
Fixpoint hex_bytes (s : string) : string :=
  match s with
  | EmptyString => EmptyString
  | String a s => hex_width 2 (byte_of a) (hex_bytes s)
  end.

Record SecretStore : Type := { directory : path }.

Definition SecretStore_new (state_dir : path) : ST fs string SecretStore :=
  let directory := path_join state_dir ["secrets"] in
  ensure_private_dir directory ;* st_ret {| directory := directory |}.

Section with_sha256.
Context (sha256 : string -> string).

Definition entry_name (service account : string) : string :=
  hex_bytes (sha256 (service +:+ nul +:+ account)).
Definition entry_path (store : SecretStore) (service account : string) : path :=
  path_join (directory store) [entry_name service account].

Definition get_optional (store : SecretStore) (service account : string) (s : fs)
  : result (option string) string :=
  let path := entry_path store service account in
  match fs_read s path with
  | Ok secret =>
      if utf8_valid secret then Ok (Some secret)
      else Err (context "stored secret is not UTF-8" "invalid utf-8 sequence")
  | Err NotFound => Ok None
  | Err e => Err (context ("read secret from " +:+ display path) (io_kind_message e))
  end.

Definition get_secret (store : SecretStore) (service account : string) (s : fs)
  : result string string :=
  let? secret := get_optional store service account s in
  ok_or secret "secret was not found".

Definition set_secret (rng : nat -> Z) (store : SecretStore) (service account secret : string)
  : ST fs string unit :=
  let path := entry_path store service account in
  st_map_err (context ("store secret in " +:+ display path)) (atomic_write rng path secret 384).

(** [fs::remove_file] where a missing file is not an error. *)
Definition remove_if_exists (what : string) (p : path) : ST fs string unit := fun s =>
  match fs_remove_file p s with
  | (Ok _, s') => (Ok tt, s')
  | (Err NotFound, s') => (Ok tt, s')
  | (Err e, s') => (Err (context (what +:+ display p) (io_kind_message e)), s')
  end.

Definition delete_secret (store : SecretStore) (service account : string) : ST fs string unit :=
  remove_if_exists "remove secret " (entry_path store service account).
End with_sha256.

(** ** What the calls leave alone *)

(** Every path outside [P] is as it was. *)
Definition touches (P : path -> Prop) (s s' : fs) : Prop :=
  same_env s s' /\ forall q, ~ P q -> nodes s' !! q = nodes s !! q.

#[global] Instance touches_refl P : Reflexive (touches P).
Proof. done. Qed.
#[global] Instance touches_trans P : Transitive (touches P).
Proof. intros s1 s2 s3 [? H1] [? H2]. split; [by etrans|]. intros q Hq. by rewrite H2, H1. Qed.
Lemma touches_mono (P Q : path -> Prop) s s' :
  (forall q, P q -> Q q) -> touches P s s' -> touches Q s s'.
Proof. intros Hsub [He H]. split; [done|]. intros q Hq. apply H. naive_solver. Qed.

Lemma create_dir_touches p s r s' : create_dir p s = (r, s') -> touches (fun q => q = p) s s'.
Proof.
  intros [[-> _]|H]%faulty_inv; [done|]. repeat case_match; simplify_eq; try done.
  split; [done|]. intros q Hq. simpl. by rewrite lookup_insert_ne.
Qed.
Lemma create_dir_all_touches p s r s' :
  create_dir_all p s = (r, s') -> touches (fun q => q `prefix_of` p) s s'.
Proof.
  unfold create_dir_all. destruct (is_dir s p); [intros [= _ <-]; done|]. intros H.
  assert (forall q, q ∈ prefixes p -> q `prefix_of` p) as Hp.
  { intros q (n & -> & _)%list_elem_of_fmap. exists (drop (S n) p). symmetry. apply take_drop. }
  revert s H Hp. induction (prefixes p) as [|x l IH]; intros s; simpl.
  - intros [= _ <-]. done.
  - unfold st_bind. destruct (create_dir x s) as [[[]|e] s1] eqn:E; intros H Hp;
      apply create_dir_touches in E;
      eapply (touches_mono _ (fun q => q `prefix_of` p)) in E;
      try (intros ? ->; apply Hp, list_elem_of_here).
    + etrans; [exact E|]. apply IH; [done|]. intros q Hq. by apply Hp, list_elem_of_further.
    + by simplify_eq.
Qed.
Lemma set_dir_permissions_touches p m s r s' :
  set_dir_permissions p m s = (r, s') -> touches (fun q => q = p) s s'.
Proof.
  intros [[-> _]|H]%faulty_inv; [done|]. repeat case_match; simplify_eq; try done.
  split; [done|]. intros q Hq. simpl. by rewrite lookup_insert_ne.
Qed.
Lemma ensure_private_dir_touches p s r s' :
  ensure_private_dir p s = (r, s') -> touches (fun q => q `prefix_of` p) s s'.
Proof.
  intros [(e & H & _)|([] & s1 & H & H2)]%st_bind_inv;
    apply st_map_err_inv in H as (r0 & H & _); apply create_dir_all_touches in H; [done|].
  etrans; [done|]. destruct (fs_metadata s1 p); [|by simplify_eq].
  destruct (is_dir s1 p); [|by simplify_eq].
  apply st_map_err_inv in H2 as (r1 & H2 & _). apply set_dir_permissions_touches in H2.
  eapply touches_mono; [|done]. by intros q ->.
Qed.

(** A path that no temporary file has. *)
Definition not_temporary (q : path) : Prop := forall name x, last q <> Some (temporary_name name x).

Lemma not_temporary_snoc dir a s : a <> "."%char -> not_temporary (dir ++ [String a s])%list.
Proof. intros Ha name x. rewrite last_snoc. intros [= -> _]. done. Qed.

(** An atomic write touches its target and temporary files only. *)
Lemma atomic_write_touches rng p contents mode s r s' :
  atomic_write rng p contents mode s = (r, s') ->
  touches (fun q => q = p \/ ~ not_temporary q) s s'.
Proof.
  unfold atomic_write. destruct (file_name p) as [name|] eqn:Hname; [|by intros [= _ <-]].
  generalize (map rng (seq 0 16)) as randoms. intros randoms. revert s.
  induction randoms as [|x randoms IH]; intros s; simpl; [by intros [= _ <-]|].
  assert (~ not_temporary (temporary_path p name x)) as Htmp.
  { intros Hn. apply (Hn name x). unfold temporary_path. by rewrite last_snoc. }
  destruct (create_new _ mode s) as [[[]|e] s1] eqn:E.
  - apply create_new_Ok in E as (Hnone & Hs1 & Henv). intros H.
    pose proof (temporary_path_ne p name x Hname) as Hne.
    eapply install_spec in H as [He H]; [|done|by rewrite Hs1, lookup_insert_eq].
    split; [by etrans|]. intros q Hq.
    assert (q <> p /\ q <> temporary_path p name x) as [Hp Hqt] by (split; naive_solver).
    assert (nodes s1 !! q = nodes s !! q) as Hq1 by (by rewrite Hs1, lookup_insert_ne).
    destruct r; rewrite <- Hq1; [|by apply H].
    by rewrite H, lookup_insert_ne, lookup_delete_ne.
  - apply create_new_Err in E as ->. destruct e; intros H; simplify_eq; try done. by apply IH.
Qed.

(** ** Directories that stay usable *)

(** A directory on which the calls of [ensure_private_dir] succeed. *)
Definition dir_usable (p : path) (s : fs) : Prop :=
  is_dir s p = true /\ is_Some (nodes s !! p) /\
  fs_fault s CMetadata p = None /\ fs_fault s CChmod p = None.

Lemma ensure_private_dir_usable p s : dir_usable p s ->
  exists s', ensure_private_dir p s = (Ok tt, s').
Proof.
  intros (Hd & [n Hn] & Hm & Hc). unfold ensure_private_dir, with_context, st_bind, st_map_err,
    create_dir_all. rewrite Hd. unfold fs_metadata. rewrite Hm, Hn.
  destruct n; rewrite Hd; unfold set_dir_permissions, faulty; rewrite Hc, Hn; by eexists.
Qed.

Lemma is_dir_nodes s s' p : nodes s' !! p = nodes s !! p -> is_dir s' p = is_dir s p.
Proof. intros H. unfold is_dir. by rewrite H. Qed.
Lemma dir_usable_mono p s s' :
  same_env s s' -> nodes s' !! p = nodes s !! p -> dir_usable p s -> dir_usable p s'.
Proof.
  intros [_ Hf] Hn (? & ? & ? & ?). unfold dir_usable. rewrite Hf, Hn. split_and!; try done.
  by rewrite (is_dir_nodes s s').
Qed.
Lemma dir_usable_insert p m s : dir_usable p s ->
  dir_usable p (with_nodes (<[p := Dir m]> (nodes s)) s).
Proof.
  intros (? & ? & ? & ?). split_and!; simpl; rewrite ?lookup_insert_eq; try done.
  unfold is_dir in *. simpl. rewrite lookup_insert_eq. repeat case_match; done.
Qed.

(** Making a directory private leaves a usable one usable. *)
Lemma set_dir_permissions_keeps q p m s r s' :
  set_dir_permissions p m s = (r, s') -> dir_usable q s -> dir_usable q s'.
Proof.
  intros [[-> _]|H]%faulty_inv Hq; [done|]. repeat case_match; simplify_eq; try done.
  destruct (decide (q = p)) as [->|Hne]; [by apply dir_usable_insert|].
  eapply dir_usable_mono; [..|exact Hq]; [done|]. simpl. by rewrite lookup_insert_ne.
Qed.
Lemma ensure_private_dir_keeps q p s r s' :
  ensure_private_dir p s = (r, s') -> dir_usable q s -> dir_usable q s'.
Proof.
  assert (forall s s', adds_dirs s s' -> dir_usable q s -> dir_usable q s') as Hadd.
  { intros s0 s1 [He H] Hq. eapply dir_usable_mono; [done| |done].
    destruct Hq as (_ & [n Hn] & _). destruct (H q) as [?|[? _]]; [done|congruence]. }
  intros [(e & H & _)|([] & s1 & H & H2)]%st_bind_inv Hq;
    apply st_map_err_inv in H as (r0 & H & _); apply create_dir_all_adds in H;
    pose proof (Hadd _ _ H Hq) as Hq1; [done|].
  destruct (fs_metadata s1 p); [|by simplify_eq]. destruct (is_dir s1 p); [|by simplify_eq].
  apply st_map_err_inv in H2 as (r1 & H2 & _). by eapply set_dir_permissions_keeps.
Qed.

(** An [ensure_private_dir] that succeeded would succeed again. *)
Lemma ensure_private_dir_Ok p s s' : ensure_private_dir p s = (Ok tt, s') -> dir_usable p s'.
Proof.
  intros [(e & _ & [=])|([] & s1 & _ & H)]%st_bind_inv.
  destruct (fs_metadata s1 p) eqn:Hm; [|done]. destruct (is_dir s1 p) eqn:Hd; [|done].
  unfold with_context in H. apply st_map_err_inv in H as ([[]|] & H & Hr); [|done].
  destruct (fs_fault s1 CChmod p) eqn:Hc; unfold set_dir_permissions, faulty in H;
    rewrite Hc in H; [done|].
  assert (dir_usable p s1) as Hu.
  { unfold fs_metadata in Hm. destruct (fs_fault s1 CMetadata p) eqn:?; [done|].
    split_and!; try done. by destruct (nodes s1 !! p). }
  repeat case_match; simplify_eq; try done. by apply dir_usable_insert.
Qed.

(** ** Entries *)

Definition lower_hex (a : ascii) : bool := is_ascii_digit a || in_range 97 102 a.

Lemma hex_digit_lower n : 0 <= n < 16 -> lower_hex (hex_digit n) = true.
Proof.
  intros H. rewrite <- (Z2Nat.id n) by lia.
  assert (Forall (fun k => lower_hex (hex_digit (Z.of_nat k)) = true) (seq 0 16)) as Hall
    by (vm_compute; repeat constructor).
  eapply Forall_forall in Hall; [exact Hall|]. apply elem_of_seq. lia.
Qed.
Lemma hex_bytes_lower s : str_all lower_hex (hex_bytes s) = true.
Proof.
  induction s as [|a s IH]; [done|]. simpl.
  rewrite !hex_digit_lower by (apply Z.mod_pos_bound; lia). done.
Qed.
(** A name of hexadecimal digits is a plain file name. *)
Lemma hex_bytes_ne c s rest : lower_hex c = false -> hex_bytes s <> String c rest.
Proof.
  intros Hc H. pose proof (hex_bytes_lower s) as Hl. rewrite H in Hl. simpl in Hl.
  by rewrite Hc in Hl.
Qed.

Lemma remove_if_exists_spec what p s r s' :
  remove_if_exists what p s = (r, s') ->
  same_env s s' /\
  match r with Ok _ => nodes s' = delete p (nodes s) | Err _ => s' = s end.
Proof.
  unfold remove_if_exists, fs_remove_file, faulty.
  destruct (fs_fault s CRemove p) as [[]|]; [by intros [= <- <-]..|].
  destruct (nodes s !! p) as [[]|] eqn:Hp; intros [= <- <-]; try done. by rewrite delete_id.
Qed.

Section entries.
Context (sha256 : string -> string).

Lemma entry_path_app store service account :
  entry_path sha256 store service account = (directory store ++ [entry_name sha256 service account])%list.
Proof.
  unfold entry_path, path_join, path_is_relative. destruct (String.eqb_spec (entry_name sha256 service account) "/") as [E|]; [|done].
  exfalso. by eapply (hex_bytes_ne "/"); [|exact E].
Qed.

Lemma set_secret_spec rng store service account secret s r s' :
  set_secret sha256 rng store service account secret s = (r, s') ->
  same_env s s' /\
  match r with
  | Ok _ => nodes s' = <[entry_path sha256 store service account := File secret (masked 384 s)]> (nodes s)
  | Err _ => forall q, q = entry_path sha256 store service account \/ is_Some (nodes s !! q) ->
                       nodes s' !! q = nodes s !! q
  end.
Proof.
  intros (r0 & H & ->)%st_map_err_inv. apply atomic_write_spec in H as [He H].
  split; [done|]. by destruct r0.
Qed.

Lemma set_secret_touches rng store service account secret s r s' :
  set_secret sha256 rng store service account secret s = (r, s') ->
  touches (fun q => q = entry_path sha256 store service account \/ ~ not_temporary q) s s'.
Proof. intros (r0 & H & _)%st_map_err_inv. by apply atomic_write_touches in H. Qed.
Lemma entry_not_temporary store service account : not_temporary (entry_path sha256 store service account).
Proof.
  intros name x. rewrite entry_path_app, last_snoc. unfold entry_name, temporary_name.
  intros [= Hn]. by eapply (hex_bytes_ne "."); [|exact Hn].
Qed.

(** What is stored is read back, and another entry is not affected. *)
Lemma get_after_set rng store service account secret s s' :
  set_secret sha256 rng store service account secret s = (Ok tt, s') ->
  fs_fault s CRead (entry_path sha256 store service account) = None ->
  utf8_valid secret = true ->
  get_optional sha256 store service account s' = Ok (Some secret).
Proof.
  intros [[_ He] H]%set_secret_spec Hf Hu. unfold get_optional, fs_read.
  rewrite He, Hf, H, lookup_insert_eq. by rewrite Hu.
Qed.
Lemma get_after_delete store service account s s' :
  delete_secret sha256 store service account s = (Ok tt, s') ->
  fs_fault s CRead (entry_path sha256 store service account) = None ->
  get_optional sha256 store service account s' = Ok None.
Proof.
  intros [[_ He] H]%remove_if_exists_spec Hf. unfold get_optional, fs_read.
  by rewrite He, Hf, H, lookup_delete_eq.
Qed.
End entries.
