(* ===== verification/Identity.v ===== *)
(** * The device's identity ([crates/agent/src/identity.rs], on Linux)

    The identity is three files of the state directory: its metadata, and two
    entries of the secret store (the TLS key and the OAuth credentials). The model
    has every operation of the file over the file system of [Fs], with the
    migration of the older secrets file. [serde_json] is an interface with
    round-trip laws. An [anyhow] error is its rendering and the typed causes the
    code looks for in it. *)

From stdpp Require Import countable.
From S2P Require Import Prelude Str Codec Fs Config Credential SecretStore.

(** ** Errors *)

(** The types [downcast_ref] is asked for, outermost first. A [reqwest] error may
    carry the status of an answer. *)
Inductive cause : Type :=
| Unreadable
| Reqwest (status : option Z)
| Grpc (code : Z).
#[global] Instance cause_eq_dec : EqDecision cause.
Proof. solve_decision. Defined.

Record anyerror : Type := { an_causes : list cause; an_message : string }.
Definition plain_error (m : string) : anyerror := {| an_causes := []; an_message := m |}.
Definition in_context (m : string) (e : anyerror) : anyerror :=
  {| an_causes := an_causes e; an_message := context m (an_message e) |}.
(** [.context(IdentityUnreadable)]. *)
Definition unreadable (e : anyerror) : anyerror :=
  {| an_causes := Unreadable :: an_causes e;
     an_message := context "stored device identity is unreadable" (an_message e) |}.
Definition is_unreadable (e : anyerror) : bool := bool_decide (Unreadable ∈ an_causes e).

(** ** Data *)

Record OAuthCredentials : Type := {
  oa_access_token : string;
  oa_refresh_token : string;
  oa_expires_at : Z;
}.
#[global] Instance OAuthCredentials_eq_dec : EqDecision OAuthCredentials.
Proof. solve_decision. Defined.

Record Identity : Type := {
  id_device_id : string;
  id_certificate : string;
  id_private_key : string;
  id_certificate_expires_at : Z;
  id_oauth : OAuthCredentials;
  id_token_endpoint : string;
  id_client_id : string;
}.
#[global] Instance Identity_eq_dec : EqDecision Identity.
Proof. solve_decision. Defined.

Record StoredIdentity : Type := {
  st_device_id : string;
  st_certificate : string;
  st_certificate_expires_at : Z;
  st_token_endpoint : string;
  st_client_id : string;
}.
Record StoredSecrets : Type := { sx_private_key : string; sx_oauth : OAuthCredentials }.

Definition with_oauth (o : OAuthCredentials) (i : Identity) : Identity :=
  {| id_device_id := id_device_id i; id_certificate := id_certificate i;
     id_private_key := id_private_key i;
     id_certificate_expires_at := id_certificate_expires_at i; id_oauth := o;
     id_token_endpoint := id_token_endpoint i; id_client_id := id_client_id i |}.

Definition stored_of (i : Identity) : StoredIdentity :=
  {| st_device_id := id_device_id i; st_certificate := id_certificate i;
     st_certificate_expires_at := id_certificate_expires_at i;
     st_token_endpoint := id_token_endpoint i; st_client_id := id_client_id i |}.
Definition identity_of (st : StoredIdentity) (key : string) (o : OAuthCredentials) : Identity :=
  {| id_device_id := st_device_id st; id_certificate := st_certificate st; id_private_key := key;
     id_certificate_expires_at := st_certificate_expires_at st; id_oauth := o;
     id_token_endpoint := st_token_endpoint st; id_client_id := st_client_id st |}.

(** [serde_json] on the three stored types. *)
Class IdentityCodec : Type := {
  stored_from_slice : string -> result StoredIdentity string;
  stored_to_vec_pretty : StoredIdentity -> string;
  oauth_from_str : string -> result OAuthCredentials string;
  oauth_to_string : OAuthCredentials -> string;
  secrets_from_slice : string -> result StoredSecrets string;
}.
(** What the Rust types guarantee: UTF-8 strings, and times of 64 bits. *)
Definition oauth_typed (o : OAuthCredentials) : Prop :=
  utf8_valid (oa_access_token o) = true /\ utf8_valid (oa_refresh_token o) = true /\
  in_u64 (oa_expires_at o) = true.
Definition stored_typed (st : StoredIdentity) : Prop :=
  utf8_valid (st_device_id st) = true /\ utf8_valid (st_certificate st) = true /\
  in_u64 (st_certificate_expires_at st) = true /\
  utf8_valid (st_token_endpoint st) = true /\ utf8_valid (st_client_id st) = true.
Definition identity_typed (i : Identity) : Prop :=
  stored_typed (stored_of i) /\ utf8_valid (id_private_key i) = true /\ oauth_typed (id_oauth i).
Class IdentityCodecLaws (C : IdentityCodec) : Prop := {
  stored_roundtrip st : stored_typed st -> stored_from_slice (stored_to_vec_pretty st) = Ok st;
  oauth_roundtrip o : oauth_typed o -> oauth_from_str (oauth_to_string o) = Ok o;
  oauth_text o : oauth_typed o -> utf8_valid (oauth_to_string o) = true;
  stored_from_typed c st : stored_from_slice c = Ok st -> stored_typed st;
  oauth_from_typed c o : oauth_from_str c = Ok o -> oauth_typed o;
}.

Definition TLS_KEY_SERVICE : string := "dev.agentdesktop.device-tls-key".
Definition OAUTH_SERVICE : string := "dev.agentdesktop.device-oauth".

Definition no_parent : string := "identity path has no parent".
Definition legacy_linux_secrets_path (p : path) : result path string :=
  let? dir := ok_or (parent p) no_parent in
  Ok (path_join dir ["identity-secrets.json"]).
Definition secret_store (p : path) : ST fs string SecretStore :=
  match parent p with
  | Some dir => SecretStore_new dir
  | None => st_err no_parent
  end.

Section with_codec.
Context `{IdentityCodec} (sha256 : string -> string).

(** ** Reading *)

Definition read_secrets (store : SecretStore) (device_id : string) (s : fs)
  : result (string * OAuthCredentials) string :=
  let? key := map_err (context "read device TLS private key")
                (get_secret sha256 store TLS_KEY_SERVICE device_id s) in
  let? oauth := map_err (context "read OAuth credentials")
                  (get_secret sha256 store OAUTH_SERVICE device_id s) in
  let? oauth := map_err (context "decode stored OAuth credentials") (oauth_from_str oauth) in
  Ok (key, oauth).

(** The older file of both secrets: moved into the store, then removed. *)
Definition migrate_legacy_linux_secrets (rng : nat -> nat -> Z) (p : path) (store : SecretStore)
    (device_id : string) : ST fs anyerror unit :=
  match legacy_linux_secrets_path p with
  | Err e => st_err (plain_error e)
  | Ok legacy => fun s =>
      match fs_read s legacy with
      | Err NotFound => (Ok tt, s)
      | Err e =>
          (Err (unreadable (plain_error (context ("read legacy device secrets from " +:+ display legacy)
                                           (io_kind_message e)))), s)
      | Ok contents =>
          match secrets_from_slice contents with
          | Err e => (Err (unreadable (plain_error (context "parse legacy stored device secrets" e))), s)
          | Ok secrets =>
              (st_map_err plain_error
                (set_secret sha256 (rng 0%nat) store TLS_KEY_SERVICE device_id (sx_private_key secrets) ;*
                 set_secret sha256 (rng 1%nat) store OAUTH_SERVICE device_id
                   (oauth_to_string (sx_oauth secrets)) ;*
                 with_context ("remove migrated device secrets " +:+ display legacy)
                   (fs_remove_file legacy))) s
          end
      end
  end.

Definition load (rng : nat -> nat -> Z) (p : path) : ST fs anyerror (option Identity) := fun s =>
  match fs_read s p with
  | Err NotFound => (Ok None, s)
  | Err e => (Err (plain_error (context ("read identity from " +:+ display p) (io_kind_message e))), s)
  | Ok contents =>
      match stored_from_slice contents with
      | Err e => (Err (unreadable (plain_error (context "parse device identity" e))), s)
      | Ok stored =>
          (let* store := st_map_err plain_error (secret_store p) in
           migrate_legacy_linux_secrets rng p store (st_device_id stored) ;*
           fun s =>
             match read_secrets store (st_device_id stored) s with
             | Err e => (Err (unreadable (plain_error e)), s)
             | Ok (key, oauth) => (Ok (Some (identity_of stored key oauth)), s)
             end) s
      end
  end.

(** ** Writing *)

Definition write_metadata (rng : nat -> Z) (p : path) (stored : StoredIdentity) : ST fs string unit :=
  match parent p with
  | None => st_err no_parent
  | Some dir =>
      ensure_private_dir dir ;* atomic_write rng p (stored_to_vec_pretty stored) 384
  end.

(** One turn of the loop of [save]: an entry that cannot be read is removed first. *)
Definition save_secret (rng : nat -> Z) (store : SecretStore) (device_id : string)
    (entry : string * string * string) : ST fs string unit :=
  let '(service, secret, operation) := entry in
  (fun s =>
     match get_optional sha256 store service device_id s with
     | Ok _ => (Ok tt, s)
     | Err _ => st_map_err (context ("remove unreadable item before: " +:+ operation))
                  (delete_secret sha256 store service device_id) s
     end) ;*
  st_map_err (context operation) (set_secret sha256 rng store service device_id secret).

Definition save (rng : nat -> nat -> Z) (p : path) (i : Identity) : ST fs string unit :=
  match parent p with
  | None => st_err no_parent
  | Some dir =>
      ensure_private_dir dir ;*
      let* store := SecretStore_new dir in
      save_secret (rng 0%nat) store (id_device_id i)
        (TLS_KEY_SERVICE, id_private_key i, "store device TLS private key") ;*
      save_secret (rng 1%nat) store (id_device_id i)
        (OAUTH_SERVICE, oauth_to_string (id_oauth i), "store OAuth credentials") ;*
      write_metadata (rng 2%nat) p (stored_of i)
  end.

(** ** Removing *)

Definition delete_legacy_linux_secrets (p : path) : ST fs string unit :=
  match legacy_linux_secrets_path p with
  | Err e => st_err e
  | Ok legacy => remove_if_exists "remove legacy device secrets " legacy
  end.

(** Both entries are deleted, whatever the first one answers, and then the older
    file; [tls_key.and(oauth)] is looked at last. *)
Definition delete_secrets (p : path) (device_id : string) : ST fs string unit :=
  let* store := secret_store p in
  fun s =>
    let '(tls_key, s1) := st_map_err (context "delete device TLS private key")
                            (delete_secret sha256 store TLS_KEY_SERVICE device_id) s in
    let '(oauth, s2) := st_map_err (context "delete OAuth credentials")
                          (delete_secret sha256 store OAUTH_SERVICE device_id) s1 in
    match delete_legacy_linux_secrets p s2 with
    | (Err e, s3) => (Err e, s3)
    | (Ok _, s3) => (match tls_key with Ok _ => oauth | Err e => Err e end, s3)
    end.

(** The result of removing the secrets is only logged. *)
Definition delete_identity (p : path) (device_id : string) : ST fs string unit := fun s =>
  let '(_, s1) := delete_secrets p device_id s in
  remove_if_exists "remove device identity " p s1.

Definition discard (p : path) : ST fs string unit := fun s =>
  match result_ok (fs_read s p) ≫= (fun contents => result_ok (stored_from_slice contents)) with
  | Some stored => delete_identity p (st_device_id stored) s
  | None => remove_if_exists "remove device identity " p s
  end.
End with_codec.

(** ** The stored identity

    The paths of a state directory, and what it means for a state to hold an
    identity: the files say it, the calls of [load] succeed on them, and no older
    secrets file would replace them. *)

Definition metadata_path (dir : path) : path := (dir ++ ["identity.json"])%list.
Definition legacy_path (dir : path) : path := (dir ++ ["identity-secrets.json"])%list.
Definition secrets_dir (dir : path) : path := (dir ++ ["secrets"])%list.
Definition store_of (dir : path) : SecretStore := {| directory := secrets_dir dir |}.

Lemma metadata_parent dir : parent (metadata_path dir) = Some dir.
Proof.
  unfold parent, metadata_path. rewrite last_snoc, decide_False by done. by rewrite removelast_last.
Qed.
Lemma legacy_path_of dir : legacy_linux_secrets_path (metadata_path dir) = Ok (legacy_path dir).
Proof. unfold legacy_linux_secrets_path. by rewrite metadata_parent. Qed.
Lemma secret_store_of dir s r s' : secret_store (metadata_path dir) s = (r, s') ->
  exists r0, ensure_private_dir (secrets_dir dir) s = (r0, s') /\
    r = match r0 with Ok _ => Ok (store_of dir) | Err e => Err e end.
Proof.
  unfold secret_store. rewrite metadata_parent. intros [(e & H & ->)|([] & s1 & H & H2)]%st_bind_inv.
  - by exists (Err e).
  - injection H2 as <- <-. by exists (Ok tt).
Qed.

Lemma app_prefix_ne (dir : path) a b rest :
  a <> b -> ~ (dir ++ a :: rest)%list `prefix_of` (dir ++ [b])%list.
Proof. intros Hne H%prefix_app_inv%prefix_cons_inv_1. done. Qed.
Lemma app_ne (dir : path) a b (l1 l2 : list string) :
  a <> b -> (dir ++ a :: l1)%list <> (dir ++ b :: l2)%list.
Proof. intros Hne H%app_inv_head. by injection H. Qed.

Section stored.
Context {C : IdentityCodec} {laws : IdentityCodecLaws C} (sha256 : string -> string) (dir : path).
Abbreviation entry service d := (entry_path sha256 (store_of dir) service d).

Lemma entry_at service d :
  entry service d = (dir ++ ["secrets"; entry_name sha256 service d])%list.
Proof. rewrite entry_path_app. simpl. unfold secrets_dir. by rewrite <- app_assoc. Qed.

(** The paths of one identity, but the older file. *)
Definition identity_paths (d : string) : list path :=
  [metadata_path dir; entry TLS_KEY_SERVICE d; entry OAUTH_SERVICE d].

Record holds (i : Identity) (s : fs) : Prop := {
  ho_dir : dir_usable (secrets_dir dir) s;
  ho_reads q : q ∈ legacy_path dir :: identity_paths (id_device_id i) -> fs_fault s CRead q = None;
  ho_metadata : exists c m, nodes s !! metadata_path dir = Some (File c m) /\
    stored_from_slice c = Ok (stored_of i);
  ho_key : exists m, nodes s !! entry TLS_KEY_SERVICE (id_device_id i) = Some (File (id_private_key i) m) /\
    utf8_valid (id_private_key i) = true;
  ho_oauth : exists c m, nodes s !! entry OAUTH_SERVICE (id_device_id i) = Some (File c m) /\
    utf8_valid c = true /\ oauth_from_str c = Ok (id_oauth i);
  ho_legacy : nodes s !! legacy_path dir = None;
}.

(** The paths of an identity are none of the directories made private. *)
Lemma identity_paths_kept q d e :
  q ∈ legacy_path dir :: identity_paths d -> e = dir \/ e = secrets_dir dir -> ~ q `prefix_of` e.
Proof.
  intros Hq He. assert (exists a rest, q = (dir ++ a :: rest)%list /\
    (a <> "secrets" \/ rest <> [])) as (a & rest & -> & Ha).
  { unfold identity_paths in Hq. rewrite !entry_at in Hq. set_unfold.
    destruct Hq as [->|[->|[->|[->|[]]]]]; eexists _, _; split; try done; first [by left|by right]. }
  assert (~ (dir ++ a :: rest)%list `prefix_of` (dir ++ ["secrets"])%list) as Hs.
  { intros Hp%prefix_app_inv. destruct Ha as [Ha|Hr].
    - by apply prefix_cons_inv_1 in Hp.
    - apply prefix_cons_inv_2, prefix_nil_inv in Hp. done. }
  destruct He as [He|He]; subst e; [|done]. intros Hp. apply Hs. etrans; [done|]. by exists ["secrets"].
Qed.

(** A step that keeps the identity's paths and the usable directory keeps the
    identity. *)
Lemma holds_kept i s s' : same_env s s' -> dir_usable (secrets_dir dir) s' ->
  (forall q, q ∈ legacy_path dir :: identity_paths (id_device_id i) -> nodes s' !! q = nodes s !! q) ->
  holds i s -> holds i s'.
Proof.
  intros [_ Hf] Hd Hn [? ? (c & m & ? & ?) (mk & ? & ?) (co & mo & ? & ? & ?) ?].
  split; [done|by rewrite Hf|exists c, m|exists mk|exists co, mo|];
    (rewrite Hn by (unfold identity_paths; set_solver)); done.
Qed.
Lemma holds_ensure i s e r s' : e = dir \/ e = secrets_dir dir ->
  ensure_private_dir e s = (r, s') -> holds i s -> holds i s'.
Proof.
  intros He Hens Hi. pose proof (ensure_private_dir_touches _ _ _ _ Hens) as [Henv Hn].
  eapply holds_kept; [done| | |done].
  - eapply ensure_private_dir_keeps; [done|]. apply Hi.
  - intros q Hq. apply Hn. by eapply identity_paths_kept.
Qed.

(** *** Saving *)

Definition written (service d : string) : path -> Prop :=
  fun q => q = entry service d \/ ~ not_temporary q.

Lemma save_secret_spec rng d service secret operation s r s' :
  save_secret sha256 rng (store_of dir) d (service, secret, operation) s = (r, s') ->
  touches (written service d) s s' /\
  match r with
  | Ok _ => exists m, nodes s' !! entry service d = Some (File secret m)
  | Err _ => is_ok (get_optional sha256 (store_of dir) service d s) = true ->
             nodes s' !! entry service d = nodes s !! entry service d
  end.
Proof.
  assert (forall s r s', delete_secret sha256 (store_of dir) service d s = (r, s') ->
    touches (written service d) s s') as Hdel.
  { intros s0 r0 s1 [He Hn]%remove_if_exists_spec. split; [done|]. intros q Hq.
    destruct r0; [|by subst]. rewrite Hn, lookup_delete_ne; [done|]. intros <-. apply Hq. by left. }
  unfold save_secret. cbv beta iota.
  intros [(e & H1 & ->)|([] & s1 & H1 & H2)]%st_bind_inv.
  - destruct (get_optional sha256 (store_of dir) service d s) eqn:E; [done|].
    apply st_map_err_inv in H1 as (r0 & H1 & _). by apply Hdel in H1.
  - assert (touches (written service d) s s1 /\
            (is_ok (get_optional sha256 (store_of dir) service d s) = true -> s1 = s)) as [Ht Hs].
    { destruct (get_optional sha256 (store_of dir) service d s) eqn:E; [by simplify_eq|].
      apply st_map_err_inv in H1 as (r0 & H1 & _). by apply Hdel in H1. }
    apply st_map_err_inv in H2 as (r0 & H2 & ->). pose proof (set_secret_touches _ _ _ _ _ _ _ _ _ H2).
    apply set_secret_spec in H2 as [_ H2]. split; [by etrans|]. destruct r0.
    + eexists. by rewrite H2, lookup_insert_eq.
    + intros Hok. rewrite H2 by (by left). by rewrite (Hs Hok).
Qed.

Lemma plain_paths q d : q ∈ secrets_dir dir :: legacy_path dir :: identity_paths d -> not_temporary q.
Proof.
  unfold identity_paths, metadata_path, secrets_dir, legacy_path. set_unfold.
  intros [->|[->|[->|[->|[->|[]]]]]]; first [by apply not_temporary_snoc|apply entry_not_temporary].
Qed.

(** The paths of one identity are distinct: the two entries by hypothesis. *)
Hypothesis entries_differ : forall d,
  entry_name sha256 TLS_KEY_SERVICE d <> entry_name sha256 OAUTH_SERVICE d.

Lemma written_other service q d : (service = TLS_KEY_SERVICE \/ service = OAUTH_SERVICE) ->
  q ∈ secrets_dir dir :: legacy_path dir :: identity_paths d -> q <> entry service d ->
  ~ written service d q.
Proof. intros Hs Hq Hne [->|Ht]; [done|]. by apply Ht, (plain_paths _ d). Qed.
Lemma entries_ne d : entry TLS_KEY_SERVICE d <> entry OAUTH_SERVICE d.
Proof. rewrite !entry_at. intros H%app_inv_head. injection H. apply entries_differ. Qed.
Lemma entry_ne_plain service d q :
  q ∈ [secrets_dir dir; legacy_path dir; metadata_path dir] -> q <> entry service d.
Proof.
  rewrite entry_at. set_unfold. unfold secrets_dir, legacy_path, metadata_path.
  intros [->|[->|[->|[]]]] H%app_inv_head; by injection H.
Qed.

(** The members of the list, by name. *)
Lemma legacy_mem d : legacy_path dir ∈ legacy_path dir :: identity_paths d.
Proof. apply list_elem_of_here. Qed.
Lemma metadata_mem d : metadata_path dir ∈ legacy_path dir :: identity_paths d.
Proof. apply list_elem_of_further, list_elem_of_here. Qed.
Lemma entry_mem service d : service = TLS_KEY_SERVICE \/ service = OAUTH_SERVICE ->
  entry service d ∈ legacy_path dir :: identity_paths d.
Proof.
  intros [-> | ->]; do 2 apply list_elem_of_further;
    [|apply list_elem_of_further]; apply list_elem_of_here.
Qed.
Lemma entry_ne_metadata service d : entry service d <> metadata_path dir.
Proof. intros H. symmetry in H. revert H. apply entry_ne_plain. set_solver. Qed.
Lemma legacy_ne_metadata : legacy_path dir <> metadata_path dir.
Proof. by apply app_ne. Qed.
Lemma legacy_ne_entry service d : legacy_path dir <> entry service d.
Proof. apply entry_ne_plain. set_solver. Qed.
Local Hint Resolve legacy_mem metadata_mem entry_mem entry_ne_metadata legacy_ne_metadata
  legacy_ne_entry entries_ne : core.

Lemma write_metadata_spec rng st s r s' :
  write_metadata rng (metadata_path dir) st s = (r, s') ->
  same_env s s' /\ (dir_usable (secrets_dir dir) s -> dir_usable (secrets_dir dir) s') /\
  (forall q d, q ∈ legacy_path dir :: identity_paths d -> q <> metadata_path dir ->
     nodes s' !! q = nodes s !! q) /\
  match r with
  | Ok _ => exists m, nodes s' !! metadata_path dir = Some (File (stored_to_vec_pretty st) m)
  | Err _ => nodes s' !! metadata_path dir = nodes s !! metadata_path dir
  end.
Proof.
  unfold write_metadata. rewrite metadata_parent.
  assert (forall s r s', ensure_private_dir dir s = (r, s') ->
    same_env s s' /\ (dir_usable (secrets_dir dir) s -> dir_usable (secrets_dir dir) s') /\
    forall q d, q ∈ legacy_path dir :: identity_paths d -> nodes s' !! q = nodes s !! q) as Hens.
  { intros s0 r0 s1 H1. pose proof (ensure_private_dir_touches _ _ _ _ H1) as [He Hn].
    split_and!; [done|by eapply ensure_private_dir_keeps|].
    intros q d Hq. apply Hn. eapply identity_paths_kept; [exact Hq|by left]. }
  intros [(e & H1 & ->)|([] & s1 & H1 & H2)]%st_bind_inv; apply Hens in H1 as (He & Hd & Hn).
  { split_and!; try done; [intros; by eapply Hn|].
    by apply (Hn _ ""). }
  pose proof (atomic_write_touches _ _ _ _ _ _ _ H2) as [He2 Hn2].
  apply atomic_write_spec in H2 as [_ H2].
  assert (forall q, not_temporary q -> q <> metadata_path dir -> nodes s' !! q = nodes s1 !! q) as Hn3.
  { intros q Hq Hne. apply Hn2. by intros [?|Ht]. }
  split_and!.
  - by etrans.
  - intros Hu. eapply dir_usable_mono; [exact He2| |by apply Hd].
    apply Hn3; [apply (plain_paths _ ""); set_solver|]. by apply app_ne.
  - intros q d Hq Hne. rewrite Hn3; [by apply (Hn _ d)| |done]. apply (plain_paths _ d). set_solver.
  - destruct r; [eexists; by rewrite H2, lookup_insert_eq|].
    rewrite H2 by (by left). by apply (Hn _ "").
Qed.
(** The whole of [save]: which paths it leaves, and what it wrote when it
    succeeded. *)
Lemma save_secret_keeps rng d service secret operation s r s' :
  service = TLS_KEY_SERVICE \/ service = OAUTH_SERVICE ->
  save_secret sha256 rng (store_of dir) d (service, secret, operation) s = (r, s') ->
  same_env s s' /\ (dir_usable (secrets_dir dir) s -> dir_usable (secrets_dir dir) s') /\
  forall q, q ∈ legacy_path dir :: identity_paths d -> q <> entry service d ->
    nodes s' !! q = nodes s !! q.
Proof.
  intros Hs [[He Hn] _]%save_secret_spec. split_and!; [done| |].
  - intros Hu. eapply dir_usable_mono; [done| |done]. apply Hn.
    apply written_other; [done|set_solver|]. apply entry_ne_plain. set_solver.
  - intros q Hq Hne. apply Hn. apply written_other; [done|set_solver|done].
Qed.

Lemma ensure_keeps e d s r s' : e = dir \/ e = secrets_dir dir ->
  ensure_private_dir e s = (r, s') ->
  same_env s s' /\ (dir_usable (secrets_dir dir) s -> dir_usable (secrets_dir dir) s') /\
  forall q, q ∈ legacy_path dir :: identity_paths d -> nodes s' !! q = nodes s !! q.
Proof.
  intros He H1. pose proof (ensure_private_dir_touches _ _ _ _ H1) as [Henv Hn].
  split_and!; [done|by eapply ensure_private_dir_keeps|].
  intros q Hq. apply Hn. by eapply identity_paths_kept.
Qed.

Record saved (i : Identity) (s : fs) : Prop := {
  sv_dir : dir_usable (secrets_dir dir) s;
  sv_metadata : exists m, nodes s !! metadata_path dir = Some (File (stored_to_vec_pretty (stored_of i)) m);
  sv_key : exists m, nodes s !! entry TLS_KEY_SERVICE (id_device_id i) = Some (File (id_private_key i) m);
  sv_oauth : exists m, nodes s !! entry OAUTH_SERVICE (id_device_id i)
                         = Some (File (oauth_to_string (id_oauth i)) m);
}.

Lemma save_Ok rng i s s' :
  save sha256 rng (metadata_path dir) i s = (Ok tt, s') ->
  same_env s s' /\ saved i s' /\ nodes s' !! legacy_path dir = nodes s !! legacy_path dir.
Proof.
  unfold save. rewrite metadata_parent.
  intros [(e & _ & [=])|([] & s1 & H1 & Hrest)]%st_bind_inv.
  apply (ensure_keeps _ (id_device_id i)) in H1 as (He1 & _ & Hn1); [|by left].
  apply st_bind_inv in Hrest as [(e & _ & [=])|(store & s2 & H2 & Hrest)].
  apply st_bind_inv in H2 as [(e & _ & [=])|([] & s2' & H2 & [= <- <-])].
  pose proof (ensure_private_dir_Ok _ _ _ H2) as Hu.
  apply (ensure_keeps _ (id_device_id i)) in H2 as (He2 & _ & Hn2); [|by right].
  change {| directory := _ |} with (store_of dir) in Hrest.
  apply st_bind_inv in Hrest as [(e & _ & [=])|([] & s3 & H3 & Hrest)].
  pose proof (save_secret_spec _ _ _ _ _ _ _ _ H3) as [_ Hkey].
  apply save_secret_keeps in H3 as (He3 & Hu3 & Hn3); [|by left].
  apply st_bind_inv in Hrest as [(e & _ & [=])|([] & s4 & H4 & H5)].
  pose proof (save_secret_spec _ _ _ _ _ _ _ _ H4) as [_ Hoauth].
  apply save_secret_keeps in H4 as (He4 & Hu4 & Hn4); [|by right].
  apply write_metadata_spec in H5 as (He5 & Hu5 & Hn5 & Hmeta).
  split; [by repeat (etrans; [done|])|]. split.
  - split; [by auto|done| |].
    + rewrite (Hn5 _ (id_device_id i)), Hn4 by auto. exact Hkey.
    + rewrite (Hn5 _ (id_device_id i)) by auto. exact Hoauth.
  - by rewrite (Hn5 _ (id_device_id i)), Hn4, Hn3, Hn2, Hn1 by auto.
Qed.

Lemma saved_holds i s : saved i s -> identity_typed i -> nodes s !! legacy_path dir = None ->
  (forall q, q ∈ legacy_path dir :: identity_paths (id_device_id i) -> fs_fault s CRead q = None) ->
  holds i s.
Proof.
  intros [Hd [m1 H1] [m2 H2] [m3 H3]] (Hst & Hk & Ho) Hl Hr. split; [done..| | | |done].
  - exists (stored_to_vec_pretty (stored_of i)), m1. by rewrite stored_roundtrip.
  - by exists m2.
  - exists (oauth_to_string (id_oauth i)), m3. by rewrite oauth_text, oauth_roundtrip.
Qed.

Lemma same_env_reads s s' q : same_env s s' -> fs_fault s' CRead q = fs_fault s CRead q.
Proof. intros [_ H]. by rewrite H. Qed.

(** An identity whose key and metadata are kept, whatever was done to the paths
    of the secrets. *)
Lemma holds_oauth old o s s' : holds old s -> same_env s s' -> dir_usable (secrets_dir dir) s' ->
  (forall q, q ∈ legacy_path dir :: identity_paths (id_device_id old) ->
     q <> entry TLS_KEY_SERVICE (id_device_id old) -> q <> entry OAUTH_SERVICE (id_device_id old) ->
     nodes s' !! q = nodes s !! q) ->
  (exists m, nodes s' !! entry TLS_KEY_SERVICE (id_device_id old) = Some (File (id_private_key old) m)) ->
  (exists c m, nodes s' !! entry OAUTH_SERVICE (id_device_id old) = Some (File c m) /\
     utf8_valid c = true /\ oauth_from_str c = Ok o) ->
  holds (with_oauth o old) s'.
Proof.
  intros [? Hr (c & m & Hm & ?) (mk & _ & ?) _ Hl] [_ He] Hd Hn [mk' Hk] Ho.
  split; simpl; [done|by rewrite He| |by exists mk'|done|].
  - exists c, m. by rewrite Hn by auto.
  - by rewrite Hn by auto.
Qed.
Lemma with_oauth_id i : with_oauth (id_oauth i) i = i.
Proof. by destruct i. Qed.

Lemma get_optional_nodes service d s s' : same_env s s' ->
  nodes s' !! entry service d = nodes s !! entry service d ->
  get_optional sha256 (store_of dir) service d s' = get_optional sha256 (store_of dir) service d s.
Proof. intros [_ He] Hn. unfold get_optional, fs_read. by rewrite He, Hn. Qed.
Lemma holds_readable i s service : holds i s -> service = TLS_KEY_SERVICE \/ service = OAUTH_SERVICE ->
  is_ok (get_optional sha256 (store_of dir) service (id_device_id i) s) = true.
Proof.
  intros [_ Hr _ (mk & Hk & Huk) (c & m & Hc & Huc & _) _] Hs.
  unfold get_optional, fs_read. rewrite Hr by auto.
  destruct Hs as [-> | ->]; [rewrite Hk, Huk|rewrite Hc, Huc]; done.
Qed.

Section resave.
Context (rng : nat -> nat -> Z) (old new : Identity).
Hypothesis same_device : id_device_id new = id_device_id old.
Hypothesis same_key : id_private_key new = id_private_key old.
Hypothesis typed : identity_typed new.

(** After saving a changed identity of the same device over a stored one, the
    state holds the new one, or, when the save failed, the old one, with its old
    credentials or the new ones. *)
Lemma resave_holds s r s' : holds old s -> save sha256 rng (metadata_path dir) new s = (r, s') ->
  match r with
  | Ok _ => holds new s'
  | Err _ => holds old s' \/ holds (with_oauth (id_oauth new) old) s'
  end.
Proof.
  intros Hold Hsave. destruct r as [[]|e].
  { apply save_Ok in Hsave as (He & Hs & Hl). apply saved_holds; [done|done| |].
    - rewrite Hl. apply Hold.
    - intros q Hq. rewrite (same_env_reads _ _ _ He). apply Hold. by rewrite <- same_device. }
  revert Hsave. unfold save. rewrite metadata_parent.
  intros [(e1 & H1 & _)|([] & s1 & H1 & Hrest)]%st_bind_inv.
  { left. by eapply holds_ensure; [left| |]. }
  eapply holds_ensure in H1; [|by left|done].
  apply st_bind_inv in Hrest as [(e2 & H2 & _)|(store & s2 & H2 & Hrest)];
    apply st_bind_inv in H2 as [(e2' & H2 & He2)|([] & s2' & H2 & [= Heq <-])].
  { left. by eapply holds_ensure; [right| |]. }
  { done. }
  subst store. change {| directory := _ |} with (store_of dir) in Hrest.
  eapply holds_ensure in H2; [|by right|done]. clear dependent s s1. rename s2' into s.
  rewrite same_device, same_key in Hrest. pose proof (ho_dir _ _ H2) as Hu.
  apply st_bind_inv in Hrest as [(e3 & H3 & _)|([] & s3 & H3 & Hrest)];
    pose proof (save_secret_spec _ _ _ _ _ _ _ _ H3) as [_ Hkey];
    apply save_secret_keeps in H3 as (He3 & Hu3 & Hn3); [|by left| |by left].
  { left. rewrite <- (with_oauth_id old). eapply holds_oauth; [done..|by auto|by auto| |].
    - rewrite Hkey by (by eapply holds_readable; [|left]). destruct (ho_key _ _ H2) as (mk & ? & _). by exists mk.
    - rewrite Hn3 by auto. by apply ho_oauth. }
  apply st_bind_inv in Hrest as [(e4 & H4 & _)|([] & s4 & H4 & H5)];
    pose proof (save_secret_spec _ _ _ _ _ _ _ _ H4) as [_ Hoauth];
    apply save_secret_keeps in H4 as (He4 & Hu4 & Hn4); [|by right| |by right].
  - left. rewrite <- (with_oauth_id old).
    assert (nodes s' !! entry OAUTH_SERVICE (id_device_id old) = nodes s !! entry OAUTH_SERVICE (id_device_id old)) as Ho.
    { assert (nodes s3 !! entry OAUTH_SERVICE (id_device_id old)
        = nodes s !! entry OAUTH_SERVICE (id_device_id old)) as Ho3 by (by apply Hn3; auto).
      rewrite Hoauth, Ho3; [done|]. rewrite (get_optional_nodes _ _ s) by done.
      by eapply holds_readable; [|right]. }
    eapply holds_oauth; [done|by etrans|by auto| | |].
    + intros q Hq Hk Ho'. by rewrite Hn4, Hn3 by auto.
    + rewrite Hn4 by auto. done.
    + rewrite Ho. by apply ho_oauth.
  - right. apply write_metadata_spec in H5 as (He5 & Hu5 & Hn5 & Hmeta).
    eapply holds_oauth; [done|by repeat (etrans; [done|])|by auto| | |].
    + intros q Hq Hk Ho'. destruct (decide (q = metadata_path dir)) as [->|Hne].
      * by rewrite Hmeta, Hn4, Hn3 by auto.
      * by rewrite (Hn5 _ (id_device_id old)), Hn4, Hn3 by auto.
    + rewrite (Hn5 _ (id_device_id old)), Hn4 by auto. done.
    + destruct Hoauth as [m Hoauth]. exists (oauth_to_string (id_oauth new)), m.
      rewrite (Hn5 _ (id_device_id old)) by auto. split; [done|].
      destruct typed as (_ & _ & Ht). by rewrite oauth_text, oauth_roundtrip.
Qed.
End resave.

(** *** Loading *)

Lemma get_secret_inv service d s secret :
  get_secret sha256 (store_of dir) service d s = Ok secret ->
  utf8_valid secret = true /\ fs_fault s CRead (entry service d) = None /\
  exists m, nodes s !! entry service d = Some (File secret m).
Proof.
  unfold get_secret, get_optional, fs_read.
  destruct (fs_fault s CRead (entry service d)) as [[]|]; [done..|].
  destruct (nodes s !! entry service d) as [[c m|]|]; [|done..].
  destruct (utf8_valid c) eqn:E; [|done]. intros [= ->]. eauto.
Qed.
Lemma get_secret_file service d s secret m : utf8_valid secret = true ->
  fs_fault s CRead (entry service d) = None ->
  nodes s !! entry service d = Some (File secret m) ->
  get_secret sha256 (store_of dir) service d s = Ok secret.
Proof. intros Hu Hf Hn. unfold get_secret, get_optional, fs_read. by rewrite Hf, Hn, Hu. Qed.

Lemma load_holds rng i s : holds i s ->
  exists s', load sha256 rng (metadata_path dir) s = (Ok (Some i), s') /\ holds i s'.
Proof.
  intros Hi. destruct (ensure_private_dir_usable _ _ (ho_dir _ _ Hi)) as [s' Hens].
  pose proof (holds_ensure _ _ _ _ _ (or_intror eq_refl) Hens Hi) as Hi'. exists s'. split; [|done].
  destruct (ho_metadata _ _ Hi) as (c & m & Hm & Hc). unfold load, fs_read.
  rewrite (ho_reads _ _ Hi), Hm, Hc by auto. unfold st_bind, st_map_err at 1.
  destruct (secret_store (metadata_path dir) s) as [r0 s1] eqn:Hs.
  apply secret_store_of in Hs as (r1 & Hs & ->). rewrite Hens in Hs. injection Hs as <- <-.
  unfold migrate_legacy_linux_secrets. rewrite legacy_path_of. unfold fs_read at 1.
  rewrite (ho_reads _ _ Hi'), (ho_legacy _ _ Hi') by auto.
  destruct (ho_key _ _ Hi') as (mk & Hk & Huk). destruct (ho_oauth _ _ Hi') as (co & mo & Ho & Huo & Hco).
  unfold read_secrets. simpl.
  rewrite (get_secret_file _ _ _ _ _ Huk (ho_reads _ _ Hi' _ (entry_mem _ _ (or_introl eq_refl))) Hk).
  rewrite (get_secret_file _ _ _ _ _ Huo (ho_reads _ _ Hi' _ (entry_mem _ _ (or_intror eq_refl))) Ho).
  simpl. rewrite Hco. simpl. by destruct i.
Qed.

(** The migration leaves no older file, and keeps what [load] needs. *)
Lemma migrate_Ok rng d s s' :
  migrate_legacy_linux_secrets sha256 rng (metadata_path dir) (store_of dir) d s = (Ok tt, s') ->
  same_env s s' /\ fs_fault s CRead (legacy_path dir) = None /\
  nodes s' !! legacy_path dir = None /\
  nodes s' !! metadata_path dir = nodes s !! metadata_path dir /\
  (dir_usable (secrets_dir dir) s -> dir_usable (secrets_dir dir) s').
Proof.
  unfold migrate_legacy_linux_secrets. rewrite legacy_path_of. unfold fs_read.
  destruct (fs_fault s CRead (legacy_path dir)) as [[]|]; [done..|].
  destruct (nodes s !! legacy_path dir) as [[contents m|m]|] eqn:Hl; [|done|by intros [= <-]].
  destruct (secrets_from_slice contents); [|done].
  intros ([[]|] & H & [=])%st_map_err_inv.
  apply st_bind_inv in H as [(e & _ & [=])|([] & s1 & H1 & H)].
  apply st_bind_inv in H as [(e & _ & [=])|([] & s2 & H2 & H3)].
  apply st_map_err_inv in H3 as ([[]|] & H3 & [=]).
  apply fs_remove_file_spec in H3 as (He3 & Hn3 & _).
  apply set_secret_touches in H1 as [He1 Hn1], H2 as [He2 Hn2].
  assert (forall q, q ∈ secrets_dir dir :: legacy_path dir :: identity_paths d ->
    q <> entry TLS_KEY_SERVICE d -> q <> entry OAUTH_SERVICE d -> q <> legacy_path dir ->
    nodes s' !! q = nodes s !! q) as Hn.
  { intros q Hq Hk Ho Hlq. rewrite Hn3, lookup_delete_ne by done.
    rewrite Hn2, Hn1; [done|..]; apply written_other; auto. }
  split_and!; [by repeat (etrans; [done|])|done|by rewrite Hn3, lookup_delete_eq| |].
  - apply Hn; auto using list_elem_of_further.
  - intros Hu. eapply dir_usable_mono; [|apply Hn|exact Hu].
    + by repeat (etrans; [done|]).
    + apply list_elem_of_here.
    + apply entry_ne_plain. apply list_elem_of_here.
    + apply entry_ne_plain. apply list_elem_of_here.
    + by apply app_ne.
Qed.

(** What was loaded is what the state now holds. *)
Lemma load_Some rng i s s' :
  load sha256 rng (metadata_path dir) s = (Ok (Some i), s') -> holds i s'.
Proof.
  unfold load, fs_read at 1. destruct (fs_fault s CRead (metadata_path dir)) as [[]|] eqn:Hfm; [done..|].
  destruct (nodes s !! metadata_path dir) as [[contents m|]|] eqn:Hm; [|done..].
  destruct (stored_from_slice contents) as [stored|] eqn:Hst; [|done].
  intros [(e & _ & [=])|(store & s1 & H1 & H)]%st_bind_inv.
  apply st_map_err_inv in H1 as ([store'|] & H1 & [= <-]).
  apply secret_store_of in H1 as ([[]|] & H1 & [= ->]).
  pose proof (ensure_private_dir_Ok _ _ _ H1) as Hu.
  apply (ensure_keeps _ (st_device_id stored)) in H1 as (He1 & _ & Hn1); [|by right].
  apply st_bind_inv in H as [(e & _ & [=])|([] & s2 & H2 & H)].
  apply migrate_Ok in H2 as (He2 & Hfl & Hl & Hn2 & Hu2).
  destruct (read_secrets sha256 (store_of dir) (st_device_id stored) s2) as [[key oauth]|] eqn:Hr; [|done].
  injection H as <- <-. revert Hr. unfold read_secrets, map_err.
  destruct (get_secret sha256 _ TLS_KEY_SERVICE _ s2) as [k|] eqn:Hk; [|done].
  destruct (get_secret sha256 _ OAUTH_SERVICE _ s2) as [o|] eqn:Ho; [|done].
  destruct (oauth_from_str o) eqn:Hof; [|done]. intros [= <- <-].
  apply get_secret_inv in Hk as (Huk & Hfk & mk & Hk), Ho as (Huo & Hfo & mo & Ho).
  assert (same_env s s2) as Hs2 by (by etrans).
  split; simpl; eauto 10.
  - intros q Hq. unfold identity_paths in Hq. rewrite !elem_of_cons in Hq.
    destruct Hq as [->|[->|[->|[->|Hq]]]]; try done; [| |by apply not_elem_of_nil in Hq].
    + rewrite (same_env_reads _ _ _ He2). done.
    + by rewrite (same_env_reads _ _ _ Hs2).
  - exists contents, m. rewrite Hn2, Hn1, Hst by auto. split; [done|]. by destruct stored.
Qed.

(** *** Removing *)

Lemma delete_Ok d s s' : delete_identity sha256 (metadata_path dir) d s = (Ok tt, s') ->
  nodes s' !! metadata_path dir = None.
Proof.
  unfold delete_identity. destruct (delete_secrets sha256 (metadata_path dir) d s) as [r1 s1].
  intros [_ H]%remove_if_exists_spec. by rewrite H, lookup_delete_eq.
Qed.
Lemma discard_Ok s s' : discard sha256 (metadata_path dir) s = (Ok tt, s') ->
  nodes s' !! metadata_path dir = None.
Proof.
  unfold discard. destruct (_ ≫= _) as [stored|]; [apply delete_Ok|].
  intros [_ H]%remove_if_exists_spec. by rewrite H, lookup_delete_eq.
Qed.
Lemma load_absent rng s : nodes s !! metadata_path dir = None ->
  fs_fault s CRead (metadata_path dir) = None ->
  load sha256 rng (metadata_path dir) s = (Ok None, s).
Proof. intros Hn Hf. unfold load, fs_read. by rewrite Hf, Hn. Qed.

(** Both secrets and the older file go too when nothing stands in the way. *)
Lemma delete_clears d s s' r : delete_identity sha256 (metadata_path dir) d s = (r, s') ->
  dir_usable (secrets_dir dir) s -> (forall q, fs_fault s CRemove q = None) ->
  (forall q, q ∈ legacy_path dir :: identity_paths d -> forall m, nodes s !! q <> Some (Dir m)) ->
  r = Ok tt /\ forall q, q ∈ legacy_path dir :: identity_paths d -> nodes s' !! q = None.
Proof.
  intros H Hu Hf Hd. unfold delete_identity, delete_secrets, st_bind in H.
  destruct (secret_store (metadata_path dir) s) as [r0 s0] eqn:Hs.
  apply secret_store_of in Hs as (r1 & Hs & ->).
  destruct (ensure_private_dir_usable _ _ Hu) as [s0' Hens].
  rewrite Hens in Hs. injection Hs as <- ->. pose proof (ensure_keeps _ d _ _ _ (or_intror eq_refl) Hens) as (He0 & _ & Hn0).
  assert (forall what q s1, (forall q, fs_fault s1 CRemove q = None) ->
    (forall m, nodes s1 !! q <> Some (Dir m)) ->
    remove_if_exists what q s1 = (Ok tt, with_nodes (delete q (nodes s1)) s1)) as Hrem.
  { intros what q s1 Hf1 Hd1. unfold remove_if_exists, fs_remove_file, faulty. rewrite Hf1.
    destruct (nodes s1 !! q) as [[c m|m]|] eqn:E; [done|by destruct (Hd1 m)|].
    rewrite delete_id by done. by destruct s1. }
  assert (forall q, fs_fault s0 CRemove q = None) as Hf0 by (destruct He0 as [_ ->]; done).
  assert (forall q, q ∈ legacy_path dir :: identity_paths d -> forall m, nodes s0 !! q <> Some (Dir m)) as Hd0.
  { intros q Hq m. rewrite Hn0 by done. by apply Hd. }
  unfold delete_secret, st_map_err in H.
  rewrite Hrem in H by (auto using entry_mem).
  rewrite Hrem in H; [|done|].
  2:{ intros m. simpl. rewrite lookup_delete_ne by auto. apply Hd0. auto. }
  unfold delete_legacy_linux_secrets in H. rewrite legacy_path_of in H.
  rewrite Hrem in H; [|done|].
  2:{ intros m. simpl. rewrite !lookup_delete_ne by auto using not_eq_sym. apply Hd0. auto. }
  rewrite Hrem in H; [|done|].
  2:{ intros m. simpl. rewrite !lookup_delete_ne by auto using not_eq_sym. apply Hd0. auto. }
  injection H as <- <-. split; [done|]. intros q Hq. simpl.
  unfold identity_paths in Hq. rewrite !elem_of_cons in Hq.
  rewrite !lookup_delete_None. destruct Hq as [->|[->|[->|[->|Hq]]]]; auto.
  by apply not_elem_of_nil in Hq.
Qed.

(** *** Properties *)

(** An identity that was saved is the identity that is loaded, unless an
    older secrets file is still there. *)
Theorem identity_save_load rng rng' i s s' :
  save sha256 rng (metadata_path dir) i s = (Ok tt, s') -> identity_typed i ->
  (forall q, q ∈ legacy_path dir :: identity_paths (id_device_id i) -> fs_fault s CRead q = None) ->
  nodes s !! legacy_path dir = None ->
  exists s'', load sha256 rng' (metadata_path dir) s' = (Ok (Some i), s'').
Proof.
  intros (He & Hs & Hl)%save_Ok Ht Hr Hno. edestruct (load_holds rng' i s') as (s'' & H & _); [|eauto].
  apply saved_holds; [done..|by rewrite Hl|]. intros q Hq. rewrite (same_env_reads _ _ _ He). auto.
Qed.

(** C11. Saving a refreshed or renewed identity of an enrolled device keeps it
    enrolled whatever fails: afterwards the daemon loads the new identity when
    the save succeeded, and else the old one with its own credentials or the new
    ones. No failure makes the identity unreadable. *)
Theorem resaved_identity_loads rng0 rng rng' old new s0 s r s' :
  load sha256 rng0 (metadata_path dir) s0 = (Ok (Some old), s) ->
  id_device_id new = id_device_id old -> id_private_key new = id_private_key old ->
  identity_typed new ->
  save sha256 rng (metadata_path dir) new s = (r, s') ->
  exists i s'', load sha256 rng' (metadata_path dir) s' = (Ok (Some i), s'') /\
    match r with
    | Ok _ => i = new
    | Err _ => i = old \/ i = with_oauth (id_oauth new) old
    end.
Proof.
  intros Hold%load_Some Hd Hk Ht Hsave. eapply resave_holds in Hsave; [|done..].
  assert (forall i, holds i s' -> exists s'', load sha256 rng' (metadata_path dir) s' = (Ok (Some i), s'')) as Hload.
  { intros i Hi. edestruct load_holds as (s'' & ? & _); eauto. }
  destruct r; [|destruct Hsave as [Hi|Hi]]; try rename Hsave into Hi;
    destruct (Hload _ Hi) as [s'' ?]; eexists _, s''; split; eauto.
Qed.

(** Signing out removes the identity: when [delete] or [discard] succeeds
    the daemon loads none, and when nothing stands in the way no secret of the
    device is left on disk either, nor the older file. *)
Theorem deleted_identity_is_gone rng d s s' :
  delete_identity sha256 (metadata_path dir) d s = (Ok tt, s') \/
    discard sha256 (metadata_path dir) s = (Ok tt, s') ->
  fs_fault s' CRead (metadata_path dir) = None ->
  load sha256 rng (metadata_path dir) s' = (Ok None, s') /\
  (delete_identity sha256 (metadata_path dir) d s = (Ok tt, s') ->
   dir_usable (secrets_dir dir) s -> (forall q, fs_fault s CRemove q = None) ->
   (forall q, q ∈ legacy_path dir :: identity_paths d -> forall m, nodes s !! q <> Some (Dir m)) ->
   forall q, q ∈ legacy_path dir :: identity_paths d -> nodes s' !! q = None).
Proof.
  intros H Hf. split.
  - apply load_absent; [|done]. destruct H as [H|H]; [by eapply delete_Ok|by eapply discard_Ok].
  - intros Hd Hu Hr Hn. by eapply delete_clears.
Qed.
End stored.

(** ** Concrete runs *)

(** A codec that satisfies the laws, on the binary text of [Codec]. *)
Definition oauth_tuple (o : OAuthCredentials) := (oa_access_token o, oa_refresh_token o, oa_expires_at o).
Definition oauth_of_tuple '((a, r, e) : string * string * Z) : OAuthCredentials :=
  {| oa_access_token := a; oa_refresh_token := r; oa_expires_at := e |}.
Definition stored_tuple (st : StoredIdentity) :=
  (st_device_id st, st_certificate st, st_certificate_expires_at st, st_token_endpoint st, st_client_id st).
Definition stored_of_tuple '((d, c, e, t, i) : string * string * Z * string * string) : StoredIdentity :=
  {| st_device_id := d; st_certificate := c; st_certificate_expires_at := e; st_token_endpoint := t;
     st_client_id := i |}.
Definition text {A} `{Countable A} (a : A) : string := digits (encode a) +:+ String "010" "".
Definition of_text {A} `{Countable A} (s : string) : result A string :=
  ok_or (of_digits s ≫= decode) "expected value".
Lemma of_text_text {A} `{Countable A} (a : A) : of_text (text a) = Ok a.
Proof. unfold of_text, text, digits. simpl. by rewrite of_bits_bits; simpl; rewrite decode_encode. Qed.

#[global] Instance oauth_typed_dec o : Decision (oauth_typed o).
Proof. unfold oauth_typed. apply _. Defined.
#[global] Instance stored_typed_dec st : Decision (stored_typed st).
Proof. unfold stored_typed. apply _. Defined.
Definition only_if (A : Type) (P : A -> Prop) `{forall a, Decision (P a)} (a : A) : result A string :=
  if decide (P a) then Ok a else Err "invalid value".
#[global] Instance demo_identity_codec : IdentityCodec := {|
  stored_from_slice s := let? t := of_text s in only_if _ stored_typed (stored_of_tuple t);
  stored_to_vec_pretty st := text (stored_tuple st);
  oauth_from_str s := let? t := of_text s in only_if _ oauth_typed (oauth_of_tuple t);
  oauth_to_string o := text (oauth_tuple o);
  secrets_from_slice s :=
    let? t := of_text s in Ok {| sx_private_key := fst t; sx_oauth := oauth_of_tuple (snd t) |};
|}.
#[global] Instance demo_identity_codec_laws : IdentityCodecLaws demo_identity_codec.
Proof.
  assert (forall A (P : A -> Prop) `{forall a, Decision (P a)} a b, only_if A P a = Ok b -> P b) as Hif.
  { intros A P ? a b. unfold only_if. case_decide; [by intros [= <-]|done]. }
  split; simpl.
  - intros x Hx. rewrite of_text_text. destruct x. unfold only_if. by rewrite decide_True.
  - intros x Hx. rewrite of_text_text. destruct x. unfold only_if. by rewrite decide_True.
  - intros x _. apply digits_utf8.
  - intros c st. destruct (of_text c); [|done]. apply Hif.
  - intros c o. destruct (of_text c); [|done]. apply Hif.
Qed.

(** The hash of these runs, short and different for the two services. *)
Definition demo_hash (s : string) : string := if starts_with TLS_KEY_SERVICE s then "k" else "o".
Lemma demo_hash_differ d :
  entry_name demo_hash TLS_KEY_SERVICE d <> entry_name demo_hash OAUTH_SERVICE d.
Proof. by vm_compute. Qed.

Definition demo_oauth (n : string) (expires : Z) : OAuthCredentials :=
  {| oa_access_token := "a" +:+ n; oa_refresh_token := "r" +:+ n; oa_expires_at := expires |}.
Definition demo_identity (n : string) (expires : Z) : Identity :=
  {| id_device_id := "d1"; id_certificate := "c"; id_private_key := "k";
     id_certificate_expires_at := 1000000; id_oauth := demo_oauth n expires;
     id_token_endpoint := "t"; id_client_id := "a" |}.
Definition demo_dir : path := ["/"; "s"].
Definition demo_rng : nat -> nat -> Z := fun _ => Z.of_nat.
Definition fresh_fs : fs :=
  {| nodes := {[ demo_dir := Dir 448 ]}; umask := 18; fs_fault := fun _ _ => None |}.
Definition enrolled_fs : fs :=
  snd (save demo_hash demo_rng (metadata_path demo_dir) (demo_identity "1" 500) fresh_fs).
(** The metadata can no longer be replaced. *)
Definition stuck_metadata (s : fs) : fs :=
  {| nodes := nodes s; umask := umask s;
     fs_fault := fun c q => match c with
                            | CRename => if decide (q = metadata_path demo_dir) then Some Broken else None
                            | _ => None
                            end |}.

Lemma pair_of_fst {A B} (x : A * B) a : fst x = a -> x = (a, snd x).
Proof. by destruct x; intros [= ->]. Qed.

Lemma not_dir_ne (o : option node) m :
  match o with Some (Dir _) => false | _ => true end = true -> o <> Some (Dir m).
Proof. by destruct o as [[]|]. Qed.

Lemma identity_save_load_witness :
  exists s'', load demo_hash demo_rng (metadata_path demo_dir) enrolled_fs
              = (Ok (Some (demo_identity "1" 500)), s'').
Proof.
  refine (identity_save_load demo_hash demo_dir demo_hash_differ demo_rng demo_rng
    (demo_identity "1" 500) fresh_fs enrolled_fs _ _ _ _).
  - unfold enrolled_fs. apply pair_of_fst. vm_compute. reflexivity.
  - vm_compute. repeat split; reflexivity.
  - intros q _. reflexivity.
  - vm_compute. reflexivity.
Defined.

Definition stuck_fs : fs := snd (load demo_hash demo_rng (metadata_path demo_dir) (stuck_metadata enrolled_fs)).
Definition stuck_save : result unit string * fs :=
  save demo_hash demo_rng (metadata_path demo_dir) (demo_identity "2" 900) stuck_fs.
Lemma resaved_identity_loads_witness :
  exists i s'', load demo_hash demo_rng (metadata_path demo_dir) (snd stuck_save) = (Ok (Some i), s'') /\
    (i = demo_identity "1" 500 \/ i = with_oauth (demo_oauth "2" 900) (demo_identity "1" 500)).
Proof.
  assert (load demo_hash demo_rng (metadata_path demo_dir) (stuck_metadata enrolled_fs)
    = (Ok (Some (demo_identity "1" 500)), stuck_fs)) as Hl.
  { unfold stuck_fs. apply pair_of_fst. vm_compute. reflexivity. }
  assert (identity_typed (demo_identity "2" 900)) as Ht by (vm_compute; repeat split; reflexivity).
  destruct stuck_save as [r s'] eqn:E.
  pose proof (resaved_identity_loads demo_hash demo_dir demo_hash_differ demo_rng demo_rng demo_rng
    (demo_identity "1" 500) (demo_identity "2" 900) _ _ r s' Hl eq_refl eq_refl Ht E) as (i & s'' & Hi & Hc).
  exists i, s''. split; [exact Hi|]. assert (is_ok (fst stuck_save) = false) as Hf by (vm_compute; reflexivity).
  rewrite E in Hf. destruct r; [discriminate Hf|exact Hc].
Defined.

Lemma deleted_identity_is_gone_witness :
  let s' := snd (delete_identity demo_hash (metadata_path demo_dir) "d1" enrolled_fs) in
  load demo_hash demo_rng (metadata_path demo_dir) s' = (Ok None, s') /\
  nodes s' !! entry_path demo_hash (store_of demo_dir) OAUTH_SERVICE "d1" = None.
Proof.
  assert (delete_identity demo_hash (metadata_path demo_dir) "d1" enrolled_fs
    = (Ok tt, snd (delete_identity demo_hash (metadata_path demo_dir) "d1" enrolled_fs))) as Hd.
  { apply pair_of_fst. vm_compute. reflexivity. }
  pose proof (deleted_identity_is_gone demo_hash demo_dir demo_hash_differ demo_rng "d1" enrolled_fs
    (snd (delete_identity demo_hash (metadata_path demo_dir) "d1" enrolled_fs)) (or_introl Hd)
    ltac:(vm_compute; reflexivity)) as [Hl Hn].
  split; [exact Hl|]. apply (Hn Hd).
  - vm_compute. repeat split; try reflexivity. by eexists.
  - intros q. vm_compute. reflexivity.
  - intros q Hq m. apply not_dir_ne. revert q Hq. apply Forall_forall.
    vm_compute. repeat constructor.
  - apply entry_mem. by right.
Defined.

(** An older secrets file outlives the identity it belongs to when the metadata
    cannot be parsed: [discard] then removes the metadata only. The next
    enrollment saves its own key and credentials, and the next [load] replaces
    them by the old ones. *)
Definition stale_fs : fs :=
  {| nodes := {[ demo_dir := Dir 448; metadata_path demo_dir := File "truncated" 384;
                 legacy_path demo_dir := File (text ("old key", oauth_tuple (demo_oauth "0" 100))) 384 ]};
     umask := 18; fs_fault := fun _ _ => None |}.
Definition reenrolled : result unit string * fs :=
  save demo_hash demo_rng (metadata_path demo_dir) (demo_identity "1" 500)
    (snd (discard demo_hash (metadata_path demo_dir) stale_fs)).
Theorem discarded_secrets_return :
  is_unreadable <$> (match fst (load demo_hash demo_rng (metadata_path demo_dir) stale_fs) with
                     | Err e => Some e | Ok _ => None end) = Some true /\
  fst (discard demo_hash (metadata_path demo_dir) stale_fs) = Ok tt /\
  fst reenrolled = Ok tt /\
  fst (load demo_hash demo_rng (metadata_path demo_dir) (snd reenrolled))
    = Ok (Some (identity_of (stored_of (demo_identity "1" 500)) "old key" (demo_oauth "0" 100))).
Proof. vm_compute. repeat split; reflexivity. Qed.
