(* ===== verification/SignIn.v ===== *)
(** * Signing in ([crates/agent/src/oidc.rs], [enrollment.rs])

    Enrollment with the browser or with a device code, the local callback server,
    the polling of a device code, and refreshing an access token. The identity
    provider's token endpoint is a function from the form that is posted to its
    answer; the controller's calls are arguments. [serde_json] on the endpoint's
    answers is a parameter. The pages shown in the browser are not modelled. Times
    are nanoseconds, and [u64] seconds where the code has seconds. *)

From S2P Require Import Prelude Str Http Config Net Identity ControllerOidc.

(** ** Enrollment status *)

Record EnrollmentStatus : Type := {
  es_status : string;
  es_authorization_url : option string;
  es_user_code : option string;
}.
#[global] Instance EnrollmentStatus_eq_dec : EqDecision EnrollmentStatus.
Proof. solve_decision. Defined.

Definition enrollment_status (status : string) : EnrollmentStatus :=
  {| es_status := status; es_authorization_url := None; es_user_code := None |}.
Definition EnrollmentState_new (configured : bool) : EnrollmentStatus :=
  enrollment_status (if configured then "starting" else "notConfigured").
Definition awaiting_authentication (authorization_url : string) : EnrollmentStatus :=
  {| es_status := "awaitingAuthentication"; es_authorization_url := Some authorization_url;
     es_user_code := None |}.
Definition awaiting_device_authorization (verification_url user_code : string) : EnrollmentStatus :=
  {| es_status := "awaitingAuthentication"; es_authorization_url := Some verification_url;
     es_user_code := Some user_code |}.

(** ** The token endpoint *)

Record TokenResponse : Type := {
  tr_access_token : string;
  tr_id_token : option string;
  tr_refresh_token : option string;
  tr_expires_in : Z;
  tr_token_type : string;
}.

(** What [reqwest] makes of a request: no answer (or a timeout), or a status and a
    body that may not arrive. *)
Inductive http_answer : Type :=
| NoAnswer
| Answer (status : Z) (body : option string).
Abbreviation form := (list (string * string)).

Definition reqwest_error (status : option Z) (m : string) : anyerror :=
  {| an_causes := [Reqwest status]; an_message := m |}.
Definition transport_error : anyerror := reqwest_error None "error sending request".
(** [error_for_status]. *)
Definition error_for_status (status : Z) : result unit anyerror :=
  if (400 <=? status) && (status <? 600) then Err (reqwest_error (Some status) "HTTP status error") else Ok tt.

Definition DEVICE_CODE_GRANT_TYPE : string := "urn:ietf:params:oauth:grant-type:device_code".
Definition DEFAULT_DEVICE_POLL_INTERVAL : Z := secs 5.
Definition DEVICE_POLL_SLOW_DOWN : Z := secs 5.
Definition CALLBACK_TIMEOUT : Z := secs (10 * 60).

Section with_json.
Context (token_from_json : string -> result TokenResponse string).

Definition bearer_only (r : TokenResponse) : result TokenResponse anyerror :=
  if eq_ignore_ascii_case (tr_token_type r) "Bearer" then Ok r
  else Err (plain_error "OIDC token endpoint returned unsupported token type").
(** [.json::<TokenResponse>()] with its context. *)
Definition decode_token_response (what : string) (body : option string) : result TokenResponse anyerror :=
  match body with
  | None => Err (in_context what (reqwest_error None "error decoding response body"))
  | Some body => map_err (fun e => in_context what (reqwest_error None e)) (token_from_json body)
  end.

Definition authorization_code_form (client_id redirect_uri authorization_code code_verifier : string) : form :=
  [("grant_type", "authorization_code"); ("code", authorization_code); ("redirect_uri", redirect_uri);
   ("client_id", client_id); ("code_verifier", code_verifier)].
Definition refresh_form (client_id refresh_token : string) : form :=
  [("grant_type", "refresh_token"); ("refresh_token", refresh_token); ("client_id", client_id)].
Definition device_code_form (client_id device_code : string) : form :=
  [("grant_type", DEVICE_CODE_GRANT_TYPE); ("device_code", device_code); ("client_id", client_id)].

Definition exchange_authorization_code (post : string -> form -> http_answer)
    (token_endpoint client_id redirect_uri authorization_code code_verifier : string)
  : result TokenResponse anyerror :=
  match post token_endpoint (authorization_code_form client_id redirect_uri authorization_code code_verifier) with
  | NoAnswer => Err (in_context "exchange OIDC authorization code" transport_error)
  | Answer status body =>
      let? _ := map_err (in_context "OIDC token endpoint rejected authorization code") (error_for_status status) in
      let? response := decode_token_response "decode OIDC token response" body in
      bearer_only response
  end.

Definition refresh_access_token (post : string -> form -> http_answer)
    (endpoint client_id refresh_token : string) : result TokenResponse anyerror :=
  match post endpoint (refresh_form client_id refresh_token) with
  | NoAnswer => Err (in_context "refresh OIDC access token" transport_error)
  | Answer status body =>
      let? _ := map_err (in_context "OIDC token endpoint rejected refresh token") (error_for_status status) in
      let? response := decode_token_response "decode refreshed OIDC token response" body in
      bearer_only response
  end.

(** [unix_time_seconds().saturating_add(seconds)]. *)
Definition seconds_from (now seconds : Z) : Z := Z.min U64_MAX (now + seconds).

Definition apply_refreshed_tokens (now : Z) (i : Identity) (response : TokenResponse)
  : result Identity anyerror :=
  let? response := bearer_only response in
  Ok (with_oauth
        {| oa_access_token := tr_access_token response;
           oa_refresh_token := default (oa_refresh_token (id_oauth i)) (tr_refresh_token response);
           oa_expires_at := seconds_from now (tr_expires_in response) |} i).

(** [refresh]: the identity is changed only by a success. *)
Definition refresh (post : string -> form -> http_answer) (now : Z) (i : Identity) : result Identity anyerror :=
  let? response := refresh_access_token post (id_token_endpoint i) (id_client_id i)
                     (oa_refresh_token (id_oauth i)) in
  apply_refreshed_tokens now i response.

(** ** Device codes *)

Inductive DevicePoll : Type := Pending | SlowDown | Failed (message : string).

Context (error_from_json : string -> option (string * option string)).

Definition classify_device_token_error (body : string) : DevicePoll :=
  match error_from_json body with
  | None => Failed "OIDC token endpoint returned an unreadable error"
  | Some (error, description) =>
      if String.eqb error "authorization_pending" then Pending
      else if String.eqb error "slow_down" then SlowDown
      else if String.eqb error "access_denied" then Failed "device authorization was denied"
      else if String.eqb error "expired_token" then Failed "device authorization code expired"
      else Failed (match description with
                   | Some description => "OIDC token endpoint returned " +:+ error +:+ ": " +:+ description
                   | None => "OIDC token endpoint returned " +:+ error
                   end)
  end.

(** One answer of the endpoint: what it is and how long it took; it is cut off at
    the deadline. *)
Record poll_answer : Type := { pa_answer : http_answer; pa_elapsed : Z }.

(** The loop of [poll_device_token] at the instant [now], with the instants at
    which it asked so far. [answers] is the endpoint's behaviour, by poll and by
    the instant it is asked. *)
Fixpoint poll_loop (fuel : nat) (answers : nat -> Z -> poll_answer) (deadline interval now : Z)
    (asked : list Z) : option (result TokenResponse anyerror * Z * list Z) :=
  match fuel with
  | O => None
  | S fuel =>
      let now := Z.min (now + interval) deadline in
      if deadline <=? now
      then Some (Err (plain_error "device authorization code expired before it was approved"), now, asked)
      else
        let answer := answers (length asked) now in
        let asked := (asked ++ [now])%list in
        let remaining := deadline - now in
        if remaining <=? pa_elapsed answer
        then Some (Err (in_context "poll OIDC token endpoint for device authorization" transport_error),
                   deadline, asked)
        else
          let now := now + pa_elapsed answer in
          match pa_answer answer with
          | NoAnswer =>
              Some (Err (in_context "poll OIDC token endpoint for device authorization" transport_error),
                    now, asked)
          | Answer status body =>
              if (200 <=? status) && (status <? 300) then
                Some ((let? response := decode_token_response "decode OIDC token response" body in
                       bearer_only response), now, asked)
              else match body with
                   | None => Some (Err (in_context "read OIDC token endpoint error"
                                          (reqwest_error None "error decoding response body")), now, asked)
                   | Some body =>
                       match classify_device_token_error body with
                       | Pending => poll_loop fuel answers deadline interval now asked
                       | SlowDown => poll_loop fuel answers deadline (interval + DEVICE_POLL_SLOW_DOWN) now asked
                       | Failed message => Some (Err (plain_error message), now, asked)
                       end
                   end
          end
  end.
Definition poll_device_token (fuel : nat) (answers : nat -> Z -> poll_answer) (now interval expires_in : Z)
  : option (result TokenResponse anyerror * Z * list Z) :=
  poll_loop fuel answers (now + expires_in) interval now [].
End with_json.

(** ** The callback server *)

Inductive AuthorizationPage : Type :=
| IdentityPage (subscription_available github_available : bool)
| SubscriptionPage.
Definition optional (page : AuthorizationPage) : bool :=
  match page with SubscriptionPage => true | IdentityPage _ _ => false end.

Record CallbackQuery : Type := {
  cq_code : option string;
  cq_state : option string;
  cq_error : option string;
  cq_error_description : option string;
}.
Definition callback_result (expected_state : string) (query : CallbackQuery) : result (option string) string :=
  match cq_error query with
  | Some error => Err ("identity provider returned " +:+ error +:+ ": " +:+ default "" (cq_error_description query))
  | None =>
      if negb (bool_decide (cq_state query = Some expected_state)) then Err "OIDC state mismatch"
      else match cq_code query with
           | Some code => Ok (Some code)
           | None => Err "OIDC callback has no authorization code"
           end
  end.

(** The requests the server handles. *)
Inductive callback_request : Type :=
| GetPrompt | GetContinue | GetSkip | GetFlowReady | GetCallback (query : CallbackQuery).

(** The oneshot channel: what was sent on it, once. *)
Abbreviation callback_state := (option (result (option string) string)).
Definition send_once (r : result (option string) string) (sent : callback_state) : callback_state :=
  match sent with None => Some r | Some r' => Some r' end.

(** One request: the status of the answer, and what the channel holds. *)
Definition handle_callback (page : AuthorizationPage) (expected_state : string) (rq : callback_request)
    (sent : callback_state) : Z * callback_state :=
  match rq with
  | GetPrompt => (200, sent)
  | GetContinue => (307, sent)
  | GetSkip => if optional page then (200, send_once (Ok None) sent) else (404, sent)
  | GetFlowReady => (match page with SubscriptionPage => 204 | IdentityPage _ _ => 404 end, sent)
  | GetCallback query =>
      let result := callback_result expected_state query in
      (if is_ok result then 200 else 400, send_once result sent)
  end.

(** The wait of [wait_for_authorization_code_with_callback]: requests by the time they
    arrive, until one of them sends a result or the timeout. *)
Fixpoint serve_callback (page : AuthorizationPage) (expected_state : string)
    (requests : list (Z * callback_request)) (sent : callback_state) : result (option string) string :=
  match sent with
  | Some r => r
  | None =>
      match requests with
      | [] => Err "timed out waiting for OIDC callback"
      | (at_, rq) :: requests =>
          if CALLBACK_TIMEOUT <=? at_ then Err "timed out waiting for OIDC callback"
          else serve_callback page expected_state requests (snd (handle_callback page expected_state rq sent))
      end
  end.

(** [Url::port_or_known_default] of a web URL. *)
Definition port_or_known_default (u : Url) : option Z :=
  match url_port u with
  | Some port => Some port
  | None => if String.eqb (url_scheme u) "http" then Some 80
            else if String.eqb (url_scheme u) "https" then Some 443 else None
  end.
(** What [bind_callback] binds: the address asked for, or the redirect URI's. *)
Inductive bind_target : Type := BindListen (a : SocketAddr) | BindHost (host : string) (port : Z).
Definition bind_callback (redirect_uri : Url) (callback_listen : option SocketAddr) : result bind_target string :=
  if negb (String.eqb (url_scheme redirect_uri) "http") then Err "OIDC native callback must use HTTP on loopback"
  else
    let? host := ok_or (url_host redirect_uri) "OIDC callback has no host" in
    if negb (bool_decide (host ∈ ["127.0.0.1"; "localhost"; "[::1]"; "::1"]))
    then Err "OIDC callback must use a loopback host"
    else
      let? port := ok_or (port_or_known_default redirect_uri) "OIDC callback has no port" in
      Ok (match callback_listen with Some listen => BindListen listen | None => BindHost host port end).

(** [wait_for_authorization_code_with_callback]: a provider's own callback is bound
    beside the page of the sign-in, and both lead to one result; [bound] is whether the
    system bound an address. *)
Definition wait_for_authorization_code_with_callback (redirect_uri : Url) (expected_state : string)
    (callback_listen : option SocketAddr) (page : AuthorizationPage) (provider_callback : option Url)
    (bound : bind_target -> result unit string) (requests : list (Z * callback_request))
  : result (option string) string :=
  let? target := bind_callback redirect_uri callback_listen in
  let? _ := bound target in
  let? _ := match provider_callback with
            | Some callback => let? target := bind_callback callback None in bound target
            | None => Ok tt
            end in
  serve_callback page expected_state requests None.

(** [wait_for_authorization_code]. *)
Definition wait_for_authorization_code (redirect_uri : Url) (expected_state : string)
    (callback_listen : option SocketAddr) (bound : bind_target -> result unit string)
    (requests : list (Z * callback_request)) : result string string :=
  let? code := wait_for_authorization_code_with_callback redirect_uri expected_state callback_listen
                 (IdentityPage false false) None bound requests in
  ok_or code "required authorization was skipped".

(** ** Enrolling *)

Record BeginEnrollmentRequest : Type := {
  bq_code_challenge : string;
  bq_device_authorization : bool;
}.
Record CompleteEnrollmentRequest : Type := {
  cr_enrollment_id : string;
  cr_csr_der : string;
  cr_id_token : string;
  cr_authorization : string;
}.
Record CompleteEnrollmentResponse : Type := {
  ce_device_id : string;
  ce_certificate : string;
  ce_expires_at : Z;
}.

(** Everything one enrollment asks of the outside: the controller's calls, the keys
    of [rcgen] and the random PKCE verifier, the identity provider, the browser's
    requests and the clock. *)
Record enroll_env : Type := {
  ev_connect : result unit anyerror;
  ev_device_csr : result (string * string) anyerror;
  ev_pkce : string * string;
  ev_begin : BeginEnrollmentRequest -> result BeginEnrollmentResponse anyerror;
  ev_parse_url : string -> result Url string;
  ev_bound : bind_target -> result unit string;
  ev_requests : list (Z * callback_request);
  ev_post : string -> form -> http_answer;
  ev_polls : form -> nat -> Z -> poll_answer;
  ev_poll_start : Z;
  ev_complete : CompleteEnrollmentRequest -> result CompleteEnrollmentResponse anyerror;
  ev_now : Z;
}.

(** The statuses an enrollment publishes, in order. *)
Definition publishing (A : Type) : Type := ST (list EnrollmentStatus) anyerror A.
Definition publish_status (status : EnrollmentStatus) : publishing unit :=
  fun published => (Ok tt, (published ++ [status])%list).
Definition lift_result {S E A} (r : result A E) : ST S E A := fun s => (r, s).

(** Enough turns of the loop for polls an interval apart. *)
Definition poll_fuel (interval expires_in : Z) : nat := S (Z.to_nat (expires_in / interval)).

Section enrolling.
Context {H : HeaderMap}.
Context (token_from_json : string -> result TokenResponse string).
Context (error_from_json : string -> option (string * option string)).

Definition complete_enrollment (ev : enroll_env) (begin : BeginEnrollmentResponse) (device_key csr : string)
    (tokens : TokenResponse) : result Identity anyerror :=
  let? id_token := ok_or (tr_id_token tokens)
    (plain_error "OIDC token response did not contain an ID token") in
  let? refresh_token := ok_or (tr_refresh_token tokens)
    (plain_error "OIDC token response did not contain a refresh token") in
  let? authorization := ok_or (header_value ("Bearer " +:+ tr_access_token tokens))
    (plain_error "encode OIDC access token") in
  let? response := map_err (in_context "complete OIDC enrollment")
    (ev_complete ev {| cr_enrollment_id := be_enrollment_id begin; cr_csr_der := csr;
                       cr_id_token := id_token; cr_authorization := authorization |}) in
  if negb (utf8_valid (ce_certificate response))
  then Err (plain_error "controller returned a non-UTF-8 device certificate")
  else if is_empty (ce_certificate response)
  then Err (plain_error "controller returned an empty device certificate")
  else Ok
    {| id_device_id := ce_device_id response; id_certificate := ce_certificate response;
       id_private_key := device_key; id_certificate_expires_at := ce_expires_at response;
       id_oauth := {| oa_access_token := tr_access_token tokens; oa_refresh_token := refresh_token;
                      oa_expires_at := seconds_from (ev_now ev) (tr_expires_in tokens) |};
       id_token_endpoint := be_token_endpoint begin; id_client_id := be_client_id begin |}.

Definition enroll_with_device_authorization (ev : enroll_env) : publishing Identity :=
  lift_result (ev_connect ev) ;*
  let* (device_key, csr) := lift_result (ev_device_csr ev) in
  let* begin := lift_result (map_err (in_context "begin OIDC device authorization enrollment")
    (ev_begin ev {| bq_code_challenge := ""; bq_device_authorization := true |})) in
  if is_empty (be_device_code begin) || is_empty (be_user_code begin)
  then st_err (plain_error "controller does not support device authorization enrollment")
  else
    let verification_url := if is_empty (be_verification_uri_complete begin)
                            then be_verification_uri begin else be_verification_uri_complete begin in
    publish_status (awaiting_device_authorization verification_url (be_user_code begin)) ;*
    let interval := if be_interval_seconds begin =? 0 then DEFAULT_DEVICE_POLL_INTERVAL
                    else secs (be_interval_seconds begin) in
    let expires_in := secs (be_expires_in_seconds begin) in
    let* tokens := lift_result
      (match poll_device_token token_from_json error_from_json (poll_fuel interval expires_in)
               (ev_polls ev (device_code_form (be_client_id begin) (be_device_code begin)))
               (ev_poll_start ev) interval expires_in with
       | Some (r, _, _) => r
       | None => Err (plain_error "")
       end) in
    publish_status (enrollment_status "enrolling") ;*
    lift_result (complete_enrollment ev begin device_key csr tokens).

Definition enroll (ev : enroll_env) (device_authorization : bool) (callback_listen : option SocketAddr)
  : publishing Identity :=
  if device_authorization then enroll_with_device_authorization ev
  else
    let '(verifier, challenge) := ev_pkce ev in
    lift_result (ev_connect ev) ;*
    let* (device_key, csr) := lift_result (ev_device_csr ev) in
    let* begin := lift_result (map_err (in_context "begin OIDC enrollment")
      (ev_begin ev {| bq_code_challenge := challenge; bq_device_authorization := false |})) in
    let* redirect_uri := lift_result (map_err (fun e => plain_error (context "parse OIDC redirect URI" e))
      (ev_parse_url ev (be_redirect_uri begin))) in
    publish_status (awaiting_authentication (be_authorization_url begin)) ;*
    let* authorization_code := lift_result (map_err plain_error
      (wait_for_authorization_code redirect_uri (be_state begin) callback_listen (ev_bound ev) (ev_requests ev))) in
    publish_status (enrollment_status "enrolling") ;*
    let* tokens := lift_result (exchange_authorization_code token_from_json (ev_post ev) (be_token_endpoint begin)
      (be_client_id begin) (be_redirect_uri begin) authorization_code verifier) in
    lift_result (complete_enrollment ev begin device_key csr tokens).
End enrolling.

(** ** Polling stays within its bounds *)

Section polling.
Context (token_from_json : string -> result TokenResponse string).
Context (error_from_json : string -> option (string * option string)).
Context (answers : nat -> Z -> poll_answer).

Definition says_slow_down (i : nat) (t : Z) : bool :=
  match pa_answer (answers i t) with
  | Answer status (Some body) =>
      negb ((200 <=? status) && (status <? 300)) &&
      match classify_device_token_error error_from_json body with SlowDown => true | _ => false end
  | _ => false
  end.
(** The number of [slow_down] answers to the polls at these instants. *)
Fixpoint slow_downs (i : nat) (asked : list Z) : nat :=
  match asked with
  | [] => 0
  | t :: asked => (if says_slow_down i t then 1 else 0) + slow_downs (S i) asked
  end.
Lemma slow_downs_snoc i asked t :
  slow_downs i (asked ++ [t])%list
  = (slow_downs i asked + (if says_slow_down (i + length asked) t then 1 else 0))%nat.
Proof.
  revert i. induction asked as [|u asked IH]; intros i; simpl; [by rewrite !Nat.add_0_r|].
  rewrite IH. replace (S i + length asked)%nat with (i + S (length asked))%nat by lia. lia.
Qed.

(** Every poll waits for the interval, which has grown by every [slow_down] before. *)
Definition spaced (start interval : Z) (asked : list Z) : Prop :=
  forall i t, asked !! i = Some t ->
    (match i with O => start | S j => default start (asked !! j) end)
    + interval + DEVICE_POLL_SLOW_DOWN * Z.of_nat (slow_downs 0 (take i asked)) <= t.

Lemma spaced_snoc start interval asked t :
  spaced start interval asked ->
  default start (last asked) + interval + DEVICE_POLL_SLOW_DOWN * Z.of_nat (slow_downs 0 asked) <= t ->
  spaced start interval (asked ++ [t])%list.
Proof.
  intros Hs Ht i u Hi. apply lookup_app_Some in Hi as [Hi|[Hl Hi]].
  - pose proof (lookup_lt_Some _ _ _ Hi) as Hlt. specialize (Hs _ _ Hi).
    rewrite take_app_le by lia. destruct i as [|j]; [done|]. by rewrite lookup_app_l by lia.
  - apply list_lookup_singleton_Some in Hi as [Hi <-].
    assert (i = length asked) as -> by lia. rewrite take_app_length.
    destruct asked as [|u0 asked] using rev_ind; [done|]. clear IHasked.
    rewrite length_app. simpl. rewrite Nat.add_1_r. rewrite last_snoc in Ht.
    rewrite <- app_assoc, lookup_app_r, Nat.sub_diag by lia. done.
Qed.

Lemma poll_loop_spec fuel start interval0 deadline interval now asked :
  0 < interval0 -> (forall i t, 0 <= pa_elapsed (answers i t)) ->
  interval = interval0 + DEVICE_POLL_SLOW_DOWN * Z.of_nat (slow_downs 0 asked) ->
  default start (last asked) <= now <= deadline ->
  start + interval0 * Z.of_nat (length asked) <= now ->
  (Z.to_nat ((deadline - start) / interval0) < fuel + length asked)%nat ->
  spaced start interval0 asked -> Forall (fun t => t < deadline) asked ->
  exists r now' asked',
    poll_loop token_from_json error_from_json fuel answers deadline interval now asked = Some (r, now', asked') /\
    now <= now' <= deadline /\ spaced start interval0 asked' /\ Forall (fun t => t < deadline) asked' /\
    Z.of_nat (length asked') * interval0 <= deadline - start /\
    (is_ok r = true -> exists t status body, last asked' = Some t /\
       pa_answer (answers (pred (length asked')) t) = Answer status body /\ 200 <= status < 300).
Proof.
  intros Hi0 Hel. revert interval now asked. induction fuel as [|fuel IH]; intros interval now asked Hint Hlast Hnow Hfuel Hsp Hdl.
  { exfalso. assert (Z.of_nat (length asked) <= (deadline - start) / interval0); [|lia].
    apply Z.div_le_lower_bound; lia. }
  cbn [poll_loop]. unfold DEVICE_POLL_SLOW_DOWN, secs in *.
  assert (Z.of_nat (length asked) * interval0 <= deadline - start) as Hlen by lia.
  destruct (Z.leb_spec deadline (Z.min (now + interval) deadline)) as [Hend|Hmore].
  { eexists _, _, _. split; [done|]. split_and!; try done; [unfold secs in *; lia|lia]. }
  assert (Z.min (now + interval) deadline = now + interval) as Hmin by lia. rewrite Hmin.
  remember (now + interval) as t eqn:Ht.
  assert (spaced start interval0 (asked ++ [t])%list) as Hsp'.
  { apply spaced_snoc; [done|]. unfold DEVICE_POLL_SLOW_DOWN, secs. lia. }
  assert (Forall (fun t => t < deadline) (asked ++ [t])%list) as Hdl'.
  { apply Forall_app. split; [done|]. constructor; [lia|done]. }
  assert (length (asked ++ [t])%list = S (length asked)) as Hl' by (rewrite length_app; simpl; lia).
  assert (Z.of_nat (length (asked ++ [t])%list) * interval0 <= deadline - start) as Hlen'.
  { rewrite Hl'. unfold secs in *. nia. }
  pose proof (Hel (length asked) t) as Hel0.
  destruct (Z.leb_spec (deadline - t) (pa_elapsed (answers (length asked) t))) as [Hcut|Hin].
  { eexists _, _, _. split; [done|]. split_and!; try done; lia. }
  destruct (pa_answer (answers (length asked) t)) as [|status body] eqn:Ha.
  { eexists _, _, _. split; [done|]. split_and!; try done; unfold secs in *; lia. }
  destruct ((200 <=? status) && (status <? 300)) eqn:Hst.
  { eexists _, _, _. split; [done|]. split_and!; try done; [unfold secs in *; lia|lia|].
    intros _. exists t, status, body. rewrite last_snoc, Hl'. split_and!; [done|done|lia|lia]. }
  destruct body as [body|].
  2:{ eexists _, _, _. split; [done|]. split_and!; try done; unfold secs in *; lia. }
  assert (says_slow_down (length asked) t = match classify_device_token_error error_from_json body with
    SlowDown => true | _ => false end) as Hslow.
  { unfold says_slow_down. rewrite Ha, Hst. done. }
  assert (forall interval', interval' = interval0 + secs 5 * Z.of_nat (slow_downs 0 (asked ++ [t])%list) ->
    exists r now' asked',
    poll_loop token_from_json error_from_json fuel answers deadline interval'
      (t + pa_elapsed (answers (length asked) t)) (asked ++ [t])%list = Some (r, now', asked') /\
    now <= now' <= deadline /\ spaced start interval0 asked' /\ Forall (fun t => t < deadline) asked' /\
    Z.of_nat (length asked') * interval0 <= deadline - start /\
    (is_ok r = true -> exists t status body, last asked' = Some t /\
       pa_answer (answers (pred (length asked')) t) = Answer status body /\ 200 <= status < 300)) as Hrec.
  { intros interval' Hint'.
    destruct (IH interval' (t + pa_elapsed (answers (length asked) t)) (asked ++ [t])%list)
      as (r & now' & asked' & H1 & H2 & H3).
    - exact Hint'.
    - rewrite last_snoc. simpl. lia.
    - rewrite Hl'. unfold secs in *. nia.
    - rewrite Hl'. lia.
    - done.
    - done.
    - exists r, now', asked'. split; [done|]. split; [unfold secs in *; lia|done]. }
  unfold DEVICE_POLL_SLOW_DOWN.
  destruct (classify_device_token_error error_from_json body) as [| |message] eqn:Hc.
  - apply Hrec. rewrite slow_downs_snoc. cbn [Nat.add]. rewrite Hslow. unfold secs. lia.
  - apply Hrec. rewrite slow_downs_snoc. cbn [Nat.add]. rewrite Hslow. unfold secs. lia.
  - eexists _, _, _. split; [done|]. split_and!; try done; unfold secs in *; lia.
Qed.
End polling.

(** Waiting for a device code to be approved ends: whatever the token endpoint
    answers and however long it takes, the polling returns by the deadline, having
    asked at most [expires_in / interval] times, each time before the deadline and
    no sooner than the interval after the last one, which grows by five seconds
    with every [slow_down]; tokens are only returned from a successful answer. *)
Theorem device_polling_ends token_from_json error_from_json answers now interval expires_in :
  0 < interval -> 0 <= expires_in -> (forall i t, 0 <= pa_elapsed (answers i t)) ->
  exists r now' asked,
    poll_device_token token_from_json error_from_json (poll_fuel interval expires_in) answers now interval expires_in
      = Some (r, now', asked) /\
    now <= now' <= now + expires_in /\ Z.of_nat (length asked) <= expires_in / interval /\
    Forall (fun t => t < now + expires_in) asked /\
    spaced error_from_json answers now interval asked /\
    (is_ok r = true -> exists t status body, last asked = Some t /\
       pa_answer (answers (pred (length asked)) t) = Answer status body /\ 200 <= status < 300).
Proof.
  intros Hi He Hel. unfold poll_device_token.
  destruct (poll_loop_spec token_from_json error_from_json answers (poll_fuel interval expires_in) now interval
    (now + expires_in) interval now []) as (r & now' & asked & H1 & H2 & H3 & H4 & H5 & H6); try done.
  - simpl. unfold DEVICE_POLL_SLOW_DOWN. lia.
  - simpl. lia.
  - simpl. lia.
  - unfold poll_fuel. simpl. replace (now + expires_in - now) with expires_in by lia. lia.
  - exists r, now', asked. split_and!; try done; try lia. apply Z.div_le_lower_bound; lia.
Qed.

(** ** The callback *)

(** Whether a request ends the wait. *)
Definition decides (page : AuthorizationPage) (rq : callback_request) : bool :=
  match rq with GetCallback _ => true | GetSkip => optional page | _ => false end.

Lemma handle_callback_sent page expected rq sent :
  snd (handle_callback page expected rq sent)
  = if decides page rq
    then match sent with
         | Some r => Some r
         | None => Some (match rq with GetCallback query => callback_result expected query | _ => Ok None end)
         end
    else sent.
Proof. by destruct rq, page, sent. Qed.

(** The first request that ends the wait, in time. *)
Definition answered_first (page : AuthorizationPage) (requests : list (Z * callback_request))
    (rq : callback_request) : Prop :=
  exists before at_ after, requests = (before ++ (at_, rq) :: after)%list /\ at_ < CALLBACK_TIMEOUT /\
    forall t q, (t, q) ∈ before -> t < CALLBACK_TIMEOUT /\ decides page q = false.
(** None does. *)
Definition unanswered (page : AuthorizationPage) (requests : list (Z * callback_request)) : Prop :=
  exists before late, requests = (before ++ late)%list /\
    (forall t q, (t, q) ∈ before -> t < CALLBACK_TIMEOUT /\ decides page q = false) /\
    (late = [] \/ exists t q after, late = ((t, q) :: after)%list /\ CALLBACK_TIMEOUT <= t).

Lemma serve_callback_spec page expected requests :
  unanswered page requests /\
    serve_callback page expected requests None = Err "timed out waiting for OIDC callback" \/
  exists rq, answered_first page requests rq /\ decides page rq = true /\
    serve_callback page expected requests None
      = match rq with GetCallback query => callback_result expected query | _ => Ok None end.
Proof.
  induction requests as [|[at_ rq] requests IH].
  { left. split; [|done]. exists [], []. split; [done|]. split; [by intros ? ? ?%not_elem_of_nil|by left]. }
  cbn [serve_callback]. destruct (Z.leb_spec CALLBACK_TIMEOUT at_) as [Hle|Hlt].
  { left. split; [|done]. exists [], ((at_, rq) :: requests)%list. split; [done|].
    split; [by intros ? ? ?%not_elem_of_nil|]. right. by exists at_, rq, requests. }
  rewrite handle_callback_sent. destruct (decides page rq) eqn:Hd.
  { right. exists rq. split; [|split; [done|by destruct requests]]. exists [], at_, requests.
    split; [done|]. split; [done|]. by intros ? ? ?%not_elem_of_nil. }
  assert (forall before t q, (forall t q, (t, q) ∈ before -> t < CALLBACK_TIMEOUT /\ decides page q = false) ->
    (t, q) ∈ ((at_, rq) :: before)%list -> t < CALLBACK_TIMEOUT /\ decides page q = false) as Hcons.
  { intros before t q Hb [[= -> ->]|Hq]%elem_of_cons; [done|by eapply Hb]. }
  destruct IH as [[(before & late & -> & Hb & Hl) Hs]|(rq' & (before & at' & after & -> & Ht & Hb) & Hd' & Hs)];
    rewrite Hs.
  - left. split; [|done]. exists ((at_, rq) :: before)%list, late. split; [done|]. split; [|done].
    intros t q. by apply Hcons.
  - right. exists rq'. split; [|done]. exists ((at_, rq) :: before)%list, at', after. split; [done|].
    split; [done|]. intros t q. by apply Hcons.
Qed.

Lemma callback_result_Ok expected query code : callback_result expected query = Ok code ->
  cq_error query = None /\ cq_state query = Some expected /\ code = cq_code query /\ is_Some code.
Proof.
  unfold callback_result. destruct (cq_error query); [done|].
  destruct (bool_decide (cq_state query = Some expected)) eqn:E; [|done].
  apply bool_decide_eq_true in E. simpl. destruct (cq_code query) eqn:Hc; [|done]. intros [= <-]. eauto.
Qed.

(** An address on this device, over HTTP. *)
Definition on_loopback (u : Url) : Prop :=
  url_scheme u = "http" /\
  exists host, url_host u = Some host /\ host ∈ ["127.0.0.1"; "localhost"; "[::1]"; "::1"].
(** Why a sign-in ended without an answer. *)
Definition unbound (redirect_uri : Url) (listen : option SocketAddr) (callback : option Url)
    (bound : bind_target -> result unit string) : Prop :=
  is_ok (let? target := bind_callback redirect_uri listen in bound target) = false \/
  exists u, callback = Some u /\ is_ok (let? target := bind_callback u None in bound target) = false.
Definition refused (expected : string) (query : CallbackQuery) : Prop :=
  cq_error query <> None \/ cq_state query <> Some expected \/ cq_code query = None.

Lemma bind_callback_loopback u listen target : bind_callback u listen = Ok target -> on_loopback u.
Proof.
  unfold bind_callback, on_loopback.
  destruct (String.eqb_spec (url_scheme u) "http") as [Hs|]; [|done]. simpl.
  destruct (url_host u) as [host|] eqn:Hh; [|done]. simpl.
  destruct (bool_decide (host ∈ _)) eqn:Hl; [|done]. apply bool_decide_eq_true in Hl. intros _.
  split; [done|]. by exists host.
Qed.
Lemma callback_result_Err expected query e : callback_result expected query = Err e -> refused expected query.
Proof.
  unfold callback_result, refused. destruct (cq_error query); [by left|].
  destruct (bool_decide (cq_state query = Some expected)) eqn:E; simpl.
  - destruct (cq_code query); [done|]. auto.
  - apply bool_decide_eq_false in E. auto.
Qed.

Lemma wait_outcome redirect_uri expected listen page callback bound requests :
  match wait_for_authorization_code_with_callback redirect_uri expected listen page callback bound requests with
  | Ok (Some code) => (on_loopback redirect_uri /\ forall u, callback = Some u -> on_loopback u) /\
      exists query, answered_first page requests (GetCallback query) /\
        cq_error query = None /\ cq_state query = Some expected /\ cq_code query = Some code
  | Ok None => (on_loopback redirect_uri /\ forall u, callback = Some u -> on_loopback u) /\
      page = SubscriptionPage /\ answered_first page requests GetSkip
  | Err _ => unbound redirect_uri listen callback bound \/ unanswered page requests \/
      exists query, answered_first page requests (GetCallback query) /\ refused expected query
  end.
Proof.
  unfold wait_for_authorization_code_with_callback, unbound.
  destruct (bind_callback redirect_uri listen) as [target|e] eqn:Hb; simpl; [|by auto].
  destruct (bound target); simpl; [|by auto]. apply bind_callback_loopback in Hb.
  destruct (match callback with Some _ => _ | None => _ end) as [u|e] eqn:Hc; simpl.
  2: { left. right. destruct callback as [u|]; [|done]. exists u. split; [done|]. by rewrite Hc. }
  assert (forall u, callback = Some u -> on_loopback u) as Hcb.
  { intros u' ->. destruct (bind_callback u' None) eqn:E; [|done]. by eapply bind_callback_loopback. }
  destruct (serve_callback_spec page expected requests) as [[Hun ->]|(rq & Hrq & Hd & ->)]; [by auto|].
  destruct rq as [| | | |query]; try done.
  - split; [done|]. split; [by destruct page|done].
  - destruct (callback_result expected query) as [o|e] eqn:E.
    + apply callback_result_Ok in E as (He & Hs & -> & [code Hcode]). rewrite Hcode.
      split; [done|]. by exists query.
    + right. right. exists query. split; [done|]. by eapply callback_result_Err.
Qed.


(** ** What an enrollment gives *)

Section enrolled.
Context {H : HeaderMap} {L : HeaderMapLaws H}.
Context (token_from_json : string -> result TokenResponse string).
Context (error_from_json : string -> option (string * option string)).

(** The identity is made of one controller response and one token response. *)
Record enrolled_with (ev : enroll_env) (i : Identity) (begin : BeginEnrollmentResponse)
    (csr : string) (tokens : TokenResponse) (response : CompleteEnrollmentResponse) : Prop := {
  ew_key : ev_device_csr ev = Ok (id_private_key i, csr);
  ew_complete : exists id_token, tr_id_token tokens = Some id_token /\
    ev_complete ev {| cr_enrollment_id := be_enrollment_id begin; cr_csr_der := csr; cr_id_token := id_token;
                      cr_authorization := "Bearer " +:+ tr_access_token tokens |} = Ok response;
  ew_device : id_device_id i = ce_device_id response;
  ew_certificate : id_certificate i = ce_certificate response /\ id_certificate i <> "" /\
    utf8_valid (id_certificate i) = true /\ id_certificate_expires_at i = ce_expires_at response;
  ew_oauth : id_oauth i = {| oa_access_token := tr_access_token tokens;
                             oa_refresh_token := default "" (tr_refresh_token tokens);
                             oa_expires_at := seconds_from (ev_now ev) (tr_expires_in tokens) |} /\
    is_Some (tr_refresh_token tokens);
  ew_provider : id_token_endpoint i = be_token_endpoint begin /\ id_client_id i = be_client_id begin;
}.

Lemma complete_enrollment_Ok ev begin key csr tokens i :
  ev_device_csr ev = Ok (key, csr) ->
  complete_enrollment ev begin key csr tokens = Ok i ->
  exists response, enrolled_with ev i begin csr tokens response.
Proof.
  intros Hk. unfold complete_enrollment. destruct (tr_id_token tokens) as [id_token|] eqn:Hi; [|done].
  destruct (tr_refresh_token tokens) as [refresh_token|] eqn:Hr; [|done]. cbn.
  destruct (header_value _) as [authorization|] eqn:Ha; [|done]. cbn.
  apply header_value_Some in Ha as ->.
  destruct (ev_complete ev _) as [response|] eqn:Hc; [|done]. cbn.
  destruct (utf8_valid (ce_certificate response)) eqn:Hu; [|done]. cbn.
  destruct (is_empty (ce_certificate response)) eqn:He; [done|]. intros [= <-].
  exists response. split; simpl; rewrite ?Hr; eauto.
  split_and!; try done. intros E. by rewrite E in He.
Qed.

Lemma lift_result_inv {S E A} (r : result A E) (s : S) a s' : lift_result r s = (Ok a, s') -> r = Ok a /\ s' = s.
Proof. by intros [= -> ->]. Qed.

(** The two ways to the tokens. *)
Definition tokens_asked (ev : enroll_env) (device_authorization : bool) (callback_listen : option SocketAddr)
    (begin : BeginEnrollmentResponse) (tokens : TokenResponse) : Prop :=
  if device_authorization then
    exists interval asked now, poll_device_token token_from_json error_from_json
      (poll_fuel interval (secs (be_expires_in_seconds begin)))
      (ev_polls ev (device_code_form (be_client_id begin) (be_device_code begin)))
      (ev_poll_start ev) interval (secs (be_expires_in_seconds begin)) = Some (Ok tokens, now, asked)
  else
    exists redirect_uri code, ev_parse_url ev (be_redirect_uri begin) = Ok redirect_uri /\
      wait_for_authorization_code redirect_uri (be_state begin) callback_listen (ev_bound ev) (ev_requests ev)
        = Ok code /\
      exchange_authorization_code token_from_json (ev_post ev) (be_token_endpoint begin) (be_client_id begin)
        (be_redirect_uri begin) code (fst (ev_pkce ev)) = Ok tokens.

(** What an enrollment gives: an identity whose tokens are those the identity
    provider gave for this enrollment's own code (the browser's, with the state the
    controller chose and the verifier of the challenge it was given, or the device
    code's), whose certificate is the controller's for the key that was generated
    here, and that can be refreshed; the user saw what to open first, then that
    the enrollment is under way. *)
Theorem enrollment_gives_its_own_identity ev device_authorization callback_listen published i published' :
  enroll token_from_json error_from_json ev device_authorization callback_listen published = (Ok i, published') ->
  exists begin csr tokens response shown,
    enrolled_with ev i begin csr tokens response /\
    ev_begin ev {| bq_code_challenge := if device_authorization then "" else snd (ev_pkce ev);
                   bq_device_authorization := device_authorization |} = Ok begin /\
    tokens_asked ev device_authorization callback_listen begin tokens /\
    published' = (published ++ [shown; enrollment_status "enrolling"])%list /\
    es_status shown = "awaitingAuthentication" /\ is_Some (es_authorization_url shown).
Proof.
  unfold enroll, tokens_asked. destruct device_authorization.
  - unfold enroll_with_device_authorization. intros Hr.
    apply st_bind_inv in Hr as [(e & _ & ?)|([] & s1 & [_ ->]%lift_result_inv & Hr)]; [done|].
    apply st_bind_inv in Hr as [(e & _ & ?)|([key csr] & s1 & [Hk ->]%lift_result_inv & Hr)]; [done|].
    apply st_bind_inv in Hr as [(e & _ & ?)|(begin & s1 & [Hb ->]%lift_result_inv & Hr)]; [done|].
    destruct (_ || _); [done|].
    apply st_bind_inv in Hr as [(e & _ & ?)|([] & s1 & [= <-] & Hr)]; [done|].
    apply st_bind_inv in Hr as [(e & _ & ?)|(tokens & s2 & [Ht ->]%lift_result_inv & Hr)]; [done|].
    apply st_bind_inv in Hr as [(e & _ & ?)|([] & s3 & [= <-] & Hr)]; [done|].
    apply lift_result_inv in Hr as [Hc ->].
    destruct (complete_enrollment_Ok _ _ _ _ _ _ Hk Hc) as [response Hw].
    destruct (poll_device_token _ _ _ _ _ _) as [[[r now] asked]|] eqn:Hp; [|done]. subst r.
    destruct (ev_begin ev _) as [b|] eqn:Hbe; [|done]. injection Hb as ->.
    eexists begin, csr, tokens, response, _. split; [done|]. split; [done|]. split; [by eexists _, asked, now|].
    split; [by rewrite <- app_assoc|]. split; [done|]. by eexists.
  - destruct (ev_pkce ev) as [verifier challenge] eqn:Hpkce. intros Hr.
    apply st_bind_inv in Hr as [(e & _ & ?)|([] & s1 & [_ ->]%lift_result_inv & Hr)]; [done|].
    apply st_bind_inv in Hr as [(e & _ & ?)|([key csr] & s1 & [Hk ->]%lift_result_inv & Hr)]; [done|].
    apply st_bind_inv in Hr as [(e & _ & ?)|(begin & s1 & [Hb ->]%lift_result_inv & Hr)]; [done|].
    apply st_bind_inv in Hr as [(e & _ & ?)|(redirect_uri & s1 & [Hu ->]%lift_result_inv & Hr)]; [done|].
    apply st_bind_inv in Hr as [(e & _ & ?)|([] & s1 & [= <-] & Hr)]; [done|].
    apply st_bind_inv in Hr as [(e & _ & ?)|(code & s2 & [Hcode ->]%lift_result_inv & Hr)]; [done|].
    apply st_bind_inv in Hr as [(e & _ & ?)|([] & s3 & [= <-] & Hr)]; [done|].
    apply st_bind_inv in Hr as [(e & _ & ?)|(tokens & s4 & [Ht ->]%lift_result_inv & Hr)]; [done|].
    apply lift_result_inv in Hr as [Hc ->].
    destruct (complete_enrollment_Ok _ _ _ _ _ _ Hk Hc) as [response Hw].
    destruct (ev_begin ev _) as [b|] eqn:Hbe; [|done]. injection Hb as ->.
    destruct (ev_parse_url ev _) as [u|] eqn:Hue; [|done]. injection Hu as ->.
    destruct (wait_for_authorization_code _ _ _ _ _) as [c|] eqn:Hce; [|done]. injection Hcode as ->.
    eexists begin, csr, tokens, response, _. split; [done|]. split; [done|].
    split; [by exists redirect_uri, code|].
    split; [by rewrite <- app_assoc|]. split; [done|]. by eexists.
Qed.
End enrolled.

(** ** Concrete runs *)

Definition demo_tokens : TokenResponse :=
  {| tr_access_token := "access"; tr_id_token := Some "id"; tr_refresh_token := Some "refresh";
     tr_expires_in := 3600; tr_token_type := "bearer" |}.
Definition demo_token_from_json (s : string) : result TokenResponse string :=
  if String.eqb s "tokens" then Ok demo_tokens else Err "expected value".
Definition demo_error_from_json (s : string) : option (string * option string) := Some (s, None).
(** Approved at the third poll, after a [slow_down]. *)
Definition demo_polls (i : nat) (t : Z) : poll_answer :=
  {| pa_answer := match i with
                  | 0%nat => Answer 400 (Some "authorization_pending")
                  | 1%nat => Answer 400 (Some "slow_down")
                  | _ => Answer 200 (Some "tokens")
                  end;
     pa_elapsed := secs 1 |}.

Lemma device_polling_ends_witness :
  exists r now' asked,
    poll_device_token demo_token_from_json demo_error_from_json (poll_fuel (secs 5) (secs 60))
      demo_polls 0 (secs 5) (secs 60) = Some (r, now', asked) /\
    0 <= now' <= secs 60 /\ Z.of_nat (length asked) <= 12.
Proof.
  destruct (device_polling_ends demo_token_from_json demo_error_from_json demo_polls 0 (secs 5) (secs 60))
    as (r & now' & asked & H1 & H2 & H3 & _).
  - unfold secs. lia.
  - unfold secs. lia.
  - intros i t. unfold demo_polls, secs. simpl. lia.
  - exists r, now', asked. split; [exact H1|]. split; [exact H2|exact H3].
Defined.
Example demo_polling :
  poll_device_token demo_token_from_json demo_error_from_json (poll_fuel (secs 5) (secs 60))
    demo_polls 0 (secs 5) (secs 60) = Some (Ok demo_tokens, secs 23, [secs 5; secs 11; secs 22]).
Proof. vm_compute. reflexivity. Qed.

Definition demo_redirect : Url :=
  {| url_scheme := "http"; url_username := ""; url_password := None; url_host := Some "127.0.0.1";
     url_port := Some 51326; url_path := "/callback"; url_query := None; url_fragment := None |}.
Definition demo_requests : list (Z * callback_request) :=
  [(secs 1, GetPrompt); (secs 2, GetSkip); (secs 3, GetContinue);
   (secs 40, GetCallback {| cq_code := Some "code"; cq_state := Some "state"; cq_error := None;
                            cq_error_description := None |})].

Definition demo_begin : BeginEnrollmentResponse :=
  {| be_enrollment_id := "e1"; be_authorization_url := "https://idp.example/authorize"; be_state := "state";
     be_redirect_uri := "http://127.0.0.1:51326/callback"; be_token_endpoint := "https://idp.example/token";
     be_client_id := "client"; be_device_code := "device"; be_user_code := "ABCD"; be_verification_uri := "https://idp.example/d";
     be_verification_uri_complete := ""; be_interval_seconds := 0; be_expires_in_seconds := 60 |}.
Definition demo_enroll_env : enroll_env :=
  {| ev_connect := Ok tt; ev_device_csr := Ok ("key", "csr"); ev_pkce := ("verifier", "challenge");
     ev_begin := fun _ => Ok demo_begin; ev_parse_url := fun _ => Ok demo_redirect;
     ev_bound := fun _ => Ok tt; ev_requests := demo_requests;
     ev_post := fun _ _ => Answer 200 (Some "tokens"); ev_polls := fun _ => demo_polls; ev_poll_start := 0;
     ev_complete := fun _ => Ok {| ce_device_id := "d1"; ce_certificate := "pem"; ce_expires_at := 1000000 |};
     ev_now := 100 |}.
Definition demo_enrolled (device_authorization : bool) : result Identity anyerror * list EnrollmentStatus :=
  enroll demo_token_from_json demo_error_from_json demo_enroll_env device_authorization None [].
Lemma enrollment_gives_its_own_identity_witness :
  exists i, demo_enrolled true = (Ok i, snd (demo_enrolled true)) /\ id_private_key i = "key" /\
    id_certificate i <> "" /\ length (snd (demo_enrolled true)) = 2%nat.
Proof.
  destruct (demo_enrolled true) as [r published] eqn:E.
  assert (exists i, r = Ok i) as [i Hi].
  { pose proof (f_equal fst E) as Hr. vm_compute in Hr. eexists. symmetry. exact Hr. }
  rewrite Hi in E |- *.
  destruct (enrollment_gives_its_own_identity demo_token_from_json demo_error_from_json demo_enroll_env
    true None [] i published E) as (begin & csr & tokens & response & shown & Hw & _ & _ & Hp & _).
  exists i. split; [reflexivity|]. split; [|split; [apply (ew_certificate _ _ _ _ _ _ Hw)|]].
  - pose proof (ew_key _ _ _ _ _ _ Hw) as Hk. cbn in Hk. congruence.
  - cbn [snd]. rewrite Hp. reflexivity.
Defined.
