(* ===== verification/Session.v ===== *)
(** * The controller session ([crates/agent/src/remote.rs])

    The loop that keeps the device enrolled and connected: [run] and [run_session]
    as a state machine whose phases are the places where the code waits, with the
    sign-out requests it takes at each of them, the connection status it publishes,
    and the credential requests of the local API that refresh the same identity
    concurrently under the refresh lock. Waiting times are seconds. The stream's own
    messages are in [Remote]. *)

From S2P Require Import Prelude Str Http Fs Config Tick SecretStore Identity SignIn.

(** ** Connection status *)

Inductive ControllerConnectionError : Type :=
| Unreachable | IdentityRejected | SessionExpired | LocalError.
#[global] Instance ControllerConnectionError_eq_dec : EqDecision ControllerConnectionError.
Proof. solve_decision. Defined.

Record ControllerConnectionStatus : Type := {
  cc_connected : bool;
  cc_last_seen : option Z;
  cc_last_error : option ControllerConnectionError;
}.
#[global] Instance ControllerConnectionStatus_eq_dec : EqDecision ControllerConnectionStatus.
Proof. solve_decision. Defined.

Definition initial_status : ControllerConnectionStatus :=
  {| cc_connected := false; cc_last_seen := None; cc_last_error := None |}.
Definition mark_connected (now : Z) (_ : ControllerConnectionStatus) : ControllerConnectionStatus :=
  {| cc_connected := true; cc_last_seen := Some now; cc_last_error := None |}.
Definition mark_seen (now : Z) (c : ControllerConnectionStatus) : ControllerConnectionStatus :=
  {| cc_connected := cc_connected c;
     cc_last_seen := if cc_connected c then Some now else cc_last_seen c;
     cc_last_error := cc_last_error c |}.
Definition mark_disconnected (now : Z) (error : option ControllerConnectionError)
    (c : ControllerConnectionStatus) : ControllerConnectionStatus :=
  {| cc_connected := false;
     cc_last_seen := if cc_connected c then Some now else cc_last_seen c;
     cc_last_error := match error with Some e => Some e | None => cc_last_error c end |}.

(** ** Errors and delays *)

Definition INITIAL_RETRY_DELAY : Z := 1.
Definition MAX_RETRY_DELAY : Z := 60.
Definition next_retry_delay (delay : Z) : Z := Z.min (delay * 2) MAX_RETRY_DELAY.

(** [tonic::Code::Unauthenticated]. *)
Definition UNAUTHENTICATED : Z := 16.
Definition grpc_code (e : anyerror) : option Z :=
  find_map (fun c => match c with Grpc code => Some code | _ => None end) (an_causes e).
Definition is_unauthenticated (e : anyerror) : bool :=
  is_some_and (fun code => code =? UNAUTHENTICATED) (grpc_code e).
(** The first [reqwest::Error] of the chain. *)
Definition reqwest_cause (e : anyerror) : option (option Z) :=
  find_map (fun c => match c with Reqwest status => Some status | _ => None end) (an_causes e).
Definition is_oauth_refresh_rejected (e : anyerror) : bool :=
  match reqwest_cause e with
  | Some (Some status) => (status =? 400) || (status =? 401) || (status =? 403)
  | _ => false
  end.
Definition is_transient_refresh_failure (e : anyerror) : bool := is_some (reqwest_cause e).

(** [unix_time_seconds().saturating_add(n)] is [seconds_from]. *)
Definition certificate_needs_renewal (now : Z) (i : Identity) : bool :=
  id_certificate_expires_at i <=? seconds_from now (24 * 60 * 60).
Definition token_expiring (now : Z) (o : OAuthCredentials) : bool :=
  oa_expires_at o <=? seconds_from now 120.

(** When [connect] closes the stream to refresh the access token. *)
Definition oauth_reconnect_after (now : Z) (i : Identity) : Z :=
  u64_saturating_sub (u64_saturating_sub (oa_expires_at (id_oauth i)) 60) now.

(** ** Refreshing the stored identity *)

Section with_codec.
Context {C : IdentityCodec} (sha256 : string -> string) (token_from_json : string -> result TokenResponse string).
Context (p : path).

(** [refresh_oauth_if_needed] once it holds the lock: the stored identity is taken
    when it is fresh; else the provider is asked for the one in memory. *)
Inductive refresh_plan : Type := Adopt (i : Identity) | AskProvider (i : Identity).
Definition refresh_check (rng : nat -> nat -> Z) (now : Z) (i : Identity) : ST fs anyerror refresh_plan := fun s =>
  match load sha256 rng p s with
  | (Ok (Some stored), s') =>
      if negb (token_expiring now (id_oauth stored)) then (Ok (Adopt stored), s') else (Ok (AskProvider i), s')
  | (Ok None, s') => (Ok (AskProvider i), s')
  | (Err e, s') => if is_unreadable e then (Ok (AskProvider i), s') else (Err e, s')
  end.
(** From the provider's answer on, still under the lock. *)
Definition refresh_finish (rng : nat -> nat -> Z) (post : string -> form -> http_answer) (now : Z) (i : Identity)
  : ST fs anyerror Identity :=
  let* i := lift_result (refresh token_from_json post now i) in
  st_map_err (fun e => plain_error (context "persist rotated OIDC refresh token" e)) (save sha256 rng p i) ;*
  st_ret i.
Definition refresh_oauth_if_needed (rng : nat -> nat -> nat -> Z) (post : string -> form -> http_answer)
    (now : Z) (i : Identity) : ST fs anyerror Identity :=
  if token_expiring now (id_oauth i) then
    let* plan := refresh_check (rng 0%nat) now i in
    match plan with
    | Adopt stored => st_ret stored
    | AskProvider i => refresh_finish (rng 1%nat) post now i
    end
  else st_ret i.

(** [renew_device_certificate]: [csr] is the request for the key of the identity,
    [answer] the controller's. *)
Definition renew_device_certificate {H : HeaderMap} (csr : string -> result string anyerror)
    (answer : string -> string -> result (string * Z) anyerror) (i : Identity) : result Identity anyerror :=
  let? der := csr (id_private_key i) in
  let? authorization := ok_or (header_value ("Bearer " +:+ oa_access_token (id_oauth i)))
    (plain_error "encode OIDC access token") in
  let? response := map_err (in_context "renew device certificate") (answer der authorization) in
  let '(certificate, expires_at) := response in
  if negb (utf8_valid certificate) then Err (plain_error "controller returned a non-UTF-8 device certificate")
  else if is_empty certificate then Err (plain_error "controller returned an empty device certificate")
  else Ok {| id_device_id := id_device_id i; id_certificate := certificate; id_private_key := id_private_key i;
             id_certificate_expires_at := expires_at; id_oauth := id_oauth i;
             id_token_endpoint := id_token_endpoint i; id_client_id := id_client_id i |}.

(** ** The state machine *)

(** Where the loop waits. *)
Inductive phase : Type :=
| Starting
| Enrolling (delay : Z)
| EnrollBackoff (delay : Z)
| Refreshing (i : Identity) (delay : Z)
| Renewing (i : Identity) (delay : Z)
| Connecting (i : Identity) (delay : Z)
| Streaming (i : Identity) (delay : Z)
| Waiting (i : Identity) (delay : Z)
| Stopped.

(** A credential request that needs a fresh access token. *)
Inductive task : Type :=
| Loaded (i : Identity)
| Asking (i : Identity).
Definition task_identity (t : task) : Identity := match t with Loaded i | Asking i => i end.
Definition holds_lock (t : task) : bool := match t with Asking _ => true | Loaded _ => false end.

Record machine : Type := {
  m_phase : phase;
  m_fs : fs;
  m_enrollment : EnrollmentStatus;
  m_connection : ControllerConnectionStatus;
  m_current : option CurrentConfig;
  m_retry : Z;
  m_tasks : list task;
}.
Definition with_phase (ph : phase) (m : machine) : machine :=
  {| m_phase := ph; m_fs := m_fs m; m_enrollment := m_enrollment m; m_connection := m_connection m;
     m_current := m_current m; m_retry := m_retry m; m_tasks := m_tasks m |}.
Definition with_fs (s : fs) (m : machine) : machine :=
  {| m_phase := m_phase m; m_fs := s; m_enrollment := m_enrollment m; m_connection := m_connection m;
     m_current := m_current m; m_retry := m_retry m; m_tasks := m_tasks m |}.
Definition with_enrollment (st : EnrollmentStatus) (m : machine) : machine :=
  {| m_phase := m_phase m; m_fs := m_fs m; m_enrollment := st; m_connection := m_connection m;
     m_current := m_current m; m_retry := m_retry m; m_tasks := m_tasks m |}.
Definition with_connection (c : ControllerConnectionStatus) (m : machine) : machine :=
  {| m_phase := m_phase m; m_fs := m_fs m; m_enrollment := m_enrollment m; m_connection := c;
     m_current := m_current m; m_retry := m_retry m; m_tasks := m_tasks m |}.
Definition with_current (c : option CurrentConfig) (m : machine) : machine :=
  {| m_phase := m_phase m; m_fs := m_fs m; m_enrollment := m_enrollment m; m_connection := m_connection m;
     m_current := c; m_retry := m_retry m; m_tasks := m_tasks m |}.
Definition with_retry (d : Z) (m : machine) : machine :=
  {| m_phase := m_phase m; m_fs := m_fs m; m_enrollment := m_enrollment m; m_connection := m_connection m;
     m_current := m_current m; m_retry := d; m_tasks := m_tasks m |}.
Definition with_tasks (ts : list task) (m : machine) : machine :=
  {| m_phase := m_phase m; m_fs := m_fs m; m_enrollment := m_enrollment m; m_connection := m_connection m;
     m_current := m_current m; m_retry := m_retry m; m_tasks := ts |}.
Definition set_status (status : string) (m : machine) : machine := with_enrollment (enrollment_status status) m.

(** What a step is given: random numbers, the time, and how long the session has
    been running. *)
Record step_env : Type := {
  en_rng : nat -> nat -> nat -> Z;
  en_now : Z;
  en_elapsed : Z;
}.

(** [run], when [run_session] returns an error. *)
Definition fail_session (en : step_env) (m : machine) : machine :=
  with_phase Stopped
    (with_retry (if MAX_RETRY_DELAY <? en_elapsed en then INITIAL_RETRY_DELAY else m_retry m)
      (with_connection (mark_disconnected (en_now en) (Some LocalError) (m_connection m))
        (set_status "failed" m))).

(** [complete_logout]: the answer of the request, and the machine. *)
Definition complete_logout (i : Identity) (m : machine) : result unit string * machine :=
  match delete_identity sha256 p (id_device_id i) (m_fs m) with
  | (Ok _, s) => (Ok tt, with_connection initial_status (set_status "starting" (with_current None (with_fs s m))))
  | (Err e, s) => (Err (context "remove local organization identity" e), with_fs s m)
  end.
Definition complete_unenrolled_logout (m : machine) : machine := set_status "starting" m.

Definition logout_between_sessions (rng : nat -> nat -> Z) (m : machine) : result unit string * machine :=
  match load sha256 rng p (m_fs m) with
  | (Ok (Some i), s) => complete_logout i (with_fs s m)
  | (Ok None, s) => (Ok tt, complete_unenrolled_logout (with_connection initial_status (with_fs s m)))
  | (Err e, s) =>
      if is_unreadable e then
        match discard sha256 p s with
        | (Ok _, s) => (Ok tt, complete_unenrolled_logout (with_connection initial_status (with_fs s m)))
        | (Err e, s) => (Err (context "remove local organization identity" e), with_fs s m)
        end
      else (Err (context "read local organization identity" (an_message e)), with_fs s m)
  end.

(** The top of [run_session]'s loop, up to the first wait. *)
Definition begin_session (en : step_env) (m : machine) : machine :=
  match load sha256 (en_rng en 0%nat) p (m_fs m) with
  | (Ok (Some i), s) => with_phase (Refreshing i INITIAL_RETRY_DELAY) (set_status "enrolled" (with_fs s m))
  | (Ok None, s) => with_phase (Enrolling INITIAL_RETRY_DELAY) (with_fs s m)
  | (Err e, s) =>
      if is_unreadable e then
        match discard sha256 p s with
        | (Ok _, s) => with_phase (Enrolling INITIAL_RETRY_DELAY) (set_status "starting" (with_fs s m))
        | (Err _, s) => fail_session en (with_fs s m)
        end
      else fail_session en (with_fs s m)
  end.

(** The identity is rejected: removed, and the device enrolls again. *)
Definition reject_identity (en : step_env) (i : Identity) (error : ControllerConnectionError) (m : machine) : machine :=
  match delete_identity sha256 p (id_device_id i) (m_fs m) with
  | (Ok _, s) =>
      with_phase Starting (with_connection (mark_disconnected (en_now en) (Some error) (m_connection m))
        (set_status "starting" (with_fs s m)))
  | (Err _, s) => fail_session en (with_fs s m)
  end.

(** The identity is saved before each connection. *)
Definition save_then_connect (en : step_env) (i : Identity) (delay : Z) (m : machine) : machine :=
  match save sha256 (en_rng en 3%nat) p i (m_fs m) with
  | (Ok _, s) => with_phase (Connecting i delay) (with_fs s m)
  | (Err _, s) => fail_session en (with_fs s m)
  end.
(** [renew_device_certificate] has returned: a renewed certificate is saved, and a
    failure leaves the current one. *)
Definition renewed (en : step_env) (renewal : result Identity anyerror) (i : Identity) (delay : Z) (m : machine)
  : machine :=
  match renewal with
  | Ok renewed =>
      match save sha256 (en_rng en 2%nat) p renewed (m_fs m) with
      | (Ok _, s) => save_then_connect en renewed delay (with_fs s m)
      | (Err _, s) => fail_session en (with_fs s m)
      end
  | Err _ => save_then_connect en i delay m
  end.
(** [refresh_oauth_if_needed] has returned. *)
Definition refreshed (en : step_env) (post : string -> form -> http_answer) (i : Identity) (delay : Z) (m : machine)
  : machine :=
  match refresh_oauth_if_needed (en_rng en) post (en_now en) i (m_fs m) with
  | (Ok i, s) =>
      if certificate_needs_renewal (en_now en) i then with_phase (Renewing i delay) (with_fs s m)
      else save_then_connect en i delay (with_fs s m)
  | (Err e, s) =>
      if is_oauth_refresh_rejected e then reject_identity en i SessionExpired (with_fs s m)
      else if is_transient_refresh_failure e then with_phase (Waiting i delay) (with_fs s m)
      else fail_session en (with_fs s m)
  end.

(** [connect] has returned. *)
Definition connection_ended (en : step_env) (r : result unit anyerror) (i : Identity) (delay : Z) (m : machine) : machine :=
  match r with
  | Ok _ => with_phase (Waiting i delay) (with_connection (mark_disconnected (en_now en) None (m_connection m)) m)
  | Err e =>
      if is_unauthenticated e then reject_identity en i IdentityRejected m
      else with_phase (Waiting i delay)
             (with_connection (mark_disconnected (en_now en) (Some Unreachable) (m_connection m)) m)
  end.

(** What can happen, to the session and to credential requests. *)
Inductive event : Type :=
| Begin
| Published (st : EnrollmentStatus)
| Enrolled (r : result Identity anyerror)
| Slept
| Refreshed (post : string -> form -> http_answer)
| Renewed (renewal : Identity -> result Identity anyerror)
| Opened
| Seen
| NewCurrent (c : option CurrentConfig)
| Closed (r : result unit anyerror)
| Logout
| TaskLoad
| TaskLock (k : nat)
| TaskAnswer (k : nat) (post : string -> form -> http_answer).

(** A sign-out, in each phase, with where the loop goes on. *)
Definition logout_in (en : step_env) (m : machine) : option (result unit string * machine) :=
  match m_phase m with
  | Starting | Renewing _ _ => None
  | Enrolling delay => Some (Ok tt, complete_unenrolled_logout m)
  | EnrollBackoff delay =>
      Some (Ok tt, with_phase (Enrolling (next_retry_delay delay)) (complete_unenrolled_logout m))
  | Refreshing i delay | Connecting i delay | Streaming i delay =>
      Some (let '(r, m') := complete_logout i m in
            (r, with_phase (match r with Ok _ => Starting | Err _ => Refreshing i delay end) m'))
  | Waiting i delay =>
      Some (let '(r, m') := complete_logout i m in
            (r, with_phase (match r with Ok _ => Starting | Err _ => Refreshing i (next_retry_delay delay) end) m'))
  | Stopped =>
      Some (let '(r, m') := logout_between_sessions (en_rng en 0%nat) m in
            (r, with_phase Starting (with_retry INITIAL_RETRY_DELAY m')))
  end.

(** The steps of a credential request; its own answer is not of interest here. *)
Definition task_load (en : step_env) (m : machine) : option machine :=
  match load sha256 (en_rng en 0%nat) p (m_fs m) with
  | (Ok (Some i), s) => Some (with_tasks (m_tasks m ++ [Loaded i])%list (with_fs s m))
  | (_, s) => Some (with_fs s m)
  end.
Definition remove_nth {A} (k : nat) (l : list A) : list A := (take k l ++ drop (S k) l)%list.
Definition task_lock (en : step_env) (k : nat) (m : machine) : option machine :=
  match m_tasks m !! k with
  | Some (Loaded i) =>
      if negb (token_expiring (en_now en) (id_oauth i)) then Some (with_tasks (remove_nth k (m_tasks m)) m)
      else if any holds_lock (m_tasks m) then None
      else match refresh_check (en_rng en 0%nat) (en_now en) i (m_fs m) with
           | (Ok (AskProvider i), s) => Some (with_tasks (<[k := Asking i]> (m_tasks m)) (with_fs s m))
           | (_, s) => Some (with_tasks (remove_nth k (m_tasks m)) (with_fs s m))
           end
  | _ => None
  end.
Definition task_answer (en : step_env) (k : nat) (post : string -> form -> http_answer) (m : machine) : option machine :=
  match m_tasks m !! k with
  | Some (Asking i) =>
      let '(_, s) := refresh_finish (en_rng en 1%nat) post (en_now en) i (m_fs m) in
      Some (with_tasks (remove_nth k (m_tasks m)) (with_fs s m))
  | _ => None
  end.

(** One step, with the answer of a sign-out; [None] when the event cannot happen
    in the phase. The session's refresh waits for the lock. *)
Definition step (en : step_env) (ev : event) (m : machine) : option (option (result unit string) * machine) :=
  match ev with
  | Logout => (fun '(r, m') => (Some r, m')) <$> logout_in en m
  | TaskLoad => (fun m' => (None, m')) <$> task_load en m
  | TaskLock k => (fun m' => (None, m')) <$> task_lock en k m
  | TaskAnswer k post => (fun m' => (None, m')) <$> task_answer en k post m
  | Begin => match m_phase m with Starting => Some (None, begin_session en m) | _ => None end
  | Published st =>
      match m_phase m with
      | Enrolling _ => if String.eqb (es_status st) "awaitingAuthentication" || String.eqb (es_status st) "enrolling"
                       then Some (None, with_enrollment st m) else None
      | _ => None
      end
  | Enrolled r =>
      match m_phase m with
      | Enrolling delay =>
          Some (None,
            match r with
            | Ok i => match save sha256 (en_rng en 0%nat) p i (m_fs m) with
                      | (Ok _, s) => with_phase (Refreshing i INITIAL_RETRY_DELAY) (set_status "enrolled" (with_fs s m))
                      | (Err _, s) => fail_session en (with_fs s m)
                      end
            | Err _ => with_phase (EnrollBackoff delay) (set_status "starting" m)
            end)
      | _ => None
      end
  | Slept =>
      match m_phase m with
      | EnrollBackoff delay => Some (None, with_phase (Enrolling (next_retry_delay delay)) m)
      | Waiting i delay => Some (None, with_phase (Refreshing i (next_retry_delay delay)) m)
      | Stopped => Some (None, with_phase Starting (with_retry (next_retry_delay (m_retry m)) m))
      | _ => None
      end
  | Refreshed post =>
      match m_phase m with
      | Refreshing i delay =>
          if token_expiring (en_now en) (id_oauth i) && any holds_lock (m_tasks m) then None
          else Some (None, refreshed en post i delay m)
      | _ => None
      end
  | Renewed renewal =>
      match m_phase m with
      | Renewing i delay => Some (None, renewed en (renewal i) i delay m)
      | _ => None
      end
  | Opened =>
      match m_phase m with
      | Connecting i delay =>
          Some (None, with_phase (Streaming i delay) (with_connection (mark_connected (en_now en) (m_connection m)) m))
      | _ => None
      end
  | Seen =>
      match m_phase m with
      | Streaming _ _ => Some (None, with_connection (mark_seen (en_now en) (m_connection m)) m)
      | _ => None
      end
  | NewCurrent c => match m_phase m with Streaming _ _ => Some (None, with_current c m) | _ => None end
  | Closed r =>
      match m_phase m with
      | Streaming i delay => Some (None, connection_ended en r i delay m)
      | Connecting i delay => if is_ok r then None else Some (None, connection_ended en r i delay m)
      | _ => None
      end
  end.

(** A run, with the answers of its sign-outs. *)
Fixpoint run_events (evs : list (step_env * event)) (m : machine)
  : option (list (result unit string) * machine) :=
  match evs with
  | [] => Some ([], m)
  | (en, ev) :: evs =>
      match step en ev m with
      | None => None
      | Some (r, m') =>
          match run_events evs m' with
          | None => None
          | Some (rs, m'') => Some ((option_list r ++ rs)%list, m'')
          end
      end
  end.
Definition start (s : fs) (current : option CurrentConfig) : machine :=
  {| m_phase := Starting; m_fs := s; m_enrollment := EnrollmentState_new true; m_connection := initial_status;
     m_current := current; m_retry := INITIAL_RETRY_DELAY; m_tasks := [] |}.
End with_codec.
