(* ===== verification/SessionFacts.v ===== *)
(** * What the session guarantees

    Theorems about the state machine of [Session]: which failures of a refresh are
    final, what every phase publishes, how long it waits, how a sign-out ends, and
    that no outage removes the device's identity. *)

From S2P Require Import Prelude Str Http Fs Config Tick SecretStore Identity SignIn Session.

(** ** Refresh failures *)

Section refreshing.
Context {C : IdentityCodec} (sha256 : string -> string) (token_from_json : string -> result TokenResponse string).
Context (p : path).

Definition final_status (status : Z) : bool := (status =? 400) || (status =? 401) || (status =? 403).
(** The provider refused the refresh token of [i]. *)
Definition refused (post : string -> form -> http_answer) (i : Identity) : Prop :=
  exists status body,
    post (id_token_endpoint i) (refresh_form (id_client_id i) (oa_refresh_token (id_oauth i))) = Answer status body /\
    final_status status = true.

(** It gave tokens that can be read. *)
Definition answered (post : string -> form -> http_answer) (i : Identity) : Prop :=
  exists status body response,
    post (id_token_endpoint i) (refresh_form (id_client_id i) (oa_refresh_token (id_oauth i)))
      = Answer status (Some body) /\
    error_for_status status = Ok tt /\ token_from_json body = Ok response.

Lemma final_status_error status : final_status status = true ->
  error_for_status status = Err (reqwest_error (Some status) "HTTP status error").
Proof.
  unfold final_status, error_for_status. rewrite !orb_true_iff, !Z.eqb_eq.
  intros [[-> | ->] | ->]; done.
Qed.
Lemma refused_not_answered post i : refused post i -> ~ answered post i.
Proof.
  intros (status & body & Hp & Hf%final_status_error) (status' & body' & response & Hp' & He & _).
  rewrite Hp in Hp'. injection Hp' as <- _. congruence.
Qed.

Lemma refresh_error post now i e : refresh token_from_json post now i = Err e ->
  (is_oauth_refresh_rejected e = true <-> refused post i) /\
  (is_transient_refresh_failure e = true <-> ~ answered post i).
Proof.
  unfold refresh, refresh_access_token, refused, answered.
  destruct (post _ _) as [|status body].
  { intros [= <-]. split; [split; [done|by intros (? & ? & ? & _)]|].
    split; [by intros _ (? & ? & ? & ? & _)|done]. }
  destruct (error_for_status status) as [[]|e0] eqn:Hs; cbn.
  2:{ intros [= <-]. unfold error_for_status in Hs. destruct (_ && _) eqn:Hb; [|done]. injection Hs as <-.
      split.
      - change (final_status status = true <-> exists status0 body0,
          Answer status body = Answer status0 body0 /\ final_status status0 = true).
        split; [intros Hf; by exists status, body|by intros (? & ? & [= <- <-] & Hf)].
      - split; [|done]. intros _ (? & ? & ? & [= <- _] & He & _). unfold error_for_status in He. by rewrite Hb in He. }
  assert (~ exists status0 body0, Answer status body = Answer status0 body0 /\ final_status status0 = true) as Hno.
  { intros (? & ? & [= <- <-] & Hf%final_status_error). congruence. }
  destruct body as [body|]; cbn.
  2:{ intros [= <-]. split; [by split|]. split; [by intros _ (? & ? & ? & ? & _)|done]. }
  destruct (token_from_json body) as [response|e0] eqn:Ht; cbn.
  2:{ intros [= <-]. split; [by split|]. split; [|done]. intros _ (? & ? & ? & [= <- <-] & _ & He). congruence. }
  unfold apply_refreshed_tokens, bearer_only.
  destruct (eq_ignore_ascii_case (tr_token_type response) "Bearer") eqn:Hb; [cbn; by rewrite Hb|].
  intros [= <-]. split; [by split|]. split; [done|]. intros Hn. exfalso. apply Hn. by exists status, body, response.
Qed.

(** What a successful refresh gives. *)
Lemma refresh_Ok post now i i' : refresh token_from_json post now i = Ok i' ->
  exists status body response,
    post (id_token_endpoint i) (refresh_form (id_client_id i) (oa_refresh_token (id_oauth i))) = Answer status (Some body) /\
    error_for_status status = Ok tt /\ token_from_json body = Ok response /\
    i' = with_oauth {| oa_access_token := tr_access_token response;
                       oa_refresh_token := default (oa_refresh_token (id_oauth i)) (tr_refresh_token response);
                       oa_expires_at := seconds_from now (tr_expires_in response) |} i.
Proof.
  unfold refresh, refresh_access_token. destruct (post _ _) as [|status body]; [done|].
  destruct (error_for_status status) as [[]|] eqn:Hs; [|done]. cbn. destruct body as [body|]; [|done]. cbn.
  destruct (token_from_json body) as [response|] eqn:Ht; [|done]. cbn.
  unfold apply_refreshed_tokens, bearer_only.
  destruct (eq_ignore_ascii_case (tr_token_type response) "Bearer") eqn:Hb; [cbn; rewrite Hb|done].
  intros [= <-]. by exists status, body, response.
Qed.

Lemma load_error rng s e s' : load sha256 rng p s = (Err e, s') ->
  is_oauth_refresh_rejected e = false /\ is_transient_refresh_failure e = false.
Proof.
  unfold load. destruct (fs_read s p) as [contents|[]]; try (by intros [= <- _]).
  destruct (stored_from_slice contents) as [stored|]; [|by intros [= <- _]].
  intros [(e1 & H1 & [= ->])|(store & s1 & _ & H)]%st_bind_inv.
  { apply st_map_err_inv in H1 as ([store|e2] & _ & [= ->]). done. }
  apply st_bind_inv in H as [(e1 & H1 & [= ->])|([] & s2 & _ & H)].
  - unfold migrate_legacy_linux_secrets in H1.
    destruct (legacy_linux_secrets_path p) as [legacy|]; [|by injection H1 as <- _].
    destruct (fs_read s1 legacy) as [contents'|[]]; try (by injection H1 as <- _); try discriminate H1.
    destruct (secrets_from_slice contents'); [|by injection H1 as <- _].
    apply st_map_err_inv in H1 as ([[]|e2] & _ & [= ->]). done.
  - destruct (read_secrets _ _ _ _) as [[]|]; [discriminate H|by injection H as <- _].
Qed.

Lemma refresh_check_inv rng now i s r s1 : refresh_check sha256 p rng now i s = (r, s1) ->
  match r with
  | Ok (Adopt stored) => load sha256 rng p s = (Ok (Some stored), s1) /\ token_expiring now (id_oauth stored) = false
  | Ok (AskProvider i') => i' = i /\
      match fst (load sha256 rng p s) with
      | Ok (Some stored) => token_expiring now (id_oauth stored) = true
      | Ok None => True
      | Err e => is_unreadable e = true
      end
  | Err e => load sha256 rng p s = (Err e, s1) /\ is_unreadable e = false
  end.
Proof.
  unfold refresh_check. destruct (load sha256 rng p s) as [[[stored|]|e] s2]; simpl.
  - destruct (token_expiring now (id_oauth stored)) eqn:E; by intros [= <- <-].
  - by intros [= <- <-].
  - destruct (is_unreadable e) eqn:E; by intros [= <- <-].
Qed.

(** C26. Which refresh failures are final. A refresh that failed is reported as
    rejected exactly when the provider was asked and answered 400, 401 or 403; it
    is reported as transient exactly when the provider was asked and no readable
    tokens came back, for whatever reason. What is neither is a failure of the
    local store, or a token of another type. *)
Theorem refresh_failures_are_classified rng post now i s e s' :
  refresh_oauth_if_needed sha256 token_from_json p rng post now i s = (Err e, s') ->
  let asked := fst (refresh_check sha256 p (rng 0%nat) now i s) = Ok (AskProvider i) in
  (is_oauth_refresh_rejected e = true <-> asked /\ refused post i) /\
  (is_transient_refresh_failure e = true <-> asked /\ ~ answered post i).
Proof.
  unfold refresh_oauth_if_needed. destruct (token_expiring now (id_oauth i)) eqn:Hx; [|done].
  intros [(e1 & H1 & [= ->])|(plan & s1 & H1 & H)]%st_bind_inv; rewrite H1; simpl.
  { apply refresh_check_inv in H1 as [Hl _]. destruct (load_error _ _ _ _ Hl) as [-> ->].
    split; (split; [done|by intros [? _]]). }
  destruct plan as [stored|i']; [done|]. apply refresh_check_inv in H1 as [-> _].
  apply st_bind_inv in H as [(e1 & H & [= ->])|(i' & s2 & H & H2)].
  - injection H as H _. apply refresh_error in H as [-> ->]. tauto.
  - injection H as H _. apply refresh_Ok in H as (status & body & response & Hp & Hs & Ht & _).
    assert (answered post i) as Ha by (by exists status, body, response).
    apply st_bind_inv in H2 as [(e1 & H2 & [= ->])|(? & s3 & _ & H3)]; [|done].
    apply st_map_err_inv in H2 as ([|e2] & _ & [= ->]).
    split; (split; [done|]); [intros [_ Hr]; by apply refused_not_answered in Hr|by intros [_ ?]].
Qed.
End refreshing.

(** ** Phases, statuses and delays *)

Definition in_session (ph : phase) : bool :=
  match ph with
  | Refreshing _ _ | Renewing _ _ | Connecting _ _ | Streaming _ _ | Waiting _ _ => true
  | Starting | Enrolling _ | EnrollBackoff _ | Stopped => false
  end.
Definition is_streaming (ph : phase) : bool := match ph with Streaming _ _ => true | _ => false end.
Definition phase_delay (ph : phase) : Z :=
  match ph with
  | Enrolling d | EnrollBackoff d | Refreshing _ d | Renewing _ d | Connecting _ d | Streaming _ d
  | Waiting _ d => d
  | Starting | Stopped => INITIAL_RETRY_DELAY
  end.

Definition delay_ok (d : Z) : Prop := INITIAL_RETRY_DELAY <= d <= MAX_RETRY_DELAY.
Lemma next_retry_delay_ok d : delay_ok d -> delay_ok (next_retry_delay d).
Proof. unfold delay_ok, next_retry_delay, INITIAL_RETRY_DELAY, MAX_RETRY_DELAY. lia. Qed.
Lemma initial_delay_ok : delay_ok INITIAL_RETRY_DELAY.
Proof. done. Qed.
#[export] Hint Resolve next_retry_delay_ok initial_delay_ok : agentdesktop.

(** What holds of a machine between events: the published statuses and the delays. *)
Record sound (m : machine) : Prop := {
  so_delay : delay_ok (phase_delay (m_phase m));
  so_retry : delay_ok (m_retry m);
  so_enrolled : es_status (m_enrollment m) = "enrolled" <-> in_session (m_phase m) = true;
  so_stopped : m_phase m = Stopped -> es_status (m_enrollment m) = "failed";
}.
(** The connection is reported exactly while the stream is open. *)
Definition reported (m : machine) : Prop := cc_connected (m_connection m) = is_streaming (m_phase m).

Section machine.
Context {C : IdentityCodec} (sha256 : string -> string) (token_from_json : string -> result TokenResponse string).
Context (p : path).
Abbreviation step := (step sha256 token_from_json p).

Lemma fail_session_sound en m : delay_ok (m_retry m) -> sound (fail_session en m) /\ reported (fail_session en m).
Proof.
  intros Hr. split; [|done]. split; simpl; [done| |done|done]. destruct (MAX_RETRY_DELAY <? en_elapsed en); auto with agentdesktop.
Qed.
Lemma reject_identity_sound en i error m : delay_ok (m_retry m) ->
  sound (reject_identity sha256 p en i error m) /\ reported (reject_identity sha256 p en i error m).
Proof.
  intros Hr. unfold reject_identity. destruct (delete_identity _ _ _ _) as [[]]; [|by apply fail_session_sound].
  split; [by split|done].
Qed.
(** Where a step of a session that is not connected ends. *)
Abbreviation lands m m' := (sound m' /\ (cc_connected (m_connection m) = false -> reported m')).
Lemma save_then_connect_sound en i d m : delay_ok (m_retry m) -> delay_ok d ->
  es_status (m_enrollment m) = "enrolled" -> lands m (save_then_connect sha256 p en i d m).
Proof.
  intros Hr Hd He. unfold save_then_connect.
  destruct (save _ _ _ _ _) as [[]]; [by split; [split|]|split; [|intros _]; by apply fail_session_sound].
Qed.
Lemma renewed_sound en r i d m : delay_ok (m_retry m) -> delay_ok d ->
  es_status (m_enrollment m) = "enrolled" -> lands m (renewed sha256 p en r i d m).
Proof.
  intros Hr Hd He. unfold renewed. destruct r as [i'|e]; [|by apply save_then_connect_sound].
  destruct (save _ _ _ _ _) as [[]]; [by apply (save_then_connect_sound en i' d (with_fs f m))|].
  split; [|intros _]; by apply fail_session_sound.
Qed.
Lemma refreshed_sound en post i d m : delay_ok (m_retry m) -> delay_ok d ->
  es_status (m_enrollment m) = "enrolled" -> lands m (refreshed sha256 token_from_json p en post i d m).
Proof.
  intros Hr Hd He. unfold refreshed.
  destruct (refresh_oauth_if_needed _ _ _ _ _ _ _ _) as [[i'|e] s].
  - destruct (certificate_needs_renewal _ _); [by split; [split|]|].
    by apply (save_then_connect_sound en i' d (with_fs s m)).
  - destruct (is_oauth_refresh_rejected e); [split; [|intros _]; by apply reject_identity_sound|].
    destruct (is_transient_refresh_failure e); [by split; [split|]|].
    split; [|intros _]; by apply fail_session_sound.
Qed.
Lemma connection_ended_sound en r i d m : delay_ok (m_retry m) -> delay_ok d ->
  es_status (m_enrollment m) = "enrolled" ->
  sound (connection_ended sha256 p en r i d m) /\ reported (connection_ended sha256 p en r i d m).
Proof.
  intros Hr Hd He. unfold connection_ended. destruct r as [[]|e]; [by split; [split|]|].
  destruct (is_unauthenticated e); [by apply reject_identity_sound|by split; [split|]].
Qed.

(** A sign-out that is not answered by an error, and any other event, keeps both. *)
Lemma complete_logout_status i m r m' : complete_logout sha256 p i m = (r, m') ->
  m_retry m' = m_retry m /\
  match r with
  | Ok _ => m_enrollment m' = enrollment_status "starting" /\ m_connection m' = initial_status /\
            m_current m' = None /\ m_tasks m' = m_tasks m
  | Err _ => m_enrollment m' = m_enrollment m /\ m_connection m' = m_connection m /\
             m_current m' = m_current m /\ m_tasks m' = m_tasks m
  end.
Proof. unfold complete_logout. destruct (delete_identity _ _ _ _) as [[]]; by intros [= <- <-]. Qed.

Lemma logout_between_status rng m r m' : logout_between_sessions sha256 p rng m = (r, m') ->
  m_retry m' = m_retry m /\
  match r with
  | Ok _ => m_enrollment m' = enrollment_status "starting" /\ m_connection m' = initial_status
  | Err _ => m_enrollment m' = m_enrollment m /\ m_connection m' = m_connection m
  end.
Proof.
  unfold logout_between_sessions. destruct (load _ _ _ _) as [[[i|]|e] s].
  - intros [E1 E2]%complete_logout_status. split; [exact E1|]. destruct r; destruct E2 as (? & ? & _); by split.
  - by intros [= <- <-].
  - destruct (is_unreadable e); [|by intros [= <- <-]].
    destruct (discard _ _ _) as [[]]; by intros [= <- <-].
Qed.

Lemma complete_logout_sound i m r m' ph : complete_logout sha256 p i m = (r, m') -> sound m ->
  in_session (m_phase m) = true -> in_session ph = true -> delay_ok (phase_delay ph) ->
  let m'' := with_phase (match r with Ok _ => Starting | Err _ => ph end) m' in
  sound m'' /\ (reported m -> is_ok r = true -> reported m'').
Proof.
  intros (E1 & E2)%complete_logout_status [Hd Hr He Hs] Hin Hph Hdel. split.
  - split; simpl; destruct r; destruct E2 as (E2 & E3 & _); rewrite ?E1, ?E2; try done.
    + by rewrite Hph, He, Hin.
    + intros Hst. by rewrite Hst in Hph.
  - intros _ Hok. destruct r; [|done]. unfold reported. simpl. by destruct E2 as (_ & -> & _).
Qed.

Lemma logout_sound en m r m' : logout_in sha256 p en m = Some (r, m') -> sound m ->
  sound m' /\ (reported m -> is_ok r = true -> reported m').
Proof.
  intros H Hm. unfold logout_in in H. pose proof Hm as [Hd Hr He Hs].
  destruct (m_phase m) eqn:Hp; simpl in *; try done;
    try (destruct (complete_logout _ _ _ m) as [r0 m0] eqn:E; injection H as <- <-;
         eapply complete_logout_sound in E; eauto; rewrite ?Hp; simpl; auto with agentdesktop).
  - injection H as <- <-. split; [|intros Hc _; unfold reported in *; simpl; by rewrite Hp in *].
    split; simpl; rewrite ?Hp; try done.
  - injection H as <- <-. split; [|by unfold reported; simpl; rewrite Hp].
    split; simpl; auto with agentdesktop; done.
  - destruct (logout_between_sessions _ _ _ m) as [r0 m0] eqn:E. injection H as <- <-.
    apply logout_between_status in E as (E1 & E2). split.
    + split; simpl; destruct r0; destruct E2 as (E2 & E3); rewrite ?E2; try done.
    + intros _ Hok. destruct r0; [|done]. unfold reported. simpl. by destruct E2 as (_ & ->).
Qed.

Lemma with_fs_sound s m : sound m -> sound (with_fs s m).
Proof. by intros []. Qed.
Lemma begin_session_sound en m : m_phase m = Starting -> sound m ->
  sound (begin_session sha256 p en m) /\ (reported m -> reported (begin_session sha256 p en m)).
Proof.
  intros Hp [Hd Hr He Hs]. unfold begin_session. rewrite Hp in *. simpl in He.
  destruct (load _ _ _ _) as [[[i|]|e] s].
  - split; [by split|by unfold reported; rewrite Hp].
  - split; [by split|by unfold reported; rewrite Hp].
  - destruct (is_unreadable e); [|by split; [|intros _]; apply fail_session_sound].
    destruct (discard _ _ _) as [[] s'].
    + split; [by split|by unfold reported; rewrite Hp].
    + split; [|intros _]; by apply fail_session_sound.
Qed.

(** A credential request changes the files only. *)
Lemma task_steps en ev m r m' : step en ev m = Some (r, m') ->
  match ev with TaskLoad | TaskLock _ | TaskAnswer _ _ => True | _ => False end ->
  m_phase m' = m_phase m /\ m_enrollment m' = m_enrollment m /\ m_connection m' = m_connection m /\
  m_current m' = m_current m /\ m_retry m' = m_retry m /\ r = None.
Proof.
  intros H Ht. destruct ev; try done; simpl in H.
  - unfold task_load in H. destruct (load _ _ _ _) as [[[i|]|e] s]; by injection H as <- <-.
  - unfold task_lock in H. destruct (m_tasks m !! k) as [[i|i]|]; try done.
    destruct (negb _); [by injection H as <- <-|]. destruct (any _ _); [done|].
    destruct (refresh_check _ _ _ _ _ _) as [[[i'|i']|e] s]; by injection H as <- <-.
  - unfold task_answer in H. destruct (m_tasks m !! k) as [[i|i]|]; try done.
    destruct (refresh_finish _ _ _ _ _ _ _ _) as [r0 s]. by injection H as <- <-.
Qed.

(** Every step keeps the statuses true, and the connection's unless a sign-out
    failed. *)
Lemma event_sound en ev m r m' : step en ev m = Some (r, m') -> sound m ->
  sound m' /\ (reported m -> is_none_or is_ok r = true -> reported m').
Proof.
  intros H Hm. pose proof Hm as [Hd Hr He Hs].
  destruct (match ev with TaskLoad | TaskLock _ | TaskAnswer _ _ => true | _ => false end) eqn:Htask.
  { destruct (task_steps _ _ _ _ _ H) as (E1 & E2 & E3 & E4 & E5 & ->); [by destruct ev|].
    split; [split; by rewrite ?E1, ?E2, ?E5|]. intros Hc _. unfold reported. by rewrite E1, E3. }
  destruct ev; try done; simpl in H; try (destruct (logout_in _ _ _ _) as [[r0 m0]|] eqn:E; [|done];
    injection H as <- <-; by eapply logout_sound);
    destruct (m_phase m) eqn:Hp; try done; simpl in He, Hd; unfold reported; rewrite ?Hp.
  - injection H as <- <-. destruct (begin_session_sound en m Hp Hm) as [H1 H2].
    split; [done|]. intros Hc _. apply H2. unfold reported. by rewrite Hp.
  - destruct (_ || _) eqn:E; [|done]. injection H as <- <-. split; [|intros Hc _; simpl; by rewrite Hp].
    split; simpl; rewrite ?Hp; try done. split; [|done]. intros Hst. rewrite Hst in E. done.
  - destruct r0 as [i|e]; injection H as <- <-; [|by split; [split|]].
    destruct (save _ _ _ _ _) as [[]]; [by split; [split|]|].
    split; [|intros _ _]; by apply fail_session_sound.
  - injection H as <- <-. split; [split; simpl; auto with agentdesktop; done|done].
  - injection H as <- <-. split; [split; simpl; auto with agentdesktop; done|done].
  - injection H as <- <-. split; [split; simpl; auto with agentdesktop; done|done].
  - destruct (_ && _); [done|]. injection H as <- <-.
    destruct (refreshed_sound en post i delay m) as [H1 H2]; try done; [by apply He|].
    split; [done|]. intros Hc _. by apply H2.
  - injection H as <- <-. destruct (renewed_sound en (renewal i) i delay m) as [H1 H2]; try done; [by apply He|].
    split; [done|]. intros Hc _. by apply H2.
  - injection H as <- <-. by split; [split|].
  - injection H as <- <-. split; [split; simpl; rewrite ?Hp; done|]. intros Hc _. simpl. by rewrite Hp.
  - injection H as <- <-. split; [split; simpl; rewrite ?Hp; done|]. intros Hc _. simpl. by rewrite Hp.
  - destruct (is_ok r0) eqn:Hok; [done|]. injection H as <- <-.
    destruct (connection_ended_sound en r0 i delay m) as [H1 H2]; try done; by apply He.
  - injection H as <- <-.
    destruct (connection_ended_sound en r0 i delay m) as [H1 H2]; try done; by apply He.
Qed.

Lemma run_sound evs m rs m' : run_events sha256 token_from_json p evs m = Some (rs, m') -> sound m ->
  sound m' /\ (reported m -> Forall (fun r => is_ok r = true) rs -> reported m').
Proof.
  revert m rs. induction evs as [|[en ev] evs IH]; intros m rs; [by intros [= <- <-]|].
  cbn [run_events]. destruct (step en ev m) as [[r m1]|] eqn:Hs; [|done].
  destruct (run_events _ _ _ evs m1) as [[rs1 m2]|] eqn:Hr; [|done]. intros [= <- <-] Hm.
  destruct (event_sound _ _ _ _ _ Hs Hm) as [H1 H2]. destruct (IH _ _ Hr H1) as [H3 H4].
  split; [done|]. intros Hc Hok%Forall_app. destruct Hok as [Hok1 Hok2]. apply H4; [|done]. apply H2; [done|].
  destruct r; [|done]. by apply Forall_inv in Hok1.
Qed.

Lemma start_sound s current : sound (start s current) /\ reported (start s current).
Proof. by split; [split|]. Qed.

(** C15. What the daemon shows is true: after any sequence of events, whatever the
    provider and the controller answer and whatever fails locally, the enrollment
    is reported as [enrolled] exactly while the loop uses a stored identity, and as
    [failed] whenever the session has stopped; and, as long as no sign-out has
    failed, the controller is reported as connected exactly while its stream is
    open. *)
Theorem published_status_is_true evs s current rs m :
  run_events sha256 token_from_json p evs (start s current) = Some (rs, m) ->
  (es_status (m_enrollment m) = "enrolled" <-> in_session (m_phase m) = true) /\
  (m_phase m = Stopped -> es_status (m_enrollment m) = "failed") /\
  (Forall (fun r => is_ok r = true) rs ->
     cc_connected (m_connection m) = true <-> exists i d, m_phase m = Streaming i d).
Proof.
  intros H. destruct (start_sound s current) as [Hs Hc].
  destruct (run_sound _ _ _ _ H Hs) as [[H1 H2 H3 H4] H5]. split; [done|]. split; [done|].
  intros Hok. specialize (H5 Hc Hok). unfold reported in H5. rewrite H5.
  destruct (m_phase m); simpl; split; intros; try done; try naive_solver.
Qed.

(** The daemon neither hammers a server nor gives up: whatever happens, every
    wait before the next attempt is between one second and a minute. *)
Theorem retry_delays_are_bounded evs s current rs m :
  run_events sha256 token_from_json p evs (start s current) = Some (rs, m) ->
  1 <= phase_delay (m_phase m) <= 60 /\ 1 <= m_retry m <= 60.
Proof.
  intros H. destruct (start_sound s current) as [Hs _].
  destruct (run_sound _ _ _ _ H Hs) as [[H1 H2 _ _] _]. split; [exact H1|exact H2].
Qed.
End machine.
