(* ===== verification/SessionIdentity.v ===== *)
(** * The identity over a session

    What the state machine of [Session] does to the identity on disk: outages and
    local failures never remove it, a sign-out does, and the credential requests
    that run beside the session refresh it one at a time. *)

From S2P Require Import Prelude Str Http Fs Config Tick SecretStore Identity SignIn Session SessionFacts.

Section identity.
Context {C : IdentityCodec} {laws : IdentityCodecLaws C}.
Context (sha256 : string -> string) (token_from_json : string -> result TokenResponse string) (dir : path).
Hypothesis entries_differ : forall d,
  entry_name sha256 TLS_KEY_SERVICE d <> entry_name sha256 OAUTH_SERVICE d.
(** What the Rust type of a token response guarantees. *)
Hypothesis tokens_typed : forall body response, token_from_json body = Ok response ->
  utf8_valid (tr_access_token response) = true /\
  (forall t, tr_refresh_token response = Some t -> utf8_valid t = true) /\
  in_u64 (tr_expires_in response) = true.
Abbreviation p := (metadata_path dir).
Abbreviation step := (step sha256 token_from_json p).
Abbreviation holds := (holds sha256 dir).

(** An identity of one device and key. *)
Record of_device (d key : string) (i : Identity) : Prop := {
  od_device : id_device_id i = d;
  od_key : id_private_key i = key;
  od_typed : identity_typed i;
}.
Definition phase_identity (ph : phase) : option Identity :=
  match ph with
  | Refreshing i _ | Renewing i _ | Connecting i _ | Streaming i _ | Waiting i _ => Some i
  | Starting | Enrolling _ | EnrollBackoff _ | Stopped => None
  end.

(** The device is enrolled, on disk and wherever its identity is in use. *)
Record enrolled_as (d key : string) (m : machine) : Prop := {
  ea_disk : exists i, of_device d key i /\ holds i (m_fs m);
  ea_memory i : phase_identity (m_phase m) = Some i -> of_device d key i;
  ea_tasks t : t ∈ m_tasks m -> of_device d key (task_identity t);
  ea_phase : in_session (m_phase m) = true \/ m_phase m = Starting \/ m_phase m = Stopped;
}.

(** The answers that end an enrollment, and the user's sign-out. *)
Definition asks (en : step_env) (i : Identity) (m : machine) : Prop :=
  fst (refresh_check sha256 p (en_rng en 0%nat) (en_now en) i (m_fs m)) = Ok (AskProvider i).
Definition ends_enrollment (en : step_env) (ev : event) (m : machine) : Prop :=
  match ev, m_phase m with
  | Logout, _ => True
  | Refreshed post, Refreshing i _ => asks en i m /\ refused post i
  | Closed (Err e), _ => is_unauthenticated e = true
  | _, _ => False
  end.
(** A renewal answers with a certificate for the same device and key. *)
Definition well_typed (en : step_env) (ev : event) : Prop :=
  0 <= en_now en /\
  match ev with
  | Renewed renewal => forall d key i r, renewal i = Ok r -> of_device d key i -> of_device d key r
  | _ => True
  end.

Lemma renewal_of_device {H : HeaderMap} csr answer :
  (forall der authorization certificate expires_at, answer der authorization = Ok (certificate, expires_at) ->
     in_u64 expires_at = true) ->
  forall d key i r, renew_device_certificate csr answer i = Ok r -> of_device d key i -> of_device d key r.
Proof.
  intros Hans d key i r. unfold renew_device_certificate.
  destruct (csr _) as [der|]; [|done]. cbn. destruct (header_value _) as [authorization|]; [|done]. cbn.
  destruct (answer der authorization) as [[certificate expires_at]|] eqn:Ha; [|done]. cbn.
  destruct (utf8_valid certificate) eqn:Hu; [|done]. cbn. destruct (is_empty certificate); [done|].
  intros [= <-] [H1 H2 ((? & ? & ? & ? & ?) & ? & ?)]. split; [done..|].
  split; [|done]. split_and!; try done. by eapply Hans.
Qed.

(** *** What the disk holds *)

Lemma seconds_from_typed now n : 0 <= now -> in_u64 n = true -> in_u64 (seconds_from now n) = true.
Proof.
  unfold in_u64, seconds_from. rewrite !andb_true_iff, !Z.leb_le. unfold U64_MAX. lia.
Qed.
Lemma refresh_of_device d key post now i i' : 0 <= now ->
  refresh token_from_json post now i = Ok i' -> of_device d key i -> of_device d key i'.
Proof.
  intros Hn (status & body & response & _ & _ & Ht & ->)%refresh_Ok [H1 H2 (Hst & Hk & Ho)].
  apply tokens_typed in Ht as (Ha & Hr & He). split; [done..|]. split; [done|]. split; [done|].
  split; [done|]. split; [|by apply seconds_from_typed]. simpl.
  destruct (tr_refresh_token response) eqn:E; simpl; [by apply Hr|]. by destruct Ho as (_ & ? & _).
Qed.

(** The disk has an identity of the device. *)
Definition disk (d key : string) (s : fs) : Prop := exists i, of_device d key i /\ holds i s.

Lemma with_oauth_of_device d key i new : of_device d key i -> of_device d key new ->
  of_device d key (with_oauth (id_oauth new) i).
Proof. intros [H1 H2 (? & ? & ?)] [_ _ (_ & _ & ?)]. by split. Qed.

Lemma save_keeps d key rng i s r s' : disk d key s -> of_device d key i ->
  save sha256 rng p i s = (r, s') -> disk d key s' /\ (is_ok r = true -> holds i s').
Proof.
  intros (old & Hold & Hh) Hi Hs.
  eapply (resave_holds sha256 dir entries_differ rng old i) in Hs; try done;
    [|by rewrite (od_device _ _ _ Hi), (od_device _ _ _ Hold)|by rewrite (od_key _ _ _ Hi), (od_key _ _ _ Hold)|apply Hi].
  destruct r as [u|e]; [by split; [exists i|]|]. split; [|done].
  destruct Hs as [Hs|Hs]; [by exists old|exists (with_oauth (id_oauth i) old)].
  split; [|done]. by apply with_oauth_of_device.
Qed.
Lemma load_disk d key rng s r s' : disk d key s -> load sha256 rng p s = (r, s') ->
  exists i, r = Ok (Some i) /\ of_device d key i /\ holds i s'.
Proof.
  intros (i & Hi & Hh) Hl. destruct (load_holds sha256 dir rng i s Hh) as (s1 & Hl1 & Hh1).
  rewrite Hl1 in Hl. injection Hl as <- <-. by exists i.
Qed.
Lemma refresh_check_keeps d key rng now i s r s' : disk d key s -> of_device d key i ->
  refresh_check sha256 p rng now i s = (r, s') ->
  disk d key s' /\ exists plan, r = Ok plan /\
    of_device d key (match plan with Adopt i => i | AskProvider i => i end).
Proof.
  intros Hd Hi. unfold refresh_check. destruct (load sha256 rng p s) as [r0 s0] eqn:Hl.
  apply (load_disk d key) in Hl as (i0 & -> & Hi0 & Hh); [|done].
  destruct (negb _); intros [= <- <-]; (split; [by exists i0|]); by eexists.
Qed.
Lemma refresh_finish_keeps d key rng post now i s r s' : 0 <= now -> disk d key s -> of_device d key i ->
  refresh_finish sha256 token_from_json p rng post now i s = (r, s') ->
  disk d key s' /\ (forall i', r = Ok i' -> of_device d key i').
Proof.
  intros Hn Hd Hi [(e & H1 & ->)|(i' & s1 & H1 & H)]%st_bind_inv; injection H1 as Hr <-; [done|].
  apply (refresh_of_device d key) in Hr; [|done..].
  apply st_bind_inv in H as [(e & H & ->)|([] & s2 & H & H2)];
    apply st_map_err_inv in H as (r0 & H & _); apply (save_keeps d key) in H as [H _]; try done.
  injection H2 as <- <-. split; [done|]. by intros ? [= <-].
Qed.
Lemma refresh_keeps d key rng post now i s r s' : 0 <= now -> disk d key s -> of_device d key i ->
  refresh_oauth_if_needed sha256 token_from_json p rng post now i s = (r, s') ->
  disk d key s' /\ (forall i', r = Ok i' -> of_device d key i').
Proof.
  intros Hn Hd Hi. unfold refresh_oauth_if_needed. destruct (token_expiring now (id_oauth i)).
  2:{ intros [= <- <-]. split; [done|]. by intros ? [= <-]. }
  intros [(e & H1 & ->)|(plan & s1 & H1 & H)]%st_bind_inv;
    apply (refresh_check_keeps d key) in H1 as (Hd1 & plan' & Hp & Hi1); try done.
  injection Hp as ->. destruct plan' as [i1|i1]; [|by eapply refresh_finish_keeps].
  injection H as <- <-. split; [done|]. by intros ? [= <-].
Qed.

(** *** Steps *)

Lemma fail_session_keeps d key en m : disk d key (m_fs m) ->
  (forall t, t ∈ m_tasks m -> of_device d key (task_identity t)) -> enrolled_as d key (fail_session en m).
Proof. intros Hd Ht. split; [done|done|done|by right; right]. Qed.
Lemma save_then_connect_keeps d key en i delay m : disk d key (m_fs m) ->
  (forall t, t ∈ m_tasks m -> of_device d key (task_identity t)) -> of_device d key i ->
  enrolled_as d key (save_then_connect sha256 p en i delay m).
Proof.
  intros Hd Ht Hi. unfold save_then_connect. destruct (save _ _ _ _ _) as [r s] eqn:Hs.
  apply (save_keeps d key) in Hs as [Hs _]; [|done..].
  destruct r; [|by apply fail_session_keeps]. split; simpl; [done|by intros ? [= <-]|done|by left].
Qed.

Lemma elem_of_remove_nth {A} k (l : list A) x : x ∈ remove_nth k l -> x ∈ l.
Proof.
  unfold remove_nth. intros [H|H]%elem_of_app; [by eapply elem_of_take in H as (?&?&?); eapply list_elem_of_lookup_2|].
  rewrite <- (take_drop (S k) l). apply elem_of_app. by right.
Qed.

Lemma step_keeps_identity d key en ev m r m' :
  enrolled_as d key m -> well_typed en ev -> step en ev m = Some (r, m') -> ~ ends_enrollment en ev m ->
  enrolled_as d key m'.
Proof.
  intros Hm [Hn Hev] Hstep Hend. pose proof Hm as [Hd Hmem Ht Hph].
  destruct ev; simpl in Hstep, Hend; try done;
    try (lazymatch type of Hstep with context [m_phase m] => idtac end;
         destruct (m_phase m) as [| | | | | | | |] eqn:Hp; try done; simpl in Hmem);
    try (exfalso; by destruct Hph as [?|[?|?]]).
  - injection Hstep as <- <-. unfold begin_session. destruct (load _ _ _ _) as [r0 s] eqn:Hl.
    apply (load_disk d key) in Hl as (i & -> & Hi & Hh); [|done].
    split; simpl; [by exists i|by intros ? [= <-]|done|by left].
  - injection Hstep as <- <-. split; simpl; [done|by intros ? [= <-]; apply Hmem|done|by left].
  - injection Hstep as <- <-. split; simpl; [done|done|done|by right; left].
  - destruct (_ && _); [done|]. injection Hstep as <- <-. unfold refreshed.
    destruct (refresh_oauth_if_needed _ _ _ _ _ _ _ _) as [r0 s] eqn:Hr.
    pose proof (refresh_keeps d key _ _ _ _ _ _ _ Hn Hd (Hmem i eq_refl) Hr) as [Hd' Hi'].
    destruct r0 as [i'|e].
    + destruct (certificate_needs_renewal _ _); [|by apply save_then_connect_keeps; auto].
      split; simpl; [done|by intros ? [= <-]; apply Hi'|done|by left].
    + apply refresh_failures_are_classified in Hr as [Hrej _].
      destruct (is_oauth_refresh_rejected e); [exfalso; apply Hend, Hrej; done|].
      destruct (is_transient_refresh_failure e); [|by apply fail_session_keeps].
      split; simpl; [done|by intros ? [= <-]; apply Hmem|done|by left].
  - injection Hstep as <- <-. unfold renewed. specialize (Hmem i eq_refl).
    destruct (renewal i) as [i'|e] eqn:Hr; [|by apply save_then_connect_keeps].
    apply (Hev d key) in Hr; [|done].
    destruct (save _ _ _ _ _) as [r0 s] eqn:Hs. apply (save_keeps d key) in Hs as [Hs _]; [|done..].
    destruct r0; [by apply save_then_connect_keeps|by apply fail_session_keeps].
  - injection Hstep as <- <-. split; simpl; [done|by intros ? [= <-]; apply Hmem|done|by left].
  - injection Hstep as <- <-. split; simpl; rewrite ?Hp; [done|by intros ? [= <-]; apply Hmem|done|by left].
  - injection Hstep as <- <-. split; simpl; rewrite ?Hp; [done|by intros ? [= <-]; apply Hmem|done|by left].
  - destruct r0 as [u|e]; [done|]. injection Hstep as <- <-. unfold connection_ended.
    destruct (is_unauthenticated e); [done|].
    split; simpl; [done|by intros ? [= <-]; apply Hmem|done|by left].
  - injection Hstep as <- <-. unfold connection_ended. destruct r0 as [u|e]; [|destruct (is_unauthenticated e); [done|]];
      (split; simpl; [done|by intros ? [= <-]; apply Hmem|done|by left]).
  - unfold task_load in Hstep. destruct (load _ _ _ _) as [r0 s] eqn:Hl.
    apply (load_disk d key) in Hl as (i & -> & Hi & Hh); [|done]. injection Hstep as <- <-.
    split; simpl; [by exists i|done| |done]. intros t [?|Hin]%elem_of_app; [by apply Ht|].
    by apply list_elem_of_singleton in Hin as ->.
  - unfold task_lock in Hstep. destruct (m_tasks m !! k) as [[i|i]|] eqn:Hk; try done.
    pose proof (Ht _ (list_elem_of_lookup_2 _ _ _ Hk)) as Hi. simpl in Hi.
    destruct (negb _).
    { injection Hstep as <- <-. split; simpl; [done..| |done]. intros t Hin. by eapply Ht, elem_of_remove_nth. }
    destruct (any _ _); [done|]. destruct (refresh_check _ _ _ _ _ _) as [r0 s] eqn:Hc.
    apply (refresh_check_keeps d key) in Hc as (Hd' & plan & -> & Hi'); [|done..].
    destruct plan as [i'|i']; injection Hstep as <- <-; (split; simpl; [done..| |done]).
    + intros t Hin. by eapply Ht, elem_of_remove_nth.
    + intros t Hin. apply list_elem_of_lookup in Hin as [j Hj].
      apply list_lookup_insert_Some in Hj as [(-> & <- & _)|(_ & Hj)]; [done|].
      by eapply Ht, list_elem_of_lookup_2.
  - unfold task_answer in Hstep. destruct (m_tasks m !! k) as [[i|i]|] eqn:Hk; try done.
    pose proof (Ht _ (list_elem_of_lookup_2 _ _ _ Hk)) as Hi. simpl in Hi.
    destruct (refresh_finish _ _ _ _ _ _ _ _) as [r0 s] eqn:Hf.
    apply (refresh_finish_keeps d key) in Hf as [Hf _]; [|done..]. injection Hstep as <- <-.
    split; simpl; [done..| |done]. intros t Hin. by eapply Ht, elem_of_remove_nth.
Qed.

(** A run in which neither the user nor the controller nor the provider ended the
    enrollment. *)
Inductive uneventful : machine -> machine -> Prop :=
| uneventful_refl m : uneventful m m
| uneventful_step m en ev r m1 m2 :
    well_typed en ev -> step en ev m = Some (r, m1) -> ~ ends_enrollment en ev m ->
    uneventful m1 m2 -> uneventful m m2.

(** C3. An outage never signs a device out. Once a device is enrolled, any
    sequence of events in which the user does not sign out, the provider does not
    refuse the refresh token with 400, 401 or 403, and the controller does not
    answer [Unauthenticated] leaves the same device's identity, with its key, to be
    loaded: whatever requests time out or fail, whatever writes fail at whatever
    step, however often the loop restarts, and whatever credential requests run
    beside it. *)
Theorem outages_never_unenroll rng d key m m' :
  enrolled_as d key m -> uneventful m m' ->
  exists i s, load sha256 rng p (m_fs m') = (Ok (Some i), s) /\ id_device_id i = d /\ id_private_key i = key.
Proof.
  intros Hm Hrun. assert (enrolled_as d key m') as [Hd _ _ _].
  { induction Hrun as [|m en ev r m1 m2 Hw Hs He _ IH]; [done|]. by eapply IH, step_keeps_identity. }
  destruct (load sha256 rng p (m_fs m')) as [r s] eqn:Hl.
  apply (load_disk d key) in Hl as (i & -> & [Hi1 Hi2 _] & _); [|done]. by exists i, s.
Qed.

(** ** Signing out *)

Lemma complete_logout_disk i m r m' : complete_logout sha256 p i m = (r, m') -> r = Ok tt ->
  nodes (m_fs m') !! p = None.
Proof.
  unfold complete_logout. destruct (delete_identity _ _ _ _) as [[[]|e] s] eqn:Hd; intros [= <- <-] Hr; [|done].
  by apply delete_Ok in Hd.
Qed.
Lemma logout_between_disk rng m r m' : logout_between_sessions sha256 p rng m = (r, m') -> r = Ok tt ->
  nodes (m_fs m') !! p = None.
Proof.
  unfold logout_between_sessions. destruct (load _ _ _ _) as [[[i|]|e] s] eqn:Hl.
  - apply complete_logout_disk.
  - intros [= <- <-] _. simpl. unfold load, fs_read in Hl.
    destruct (fs_fault _ _ _) as [[]|]; try done.
    destruct (nodes (m_fs m) !! p) as [[c md|]|] eqn:Hn; try done; [|by injection Hl as <-].
    destruct (stored_from_slice c); [|done].
    apply st_bind_inv in Hl as [(e & _ & [=])|(store & s1 & _ & Hl)].
    apply st_bind_inv in Hl as [(e & _ & [=])|([] & s2 & _ & Hl)]. by destruct (read_secrets _ _ _ _) as [[]|].
  - destruct (is_unreadable e); [|by intros [= <- <-]].
    destruct (discard _ _ _) as [[[]|e1] s1] eqn:Hd; intros [= <- <-] Hr; [|done]. by apply discard_Ok in Hd.
Qed.

(** Where the loop takes a sign-out; elsewhere the request waits in its channel. *)
Definition listening (ph : phase) : bool :=
  match ph with Starting | Renewing _ _ => false | _ => true end.
(** The events of the session itself, not of a credential request beside it. *)
Definition of_session (ev : event) : bool :=
  match ev with TaskLoad | TaskLock _ | TaskAnswer _ _ => false | _ => true end.

(** No identity on disk, in the session or in a credential request. *)
Record signed_out (m : machine) : Prop := {
  so_disk : nodes (m_fs m) !! p = None;
  so_phase : phase_identity (m_phase m) = None;
  so_tasks : m_tasks m = [];
}.
(** A step that is not the success of a new enrollment. *)
Definition unenrolled_step (m m' : machine) : Prop :=
  exists en ev r, step en ev m = Some (r, m') /\ forall i, ev <> Enrolled (Ok i).

Lemma load_nothing rng s r s' : nodes s !! p = None -> load sha256 rng p s = (r, s') ->
  s' = s /\ (r = Ok None \/ exists e, r = Err e /\ is_unreadable e = false).
Proof.
  intros Hn. unfold load, fs_read. destruct (fs_fault s _ p) as [f|].
  - intros H. destruct f; injection H as <- <-; (split; [done|]); first [by left|right; by eexists].
  - rewrite Hn. intros [= <- <-]. split; [done|by left].
Qed.

Lemma signed_out_stays m m' : signed_out m -> unenrolled_step m m' -> signed_out m'.
Proof.
  intros [Hd Hph Ht] (en & ev & r & Hstep & Hev).
  assert (forall rng r0 s, load sha256 rng p (m_fs m) = (r0, s) ->
    s = m_fs m /\ (r0 = Ok None \/ exists e, r0 = Err e /\ is_unreadable e = false)) as Hload
    by (intros rng r0 s; by apply load_nothing).
  destruct ev; simpl in Hstep;
    try (lazymatch type of Hstep with context [m_phase m] => idtac end;
         destruct (m_phase m) as [| | | | | | | |] eqn:Hp; try done; simpl in Hph).
  - injection Hstep as <- <-. unfold begin_session. destruct (load _ _ _ _) as [r0 s] eqn:Hl.
    destruct (Hload _ _ _ Hl) as [-> [->|(e & -> & He)]]; [by split|]. rewrite He. by split.
  - destruct (_ || _); [|done]. injection Hstep as <- <-. split; simpl; [done|by rewrite Hp|done].
  - destruct r0 as [i|e]; [by destruct (Hev i)|]. injection Hstep as <- <-. by split.
  - injection Hstep as <- <-. by split.
  - injection Hstep as <- <-. by split.
  - unfold logout_in in Hstep. destruct (m_phase m) as [|d|d| | | | | |] eqn:Hp; try done; simpl in Hstep, Hph.
    + injection Hstep as <- <-. split; simpl; [done|by rewrite Hp|done].
    + injection Hstep as <- <-. by split.
    + unfold logout_between_sessions in Hstep. destruct (load _ _ _ _) as [r0 s] eqn:Hl.
      destruct (Hload _ _ _ Hl) as [-> [->|(e & -> & He)]]; [|rewrite He in Hstep]; injection Hstep as <- <-; by split.
  - unfold task_load in Hstep. destruct (load _ _ _ _) as [r0 s] eqn:Hl.
    destruct (Hload _ _ _ Hl) as [-> [->|(e & -> & He)]]; injection Hstep as <- <-; by split.
  - unfold task_lock in Hstep. by rewrite Ht in Hstep.
  - unfold task_answer in Hstep. by rewrite Ht in Hstep.
Qed.

Lemma listening_after_starting en m : listening (m_phase (begin_session sha256 p en m)) = true.
Proof.
  unfold begin_session. destruct (load _ _ _ _) as [[[i|]|e] s]; try done.
  destruct (is_unreadable e); [|done]. by destruct (discard _ _ _) as [[]].
Qed.
Lemma listening_after_renewing en r i d m : listening (m_phase (renewed sha256 p en r i d m)) = true.
Proof.
  assert (forall i m, listening (m_phase (save_then_connect sha256 p en i d m)) = true) as H
    by (intros i0 m0; unfold save_then_connect; by destruct (save _ _ _ _ _) as [[]]).
  unfold renewed. destruct r as [i'|e]; [|apply H]. destruct (save _ _ _ _ _) as [[] s]; [apply H|done].
Qed.

Lemma signed_out_run m m' : nodes (m_fs m') !! p = None -> m_phase m' = Starting -> m_tasks m' = m_tasks m ->
  m_tasks m = [] -> forall m2, rtc unenrolled_step m' m2 -> signed_out m2.
Proof.
  intros Hd Hp Ht Hnil m2 Hrun. assert (signed_out m') as H by (split; [done|by rewrite Hp|by rewrite Ht]).
  clear -H Hrun. induction Hrun as [|x y z Hxy _ IH]; [done|]. by eapply IH, signed_out_stays.
Qed.

(** What the request is told, and what became of the session. *)
Definition sign_out_answer (m : machine) (r : result unit string) (m' : machine) : Prop :=
  match r with
  | Ok _ =>
      phase_identity (m_phase m') = None /\ es_status (m_enrollment m') = "starting" /\
      (in_session (m_phase m) = true \/ m_phase m = Stopped ->
         nodes (m_fs m') !! p = None /\ m_connection m' = initial_status /\ m_phase m' = Starting /\
         (m_tasks m = [] -> forall m2, rtc unenrolled_step m' m2 -> signed_out m2)) /\
      (in_session (m_phase m) = true -> m_current m' = None)
  | Err _ => phase_identity (m_phase m') = phase_identity (m_phase m) /\ m_current m' = m_current m
  end.

Lemma logout_between_keeps rng m r m' : logout_between_sessions sha256 p rng m = (r, m') ->
  m_tasks m' = m_tasks m /\ (m_current m' = m_current m \/ r = Ok tt).
Proof.
  unfold logout_between_sessions. destruct (load _ _ _ _) as [[[i|]|e] s].
  - intros E. apply complete_logout_status in E as (_ & E).
    destruct r as [[]|e]; destruct E as (_ & _ & E1 & E2); (split; [done|]); [by right|by left].
  - intros [= <- <-]. split; [done|by right].
  - destruct (is_unreadable e); [|intros [= <- <-]; split; [done|by left]].
    destruct (discard _ _ _) as [[[]|e1] s1]; intros [= <- <-]; (split; [done|]); [by right|by left].
Qed.

Lemma in_session_answer i m ph : phase_identity (m_phase m) = Some i -> in_session (m_phase m) = true ->
  m_phase m <> Stopped -> phase_identity ph = Some i ->
  exists r m', Some (Some (fst (complete_logout sha256 p i m)),
                     with_phase (match fst (complete_logout sha256 p i m) with Ok _ => Starting | Err _ => ph end)
                       (snd (complete_logout sha256 p i m))) = Some (Some r, m') /\ sign_out_answer m r m'.
Proof.
  intros Hi Hin Hst Hph. destruct (complete_logout _ _ i m) as [r m'] eqn:E.
  pose proof (complete_logout_disk _ _ _ _ E) as Hdisk. apply complete_logout_status in E as (E1 & E2).
  eexists r, _. split; [done|]. unfold sign_out_answer. rewrite Hi.
  destruct r as [[]|e]; destruct E2 as (E2 & E3 & E4 & E5); simpl; rewrite ?E2, ?E3; split_and!; try done.
  intros _. split_and!; try done; [by apply Hdisk|]. apply signed_out_run; [by apply Hdisk|done..].
Qed.

End identity.
