(* ===== verification/SessionRefresh.v ===== *)
(** * Refreshes that share one identity

    The session and any number of credential requests refresh the same stored
    identity. Against a provider that rotates refresh tokens, and accepts only the
    one it issued last, the lock and the second look at the stored identity are
    what keeps a used token from being presented. *)

From S2P Require Import Prelude Str Http Fs Config Tick SecretStore Identity SignIn Session SessionFacts.
From S2P Require Import SessionIdentity.

Section rotation.
Context {C : IdentityCodec} {laws : IdentityCodecLaws C}.
Context (sha256 : string -> string) (token_from_json : string -> result TokenResponse string) (dir : path).
Hypothesis entries_differ : forall d,
  entry_name sha256 TLS_KEY_SERVICE d <> entry_name sha256 OAUTH_SERVICE d.
Hypothesis tokens_typed : forall body response, token_from_json body = Ok response ->
  utf8_valid (tr_access_token response) = true /\
  (forall t, tr_refresh_token response = Some t -> utf8_valid t = true) /\
  in_u64 (tr_expires_in response) = true.
Abbreviation p := (metadata_path dir).
Abbreviation step := (step sha256 token_from_json p).
Abbreviation holds := (holds sha256 dir).

(** A stretch of time, in which every token that is issued stays fresh. *)
Context (T0 T1 lifetime : Z).
Hypothesis window : 0 <= T0 /\ T1 + 120 < T0 + lifetime /\ T1 + 24 * 60 * 60 < U64_MAX.

(** A provider that accepts [current] only and then issues [new]. *)
Definition rotates (current new : string) (post : string -> form -> http_answer) : Prop :=
  forall endpoint client_id token,
    if decide (token = current) then
      exists body response, post endpoint (refresh_form client_id token) = Answer 200 (Some body) /\
        token_from_json body = Ok response /\ tr_refresh_token response = Some new /\
        eq_ignore_ascii_case (tr_token_type response) "Bearer" = true /\ lifetime <= tr_expires_in response
    else exists body, post endpoint (refresh_form client_id token) = Answer 400 body.
(** One that is not reached. *)
Definition silent (post : string -> form -> http_answer) : Prop := forall endpoint f, post endpoint f = NoAnswer.

(** What the daemon has in memory. *)
Definition in_memory (m : machine) (i : Identity) : Prop :=
  phase_identity (m_phase m) = Some i \/ exists t, t ∈ m_tasks m /\ task_identity t = i.
Definition fresh (i : Identity) : Prop := seconds_from T1 120 < oa_expires_at (id_oauth i).
Definition certificate_lasts (i : Identity) : Prop := certificate_needs_renewal T1 i = false.

(** At the time [t] the provider's current token is on disk; an identity in memory
    has the stored credentials, or its own have expired while the stored ones are
    fresh; the one request that is asking the provider presents the stored ones. *)
Record core (stored : Identity) (d key : string) (m : machine) (current : string) (t : Z) : Prop := {
  co_device : of_device d key stored;
  co_holds : holds stored (m_fs m);
  co_token : oa_refresh_token (id_oauth stored) = current;
  co_certificate : certificate_lasts stored;
  co_memory i : in_memory m i -> certificate_lasts i /\
    (id_oauth i = id_oauth stored \/ token_expiring t (id_oauth i) = true /\ fresh stored);
  co_asking i : Asking i ∈ m_tasks m ->
    id_oauth i = id_oauth stored /\ token_expiring t (id_oauth i) = true;
  co_lock j k i i' : m_tasks m !! j = Some (Asking i) -> m_tasks m !! k = Some (Asking i') -> j = k;
  co_phase i delay : m_phase m <> Renewing i delay;
}.
Record synced (d key : string) (m : machine) (current : string) (t : Z) : Prop := {
  sy_enrolled : enrolled_as sha256 dir d key m;
  sy_time : T0 <= t <= T1;
  sy_core : exists stored, core stored d key m current t;
}.

(** Whether the session's refresh reaches the provider. *)
Definition session_asks (en : step_env) (m : machine) : Prop :=
  exists i delay, m_phase m = Refreshing i delay /\ token_expiring (en_now en) (id_oauth i) = true /\
    asks sha256 dir en i m.

(** One event, with the provider's current token before and after. Neither the user
    nor the controller ends the enrollment, no certificate is renewed, and what the
    provider answered can be saved. *)
Inductive rotation_step : machine * string * Z -> machine * string * Z -> Prop :=
| rotation_other m current t en ev r m' :
    match ev with Refreshed _ | TaskAnswer _ _ | Renewed _ => False | _ => True end ->
    ~ ends_enrollment sha256 dir en ev m -> t <= en_now en <= T1 -> step en ev m = Some (r, m') ->
    rotation_step (m, current, t) (m', current, en_now en)
| rotation_unreached m current t en ev post r m' :
    silent post -> ev = Refreshed post \/ (exists k, ev = TaskAnswer k post) -> t <= en_now en <= T1 ->
    step en ev m = Some (r, m') -> (ev = Refreshed post -> m_phase m' <> Stopped) ->
    rotation_step (m, current, t) (m', current, en_now en)
| rotation_session m current t en post new current' r m' :
    rotates current new post -> t <= en_now en <= T1 ->
    step en (Refreshed post) m = Some (r, m') -> m_phase m' <> Stopped ->
    (session_asks en m -> current' = new) -> (~ session_asks en m -> current' = current) ->
    rotation_step (m, current, t) (m', current', en_now en)
| rotation_task m current t en k post new r m' :
    rotates current new post -> t <= en_now en <= T1 ->
    step en (TaskAnswer k post) m = Some (r, m') ->
    (forall i i', m_tasks m !! k = Some (Asking i) -> refresh token_from_json post (en_now en) i = Ok i' ->
       is_ok (fst (save sha256 (en_rng en 1%nat) p i' (m_fs m))) = true) ->
    rotation_step (m, current, t) (m', new, en_now en).

(** *** Times *)

Lemma seconds_from_mono t t' n : t <= t' -> seconds_from t n <= seconds_from t' n.
Proof. unfold seconds_from. lia. Qed.
Lemma expiring_mono t t' o : t <= t' -> token_expiring t o = true -> token_expiring t' o = true.
Proof.
  unfold token_expiring. rewrite !Z.leb_le. intros Ht H. pose proof (seconds_from_mono t t' 120 Ht). lia.
Qed.
Lemma fresh_not_expiring i now : now <= T1 -> fresh i -> token_expiring now (id_oauth i) = false.
Proof.
  unfold fresh, token_expiring. rewrite Z.leb_gt. intros Ht H.
  pose proof (seconds_from_mono now T1 120 Ht). lia.
Qed.
Lemma certificate_lasts_now i now : now <= T1 -> certificate_lasts i -> certificate_needs_renewal now i = false.
Proof.
  unfold certificate_lasts, certificate_needs_renewal. rewrite !Z.leb_gt. intros Ht H.
  pose proof (seconds_from_mono now T1 (24 * 60 * 60) Ht). lia.
Qed.
Lemma issued_fresh i now n o : T0 <= now -> lifetime <= n -> oa_expires_at o = seconds_from now n ->
  fresh (with_oauth o i).
Proof. unfold fresh, seconds_from. simpl. intros. rewrite H1. unfold seconds_from. lia. Qed.

(** *** What a refresh presents *)

Lemma rotated_refresh current new post now i : T0 <= now -> rotates current new post ->
  oa_refresh_token (id_oauth i) = current ->
  exists o, refresh token_from_json post now i = Ok (with_oauth o i) /\ oa_refresh_token o = new /\
    fresh (with_oauth o i).
Proof.
  intros Hn Hr Hi. specialize (Hr (id_token_endpoint i) (id_client_id i) (oa_refresh_token (id_oauth i))).
  rewrite decide_True in Hr by done. destruct Hr as (body & response & Hp & Ht & Hnew & Hb & Hl).
  exists {| oa_access_token := tr_access_token response; oa_refresh_token := new;
            oa_expires_at := seconds_from now (tr_expires_in response) |}.
  split; [|split; [done|by eapply issued_fresh]].
  unfold refresh, refresh_access_token. rewrite Hp. cbn. rewrite Ht. cbn. unfold apply_refreshed_tokens, bearer_only.
  rewrite Hb. cbn. rewrite Hb. cbn. by rewrite Hnew.
Qed.
Lemma silent_refresh post now i : silent post -> exists e, refresh token_from_json post now i = Err e.
Proof. intros Hs. unfold refresh, refresh_access_token. rewrite Hs. by eexists. Qed.

(** The decision under the lock, when the stored identity is known. *)
Lemma refresh_check_stored rng now i stored s : holds stored s ->
  exists s', holds stored s' /\
    refresh_check sha256 p rng now i s
    = (Ok (if token_expiring now (id_oauth stored) then AskProvider i else Adopt stored), s').
Proof.
  intros Hh. destruct (load_holds sha256 dir rng stored s Hh) as (s' & Hl & Hh'). exists s'. split; [done|].
  unfold refresh_check. rewrite Hl. by destruct (token_expiring now (id_oauth stored)).
Qed.

(** *** Steps *)

(** A step that stores the same credentials, or replaces expired ones by fresh ones. *)
Lemma core_change stored stored' d key m m' current current' t t' :
  core stored d key m current t -> t <= t' ->
  of_device d key stored' -> holds stored' (m_fs m') ->
  oa_refresh_token (id_oauth stored') = current' -> certificate_lasts stored' ->
  id_oauth stored' = id_oauth stored \/
    (token_expiring t' (id_oauth stored) = true /\ fresh stored') ->
  (forall i, in_memory m' i -> in_memory m i \/ (id_oauth i = id_oauth stored' /\ certificate_lasts i)) ->
  (forall i, Asking i ∈ m_tasks m' ->
     (Asking i ∈ m_tasks m /\ id_oauth stored' = id_oauth stored) \/
     (id_oauth i = id_oauth stored' /\ token_expiring t' (id_oauth i) = true)) ->
  (forall j k i i', m_tasks m' !! j = Some (Asking i) -> m_tasks m' !! k = Some (Asking i') -> j = k) ->
  (forall i delay, m_phase m' <> Renewing i delay) ->
  core stored' d key m' current' t'.
Proof.
  intros Hc Ht Hd Hh Hr Hcert Hst Hmem Hask Hlock Hph. split; try done.
  - intros i [Hi|[Hi Hci]]%Hmem; [|by split; [|left]].
    destruct (co_memory _ _ _ _ _ _ Hc i Hi) as [Hci Ho]. split; [done|].
    destruct Hst as [Hst|[Hex Hf]], Ho as [Ho|[Hoe Hof]].
    + left. congruence.
    + right. split; [by eapply expiring_mono|]. unfold fresh in *. by rewrite Hst.
    + right. by rewrite Ho.
    + right. split; [by eapply expiring_mono|done].
  - intros i [[Hi Hst']|Hi]%Hask; [|done].
    destruct (co_asking _ _ _ _ _ _ Hc i Hi) as [Ho He]. split; [congruence|by eapply expiring_mono].
Qed.

(** The same machine up to its phase's delay, its files and its statuses. *)
Lemma core_same stored d key m m' current t t' :
  core stored d key m current t -> t <= t' -> holds stored (m_fs m') -> m_tasks m' = m_tasks m ->
  (forall i, phase_identity (m_phase m') = Some i -> in_memory m i \/ i = stored) ->
  (forall i delay, m_phase m' <> Renewing i delay) -> core stored d key m' current t'.
Proof.
  intros Hc Ht Hh Htasks Hmem Hph. eapply (core_change stored stored _ _ m); try done; try apply Hc; [by left|..].
  - intros i [Hi|Hi]; [|left; right; by rewrite <- Htasks].
    destruct (Hmem i Hi) as [?| ->]; [by left|right]. split; [done|apply Hc].
  - intros i Hi. left. by rewrite <- Htasks.
  - rewrite Htasks. apply Hc.
Qed.

Lemma saved_core stored i d key m m' current current' t t' en delay :
  core stored d key m current t -> t <= t' -> of_device d key i -> certificate_lasts i ->
  oa_refresh_token (id_oauth i) = current' ->
  id_oauth i = id_oauth stored \/ (token_expiring t' (id_oauth stored) = true /\ fresh i /\
                                    forall i, Asking i ∉ m_tasks m) ->
  disk sha256 dir d key (m_fs m') -> m_tasks m' = m_tasks m ->
  m_phase (save_then_connect sha256 p en i delay m') <> Stopped ->
  core i d key (save_then_connect sha256 p en i delay m') current' t'.
Proof.
  intros Hc Ht Hi Hcert Hr Hst Hd Htasks. unfold save_then_connect.
  destruct (save _ _ _ _ _) as [r s] eqn:Hs. destruct r as [u|e]; [|done]. intros _.
  apply (save_keeps sha256 dir entries_differ d key) in Hs as [_ Hh]; [|done..]. specialize (Hh eq_refl).
  eapply (core_change stored i _ _ m); simpl; try done.
  - destruct Hst as [?|(? & ? & _)]; [by left|by right].
  - intros i' [[= <-]|Hi']; [by right|left; right; by rewrite <- Htasks].
  - intros i' Hi'. rewrite Htasks in Hi'. destruct Hst as [?|(_ & _ & Hno)]; [by left|by destruct (Hno i')].
  - rewrite Htasks. apply Hc.
Qed.

Lemma core_disk stored d key m current t s : core stored d key m current t -> holds stored s -> disk sha256 dir d key s.
Proof. intros Hc Hh. exists stored. split; [apply Hc|done]. Qed.

(** The session's refresh. *)
Lemma refreshed_core stored d key m current t en post new i delay :
  core stored d key m current t -> enrolled_as sha256 dir d key m ->
  m_phase m = Refreshing i delay -> T0 <= t -> t <= en_now en <= T1 ->
  rotates current new post \/ silent post ->
  token_expiring (en_now en) (id_oauth i) && any holds_lock (m_tasks m) = false ->
  m_phase (refreshed sha256 token_from_json p en post i delay m) <> Stopped ->
  (exists stored' current', core stored' d key (refreshed sha256 token_from_json p en post i delay m) current' (en_now en) /\
     (silent post -> current' = current) /\
     (rotates current new post -> (session_asks en m -> current' = new) /\ (~ session_asks en m -> current' = current))) /\
  ~ (asks sha256 dir en i m /\ refused post i).
Proof.
  intros Hc Hen Hp Ht0 [Ht Ht1] Hpost Hlock. unfold refreshed.
  destruct (refresh_oauth_if_needed _ _ _ _ _ _ _ _) as [r s] eqn:Href. unfold refresh_oauth_if_needed in Href.
  pose proof (ea_memory _ _ _ _ _ Hen i) as Hi. rewrite Hp in Hi. specialize (Hi eq_refl).
  destruct (co_memory _ _ _ _ _ _ Hc i) as [Hci Hoi]; [left; by rewrite Hp|].
  assert (id_oauth i = id_oauth stored -> ~ refused post i) as Hnot.
  { intros Ho (status & body & Hans & Hf). destruct Hpost as [Hrot|Hsil]; [|by rewrite Hsil in Hans].
    specialize (Hrot (id_token_endpoint i) (id_client_id i) (oa_refresh_token (id_oauth i))).
    rewrite decide_True in Hrot by (rewrite Ho; apply Hc). destruct Hrot as (b & resp & Hans' & _).
    rewrite Hans in Hans'. by injection Hans' as -> _. }
  assert (forall m', m_tasks m' = m_tasks m -> holds stored (m_fs m') -> disk sha256 dir d key (m_fs m')) as Hdisk.
  { intros m' _ Hh. by eapply core_disk. }
  destruct (token_expiring (en_now en) (id_oauth i)) eqn:Hx.
  2:{ (* the token is not due: it is the stored one *)
    destruct Hoi as [Ho|[He _]]; [|by rewrite (expiring_mono _ _ _ Ht He) in Hx].
    injection Href as <- <-.
    rewrite (certificate_lasts_now i (en_now en)) by done. intros Hns. split; [|by intros [_ ?%Hnot]].
    exists i, current. split; [|split; [done|]].
    - eapply saved_core; [exact Hc|exact Ht|done|done| |by left| |done|done].
      + rewrite Ho. apply Hc.
      + eapply Hdisk; [done|]. apply Hc.
    - intros _. split; [|done]. intros (i' & delay' & Hp' & Hx' & _). rewrite Hp in Hp'. congruence. }
  destruct (refresh_check_stored (en_rng en 0%nat) (en_now en) i stored (m_fs m) (co_holds _ _ _ _ _ _ Hc)) as (s' & Hh' & Hcheck).
  unfold st_bind at 1 in Href. rewrite Hcheck in Href.
  destruct (token_expiring (en_now en) (id_oauth stored)) eqn:Hxs.
  2:{ (* the stored copy is fresh: it is adopted *)
    injection Href as <- <-.
    rewrite (certificate_lasts_now stored (en_now en)) by (first [done|apply Hc]). intros Hns. split.
    2:{ intros [Ha _]. unfold asks in Ha. rewrite Hcheck in Ha. done. }
    exists stored, current. split; [|split; [done|]].
    - eapply (saved_core stored stored); [exact Hc|exact Ht|apply Hc|apply Hc|apply Hc|by left| |done|done].
      by eapply core_disk.
    - intros _. split; [|done]. intros (i' & delay' & Hp' & _ & Ha). rewrite Hp in Hp'.
      injection Hp' as <- <-. unfold asks in Ha. by rewrite Hcheck in Ha. }
  destruct Hoi as [Ho|[_ Hf]]; [|by rewrite (fresh_not_expiring _ (en_now en) Ht1 Hf) in Hxs].
  simpl in Hlock.
  assert (forall i', Asking i' ∉ m_tasks m) as Hnoask.
  { intros i' Hin. rewrite any_false in Hlock. by specialize (Hlock _ Hin). }
  assert (session_asks en m) as Hasks.
  { exists i, delay. split; [done|]. split; [done|]. unfold asks. by rewrite Hcheck. }
  unfold refresh_finish, st_bind, lift_result in Href.
  destruct Hpost as [Hrot|Hsil].
  - destruct (rotated_refresh current new post (en_now en) i) as (o & Hr & Hno & Hfr); [lia|done|rewrite Ho; apply Hc|].
    rewrite Hr in Href. unfold st_map_err in Href.
    destruct (save sha256 (en_rng en 1%nat) p (with_oauth o i) s') as [[[]|e] s2] eqn:Hs; injection Href as <- <-; [|done].
    rewrite (certificate_lasts_now (with_oauth o i) (en_now en)) by done. intros Hns.
    split; [|by intros [_ ?%Hnot]].
    apply (refresh_of_device token_from_json tokens_typed d key) in Hr as Hi'; [|lia|done].
    apply (save_keeps sha256 dir entries_differ d key) in Hs as [Hd2 _]; [|by eapply core_disk|done].
    exists (with_oauth o i), new. split; [|split].
    + eapply saved_core; [exact Hc|exact Ht|done|done|done|right; by split_and!|exact Hd2|done|done].
    + intros Hsil. specialize (Hrot "" "" current). rewrite decide_True in Hrot by done.
      destruct Hrot as (? & ? & Hans & _). by rewrite Hsil in Hans.
    + intros _. split; [done|]. intros Hno'. by destruct Hno'.
  - destruct (silent_refresh post (en_now en) i Hsil) as [e Hr]. rewrite Hr in Href. injection Href as <- <-.
    pose proof (refresh_error _ _ _ _ _ Hr) as [Hrej Htr].
    assert (~ refused post i) as Hnr by (intros (? & ? & Hans & _); by rewrite Hsil in Hans).
    assert (~ answered token_from_json post i) as Hna by (intros (? & ? & ? & Hans & _); by rewrite Hsil in Hans).
    destruct (is_oauth_refresh_rejected e); [by destruct Hnr; apply Hrej|].
    destruct (is_transient_refresh_failure e); [|by apply Htr in Hna]. intros _. split; [|by intros [_ ?]].
    exists stored, current. split; [|split; [done|]].
    + eapply core_same; [exact Hc|done|done|done| |done].
      intros i' [= <-]. left. left. by rewrite Hp.
    + intros Hrot. specialize (Hrot "" "" current). rewrite decide_True in Hrot by done.
      destruct Hrot as (? & ? & Hans & _). by rewrite Hsil in Hans.
Qed.

Lemma remove_nth_lookup {A} k (l : list A) j x : (k < length l)%nat -> remove_nth k l !! j = Some x ->
  l !! (if Nat.ltb j k then j else S j) = Some x.
Proof.
  intros Hk. unfold remove_nth. assert (length (take k l) = k) as Hlen by (rewrite length_take; lia).
  destruct (Nat.ltb_spec j k).
  - rewrite lookup_app_l, lookup_take_lt by lia. done.
  - rewrite lookup_app_r, lookup_drop by lia. rewrite Hlen. by replace (S k + (j - k))%nat with (S j) by lia.
Qed.
Lemma remove_nth_lock k (l : list task) :
  (k < length l)%nat ->
  (forall j j' i i', l !! j = Some (Asking i) -> l !! j' = Some (Asking i') -> j = j') ->
  forall j j' i i', remove_nth k l !! j = Some (Asking i) -> remove_nth k l !! j' = Some (Asking i') -> j = j'.
Proof.
  intros Hk Hl j j' i i' H1%remove_nth_lookup H2%remove_nth_lookup; [|done..].
  pose proof (Hl _ _ _ _ H1 H2) as Heq. destruct (Nat.ltb_spec j k), (Nat.ltb_spec j' k); lia.
Qed.
(** A credential request: its steps keep the synchronization. *)
Lemma task_lock_core stored d key m current t en k m' :
  core stored d key m current t -> enrolled_as sha256 dir d key m -> t <= en_now en <= T1 ->
  task_lock sha256 p en k m = Some m' -> core stored d key m' current (en_now en).
Proof.
  intros Hc Hen [Ht Ht1]. unfold task_lock. destruct (m_tasks m !! k) as [[i|i]|] eqn:Hk; try done.
  pose proof (lookup_lt_Some _ _ _ Hk) as Hlt.
  assert (forall s, holds stored s -> core stored d key (with_tasks (remove_nth k (m_tasks m)) (with_fs s m)) current (en_now en)) as Hrem.
  { intros s Hh. eapply (core_change stored stored _ _ m); try done; try apply Hc; [by left|..].
    - intros i' Hi'. left. destruct Hi' as [?|(t' & Hin & ?)]; [by left|right].
      exists t'. split; [|done]. eapply elem_of_remove_nth. exact Hin.
    - intros i' Hi'. left. split; [|done]. eapply elem_of_remove_nth. exact Hi'.
    - simpl. apply remove_nth_lock; [done|]. apply Hc. }
  destruct (negb (token_expiring (en_now en) (id_oauth i))) eqn:Hx.
  { intros [= <-]. replace m with (with_fs (m_fs m) m) at 2 by (by destruct m). apply Hrem, Hc. }
  apply negb_false_iff in Hx. destruct (any holds_lock (m_tasks m)) eqn:Hlock; [done|].
  destruct (refresh_check_stored (en_rng en 0%nat) (en_now en) i stored (m_fs m) (co_holds _ _ _ _ _ _ Hc)) as (s' & Hh' & Hcheck).
  rewrite Hcheck. destruct (token_expiring (en_now en) (id_oauth stored)) eqn:Hxs; intros [= <-]; [|by apply Hrem].
  destruct (co_memory _ _ _ _ _ _ Hc i) as [Hci Hoi].
  { right. exists (Loaded i). split; [by eapply list_elem_of_lookup_2|done]. }
  destruct Hoi as [Ho|[_ Hf]]; [|by rewrite (fresh_not_expiring _ (en_now en) Ht1 Hf) in Hxs].
  assert (forall x, x ∈ <[k:=Asking i]> (m_tasks m) -> x = Asking i \/ x ∈ m_tasks m) as Hins.
  { intros x Hin. apply list_elem_of_lookup in Hin as [j Hj].
    apply list_lookup_insert_Some in Hj as [(_ & <- & _)|(_ & Hj)]; [by left|right].
    by eapply list_elem_of_lookup_2. }
  eapply (core_change stored stored _ _ m); simpl; try done; try apply Hc; [by left|..].
  - intros i' [Hi'|(t' & [->|Hin]%Hins & Hi')]; [by left; left| |].
    + simpl in Hi'. subst. by right.
    + left. right. by exists t'.
  - intros i' [[= ->]|Hin]%Hins; [by right|by left].
  - intros j j' i1 i2 H1 H2.
    assert (forall j i1, <[k:=Asking i]> (m_tasks m) !! j = Some (Asking i1) -> j = k) as Hk1.
    { intros j0 i0 Hj. apply list_lookup_insert_Some in Hj as [(-> & _)|(_ & Hj)]; [done|].
      rewrite any_false in Hlock. by specialize (Hlock _ (list_elem_of_lookup_2 _ _ _ Hj)). }
    by rewrite (Hk1 _ _ H1), (Hk1 _ _ H2).
Qed.

Lemma task_load_core stored d key m current t en m' :
  core stored d key m current t -> t <= en_now en ->
  task_load sha256 p en m = Some m' -> core stored d key m' current (en_now en).
Proof.
  intros Hc Ht. unfold task_load.
  destruct (load_holds sha256 dir (en_rng en 0%nat) stored (m_fs m) (co_holds _ _ _ _ _ _ Hc)) as (s' & Hl & Hh').
  rewrite Hl. intros [= <-].
  assert (forall j i, (m_tasks m ++ [Loaded stored])%list !! j = Some (Asking i) -> m_tasks m !! j = Some (Asking i)) as Hold.
  { intros j i [?|[_ Hj]]%lookup_app_Some; [done|]. apply list_lookup_singleton_Some in Hj as [_ Hj]. done. }
  eapply (core_change stored stored _ _ m); simpl; try done; try apply Hc; [by left|..].
  - intros i [?|(t' & [Hin|Hin]%elem_of_app & Hi)]; [by left; left|left; right; by exists t'|].
    apply list_elem_of_singleton in Hin as ->. simpl in Hi. subst. right. split; [done|apply Hc].
  - intros i [j Hj]%list_elem_of_lookup. left. split; [|done]. by eapply list_elem_of_lookup_2, Hold.
  - intros j j' i1 i2 H1%Hold H2%Hold. by eapply (co_lock _ _ _ _ _ _ Hc).
Qed.

Lemma task_answer_core stored d key m current t en k post new m' :
  core stored d key m current t -> enrolled_as sha256 dir d key m -> T0 <= t -> t <= en_now en <= T1 ->
  task_answer sha256 token_from_json p en k post m = Some m' ->
  (rotates current new post /\
   (forall i i', m_tasks m !! k = Some (Asking i) -> refresh token_from_json post (en_now en) i = Ok i' ->
      is_ok (fst (save sha256 (en_rng en 1%nat) p i' (m_fs m))) = true)) \/ (silent post /\ new = current) ->
  exists stored', core stored' d key m' new (en_now en).
Proof.
  intros Hc Hen Ht0 [Ht Ht1]. unfold task_answer. destruct (m_tasks m !! k) as [[i|i]|] eqn:Hk; try done.
  pose proof (lookup_lt_Some _ _ _ Hk) as Hlt. pose proof (list_elem_of_lookup_2 _ _ _ Hk) as Hin.
  destruct (co_asking _ _ _ _ _ _ Hc i Hin) as [Ho Hx].
  destruct (co_memory _ _ _ _ _ _ Hc i) as [Hci _]; [right; by exists (Asking i)|].
  assert (forall j i', remove_nth k (m_tasks m) !! j = Some (Asking i') -> False) as Hnone.
  { intros j i' Hj. pose proof (remove_nth_lookup _ _ _ _ Hlt Hj) as Hj'.
    pose proof (co_lock _ _ _ _ _ _ Hc _ _ _ _ Hk Hj') as Heq. destruct (Nat.ltb_spec j k); lia. }
  assert (forall ph s i', in_memory (with_tasks (remove_nth k (m_tasks m)) (with_fs s m)) i' -> ph = m_phase m ->
    in_memory m i') as Hmem.
  { intros ph s i' [Hi|(t' & Hin' & Hi)] _; [by left|right]. exists t'. split; [|done].
    eapply elem_of_remove_nth. exact Hin'. }
  destruct (refresh_finish _ _ _ _ _ _ _ _) as [r s] eqn:Hf. intros [= <-].
  unfold refresh_finish, st_bind, lift_result in Hf. intros [[Hrot Hsave]|[Hsil ->]].
  - destruct (rotated_refresh current new post (en_now en) i) as (o & Hr & Hno & Hfr); [lia|done|rewrite Ho; apply Hc|].
    specialize (Hsave i _ eq_refl Hr). rewrite Hr in Hf. unfold st_map_err in Hf.
    destruct (save sha256 (en_rng en 1%nat) p (with_oauth o i) (m_fs m)) as [[[]|e] s2] eqn:Hs; [|done].
    injection Hf as _ <-.
    apply (refresh_of_device token_from_json tokens_typed d key) in Hr as Hi'; [|lia|].
    2:{ by apply (ea_tasks _ _ _ _ _ Hen (Asking i)). }
    apply (save_keeps sha256 dir entries_differ d key) in Hs as [_ Hh]; [|by apply Hen|done].
    exists (with_oauth o i). eapply (core_change stored _ _ _ m); simpl; try done; try apply Hc.
    + by apply Hh.
    + right. split; [|done]. rewrite <- Ho. by eapply expiring_mono.
    + intros i' Hi''. left. by eapply Hmem.
    + intros i' [j Hj]%list_elem_of_lookup. by destruct (Hnone _ _ Hj).
    + intros j j' i1 i2 H1. by destruct (Hnone _ _ H1).
  - destruct (silent_refresh post (en_now en) i Hsil) as [e Hr]. rewrite Hr in Hf. injection Hf as _ <-.
    exists stored. eapply (core_change stored _ _ _ m); simpl; try done; try apply Hc; [by left|..].
    + intros i' Hi''. left. by eapply Hmem.
    + intros i' [j Hj]%list_elem_of_lookup. by destruct (Hnone _ _ Hj).
    + intros j j' i1 i2 H1. by destruct (Hnone _ _ H1).
Qed.

Lemma other_core stored d key m current t en ev r m' :
  core stored d key m current t -> enrolled_as sha256 dir d key m ->
  match ev with Refreshed _ | TaskAnswer _ _ | Renewed _ => False | _ => True end ->
  ~ ends_enrollment sha256 dir en ev m -> t <= en_now en <= T1 -> step en ev m = Some (r, m') ->
  core stored d key m' current (en_now en).
Proof.
  intros Hc Hen Hev Hend [Ht Ht1] Hstep. pose proof (ea_phase _ _ _ _ _ Hen) as Hph.
  pose proof (co_phase _ _ _ _ _ _ Hc) as Hrn.
  destruct ev; try done; simpl in Hstep, Hend;
    try (lazymatch type of Hstep with context [m_phase m] => idtac end;
         destruct (m_phase m) as [| | | | | | | |] eqn:Hp; try done);
    try (exfalso; by destruct Hph as [?|[?|?]]).
  all: try (injection Hstep as <- <-; eapply core_same; [exact Hc|exact Ht|apply Hc|done| |];
            simpl; rewrite ?Hp; [by intros ? [= <-]; left; left; rewrite Hp|done]).
  - injection Hstep as <- <-. unfold begin_session.
    destruct (load_holds sha256 dir (en_rng en 0%nat) stored (m_fs m) (co_holds _ _ _ _ _ _ Hc)) as (s' & Hl & Hh').
    rewrite Hl. eapply core_same; [exact Hc|exact Ht|done|done| |done]. simpl. intros i [= <-]. by right.
  - destruct r0 as [u|e]; [done|]. injection Hstep as <- <-. unfold connection_ended.
    destruct (is_unauthenticated e); [done|].
    eapply core_same; [exact Hc|exact Ht|apply Hc|done| |done]. simpl. intros ? [= <-]. left. left. by rewrite Hp.
  - injection Hstep as <- <-. unfold connection_ended. destruct r0 as [u|e]; [|destruct (is_unauthenticated e); [done|]];
      (eapply core_same; [exact Hc|exact Ht|apply Hc|done| |done]; simpl; intros ? [= <-]; left; left; by rewrite Hp).
  - destruct (task_load _ _ _ _) as [m1|] eqn:E; [|done]. injection Hstep as <- <-. by eapply task_load_core.
  - destruct (task_lock _ _ _ _ _) as [m1|] eqn:E; [|done]. injection Hstep as <- <-. by eapply task_lock_core.
Qed.

Lemma rotation_step_synced d key x y : rotation_step x y ->
  synced d key (fst (fst x)) (snd (fst x)) (snd x) -> synced d key (fst (fst y)) (snd (fst y)) (snd y).
Proof.
  intros Hs [Hen Ht0 [stored Hc]]. 
  assert (forall en ev r m', step en ev (fst (fst x)) = Some (r, m') -> 0 <= en_now en ->
    match ev with Renewed _ => False | _ => True end -> ~ ends_enrollment sha256 dir en ev (fst (fst x)) ->
    enrolled_as sha256 dir d key m') as Hkeep.
  { intros en ev r m' Hst Hn Hev Hend. eapply step_keeps_identity; [done|done|exact Hen| |exact Hst|exact Hend].
    split; [done|]. by destruct ev. }
  destruct Hs as [m current t en ev r m' Hev Hend Ht Hst|m current t en ev post r m' Hsil Hev Ht Hst Hns
    |m current t en post new current' r m' Hrot Ht Hst Hns Hask Hnask|m current t en k post new r m' Hrot Ht Hst Hsave];
    simpl in *.
  - split; [eapply Hkeep; [exact Hst|lia|by destruct ev|exact Hend]|lia|]. exists stored. by eapply other_core.
  - destruct Hev as [->|[k ->]]; simpl in Hst.
    + destruct (m_phase m) as [| | |i delay| | | | |] eqn:Hp; try done.
      destruct (_ && _) eqn:Hlock; [done|]. injection Hst as <- <-. specialize (Hns eq_refl).
      destruct (refreshed_core stored d key m current t en post current i delay) as [(stored' & current' & Hc' & Hcur & _) Hnr];
        try done; [lia|by right|]. rewrite (Hcur Hsil) in Hc'.
      split; [|lia|by exists stored']. eapply (Hkeep en (Refreshed post)); simpl; rewrite ?Hp, ?Hlock; [done|lia|done|done].
    + destruct (task_answer _ _ _ _ _ _ _) as [m1|] eqn:E; [|done]. injection Hst as <- <-.
      split; [|lia|eapply task_answer_core; [exact Hc|exact Hen| |exact Ht|exact E|by right]; lia].
      eapply (Hkeep en (TaskAnswer k post)); simpl; rewrite ?E; [done|lia|done|by auto].
  - destruct (m_phase m) as [| | |i delay| | | | |] eqn:Hp; try done.
    destruct (_ && _) eqn:Hlock; [done|]. injection Hst as <- <-.
    destruct (refreshed_core stored d key m current t en post new i delay) as [(stored' & current'' & Hc' & _ & Hcur) Hnr];
      try done; [lia|by left|]. destruct (Hcur Hrot) as [Hcur1 Hcur2].
    assert (current' = current'') as ->.
    { destruct (decide (token_expiring (en_now en) (id_oauth i) = true)) as [Hx|Hx].
      - destruct (fst (refresh_check sha256 p (en_rng en 0%nat) (en_now en) i (m_fs m))) as [[i1|i1]|e] eqn:E.
        + assert (~ session_asks en m) as Hn; [|by rewrite (Hnask Hn), (Hcur2 Hn)].
          intros (i2 & d2 & Hp2 & _ & Ha). rewrite Hp in Hp2. injection Hp2 as <- <-. unfold asks in Ha. congruence.
        + assert (session_asks en m) as Hn; [|by rewrite (Hask Hn), (Hcur1 Hn)].
          exists i, delay. split; [done|]. split; [done|]. unfold asks. rewrite E.
          destruct (refresh_check _ _ _ _ _ _) as [r1 s1] eqn:E1. simpl in E. subst r1.
          apply refresh_check_inv in E1 as [-> _]. done.
        + assert (~ session_asks en m) as Hn; [|by rewrite (Hnask Hn), (Hcur2 Hn)].
          intros (i2 & d2 & Hp2 & _ & Ha). rewrite Hp in Hp2. injection Hp2 as <- <-. unfold asks in Ha. congruence.
      - assert (~ session_asks en m) as Hn; [|by rewrite (Hnask Hn), (Hcur2 Hn)].
        intros (i2 & d2 & Hp2 & Hx2 & _). rewrite Hp in Hp2. by injection Hp2 as <- <-. }
    split; [|lia|by exists stored']. eapply (Hkeep en (Refreshed post)); simpl; rewrite ?Hp, ?Hlock; [done|lia|done|done].
  - destruct (task_answer _ _ _ _ _ _ _) as [m1|] eqn:E; [|done]. injection Hst as <- <-.
    split; [|lia|eapply task_answer_core; [exact Hc|exact Hen| |exact Ht|exact E|by left]; lia].
    eapply (Hkeep en (TaskAnswer k post)); simpl; rewrite ?E; [done|lia|done|by auto].
Qed.

(** C7. No used refresh token is presented. While a provider accepts only the
    refresh token it issued last, every refresh the daemon makes presents that
    one, so none is refused: whatever the session and any number of credential
    requests do at the same time, over any stretch of time in which the tokens that
    are issued stay fresh, the provider can be unreached any number of times, and
    the device stays enrolled. (No certificate is renewed meanwhile, and an answer
    that arrives can be saved.) *)
Theorem used_tokens_are_not_presented d key m current t m' current' t' :
  synced d key m current t -> rtc rotation_step (m, current, t) (m', current', t') ->
  enrolled_as sha256 dir d key m' /\
  (forall i, Asking i ∈ m_tasks m' -> oa_refresh_token (id_oauth i) = current') /\
  (forall i delay en, m_phase m' = Refreshing i delay -> t' <= en_now en <= T1 ->
     token_expiring (en_now en) (id_oauth i) = true -> asks sha256 dir en i m' ->
     oa_refresh_token (id_oauth i) = current').
Proof.
  intros Hs Hrun.
  assert (forall x y, rtc rotation_step x y -> synced d key (fst (fst x)) (snd (fst x)) (snd x) ->
    synced d key (fst (fst y)) (snd (fst y)) (snd y)) as Hinv.
  { intros x y. induction 1 as [x|x y z Hxy _ IH]; [done|]. intros Hx. by eapply IH, rotation_step_synced. }
  destruct (Hinv _ _ Hrun Hs) as [Hen Ht [stored Hc]]. simpl in *. split; [done|]. split.
  - intros i Hi. destruct (co_asking _ _ _ _ _ _ Hc i Hi) as [-> _]. apply Hc.
  - intros i delay en Hp Hnow Hx Ha. unfold asks in Ha.
    destruct (refresh_check_stored (en_rng en 0%nat) (en_now en) i stored (m_fs m') (co_holds _ _ _ _ _ _ Hc)) as (s' & _ & Hcheck).
    rewrite Hcheck in Ha. simpl in Ha. destruct (token_expiring (en_now en) (id_oauth stored)) eqn:Hxs; [|done].
    destruct (co_memory _ _ _ _ _ _ Hc i) as [_ [->|[_ Hf]]]; [left; by rewrite Hp|apply Hc|].
    by rewrite (fresh_not_expiring _ (en_now en) (proj2 Hnow) Hf) in Hxs.
Qed.
End rotation.
