(* ===== verification/SessionRuns.v ===== *)
(** * Runs of the session

    The theorems about the session at concrete inputs, and the runs in which the
    daemon does what its comments say it does not. *)

From S2P Require Import Prelude Str Http Fs Config Tick SecretStore Identity SignIn Session SessionFacts.
From S2P Require Import SessionIdentity SessionRefresh.

(** ** A provider that rotates refresh tokens *)

Definition issued (n : string) (expires_in : Z) : TokenResponse :=
  {| tr_access_token := "a" +:+ n; tr_id_token := None; tr_refresh_token := Some ("r" +:+ n);
     tr_expires_in := expires_in; tr_token_type := "Bearer" |}.
Definition run_token_from_json (s : string) : result TokenResponse string :=
  if String.eqb s "2" then Ok (issued "2" 3600) else if String.eqb s "3" then Ok (issued "3" 3600)
  else Err "expected value".
Lemma run_tokens_typed body response : run_token_from_json body = Ok response ->
  utf8_valid (tr_access_token response) = true /\
  (forall t, tr_refresh_token response = Some t -> utf8_valid t = true) /\
  in_u64 (tr_expires_in response) = true.
Proof.
  unfold run_token_from_json. destruct (String.eqb body "2"); [|destruct (String.eqb body "3"); [|done]];
    intros [= <-]; (split; [reflexivity|split; [by intros t [= <-]|reflexivity]]).
Qed.
(** Accepts one token and answers with one body. *)
Definition accepting (token body : string) (endpoint : string) (f : form) : http_answer :=
  match f with
  | [_; (_, presented); _] => if decide (presented = token) then Answer 200 (Some body) else Answer 400 (Some "")
  | _ => Answer 400 (Some "")
  end.
Definition unreached (endpoint : string) (f : form) : http_answer := NoAnswer.

Definition at_time (now : Z) : step_env := {| en_rng := fun _ => demo_rng; en_now := now; en_elapsed := 10 |}.
Abbreviation dp := (metadata_path demo_dir).
Abbreviation demo_run := (run_events demo_hash run_token_from_json dp).
Abbreviation demo_step := (Session.step demo_hash run_token_from_json dp).

(** An enrolled device, as its files are after a load. *)
Definition stored_fs : fs := snd (load demo_hash demo_rng dp enrolled_fs).
Definition demo_start : machine := start stored_fs None.

Lemma stored_holds : Identity.holds demo_hash demo_dir (demo_identity "1" 500) stored_fs.
Proof.
  assert (load demo_hash demo_rng dp enrolled_fs = (Ok (Some (demo_identity "1" 500)), stored_fs)) as Hl.
  { unfold stored_fs. apply pair_of_fst. vm_compute. reflexivity. }
  exact (load_Some demo_hash demo_dir demo_hash_differ _ _ _ _ Hl).
Qed.
Lemma demo_of_device n e : in_u64 e = true -> utf8_valid n = true -> n = "1" -> of_device "d1" "k" (demo_identity n e).
Proof.
  intros He Hn ->. split; [reflexivity..|]. split; [vm_compute; repeat split; reflexivity|].
  split; [reflexivity|]. split; [reflexivity|]. split; [reflexivity|exact He].
Qed.
Lemma demo_enrolled_as : enrolled_as demo_hash demo_dir "d1" "k" demo_start.
Proof.
  split; [|by intros i|by intros t ?%not_elem_of_nil|by right; left].
  exists (demo_identity "1" 500). split; [by apply demo_of_device|exact stored_holds].
Qed.

Lemma refresh_failures_are_classified_witness :
  exists e s', refresh_oauth_if_needed demo_hash run_token_from_json dp (fun _ => demo_rng) unreached 400
      (demo_identity "1" 500) stored_fs = (Err e, s') /\
    is_oauth_refresh_rejected e = false.
Proof.
  destruct (refresh_oauth_if_needed demo_hash run_token_from_json dp (fun _ => demo_rng) unreached 400
    (demo_identity "1" 500) stored_fs) as [r s'] eqn:E.
  assert (is_ok r = false) as Hr.
  { pose proof (f_equal (fun x => is_ok (fst x)) E) as H. cbn [fst] in H. rewrite <- H. vm_compute. reflexivity. }
  destruct r as [i|e]; [discriminate Hr|]. exists e, s'. split; [reflexivity|].
  destruct (refresh_failures_are_classified demo_hash run_token_from_json dp (fun _ => demo_rng) unreached 400
    (demo_identity "1" 500) stored_fs e s' E) as [H _].
  destruct (is_oauth_refresh_rejected e); [|reflexivity].
  destruct (proj1 H eq_refl) as (_ & status & body & Hans & _). discriminate Hans.
Defined.

(** A day in the life: the provider is not reached, then the token is refreshed, the
    stream opens and closes, and the user signs out. *)
Definition ordinary : list (step_env * event) :=
  [(at_time 400, Begin); (at_time 400, Refreshed unreached); (at_time 401, Slept);
   (at_time 401, Refreshed (accepting "r1" "2")); (at_time 402, Opened); (at_time 500, Seen);
   (at_time 600, Closed (Ok tt)); (at_time 602, Slept)].
Definition after (evs : list (step_env * event)) (m : machine) : list (result unit string) * machine :=
  default ([], m) (demo_run evs m).

Lemma published_status_is_true_witness :
  exists rs m, demo_run ordinary demo_start = Some (rs, m) /\
    (es_status (m_enrollment m) = "enrolled" <-> in_session (m_phase m) = true).
Proof.
  destruct (demo_run ordinary demo_start) as [[rs m]|] eqn:E.
  - exists rs, m. split; [reflexivity|].
    exact (proj1 (published_status_is_true demo_hash run_token_from_json dp ordinary stored_fs None rs m E)).
  - exfalso. pose proof (f_equal is_some E) as H. vm_compute in H. discriminate H.
Defined.
Lemma retry_delays_are_bounded_witness :
  exists rs m, demo_run ordinary demo_start = Some (rs, m) /\ 1 <= phase_delay (m_phase m) <= 60.
Proof.
  destruct (demo_run ordinary demo_start) as [[rs m]|] eqn:E.
  - exists rs, m. split; [reflexivity|].
    exact (proj1 (retry_delays_are_bounded demo_hash run_token_from_json dp ordinary stored_fs None rs m E)).
  - exfalso. pose proof (f_equal is_some E) as H. vm_compute in H. discriminate H.
Defined.

Lemma uneventful_run evs m : 
  Forall (fun e => well_typed (fst e) (snd e)) evs ->
  Forall (fun e => match snd e with
                   | Refreshed post => forall i, ~ refused post i
                   | Closed (Err e) => is_unauthenticated e = false
                   | Logout => False
                   | _ => True end) evs ->
  forall rs m', demo_run evs m = Some (rs, m') ->
  uneventful demo_hash run_token_from_json demo_dir m m'.
Proof.
  intros Hw He. revert m. induction evs as [|[en ev] evs IH]; intros m rs m'; [intros [= _ <-]; constructor|].
  apply Forall_cons in Hw as [Hw Hws], He as [He Hes]. cbn [run_events].
  destruct (demo_step en ev m) as [[r m1]|] eqn:Hs; [|done].
  destruct (demo_run evs m1) as [[rs1 m2]|] eqn:Hr; [|done]. intros [= _ <-].
  eapply uneventful_step; [exact Hw|exact Hs| |by eapply IH].
  intros Hend. unfold ends_enrollment in Hend. destruct ev; try done; destruct (m_phase m); try done;
    try (destruct r0; [done|congruence]). destruct Hend as [_ Href]. by eapply He.
Qed.

Lemma outages_never_unenroll_witness :
  exists i s, load demo_hash demo_rng dp (m_fs (snd (after (take 3 ordinary) demo_start))) = (Ok (Some i), s) /\
    id_device_id i = "d1".
Proof.
  assert (uneventful demo_hash run_token_from_json demo_dir demo_start (snd (after (take 3 ordinary) demo_start))) as Hrun.
  { unfold after. destruct (demo_run (take 3 ordinary) demo_start) as [[rs m']|] eqn:E; [|constructor].
    eapply uneventful_run; [| |exact E].
    - repeat constructor; try (vm_compute; discriminate).
    - repeat constructor. intros i (status & body & Hans & _). discriminate Hans. }
  destruct (outages_never_unenroll demo_hash run_token_from_json demo_dir demo_hash_differ run_tokens_typed demo_rng
    "d1" "k" demo_start _ demo_enrolled_as Hrun) as (i & s & H1 & H2 & _).
  exists i, s. split; [exact H1|exact H2].
Defined.


(** Two credential requests and the session share one refresh. *)
Definition stepped (en : step_env) (ev : event) (m : machine) : machine := default m (snd <$> demo_step en ev m).
Lemma stepped_Some en ev m : is_some (demo_step en ev m) = true ->
  demo_step en ev m = Some (default None (fst <$> demo_step en ev m), stepped en ev m).
Proof. unfold stepped. by destruct (demo_step en ev m) as [[]|]. Qed.

Lemma accepting_rotates current body new : run_token_from_json body = Ok (issued new 3600) ->
  rotates run_token_from_json 3600 current ("r" +:+ new) (accepting current body).
Proof.
  intros Hb endpoint client_id token. simpl. destruct (decide (token = current)); [|by eexists].
  exists body, (issued new 3600). split_and!; try done.
Qed.

Definition two_requests : machine := stepped (at_time 401) TaskLoad (stepped (at_time 400) TaskLoad demo_start).
Definition one_asks : machine := stepped (at_time 402) (TaskLock 1) two_requests.
Definition one_answered : machine := stepped (at_time 403) (TaskAnswer 1 (accepting "r1" "2")) one_asks.
Definition session_began : machine := stepped (at_time 404) Begin one_answered.

Lemma used_tokens_are_not_presented_witness :
  enrolled_as demo_hash demo_dir "d1" "k" session_began.
Proof.
  assert (synced demo_hash demo_dir 400 1000 "d1" "k" demo_start "r1" 400) as Hs.
  { split; [exact demo_enrolled_as|lia|]. exists (demo_identity "1" 500).
    split; [by apply demo_of_device|exact stored_holds|reflexivity|reflexivity| |by intros i ?%not_elem_of_nil| |done].
    - intros i [?|(t & ?%not_elem_of_nil & _)]; done.
    - intros j k i i' Hj. done. }
  refine (proj1 (used_tokens_are_not_presented demo_hash run_token_from_json demo_dir demo_hash_differ run_tokens_typed
    400 1000 3600 _ "d1" "k" demo_start "r1" 400 session_began "r2" 404 Hs _)).
  { split; [lia|]. split; [lia|vm_compute; reflexivity]. }
  eapply rtc_l; [eapply rotation_other with (en := at_time 400) (ev := TaskLoad)|];
    [exact I|by intros []|simpl; lia|apply stepped_Some; vm_compute; reflexivity|].
  eapply rtc_l; [eapply rotation_other with (en := at_time 401) (ev := TaskLoad)|];
    [exact I|by intros []|simpl; lia|apply stepped_Some; vm_compute; reflexivity|].
  eapply rtc_l; [eapply rotation_other with (en := at_time 402) (ev := (TaskLock 1))|];
    [exact I|by intros []|simpl; lia|apply stepped_Some; vm_compute; reflexivity|].
  eapply rtc_l; [eapply rotation_task with (en := at_time 403) (k := 1%nat) (post := accepting "r1" "2") (new := "r2")|];
    [by apply (accepting_rotates "r1" "2" "2")|simpl; lia|apply stepped_Some; vm_compute; reflexivity| |].
  { intros i i' Hk Hr.
    assert (Some i = Some (demo_identity "1" 500)) as Hi.
    { pose proof (f_equal (fmap task_identity) Hk) as H. cbn in H. rewrite <- H. vm_compute. reflexivity. }
    injection Hi as ->. vm_compute in Hr. injection Hr as <-. vm_compute. reflexivity. }
  eapply rtc_l; [eapply rotation_other with (en := at_time 404) (ev := Begin)|];
    [exact I|by intros []|simpl; lia|apply stepped_Some; vm_compute; reflexivity|].
  unfold session_began, one_answered, one_asks, two_requests. apply rtc_refl.
Defined.

(** ** Runs that show defects *)

(** The device of the identity that the files of a machine hold. *)
Definition on_disk (m : machine) : option (string * string) :=
  match fst (load demo_hash demo_rng dp (m_fs m)) with
  | Ok (Some i) => Some (id_device_id i, oa_refresh_token (id_oauth i))
  | _ => None
  end.

(** A sign-out is undone by a credential request that was asking the provider: it
    saves the refreshed identity again, and the next start of the session finds the
    device enrolled. ([refresh_oauth_if_needed] goes on when the stored identity is
    gone.) *)
Definition signed_out_while_asking : list (step_env * event) :=
  [(at_time 400, Begin); (at_time 400, TaskLoad); (at_time 400, TaskLock 0); (at_time 401, Logout);
   (at_time 402, TaskAnswer 0 (accepting "r1" "2"))].
Theorem sign_out_is_undone :
  fst (after (take 4 signed_out_while_asking) demo_start) = [Ok tt] /\
  on_disk (snd (after (take 4 signed_out_while_asking) demo_start)) = None /\
  on_disk (snd (after signed_out_while_asking demo_start)) = Some ("d1", "r2").
Proof. vm_compute. repeat split; reflexivity. Qed.

(** A stored identity that was refreshed and has expired again is not used: the
    session presents its own, used, refresh token, the provider refuses it, and the
    device is unenrolled, although the stored refresh token is good. *)
Definition asleep_after_refresh : list (step_env * event) :=
  [(at_time 300, Begin); (at_time 300, Refreshed (accepting "r1" "2")); (at_time 300, Opened);
   (at_time 400, TaskLoad); (at_time 400, TaskLock 0); (at_time 401, TaskAnswer 0 (accepting "r1" "2"));
   (at_time 90000, Closed (Ok tt)); (at_time 90001, Slept)].
Theorem good_stored_token_is_ignored :
  on_disk (snd (after asleep_after_refresh demo_start)) = Some ("d1", "r2") /\
  on_disk (snd (after (asleep_after_refresh ++ [(at_time 90002, Refreshed (accepting "r2" "3"))])%list demo_start)) = None.
Proof. vm_compute. repeat split; reflexivity. Qed.

(** A refresh by a credential request is lost when the session is renewing its
    certificate: the session saves the identity it had before. The next refresh
    presents the used token, and the device is unenrolled. *)
Definition due_identity : Identity :=
  {| id_device_id := "d1"; id_certificate := "c"; id_private_key := "k"; id_certificate_expires_at := 1000;
     id_oauth := demo_oauth "1" 500; id_token_endpoint := "t"; id_client_id := "a" |}.
Definition due_start : machine :=
  start (snd (save demo_hash demo_rng dp due_identity fresh_fs)) None.
Definition renewal (i : Identity) : result Identity anyerror :=
  Ok {| id_device_id := id_device_id i; id_certificate := "c2"; id_private_key := id_private_key i;
        id_certificate_expires_at := 1000000; id_oauth := id_oauth i; id_token_endpoint := id_token_endpoint i;
        id_client_id := id_client_id i |}.
Definition refreshed_while_renewing : list (step_env * event) :=
  [(at_time 379, Begin); (at_time 379, Refreshed unreached); (at_time 380, TaskLoad); (at_time 380, TaskLock 0);
   (at_time 381, TaskAnswer 0 (accepting "r1" "2"))].
Theorem renewal_loses_a_refresh :
  on_disk (snd (after refreshed_while_renewing due_start)) = Some ("d1", "r2") /\
  on_disk (snd (after (refreshed_while_renewing ++ [(at_time 382, Renewed renewal)])%list due_start))
    = Some ("d1", "r1") /\
  on_disk (snd (after (refreshed_while_renewing ++
    [(at_time 382, Renewed renewal); (at_time 383, Opened); (at_time 440, Closed (Ok tt)); (at_time 441, Slept);
     (at_time 441, Refreshed (accepting "r2" "3"))])%list due_start)) = None.
Proof. vm_compute. repeat split; reflexivity. Qed.

(** After a sign-out that failed the daemon goes on reporting a connection it has
    dropped, for as long as the provider is not reached. *)
Definition stuck_remove (s : fs) : fs :=
  {| nodes := nodes s; umask := umask s;
     fs_fault := fun c q => match c with
                            | CRemove => if decide (q = dp) then Some Denied else None
                            | _ => None
                            end |}.
Definition failed_sign_out : list (step_env * event) :=
  [(at_time 300, Begin); (at_time 300, Refreshed unreached); (at_time 300, Opened); (at_time 400, Logout);
   (at_time 400, Refreshed unreached)].
Theorem dropped_connection_is_reported :
  let '(rs, m) := after failed_sign_out (start (stuck_remove stored_fs) None) in
  map is_ok rs = [false] /\ is_streaming (m_phase m) = false /\ cc_connected (m_connection m) = true.
Proof. vm_compute. repeat split; reflexivity. Qed.

(** A sign-out while the device is enrolling again leaves the previous
    organization's configuration enforced and its error reported. *)
Definition rejected_then_signed_out : list (step_env * event) :=
  [(at_time 300, Begin); (at_time 300, Refreshed unreached); (at_time 300, Opened);
   (at_time 301, Closed (Err {| an_causes := [Grpc UNAUTHENTICATED]; an_message := "revoked" |}));
   (at_time 301, Begin); (at_time 302, Logout)].
Definition enforced : CurrentConfig :=
  {| cur_revision := Some 7; cur_config := default_daemon |}.
Theorem sign_out_keeps_configuration :
  let '(rs, m) := after rejected_then_signed_out (start stored_fs (Some enforced)) in
  rs = [Ok tt] /\ on_disk m = None /\ m_current m = Some enforced /\
  cc_last_error (m_connection m) = Some IdentityRejected.
Proof. vm_compute. repeat split; reflexivity. Qed.
