(* ===== verification/TokenStore.v ===== *)
(** * Sign-in tokens kept as secrets

    The sign-ins of [crates/agent/src/gateway_oidc.rs], [github_oauth.rs] and
    [subscription_oauth/mod.rs] each keep one JSON document per account as a secret
    of [SecretStore.v]. Here: the interface of such a document ([TokenCodec]), its
    loading and saving, and what the calls on the store do to a stored document. *)

From stdpp Require Import countable.
From S2P Require Import Prelude Str Codec Fs SecretStore Identity SignIn.

(** [serde_json] on a stored document. *)
Class TokenCodec (T : Type) : Type := {
  token_to_string : T -> string;
  token_from_str : string -> result T string;
}.
(** What the Rust type guarantees of a value: UTF-8 strings and 64-bit times. *)
Class TokenCodecLaws {T : Type} (C : TokenCodec T) (typed : T -> Prop) : Prop := {
  token_roundtrip t : typed t -> token_from_str (token_to_string t) = Ok t;
  token_text t : typed t -> utf8_valid (token_to_string t) = true;
}.

Definition EXPIRY_SKEW_SECONDS : Z := 60.
(** Whether a token may still be used. *)
Definition usable_at (now expires_at : Z) : bool := seconds_from now EXPIRY_SKEW_SECONDS <? expires_at.

Lemma seconds_from_u64 now n : 0 <= now -> in_u64 n = true -> in_u64 (seconds_from now n) = true.
Proof. unfold in_u64, seconds_from, U64_MAX. intros H Hn. apply andb_true_iff in Hn as [?%Z.leb_le ?%Z.leb_le]. apply andb_true_iff. lia. Qed.

Lemma lifted_inv {S E A} (x : result A E) (s : S) r s' : lift_result x s = (r, s') -> r = x /\ s' = s.
Proof. by intros [= <- <-]. Qed.

Section tokens.
Context {T : Type} {C : TokenCodec T} (sha256 : string -> string) (what : string).

(** The text of an entry, decoded. *)
Definition decode_stored (text : result (option string) string) : result (option T) anyerror :=
  match text with
  | Err e => Err (plain_error e)
  | Ok None => Ok None
  | Ok (Some text) => match token_from_str text with
                     | Ok t => Ok (Some t)
                     | Err e => Err (plain_error (context what e))
                     end
  end.
Definition load_token (store : SecretStore) (service account : string) (s : fs) : result (option T) anyerror :=
  decode_stored (get_optional sha256 store service account s).
Definition save_token (rng : nat -> Z) (store : SecretStore) (service account : string) (t : T) : ST fs anyerror unit :=
  st_map_err plain_error (set_secret sha256 rng store service account (token_to_string t)).
End tokens.

(** ** What the store does to an entry *)

Section entry.
Context (sha256 : string -> string).

(** An entry that can be read. *)
Definition readable (store : SecretStore) (service account : string) (s : fs) : Prop :=
  fs_fault s CRead (entry_path sha256 store service account) = None.

(** [s'] holds what [s] holds at the entry. *)
Definition same_entry (store : SecretStore) (service account : string) (s s' : fs) : Prop :=
  same_env s s' /\
  nodes s' !! entry_path sha256 store service account = nodes s !! entry_path sha256 store service account.

#[global] Instance same_entry_refl store service account : Reflexive (same_entry store service account).
Proof. done. Qed.
#[global] Instance same_entry_trans store service account : Transitive (same_entry store service account).
Proof. intros s1 s2 s3 [? H1] [? H2]. split; [by etrans|congruence]. Qed.

Lemma same_entry_get store service account s s' : same_entry store service account s s' ->
  get_optional sha256 store service account s' = get_optional sha256 store service account s.
Proof. intros [[_ Hf] Hn]. unfold get_optional, fs_read. by rewrite Hf, Hn. Qed.
Lemma same_entry_load {T} {C : TokenCodec T} what store service account s s' :
  same_entry store service account s s' ->
  load_token sha256 what store service account s' = load_token (T := T) sha256 what store service account s.
Proof. intros H. unfold load_token. by rewrite (same_entry_get _ _ _ _ _ H). Qed.
Lemma same_entry_readable store service account s s' : same_entry store service account s s' ->
  readable store service account s -> readable store service account s'.
Proof. intros [[_ Hf] _]. unfold readable. by rewrite Hf. Qed.

(** Opening the store never touches an entry. *)
Lemma SecretStore_new_entry dir s r s' service account : SecretStore_new dir s = (r, s') ->
  same_entry (store_of dir) service account s s' /\
  match r with Ok store => store = store_of dir | Err _ => True end.
Proof.
  intros H. assert (exists r0, ensure_private_dir (secrets_dir dir) s = (r0, s') /\
    match r with Ok store => store = store_of dir | Err _ => True end) as (r0 & Hens & Hr).
  { destruct (st_bind_inv _ _ _ _ _ H) as [(e & He & ->)|([] & s1 & He & H2)].
    - by exists (Err e).
    - injection H2 as <- <-. by exists (Ok tt). }
  split; [|done]. apply ensure_private_dir_touches in Hens as [Henv Hn]. split; [done|].
  apply Hn. rewrite entry_path_app. simpl. intros Hl%prefix_length. rewrite length_app in Hl. simpl in Hl. lia.
Qed.

Lemma set_secret_entry rng store service account secret s r s' :
  set_secret sha256 rng store service account secret s = (r, s') ->
  match r with
  | Ok _ => same_env s s' /\ exists m, nodes s' !! entry_path sha256 store service account = Some (File secret m)
  | Err _ => same_entry store service account s s'
  end.
Proof.
  intros [He H]%set_secret_spec. destruct r; (split; [done|]).
  - rewrite H, lookup_insert_eq. eauto.
  - apply H. by left.
Qed.
(** Writing one entry leaves another alone. *)
Lemma set_secret_other rng store service account secret s r s' service' account' :
  entry_path sha256 store service' account' <> entry_path sha256 store service account ->
  set_secret sha256 rng store service account secret s = (r, s') -> same_entry store service' account' s s'.
Proof.
  intros Hne [He H]%set_secret_touches. split; [done|]. apply H.
  intros [?|Hn]; [done|]. apply Hn, entry_not_temporary.
Qed.
End entry.

(** A saved token is loaded; a save that fails changes nothing that is loaded. *)
Lemma save_token_spec {T} {C : TokenCodec T} {typed} {L : TokenCodecLaws C typed} sha256 what rng store service account t s r s' :
  typed t -> save_token sha256 rng store service account t s = (r, s') ->
  match r with
  | Ok _ => same_env s s' /\
      (readable sha256 store service account s -> load_token sha256 what store service account s' = Ok (Some t))
  | Err _ => same_entry sha256 store service account s s'
  end.
Proof.
  intros Ht (r0 & H & ->)%st_map_err_inv.
  destruct r0 as [[]|e]; simpl.
  - split; [by eapply set_secret_entry in H as [? _]|]. intros Hread.
    unfold load_token. erewrite get_after_set; [|exact H|done|by eapply token_text].
    simpl. by rewrite token_roundtrip.
  - by eapply set_secret_entry in H.
Qed.

(** ** Codecs for examples *)

(** A codec through a countable type, for values that are [typed]. *)
Definition text_codec {T A} `{Countable A} (enc : T -> A) (dec : A -> T) (typed : T -> Prop)
    `{forall t, Decision (typed t)} : TokenCodec T :=
  {| token_to_string t := text (enc t); token_from_str s := let? a := of_text s in only_if T typed (dec a) |}.
Lemma text_codec_laws {T A} `{Countable A} (enc : T -> A) (dec : A -> T) (typed : T -> Prop)
    `{forall t, Decision (typed t)} :
  (forall t, dec (enc t) = t) -> TokenCodecLaws (text_codec enc dec typed) typed.
Proof.
  intros Hdec. split; simpl.
  - intros t Ht. rewrite of_text_text, Hdec. unfold only_if. by rewrite decide_True.
  - intros t _. apply digits_utf8.
Qed.
Lemma text_codec_typed {T A} `{Countable A} (enc : T -> A) (dec : A -> T) (typed : T -> Prop)
    `{forall t, Decision (typed t)} c t :
  @token_from_str T (text_codec enc dec typed) c = Ok t -> typed t.
Proof. simpl. destruct (of_text c); [|done]. unfold only_if. simpl. case_decide; [by intros [= <-]|done]. Qed.
