(* ===== verification/SubscriptionOAuth.v ===== *)
(** * Signing in to a subscription ([crates/agent/src/subscription_oauth])

    The sign-in of [mod.rs] over the interface [OAuthProvider] (the trait of that
    name), and its two instances, [anthropic.rs] and [openai.rs]. The provider's
    endpoints answer what they like ([provider_env]); the browser is the requests
    the callback server of [SignIn.v] receives, which may depend on the page it was
    sent to. Base64, [serde_json] and [Url::parse] are parameters. *)

From stdpp Require Import countable.
From S2P Require Import Prelude Str Json Codec Fs Config Routes Cache Credential SecretStore Identity SignIn Net TokenStore.

Definition PROMPT_URI : string := "http://localhost:51327/callback".

(** What a provider's calls see. *)
Record provider_env : Type := {
  pe_now : Z;
  pe_post_form : string -> form -> http_answer;
  pe_post_json : string -> value -> http_answer;
}.

(** The trait; an authorization URL is its endpoint and query pairs. *)
Class OAuthProvider (T : Type) : Type := {
  #[global] provider_codec :: TokenCodec T;
  NAME : string;
  SERVICE : string;
  ACCOUNT : string;
  REDIRECT_URI : string;
  authorization_url : string -> string -> string -> string * form;
  expires_at : T -> Z;
  credential_from_token : T -> SubscriptionCredential;
  exchange_code : provider_env -> string -> string -> string -> result T anyerror;
  refresh_token : provider_env -> T -> result (option T) anyerror;
}.
(** What [mod.rs] relies on: tokens are stored and read back, and what the provider
    makes of an answer is such a token. *)
Class OAuthProviderLaws {T : Type} (P : OAuthProvider T) (typed : T -> Prop) : Prop := {
  #[global] provider_codec_laws :: TokenCodecLaws provider_codec typed;
  exchange_typed env code verifier state t : 0 <= pe_now env -> exchange_code env code verifier state = Ok t -> typed t;
  refresh_typed env t t' : 0 <= pe_now env -> typed t -> refresh_token env t = Ok (Some t') -> typed t';
  loaded_typed c t : token_from_str c = Ok t -> typed t;
}.

(** Everything one sign-in asks of the outside. [se_page] are the requests of the
    browser that was sent to the authorization URL. *)
Record sign_in_env : Type := {
  se_rng : nat -> nat -> Z;
  se_now : Z;
  se_provider : provider_env;
  se_state : string;
  se_pkce : string * string;
  se_bound : bind_target -> result unit string;
  se_page : string * form -> list (Z * callback_request);
}.

(** ** The callback of a subscription ([oidc.rs]) *)

(** [continue_subscription_page]: once its address is bound, the page is shown until
    the browser fetched it or a timeout, and nothing fails. *)
Definition continue_subscription_page (redirect_uri : Url) (callback_listen : option SocketAddr)
    (bound : bind_target -> result unit string) : result unit string :=
  let? target := bind_callback redirect_uri callback_listen in bound target.

(** ** The sign-in ([mod.rs]) *)

Section sign_in.
Context {T : Type} {P : OAuthProvider T}.
Context (sha256 : string -> string) (parse_url : string -> result Url string) (url_str : Url -> string).
Context (state_dir : path) (callback_listen : option SocketAddr).

Definition what_stored : string := "decode stored " +:+ NAME +:+ " subscription".
Definition load (store : SecretStore) (s : fs) : result (option T) anyerror :=
  load_token sha256 what_stored store SERVICE ACCOUNT s.
Definition save (rng : nat -> Z) (store : SecretStore) (t : T) : ST fs anyerror unit :=
  save_token sha256 rng store SERVICE ACCOUNT t.

(** The state of a sign-in: the files, and whether the user declined it since the
    daemon started ([LoginState]; its lock makes a call of [credential_inner] one
    step, and the call is spawned, so a caller that goes away does not stop it). *)
Definition login_state : Type := fs * bool.
Definition on_files {A} (m : ST fs anyerror A) : ST login_state anyerror A := fun '(s, declined) =>
  let '(r, s') := m s in (r, (s', declined)).
Definition reading {A} (f : fs -> result A anyerror) : ST login_state anyerror A := fun '(s, declined) =>
  (f s, (s, declined)).

(** The stored token, if it can be used or refreshed. *)
Definition ready_token (ev : sign_in_env) (store : SecretStore) (stored : T) : ST login_state anyerror (option T) :=
  if usable_at (se_now ev) (expires_at stored) then st_ret (Some stored)
  else
    let* refreshed := lift_result (refresh_token (se_provider ev) stored) in
    match refreshed with
    | Some refreshed => on_files (save (se_rng ev 0%nat) store refreshed) ;* st_ret (Some refreshed)
    | None => st_ret None
    end.

Definition continue_page (ev : sign_in_env) (prompt : Url) (open_browser : bool) : ST login_state anyerror unit :=
  if open_browser then st_ret tt
  else lift_result (map_err plain_error (continue_subscription_page prompt callback_listen (se_bound ev))).

(** Asking the user in the browser. *)
Definition authorize (ev : sign_in_env) (store : SecretStore) (prompt : Url)
  : ST login_state anyerror (option SubscriptionCredential) :=
  let* redirect := lift_result (map_err (fun e => plain_error (context "parse subscription provider callback URI" e))
                     (parse_url REDIRECT_URI)) in
  let '(verifier, challenge) := se_pkce ev in
  let requests := se_page ev (authorization_url (url_str redirect) (se_state ev) challenge) in
  let wait := wait_for_authorization_code_with_callback prompt (se_state ev) callback_listen SubscriptionPage
                (if String.eqb (url_str redirect) (url_str prompt) then None else Some redirect) (se_bound ev) requests in
  let* code := lift_result (map_err plain_error wait) in
  match code with
  | None => fun '(s, _) => (Ok None, (s, true))
  | Some code =>
      let* token := lift_result (exchange_code (se_provider ev) code verifier (se_state ev)) in
      on_files (save (se_rng ev 1%nat) store token) ;*
      st_ret (Some (credential_from_token token))
  end.

Definition credential_inner (ev : sign_in_env) (open_browser : bool)
  : ST login_state anyerror (option SubscriptionCredential) :=
  let* store := on_files (st_map_err plain_error (SecretStore_new state_dir)) in
  let* prompt := lift_result (map_err plain_error (parse_url PROMPT_URI)) in
  let* stored := reading (load store) in
  let* ready := match stored with
                | Some stored => ready_token ev store stored
                | None => st_ret None
                end in
  match ready with
  | Some token =>
      continue_page ev prompt open_browser ;* st_ret (Some (credential_from_token token))
  | None =>
      fun '(s, declined) =>
        if (declined : bool) then
          (continue_page ev prompt open_browser ;* st_ret None) (s, declined)
        else authorize ev store prompt (s, declined)
  end.
End sign_in.

(** ** Answers of a token endpoint *)

Definition is_success (status : Z) : bool := (200 <=? status) && (status <? 300).
(** [.json()] of a body that may not arrive. *)
Definition body_json {A} (parse : string -> result A string) (body : option string) : result A anyerror :=
  match body with
  | None => Err (reqwest_error None "error decoding response body")
  | Some body => map_err (reqwest_error None) (parse body)
  end.

(** ** Anthropic ([anthropic.rs]) *)

Module Anthropic.
Definition AUTHORIZATION_ENDPOINT : string := "https://claude.com/cai/oauth/authorize".
Definition TOKEN_ENDPOINT : string := "https://platform.claude.com/v1/oauth/token".
Definition CLIENT_ID : string := "9d1c250a-e61b-44d9-88ed-5944d1962f5e".
Definition SCOPE : string := "user:inference".
Definition REQUESTED_LIFETIME_SECONDS : Z := 365 * 24 * 60 * 60.

Record StoredToken : Type := { st_access_token : string; st_expires_at : Z }.
Record TokenResponse : Type := { tr_access_token : string; tr_expires_in : Z; tr_token_type : string }.

Definition typed (t : StoredToken) : Prop :=
  utf8_valid (st_access_token t) = true /\ in_u64 (st_expires_at t) = true.
Definition response_typed (r : TokenResponse) : Prop :=
  utf8_valid (tr_access_token r) = true /\ in_u64 (tr_expires_in r) = true.

Definition authorization_pairs (redirect state challenge : string) : string * form :=
  (AUTHORIZATION_ENDPOINT,
   [("code", "true"); ("client_id", CLIENT_ID); ("response_type", "code"); ("redirect_uri", redirect);
    ("scope", SCOPE); ("code_challenge", challenge); ("code_challenge_method", "S256"); ("state", state)]).

(** [TokenRequest] as the JSON it is sent as. *)
Definition TokenRequest (code code_verifier state : string) : value :=
  Object (list_to_map
    [("grant_type", VString "authorization_code"); ("code", VString code);
     ("redirect_uri", VString PROMPT_URI); ("client_id", VString CLIENT_ID);
     ("code_verifier", VString code_verifier); ("state", VString state);
     ("expires_in", Number (PosInt (Z.to_N REQUESTED_LIFETIME_SECONDS)))]).

Section with_json.
Context (codec : TokenCodec StoredToken) (response_from_json : string -> result TokenResponse string).

Definition exchange_authorization_code (post : string -> value -> http_answer)
    (authorization_code code_verifier state : string) : result TokenResponse anyerror :=
  map_err (in_context "exchange Anthropic subscription authorization code")
    match post TOKEN_ENDPOINT (TokenRequest authorization_code code_verifier state) with
    | NoAnswer => Err transport_error
    | Answer status body => let? _ := error_for_status status in body_json response_from_json body
    end.

Definition exchange (env : provider_env) (code verifier state : string) : result StoredToken anyerror :=
  let? response := exchange_authorization_code (pe_post_json env) code verifier state in
  if negb (eq_ignore_ascii_case (tr_token_type response) "bearer")
  then Err (plain_error "Anthropic OAuth endpoint returned unsupported token type")
  else Ok {| st_access_token := tr_access_token response;
             st_expires_at := seconds_from (pe_now env) (tr_expires_in response) |}.

(** [impl OAuthProvider for Anthropic]; its tokens are not refreshed. *)
Definition provider : OAuthProvider StoredToken := {|
  provider_codec := codec;
  NAME := "Anthropic";
  SERVICE := "dev.agentdesktop.anthropic-subscription";
  ACCOUNT := "claude";
  REDIRECT_URI := PROMPT_URI;
  authorization_url := authorization_pairs;
  expires_at := st_expires_at;
  credential_from_token t :=
    {| su_token := {| lc_credential := st_access_token t; lc_expires_at := st_expires_at t |};
       su_account_id := None |};
  exchange_code := exchange;
  refresh_token _ _ := Ok None;
|}.
End with_json.
End Anthropic.

(** ** ChatGPT ([openai.rs]) *)

Module OpenAi.
Definition AUTHORIZATION_ENDPOINT : string := "https://auth.openai.com/oauth/authorize".
Definition TOKEN_ENDPOINT : string := "https://auth.openai.com/oauth/token".
Definition CLIENT_ID : string := "app_EMoamEEZ73f0CkXaXp7hrann".
Definition REDIRECT : string := "http://localhost:1455/auth/callback".

Record StoredToken : Type := {
  st_access_token : string;
  st_refresh_token : string;
  st_account_id : string;
  st_expires_at : Z;
}.
Record TokenResponse : Type := {
  tr_access_token : string;
  tr_refresh_token : option string;
  tr_id_token : option string;
  tr_expires_in : option Z;
  tr_token_type : option string;
}.
(** [ReauthorizationRequired], or any other error. *)
Inductive token_error : Type := ReauthorizationRequired | TokenError (e : anyerror).

Definition opt_utf8 (o : option string) : bool := is_none_or utf8_valid o.
Definition typed (t : StoredToken) : Prop :=
  utf8_valid (st_access_token t) = true /\ utf8_valid (st_refresh_token t) = true /\
  utf8_valid (st_account_id t) = true /\ in_u64 (st_expires_at t) = true.
Definition response_typed (r : TokenResponse) : Prop :=
  utf8_valid (tr_access_token r) = true /\ opt_utf8 (tr_refresh_token r) = true /\
  opt_utf8 (tr_id_token r) = true /\ is_none_or in_u64 (tr_expires_in r) = true.

Definition authorization_pairs (redirect state challenge : string) : string * form :=
  (AUTHORIZATION_ENDPOINT,
   [("response_type", "code"); ("client_id", CLIENT_ID); ("redirect_uri", redirect);
    ("scope", "openid profile email offline_access"); ("code_challenge", challenge);
    ("code_challenge_method", "S256"); ("id_token_add_organizations", "true");
    ("codex_cli_simplified_flow", "true"); ("state", state); ("originator", "codex_cli_rs")]).

Definition exchange_form (code verifier : string) : form :=
  [("grant_type", "authorization_code"); ("client_id", CLIENT_ID); ("code", code);
   ("code_verifier", verifier); ("redirect_uri", REDIRECT)].
Definition refresh_form (refresh_token : string) : form :=
  [("grant_type", "refresh_token"); ("client_id", CLIENT_ID); ("refresh_token", refresh_token)].

(** A byte an access token must not have, and the bytes of an account identifier. *)
Definition forbidden (a : ascii) : bool := (byte_of a <=? 32) || (a =a ":")%char.
Definition account_char (a : ascii) : bool :=
  is_ascii_alphanumeric a || (a =a ".")%char || (a =a "_")%char || (a =a "-")%char.
(** [Value::as_u64]. *)
Definition as_u64 (v : value) : option Z :=
  match v with
  | Number (PosInt n) => if in_u64 (Z.of_N n) then Some (Z.of_N n) else None
  | _ => None
  end.

Section with_json.
Context {J : JsonCodec} (codec : TokenCodec StoredToken) (response_from_json : string -> result TokenResponse string).
Context (base64_url_decode : string -> result string string).

(** Whether a refusal says the refresh token is of no use any more. *)
Definition permanent_refresh_error (body : option string) : bool :=
  match body_json json_from_slice body with
  | Ok body =>
      let error := index body "error" in
      match (match as_str error with Some e => Some e | None => as_str (index error "code") end) with
      | Some e => bool_decide (e ∈ ["invalid_grant"; "invalid_refresh_token"; "refresh_token_expired";
                                    "refresh_token_reused"; "refresh_token_invalidated"])
      | None => false
      end
  | Err _ => false
  end.
Definition request_token (post : string -> form -> http_answer) (endpoint : string) (f : form) (refreshing : bool)
  : result TokenResponse token_error :=
  match post endpoint f with
  | NoAnswer => Err (TokenError (in_context "request ChatGPT subscription OAuth token" transport_error))
  | Answer status body =>
      if negb (is_success status) then
        Err (if refreshing && ((status =? 401) || permanent_refresh_error body) then ReauthorizationRequired
             else TokenError (plain_error "ChatGPT OAuth token endpoint rejected the request"))
      else map_err (fun e => TokenError (in_context "decode ChatGPT OAuth token response" e))
             (body_json response_from_json body)
  end.

Definition claims (token : string) : result value anyerror :=
  let? payload := ok_or (split "." token !! 1%nat) (plain_error "ChatGPT token has no claims") in
  let? payload := map_err (fun e => plain_error (context "decode ChatGPT token claims" e)) (base64_url_decode payload) in
  map_err (fun e => plain_error (context "parse ChatGPT token claims" e)) (json_from_slice payload).

Definition claimed_account (token_claims : option value) : option string :=
  token_claims ≫= fun v => as_str (index (index v "https://api.openai.com/auth") "chatgpt_account_id").
Definition claimed_expiry (access_token : string) : option Z :=
  match claims access_token with
  | Ok c => match get "exp" c with Some exp => as_u64 exp | None => None end
  | Err _ => None
  end.
Definition or_previous {A} (o : option A) (previous : option A) : option A :=
  match o with Some a => Some a | None => previous end.

Definition stored_token (response : TokenResponse) (previous : option StoredToken) (now : Z)
  : result StoredToken anyerror :=
  if is_some_and (fun kind => negb (eq_ignore_ascii_case kind "bearer")) (tr_token_type response)
  then Err (plain_error "ChatGPT OAuth returned an unsupported token type")
  else if is_empty (tr_access_token response) || negb (str_all (fun a => negb (forbidden a)) (tr_access_token response))
  then Err (plain_error "ChatGPT OAuth returned an invalid access token")
  else
    let? token_claims := match tr_id_token response with
                         | Some id_token => let? c := claims id_token in Ok (Some c)
                         | None => Ok None
                         end in
    let? account_id := ok_or (or_previous (claimed_account token_claims) (st_account_id <$> previous))
                         (plain_error "ChatGPT OAuth token has no account ID") in
    if is_empty account_id || negb (str_all account_char account_id)
    then Err (plain_error "ChatGPT OAuth returned an invalid account ID")
    else if is_some_and (fun token => negb (String.eqb (st_account_id token) account_id)) previous
    then Err (plain_error "ChatGPT token refresh changed the account; sign in again")
    else
      let? expires_at := ok_or
        (or_previous ((fun lifetime => seconds_from now lifetime) <$> tr_expires_in response)
           (claimed_expiry (tr_access_token response)))
        (plain_error "ChatGPT OAuth token has no expiry") in
      if negb (usable_at now expires_at)
      then Err (plain_error "ChatGPT OAuth returned an expired or short-lived access token")
      else
        let? refresh_token := ok_or
          (option_filter (fun t => negb (is_empty t))
             (or_previous (tr_refresh_token response) (st_refresh_token <$> previous)))
          (plain_error "ChatGPT OAuth returned no refresh token") in
        Ok {| st_access_token := tr_access_token response; st_refresh_token := refresh_token;
              st_account_id := account_id; st_expires_at := expires_at |}.

Definition into_error (e : token_error) : anyerror :=
  match e with
  | ReauthorizationRequired => plain_error "ChatGPT subscription requires sign-in again"
  | TokenError e => e
  end.
Definition exchange (env : provider_env) (code verifier _state : string) : result StoredToken anyerror :=
  let? response := map_err into_error (request_token (pe_post_form env) TOKEN_ENDPOINT (exchange_form code verifier) false) in
  stored_token response None (pe_now env).
Definition refresh (env : provider_env) (token : StoredToken) : result (option StoredToken) anyerror :=
  match request_token (pe_post_form env) TOKEN_ENDPOINT (refresh_form (st_refresh_token token)) true with
  | Ok response => let? t := stored_token response (Some token) (pe_now env) in Ok (Some t)
  | Err ReauthorizationRequired => Ok None
  | Err (TokenError e) => Err e
  end.

(** [impl OAuthProvider for OpenAi]. *)
Definition provider : OAuthProvider StoredToken := {|
  provider_codec := codec;
  NAME := "ChatGPT";
  SERVICE := "dev.agentdesktop.openai-subscription";
  ACCOUNT := "codex";
  REDIRECT_URI := REDIRECT;
  authorization_url := authorization_pairs;
  expires_at := st_expires_at;
  credential_from_token t :=
    {| su_token := {| lc_credential := st_access_token t; lc_expires_at := st_expires_at t |};
       su_account_id := Some (st_account_id t) |};
  exchange_code := exchange;
  refresh_token := refresh;
|}.
End with_json.
End OpenAi.

(** ** What a sign-in does *)

(** The code of the first request that ends the wait, and the user's skip. *)
Definition code_answered (expected_state : string) (requests : list (Z * callback_request)) (code : string) : Prop :=
  exists before at_ query after, requests = (before ++ (at_, GetCallback query) :: after)%list /\
    at_ < CALLBACK_TIMEOUT /\ (forall t rq, (t, rq) ∈ before -> decides SubscriptionPage rq = false) /\
    cq_error query = None /\ cq_state query = Some expected_state /\ cq_code query = Some code.
Definition skipped (requests : list (Z * callback_request)) : Prop :=
  exists before at_ after, requests = (before ++ (at_, GetSkip) :: after)%list /\ at_ < CALLBACK_TIMEOUT /\
    (forall t rq, (t, rq) ∈ before -> decides SubscriptionPage rq = false).

Lemma wait_spec redirect_uri expected listen callback bound requests o :
  wait_for_authorization_code_with_callback redirect_uri expected listen SubscriptionPage callback bound requests = Ok o ->
  match o with Some code => code_answered expected requests code | None => skipped requests end.
Proof.
  intros H. pose proof (wait_outcome redirect_uri expected listen SubscriptionPage callback bound requests) as Hw.
  rewrite H in Hw. destruct o as [code|].
  - destruct Hw as (_ & query & (before & at_ & after & Hrq & Ht & Hb) & He & Hs & Hc).
    exists before, at_, query, after. split_and!; try done. intros t rq Hin. by eapply Hb.
  - destruct Hw as (_ & _ & before & at_ & after & Hrq & Ht & Hb).
    exists before, at_, after. split_and!; try done. intros t rq Hin. by eapply Hb.
Qed.

Section kept.
Context {T : Type} {P : OAuthProvider T} {typed : T -> Prop} {laws : OAuthProviderLaws P typed}.
Context (sha256 : string -> string) (parse_url : string -> result Url string) (url_str : Url -> string).
Context (state_dir : path) (callback_listen : option SocketAddr).
Abbreviation loads := (load sha256 (store_of state_dir)).
Abbreviation readable := (readable sha256 (store_of state_dir) SERVICE ACCOUNT).
Abbreviation same_entry := (same_entry sha256 (store_of state_dir) SERVICE ACCOUNT).

Lemma subscription_loads_typed s t : loads s = Ok (Some t) -> typed t.
Proof.
  unfold load, load_token, decode_stored. destruct (get_optional _ _ _ _ _) as [[c|]|]; [|done..].
  destruct (token_from_str c) eqn:Hc; [|done]. intros [= <-]. by eapply loaded_typed.
Qed.
Lemma same_entry_loads s s' : same_entry s s' -> loads s' = loads s.
Proof. apply same_entry_load. Qed.

Lemma subscription_save_loads rng t s d r s' d' : typed t -> readable s ->
  on_files (save sha256 rng (store_of state_dir) t) (s, d) = (r, (s', d')) ->
  d' = d /\ readable s' /\ loads s' = (match r with Ok _ => Ok (Some t) | Err _ => loads s end).
Proof.
  unfold on_files, save. intros Ht Hr. destruct (save_token _ _ _ _ _ _ _) as [r0 s0] eqn:E. intros [= <- <- <-].
  pose proof (save_token_spec (typed := typed) sha256 what_stored _ _ _ _ _ _ _ _ Ht E) as Hs.
  split; [done|]. destruct r0.
  - destruct Hs as [[? Hf] Hs]. split; [|by apply Hs]. unfold TokenStore.readable in *. by rewrite Hf.
  - split; [by eapply same_entry_readable|by apply same_entry_loads].
Qed.

Lemma ready_token_spec ev stored s d r s' d' :
  ready_token sha256 ev (store_of state_dir) stored (s, d) = (r, (s', d')) ->
  loads s = Ok (Some stored) -> readable s -> 0 <= pe_now (se_provider ev) ->
  d' = d /\ readable s' /\
  match r with
  | Ok (Some t) => loads s' = Ok (Some t) /\
      (t = stored /\ usable_at (se_now ev) (expires_at stored) = true \/
       usable_at (se_now ev) (expires_at stored) = false /\ refresh_token (se_provider ev) stored = Ok (Some t))
  | Ok None => loads s' = loads s /\ usable_at (se_now ev) (expires_at stored) = false /\
      refresh_token (se_provider ev) stored = Ok None
  | Err _ => loads s' = loads s
  end.
Proof.
  intros H Hl Hr Hnow. unfold ready_token in H. destruct (usable_at _ _) eqn:Hu.
  { injection H as <- <- <-. split_and!; try done. by left. }
  apply st_bind_inv in H as [(e & [_ [= -> ->]]%lifted_inv & ->)|(o & [s1 d1] & [Ho [= -> ->]]%lifted_inv & H)]; [by split_and!|].
  destruct o as [t|]; [|injection H as <- <- <-; by split_and!].
  pose proof (subscription_loads_typed _ _ Hl) as Ht. assert (typed t) as Ht' by (by eapply refresh_typed).
  apply st_bind_inv in H as [(e & Hs & ->)|([] & [s1 d1] & Hs & [= <- <- <-])];
    apply (subscription_save_loads _ _ _ _ _ _ _ Ht' Hr) in Hs as (-> & Hr' & Hs); [by split_and!|].
  split_and!; try done. by right.
Qed.

(** The token a sign-in answers with: stored, refreshed, or of this sign-in. *)
Definition token_source (ev : sign_in_env) (s : fs) (declined : bool) (t : T) : Prop :=
  (loads s = Ok (Some t) /\ usable_at (se_now ev) (expires_at t) = true) \/
  (exists t0, loads s = Ok (Some t0) /\ usable_at (se_now ev) (expires_at t0) = false /\
     refresh_token (se_provider ev) t0 = Ok (Some t)) \/
  (declined = false /\
     (loads s = Ok None \/ exists t0, loads s = Ok (Some t0) /\ refresh_token (se_provider ev) t0 = Ok None) /\
     exists redirect code, parse_url REDIRECT_URI = Ok redirect /\
       code_answered (se_state ev)
         (se_page ev (authorization_url (url_str redirect) (se_state ev) (snd (se_pkce ev)))) code /\
       exchange_code (se_provider ev) code (fst (se_pkce ev)) (se_state ev) = Ok t).

Lemma authorize_spec ev prompt s d r s' d' :
  authorize sha256 parse_url url_str callback_listen ev (store_of state_dir) prompt (s, d) = (r, (s', d')) ->
  readable s -> 0 <= pe_now (se_provider ev) ->
  match r with
  | Ok (Some c) => exists t, d' = d /\ loads s' = Ok (Some t) /\ c = credential_from_token t /\
      exists redirect code, parse_url REDIRECT_URI = Ok redirect /\
        code_answered (se_state ev)
          (se_page ev (authorization_url (url_str redirect) (se_state ev) (snd (se_pkce ev)))) code /\
        exchange_code (se_provider ev) code (fst (se_pkce ev)) (se_state ev) = Ok t
  | Ok None => s' = s /\ d' = true /\ exists url, skipped (se_page ev url)
  | Err _ => d' = d /\ loads s' = loads s
  end.
Proof.
  intros H Hr Hnow. unfold authorize in H.
  apply st_bind_inv in H as [(e & [_ [= -> ->]]%lifted_inv & ->)|(redirect & [s1 d1] & [Hurl [= -> ->]]%lifted_inv & H)]; [done|].
  destruct (se_pkce ev) as [verifier challenge] eqn:Hpkce.
  apply st_bind_inv in H as [(e & [_ [= -> ->]]%lifted_inv & ->)|(code & [s1 d1] & [Hw [= -> ->]]%lifted_inv & H)]; [done|].
  destruct (wait_for_authorization_code_with_callback _ _ _ _ _ _ _) as [o|] eqn:Hwait; [|done].
  injection Hw as ->. apply wait_spec in Hwait. destruct o as [code|]; [|injection H as <- <- <-; by eauto].
  apply st_bind_inv in H as [(e & [_ [= -> ->]]%lifted_inv & ->)|(token & [s1 d1] & [Hex [= -> ->]]%lifted_inv & H)]; [done|].
  assert (typed token) as Ht by (by eapply exchange_typed).
  apply st_bind_inv in H as [(e & Hs & ->)|([] & [s1 d1] & Hs & [= <- <- <-])];
    apply (subscription_save_loads _ _ _ _ _ _ _ Ht Hr) in Hs as (-> & Hr' & Hs); [done|].
  exists token. split_and!; try done. exists redirect, code. split_and!; try done.
  by destruct (parse_url REDIRECT_URI); simplify_eq/=.
Qed.

Lemma stored_ready_spec ev stored s d r s' d' :
  match stored with
  | Some stored => ready_token sha256 ev (store_of state_dir) stored
  | None => st_ret None
  end (s, d) = (r, (s', d')) ->
  loads s = Ok stored -> readable s -> 0 <= pe_now (se_provider ev) ->
  d' = d /\ readable s' /\
  match r with
  | Ok (Some t) => loads s' = Ok (Some t) /\
      ((loads s = Ok (Some t) /\ usable_at (se_now ev) (expires_at t) = true) \/
       exists t0, loads s = Ok (Some t0) /\ usable_at (se_now ev) (expires_at t0) = false /\
         refresh_token (se_provider ev) t0 = Ok (Some t))
  | Ok None => loads s' = loads s /\
      (loads s = Ok None \/ exists t0, loads s = Ok (Some t0) /\ refresh_token (se_provider ev) t0 = Ok None)
  | Err _ => loads s' = loads s
  end.
Proof.
  intros H Hl Hr Hnow. destruct stored as [t0|].
  - apply ready_token_spec in H as (-> & Hr' & H); [|done..]. split_and!; try done. destruct r as [[t|]|e]; [|naive_solver..].
    destruct H as [H [[-> Hu]|[Hu Href]]]; (split; [done|]); [by left|right; eauto].
  - injection H as <- <- <-. split_and!; try done. by left.
Qed.
Lemma continue_page_inv ev prompt open_browser s d r s' d' :
  continue_page callback_listen ev prompt open_browser (s, d) = (r, (s', d')) -> s' = s /\ d' = d.
Proof. unfold continue_page. destruct open_browser; by intros [= _ <- <-]. Qed.

(** C22. A subscription sign-in loses no token. It answers with the stored token while
    that can be used, else with what the provider made of it, and asks the user
    only when there is none or the provider asks for a new sign-in and the user has
    not declined one before; what it answers with is what is stored. When it fails,
    at whatever step, the stored token is the one before or the one the provider
    rotated it to. A new token is only ever exchanged for a code that came back with
    the state of this sign-in, and declining is remembered. *)
Theorem sign_in_keeps_its_tokens ev open_browser s d r s' d' :
  credential_inner sha256 parse_url url_str state_dir callback_listen ev open_browser (s, d) = (r, (s', d')) ->
  readable s -> 0 <= pe_now (se_provider ev) ->
  match r with
  | Ok (Some c) => exists t, loads s' = Ok (Some t) /\ c = credential_from_token t /\ token_source ev s d t /\ d' = d
  | Ok None => loads s' = loads s /\ d' = true /\ (d = true \/ exists url, skipped (se_page ev url))
  | Err _ => d' = d /\
      (loads s' = loads s \/
       exists t0 t, loads s = Ok (Some t0) /\ refresh_token (se_provider ev) t0 = Ok (Some t) /\ loads s' = Ok (Some t))
  end.
Proof.
  intros H Hr Hnow. unfold credential_inner in H.
  assert (forall r0 s0, SecretStore_new state_dir s = (r0, s0) -> loads s0 = loads s /\ readable s0 /\
    match r0 with Ok store => store = store_of state_dir | Err _ => True end) as Hnew.
  { intros r0 s0 [Hs ?]%(SecretStore_new_entry sha256 _ _ _ _ SERVICE ACCOUNT).
    split; [by apply same_entry_loads|]. split; [by eapply same_entry_readable|done]. }
  unfold on_files at 1, st_map_err in H. unfold st_bind at 1 in H.
  destruct (SecretStore_new state_dir s) as [r0 s0] eqn:E. destruct (Hnew _ _ eq_refl) as (Hl0 & Hr0 & Hstore).
  destruct r0 as [store|e]; [subst store|injection H as <- <- <-; by eauto].
  apply st_bind_inv in H as [(e & [_ [= -> ->]]%lifted_inv & ->)|(prompt & [s1 d1] & [_ [= -> ->]]%lifted_inv & H)]; [by eauto|].
  apply st_bind_inv in H as [(e & [= He <- <-] & ->)|(stored & [s1 d1] & [= Hstored <- <-] & H)]; [by eauto|].
  rewrite <- Hl0 in *. clear Hnew E.
  apply st_bind_inv in H as [(e & H & ->)|(ready & [s1 d1] & H & H2)];
    apply stored_ready_spec in H as (-> & Hr1 & H); try done; [by eauto|].
  destruct ready as [t|].
  - destruct H as [Hl1 Hsrc].
    apply st_bind_inv in H2 as [(e & [-> ->]%continue_page_inv & ->)|([] & [s2 d2] & [-> ->]%continue_page_inv & [= <- <- <-])].
    + split; [done|]. destruct Hsrc as [[? _]|(t0 & ? & _ & ?)]; [left; congruence|right; eauto].
    + exists t. split_and!; try done. unfold token_source. rewrite <- Hl0. naive_solver.
  - destruct H as [Hl1 Hnone]. destruct d.
    + apply st_bind_inv in H2 as [(e & [-> ->]%continue_page_inv & ->)|([] & [s2 d2] & [-> ->]%continue_page_inv & [= <- <- <-])];
        [by eauto|]. split_and!; [done..|by left].
    + apply authorize_spec in H2; [|done..]. rewrite <- Hl1. destruct r as [[c|]|e].
      * destruct H2 as (t & -> & Hl & -> & Hex). exists t. split_and!; try done.
        right. right. rewrite <- Hl0. naive_solver.
      * destruct H2 as (-> & -> & ?). split_and!; [done..|by right].
      * destruct H2 as [-> ->]. by eauto.
Qed.
End kept.

(** ** The two providers *)

Lemma str_all_mono (p q : ascii -> bool) s : (forall a, p a = true -> q a = true) -> str_all p s = true -> str_all q s = true.
Proof.
  intros Hpq. induction s as [|a s IH]; simpl; [done|]. intros [Ha Hs]%andb_true_iff. by rewrite Hpq, IH.
Qed.
(** ASCII text is UTF-8. *)
Lemma ascii_utf8 s : str_all (fun a => byte_of a <? 128) s = true -> utf8_valid s = true.
Proof.
  unfold utf8_valid, bytes. induction s as [|a s IH]; simpl; [done|].
  intros [Ha Hs]%andb_true_iff. unfold utf8_head. rewrite Ha. simpl. by apply IH.
Qed.
(** What [serde_json] guarantees of a decoded answer and of a stored token. *)
Lemma Anthropic_laws codec response_from_json :
  TokenCodecLaws codec Anthropic.typed ->
  (forall c r, response_from_json c = Ok r -> Anthropic.response_typed r) ->
  (forall c t, token_from_str c = Ok t -> Anthropic.typed t) ->
  OAuthProviderLaws (Anthropic.provider codec response_from_json) Anthropic.typed.
Proof.
  intros Hc Hresp Hload. split; [done| |done..]. simpl. unfold Anthropic.exchange. intros env code verifier state t Hnow.
  destruct (Anthropic.exchange_authorization_code _ _ _ _ _) as [resp|] eqn:E; [|done]. simpl.
  destruct (negb _); [done|]. intros [= <-].
  assert (Anthropic.response_typed resp) as [? ?].
  { unfold Anthropic.exchange_authorization_code in E. destruct (pe_post_json _ _ _) as [|status body]; [done|].
    destruct (error_for_status status); [|done]. destruct body as [body|]; [|done]. simpl in E.
    destruct (response_from_json body) eqn:Hr; [|done]. injection E as <-. by eapply Hresp. }
  split; [done|]. simpl. by apply seconds_from_u64.
Qed.

Module OpenAiFacts.
Import OpenAi.
Section openai.
Context {J : JsonCodec} (codec : TokenCodec StoredToken) (response_from_json : string -> result TokenResponse string).
Context (base64_url_decode : string -> result string string).
Abbreviation stored_token := (stored_token base64_url_decode).

(** What [stored_token] accepts. *)
Record usable_token (previous : option StoredToken) (now : Z) (response : TokenResponse) (t : StoredToken) : Prop := {
  ut_access : st_access_token t = tr_access_token response /\ st_access_token t <> "" /\
    str_all (fun a => negb (forbidden a)) (st_access_token t) = true;
  ut_account : st_account_id t <> "" /\ str_all account_char (st_account_id t) = true;
  ut_same : forall p, previous = Some p -> st_account_id p = st_account_id t;
  ut_expires : usable_at now (st_expires_at t) = true;
  ut_lifetime : (exists l, tr_expires_in response = Some l /\ st_expires_at t = seconds_from now l) \/
    in_u64 (st_expires_at t) = true;
  ut_refresh : st_refresh_token t <> "" /\
    (tr_refresh_token response = Some (st_refresh_token t) \/
     tr_refresh_token response = None /\ exists p, previous = Some p /\ st_refresh_token t = st_refresh_token p);
}.

Lemma not_empty s : is_empty s = false -> s <> "".
Proof. by destruct s. Qed.
Lemma as_u64_range v n : as_u64 v = Some n -> in_u64 n = true.
Proof. unfold as_u64. destruct v as [| |[m| |]| | |]; try done. destruct (in_u64 (Z.of_N m)) eqn:E; [|done]. by intros [= <-]. Qed.

Lemma stored_token_Ok response previous now t :
  stored_token response previous now = Ok t -> usable_token previous now response t.
Proof.
  unfold OpenAi.stored_token. destruct (is_some_and _ _); [done|].
  destruct (is_empty (tr_access_token response)) eqn:Ha; [done|]. destruct (str_all _ _) eqn:Hall; [|done]. simpl.
  destruct (match tr_id_token response with Some _ => _ | None => _ end) as [token_claims|]; [|done]. simpl.
  destruct (or_previous (claimed_account _) _) as [account|] eqn:Hacc; [|done]. simpl.
  destruct (is_empty account) eqn:He; [done|]. destruct (str_all account_char account) eqn:Hac; [|done]. simpl.
  destruct (is_some_and _ previous) eqn:Hp; [done|].
  destruct (or_previous (_ <$> tr_expires_in response) _) as [exp|] eqn:Hexp; [|done]. simpl.
  destruct (usable_at now exp) eqn:Hu; [|done]. simpl.
  destruct (or_previous (tr_refresh_token response) _) as [refresh|] eqn:Hr; [|done]. simpl.
  destruct (is_empty refresh) eqn:Hre; [done|]. simpl. intros [= <-].
  split; simpl.
  - split_and!; [done|by apply not_empty|done].
  - split; [by apply not_empty|done].
  - intros p ->. simpl in Hp. by destruct (String.eqb_spec (st_account_id p) account).
  - done.
  - destruct (tr_expires_in response) as [l|]; simpl in Hexp; [left; exists l; by injection Hexp|].
    right. unfold claimed_expiry in Hexp. destruct (claims _ _); [|done]. destruct (get "exp" _); [|done]. by eapply as_u64_range.
  - split; [by apply not_empty|]. destruct (tr_refresh_token response); simpl in Hr; [left; congruence|].
    right. split; [done|]. destruct previous as [p|]; [|done]. exists p. by injection Hr.
Qed.
Lemma account_char_ascii a : account_char a = true -> (byte_of a <? 128) = true.
Proof. destruct a as [[] [] [] [] [] [] [] []]; vm_compute; done. Qed.
Lemma account_char_colon a : account_char a = true -> negb (Ascii.eqb a ":") = true.
Proof. destruct a as [[] [] [] [] [] [] [] []]; vm_compute; done. Qed.

Lemma request_token_typed post endpoint f refreshing r :
  (forall c r, response_from_json c = Ok r -> response_typed r) ->
  request_token response_from_json post endpoint f refreshing = Ok r -> response_typed r.
Proof.
  intros Hresp. unfold request_token. destruct (post endpoint f) as [|status body]; [done|].
  destruct (negb (is_success status)); [done|]. destruct body as [body|]; [|done]. simpl.
  destruct (response_from_json body) eqn:E; [|done]. intros [= <-]. by eapply Hresp.
Qed.
Lemma usable_typed previous now response t : 0 <= now ->
  response_typed response -> (forall p, previous = Some p -> typed p) ->
  usable_token previous now response t -> typed t.
Proof.
  intros Hnow (Ha & Hr & _ & Hl) Hp [[Hacc _] [_ Hac] _ _ Hlife [_ Href]]. split_and!.
  - by rewrite Hacc.
  - destruct Href as [E|(_ & p & E & ->)]; [by rewrite E in Hr|by destruct (Hp _ E) as (_ & ? & _)].
  - apply ascii_utf8. eapply str_all_mono; [apply account_char_ascii|done].
  - destruct Hlife as [(l & E & ->)|]; [|done]. rewrite E in Hl. by apply seconds_from_u64.
Qed.
Lemma laws :
  TokenCodecLaws codec typed ->
  (forall c r, response_from_json c = Ok r -> response_typed r) ->
  (forall c t, token_from_str c = Ok t -> typed t) ->
  OAuthProviderLaws (provider codec response_from_json base64_url_decode) typed.
Proof.
  intros Hc Hresp Hload. split; [done| | |done]; simpl.
  - unfold exchange. intros env code verifier state t Hnow.
    destruct (request_token _ _ _ _ _) as [resp|] eqn:E; [|done]. simpl. intros Ht%stored_token_Ok.
    apply (usable_typed None (pe_now env) resp t Hnow); [by eapply request_token_typed|done|done].
  - unfold refresh. intros env t t' Hnow Ht.
    destruct (request_token _ _ _ _ _) as [resp|[|]] eqn:E; [|done..]. simpl.
    destruct (stored_token _ _ _) as [t0|] eqn:Hs; [|done]. intros [= <-]. apply stored_token_Ok in Hs.
    apply (usable_typed (Some t) (pe_now env) resp t0 Hnow); [by eapply request_token_typed|by intros p [= <-]|done].
Qed.

(** A reader of a combined credential: the subscription's token, the daemon's own
    credential, and the account. *)
Definition read_combined (s : string) : option (string * string * string) :=
  match strip_prefix "agentdesktop:" s with
  | Some rest =>
      match split_once ":" rest with
      | Some (token, rest) =>
          match rsplit_once ":" rest with
          | Some (ident, account) => Some (token, ident, account)
          | None => None
          end
      | None => None
      end
  | None => None
  end.

(** A ChatGPT credential can be taken apart again. Whatever the token endpoint
    answers, a token the daemon accepts has no colon or blank in its access token
    and its account, is not empty, is good for more than a minute, keeps the account
    it was refreshed for and a refresh token; so the credential that combines it
    with the daemon's own, whatever that holds, is read back as the three parts it
    was made of, and it expires late enough when the daemon's own does. *)
Theorem chatgpt_credentials_are_unambiguous response previous now t ident :
  stored_token response previous now = Ok t ->
  usable_token previous now response t /\
  let c := combine (Some (@credential_from_token _ (provider codec response_from_json base64_url_decode) t)) ident in
  read_combined (lc_credential c) = Some (st_access_token t, lc_credential ident, st_account_id t) /\
  (usable_at now (lc_expires_at ident) = true -> usable_at now (lc_expires_at c) = true).
Proof.
  intros Ht%stored_token_Ok. split; [done|]. destruct Ht as [(_ & _ & Ha) [_ Hac] _ Hu _ _]. simpl.
  assert (lacks ":" (st_access_token t)) as Hla.
  { eapply str_all_mono; [|exact Ha]. intros a. unfold forbidden. by destruct (Ascii.eqb a ":"), (byte_of a <=? 32). }
  assert (lacks ":" (st_account_id t)) as Hlc by (eapply str_all_mono; [apply account_char_colon|done]).
  split.
  - unfold read_combined.
    assert (split_once ":" (st_access_token t +:+ ":" +:+ lc_credential ident +:+ ":" +:+ st_account_id t)
      = Some (st_access_token t, lc_credential ident +:+ ":" +:+ st_account_id t)) as Hs.
    { by apply split_once_Some. }
    assert (rsplit_once ":" (lc_credential ident +:+ ":" +:+ st_account_id t)
      = Some (lc_credential ident, st_account_id t)) as Hr.
    { by apply rsplit_once_Some. }
    match goal with |- context [strip_prefix ?p ?s] =>
      assert (strip_prefix p s = Some (st_access_token t +:+ ":" +:+ lc_credential ident +:+ ":" +:+ st_account_id t)) as Hp
    end.
    { apply strip_prefix_Some. by rewrite !append_assoc. }
    by rewrite Hp, Hs, Hr.
  - unfold usable_at in *. rewrite !Z.ltb_lt in *. lia.
Qed.
End openai.
End OpenAiFacts.

(** ** A run *)

Module Runs.
Import OpenAi OpenAiFacts.

Definition token_tuple (t : StoredToken) := (st_access_token t, st_refresh_token t, st_account_id t, st_expires_at t).
Definition token_of_tuple '((a, r, c, e) : string * string * string * Z) : StoredToken :=
  {| st_access_token := a; st_refresh_token := r; st_account_id := c; st_expires_at := e |}.
#[global] Instance typed_dec t : Decision (typed t).
Proof. unfold typed. apply _. Defined.
Definition demo_codec_of_tokens : TokenCodec StoredToken := text_codec token_tuple token_of_tuple typed.

Definition demo_response (expires_in : Z) : TokenResponse :=
  {| tr_access_token := "new"; tr_refresh_token := Some "r2"; tr_id_token := Some "h.claims.s";
     tr_expires_in := Some expires_in; tr_token_type := Some "Bearer" |}.
Definition demo_response_from_json (s : string) : result TokenResponse string :=
  if String.eqb s "tokens" then Ok (demo_response 3600) else Err "expected value".
Definition demo_claims : value :=
  Object {[ "https://api.openai.com/auth" := Object {[ "chatgpt_account_id" := VString "acct-1" ]} ]}.
Definition demo_decode (s : string) : result string string := Ok (to_vec_pretty demo_claims +:+ String "010" "").
#[global] Instance demo_provider : OAuthProvider StoredToken :=
  provider demo_codec_of_tokens demo_response_from_json demo_decode.
#[global] Instance demo_provider_laws : OAuthProviderLaws demo_provider typed.
Proof.
  apply laws.
  - apply text_codec_laws. by intros [].
  - intros c r. unfold demo_response_from_json. destruct (String.eqb c "tokens"); [|done]. by intros [= <-].
  - intros c t. apply text_codec_typed.
Qed.

Definition demo_url (port : Z) (path : string) : Url :=
  {| url_scheme := "http"; url_username := ""; url_password := None; url_host := Some "localhost";
     url_port := Some port; url_path := path; url_query := None; url_fragment := None |}.
Definition demo_parse (s : string) : result Url string :=
  Ok (if String.eqb s PROMPT_URI then demo_url 51327 "/callback" else demo_url 1455 "/auth/callback").
Definition demo_url_str (u : Url) : string := url_path u.
Definition demo_hash (s : string) : string := "k".
Definition demo_dir : path := ["/"; "s"].
Definition expired : StoredToken := token_of_tuple ("old", "r1", "acct-1", 100).
(** A stored token that has expired. *)
Definition demo_files : fs :=
  snd (save (P := demo_provider) demo_hash Z.of_nat (store_of demo_dir) expired
    (snd (SecretStore_new demo_dir
      {| nodes := {[ ["/"] := Dir 493; demo_dir := Dir 448 ]}; umask := 18; fs_fault := fun _ _ => None |}))).
(** The endpoint refuses the refresh token and exchanges the code. *)
Definition demo_post (endpoint : string) (f : form) : http_answer :=
  if bool_decide (("grant_type", "refresh_token") ∈ f) then Answer 401 (Some "no") else Answer 200 (Some "tokens").
Definition demo_env : sign_in_env :=
  {| se_rng := fun _ => Z.of_nat; se_now := 1000;
     se_provider := {| pe_now := 1010; pe_post_form := demo_post; pe_post_json := fun _ _ => NoAnswer |};
     se_state := "state"; se_pkce := ("verifier", "challenge"); se_bound := fun _ => Ok tt;
     se_page := fun _ => [(1, GetPrompt); (2, GetContinue);
       (3, GetCallback {| cq_code := Some "code"; cq_state := Some "state"; cq_error := None; cq_error_description := None |})] |}.
Definition demo_run : result (option SubscriptionCredential) anyerror * (fs * bool) :=
  credential_inner demo_hash demo_parse demo_url_str demo_dir None demo_env true (demo_files, false).
Example demo_run_signs_in :
  fst demo_run = Ok (Some {| su_token := {| lc_credential := "new"; lc_expires_at := 4610 |}; su_account_id := Some "acct-1" |}).
Proof. vm_compute. reflexivity. Qed.

Lemma sign_in_keeps_its_tokens_witness :
  exists t, load demo_hash (store_of demo_dir) (fst (snd demo_run)) = Ok (Some t) /\ st_access_token t = "new" /\
    token_source demo_hash demo_parse demo_url_str demo_dir demo_env demo_files false t.
Proof.
  assert (demo_run = (Ok (Some {| su_token := {| lc_credential := "new"; lc_expires_at := 4610 |};
      su_account_id := Some "acct-1" |}), (fst (snd demo_run), snd (snd demo_run)))) as E.
  { rewrite <- (surjective_pairing (snd demo_run)). apply pair_of_fst. vm_compute. reflexivity. }
  pose proof (sign_in_keeps_its_tokens (typed := typed) demo_hash demo_parse demo_url_str demo_dir None demo_env true
    demo_files false _ _ _ E ltac:(vm_compute; reflexivity) ltac:(vm_compute; discriminate)) as (t & Hl & Hc & Hs & _).
  exists t. split; [exact Hl|]. split; [|exact Hs]. by injection Hc.
Defined.

Definition demo_refreshed : StoredToken := token_of_tuple ("new", "r2", "acct-1", 4600).
Lemma chatgpt_credentials_are_unambiguous_witness :
  read_combined (lc_credential (combine (Some (credential_from_token demo_refreshed))
    {| lc_credential := "a:b"; lc_expires_at := 5000 |})) = Some ("new", "a:b", "acct-1").
Proof.
  assert (OpenAi.stored_token (J := demo_codec) demo_decode (demo_response 3600) (Some expired) 1000 = Ok demo_refreshed) as E
    by (vm_compute; reflexivity).
  pose proof (chatgpt_credentials_are_unambiguous demo_codec_of_tokens demo_response_from_json demo_decode
    (demo_response 3600) (Some expired) 1000 demo_refreshed {| lc_credential := "a:b"; lc_expires_at := 5000 |} E) as [_ [H _]].
  exact H.
Defined.
End Runs.
