(* ===== verification/GitHubOAuth.v ===== *)
(** * Signing in to GitHub ([crates/agent/src/github_oauth.rs])

    The stored tokens, their refresh, GitHub's device flow and the page that shows
    its code. A page is the status it shows ("pending" until the flow is over), and
    the pages a call shows are part of its state. GitHub's answers, what can be bound
    and the clock are arguments; [serde_json], [Url::parse] and the text of a [Url]
    are parameters. Times are nanoseconds, and [u64] seconds where the code has
    seconds. *)

From stdpp Require Import countable.
From S2P Require Import Prelude Str Codec Fs Config Net Cache Credential SecretStore Identity SignIn TokenStore.

Definition SECRET_SERVICE : string := "dev.agentdesktop.github-oauth".
Definition GITHUB : string := "https://github.com".

Record StoredTokens : Type := {
  gt_access_token : string;
  gt_expires_at : Z;
  gt_refresh_token : option string;
  gt_refresh_expires_at : Z;
}.
Definition typed (t : StoredTokens) : Prop :=
  utf8_valid (gt_access_token t) = true /\ in_u64 (gt_expires_at t) = true /\
  is_none_or utf8_valid (gt_refresh_token t) = true /\ in_u64 (gt_refresh_expires_at t) = true.
Record TokenResponse : Type := {
  gr_access_token : string;
  gr_token_type : string;
  gr_expires_in : option Z;
  gr_refresh_token : option string;
  gr_refresh_token_expires_in : option Z;
}.
Definition response_typed (r : TokenResponse) : Prop :=
  utf8_valid (gr_access_token r) = true /\ is_none_or in_u64 (gr_expires_in r) = true /\
  is_none_or utf8_valid (gr_refresh_token r) = true /\ is_none_or in_u64 (gr_refresh_token_expires_in r) = true.
Inductive TokenResult : Type := TokenError (error : string) | Token (response : TokenResponse).
Record DeviceCode : Type := {
  dc_device_code : string;
  dc_user_code : string;
  dc_verification_uri : string;
  dc_expires_in : Z;
  dc_interval : Z;
}.

(** What one call asks of the outside. [ge_post] answers the requests that are made
    once, [ge_polls] the polling, by poll and by the instant it is asked. *)
Record github_env : Type := {
  ge_rng : nat -> nat -> Z;
  ge_now : Z;
  ge_saved_at : Z;
  ge_post : string -> form -> http_answer;
  ge_polls : nat -> Z -> poll_answer;
  ge_poll_start : Z;
  ge_bound : bind_target -> result unit string;
}.

(** The files, and the statuses of the pages shown, the last one first. *)
Definition github_state : Type := fs * list string.

Section with_json.
Context {C : TokenCodec StoredTokens} (sha256 : string -> string) (parse_url : string -> result Url string).
Context (result_from_json : string -> result TokenResult string) (code_from_json : string -> result DeviceCode string).

Definition json_body {A} (what : string) (parse : string -> result A string) (body : option string) : result A anyerror :=
  match body with
  | None => Err (in_context what (reqwest_error None "error decoding response body"))
  | Some body => map_err (fun e => in_context what (reqwest_error None e)) (parse body)
  end.
(** [token_request]. *)
Definition token_request (answer : http_answer) : result TokenResult anyerror :=
  match answer with
  | NoAnswer => Err (in_context "request GitHub OAuth token" transport_error)
  | Answer status body =>
      let? _ := map_err (in_context "GitHub OAuth token request failed") (error_for_status status) in
      json_body "decode GitHub OAuth token response" result_from_json body
  end.

Definition load (store : SecretStore) (client_id : string) (s : fs) : result (option StoredTokens) anyerror :=
  load_token sha256 "decode stored GitHub OAuth tokens" store SECRET_SERVICE client_id s.
Definition as_credential (t : StoredTokens) : LlmGatewayCredential :=
  {| lc_credential := gt_access_token t; lc_expires_at := gt_expires_at t |}.
Definition stored_of (now : Z) (response : TokenResponse) : StoredTokens :=
  {| gt_access_token := gr_access_token response;
     gt_expires_at := match gr_expires_in response with Some ttl => seconds_from now ttl | None => U64_MAX end;
     gt_refresh_token := gr_refresh_token response;
     gt_refresh_expires_at := match gr_refresh_token_expires_in response with
                              | Some ttl => seconds_from now ttl | None => 0 end |}.
Definition save (rng : nat -> Z) (now : Z) (store : SecretStore) (client_id : string) (response : TokenResponse)
  : ST fs anyerror LlmGatewayCredential :=
  if negb (eq_ignore_ascii_case (gr_token_type response) "bearer") || is_empty (gr_access_token response)
  then st_err (plain_error "GitHub returned an invalid access token or token type")
  else
    let stored := stored_of now response in
    save_token sha256 rng store SECRET_SERVICE client_id stored ;*
    st_ret (as_credential stored).

(** ** The page *)

Definition on_files {A} (m : ST fs anyerror A) : ST github_state anyerror A := fun '(s, pages) =>
  let '(r, s') := m s in (r, (s', pages)).
Abbreviation continuation := (option (Url * option SocketAddr)).
(** [device_page]: bound at the callback of the sign-in it continues, or anywhere. *)
Definition device_page (ev : github_env) (continuation : continuation) : ST github_state anyerror unit := fun '(s, pages) =>
  match (match continuation with
         | Some (redirect, listen) => let? target := bind_callback redirect listen in ge_bound ev target
         | None => map_err (context "bind GitHub sign-in page") (ge_bound ev (BindHost "127.0.0.1" 0))
         end) with
  | Ok _ => (Ok tt, (s, "pending" :: pages))
  | Err e => (Err (plain_error e), (s, pages))
  end.
Definition finish_page (connected : bool) : ST github_state anyerror unit := fun '(s, pages) =>
  (Ok tt, (s, match pages with
              | _ :: pages => (if connected then "connected" else "failed") :: pages
              | [] => []
              end)).

(** ** The device flow *)

Definition timed_out : anyerror := plain_error "GitHub device authorization timed out; retry to sign in".
(** The polling loop under its [timeout_at], with the instants it asked at. *)
Fixpoint poll_loop (fuel : nat) (ev : github_env) (store : SecretStore) (client_id : string)
    (deadline interval now : Z) (asked : list Z) (s : fs)
  : option (result LlmGatewayCredential anyerror * fs * Z * list Z) :=
  match fuel with
  | O => None
  | S fuel =>
      let now := now + interval in
      if deadline <? now then Some (Err timed_out, s, deadline, asked)
      else
        let answer := ge_polls ev (length asked) now in
        let asked := (asked ++ [now])%list in
        let now := now + pa_elapsed answer in
        if deadline <? now then Some (Err timed_out, s, deadline, asked)
        else
          match token_request (pa_answer answer) with
          | Err e => Some (Err e, s, now, asked)
          | Ok (Token response) =>
              let '(r, s') := save (ge_rng ev 1%nat) (ge_saved_at ev) store client_id response s in
              Some (r, s', now, asked)
          | Ok (TokenError error) =>
              if String.eqb error "authorization_pending"
              then poll_loop fuel ev store client_id deadline interval now asked s
              else if String.eqb error "slow_down"
              then poll_loop fuel ev store client_id deadline (interval + secs 5) now asked s
              else if String.eqb error "access_denied"
              then Some (Err (plain_error "GitHub authorization declined"), s, now, asked)
              else if String.eqb error "expired_token"
              then Some (Err (plain_error "GitHub device code expired; retry to sign in"), s, now, asked)
              else Some (Err (plain_error
                "GitHub rejected device authorization; check the App client ID and Device Flow setting"), s, now, asked)
          end
  end.
Definition first_interval (code : DeviceCode) : Z := secs (Z.max (dc_interval code) 1).
Definition poll_fuel (code : DeviceCode) : nat := S (S (Z.to_nat (secs (dc_expires_in code) / first_interval code))).
Definition poll (ev : github_env) (store : SecretStore) (client_id : string) (code : DeviceCode)
  : ST fs anyerror LlmGatewayCredential := fun s =>
  match poll_loop (poll_fuel code) ev store client_id (ge_poll_start ev + secs (dc_expires_in code))
          (first_interval code) (ge_poll_start ev) [] s with
  | Some (r, s', _, _) => (r, s')
  | None => (Err (plain_error ""), s)
  end.

(** Asking for a device code, and the checks of where it sends the user. *)
Definition request_code (ev : github_env) (client_id : string) : result DeviceCode anyerror :=
  let? code := match ge_post ev (GITHUB +:+ "/login/device/code") [("client_id", client_id)] with
               | NoAnswer => Err (in_context "request GitHub device code" transport_error)
               | Answer status body =>
                   let? _ := map_err (in_context "GitHub device authorization failed") (error_for_status status) in
                   json_body "decode GitHub device code" code_from_json body
               end in
  let? verification := map_err plain_error (parse_url (dc_verification_uri code)) in
  if negb (String.eqb (url_scheme verification) "https") || negb (bool_decide (url_host verification = Some "github.com"))
  then Err (plain_error "GitHub returned an unexpected verification URL")
  else Ok code.
Definition device_flow (ev : github_env) (client_id : string) (store : SecretStore) (continuation : continuation)
  : ST github_state anyerror LlmGatewayCredential :=
  let* code := lift_result (request_code ev client_id) in
  device_page ev continuation ;*
  (fun '(s, pages) =>
     let '(r, s') := poll ev store client_id code s in
     (finish_page (is_ok r) ;* lift_result r) (s', pages)).

(** ** Acquiring a credential *)

Definition refresh_form (client_id refresh : string) : form :=
  [("client_id", client_id); ("grant_type", "refresh_token"); ("refresh_token", refresh)].
(** A continued flow shows that GitHub is already connected. *)
Definition connected_page (ev : github_env) (continuation : continuation) : ST github_state anyerror unit :=
  match continuation with
  | Some _ => device_page ev continuation ;* finish_page true
  | None => st_ret tt
  end.

(** The refresh of stored tokens: [None] when the user has to authorize again. *)
Definition refresh_stored (ev : github_env) (client_id : string) (store : SecretStore) (continuation : continuation)
    (stored : StoredTokens) : ST github_state anyerror (option LlmGatewayCredential) :=
  match gt_refresh_token stored with
  | Some refresh =>
      if usable_at (ge_now ev) (gt_refresh_expires_at stored) then
        let* result := lift_result (token_request
          (ge_post ev (GITHUB +:+ "/login/oauth/access_token") (refresh_form client_id refresh))) in
        match result with
        | Token response =>
            let* credential := on_files (save (ge_rng ev 0%nat) (ge_saved_at ev) store client_id response) in
            connected_page ev continuation ;* st_ret (Some credential)
        | TokenError error =>
            if bool_decide (error ∈ ["bad_refresh_token"; "invalid_grant"; "expired_token"]) then st_ret None
            else st_err (plain_error "GitHub rejected the token refresh")
        end
      else st_ret None
  | None => st_ret None
  end.

Definition acquire_inner (ev : github_env) (client_id : string) (store : SecretStore) (continuation : continuation)
  : ST github_state anyerror LlmGatewayCredential :=
  let* stored := (fun '(s, pages) => (load store client_id s, (s, pages))) in
  let* ready := match stored with
                | Some stored =>
                    if usable_at (ge_now ev) (gt_expires_at stored) then
                      connected_page ev continuation ;* st_ret (Some (as_credential stored))
                    else refresh_stored ev client_id store continuation stored
                | None => st_ret None
                end in
  match ready with
  | Some credential => st_ret credential
  | None => device_flow ev client_id store continuation
  end.

(** [acquire]: a continued flow that fails before it showed a page shows a failed one. *)
Definition acquire (ev : github_env) (client_id : string) (store : SecretStore) (continuation : continuation)
  : ST github_state anyerror LlmGatewayCredential := fun '(s, pages) =>
  let '(r, (s', pages')) := acquire_inner ev client_id store continuation (s, pages) in
  if negb (is_ok r) && Nat.eqb (length pages') (length pages) && is_some continuation then
    match device_page ev continuation (s', pages') with
    | (Ok _, st) => (r, snd (finish_page false st))
    | (Err _, st) => (r, st)
    end
  else (r, (s', pages')).

(** [credential]: under its lock, and spawned, so that it always completes. *)
Definition credential (ev : github_env) (client_id : string) (state_dir : path) (continuation : continuation)
  : ST github_state anyerror LlmGatewayCredential :=
  let* store := on_files (st_map_err plain_error (SecretStore_new state_dir)) in
  acquire ev client_id store continuation.
End with_json.

(** ** What a call does *)

Section kept.
Context {C : TokenCodec StoredTokens} {laws : TokenCodecLaws C typed}.
Context (sha256 : string -> string) (parse_url : string -> result Url string).
Context (result_from_json : string -> result TokenResult string) (code_from_json : string -> result DeviceCode string).
(** What [serde_json] guarantees of GitHub's answers. *)
Hypothesis results_typed : forall c r, result_from_json c = Ok (Token r) -> response_typed r.
Context (ev : github_env) (client_id : string) (state_dir : path) (continuation : option (Url * option SocketAddr)).
Hypothesis now_nonneg : 0 <= ge_saved_at ev.
Abbreviation store := (store_of state_dir).
Abbreviation loads := (load sha256 store client_id).
Abbreviation readable := (readable sha256 store SECRET_SERVICE client_id).
Abbreviation token_request := (token_request result_from_json).
Abbreviation poll_loop := (poll_loop sha256 result_from_json).

Lemma stored_of_typed now r : 0 <= now -> response_typed r -> typed (stored_of now r).
Proof.
  intros Hnow (Ha & He & Hr & Hx). unfold typed, stored_of; simpl. split_and!; try done.
  - destruct (gr_expires_in r); [by apply seconds_from_u64|done].
  - destruct (gr_refresh_token_expires_in r); [by apply seconds_from_u64|done].
Qed.
Lemma token_request_typed a r : token_request a = Ok (Token r) -> response_typed r.
Proof.
  unfold GitHubOAuth.token_request. destruct a as [|status body]; [done|]. destruct (error_for_status status); [|done].
  simpl. destruct body as [body|]; [|done]. simpl. destruct (result_from_json body) eqn:E; [|done].
  intros [= ->]. by eapply results_typed.
Qed.

(** A response that was saved is what is loaded; a failed save changes nothing. *)
Lemma github_save_loads rng response s r s' : response_typed response -> readable s ->
  save sha256 rng (ge_saved_at ev) store client_id response s = (r, s') ->
  readable s' /\
  match r with
  | Ok c => c = as_credential (stored_of (ge_saved_at ev) response) /\
      loads s' = Ok (Some (stored_of (ge_saved_at ev) response))
  | Err _ => loads s' = loads s
  end.
Proof.
  intros Hresp Hr. unfold save. destruct (negb _ || _); [by intros [= <- <-]|].
  pose proof (stored_of_typed _ _ now_nonneg Hresp) as Ht.
  intros [(e & H & ->)|([] & s1 & H & [= <- <-])]%st_bind_inv;
    apply (save_token_spec (typed := typed) sha256 "decode stored GitHub OAuth tokens") in H; [|done| |done].
  - split; [by eapply same_entry_readable|by eapply same_entry_load].
  - destruct H as [[? Hf] H]. split; [|split; [done|by apply H]]. unfold TokenStore.readable in *. by rewrite Hf.
Qed.

(** The polling: it ends in time, and what it stores is what it answers. *)
Definition polled (r : result LlmGatewayCredential anyerror) (s s' : fs) : Prop :=
  readable s' /\
  match r with
  | Ok c => exists i t response, token_request (pa_answer (ge_polls ev i t)) = Ok (Token response) /\
      c = as_credential (stored_of (ge_saved_at ev) response) /\
      loads s' = Ok (Some (stored_of (ge_saved_at ev) response))
  | Err _ => loads s' = loads s
  end.
Lemma github_polling_spec fuel deadline interval now asked s :
  0 < interval -> now <= deadline -> readable s -> (forall i t, 0 <= pa_elapsed (ge_polls ev i t)) ->
  deadline - now < Z.of_nat fuel * interval ->
  exists r s' now' asked', poll_loop fuel ev store client_id deadline interval now asked s = Some (r, s', now', asked') /\
    now <= now' <= deadline /\ Z.of_nat (length asked') <= Z.of_nat (length asked) + (deadline - now) / interval /\
    polled r s s'.
Proof.
  intros Hi Hn Hr Hel. revert interval now asked Hi Hn. induction fuel as [|fuel IH]; intros interval now asked Hi Hn Hf; [lia|].
  assert (0 <= (deadline - now) / interval) by (apply Z.div_pos; lia).
  cbn [GitHubOAuth.poll_loop]. destruct (Z.ltb_spec deadline (now + interval)) as [|Hd].
  { eexists _, _, _, _. split; [done|]. split_and!; try done; lia. }
  assert (length (asked ++ [now + interval]) = S (length asked)) as Hlen by (rewrite length_app; simpl; lia).
  assert (1 <= (deadline - now) / interval) by (apply Z.div_le_lower_bound; lia).
  pose proof (Hel (length asked) (now + interval)) as He. remember (ge_polls ev (length asked) (now + interval)) as answer eqn:Ha.
  destruct (Z.ltb_spec deadline (now + interval + pa_elapsed answer)) as [|Hd2].
  { eexists _, _, _, _. split; [done|]. rewrite Hlen. split_and!; try done; lia. }
  assert (forall r s', polled r s s' -> exists r0 s0 now' asked',
    Some (r, s', now + interval + pa_elapsed answer, (asked ++ [now + interval])%list) = Some (r0, s0, now', asked') /\
    now <= now' <= deadline /\ Z.of_nat (length asked') <= Z.of_nat (length asked) + (deadline - now) / interval /\ polled r0 s s0) as Hdone.
  { intros r s' Hp. eexists _, _, _, _. split; [done|]. rewrite Hlen. split_and!; try done; lia. }
  assert (forall e, polled (Err e) s s) as Herr by done.
  assert (forall interval', interval <= interval' -> exists r s' now' asked',
    poll_loop fuel ev store client_id deadline interval' (now + interval + pa_elapsed answer) (asked ++ [now + interval]) s
      = Some (r, s', now', asked') /\
    now <= now' <= deadline /\ Z.of_nat (length asked') <= Z.of_nat (length asked) + (deadline - now) / interval /\ polled r s s') as Hrec.
  { intros interval' Hle. destruct (IH interval' (now + interval + pa_elapsed answer) (asked ++ [now + interval])%list)
      as (r & s' & now' & asked' & Heq & Ht & Hlen' & Hp); [lia..|nia|].
    eexists _, _, _, _. split; [done|]. split; [lia|]. split; [|done]. rewrite Hlen in Hlen'.
    assert ((deadline - (now + interval + pa_elapsed answer)) / interval' <= (deadline - (now + interval)) / interval).
    { transitivity ((deadline - (now + interval + pa_elapsed answer)) / interval);
        [apply Z.div_le_compat_l; lia|apply Z.div_le_mono; lia]. }
    assert ((deadline - now) / interval = 1 + (deadline - (now + interval)) / interval).
    { replace (deadline - now) with (1 * interval + (deadline - (now + interval))) by lia. rewrite Z.div_add_l by lia. done. }
    lia. }
  destruct (token_request (pa_answer answer)) as [[error|response]|e] eqn:Hreq; [|..].
  - destruct (String.eqb error "authorization_pending"); [by apply Hrec|].
    destruct (String.eqb error "slow_down"); [apply Hrec; unfold secs; lia|].
    destruct (String.eqb error "access_denied"); [by apply Hdone|].
    destruct (String.eqb error "expired_token"); by apply Hdone.
  - destruct (save _ _ _ _ _ _ _) as [r s'] eqn:Hsave. apply Hdone.
    pose proof (token_request_typed _ _ Hreq) as Htyped.
    destruct (github_save_loads _ _ _ _ _ Htyped Hr Hsave) as [Hr' Hs]. split; [done|].
    destruct r as [c|]; [|done]. destruct Hs as [-> Hs]. exists (length asked), (now + interval), response.
    by rewrite <- Ha.
  - by apply Hdone.
Qed.

Hypothesis times_nonneg : forall i t, 0 <= pa_elapsed (ge_polls ev i t).
Lemma poll_enough code : 0 <= dc_expires_in code ->
  0 < first_interval code /\ secs (dc_expires_in code) < Z.of_nat (poll_fuel code) * first_interval code.
Proof.
  intros He. unfold poll_fuel. assert (0 < first_interval code) as Hi by (unfold first_interval, secs; lia).
  split; [done|]. pose proof (Z.mul_succ_div_gt (secs (dc_expires_in code)) _ Hi).
  assert (0 <= secs (dc_expires_in code) / first_interval code) by (apply Z.div_pos; unfold secs in *; lia).
  nia.
Qed.
Lemma poll_spec code s r s' : 0 <= dc_expires_in code -> readable s ->
  poll sha256 result_from_json ev store client_id code s = (r, s') -> polled r s s'.
Proof.
  intros He Hr. destruct (poll_enough code He) as [Hi Hf]. unfold poll.
  destruct (github_polling_spec (poll_fuel code) (ge_poll_start ev + secs (dc_expires_in code)) (first_interval code)
    (ge_poll_start ev) [] s) as (r0 & s0 & now' & asked' & Heq & _ & _ & Hp); try done; [unfold secs; lia|lia|].
  rewrite Heq. by intros [= <- <-].
Qed.

(** *** Pages *)

Lemma device_page_inv c s pages r s' pages' :
  device_page ev c (s, pages) = (r, (s', pages')) ->
  s' = s /\ pages' = (if is_ok r then "pending" :: pages else pages).
Proof. unfold device_page. destruct (match c with Some _ => _ | None => _ end); by intros [= <- <- <-]. Qed.
(** Whether the page of this call can be shown does not depend on its state. *)
Definition bindable : bool := is_ok (fst (device_page ev continuation (home_fs, []))).
Lemma device_page_bindable s pages : is_ok (fst (device_page ev continuation (s, pages))) = bindable.
Proof. unfold bindable, device_page. by destruct (match continuation with Some _ => _ | None => _ end). Qed.

(** What a call adds to the pages. *)
Definition page_added (ok : bool) (pages pages' : list string) : Prop :=
  pages' = pages \/ pages' = (if ok then "connected" else "failed") :: pages.

Lemma connected_page_inv s pages r s' pages' :
  connected_page ev continuation (s, pages) = (r, (s', pages')) ->
  s' = s /\ pages' = (if is_ok r && is_some continuation then "connected" :: pages else pages) /\
  (is_some continuation = true -> is_ok r = bindable).
Proof.
  unfold connected_page. destruct continuation as [c|] eqn:Ec; [|by intros [= <- <- <-]].
  rewrite <- Ec. intros [(e & H & ->)|([] & [s1 p1] & H & [= <- <- <-])]%st_bind_inv;
    pose proof (device_page_bindable s pages) as Hb; rewrite H in Hb; apply device_page_inv in H as [-> ->]; rewrite Ec; simpl in *; (split; [done|]); (split; [done|]); intros _; symmetry; done.
Qed.

(** *** A call *)

Hypothesis codes_typed : forall c code, code_from_json c = Ok code -> 0 <= dc_expires_in code.
Abbreviation refresh_answer refresh :=
  (token_request (ge_post ev (GITHUB +:+ "/login/oauth/access_token") (refresh_form client_id refresh))).
Abbreviation request_code := (request_code parse_url code_from_json ev client_id).

(** GitHub answered the refresh of the stored tokens with new ones. *)
Definition rotated (s : fs) (response : TokenResponse) : Prop :=
  exists stored refresh, loads s = Ok (Some stored) /\ usable_at (ge_now ev) (gt_expires_at stored) = false /\
    gt_refresh_token stored = Some refresh /\ refresh_answer refresh = Ok (Token response).
(** The user has to authorize: nothing stored can be used or refreshed. *)
Definition must_ask (s : fs) : Prop :=
  loads s = Ok None \/
  exists stored, loads s = Ok (Some stored) /\ usable_at (ge_now ev) (gt_expires_at stored) = false /\
    (gt_refresh_token stored = None \/ usable_at (ge_now ev) (gt_refresh_expires_at stored) = false \/
     exists refresh error, gt_refresh_token stored = Some refresh /\ refresh_answer refresh = Ok (TokenError error) /\
       error ∈ ["bad_refresh_token"; "invalid_grant"; "expired_token"]).
Definition token_source (s : fs) (t : StoredTokens) : Prop :=
  (loads s = Ok (Some t) /\ usable_at (ge_now ev) (gt_expires_at t) = true) \/
  (exists response, rotated s response /\ t = stored_of (ge_saved_at ev) response) \/
  (must_ask s /\ exists code i at_ response, request_code = Ok code /\
     token_request (pa_answer (ge_polls ev i at_)) = Ok (Token response) /\ t = stored_of (ge_saved_at ev) response).
(** The tokens after a call. *)
Definition tokens_after (r : result LlmGatewayCredential anyerror) (s s' : fs) : Prop :=
  match r with
  | Ok c => exists t, c = as_credential t /\ loads s' = Ok (Some t) /\ token_source s t
  | Err _ => loads s' = loads s \/
      exists response, rotated s response /\ loads s' = Ok (Some (stored_of (ge_saved_at ev) response))
  end.

Lemma device_flow_spec s pages r s' pages' :
  device_flow sha256 parse_url result_from_json code_from_json ev client_id store continuation (s, pages)
    = (r, (s', pages')) ->
  readable s -> must_ask s ->
  tokens_after r s s' /\
  (pages' = pages /\ is_ok r = false \/ bindable = true /\ pages' = (if is_ok r then "connected" else "failed") :: pages).
Proof.
  intros H Hr Hask. unfold device_flow in H.
  apply st_bind_inv in H as [(e & [_ [= -> ->]]%lifted_inv & ->)|(code & [s1 p1] & [Hcode [= -> ->]]%lifted_inv & H)];
    [split; by left|].
  apply st_bind_inv in H as [(e & H & ->)|([] & [s1 p1] & H & H2)];
    pose proof (device_page_bindable s pages) as Hb; rewrite H in Hb; apply device_page_inv in H as [-> ->];
    [split; by left|].
  destruct (poll _ _ _ _ _ _ _) as [r0 s0] eqn:Hp. simpl in H2. injection H2 as <- <- <-.
  assert (0 <= dc_expires_in code) as Hexp.
  { symmetry in Hcode. unfold GitHubOAuth.request_code in Hcode. destruct (ge_post _ _ _) as [|status [body|]]; [done|..];
      (simpl in Hcode; destruct (error_for_status status); [|done]); [|done].
    simpl in Hcode. destruct (code_from_json body) as [code'|] eqn:E; [|done]. simpl in Hcode.
    destruct (parse_url _); [|done]. simpl in Hcode. destruct (negb _ || _); [done|]. injection Hcode as ->. by eapply codes_typed. }
  apply poll_spec in Hp as [Hr' Hp]; [|done..]. split; [|by right].
  destruct r0 as [c|e]; [|by left]. destruct Hp as (i & at_ & response & Hreq & -> & Hl).
  eexists. split; [done|]. split; [done|]. right. right. split; [done|]. by exists code, i, at_, response.
Qed.

Lemma refresh_stored_spec stored s pages r s' pages' :
  refresh_stored sha256 result_from_json ev client_id store continuation stored (s, pages) = (r, (s', pages')) ->
  readable s -> loads s = Ok (Some stored) -> usable_at (ge_now ev) (gt_expires_at stored) = false ->
  match r with
  | Ok None => s' = s /\ must_ask s
  | Ok (Some c) => tokens_after (Ok c) s s'
  | Err e => tokens_after (Err e) s s'
  end /\
  match r with
  | Ok None => pages' = pages
  | _ => pages' = pages /\ (is_some continuation = true -> is_ok r = false) \/
         bindable = true /\ pages' = (if is_ok r then "connected" else "failed") :: pages
  end.
Proof.
  intros H Hr Hl Hu. unfold refresh_stored in H.
  assert (forall P, must_ask s -> P -> must_ask s /\ P) as _ by done.
  destruct (gt_refresh_token stored) as [refresh|] eqn:Hrt.
  2: { injection H as <- <- <-. split; [split; [done|]|done]. right. exists stored. split_and!; try done. by left. }
  destruct (usable_at _ (gt_refresh_expires_at stored)) eqn:Hru.
  2: { injection H as <- <- <-. split; [split; [done|]|done]. right. exists stored. split_and!; try done. right. by left. }
  apply st_bind_inv in H as [(e & [_ [= -> ->]]%lifted_inv & ->)|(result & [s1 p1] & [Hreq [= -> ->]]%lifted_inv & H)];
    [split; by left|].
  destruct result as [error|response].
  { destruct (bool_decide _) eqn:Herr; injection H as <- <- <-; [|split; by left].
    apply bool_decide_eq_true in Herr. split; [split; [done|]|done].
    right. exists stored. split_and!; try done. right. right. by exists refresh, error. }
  assert (response_typed response) as Hresp by (by eapply token_request_typed).
  assert (rotated s response) as Hrot by (by exists stored, refresh).
  apply st_bind_inv in H as [(e & H & ->)|(c & [s1 p1] & H & H2)];
    unfold on_files in H; destruct (save _ _ _ _ _ _ _) as [r1 s2] eqn:Hs; injection H as -> <- <-;
    apply github_save_loads in Hs as [Hr' Hs]; try done; [split; by left|]. destruct Hs as [-> Hs].
  apply st_bind_inv in H2 as [(e & H & ->)|([] & [s3 p3] & H & [= <- <- <-])];
    apply connected_page_inv in H as (-> & -> & Hb).
  - split; [right; by exists response|by left].
  - split; [eexists; split_and!; [done..|]; right; left; by exists response|].
    simpl in *. destruct (is_some continuation); [right|by left]. split; [by rewrite <- Hb|done].
Qed.

Lemma acquire_inner_spec s pages r s' pages' :
  acquire_inner sha256 parse_url result_from_json code_from_json ev client_id store continuation (s, pages)
    = (r, (s', pages')) ->
  readable s ->
  tokens_after r s s' /\
  (pages' = pages /\ (is_some continuation = true -> is_ok r = false) \/
   bindable = true /\ pages' = (if is_ok r then "connected" else "failed") :: pages).
Proof.
  intros H Hr. unfold acquire_inner in H.
  apply st_bind_inv in H as [(e & [= _ <- <-] & ->)|(stored & [s1 p1] & [= Hl <- <-] & H)]; [split; by left|].
  apply st_bind_inv in H as [(e & H & ->)|(ready & [s1 p1] & H & H2)].
  - destruct stored as [stored|]; [|done]. destruct (usable_at _ _) eqn:Hu.
    + apply st_bind_inv in H as [(e0 & H & [= ->])|([] & [s1 p1] & H & [=])].
      apply connected_page_inv in H as (-> & -> & _). split; by left.
    + apply refresh_stored_spec in H as [H Hp]; done.
  - destruct stored as [stored|].
    + destruct (usable_at _ _) eqn:Hu.
      * apply st_bind_inv in H as [(e0 & H & [=])|([] & [s2 p2] & H & [= <- <- <-])].
        apply connected_page_inv in H as (-> & -> & Hb). injection H2 as <- <- <-.
        split; [exists stored; split_and!; [done..|by left]|].
        simpl in *. destruct (is_some continuation); [right; split; [by rewrite <- Hb|done]|by left].
      * apply refresh_stored_spec in H as [H Hp]; [|done..]. destruct ready as [c|].
        -- injection H2 as <- <- <-. done.
        -- destruct H as [-> Hask]. subst p1.
           apply device_flow_spec in H2 as [? [[-> ?]|?]]; [split; auto..|done|done].
    + injection H as <- <- <-. apply device_flow_spec in H2 as [? [[-> ?]|?]]; [split; auto..|done|by left].
Qed.

(** A GitHub sign-in tells the truth and loses no tokens. The credential it
    answers with is the stored one's, which is good for more than a minute, or that
    of tokens GitHub issued to this call and that are stored now; GitHub is asked to
    authorize only when nothing stored can be used or refreshed, and a refresh that
    fails otherwise leaves the stored tokens. The browser is shown at most one page,
    which ends as connected exactly when the call succeeded; a sign-in that continues
    another always shows one when it can be bound, so the waiting tab is answered. *)
Theorem github_sign_in_is_reported s pages r s' pages' :
  acquire sha256 parse_url result_from_json code_from_json ev client_id store continuation (s, pages)
    = (r, (s', pages')) ->
  readable s ->
  tokens_after r s s' /\
  (pages' = pages \/ pages' = (if is_ok r then "connected" else "failed") :: pages) /\
  (is_some continuation = true -> bindable = true ->
   pages' = (if is_ok r then "connected" else "failed") :: pages).
Proof.
  intros H Hr. unfold acquire in H. destruct (acquire_inner _ _ _ _ _ _ _ _ _) as [r0 [s0 p0]] eqn:E.
  apply acquire_inner_spec in E as [Ht Hp]; [|done].
  destruct (negb (is_ok r0) && _ && _) eqn:Hcond.
  - apply andb_true_iff in Hcond as [[Hno%negb_true_iff Hlen%Nat.eqb_eq]%andb_true_iff Hc].
    destruct Hp as [[-> _]|[_ ->]]; [|simpl in Hlen; lia].
    pose proof (device_page_bindable s0 pages) as Hb.
    destruct (device_page ev continuation (s0, pages)) as [[[]|e] [s1 p1]] eqn:Hd; apply device_page_inv in Hd as [-> ->];
      injection H as <- <- <-; simpl in *; rewrite Hno; (split; [done|]).
    + by auto.
    + split; [by left|]. by rewrite <- Hb.
  - injection H as <- <- <-. split; [done|]. destruct Hp as [[-> Hc]|[_ ->]]; [|by auto].
    split; [by left|]. intros Hs Hb. rewrite Hs, (Hc Hs), Nat.eqb_refl in Hcond. done.
Qed.

End kept.

(** ** A run *)

Module GitHubRuns.
Definition tokens_tuple (t : StoredTokens) :=
  (gt_access_token t, gt_expires_at t, gt_refresh_token t, gt_refresh_expires_at t).
Definition tokens_of_tuple '((a, e, r, x) : string * Z * option string * Z) : StoredTokens :=
  {| gt_access_token := a; gt_expires_at := e; gt_refresh_token := r; gt_refresh_expires_at := x |}.
#[global] Instance typed_dec t : Decision (typed t).
Proof. unfold typed. apply _. Defined.
#[global] Instance demo_tokens_codec : TokenCodec StoredTokens := text_codec tokens_tuple tokens_of_tuple typed.
#[global] Instance demo_tokens_codec_laws : TokenCodecLaws demo_tokens_codec typed.
Proof. apply text_codec_laws. by intros []. Qed.

Definition demo_result (s : string) : result TokenResult string :=
  if String.eqb s "token" then
    Ok (Token {| gr_access_token := "gho"; gr_token_type := "bearer"; gr_expires_in := Some 28800;
                 gr_refresh_token := Some "ghr"; gr_refresh_token_expires_in := None |})
  else Ok (TokenError s).
Definition demo_code (s : string) : result DeviceCode string :=
  Ok {| dc_device_code := "d"; dc_user_code := "ABCD-1234"; dc_verification_uri := "https://github.com/login/device";
        dc_expires_in := 900; dc_interval := 5 |}.
Definition demo_parse (s : string) : result Url string :=
  Ok {| url_scheme := "https"; url_username := ""; url_password := None; url_host := Some "github.com";
        url_port := None; url_path := "/login/device"; url_query := None; url_fragment := None |}.
Definition demo_hash (s : string) : string := "k".
Definition demo_dir : path := ["/"; "s"].
Definition demo_files : fs :=
  snd (SecretStore_new demo_dir
    {| nodes := {[ ["/"] := Dir 493; demo_dir := Dir 448 ]}; umask := 18; fs_fault := fun _ _ => None |}).
(** Two polls that are answered with a wait, and a third with the tokens. *)
Definition demo_env : github_env :=
  {| ge_rng := fun _ => Z.of_nat; ge_now := 1000; ge_saved_at := 1020;
     ge_post := fun _ _ => Answer 200 (Some "code");
     ge_polls := fun i _ => {| pa_answer := Answer 200 (Some (match i with O => "authorization_pending" | 1%nat => "slow_down" | _ => "token" end));
                               pa_elapsed := 1 |};
     ge_poll_start := 0; ge_bound := fun _ => Ok tt |}.
Definition demo_continuation : option (Url * option SocketAddr) :=
  Some ({| url_scheme := "http"; url_username := ""; url_password := None; url_host := Some "localhost";
           url_port := Some 51326; url_path := "/callback"; url_query := None; url_fragment := None |}, None).
Definition demo_run : result LlmGatewayCredential anyerror * github_state :=
  acquire demo_hash demo_parse demo_result demo_code demo_env "client" (store_of demo_dir) demo_continuation (demo_files, []).

Lemma github_sign_in_is_reported_witness :
  exists t, load demo_hash (store_of demo_dir) "client" (fst (snd demo_run)) = Ok (Some t) /\
    gt_access_token t = "gho" /\ snd (snd demo_run) = ["connected"].
Proof.
  assert (fst demo_run = Ok {| lc_credential := "gho"; lc_expires_at := 29820 |}) as E by (vm_compute; reflexivity).
  destruct demo_run as [r [s' pages']] eqn:Hrun. simpl in E. subst r.
  destruct (github_sign_in_is_reported demo_hash demo_parse demo_result demo_code
    ltac:(intros c r; unfold demo_result; destruct (String.eqb c "token"); [intros [= <-]; repeat split|done])
    demo_env "client" demo_dir demo_continuation ltac:(vm_compute; discriminate)
    ltac:(intros i t; vm_compute; discriminate) ltac:(intros c code [= <-]; vm_compute; discriminate)
    demo_files [] _ s' pages' Hrun ltac:(vm_compute; reflexivity)) as [Ht [_ Hp]].
  destruct Ht as (t & Hc & Hl & _). exists t. split; [exact Hl|]. split; [by injection Hc|].
  exact (Hp eq_refl ltac:(vm_compute; reflexivity)).
Defined.
End GitHubRuns.
