(* ===== verification/GatewayOidc.v ===== *)
(** * Signing in to the gateway's identity provider ([crates/agent/src/gateway_oidc.rs])

    Discovery and its checks, the stored tokens and their refresh, the sign-in in the
    browser (which may go on to GitHub, [GitHubOAuth.v]), and the parts of the device
    authorization grant; [GatewayLogins.v] has their concurrent use. The provider's
    endpoints, the browser and the clock are arguments; [serde_json], [Url], SHA-256
    and Base64 are parameters. *)

From stdpp Require Import countable.
From S2P Require Import Prelude Str Codec Fs Config Net Cache Credential SecretStore Identity SignIn TokenStore SubscriptionOAuth GitHubOAuth.

(** The token endpoint's answer is that of [SignIn.v]. *)
Abbreviation TokenResponse := SignIn.TokenResponse.

Definition SECRET_SERVICE : string := "dev.agentdesktop.gateway-oidc".
Definition MAX_DEVICE_LIFETIME : Z := secs (30 * 60).
Definition MAX_DEVICE_POLL_INTERVAL : Z := secs 60.

Record LoginOptions : Type := {
  lo_callback_listen : option SocketAddr;
  lo_subscription_available : bool;
  lo_github_client_id : option string;
  lo_device_authorization : bool;
}.
Record PendingDeviceLogin : Type := { pd_verification_url : string; pd_user_code : string }.
#[global] Instance pending_eq_dec : EqDecision PendingDeviceLogin.
Proof. solve_decision. Defined.
(** [LlmGatewayLoginStatus] of [core/src/model.rs]. *)
Record LlmGatewayLoginStatus : Type := {
  ls_status : string;
  ls_verification_url : option string;
  ls_user_code : option string;
}.
Record ProviderMetadata : Type := {
  pm_authorization_endpoint : Url;
  pm_token_endpoint : Url;
  pm_device_authorization_endpoint : option Url;
}.
Record DeviceAuthorizationResponse : Type := {
  da_device_code : string;
  da_user_code : string;
  da_verification_uri : string;
  da_verification_uri_complete : option string;
  da_expires_in : Z;
  da_interval : option Z;
}.
Record StoredTokens : Type := {
  gw_access_token : string;
  gw_refresh_token : option string;
  gw_expires_at : Z;
  gw_token_endpoint : string;
}.
(** What the Rust types guarantee. *)
Definition typed (t : StoredTokens) : Prop :=
  utf8_valid (gw_access_token t) = true /\ is_none_or utf8_valid (gw_refresh_token t) = true /\
  in_u64 (gw_expires_at t) = true /\ utf8_valid (gw_token_endpoint t) = true.

(** The error of [credential]: [SignInRequired], or any other. *)
Inductive credential_error : Type :=
| SignInRequired (pending : option PendingDeviceLogin)
| OtherError (e : anyerror).
(** [Display] of [SignInRequired]. *)
Definition sign_in_required_message (pending : option PendingDeviceLogin) : string :=
  "LLM gateway sign-in required: run `agentdesktop-headless login`" +:+
  match pending with
  | Some pending => ", or approve the pending sign-in at " +:+ pd_verification_url pending +:+ " with code " +:+ pd_user_code pending
  | None => ""
  end.

(** ** The device grant *)

Definition signed_in : LlmGatewayLoginStatus :=
  {| ls_status := "signedIn"; ls_verification_url := None; ls_user_code := None |}.
Definition awaiting (pending : PendingDeviceLogin) : LlmGatewayLoginStatus :=
  {| ls_status := "awaitingAuthentication"; ls_verification_url := Some (pd_verification_url pending);
     ls_user_code := Some (pd_user_code pending) |}.
Definition pending_from (device : DeviceAuthorizationResponse) : PendingDeviceLogin :=
  {| pd_verification_url := default (da_verification_uri device)
       (option_filter (fun url => negb (is_empty url)) (da_verification_uri_complete device));
     pd_user_code := da_user_code device |}.
Definition poll_interval (device : DeviceAuthorizationResponse) : Z :=
  Z.min (match option_filter (fun seconds => 0 <? seconds) (da_interval device) with
         | Some seconds => secs seconds
         | None => DEFAULT_DEVICE_POLL_INTERVAL
         end) MAX_DEVICE_POLL_INTERVAL.
Definition device_authorization_form (client_id : string) (scopes : list string) : form :=
  [("client_id", client_id); ("scope", join " " scopes)].

Section provider.
Context (parse_url : string -> result Url string) (url_str : Url -> string).
Context (metadata_from_json : string -> result ProviderMetadata string).
Context (device_from_json : string -> result DeviceAuthorizationResponse string).

Definition validate_device (device : DeviceAuthorizationResponse) : result DeviceAuthorizationResponse anyerror :=
  if is_empty (da_device_code device) || is_empty (da_user_code device)
  then Err (plain_error "OIDC device authorization response has no device or user code")
  else
    let? _ := map_err (fun e => plain_error (context "OIDC device verification URI is invalid" e))
                (parse_url (da_verification_uri device)) in
    let expires_in := Z.min (da_expires_in device) (MAX_DEVICE_LIFETIME / secs 1) in
    if expires_in =? 0 then Err (plain_error "OIDC device authorization has already expired")
    else Ok {| da_device_code := da_device_code device; da_user_code := da_user_code device;
               da_verification_uri := da_verification_uri device;
               da_verification_uri_complete :=
                 option_filter (fun uri => is_ok (parse_url uri)) (da_verification_uri_complete device);
               da_expires_in := expires_in; da_interval := da_interval device |}.

(** One endpoint of [discover]: HTTPS, or loopback HTTP where that was allowed. *)
Definition endpoint_allowed (allow_insecure : bool) (endpoint : Url) : bool :=
  let secure := String.eqb (url_scheme endpoint) "https" in
  let insecure_loopback := allow_insecure && String.eqb (url_scheme endpoint) "http" &&
    is_some_and (fun host => bool_decide (host ∈ ["localhost"; "127.0.0.1"; "::1"; "[::1]"])) (url_host endpoint) in
  is_some (url_host endpoint) && (secure || insecure_loopback).
Definition check_endpoint (allow_insecure : bool) (name : string) (endpoint : Url) : result unit anyerror :=
  if endpoint_allowed allow_insecure endpoint then Ok tt
  else Err (plain_error ("OIDC " +:+ name +:+ " endpoint must be HTTPS or explicitly allowed loopback HTTP")).

Definition discover (get : string -> http_answer) (issuer : Url) (allow_insecure : bool)
  : result ProviderMetadata anyerror :=
  let endpoint := trim_end_matches "/" (url_str issuer) +:+ "/.well-known/openid-configuration" in
  let? metadata := map_err (in_context "discover OIDC provider")
    match get endpoint with
    | NoAnswer => Err transport_error
    | Answer status body => let? _ := error_for_status status in body_json metadata_from_json body
    end in
  let? _ := check_endpoint allow_insecure "authorization" (pm_authorization_endpoint metadata) in
  let? _ := check_endpoint allow_insecure "token" (pm_token_endpoint metadata) in
  let? _ := match pm_device_authorization_endpoint metadata with
            | Some endpoint => check_endpoint allow_insecure "device authorization" endpoint
            | None => Ok tt
            end in
  Ok metadata.

Definition request_device_grant (get : string -> http_answer) (post : string -> form -> http_answer)
    (issuer : Url) (client_id : string) (scopes : list string) (allow_insecure : bool)
  : result (ProviderMetadata * DeviceAuthorizationResponse) anyerror :=
  let? metadata := discover get issuer allow_insecure in
  let? endpoint := ok_or (pm_device_authorization_endpoint metadata)
                     (plain_error "OIDC provider does not support device authorization") in
  let? device := match post (url_str endpoint) (device_authorization_form client_id scopes) with
                 | NoAnswer => Err (in_context "request OIDC device authorization" transport_error)
                 | Answer status body =>
                     let? _ := map_err (in_context "OIDC device authorization endpoint returned an error")
                                 (error_for_status status) in
                     map_err (in_context "decode OIDC device authorization response") (body_json device_from_json body)
                 end in
  let? device := validate_device device in
  Ok (metadata, device).

Definition authorization_url (endpoint : Url) (client_id : string) (redirect_uri : Url) (scopes : list string)
    (state challenge : string) : string * form :=
  (url_str endpoint,
   [("response_type", "code"); ("client_id", client_id); ("redirect_uri", url_str redirect_uri);
    ("scope", join " " scopes); ("state", state); ("code_challenge", challenge);
    ("code_challenge_method", "S256")]).
End provider.

(** ** Stored tokens *)

(** What the refresh of a stored token sees. *)
Record stored_env : Type := {
  ve_rng : nat -> Z;
  ve_now : Z;
  ve_refreshed_at : Z;
  ve_post : string -> form -> http_answer;
}.

Section tokens.
Context {C : TokenCodec StoredTokens} (sha256 : string -> string).
Context (token_from_json : string -> result TokenResponse string).

Definition load (store : SecretStore) (account : string) (s : fs) : result (option StoredTokens) anyerror :=
  load_token sha256 "decode stored gateway OIDC token" store SECRET_SERVICE account s.
Definition save (rng : nat -> Z) (store : SecretStore) (account : string) (tokens : StoredTokens) : ST fs anyerror unit :=
  save_token sha256 rng store SECRET_SERVICE account tokens.
Definition as_credential (tokens : StoredTokens) : LlmGatewayCredential :=
  {| lc_credential := gw_access_token tokens; lc_expires_at := gw_expires_at tokens |}.
Definition new_tokens (now : Z) (tokens : TokenResponse) (token_endpoint : string) : StoredTokens :=
  {| gw_access_token := tr_access_token tokens; gw_refresh_token := tr_refresh_token tokens;
     gw_expires_at := seconds_from now (tr_expires_in tokens); gw_token_endpoint := token_endpoint |}.
(** A provider that does not rotate its refresh token leaves the stored one. *)
Definition refreshed_tokens (now : Z) (tokens : StoredTokens) (refreshed : TokenResponse) : StoredTokens :=
  {| gw_access_token := tr_access_token refreshed;
     gw_refresh_token := match tr_refresh_token refreshed with Some t => Some t | None => gw_refresh_token tokens end;
     gw_expires_at := seconds_from now (tr_expires_in refreshed); gw_token_endpoint := gw_token_endpoint tokens |}.

Definition stored_credential (ev : stored_env) (store : SecretStore) (account client_id : string)
  : ST fs anyerror (option LlmGatewayCredential) := fun s =>
  match load store account s with
  | Err e => (Err e, s)
  | Ok None => (Ok None, s)
  | Ok (Some tokens) =>
      if usable_at (ve_now ev) (gw_expires_at tokens) then (Ok (Some (as_credential tokens)), s)
      else
        match gw_refresh_token tokens with
        | None => (Ok None, s)
        | Some refresh_token =>
            match refresh_access_token token_from_json (ve_post ev) (gw_token_endpoint tokens) client_id refresh_token with
            | Ok refreshed =>
                let tokens := refreshed_tokens (ve_refreshed_at ev) tokens refreshed in
                (save (ve_rng ev) store account tokens ;* st_ret (Some (as_credential tokens))) s
            | Err _ => (Ok None, s)
            end
        end
  end.
End tokens.

(** [account]: the key of the tokens, and of pending and starting sign-ins. *)
Definition account (url_str : Url -> string) (digest : string -> string) (issuer : Url) (client_id : string) : string :=
  digest (url_str issuer +:+ nul +:+ client_id).

(** ** A credential *)

Record CredentialAcquisition : Type := { ca_credential : LlmGatewayCredential; ca_interactive : bool }.

(** What a sign-in in the browser sees besides. *)
Record browser_env : Type := {
  be_stored : stored_env;
  be_get : string -> http_answer;
  be_state : string;
  be_pkce : string * string;
  be_bound : bind_target -> result unit string;
  be_page : string * form -> list (Z * callback_request);
  be_signed_in_at : Z;
  be_rng : nat -> Z;
  be_github : github_env;
}.

Section credential.
Context {C : TokenCodec StoredTokens} {G : TokenCodec GitHubOAuth.StoredTokens} (sha256 digest : string -> string).
Context (parse_url : string -> result Url string) (url_str : Url -> string).
Context (metadata_from_json : string -> result ProviderMetadata string).
Context (token_from_json : string -> result TokenResponse string).
Context (github_result_from_json : string -> result TokenResult string) (github_code_from_json : string -> result DeviceCode string).
Context (state_dir : path).

Definition other {A} (r : result A anyerror) : result A credential_error := map_err OtherError r.

(** The sign-in in the browser, its tokens stored, and GitHub's where it is wanted. *)
Definition browser_sign_in (ev : browser_env) (issuer : Url) (client_id redirect_uri : string) (scopes : list string)
    (allow_insecure : bool) (login : LoginOptions) (store : SecretStore) : ST github_state anyerror StoredTokens :=
  let* metadata := lift_result (discover url_str metadata_from_json (be_get ev) issuer allow_insecure) in
  let* redirect_uri := lift_result (map_err (fun e => plain_error (context "parse OIDC redirect URI" e))
                         (parse_url redirect_uri)) in
  let '(verifier, challenge) := be_pkce ev in
  let requests := be_page ev (authorization_url url_str (pm_authorization_endpoint metadata) client_id redirect_uri scopes
                    (be_state ev) challenge) in
  let* code := lift_result (map_err plain_error
    (wait_for_authorization_code_with_callback redirect_uri (be_state ev) (lo_callback_listen login)
       (IdentityPage (lo_subscription_available login) (is_some (lo_github_client_id login))) None (be_bound ev) requests)) in
  let* authorization_code := lift_result (ok_or code (plain_error "required identity authorization was skipped")) in
  let* tokens := lift_result (exchange_authorization_code token_from_json (ve_post (be_stored ev))
    (url_str (pm_token_endpoint metadata)) client_id (url_str redirect_uri) authorization_code verifier) in
  let stored := new_tokens (be_signed_in_at ev) tokens (url_str (pm_token_endpoint metadata)) in
  GitHubOAuth.on_files (save sha256 (be_rng ev) store (account url_str digest issuer client_id) stored) ;*
  match option_filter (fun _ => negb (lo_subscription_available login)) (lo_github_client_id login) with
  | Some github_client_id =>
      GitHubOAuth.credential sha256 parse_url github_result_from_json github_code_from_json (be_github ev)
        github_client_id state_dir (Some (redirect_uri, lo_callback_listen login)) ;*
      st_ret stored
  | None => st_ret stored
  end.

(** [credential_inner], under the lock [LOGIN]; [pending] is the account's entry of
    [PENDING_DEVICE_LOGINS] when it is looked at. The call is spawned by
    [credential], so it completes even when its caller goes away. *)
Definition credential_inner (ev : browser_env) (pending : option PendingDeviceLogin) (issuer : Url)
    (client_id redirect_uri : string) (scopes : list string) (allow_insecure : bool) (login : LoginOptions)
  : ST github_state credential_error CredentialAcquisition :=
  let* store := st_map_err (fun e => OtherError (plain_error e)) (fun '(s, pages) =>
                  let '(r, s') := SecretStore_new state_dir s in (r, (s', pages))) in
  let* stored := st_map_err OtherError (GitHubOAuth.on_files
    (stored_credential sha256 token_from_json (be_stored ev) store (account url_str digest issuer client_id) client_id)) in
  match stored with
  | Some credential => st_ret {| ca_credential := credential; ca_interactive := false |}
  | None =>
      if lo_device_authorization login then st_err (SignInRequired pending)
      else
        let* stored := st_map_err OtherError
          (browser_sign_in ev issuer client_id redirect_uri scopes allow_insecure login store) in
        st_ret {| ca_credential := as_credential stored; ca_interactive := true |}
  end.
End credential.

(** ** What GitHub's sign-in leaves alone *)

Section github.
Context {G : TokenCodec GitHubOAuth.StoredTokens} (sha256 : string -> string) (parse_url : string -> result Url string).
Context (result_from_json : string -> result TokenResult string) (code_from_json : string -> result DeviceCode string).
Context (state_dir : path) (service account : string) (client_id : string).
Hypothesis other_entry : entry_path sha256 (store_of state_dir) service account
  <> entry_path sha256 (store_of state_dir) GitHubOAuth.SECRET_SERVICE client_id.
Abbreviation same := (same_entry sha256 (store_of state_dir) service account).

(** A computation that leaves the entry alone, whatever it does to the pages. *)
Definition leaves {E A} (m : ST github_state E A) : Prop :=
  forall st r st', m st = (r, st') -> same (fst st) (fst st').
Lemma leaves_bind {E A B} (m : ST github_state E A) (k : A -> ST github_state E B) :
  leaves m -> (forall a, leaves (k a)) -> leaves (st_bind m k).
Proof.
  intros Hm Hk st r st' [(e & H & _)|(a & st1 & H & H2)]%st_bind_inv; [by eapply Hm|].
  etrans; [by eapply Hm|by eapply Hk].
Qed.
Lemma leaves_pure {E A} (f : github_state -> result A E * github_state) :
  (forall st, fst (snd (f st)) = fst st) -> leaves f.
Proof. intros Hf st r st' H. specialize (Hf st). rewrite H in Hf. simpl in Hf. by rewrite Hf. Qed.
Lemma leaves_ret {E A} (a : A) : leaves (st_ret (E := E) a).
Proof. by apply leaves_pure. Qed.
Lemma leaves_lift {E A} (r : result A E) : leaves (lift_result r).
Proof. by apply leaves_pure. Qed.
Lemma leaves_device_page ev c : leaves (device_page ev c).
Proof. apply leaves_pure. intros [s pages]. unfold device_page. by destruct (match c with Some _ => _ | None => _ end). Qed.
Lemma leaves_finish_page b : leaves (finish_page b).
Proof. apply leaves_pure. by intros [s pages]. Qed.
Lemma leaves_connected_page ev c : leaves (connected_page ev c).
Proof.
  unfold connected_page. destruct c; [|apply leaves_ret].
  apply leaves_bind; [apply leaves_device_page|intros; apply leaves_finish_page].
Qed.

Lemma github_save_same rng now response s r s' :
  GitHubOAuth.save sha256 rng now (store_of state_dir) client_id response s = (r, s') -> same s s'.
Proof.
  unfold GitHubOAuth.save. destruct (_ || _); [by intros [= _ <-]|].
  intros [(e & H & _)|([] & s1 & H & [= _ <-])]%st_bind_inv; apply st_map_err_inv in H as (r0 & H & _);
    eapply set_secret_other; done.
Qed.
Lemma poll_loop_same fuel ev deadline interval now asked s r s' now' asked' :
  poll_loop sha256 result_from_json fuel ev (store_of state_dir) client_id deadline interval now asked s
    = Some (r, s', now', asked') -> same s s'.
Proof.
  revert interval now asked. induction fuel as [|fuel IH]; intros interval now asked; cbn [poll_loop]; [done|].
  destruct (_ <? _); [by intros [= _ <- _ _]|]. destruct (_ <? _); [by intros [= _ <- _ _]|].
  destruct (token_request _ _) as [[error|response]|e]; [| |by intros [= _ <- _ _]].
  - repeat (case_match; [by apply IH || (by intros [= _ <- _ _])|]). by intros [= _ <- _ _].
  - destruct (GitHubOAuth.save _ _ _ _ _ _ _) as [r0 s0] eqn:Hs. intros [= _ <- _ _]. by eapply github_save_same.
Qed.
Lemma leaves_acquire_inner ev c :
  leaves (acquire_inner sha256 parse_url result_from_json code_from_json ev client_id (store_of state_dir) c).
Proof.
  assert (forall rng now response, leaves (GitHubOAuth.on_files (GitHubOAuth.save sha256 rng now (store_of state_dir) client_id response))) as Hsave.
  { intros rng now response [s pages] r st'. unfold GitHubOAuth.on_files.
    destruct (GitHubOAuth.save _ _ _ _ _ _ _) as [r0 s0] eqn:Hs. intros [= _ <-]. by eapply github_save_same. }
  apply leaves_bind; [apply leaves_pure; by intros []|]. intros stored. apply leaves_bind.
  - destruct stored as [stored|]; [|apply leaves_ret]. destruct (usable_at _ _).
    + apply leaves_bind; [apply leaves_connected_page|intros; apply leaves_ret].
    + unfold refresh_stored. destruct (gt_refresh_token stored); [|apply leaves_ret].
      destruct (usable_at _ _); [|apply leaves_ret]. apply leaves_bind; [apply leaves_lift|]. intros [error|response].
      * destruct (bool_decide _); by apply leaves_pure.
      * apply leaves_bind; [done|]. intros. apply leaves_bind; [apply leaves_connected_page|intros; apply leaves_ret].
  - intros [credential|]; [apply leaves_ret|]. unfold device_flow. apply leaves_bind; [apply leaves_lift|]. intros code.
    apply leaves_bind; [apply leaves_device_page|]. intros _ [s pages] r st'.
    unfold poll. destruct (poll_loop _ _ _ _ _ _ _ _ _ _ _) as [[[[r0 s0] now'] asked']|] eqn:E.
    + intros H. etrans; [by eapply poll_loop_same|]. simpl in H. injection H as _ <-. done.
    + intros [= _ <-]. done.
Qed.
Lemma leaves_credential ev c :
  leaves (GitHubOAuth.credential sha256 parse_url result_from_json code_from_json ev client_id state_dir c).
Proof.
  intros [s pages] r st'. unfold GitHubOAuth.credential, st_bind, GitHubOAuth.on_files, st_map_err.
  destruct (SecretStore_new state_dir s) as [r0 s0] eqn:Hnew.
  apply (SecretStore_new_entry sha256 _ _ _ _ service account) in Hnew as [Hs Hstore].
  destruct r0 as [store|e]; [subst store|by intros [= _ <-]]. unfold acquire.
  destruct (acquire_inner _ _ _ _ _ _ _ _ _) as [r1 [s1 p1]] eqn:E. apply leaves_acquire_inner in E. simpl in E.
  intros H. simpl. etrans; [done|]. etrans; [done|].
  destruct (_ && _ && _); [|by injection H as _ <-].
  destruct (device_page ev c (s1, p1)) as [[[]|e] [s2 p2]] eqn:Hp; apply leaves_device_page in Hp; simpl in *;
    by injection H as _ <-.
Qed.
End github.

(** ** The stored tokens of an account *)

(** What [serde_json] guarantees of the token endpoint's answer. *)
Definition response_typed (r : TokenResponse) : Prop :=
  utf8_valid (tr_access_token r) = true /\ is_none_or utf8_valid (tr_refresh_token r) = true /\
  in_u64 (tr_expires_in r) = true.

Section account.
Context {C : TokenCodec StoredTokens} {laws : TokenCodecLaws C typed}.
Context (sha256 : string -> string) (token_from_json : string -> result TokenResponse string).
Hypothesis answers_typed : forall c r, token_from_json c = Ok r -> response_typed r.
Hypothesis loaded_typed : forall c t, token_from_str c = Ok t -> typed t.
Context (state_dir : path) (acct client_id : string).
Abbreviation store := (store_of state_dir).
Abbreviation loads := (load sha256 store acct).
Abbreviation readable := (readable sha256 store SECRET_SERVICE acct).
Abbreviation refreshed_with post t := (refresh_access_token token_from_json post (gw_token_endpoint t) client_id).

Lemma gateway_loads_typed s t : loads s = Ok (Some t) -> typed t.
Proof.
  unfold load, load_token, decode_stored. destruct (get_optional _ _ _ _ _) as [[c|]|]; [|done..].
  destruct (token_from_str c) eqn:Hc; [|done]. intros [= <-]. by eapply loaded_typed.
Qed.
Lemma bearer_decoded what body r :
  (let? response := decode_token_response token_from_json what body in bearer_only response) = Ok r -> response_typed r.
Proof.
  destruct body as [body|]; [|done]. simpl. destruct (token_from_json body) as [r0|] eqn:E; [|done]. simpl.
  unfold bearer_only. destruct (eq_ignore_ascii_case _ _); [|done]. intros [= <-]. by eapply answers_typed.
Qed.
Lemma refresh_answer_typed post endpoint refresh r :
  refresh_access_token token_from_json post endpoint client_id refresh = Ok r -> response_typed r.
Proof.
  unfold refresh_access_token. destruct (post _ _) as [|status body]; [done|]. destruct (error_for_status status); [|done].
  apply bearer_decoded.
Qed.
Lemma exchange_answer_typed post endpoint redirect code verifier r :
  exchange_authorization_code token_from_json post endpoint client_id redirect code verifier = Ok r -> response_typed r.
Proof.
  unfold exchange_authorization_code. destruct (post _ _) as [|status body]; [done|]. destruct (error_for_status status); [|done].
  apply bearer_decoded.
Qed.

(** Saved tokens are loaded; a failed save leaves the earlier ones. *)
Lemma gateway_save_loads rng t s r s' : typed t -> readable s -> save sha256 rng store acct t s = (r, s') ->
  readable s' /\ loads s' = (match r with Ok _ => Ok (Some t) | Err _ => loads s end).
Proof.
  intros Ht Hr H. apply (save_token_spec (typed := typed) sha256 "decode stored gateway OIDC token") in H; [|done].
  destruct r; [|split; [by eapply same_entry_readable|by eapply same_entry_load]].
  destruct H as [[? Hf] H]. split; [|by apply H]. unfold TokenStore.readable in *. by rewrite Hf.
Qed.

(** The tokens [stored_credential] answers with: usable ones, or the refreshed ones. *)
Definition refreshes (ev : stored_env) (s : fs) (t : StoredTokens) : Prop :=
  exists t0 refresh response, loads s = Ok (Some t0) /\ usable_at (ve_now ev) (gw_expires_at t0) = false /\
    gw_refresh_token t0 = Some refresh /\ refreshed_with (ve_post ev) t0 refresh = Ok response /\
    t = refreshed_tokens (ve_refreshed_at ev) t0 response.
(** No stored token can be used: there is none, or it has expired and cannot be
    refreshed. *)
Definition nothing_stored (ev : stored_env) (s : fs) : Prop :=
  loads s = Ok None \/
  exists t0, loads s = Ok (Some t0) /\ usable_at (ve_now ev) (gw_expires_at t0) = false /\
    (gw_refresh_token t0 = None \/
     exists refresh, gw_refresh_token t0 = Some refresh /\ is_ok (refreshed_with (ve_post ev) t0 refresh) = false).
Lemma stored_credential_spec ev s r s' :
  stored_credential sha256 token_from_json ev store acct client_id s = (r, s') ->
  readable s -> 0 <= ve_refreshed_at ev ->
  readable s' /\
  match r with
  | Ok (Some c) => exists t, loads s' = Ok (Some t) /\ c = as_credential t /\
      ((loads s = Ok (Some t) /\ usable_at (ve_now ev) (gw_expires_at t) = true) \/ refreshes ev s t)
  | Ok None => loads s' = loads s /\ nothing_stored ev s
  | Err _ => loads s' = loads s
  end.
Proof.
  intros H Hr Hnow. unfold stored_credential in H.
  destruct (loads s) as [[t|]|e] eqn:Hl;
    [|injection H as <- <-; split_and!; [done|done|by left]|by injection H as <- <-].
  destruct (usable_at (ve_now ev) _) eqn:Hu.
  { injection H as <- <-. split; [done|]. exists t. split_and!; try done. by left. }
  destruct (gw_refresh_token t) as [refresh|] eqn:Hrt.
  2: { injection H as <- <-. split_and!; [done|done|]. right. exists t. auto. }
  destruct (refreshed_with (ve_post ev) t refresh) as [response|] eqn:Href.
  2: { injection H as <- <-. split_and!; [done|done|]. right. exists t. split_and!; [done..|].
       right. exists refresh. by rewrite Href. }
  pose proof (refresh_answer_typed _ _ _ _ Href) as (Ha & Hrf & He). pose proof (gateway_loads_typed _ _ Hl) as (_ & Hr0 & _ & Hend).
  assert (typed (refreshed_tokens (ve_refreshed_at ev) t response)) as Ht.
  { unfold typed, refreshed_tokens; simpl. split_and!; try done; [by destruct (tr_refresh_token response)|by apply seconds_from_u64]. }
  apply st_bind_inv in H as [(e & H & ->)|([] & s1 & H & [= <- <-])]; apply gateway_save_loads in H as [Hr' Hs]; try done;
    (split; [done|]); [congruence|].
  eexists. split; [done|]. split; [done|]. right. by exists t, refresh, response.
Qed.
End account.

(** ** What a sign-in keeps *)

Section vetted.
Context {C : TokenCodec StoredTokens} {laws : TokenCodecLaws C typed} {G : TokenCodec GitHubOAuth.StoredTokens}.
Context (sha256 digest : string -> string) (parse_url : string -> result Url string) (url_str : Url -> string).
Context (metadata_from_json : string -> result ProviderMetadata string).
Context (token_from_json : string -> result TokenResponse string).
Context (github_result_from_json : string -> result TokenResult string) (github_code_from_json : string -> result DeviceCode string).
Hypothesis answers_typed : forall c r, token_from_json c = Ok r -> response_typed r.
Hypothesis loaded_typed : forall c t, token_from_str c = Ok t -> typed t.
Hypothesis url_text : forall u, utf8_valid (url_str u) = true.
Context (state_dir : path) (issuer : Url) (client_id redirect_uri : string) (scopes : list string)
  (allow_insecure : bool) (login : LoginOptions).
Abbreviation acct := (account url_str digest issuer client_id).
Abbreviation store := (store_of state_dir).
Abbreviation loads := (load sha256 store acct).
(** The two sign-ins keep their tokens in different entries. *)
Hypothesis github_elsewhere : forall github_client_id,
  entry_path sha256 store SECRET_SERVICE acct <> entry_path sha256 store GitHubOAuth.SECRET_SERVICE github_client_id.

(** A token endpoint that discovery accepted. *)
Definition vetted (endpoint : string) : Prop :=
  exists u, endpoint = url_str u /\ endpoint_allowed allow_insecure u = true.
Definition all_vetted (s : fs) : Prop := forall t, loads s = Ok (Some t) -> vetted (gw_token_endpoint t).

Lemma discover_vetted get m : discover url_str metadata_from_json get issuer allow_insecure = Ok m ->
  vetted (url_str (pm_token_endpoint m)).
Proof.
  unfold discover, check_endpoint. destruct (map_err _ _) as [m0|]; [|done]. simpl.
  destruct (endpoint_allowed _ (pm_authorization_endpoint m0)); [|done]. simpl.
  destruct (endpoint_allowed _ (pm_token_endpoint m0)) eqn:E; [|done]. simpl.
  destruct (match pm_device_authorization_endpoint m0 with Some _ => _ | None => _ end); [|done].
  intros [= <-]. by eexists.
Qed.

(** Tokens of a sign-in in the browser: the provider's metadata were accepted, the code
    is that of the first callback, which carried this sign-in's state, and it was
    exchanged at the provider's token endpoint, the one to refresh at. *)
Definition signed_in_by (ev : browser_env) (t : StoredTokens) : Prop :=
  exists m redirect query code response,
    discover url_str metadata_from_json (be_get ev) issuer allow_insecure = Ok m /\
    parse_url redirect_uri = Ok redirect /\ on_loopback redirect /\
    answered_first (IdentityPage (lo_subscription_available login) (is_some (lo_github_client_id login)))
      (be_page ev (authorization_url url_str (pm_authorization_endpoint m) client_id redirect scopes
        (be_state ev) (snd (be_pkce ev)))) (GetCallback query) /\
    cq_error query = None /\ cq_state query = Some (be_state ev) /\ cq_code query = Some code /\
    exchange_authorization_code token_from_json (ve_post (be_stored ev)) (url_str (pm_token_endpoint m)) client_id
      (url_str redirect) code (fst (be_pkce ev)) = Ok response /\
    t = new_tokens (be_signed_in_at ev) response (url_str (pm_token_endpoint m)).
(** The sign-in goes on to GitHub once it has its own tokens. *)
Definition goes_on_to_github : Prop :=
  lo_subscription_available login = false /\ is_Some (lo_github_client_id login).

Lemma signed_in_vetted ev t : signed_in_by ev t -> vetted (gw_token_endpoint t).
Proof. intros (m & redirect & query & code & response & Hd & H). apply discover_vetted in Hd. by destruct_and? H; subst. Qed.

Lemma refreshed_vetted ev s t : all_vetted s -> refreshes sha256 token_from_json state_dir acct client_id ev s t ->
  vetted (gw_token_endpoint t).
Proof. intros Hv (t0 & refresh & response & Hl & _ & _ & _ & ->). by apply Hv in Hl. Qed.

(** What a sign-in in the browser stores. *)
Lemma browser_sign_in_spec ev s pages r s' pages' : readable sha256 store SECRET_SERVICE acct s ->
  0 <= be_signed_in_at ev ->
  browser_sign_in sha256 digest parse_url url_str metadata_from_json token_from_json github_result_from_json
    github_code_from_json state_dir ev issuer client_id redirect_uri scopes allow_insecure login store (s, pages)
    = (r, (s', pages')) ->
  match r with
  | Ok t => loads s' = Ok (Some t) /\ signed_in_by ev t
  | Err _ => loads s' = loads s \/
      goes_on_to_github /\ exists t, loads s' = Ok (Some t) /\ signed_in_by ev t
  end.
Proof.
  intros Hr Hnow H. unfold browser_sign_in in H.
  apply st_bind_inv in H as [(e & [_ [= -> ->]]%lifted_inv & ->)|(m & st1 & [Hd ->]%lifted_inv & H)]; [by left|].
  apply st_bind_inv in H as [(e & [_ [= -> ->]]%lifted_inv & ->)|(url & st1 & [Hurl ->]%lifted_inv & H)]; [by left|].
  destruct (be_pkce ev) as [verifier challenge] eqn:Hpkce.
  apply st_bind_inv in H as [(e & [_ [= -> ->]]%lifted_inv & ->)|(code & st1 & [Hw ->]%lifted_inv & H)]; [by left|].
  apply st_bind_inv in H as [(e & [_ [= -> ->]]%lifted_inv & ->)|(code' & st1 & [Hcode ->]%lifted_inv & H)]; [by left|].
  apply st_bind_inv in H as [(e & [_ [= -> ->]]%lifted_inv & ->)|(tokens & st1 & [Hex ->]%lifted_inv & H)]; [by left|].
  set (stored := new_tokens _ _ _) in H. symmetry in Hd, Hex.
  destruct code as [code|]; [|done]. injection Hcode as ->.
  assert (parse_url redirect_uri = Ok url) as Hurl' by (destruct (parse_url redirect_uri); simplify_eq/=; done).
  assert (typed stored) as Ht.
  { pose proof (exchange_answer_typed _ answers_typed _ _ _ _ _ _ _ Hex) as (? & ? & ?).
    split_and!; try done; [by apply seconds_from_u64|by apply url_text]. }
  assert (signed_in_by ev stored) as Hsigned.
  { match type of Hw with Ok _ = map_err _ ?w => pose proof (wait_outcome url (be_state ev) (lo_callback_listen login)
      (IdentityPage (lo_subscription_available login) (is_some (lo_github_client_id login))) None (be_bound ev)
      (be_page ev (authorization_url url_str (pm_authorization_endpoint m) client_id url scopes (be_state ev) challenge)))
      as Hwait; destruct w as [o|]; [|done]; injection Hw as <- end.
    destruct Hwait as ([Hloop _] & query & Hq & He & Hs & Hc).
    exists m, url, query, code, tokens. rewrite Hpkce. split_and!; done. }
  apply st_bind_inv in H as [(e & H & ->)|([] & [s1 p1] & H & H2)]; unfold GitHubOAuth.on_files in H;
    destruct (save _ _ _ _ _ _) as [r0 s0] eqn:Es; injection H as -> <- <-;
    apply (gateway_save_loads sha256) in Es as [_ Hs]; try done; [by left|].
  unfold option_filter in H2.
  destruct (lo_github_client_id login) as [github_client_id|] eqn:Eg; [|by injection H2 as <- <- _].
  destruct (lo_subscription_available login) eqn:Ea; [by injection H2 as <- <- _|]. simpl in H2.
  assert (forall r1 s2 p2, GitHubOAuth.credential sha256 parse_url github_result_from_json github_code_from_json (be_github ev)
    github_client_id state_dir (Some (url, lo_callback_listen login)) (s0, pages) = (r1, (s2, p2)) -> loads s2 = Ok (Some stored)) as Hgh.
  { intros r1 s2 p2 H. apply (leaves_credential sha256 parse_url github_result_from_json github_code_from_json state_dir
      SECRET_SERVICE acct github_client_id (github_elsewhere _)) in H.
    unfold load in *. by rewrite (same_entry_load _ _ _ _ _ _ _ H). }
  apply st_bind_inv in H2 as [(e & H & ->)|(c & [s2 p2] & H & [= <- <- _])]; apply Hgh in H; [right|done].
  split; [split; [done|by rewrite Eg]|]. by exists stored.
Qed.

(** C13. A sign-in to the gateway's provider keeps its tokens, and only asks where it
    may. It answers with the stored token while that can be used, else with the one the
    stored endpoint refreshed it to, and signs in in the browser only when neither is
    there and the device flow is not asked for; what it answers with is what is stored.
    A new token is one exchanged for the code of a callback with this sign-in's state at
    the token endpoint the provider's metadata name. When it fails, what was stored
    stays, unless only GitHub's own sign-in, which comes after, failed. And the endpoint
    the next refresh goes to stays one that is HTTPS, or loopback HTTP where the
    configuration allows that, whatever the provider's metadata say. *)
Theorem gateway_sign_in_keeps_its_tokens ev pending s pages r s' pages' :
  credential_inner sha256 digest parse_url url_str metadata_from_json token_from_json github_result_from_json
    github_code_from_json state_dir ev pending issuer client_id redirect_uri scopes allow_insecure login (s, pages)
    = (r, (s', pages')) ->
  readable sha256 store SECRET_SERVICE acct s ->
  0 <= ve_refreshed_at (be_stored ev) -> 0 <= be_signed_in_at ev ->
  match r with
  | Ok acquired => exists t, loads s' = Ok (Some t) /\ ca_credential acquired = as_credential t /\
      if ca_interactive acquired
      then lo_device_authorization login = false /\
           nothing_stored sha256 token_from_json state_dir acct client_id (be_stored ev) s /\ signed_in_by ev t
      else (loads s = Ok (Some t) /\ usable_at (ve_now (be_stored ev)) (gw_expires_at t) = true) \/
           refreshes sha256 token_from_json state_dir acct client_id (be_stored ev) s t
  | Err _ => loads s' = loads s \/
      (lo_device_authorization login = false /\ goes_on_to_github /\
       exists t, loads s' = Ok (Some t) /\ signed_in_by ev t)
  end /\ (all_vetted s -> all_vetted s').
Proof.
  intros H Hr Hnow Hnow'.
  match goal with |- ?P /\ _ => enough P as Hmain; [split; [exact Hmain|]|] end.
  { intros Hv t Hl. destruct r as [acquired|e].
    - destruct Hmain as (t0 & Hl0 & _ & Hsrc). rewrite Hl0 in Hl. injection Hl as ->.
      destruct (ca_interactive acquired); [by eapply signed_in_vetted, Hsrc|].
      destruct Hsrc as [[Hl _]|Hsrc]; [by apply Hv|by eapply refreshed_vetted].
    - destruct Hmain as [Hsame|(_ & _ & t0 & Hl0 & Hs)]; [rewrite Hsame in Hl; by apply Hv|].
      rewrite Hl0 in Hl. injection Hl as ->. by eapply signed_in_vetted. }
  unfold credential_inner in H. unfold st_bind at 1, st_map_err at 1 in H.
  destruct (SecretStore_new state_dir s) as [r0 s0] eqn:Hnew.
  apply (SecretStore_new_entry sha256 _ _ _ _ SECRET_SERVICE acct) in Hnew as [Hsame Hstore].
  assert (loads s0 = loads s) as Hl0 by (unfold load; by rewrite (same_entry_load _ _ _ _ _ _ _ Hsame)).
  apply same_entry_readable in Hsame as Hr0; [|done].
  destruct r0 as [st0|e]; [subst st0|injection H as <- <- _; by left].
  assert (forall t, refreshes sha256 token_from_json state_dir acct client_id (be_stored ev) s0 t ->
    refreshes sha256 token_from_json state_dir acct client_id (be_stored ev) s t) as Href
    by (intros t; unfold refreshes; by rewrite Hl0).
  unfold st_bind at 1, st_map_err at 1, GitHubOAuth.on_files in H.
  destruct (stored_credential _ _ _ _ _ _ _) as [r1 s1] eqn:Es.
  apply (stored_credential_spec sha256 token_from_json answers_typed loaded_typed) in Es as [Hr1 Hs1]; [|done..].
  rewrite Hl0 in Hs1. destruct r1 as [[c|]|e].
  - injection H as <- <- _. destruct Hs1 as (t & Hl & Hc & Hsrc). exists t. simpl. naive_solver.
  - destruct Hs1 as [Hl1 Hnone]. unfold nothing_stored in Hnone. rewrite Hl0 in Hnone.
    destruct (lo_device_authorization login) eqn:Ed; [injection H as <- <- _; by left|].
    apply st_bind_inv in H as [(e & H & ->)|(t & [s2 p2] & H & [= <- <- _])];
      apply st_map_err_inv in H as (r2 & H & Hr2); apply browser_sign_in_spec in H; try done; destruct r2; try done.
    + rewrite Hl1 in H. naive_solver.
    + injection Hr2 as <-. destruct H as [Hl Hsigned]. exists t. simpl. split_and!; done.
  - injection H as <- <- _. by left.
Qed.
End vetted.
