(* ===== verification/GatewayLogins.v ===== *)
(** * Device sign-ins side by side ([crates/agent/src/gateway_oidc.rs])

    [device_login] as a step relation: calls for any accounts run beside each other,
    beside the tasks that poll for approval, and beside [credential]. A section of the
    code that holds [LOGIN] is one step (everything that reads or writes stored tokens
    holds it); what it reads of the pending sign-ins is read in that step. The lock of
    an account is held by the task that is [Starting] or [Requesting]. A caller may go
    away at any wait, which drops its task. *)

From stdpp Require Import countable.
From S2P Require Import Prelude Str Codec Fs Config Net Cache Credential SecretStore Identity SignIn TokenStore SubscriptionOAuth GitHubOAuth GatewayOidc.

Record login_args : Type := {
  la_issuer : Url;
  la_client_id : string;
  la_scopes : list string;
  la_allow_insecure : bool;
}.

(** Where a call of [device_login], or the task it spawned, is. *)
Inductive login_task : Type :=
| Checking (a : login_args)
| AwaitingStart (a : login_args)
| Starting (a : login_args)
| Requesting (a : login_args)
| Polling (a : login_args) (device : DeviceAuthorizationResponse) (token_endpoint : string)
| Finished (a : login_args) (device : DeviceAuthorizationResponse).

Record gateway : Type := {
  gs_fs : fs;
  gs_pending : gmap string PendingDeviceLogin;
  gs_tasks : gmap nat login_task;
  gs_next : nat;
}.

Definition task_args (t : login_task) : login_args :=
  match t with
  | Checking a | AwaitingStart a | Starting a | Requesting a | Polling a _ _ | Finished a _ => a
  end.
Definition holds_start (t : login_task) : bool :=
  match t with Starting _ | Requesting _ => true | _ => false end.
(** A grant that was asked for and is not over. *)
Definition grant_device (t : login_task) : option DeviceAuthorizationResponse :=
  match t with Polling _ device _ | Finished _ device => Some device | _ => None end.
Definition is_call (t : login_task) : bool :=
  match t with Polling _ _ _ | Finished _ _ => false | _ => true end.

(** What can happen. *)
Inductive login_event : Type :=
| Login (a : login_args)
| Check (k : nat) (ev : stored_env)
| Lock (k : nat)
| Recheck (k : nat) (ev : stored_env)
| Granted (k : nat) (get : string -> http_answer) (post : string -> form -> http_answer)
| TimedOut (k : nat)
| Dropped (k : nat)
| Polled (k : nat) (answers : nat -> Z -> poll_answer) (polling_since saved_at : Z) (rng : nat -> Z)
| Cleared (k : nat)
| Credential (ev : browser_env) (a : login_args) (redirect_uri : string) (login : LoginOptions).

Section machine.
Context {C : TokenCodec StoredTokens} {G : TokenCodec GitHubOAuth.StoredTokens} (sha256 digest : string -> string).
Context (parse_url : string -> result Url string) (url_str : Url -> string).
Context (metadata_from_json : string -> result ProviderMetadata string).
Context (device_from_json : string -> result DeviceAuthorizationResponse string).
Context (token_from_json : string -> result TokenResponse string) (error_from_json : string -> option (string * option string)).
Context (github_result_from_json : string -> result TokenResult string) (github_code_from_json : string -> result DeviceCode string).
Context (state_dir : path).

Definition account_of (a : login_args) : string := account url_str digest (la_issuer a) (la_client_id a).

Definition with_gs_fs (s : fs) (g : gateway) : gateway :=
  {| gs_fs := s; gs_pending := gs_pending g; gs_tasks := gs_tasks g; gs_next := gs_next g |}.
Definition with_gs_tasks (ts : gmap nat login_task) (g : gateway) : gateway :=
  {| gs_fs := gs_fs g; gs_pending := gs_pending g; gs_tasks := ts; gs_next := gs_next g |}.
Definition with_gs_pending (p : gmap string PendingDeviceLogin) (g : gateway) : gateway :=
  {| gs_fs := gs_fs g; gs_pending := p; gs_tasks := gs_tasks g; gs_next := gs_next g |}.
Definition set_task (k : nat) (t : login_task) (g : gateway) : gateway := with_gs_tasks (<[k := t]> (gs_tasks g)) g.
Definition end_task (k : nat) (g : gateway) : gateway := with_gs_tasks (delete k (gs_tasks g)) g.

(** [device_login_status]. *)
Definition device_login_status (ev : stored_env) (a : login_args) (g : gateway)
  : result (option LlmGatewayLoginStatus) anyerror * gateway :=
  match SecretStore_new state_dir (gs_fs g) with
  | (Err e, s) => (Err (plain_error e), with_gs_fs s g)
  | (Ok store, s) =>
      match stored_credential sha256 token_from_json ev store (account_of a) (la_client_id a) s with
      | (Err e, s) => (Err e, with_gs_fs s g)
      | (Ok (Some _), s) => (Ok (Some signed_in), with_gs_fs s g)
      | (Ok None, s) => (Ok (awaiting <$> gs_pending g !! account_of a), with_gs_fs s g)
      end
  end.

(** The answer of a call, if a step gives one. *)
Definition answer : Type := option (login_args * result LlmGatewayLoginStatus anyerror).

(** A status check of the call [k]: it answers, or goes on as [next]. *)
Definition check_status (ev : stored_env) (k : nat) (a : login_args) (next : login_task) (g : gateway) : answer * gateway :=
  match device_login_status ev a g with
  | (Err e, g) => (Some (a, Err e), end_task k g)
  | (Ok (Some status), g) => (Some (a, Ok status), end_task k g)
  | (Ok None, g) => (None, set_task k next g)
  end.

(** Whether the lock of an account is free. *)
Definition start_free (acct : string) (g : gateway) : bool :=
  forallb (fun '(_, t) => negb (holds_start t && String.eqb (account_of (task_args t)) acct)) (map_to_list (gs_tasks g)).

Definition device_timed_out : anyerror := plain_error "OIDC device authorization timed out".

(** [complete_device_login] once the polling has its tokens; its error is logged. *)
Definition store_tokens (rng : nat -> Z) (saved_at : Z) (a : login_args) (token_endpoint : string) (tokens : TokenResponse)
    (s : fs) : fs :=
  match SecretStore_new state_dir s with
  | (Err _, s) => s
  | (Ok store, s) => snd (save sha256 rng store (account_of a) (new_tokens saved_at tokens token_endpoint) s)
  end.

Definition login_step (e : login_event) (g : gateway) : option (answer * gateway) :=
  match e with
  | Login a =>
      Some (None, {| gs_fs := gs_fs g; gs_pending := gs_pending g;
                     gs_tasks := <[gs_next g := Checking a]> (gs_tasks g); gs_next := S (gs_next g) |})
  | Check k ev =>
      match gs_tasks g !! k with
      | Some (Checking a) => Some (check_status ev k a (AwaitingStart a) g)
      | _ => None
      end
  | Lock k =>
      match gs_tasks g !! k with
      | Some (AwaitingStart a) =>
          if start_free (account_of a) g then Some (None, set_task k (Starting a) g) else None
      | _ => None
      end
  | Recheck k ev =>
      match gs_tasks g !! k with
      | Some (Starting a) => Some (check_status ev k a (Requesting a) g)
      | _ => None
      end
  | Granted k get post =>
      match gs_tasks g !! k with
      | Some (Requesting a) =>
          Some (match request_device_grant parse_url url_str metadata_from_json device_from_json get post
                        (la_issuer a) (la_client_id a) (la_scopes a) (la_allow_insecure a) with
                | Ok (metadata, device) =>
                    (Some (a, Ok (awaiting (pending_from device))),
                     with_gs_pending (<[account_of a := pending_from device]> (gs_pending g))
                       (set_task k (Polling a device (url_str (pm_token_endpoint metadata))) g))
                | Err e => (Some (a, Err e), end_task k g)
                end)
      | _ => None
      end
  | TimedOut k =>
      match gs_tasks g !! k with
      | Some (Requesting a) => Some (Some (a, Err device_timed_out), end_task k g)
      | _ => None
      end
  | Dropped k =>
      match gs_tasks g !! k with
      | Some t => if is_call t then Some (None, end_task k g) else None
      | None => None
      end
  | Polled k answers polling_since saved_at rng =>
      match gs_tasks g !! k with
      | Some (Polling a device token_endpoint) =>
          match poll_device_token token_from_json error_from_json
                  (SignIn.poll_fuel (poll_interval device) (secs (da_expires_in device)))
                  answers polling_since (poll_interval device) (secs (da_expires_in device)) with
          | Some (Ok tokens, _, _) =>
              Some (None, set_task k (Finished a device)
                            (with_gs_fs (store_tokens rng saved_at a token_endpoint tokens (gs_fs g)) g))
          | Some (Err _, _, _) => Some (None, set_task k (Finished a device) g)
          | None => None
          end
      | _ => None
      end
  | Cleared k =>
      match gs_tasks g !! k with
      | Some (Finished a device) =>
          Some (None, with_gs_pending (delete (account_of a) (gs_pending g)) (end_task k g))
      | _ => None
      end
  | Credential ev a redirect_uri login =>
      let '(_, (s, _)) := credential_inner sha256 digest parse_url url_str metadata_from_json token_from_json
        github_result_from_json github_code_from_json state_dir ev (gs_pending g !! account_of a) (la_issuer a)
        (la_client_id a) redirect_uri (la_scopes a) (la_allow_insecure a) login (gs_fs g, []) in
      Some (None, with_gs_fs s g)
  end.

Inductive login_steps : gateway -> gateway -> Prop :=
| login_steps_refl g : login_steps g g
| login_steps_snoc g g1 g2 e r : login_steps g g1 -> login_step e g1 = Some (r, g2) -> login_steps g g2.

Definition idle (s : fs) : gateway := {| gs_fs := s; gs_pending := ∅; gs_tasks := ∅; gs_next := 0%nat |}.
End machine.

(** ** Grants *)

Section grants.
Context {C : TokenCodec StoredTokens} {G : TokenCodec GitHubOAuth.StoredTokens} (sha256 digest : string -> string).
Context (parse_url : string -> result Url string) (url_str : Url -> string).
Context (metadata_from_json : string -> result ProviderMetadata string).
Context (device_from_json : string -> result DeviceAuthorizationResponse string).
Context (token_from_json : string -> result TokenResponse string) (error_from_json : string -> option (string * option string)).
Context (github_result_from_json : string -> result TokenResult string) (github_code_from_json : string -> result DeviceCode string).
Context (state_dir : path).
(** Lifetimes are unsigned. *)
Hypothesis devices_typed : forall c d, device_from_json c = Ok d -> 0 <= da_expires_in d.
Abbreviation account_of := (account_of digest url_str).
Abbreviation account_at t := (account_of (task_args t)).
Abbreviation check_status := (check_status sha256 digest url_str token_from_json state_dir).
Abbreviation step := (login_step sha256 digest parse_url url_str metadata_from_json device_from_json token_from_json
  error_from_json github_result_from_json github_code_from_json state_dir).
Abbreviation steps := (login_steps sha256 digest parse_url url_str metadata_from_json device_from_json token_from_json
  error_from_json github_result_from_json github_code_from_json state_dir).

(** A validated grant can be polled, and not for long. *)
Definition valid_device (device : DeviceAuthorizationResponse) : Prop :=
  1 <= da_expires_in device <= 1800 /\ da_device_code device <> "" /\ da_user_code device <> "".

Record orderly (g : gateway) : Prop := {
  or_fresh k t : gs_tasks g !! k = Some t -> (k < gs_next g)%nat;
  or_start k k' t t' : gs_tasks g !! k = Some t -> gs_tasks g !! k' = Some t' ->
    holds_start t = true -> holds_start t' = true -> account_at t = account_at t' -> k = k';
  or_grant k k' t t' : gs_tasks g !! k = Some t -> gs_tasks g !! k' = Some t' ->
    is_Some (grant_device t) -> is_Some (grant_device t') -> account_at t = account_at t' -> k = k';
  or_pending k t device : gs_tasks g !! k = Some t -> grant_device t = Some device ->
    gs_pending g !! account_at t = Some (pending_from device) /\ valid_device device;
  or_live acct p : gs_pending g !! acct = Some p ->
    exists k t device, gs_tasks g !! k = Some t /\ grant_device t = Some device /\ account_at t = acct /\
      p = pending_from device;
  or_requesting k a : gs_tasks g !! k = Some (Requesting a) -> gs_pending g !! account_of a = None;
}.

Lemma orderly_idle s : orderly (idle s).
Proof. split; simpl; intros *; rewrite ?lookup_empty; done. Qed.
Lemma orderly_fs s g : orderly g -> orderly (with_gs_fs s g).
Proof. by intros []. Qed.

Lemma start_free_spec acct g : start_free digest url_str acct g = true <->
  forall k t, gs_tasks g !! k = Some t -> holds_start t = true -> account_at t <> acct.
Proof.
  unfold start_free. rewrite forallb_forall. split.
  - intros H k t Hk Hs Ha. specialize (H (k, t)). simpl in H. rewrite Hs, Ha, String.eqb_refl in H.
    discriminate H. apply list_elem_of_In. by apply elem_of_map_to_list.
  - intros H [k t] Hin%list_elem_of_In%elem_of_map_to_list. destruct (holds_start t) eqn:Hs; [|done].
    simpl. apply negb_true_iff, String.eqb_neq. by eapply H.
Qed.

(** A task goes on to another point of the same call or grant. *)
Lemma orderly_set k t0 t g : orderly g -> gs_tasks g !! k = Some t0 ->
  task_args t = task_args t0 -> grant_device t = grant_device t0 ->
  (holds_start t = true -> holds_start t0 = true \/ start_free digest url_str (account_at t) g = true) ->
  (forall a, t = Requesting a -> gs_pending g !! account_of a = None) -> orderly (set_task k t g).
Proof.
  intros [Hf Hs Hg Hp Hl Hr] Hk Ha Hd Hstart Hreq.
  assert (forall k' t', holds_start t = true -> k' <> k -> gs_tasks g !! k' = Some t' -> holds_start t' = true ->
    account_at t <> account_at t') as Hother.
  { intros k' t' H Hne Hk' H' Hacc. destruct (Hstart H) as [H0|Hfree].
    - apply Hne. eapply Hs; try done. by rewrite <- Hacc, Ha.
    - rewrite start_free_spec in Hfree. by apply (Hfree _ _ Hk' H'). }
  split; unfold set_task; simpl.
  - intros k' t' [[<- <-]|[_ H]]%lookup_insert_Some; by eapply Hf.
  - intros k1 k2 t1 t2 [[<- <-]|[Hne1 H1]]%lookup_insert_Some [[<- <-]|[Hne2 H2]]%lookup_insert_Some; try done.
    + intros Ht Ht2 Hacc. by destruct (Hother k2 t2 Ht (not_eq_sym Hne2) H2 Ht2).
    + intros Ht1 Ht Hacc. by destruct (Hother k1 t1 Ht (not_eq_sym Hne1) H1 Ht1).
    + by apply Hs.
  - intros k1 k2 t1 t2 [[<- <-]|[Hne1 H1]]%lookup_insert_Some [[<- <-]|[Hne2 H2]]%lookup_insert_Some; try done;
      rewrite ?Ha, ?Hd; eauto.
  - intros k1 t1 device [[<- <-]|[Hne1 H1]]%lookup_insert_Some; rewrite ?Ha, ?Hd; eauto.
  - intros acct p (k1 & t1 & device & H1 & Hd1 & Ha1 & ->)%Hl. destruct (decide (k1 = k)) as [->|Hne].
    + exists k, t, device. rewrite lookup_insert_eq. simplify_eq. by rewrite Ha, Hd.
    + exists k1, t1, device. by rewrite lookup_insert_ne.
  - intros k1 a [[<- ->]|[Hne1 H1]]%lookup_insert_Some; [by apply Hreq|by eapply Hr].
Qed.
Lemma orderly_end k t0 g : orderly g -> gs_tasks g !! k = Some t0 -> grant_device t0 = None -> orderly (end_task k g).
Proof.
  intros [Hf Hs Hg Hp Hl Hr] Hk Hd. split; unfold end_task; simpl.
  - intros k' t' [_ H]%lookup_delete_Some. by eapply Hf.
  - intros k1 k2 t1 t2 [_ H1]%lookup_delete_Some [_ H2]%lookup_delete_Some. by apply Hs.
  - intros k1 k2 t1 t2 [_ H1]%lookup_delete_Some [_ H2]%lookup_delete_Some. by apply Hg.
  - intros k1 t1 device [_ H1]%lookup_delete_Some. by apply (Hp k1).
  - intros acct p (k1 & t1 & device & H1 & Hd1 & Ha1 & ->)%Hl. exists k1, t1, device.
    rewrite lookup_delete_ne; [done|]. intros ->. simplify_eq.
  - intros k1 a [_ H1]%lookup_delete_Some. by eapply Hr.
Qed.
Lemma orderly_login a g : orderly g ->
  orderly {| gs_fs := gs_fs g; gs_pending := gs_pending g;
             gs_tasks := <[gs_next g := Checking a]> (gs_tasks g); gs_next := S (gs_next g) |}.
Proof.
  intros [Hf Hs Hg Hp Hl Hr]. split; simpl.
  - intros k t [[<- <-]|[_ H%Hf]]%lookup_insert_Some; lia.
  - intros k1 k2 t1 t2 [[<- <-]|[_ H1]]%lookup_insert_Some [[<- <-]|[_ H2]]%lookup_insert_Some; try done. by apply Hs.
  - intros k1 k2 t1 t2 [[<- <-]|[_ H1]]%lookup_insert_Some [[<- <-]|[_ H2]]%lookup_insert_Some; simpl;
      try (intros [? ?]; done); try (intros ? [? ?]; done). by apply Hg.
  - intros k1 t1 device [[<- <-]|[_ H1]]%lookup_insert_Some; [done|]. by apply (Hp k1).
  - intros acct p (k1 & t1 & device & H1 & Hd1 & Ha1 & ->)%Hl. exists k1, t1, device.
    rewrite lookup_insert_ne; [done|]. apply Hf in H1. lia.
  - intros k1 b [[_ [=]]|[_ H1]]%lookup_insert_Some. by eapply Hr.
Qed.
Lemma orderly_granted k a device endpoint g : orderly g -> gs_tasks g !! k = Some (Requesting a) -> valid_device device ->
  orderly (with_gs_pending (<[account_of a := pending_from device]> (gs_pending g)) (set_task k (Polling a device endpoint) g)).
Proof.
  intros [Hf Hs Hg Hp Hl Hr] Hk Hv. pose proof (Hr _ _ Hk) as Hnone.
  assert (forall k' t', gs_tasks g !! k' = Some t' -> is_Some (grant_device t') -> account_at t' <> account_of a) as Hother.
  { intros k' t' Hk' [d Hd] Ha. destruct (Hp _ _ _ Hk' Hd) as [H _]. rewrite Ha in H. congruence. }
  split; unfold set_task; simpl.
  - intros k' t' [[<- <-]|[_ H]]%lookup_insert_Some; by eapply Hf.
  - intros k1 k2 t1 t2 [[<- <-]|[_ H1]]%lookup_insert_Some [[<- <-]|[_ H2]]%lookup_insert_Some; try done. by apply Hs.
  - intros k1 k2 t1 t2 [[<- <-]|[_ H1]]%lookup_insert_Some [[<- <-]|[_ H2]]%lookup_insert_Some; simpl; try done.
    + intros _ H Hacc. by destruct (Hother _ _ H2 H).
    + intros H _ Hacc. by destruct (Hother _ _ H1 H).
    + by apply Hg.
  - intros k1 t1 d [[<- <-]|[_ H1]]%lookup_insert_Some Hd; simpl in *.
    + injection Hd as <-. by rewrite lookup_insert_eq.
    + rewrite lookup_insert_ne; [by apply (Hp k1)|]. intros H. by apply (Hother _ _ H1); [rewrite Hd|].
  - intros acct p [[<- <-]|[Hne (k1 & t1 & d & H1 & Hd & Ha & ->)%Hl]]%lookup_insert_Some.
    + exists k, (Polling a device endpoint), device. by rewrite lookup_insert_eq.
    + exists k1, t1, d. rewrite lookup_insert_ne; [done|]. intros ->. by simplify_eq.
  - intros k1 b [[_ [=]]|[Hne H1]]%lookup_insert_Some. rewrite lookup_insert_ne; [by eapply Hr|].
    intros Hacc. apply Hne. by apply (Hs _ _ _ _ Hk H1).
Qed.
Lemma orderly_cleared k a device g : orderly g -> gs_tasks g !! k = Some (Finished a device) ->
  orderly (with_gs_pending (delete (account_of a) (gs_pending g)) (end_task k g)).
Proof.
  intros [Hf Hs Hg Hp Hl Hr] Hk. split; unfold end_task; simpl.
  - intros k' t' [_ H]%lookup_delete_Some. by eapply Hf.
  - intros k1 k2 t1 t2 [_ H1]%lookup_delete_Some [_ H2]%lookup_delete_Some. by apply Hs.
  - intros k1 k2 t1 t2 [_ H1]%lookup_delete_Some [_ H2]%lookup_delete_Some. by apply Hg.
  - intros k1 t1 d [Hne H1]%lookup_delete_Some Hd. rewrite lookup_delete_ne; [by apply (Hp k1)|].
    intros Ha. apply Hne. apply (Hg _ _ _ _ Hk H1); [by eexists|by eexists|done].
  - intros acct p [Hne (k1 & t1 & d & H1 & Hd & Ha & ->)%Hl]%lookup_delete_Some. exists k1, t1, d.
    rewrite lookup_delete_ne; [done|]. intros ->. simplify_eq.
  - intros k1 b [_ H1]%lookup_delete_Some. apply lookup_delete_None. right. by eapply Hr.
Qed.

Lemma granted_valid get post issuer client_id scopes allow m d :
  request_device_grant parse_url url_str metadata_from_json device_from_json get post issuer client_id scopes allow = Ok (m, d) ->
  valid_device d.
Proof.
  unfold request_device_grant. destruct (discover _ _ _ _ _) as [m0|]; [|done]. simpl.
  destruct (ok_or _ _) as [endpoint|]; [|done]. simpl.
  assert (forall r, match post (url_str endpoint) (device_authorization_form client_id scopes) with
    | NoAnswer => Err (in_context "request OIDC device authorization" transport_error)
    | Answer status body =>
        let? _ := map_err (in_context "OIDC device authorization endpoint returned an error") (error_for_status status) in
        map_err (in_context "decode OIDC device authorization response") (body_json device_from_json body)
    end = Ok r -> 0 <= da_expires_in r) as Htyped.
  { intros r. destruct (post _ _) as [|status [body|]]; [done|..]; simpl; (destruct (error_for_status status); [|done]); [|done].
    simpl. destruct (device_from_json body) eqn:E; [|done]. intros [= <-]. by eapply devices_typed. }
  destruct (match post _ _ with NoAnswer => _ | Answer _ _ => _ end) as [r|]; [|done]. specialize (Htyped r eq_refl). simpl.
  destruct (validate_device parse_url r) as [d0|] eqn:Hv; [|done]. simpl. intros [= <- <-].
  unfold validate_device in Hv. destruct (is_empty (da_device_code r)) eqn:H1; [done|].
  destruct (is_empty (da_user_code r)) eqn:H2; [done|]. simpl in Hv. destruct (map_err _ _); [|done]. simpl in Hv.
  change (MAX_DEVICE_LIFETIME / secs 1) with 1800 in Hv.
  destruct (Z.eqb_spec (Z.min (da_expires_in r) 1800) 0) as [|Hne]; [done|]. injection Hv as <-.
  split; simpl; [lia|]. by destruct (da_device_code r), (da_user_code r).
Qed.

(** The tasks and pending sign-ins after a status check. *)
Lemma device_login_status_same ev a g r g' :
  device_login_status sha256 digest url_str token_from_json state_dir ev a g = (r, g') ->
  exists s, g' = with_gs_fs s g.
Proof.
  unfold device_login_status. destruct (SecretStore_new _ _) as [[store|e] s]; [|intros [= _ <-]; by eexists].
  destruct (stored_credential _ _ _ _ _ _ _) as [[[c|]|e] s1]; intros [= _ <-]; by eexists.
Qed.
Lemma check_status_orderly ev k a t0 next g r g' : orderly g -> gs_tasks g !! k = Some t0 -> grant_device t0 = None ->
  check_status ev k a next g = (r, g') ->
  task_args next = task_args t0 -> grant_device next = None ->
  (holds_start next = true -> holds_start t0 = true) ->
  (forall b, next = Requesting b -> b = a) -> orderly g'.
Proof.
  intros Ho Hk Hd0 H Ha Hd Hstart Hreq. unfold GatewayLogins.check_status in H.
  destruct (device_login_status _ _ _ _ _ _ _ _) as [r0 g0] eqn:E. pose proof E as E0.
  apply device_login_status_same in E as [s ->]. pose proof (orderly_fs s _ Ho) as Ho'.
  destruct r0 as [[status|]|e]; injection H as _ <-; [by eapply orderly_end| |by eapply orderly_end].
  eapply orderly_set; [done|done|done|congruence|by auto|].
  intros b Hb. apply Hreq in Hb as ->. simpl. unfold device_login_status in E0.
  destruct (SecretStore_new _ _) as [[store|e] s0]; [|done]. destruct (stored_credential _ _ _ _ _ _ _) as [[[c|]|e] s1]; [done| |done].
  destruct (gs_pending g !! account_of a); [done|done].
Qed.

Lemma login_step_orderly e g r g' : step e g = Some (r, g') -> orderly g -> orderly g'.
Proof.
  intros H Ho. destruct e as [a|k ev|k|k ev|k get post|k|k|k answers since saved rng|k|ev a redirect login]; simpl in H.
  - injection H as _ <-. by apply orderly_login.
  - destruct (gs_tasks g !! k) as [[a| | | | |]|] eqn:Hk; try done. injection H as H. by eapply check_status_orderly.
  - destruct (gs_tasks g !! k) as [[|a| | | |]|] eqn:Hk; try done. destruct (start_free _ _ _ _) eqn:Hfree; [|done].
    injection H as _ <-. eapply orderly_set; [done..|by right|done].
  - destruct (gs_tasks g !! k) as [[| |a| | |]|] eqn:Hk; try done. injection H as H.
    eapply check_status_orderly; try done. by intros b [= ->].
  - destruct (gs_tasks g !! k) as [[| | |a| |]|] eqn:Hk; try done. destruct (request_device_grant _ _ _ _ _ _ _ _ _ _) as [[m d]|e] eqn:Hreq.
    + injection H as _ <-. apply orderly_granted; [done..|by eapply granted_valid].
    + injection H as _ <-. by eapply orderly_end.
  - destruct (gs_tasks g !! k) as [[| | |a| |]|] eqn:Hk; try done. injection H as _ <-. by eapply orderly_end.
  - destruct (gs_tasks g !! k) as [t|] eqn:Hk; [|done]. destruct (is_call t) eqn:Hc; [|done]. injection H as _ <-.
    eapply orderly_end; [done..|by destruct t].
  - destruct (gs_tasks g !! k) as [[| | | |a device endpoint|]|] eqn:Hk; try done.
    destruct (poll_device_token _ _ _ _ _ _ _) as [[[[tokens|e] t] asked]|]; try done; injection H as _ <-;
      (eapply orderly_set; [try apply orderly_fs; done|done|done|done|done|done]).
  - destruct (gs_tasks g !! k) as [[| | | | |a device]|] eqn:Hk; try done. injection H as _ <-. by eapply orderly_cleared.
  - destruct (credential_inner _ _ _ _ _ _ _ _ _ _ _ _ _ _ _ _ _ _) as [r0 [s pages]]. injection H as _ <-. by apply orderly_fs.
Qed.
Lemma login_steps_orderly g g' : steps g g' -> orderly g -> orderly g'.
Proof. induction 1 as [|g g1 g2 e r _ IH H]; [done|]. intros Ho. by eapply login_step_orderly, IH. Qed.

(** A grant that is being requested or polled. *)
Definition in_progress (t : login_task) : bool :=
  match t with Requesting _ | Polling _ _ _ | Finished _ _ => true | _ => false end.

Lemma in_progress_unique g k k' t t' : orderly g ->
  gs_tasks g !! k = Some t -> gs_tasks g !! k' = Some t' -> in_progress t = true -> in_progress t' = true ->
  account_at t = account_at t' -> k = k'.
Proof.
  intros Ho Hk Hk' Ht Ht' Ha.
  assert (forall k k' t a, gs_tasks g !! k = Some t -> is_Some (grant_device t) -> gs_tasks g !! k' = Some (Requesting a) ->
    account_at t = account_of a -> False) as Hno.
  { intros k1 k2 t1 a H1 [d Hd] H2 Hacc. destruct (or_pending _ Ho _ _ _ H1 Hd) as [Hp _].
    rewrite Hacc, (or_requesting _ Ho _ _ H2) in Hp. done. }
  destruct t as [| | |a|a d e|a d], t' as [| | |a'|a' d' e'|a' d']; try done.
  1: by apply (or_start _ Ho _ _ _ _ Hk Hk').
  1,2: exfalso; apply (Hno _ _ _ _ Hk' ltac:(by eexists) Hk); done.
  1,4: exfalso; apply (Hno _ _ _ _ Hk ltac:(by eexists) Hk'); done.
  all: apply (or_grant _ Ho _ _ _ _ Hk Hk'); [by eexists..|done].
Qed.

(** C17. One device grant at a time. However calls of [device_login], their callers'
    departures, polls, failures and other sign-ins interleave, at most one grant of an
    account is being requested or polled, so the provider is never asked for a
    second code while one is pending; and what is published as pending is exactly the
    grant that is being polled, with its code. *)
Theorem one_device_grant_at_a_time s g : steps (idle s) g ->
  (forall k k' t t', gs_tasks g !! k = Some t -> gs_tasks g !! k' = Some t' ->
     in_progress t = true -> in_progress t' = true -> account_at t = account_at t' -> k = k') /\
  (forall acct p, gs_pending g !! acct = Some p <->
     exists k t device, gs_tasks g !! k = Some t /\ grant_device t = Some device /\ account_at t = acct /\
       p = pending_from device).
Proof.
  intros Hs. pose proof (login_steps_orderly _ _ Hs (orderly_idle s)) as Ho. split.
  - intros *. by apply in_progress_unique.
  - intros acct p. split; [by apply (or_live _ Ho)|]. intros (k & t & device & Hk & Hd & <- & ->).
    by destruct (or_pending _ Ho _ _ _ Hk Hd).
Qed.

(** *** Answers *)

Context {laws : TokenCodecLaws C typed}.
Hypothesis answers_typed : forall c r, token_from_json c = Ok r -> response_typed r.
Hypothesis loaded_typed : forall c t, token_from_str c = Ok t -> typed t.
Abbreviation loads acct := (load sha256 (store_of state_dir) acct).
Abbreviation reads acct := (readable sha256 (store_of state_dir) SECRET_SERVICE acct).

(** The clock and the provider of a status check. *)
Definition event_env (e : login_event) : option stored_env :=
  match e with Check _ ev | Recheck _ ev => Some ev | _ => None end.
(** The stored tokens after the check were usable, or the provider just refreshed them. *)
Definition signed_in_now (ev : stored_env) (a : login_args) (s s' : fs) : Prop :=
  exists t, loads (account_of a) s' = Ok (Some t) /\
    ((loads (account_of a) s = Ok (Some t) /\ usable_at (ve_now ev) (gw_expires_at t) = true) \/
     refreshes sha256 token_from_json state_dir (account_of a) (la_client_id a) ev s t).
Definition grant_of (a : login_args) (g : gateway) (device : DeviceAuthorizationResponse) : Prop :=
  exists k t, gs_tasks g !! k = Some t /\ grant_device t = Some device /\ account_at t = account_of a.

Lemma check_status_true ev k a t0 next g a' status g' : orderly g -> gs_tasks g !! k = Some t0 -> grant_device t0 = None ->
  reads (account_of a) (gs_fs g) -> 0 <= ve_refreshed_at ev ->
  check_status ev k a next g = (Some (a', Ok status), g') ->
  a' = a /\ (status = signed_in /\ signed_in_now ev a (gs_fs g) (gs_fs g') \/
            exists device, grant_of a g' device /\ status = awaiting (pending_from device)).
Proof.
  intros Ho Hk Hd0 Hr Hnow H. unfold GatewayLogins.check_status, device_login_status in H.
  destruct (SecretStore_new state_dir (gs_fs g)) as [r0 s0] eqn:Hnew.
  apply (SecretStore_new_entry sha256 _ _ _ _ SECRET_SERVICE (account_of a)) in Hnew as [Hs Hstore].
  destruct r0 as [store|e]; [subst store|done].
  destruct (stored_credential _ _ _ _ _ _ s0) as [r1 s1] eqn:Es.
  apply (stored_credential_spec sha256 token_from_json answers_typed loaded_typed) in Es as [_ Hsrc];
    [|by eapply same_entry_readable|done].
  destruct r1 as [[c|]|e]; [| |done].
  - injection H as <- <- <-. split; [done|]. left. split; [done|]. simpl.
    destruct Hsrc as (t & Hl & _ & Hsrc). exists t. split; [done|].
    assert (loads (account_of a) s0 = loads (account_of a) (gs_fs g)) as Hsame by by apply same_entry_load.
    unfold refreshes in *. rewrite <- Hsame. done.
  - simpl in H. destruct (gs_pending g !! account_of a) as [p|] eqn:Hp; [|done]. injection H as <- <- <-.
    split; [done|]. right. apply (or_live _ Ho) in Hp as (k1 & t & device & Hk1 & Hd & Ha & ->).
    exists device. split; [|done]. exists k1, t. simpl. rewrite lookup_delete_ne; [done|]. intros ->. simplify_eq.
Qed.

(** What a caller of [device_login] is told is so. "signedIn" is said only when
    usable tokens of the account are stored, or the provider has just refreshed them
    and they are stored; and the code a caller is given is that of the account's
    grant, whose approval a task is waiting for when the answer is given. *)
Theorem device_login_answers_are_true s g e a status g' :
  steps (idle s) g -> step e g = Some (Some (a, Ok status), g') ->
  reads (account_of a) (gs_fs g) -> (forall ev, event_env e = Some ev -> 0 <= ve_refreshed_at ev) ->
  (status = signed_in /\ exists ev, event_env e = Some ev /\ signed_in_now ev a (gs_fs g) (gs_fs g')) \/
  exists device, grant_of a g' device /\ status = awaiting (pending_from device).
Proof.
  intros Hs Hstep Hr Hnow. pose proof (login_steps_orderly _ _ Hs (orderly_idle s)) as Ho.
  assert (forall ev k b t0 next, event_env e = Some ev -> gs_tasks g !! k = Some t0 -> grant_device t0 = None ->
    check_status ev k b next g = (Some (a, Ok status), g') ->
    (status = signed_in /\ exists ev, event_env e = Some ev /\ signed_in_now ev a (gs_fs g) (gs_fs g')) \/
    exists device, grant_of a g' device /\ status = awaiting (pending_from device)) as Hcheck.
  { intros ev k b t0 next He Hk Hd H.
    assert (a = b) as -> by (unfold GatewayLogins.check_status in H; by destruct (device_login_status _ _ _ _ _ _ _ _) as [[[]|] ?]; simplify_eq).
    eapply check_status_true in H as [_ H]; [|done..|by apply Hnow]. naive_solver. }
  destruct e as [b|k ev|k|k ev|k get post|k|k|k answers since saved rng|k|ev b redirect login]; simpl in Hstep; try done.
  - destruct (gs_tasks g !! k) as [[b| | | | |]|] eqn:Hk; try done. injection Hstep as H. by eapply Hcheck.
  - destruct (gs_tasks g !! k) as [[|b| | | |]|] eqn:Hk; try done. by destruct (start_free _ _ _ _).
  - destruct (gs_tasks g !! k) as [[| |b| | |]|] eqn:Hk; try done. injection Hstep as H. by eapply Hcheck.
  - destruct (gs_tasks g !! k) as [[| | |b| |]|] eqn:Hk; try done.
    destruct (request_device_grant _ _ _ _ _ _ _ _ _ _) as [[m d]|]; [|done]. injection Hstep as <- <- <-. right.
    exists d. split; [|done]. exists k, (Polling b d (url_str (pm_token_endpoint m))). simpl. by rewrite lookup_insert_eq.
  - by destruct (gs_tasks g !! k) as [[| | |b| |]|].
  - destruct (gs_tasks g !! k) as [t|]; [|done]. by destruct (is_call t).
  - destruct (gs_tasks g !! k) as [[| | | |b device endpoint|]|]; try done.
    by destruct (poll_device_token _ _ _ _ _ _ _) as [[[[]?]?]|].
  - by destruct (gs_tasks g !! k) as [[| | | | |b device]|].
  - by destruct (credential_inner _ _ _ _ _ _ _ _ _ _ _ _ _ _ _ _ _ _) as [? [? ?]].
Qed.

(** *** The end of a grant *)

Lemma poll_interval_bounds device : secs 1 <= poll_interval device <= MAX_DEVICE_POLL_INTERVAL.
Proof.
  unfold poll_interval, MAX_DEVICE_POLL_INTERVAL, DEFAULT_DEVICE_POLL_INTERVAL, secs.
  destruct (da_interval device) as [n|]; simpl; [destruct (Z.ltb_spec 0 n); simpl|]; lia.
Qed.

(** C29. Every pending sign-in ends. Whatever the provider advertised and answers and
    however long it takes, the polling of a grant is over within half an hour, asks no
    more often than once a second, and then the account's pending code is withdrawn
    and no other account's, so a new sign-in can start. *)
Theorem pending_sign_ins_end s g k a device endpoint answers since saved_at rng :
  steps (idle s) g -> gs_tasks g !! k = Some (Polling a device endpoint) ->
  (forall i t, 0 <= pa_elapsed (answers i t)) ->
  (exists r now' asked,
     poll_device_token token_from_json error_from_json
       (SignIn.poll_fuel (poll_interval device) (secs (da_expires_in device)))
       answers since (poll_interval device) (secs (da_expires_in device)) = Some (r, now', asked) /\
     since <= now' <= since + MAX_DEVICE_LIFETIME /\ spaced error_from_json answers since (poll_interval device) asked) /\
  secs 1 <= poll_interval device /\
  exists g1 g2, step (Polled k answers since saved_at rng) g = Some (None, g1) /\ step (Cleared k) g1 = Some (None, g2) /\
    gs_pending g2 = delete (account_of a) (gs_pending g).
Proof.
  intros Hs Hk Hel. pose proof (login_steps_orderly _ _ Hs (orderly_idle s)) as Ho.
  destruct (or_pending _ Ho _ _ _ Hk eq_refl) as [_ [Hv _]].
  pose proof (poll_interval_bounds device) as [Hi _]. change (secs 1) with 1000000000 in *.
  assert (0 <= secs (da_expires_in device) <= MAX_DEVICE_LIFETIME) as He by (unfold MAX_DEVICE_LIFETIME, secs; lia).
  destruct (poll_loop_spec token_from_json error_from_json answers
    (SignIn.poll_fuel (poll_interval device) (secs (da_expires_in device))) since (poll_interval device)
    (since + secs (da_expires_in device)) (poll_interval device) since [])
    as (r & now' & asked & H1 & H2 & H3 & _); try done; simpl; try lia.
  { unfold SignIn.poll_fuel. replace (since + secs (da_expires_in device) - since) with (secs (da_expires_in device)) by lia. lia. }
  split; [exists r, now', asked; split; [done|]; split; [lia|done]|]. split; [done|].
  simpl. rewrite Hk. unfold poll_device_token. rewrite H1.
  destruct r as [tokens|e]; (eexists _, _; split; [done|]; unfold set_task; simpl; rewrite lookup_insert_eq; done).
Qed.
End grants.
