(* ===== verification/GatewayRuns.v ===== *)
(** * Runs of the gateway's sign-ins

    Concrete instances of the theorems of [GatewayOidc.v] and [GatewayLogins.v]: an
    expired token that is refreshed, and two callers who start a device sign-in of one
    account at the same time. *)

From stdpp Require Import countable.
From S2P Require Import Prelude Str Codec Fs Config Net Cache Credential SecretStore Identity SignIn TokenStore SubscriptionOAuth GitHubOAuth GatewayOidc GatewayLogins.
Import GitHubRuns.

Definition gateway_tuple (t : GatewayOidc.StoredTokens) :=
  (gw_access_token t, gw_refresh_token t, gw_expires_at t, gw_token_endpoint t).
Definition gateway_of_tuple '((a, r, e, u) : string * option string * Z * string) : GatewayOidc.StoredTokens :=
  {| gw_access_token := a; gw_refresh_token := r; gw_expires_at := e; gw_token_endpoint := u |}.
#[global] Instance gateway_typed_dec t : Decision (GatewayOidc.typed t).
Proof. unfold GatewayOidc.typed. apply _. Defined.
#[global] Instance gateway_codec : TokenCodec GatewayOidc.StoredTokens :=
  text_codec gateway_tuple gateway_of_tuple GatewayOidc.typed.
#[global] Instance gateway_codec_laws : TokenCodecLaws gateway_codec GatewayOidc.typed.
Proof. apply text_codec_laws. by intros []. Qed.
Lemma gateway_loaded c t : token_from_str c = Ok t -> GatewayOidc.typed t.
Proof. apply text_codec_typed. Qed.

Definition web (scheme host path : string) : Url :=
  {| url_scheme := scheme; url_username := ""; url_password := None; url_host := Some host; url_port := None;
     url_path := path; url_query := None; url_fragment := None |}.
Definition web_str (u : Url) : string :=
  let s := url_scheme u +:+ "://" +:+ default "" (url_host u) +:+ url_path u in if utf8_valid s then s else "https://".
Lemma web_text u : utf8_valid (web_str u) = true.
Proof. unfold web_str. by destruct (utf8_valid (_ +:+ _)) eqn:E. Qed.
Definition web_parse (s : string) : result Url string := Ok (web "https" "idp" "/device").
Definition issuer : Url := web "https" "idp" "".
Definition metadata_json (s : string) : result ProviderMetadata string :=
  Ok {| pm_authorization_endpoint := web "https" "idp" "/authorize"; pm_token_endpoint := web "https" "idp" "/token";
        pm_device_authorization_endpoint := Some (web "https" "idp" "/device") |}.
(** The provider advertises a lifetime and an interval out of all proportion. *)
Definition device_json (s : string) : result DeviceAuthorizationResponse string :=
  Ok {| da_device_code := "d"; da_user_code := "ABCD"; da_verification_uri := "https://idp/device";
        da_verification_uri_complete := None; da_expires_in := 1000000; da_interval := Some 100000 |}.
Definition token_json (s : string) : result SignIn.TokenResponse string :=
  if String.eqb s "tokens" then
    Ok {| SignIn.tr_access_token := "new"; tr_id_token := None; SignIn.tr_refresh_token := Some "r2";
          SignIn.tr_expires_in := 3600; SignIn.tr_token_type := "Bearer" |}
  else Err "expected value".
Lemma token_json_typed c r : token_json c = Ok r -> response_typed r.
Proof. unfold token_json. destruct (String.eqb c "tokens"); [|done]. by intros [= <-]. Qed.
Definition error_json (s : string) : option (string * option string) := Some (s, None).
(** A digest that keeps the two sign-ins' entries apart. *)
Definition entry_hash (s : string) : string := if starts_with GatewayOidc.SECRET_SERVICE s then "g" else "h".
Definition entry_digest (s : string) : string := s.

Definition expired_tokens : GatewayOidc.StoredTokens := gateway_of_tuple ("old", Some "r1", 100, "https://idp/token").
Definition run_account : string := account web_str entry_digest issuer "client".
Definition expired_files : fs :=
  snd (GatewayOidc.save entry_hash Z.of_nat (store_of demo_dir) run_account expired_tokens demo_files).

(** The provider's endpoint. *)
Definition honest (endpoint : string) (f : form) : http_answer :=
  if starts_with "https://" endpoint || starts_with "http://" endpoint then Answer 200 (Some "tokens") else NoAnswer.
Definition stored_at (now : Z) : stored_env :=
  {| ve_rng := Z.of_nat; ve_now := now; ve_refreshed_at := now; ve_post := honest |}.
Definition run_browser : browser_env :=
  {| be_stored := stored_at 1000; be_get := fun _ => Answer 200 (Some "metadata"); be_state := "state";
     be_pkce := ("verifier", "challenge"); be_bound := fun _ => Ok tt; be_page := fun _ => [];
     be_signed_in_at := 1000; be_rng := Z.of_nat; be_github := demo_env |}.
Definition run_login : LoginOptions :=
  {| lo_callback_listen := None; lo_subscription_available := false; lo_github_client_id := None;
     lo_device_authorization := true |}.
Definition run_credential : result CredentialAcquisition credential_error * github_state :=
  credential_inner entry_hash entry_digest web_parse web_str metadata_json token_json demo_result demo_code demo_dir
    run_browser None issuer "client" "http://localhost/callback" [] false run_login (expired_files, []).
Lemma entries_apart c :
  entry_path entry_hash (store_of demo_dir) GatewayOidc.SECRET_SERVICE run_account
  <> entry_path entry_hash (store_of demo_dir) GitHubOAuth.SECRET_SERVICE c.
Proof.
  rewrite !entry_path_app. intros [_ H]%app_inj_2; [|done]. injection H as H.
  assert (entry_name entry_hash GatewayOidc.SECRET_SERVICE run_account = "67") as Hg by (vm_compute; reflexivity).
  assert (entry_name entry_hash GitHubOAuth.SECRET_SERVICE c = "68") as Hh by (vm_compute; reflexivity).
  congruence.
Qed.
Lemma expired_vetted : all_vetted entry_hash entry_digest web_str demo_dir issuer "client" false expired_files.
Proof.
  intros t H. assert (GatewayOidc.load entry_hash (store_of demo_dir) run_account expired_files = Ok (Some expired_tokens)) as Hl
    by (vm_compute; reflexivity).
  change (account web_str entry_digest issuer "client") with run_account in H. rewrite Hl in H. injection H as <-.
  exists (web "https" "idp" "/token"). split; vm_compute; reflexivity.
Qed.

Lemma gateway_sign_in_keeps_its_tokens_witness :
  let files := fst (snd run_credential) in
  exists t, GatewayOidc.load entry_hash (store_of demo_dir) run_account files = Ok (Some t) /\
    gw_access_token t = "new" /\
    refreshes entry_hash token_json demo_dir run_account "client" (stored_at 1000) expired_files t /\
    all_vetted entry_hash entry_digest web_str demo_dir issuer "client" false files.
Proof.
  assert (run_credential = (Ok {| ca_credential := {| lc_credential := "new"; lc_expires_at := 4600 |}; ca_interactive := false |},
      (fst (snd run_credential), snd (snd run_credential)))) as E.
  { rewrite <- (surjective_pairing (snd run_credential)). apply pair_of_fst. vm_compute. reflexivity. }
  destruct (gateway_sign_in_keeps_its_tokens entry_hash entry_digest web_parse web_str metadata_json token_json demo_result demo_code
    token_json_typed gateway_loaded web_text demo_dir issuer "client" "http://localhost/callback" [] false run_login
    entries_apart run_browser None expired_files [] _ _ _ E
    ltac:(vm_compute; reflexivity) ltac:(vm_compute; discriminate) ltac:(vm_compute; discriminate))
    as [(t & Hl & Hc & [[Hl0 Hu]|Hr]) Hv].
  - exfalso. assert (GatewayOidc.load entry_hash (store_of demo_dir) run_account expired_files = Ok (Some expired_tokens)) as Hl1
      by (vm_compute; reflexivity).
    change (account web_str entry_digest issuer "client") with run_account in Hl0. rewrite Hl1 in Hl0. injection Hl0 as <-.
    vm_compute in Hu. discriminate Hu.
  - exists t. split; [exact Hl|]. split; [injection Hc; intros _ Ha; by rewrite Ha|]. split; [exact Hr|].
    apply Hv. exact expired_vetted.
Defined.

(** ** Two callers *)

Definition caller : login_args :=
  {| la_issuer := issuer; la_client_id := "client"; la_scopes := ["openid"]; la_allow_insecure := false |}.
Abbreviation run_step := (login_step entry_hash entry_digest web_parse web_str metadata_json device_json token_json
  error_json demo_result demo_code demo_dir).
Abbreviation run_steps := (login_steps entry_hash entry_digest web_parse web_str metadata_json device_json token_json
  error_json demo_result demo_code demo_dir).
Fixpoint run_logins (es : list login_event) (g : gateway) : option (list answer * gateway) :=
  match es with
  | [] => Some ([], g)
  | e :: es =>
      match run_step e g with
      | Some (r, g) => match run_logins es g with Some (rs, g) => Some (r :: rs, g) | None => None end
      | None => None
      end
  end.
Lemma run_logins_steps es s g rs g' : run_steps (idle s) g -> run_logins es g = Some (rs, g') -> run_steps (idle s) g'.
Proof.
  revert g rs. induction es as [|e es IH]; intros g rs Hs; simpl; [by intros [= _ <-]|].
  destruct (run_step e g) as [[r g1]|] eqn:E; [|done]. destruct (run_logins es g1) as [[rs1 g2]|] eqn:E1; [|done].
  intros [= _ <-]. eapply IH; [|done]. by eapply login_steps_snoc.
Qed.
(** Both check, the first takes the lock and is granted a code. *)
Definition get_metadata (_ : string) : http_answer := Answer 200 (Some "metadata").
Definition two_callers : list login_event :=
  [Login caller; Login caller; Check 0%nat (stored_at 1000); Check 1%nat (stored_at 1000); Lock 0%nat;
   Recheck 0%nat (stored_at 1000); Granted 0%nat get_metadata honest; Lock 1%nat].
Definition after_two : gateway :=
  match run_logins two_callers (idle demo_files) with Some (_, g) => g | None => idle demo_files end.
Lemma after_two_reached : run_steps (idle demo_files) after_two.
Proof.
  unfold after_two. destruct (run_logins two_callers (idle demo_files)) as [[rs g]|] eqn:E; [|apply login_steps_refl].
  eapply run_logins_steps; [apply login_steps_refl|exact E].
Qed.
(** While the first is being granted, the second can not start. *)
Example second_caller_waits :
  run_logins (take 6 two_callers ++ [Lock 1%nat])%list (idle demo_files) = None.
Proof. vm_compute. reflexivity. Qed.

Lemma device_json_typed c d : device_json c = Ok d -> 0 <= da_expires_in d.
Proof. intros [= <-]. simpl. lia. Qed.

Lemma one_device_grant_at_a_time_witness :
  gs_pending after_two !! run_account = Some {| pd_verification_url := "https://idp/device"; pd_user_code := "ABCD" |} /\
  exists k t device, gs_tasks after_two !! k = Some t /\ grant_device t = Some device /\
    account_of entry_digest web_str (task_args t) = run_account /\ da_user_code device = "ABCD".
Proof.
  destruct (one_device_grant_at_a_time entry_hash entry_digest web_parse web_str metadata_json device_json token_json error_json
    demo_result demo_code demo_dir device_json_typed demo_files after_two after_two_reached) as [_ Hp].
  assert (gs_pending after_two !! run_account = Some {| pd_verification_url := "https://idp/device"; pd_user_code := "ABCD" |}) as H
    by (vm_compute; reflexivity).
  split; [exact H|]. apply Hp in H as (k & t & device & Hk & Hd & Ha & He).
  exists k, t, device. repeat split; [exact Hk|exact Hd|exact Ha|]. by injection He as _ <-.
Defined.

Definition second_answer : option (answer * gateway) := run_step (Recheck 1%nat (stored_at 1000)) after_two.
Lemma device_login_answers_are_true_witness :
  exists g, second_answer = Some (Some (caller, Ok (awaiting {| pd_verification_url := "https://idp/device"; pd_user_code := "ABCD" |})), g) /\
  exists device, grant_of entry_digest web_str caller g device /\ da_user_code device = "ABCD".
Proof.
  assert (fst <$> second_answer = Some (Some (caller, Ok (awaiting {| pd_verification_url := "https://idp/device"; pd_user_code := "ABCD" |}))))
    as H by (vm_compute; reflexivity).
  destruct second_answer as [[r g]|] eqn:E; [|discriminate H]. simpl in H. injection H as ->.
  exists g. split; [reflexivity|].
  destruct (device_login_answers_are_true entry_hash entry_digest web_parse web_str metadata_json device_json token_json error_json
    demo_result demo_code demo_dir device_json_typed token_json_typed gateway_loaded demo_files after_two
    (Recheck 1%nat (stored_at 1000)) caller _ g after_two_reached E ltac:(vm_compute; reflexivity)
    ltac:(intros ev [= <-]; vm_compute; discriminate)) as [[H _]|(device & Hg & H)]; [discriminate H|].
  exists device. split; [exact Hg|]. by injection H as _ <-.
Defined.

(** The poll is answered with a wait for ever. *)
Definition waiting_forever (i : nat) (t : Z) : poll_answer :=
  {| pa_answer := Answer 400 (Some "authorization_pending"); pa_elapsed := 0 |}.
Lemma pending_sign_ins_end_witness :
  exists g1 g2, run_step (Polled 0%nat waiting_forever 0 0 Z.of_nat) after_two = Some (None, g1) /\
    run_step (Cleared 0%nat) g1 = Some (None, g2) /\ gs_pending g2 = ∅.
Proof.
  assert (match gs_tasks after_two !! 0%nat with Some (Polling a _ _) => la_client_id a | _ => "" end = "client") as Hc
    by (vm_compute; reflexivity).
  destruct (gs_tasks after_two !! 0%nat) as [[| | | |a device endpoint|]|] eqn:Hk; try discriminate Hc.
  destruct (pending_sign_ins_end entry_hash entry_digest web_parse web_str metadata_json device_json token_json error_json
    demo_result demo_code demo_dir device_json_typed demo_files after_two 0%nat a device endpoint waiting_forever 0 0 Z.of_nat
    after_two_reached Hk ltac:(intros i t; vm_compute; discriminate)) as (_ & _ & g1 & g2 & H1 & H2 & H3).
  exists g1, g2. split; [exact H1|]. split; [exact H2|]. rewrite H3.
  assert (Some (account_of entry_digest web_str a) = Some run_account) as Ha.
  { assert ((fun t => account_of entry_digest web_str (task_args t)) <$> gs_tasks after_two !! 0%nat = Some run_account) as H
      by (vm_compute; reflexivity).
    rewrite Hk in H. exact H. }
  injection Ha as ->. vm_compute. reflexivity.
Defined.
