(* ===== verification/StartupArgs.v ===== *)
(** * The daemon's startup settings ([crates/agent/src/daemon.rs])

    [DaemonArgs::resolve]: the command line, the startup settings of the local
    configuration and the process environment give the paths and addresses the daemon
    works with, on Linux; and where a client looks for its socket
    ([crates/core/src/lib.rs]). An environment is the text of each variable. *)

From S2P Require Import Prelude Str Fs Config LoopbackFiles.

(** ** Default paths *)

Definition DEFAULT_CONFIG_PATH : path := ["/"; "etc"; "agentdesktop"; "config.yaml"].
Definition DEFAULT_STATE_DIR : path := ["/"; "var"; "lib"; "agentdesktop"].
Definition DEFAULT_SOCKET_PATH : path := ["/"; "run"; "agentdesktop"; "agentdesktop.sock"].

Definition default_claude_code_managed_settings_dir : path := ["/"; "etc"; "claude-code"; "managed-settings.d"].
Definition default_claude_desktop_managed_settings_path : path :=
  ["/"; "etc"; "claude-desktop"; "managed-settings.json"].
Definition default_claude_desktop_credential_helper_path : path :=
  ["/"; "etc"; "claude-desktop"; "agentdesktop-credential-helper"].
Definition default_codex_managed_config_path : path := ["/"; "etc"; "codex"; "managed_config.toml"].
Definition default_open_code_managed_config_path : path := ["/"; "etc"; "opencode"; "opencode.jsonc"].
Definition default_open_code_plugin_path : path := ["/"; "etc"; "opencode"; "plugins"; "agentdesktop.js"].
Definition default_grok_managed_config_path : path := ["/"; "etc"; "grok"; "managed_config.toml"].

(** VS Code's profile. *)
Definition user_profile_root (home : path) : path := (home ++ [".config"; "Code"; "User"])%list.
Definition chat_models_path (home : path) : path := (user_profile_root home ++ ["chatLanguageModels.json"])%list.
Definition settings_path (home : path) : path := (user_profile_root home ++ ["settings.json"])%list.

(** ** Arguments *)

Record DaemonArgs : Type := {
  da_user : bool;
  da_once : bool;
  da_dry_run : bool;
  da_config : option path;
}.

Record ResolvedDaemonArgs : Type := {
  ra_user : bool;
  ra_config : path;
  ra_state_dir : path;
  ra_socket : path;
  ra_oidc_callback_listen : option SocketAddr;
  ra_llm_proxy_listen : option SocketAddr;
  ra_llm_proxy_client_id : string;
  ra_usage : option UsageStartupConfig;
  ra_claude_code : path;
  ra_claude_desktop : path;
  ra_credential_helper : path;
  ra_codex : path;
  ra_open_code : path;
  ra_open_code_plugin : path;
  ra_grok : path;
  ra_copilot_providers : option path;
  ra_vscode_chat_models : option path;
  ra_vscode_settings : option path;
  ra_pi_models : option path;
  ra_pi_settings : option path;
  ra_reconcile_interval : option Z;
  ra_once : bool;
  ra_dry_run : bool;
}.

(** [DaemonStartupConfig::default]. *)
Definition default_startup : DaemonStartupConfig := {|
  ds_user := false; ds_state_dir := None; ds_socket := None; ds_oidc_callback_listen := None;
  ds_claude_code := {| tcp_config := None |};
  ds_claude_desktop := {| cds_config := None; cds_credential_helper := None |};
  ds_codex := {| tcp_config := None |};
  ds_open_code := {| ocs_config := None; ocs_plugin := None |};
  ds_grok := {| tcp_config := None |}; ds_copilot := {| tcp_config := None |};
  ds_vscode := {| vss_config := None; vss_settings := None |};
  ds_pi := {| pis_models := None; pis_settings := None |};
  ds_llm_proxy := {| lps_listen := None; lps_client_id := None |};
  ds_usage := None; ds_reconcile_interval := None |}.

Section with_environment.
Context (env : string -> option string).

Definition env_path (name : string) : option path := path_from <$> env name.
Definition env_nonempty (name : string) : option path :=
  path_from <$> option_filter (fun v => negb (is_empty v)) (env name).

Definition home_directory : result path string :=
  ok_or (match env_path "HOME" with Some home => Some home | None => env_path "USERPROFILE" end)
    "--user requires HOME or USERPROFILE".

Definition user_socket_path (state_dir : path) : path :=
  (default state_dir (env_path "XDG_RUNTIME_DIR") ++ ["agentdesktop.sock"])%list.

Definition user_claude_desktop_settings (home config_home : path) : path :=
  (config_home ++ ["Claude"; "claude_desktop_config.json"])%list.

(** Where Pi keeps the user's files. *)
Definition user_pi_agent_dir (home : path) : path :=
  match env_nonempty "PI_CODING_AGENT_DIR" with
  | Some p => match strip_path_prefix ["~"] p with Some relative => path_join home relative | None => p end
  | None => (home ++ [".pi"; "agent"])%list
  end.

Definition config_home_of (home : path) : path := default (home ++ [".config"])%list (env_path "XDG_CONFIG_HOME").
Definition state_home_of (home : path) : path := default (home ++ [".local"; "state"])%list (env_path "XDG_STATE_HOME").

(** What both modes check first. *)
Definition check_proxy (user one_shot : bool) (listen : option SocketAddr) (client_id : string)
  : result unit string :=
  let? _ := bail_if (negb user && is_some listen)
              "daemon.llmProxy.listen requires --user (or daemon.user: true)" in
  let? _ := bail_if (is_some_and (fun address => negb (ip_is_loopback (sa_ip address))) listen)
              "daemon.llmProxy.listen must be a loopback address" in
  let? _ := bail_if (is_some listen && one_shot)
              "daemon.llmProxy.listen cannot be combined with --once or --dry-run" in
  bail_if (is_some listen && negb (valid_client_id client_id)) "invalid daemon.llmProxy.clientId".

Definition check_vscode_paths (user : bool) (vscode : VsCodeStartupConfig) : result unit string :=
  if user then Ok tt
  else match find snd [("config", is_some (vss_config vscode)); ("settings", is_some (vss_settings vscode))] with
       | Some (field, _) => Err ("daemon.vscode." +:+ field +:+ " requires --user (or daemon.user: true)")
       | None => Ok tt
       end.

Definition resolve (a : DaemonArgs) (startup : DaemonStartupConfig) (config socket : path)
  : result ResolvedDaemonArgs string :=
  let user := da_user a || ds_user startup in
  let socket := default socket (ds_socket startup) in
  let listen := lps_listen (ds_llm_proxy startup) in
  let one_shot := da_once a || da_dry_run a in
  let client_id := default "vscode" (lps_client_id (ds_llm_proxy startup)) in
  let? _ := check_proxy user one_shot listen client_id in
  let usage := option_filter (fun _ => negb one_shot) (ds_usage startup) in
  let? _ := check_vscode_paths user (ds_vscode startup) in
  if negb user then
    let? _ := bail_if (is_some (tcp_config (ds_copilot startup)))
                "daemon.copilot.config requires --user (or daemon.user: true)" in
    let? _ := bail_if (is_some (pis_models (ds_pi startup)) || is_some (pis_settings (ds_pi startup)))
                "daemon.pi paths require --user (or daemon.user: true)" in
    Ok {| ra_user := false;
          ra_config := config;
          ra_state_dir := default DEFAULT_STATE_DIR (ds_state_dir startup);
          ra_socket := socket;
          ra_oidc_callback_listen := ds_oidc_callback_listen startup;
          ra_llm_proxy_listen := None;
          ra_llm_proxy_client_id := client_id;
          ra_usage := usage;
          ra_claude_code := default (default_claude_code_managed_settings_dir ++ ["50-agentdesktop.json"])%list
                              (tcp_config (ds_claude_code startup));
          ra_claude_desktop := default default_claude_desktop_managed_settings_path
                                 (cds_config (ds_claude_desktop startup));
          ra_credential_helper := default default_claude_desktop_credential_helper_path
                                    (cds_credential_helper (ds_claude_desktop startup));
          ra_codex := default default_codex_managed_config_path (tcp_config (ds_codex startup));
          ra_open_code := default default_open_code_managed_config_path (ocs_config (ds_open_code startup));
          ra_open_code_plugin := default default_open_code_plugin_path (ocs_plugin (ds_open_code startup));
          ra_grok := default default_grok_managed_config_path (tcp_config (ds_grok startup));
          ra_copilot_providers := None;
          ra_vscode_chat_models := None;
          ra_vscode_settings := None;
          ra_pi_models := None;
          ra_pi_settings := None;
          ra_reconcile_interval := ds_reconcile_interval startup;
          ra_once := one_shot;
          ra_dry_run := da_dry_run a |}
  else
    let? home := home_directory in
    let config_home := config_home_of home in
    let state_dir := default (state_home_of home ++ ["agentdesktop"])%list (ds_state_dir startup) in
    let socket := if is_none (ds_socket startup) && bool_decide (socket = DEFAULT_SOCKET_PATH)
                  then user_socket_path state_dir else socket in
    let? copilot := match tcp_config (ds_copilot startup) with
                    | Some p => Ok p
                    | None => Copilot.providers_path env
                    end in
    Ok {| ra_user := true;
          ra_config := config;
          ra_state_dir := state_dir;
          ra_socket := socket;
          ra_oidc_callback_listen := ds_oidc_callback_listen startup;
          ra_llm_proxy_listen := listen;
          ra_llm_proxy_client_id := client_id;
          ra_usage := usage;
          ra_claude_code := default (home ++ [".claude"; "settings.json"])%list (tcp_config (ds_claude_code startup));
          ra_claude_desktop := default (user_claude_desktop_settings home config_home)
                                 (cds_config (ds_claude_desktop startup));
          ra_credential_helper := default (state_dir ++ ["bin"; "claude-desktop-credential-helper"])%list
                                    (cds_credential_helper (ds_claude_desktop startup));
          ra_codex := default (home ++ [".codex"; "config.toml"])%list (tcp_config (ds_codex startup));
          ra_open_code := default (config_home ++ ["opencode"; "opencode.json"])%list (ocs_config (ds_open_code startup));
          ra_open_code_plugin := default (config_home ++ ["opencode"; "plugins"; "agentdesktop.js"])%list
                                   (ocs_plugin (ds_open_code startup));
          ra_grok := default (default (home ++ [".grok"])%list (env_nonempty "GROK_HOME") ++ ["managed_config.toml"])%list
                       (tcp_config (ds_grok startup));
          ra_copilot_providers := Some copilot;
          ra_vscode_chat_models := Some (default (chat_models_path home) (vss_config (ds_vscode startup)));
          ra_vscode_settings := Some (default (settings_path home) (vss_settings (ds_vscode startup)));
          ra_pi_models := Some (default (user_pi_agent_dir home ++ ["models.json"])%list (pis_models (ds_pi startup)));
          ra_pi_settings := Some (default (user_pi_agent_dir home ++ ["settings.json"])%list (pis_settings (ds_pi startup)));
          ra_reconcile_interval := ds_reconcile_interval startup;
          ra_once := one_shot;
          ra_dry_run := da_dry_run a |}.

(** The configuration file of [run_until_shutdown]; [unwrap_or] evaluates the home
    directory whether it is used or not. *)
Definition config_path_of (a : DaemonArgs) : result path string :=
  match da_config a with
  | Some p => Ok p
  | None =>
      if da_user a then
        let? home := home_directory in
        Ok (config_home_of home ++ ["agentdesktop"; "config.yaml"])%list
      else Ok DEFAULT_CONFIG_PATH
  end.

(** ** A client's socket *)

Definition client_user_socket_path : option path :=
  match env_path "XDG_RUNTIME_DIR" with
  | Some runtime => Some (runtime ++ ["agentdesktop.sock"])%list
  | None =>
      (fun home => (state_home_of home ++ ["agentdesktop"; "agentdesktop.sock"])%list) <$> env_path "HOME"
  end.
Definition client_socket_path (system_exists : bool) : path :=
  match env_path "AGENTDESKTOP_SOCKET" with
  | Some p => p
  | None => if system_exists then DEFAULT_SOCKET_PATH else default DEFAULT_SOCKET_PATH client_user_socket_path
  end.
End with_environment.
