(* ===== verification/Daemon.v ===== *)
(** * Starting the daemon ([crates/agent/src/daemon.rs])

    [run_until_shutdown] up to the point where it serves: the run modes, the loopback
    proxy and its pairing value ([load_or_create_pairing] of [llm_proxy.rs]), the
    reconciler, the configuration it starts with, and the sign-ins it asks for. What
    the operating system and other crates answer (listeners, the usage database, the
    clock of the logs, random bytes) is in [startup_env]; log files and that database
    are not part of the modelled files. *)

From S2P Require Import Prelude Str Json Codec Fs Plan JsonMerge Config Reconcile Tick Remote Net Http Routes Credential.
From S2P Require Import UsageIngest Shared Planner ManagedFiles MarkerFiles LoopbackFiles SyntaxTree VsCodeSettings Programs.
From S2P Require Import SignIn StartupArgs.

(** ** What a one-shot run may be asked for *)

Definition validate_dry_run (config : DaemonConfig) : result unit string :=
  bail_if (is_some (dm_controller config))
    "--dry-run only previews local configuration; controller-managed configuration is received after enrollment while the daemon is running; run without --dry-run to enroll and apply it".

(** The programs that would use an authenticated gateway in this mode. *)
Definition gateway_uses (user : bool) (p : ProgramsConfig) : list bool :=
  [is_some_and clc_use_llm_gateway (claude_code p);
   negb user && is_some_and cld_use_llm_gateway (claude_desktop p);
   is_some_and cx_use_llm_gateway (codex p);
   is_some_and oc_use_llm_gateway (open_code p);
   negb user && is_some_and gk_use_llm_gateway (grok p);
   user && is_some_and pi_use_llm_gateway (pi p)].

Definition validate_one_shot (config : DaemonConfig) (user : bool) : result unit string :=
  let? _ := bail_if (is_some (dm_controller config))
    "--once cannot use a controller because controller synchronization requires the daemon to remain running" in
  let? _ := bail_if (negb (telemetry_is_empty (dm_telemetry config)))
    "--once cannot collect telemetry because hooks require the daemon to remain running" in
  let? _ := bail_if (user && is_some (copilot (dm_programs config)))
    "--once cannot manage the GitHub Copilot CLI providers file because its local proxy requires the daemon to remain running" in
  let? _ := bail_if (user && is_some (vscode (dm_programs config)))
    "--once cannot manage the VS Code chatLanguageModels.json and settings.json files because their local proxy requires the daemon to remain running" in
  bail_if (is_some_and (fun gateway => is_some (gw_authentication gateway)) (dm_llm_gateway config)
           && any (fun used => used) (gateway_uses user (dm_programs config)))
    "--once cannot configure an authenticated LLM gateway because credential helpers require the daemon to remain running".

(** ** The loopback proxy *)

Record LlmProxyInfo : Type := {
  lp_listen : string;
  lp_bound : bool;
  lp_client_id : string;
  lp_error : option string;
}.
Record UsageReceiverInfo : Type := {
  ur_listen : string;
  ur_bound : bool;
  ur_error : option string;
}.

(** A bound listener, by what [local_addr] answers. *)
Record Listener : Type := { li_local_addr : option SocketAddr }.

(** [bind] answers what [TcpListener::bind] does. *)
Definition bind_llm_proxy (bind : SocketAddr -> result Listener string) (listen : option SocketAddr)
    (client_id : string) : option Listener * option LlmProxyInfo :=
  match listen with
  | None => (None, None)
  | Some address =>
      match bind address with
      | Ok listener =>
          (Some listener,
           Some {| lp_listen := fmt_socket (default address (li_local_addr listener)); lp_bound := true;
                   lp_client_id := client_id; lp_error := None |})
      | Err error =>
          (None, Some {| lp_listen := fmt_socket address; lp_bound := false; lp_client_id := client_id;
                         lp_error := Some error |})
      end
  end.

Definition pairing_path (state_dir : path) : path := path_join state_dir ["llm-proxy-pairing"].
Definition MIN_PAIRING : nat := 32.

(** [value] is the encoding of the random bytes. *)
Definition load_or_create_pairing (rng : nat -> Z) (value : string) (state_dir : path) : ST fs string string :=
  let p := pairing_path state_dir in
  let create : ST fs string string :=
    ensure_private_dir state_dir ;*
    st_map_err (context ("write " +:+ display p)) (atomic_write rng p value 384) ;*
    st_ret value in
  fun s =>
    match fs_read_to_string s p with
    | Ok contents =>
        if Nat.leb MIN_PAIRING (String.length (trim contents)) then (Ok (trim contents), s) else create s
    | Err NotFound | Err InvalidData => create s
    | Err error => (Err (context ("read " +:+ display p) (io_kind_message error)), s)
    end.

(** [attach_llm_proxy_pairing]: without a pairing value the proxy is switched off. *)
Definition attach_llm_proxy_pairing (rng : nat -> Z) (value : string) (state_dir : path)
    (listener : option Listener) (info : option LlmProxyInfo) (s : fs)
  : option Listener * option LlmProxyInfo * option string * fs :=
  match listener with
  | None => (listener, info, None, s)
  | Some _ =>
      match load_or_create_pairing rng value state_dir s with
      | (Ok pairing, s') => (listener, info, Some pairing, s')
      | (Err error, s') =>
          (None,
           (fun i => {| lp_listen := lp_listen i; lp_bound := false; lp_client_id := lp_client_id i;
                        lp_error := Some ("pairing unavailable: " +:+ error) |}) <$> info,
           None, s')
      end
  end.

(** The context the reconciler writes into the managed files. *)
Definition proxy_context (listener : option Listener) (pairing : option string) : option LlmProxyContext :=
  match listener, pairing with
  | Some listener, Some pairing =>
      (fun address => {| lpc_address := address; lpc_pairing := pairing |}) <$> li_local_addr listener
  | _, _ => None
  end.

(** ** What the daemon says about itself *)

Record DaemonControllerInfo : Type := {
  ci_address : string;
  ci_ca_certificate_path : option string;
  ci_heartbeat_interval : Z;
}.
Record DaemonInfo : Type := {
  di_version : string;
  di_scope : DaemonScope;
  di_config_path : string;
  di_state_directory : string;
  di_inventory_interval : Z;
  di_controller : option DaemonControllerInfo;
  di_llm_proxy : option LlmProxyInfo;
  di_usage_receiver : option UsageReceiverInfo;
}.

Section describe.
Context (parse_url : string -> result Url string) (url_str : Url -> string).
Context (current_dir : result path io_kind).

(** [std::path::absolute], on Unix. *)
Definition path_for_display (p : path) : string :=
  display (if path_is_relative p then match current_dir with Ok d => (d ++ p)%list | Err _ => p end else p).

Definition invalid_address : string := "Invalid controller address".
Definition controller_address_for_display (address : string) : string :=
  match parse_url address with
  | Ok url =>
      if String.eqb (url_scheme url) "https" && is_some (url_host url)
      then url_str {| url_scheme := url_scheme url; url_username := ""; url_password := None;
                      url_host := url_host url; url_port := url_port url; url_path := url_path url;
                      url_query := None; url_fragment := None |}
      else invalid_address
  | Err _ => invalid_address
  end.

Definition describe_daemon (version : string) (config : DaemonConfig) (config_path state_directory : path)
    (user : bool) (llm_proxy : option LlmProxyInfo) : DaemonInfo :=
  {| di_version := version;
     di_scope := if user then User else System;
     di_config_path := path_for_display config_path;
     di_state_directory := path_for_display state_directory;
     di_inventory_interval := dm_inventory_interval config;
     di_controller :=
       (fun c => {| ci_address := controller_address_for_display (cc_address c);
                    ci_ca_certificate_path := path_for_display <$> cc_ca_certificate_path c;
                    ci_heartbeat_interval := cc_heartbeat_interval c |}) <$> dm_controller config;
     di_llm_proxy := llm_proxy;
     di_usage_receiver := None |}.
End describe.

(** ** Usage *)

(** The parts of [start_usage] that may fail. *)
Definition start_usage (open_sqlite : path -> result unit string) (bind : SocketAddr -> result Listener string)
    (s : fs) (usage : UsageStartupConfig) (state_dir : path) : bool * UsageReceiverInfo :=
  let off error := {| ur_listen := fmt_socket (us_listen usage); ur_bound := false; ur_error := Some error |} in
  match open_sqlite (path_join state_dir ["usage.db"]) with
  | Err error => (false, off error)
  | Ok _ =>
      match load_token s (us_token_file usage) with
      | Err error => (true, off error)
      | Ok _ =>
          match bind (us_listen usage) with
          | Err error => (true, off (context ("bind " +:+ fmt_socket (us_listen usage)) error))
          | Ok listener =>
              (true, {| ur_listen := fmt_socket (default (us_listen usage) (li_local_addr listener));
                        ur_bound := true; ur_error := None |})
          end
      end
  end.

(** ** The sign-ins of a start *)

(** Only programs managed in this mode ask for a subscription sign-in. *)
Definition subscription_clients (config : DaemonConfig) (user : bool) : list string :=
  retain (fun client_id =>
      negb (String.eqb client_id "claude-desktop")
      || (negb user && is_none (subscription_auth (dm_programs config) "claude-code")))
    (retain (fun client_id => bool_decide (subscription_auth (dm_programs config) client_id = Some CredentialHelper))
       ["claude-code"; "claude-desktop"; "codex"]).

(** What the spawned task works with. *)
Record gateway_start : Type := {
  gs_authentication : option LlmGatewayAuthentication;
  gs_github : option GitHubOAuthConfig;
  gs_clients : list string;
}.
Definition start_gateway_authentication (config : DaemonConfig) (user proxy_enabled : bool) : option gateway_start :=
  match dm_llm_gateway config with
  | None => None
  | Some gateway =>
      let clients := subscription_clients config user in
      if is_none (gw_authentication gateway) && bool_decide (clients = []) then None
      else Some {| gs_authentication := gw_authentication gateway;
                   gs_github := option_filter (fun _ => proxy_enabled) (gw_github_oauth gateway);
                   gs_clients := clients |}
  end.

Inductive sign_in_call : Type :=
| StartDevice (issuer : Url) (client_id : string)
| StartOidc (issuer : Url) (client_id : string) (subscription : bool) (github_client_id : option string)
| StartSubscription (continue_in_browser : bool) (client_id : string)
| StartGitHub (client_id : string).

Definition device_flow (github : GitHubOAuthConfig) : option string :=
  match gh_source github with DeviceFlow => gh_client_id github | Request => None end.

(** The task: each sign-in is recorded and answered, an OIDC one with whether it was
    interactive. The first failure ends it; it is logged. *)
Section task.
Context (answer : list sign_in_call -> result bool string).

Definition sign_in (c : sign_in_call) : ST (list sign_in_call) string bool :=
  fun calls => let calls := (calls ++ [c])%list in (answer calls, calls).

Fixpoint subscription_sign_ins (continue_in_browser : bool) (clients : list string)
  : ST (list sign_in_call) string unit :=
  match clients with
  | [] => st_ret tt
  | client_id :: clients =>
      sign_in (StartSubscription continue_in_browser client_id) ;* subscription_sign_ins false clients
  end.

Definition run_gateway_authentication (g : gateway_start) : ST (list sign_in_call) string unit :=
  let subscription := negb (bool_decide (gs_clients g = [])) in
  let rest (continue_in_browser : bool) :=
    subscription_sign_ins continue_in_browser (gs_clients g) ;*
    match gs_github g ≫= device_flow with
    | Some client_id => sign_in (StartGitHub client_id) ;* st_ret tt
    | None => st_ret tt
    end in
  match gs_authentication g with
  | Some (Oidc issuer client_id _ _ _ device_authorization) =>
      if device_authorization then sign_in (StartDevice issuer client_id) ;* st_ret tt
      else
        let* interactive := sign_in (StartOidc issuer client_id subscription (gs_github g ≫= device_flow)) in
        rest (interactive && subscription)
  | _ => rest false
  end.
End task.

(** [gateway_oidc::start_device_login_if_configured]: whether it starts one. *)
Definition device_login_configured (config : DaemonConfig) : bool :=
  match dm_llm_gateway config ≫= gw_authentication with
  | Some (Oidc _ _ _ _ _ device_authorization) => device_authorization
  | _ => false
  end.

(** ** Starting *)

Definition client_executable_for_daemon (executable : path) : path :=
  if is_some_and (fun name => eq_ignore_ascii_case name "agentdesktop-service.exe") (file_name executable)
  then with_file_name "agentdesktop.exe" executable
  else executable.

Record startup_env : Type := {
  se_env : string -> option string;
  se_logging : option path -> result unit string;
  se_bind : SocketAddr -> result Listener string;
  se_pairing : string;
  se_current_exe : result path string;
  se_current_dir : result path io_kind;
  se_open_sqlite : path -> result unit string;
  se_version : string;
  se_pairing_rng : nat -> Z;
  se_rng : nat -> nat -> Z;
}.

(** What serves from here. *)
Record serving : Type := {
  sg_args : ResolvedDaemonArgs;
  sg_config : DaemonConfig;
  sg_info : DaemonInfo;
  sg_usage_store : bool;
  sg_sign_in : option gateway_start;
  sg_device_login : bool;
  sg_reconciler : Reconciler;
  sg_current : option CurrentConfig;
  sg_report : option ApplyReport;
  sg_listener : option Listener;
  sg_pairing : option string;
}.

Inductive started : Type :=
| Previewed (text : string)
| Reconciled (report : ApplyReport)
| Serving (d : serving).

Section with_parsers.
Context {U : UrlOps} {P : Printers} {T : SyntaxTree} {C : JsonCodec} {S : SettingsPrinter} {CC : ChoiceCodec}.
Context (parse_url : string -> result Url string) (url_str : Url -> string).
Context (from_str : string -> result DaemonConfig string).
Context (unified_diff : string -> string -> string).

Definition reconciler_of (ev : startup_env) (a : ResolvedDaemonArgs) (client : path) : Reconciler :=
  new_reconciler (ra_user a)
    (reconciler_providers (se_current_dir ev) (ra_claude_code a) (ra_claude_desktop a) (ra_credential_helper a)
       (ra_codex a) (ra_open_code a) (ra_open_code_plugin a) (ra_grok a) (ra_copilot_providers a)
       (ra_vscode_chat_models a) (ra_vscode_settings a) (ra_pi_models a) (ra_pi_settings a))
    client (ra_socket a).

(** The reconciler a start works with. *)
Definition ready_reconciler (ev : startup_env) (a : ResolvedDaemonArgs) (exe : path)
    (listener : option Listener) (pairing : option string) (s : fs) : Reconciler :=
  set_program_choice (load_choice (ra_state_dir a) s)
    (with_llm_proxy (proxy_context listener pairing) (reconciler_of ev a (client_executable_for_daemon exe))).

(** The configuration to start with. *)
Definition initial_config (s : fs) (config : DaemonConfig) (state_dir : path)
  : result (option DaemonConfig) string :=
  let p := remote_config_path state_dir in
  if is_some (dm_controller config) then
    match fs_read_to_string s p with
    | Ok contents =>
        match parse_daemon parse_url from_str contents with
        | Ok cached => Ok (Some cached)
        | Err e => Err (context ("parse cached controller configuration from " +:+ display p) e)
        end
    | Err NotFound => Ok (if daemon_is_empty config then None else Some config)
    | Err e => Err (context ("read cached controller configuration from " +:+ display p) (io_kind_message e))
    end
  else Ok (Some config).

(** [--once] and [--dry-run]; [apply_with_report] always has a report. *)
Definition run_once (ev : startup_env) (a : ResolvedDaemonArgs) (config : DaemonConfig) (r : Reconciler)
  : ST fs string started := fun s =>
  if ra_dry_run a then
    (let? _ := validate_dry_run config in
     let? pl := map_err (context "preview daemon configuration") (reconcile_plan r config s) in
     Ok (Previewed (render unified_diff (report pl))), s)
  else
    match validate_one_shot (fst (apply_program_choice config (rc_choice r))) (ra_user a) with
    | Err e => (Err e, s)
    | Ok _ =>
        match apply_with_report (se_rng ev) config r s with
        | (Some (report, Ok _), _, s') => (Ok (Reconciled report), s')
        | (Some (_, Err e), _, s') => (Err (context "apply daemon configuration" e), s')
        | (None, r', s') => (Ok (Reconciled {| ar_programs := []; ar_sequence := 0 |}), s')
        end
    end.

(** The initial apply; a failed one stops the daemon. *)
Definition initial_apply (ev : startup_env) (r : Reconciler) (initial : option DaemonConfig)
  : ST fs string (Reconciler * option ApplyReport) := fun s =>
  match initial with
  | None => (Ok (r, None), s)
  | Some config =>
      match apply_with_report (se_rng ev) config r s with
      | (Some (report, Ok _), r', s') => (Ok (r', Some report), s')
      | (Some (_, Err e), _, s') => (Err (context "apply initial daemon configuration" e), s')
      | (None, r', s') => (Ok (r', None), s')
      end
  end.

(** The rest of a start, for a daemon that serves. *)
Definition start_serving (ev : startup_env) (a : ResolvedDaemonArgs) (config : DaemonConfig) (r : Reconciler)
    (listener : option Listener) (info : option LlmProxyInfo) (pairing : option string)
  : ST fs string started :=
  ensure_private_dir (ra_state_dir a) ;*
  fun s =>
    let usage := (fun u => start_usage (se_open_sqlite ev) (se_bind ev) s u (ra_state_dir a)) <$> ra_usage a in
    let described := describe_daemon parse_url url_str (se_current_dir ev) (se_version ev) config (ra_config a)
                       (ra_state_dir a) (ra_user a) info in
    let described :=
      {| di_version := di_version described; di_scope := di_scope described;
         di_config_path := di_config_path described; di_state_directory := di_state_directory described;
         di_inventory_interval := di_inventory_interval described; di_controller := di_controller described;
         di_llm_proxy := di_llm_proxy described; di_usage_receiver := snd <$> usage |} in
    let sign_in :=
      if gateway_sign_in_wanted r config
      then start_gateway_authentication (fst (apply_program_choice config (rc_choice r))) (ra_user a) (is_some listener)
      else None in
    match initial_config s config (ra_state_dir a) with
    | Err e => (Err e, s)
    | Ok initial =>
        (let* applied := initial_apply ev r initial in
         let '(r', report) := applied in
         st_ret (Serving
           {| sg_args := a; sg_config := config; sg_info := described;
              sg_usage_store := is_some_and fst usage;
              sg_sign_in := sign_in;
              sg_device_login :=
                is_some_and (fun c => is_some (dm_controller config) && gateway_sign_in_wanted r' c
                                      && device_login_configured c) initial;
              sg_reconciler := r';
              sg_current := (fun c => {| cur_revision := None; cur_config := c |}) <$> initial;
              sg_report := report; sg_listener := listener; sg_pairing := pairing |})) s
    end.

(** A system daemon that stays logs to its own files. *)
Definition log_dir_of (a : ResolvedDaemonArgs) : option path :=
  if negb (ra_user a) && negb (ra_once a) then Some (ra_state_dir a ++ ["logs"])%list else None.
Definition create_log_dir (a : ResolvedDaemonArgs) : ST fs string unit :=
  match log_dir_of a with
  | Some log_dir => ensure_private_dir (ra_state_dir a) ;* ensure_private_dir log_dir
  | None => st_ret tt
  end.

(** [run_until_shutdown]. *)
Definition run_daemon (ev : startup_env) (args : DaemonArgs) (socket : path) : ST fs string started :=
  if negb (bool_decide (socket = DEFAULT_SOCKET_PATH))
  then st_err "set daemon.socket in the configuration file; --socket is for client commands"
  else
    let* config_path := lift_result (config_path_of (se_env ev) args) in
    fun s =>
      (let* config := lift_result (load_daemon parse_url from_str s config_path) in
       let* a := lift_result (resolve (se_env ev) args (default default_startup (dm_daemon config)) config_path socket) in
       create_log_dir a ;*
       lift_result (se_logging ev (log_dir_of a)) ;*
       let '(listener, info) := bind_llm_proxy (se_bind ev) (ra_llm_proxy_listen a) (ra_llm_proxy_client_id a) in
       fun s =>
         let '(listener, info, pairing, s) :=
           attach_llm_proxy_pairing (se_pairing_rng ev) (se_pairing ev) (ra_state_dir a) listener info s in
         (let* exe := lift_result (map_err (context "locate agentdesktop executable") (se_current_exe ev)) in
          fun s =>
            let r := ready_reconciler ev a exe listener pairing s in
            (if ra_once a then run_once ev a config r
             else start_serving ev a config r listener info pairing) s) s) s.
End with_parsers.
