(* ===== verification/DaemonFacts.v ===== *)
(** * What a start of the daemon does

    Theorems about [Daemon.v]: a preview changes nothing; a start changes the programs'
    files and the pairing file only; the managed files name a proxy the daemon serves;
    a daemon starts with the configuration it accepted last. *)

From S2P Require Import Prelude Str Json Codec Fs Plan JsonMerge Config Reconcile Tick Remote Net Http Routes Credential.
From S2P Require Import UsageIngest Shared Planner ManagedFiles MarkerFiles LoopbackFiles SyntaxTree VsCodeSettings Programs.
From S2P Require Import SignIn StartupArgs Daemon.

(** ** Settings *)

Section resolved.
Context (env : string -> option string).

(** A listener is only resolved for a user's daemon that stays. *)
Record proxy_allowed (a : ResolvedDaemonArgs) (listen : SocketAddr) : Prop := {
  pa_user : ra_user a = true;
  pa_loopback : ip_is_loopback (sa_ip listen) = true;
  pa_stays : ra_once a = false;
  pa_client : valid_client_id (ra_llm_proxy_client_id a) = true;
}.

Lemma check_proxy_Ok user one_shot listen client_id listener :
  check_proxy user one_shot (Some listen) client_id = Ok listener ->
  user = true /\ ip_is_loopback (sa_ip listen) = true /\ one_shot = false /\ valid_client_id client_id = true.
Proof.
  unfold check_proxy. simpl. destruct user, (ip_is_loopback _), one_shot, (valid_client_id client_id); done.
Qed.

Lemma resolve_modes args startup config socket a :
  resolve env args startup config socket = Ok a ->
  ra_once a = da_once args || da_dry_run args /\ ra_dry_run a = da_dry_run args /\
  ra_user a = da_user args || ds_user startup.
Proof.
  unfold resolve. destruct (check_proxy _ _ _ _); [|done]. destruct (check_vscode_paths _ _); [|done].
  destruct (da_user args || ds_user startup); simpl.
  - destruct (home_directory env); [|done]. destruct (match tcp_config _ with Some _ => _ | None => _ end); [|done].
    by intros [= <-].
  - destruct (bail_if _ _); [|done]. destruct (bail_if _ _); [|done]. by intros [= <-].
Qed.

Lemma resolve_listen args startup config socket a listen :
  resolve env args startup config socket = Ok a -> ra_llm_proxy_listen a = Some listen -> proxy_allowed a listen.
Proof.
  intros H Hl. apply resolve_modes in H as Hm. destruct Hm as (Ho & _ & Hu). unfold resolve in H.
  destruct (check_proxy _ _ _ _) as [u|] eqn:Hc; [|done]. destruct (check_vscode_paths _ _); [|done].
  destruct (da_user args || ds_user startup) eqn:Eu; simpl in H.
  - destruct (home_directory env); [|done]. destruct (match tcp_config _ with Some _ => _ | None => _ end); [|done].
    injection H as <-. simpl in *. rewrite Hl in Hc. by apply check_proxy_Ok in Hc as (_ & ? & ? & ?).
  - destruct (bail_if _ _); [|done]. destruct (bail_if _ _); [|done]. injection H as <-. done.
Qed.

(** A client finds the daemon: where the local configuration sets neither a socket
    nor, for a user's daemon, a state directory, a client of the same environment with no
    socket of its own configured connects to the socket that the daemon serves: to the
    system's while that exists, and otherwise to the user's, as long as the user has a
    home. *)
Theorem clients_find_the_daemon args startup config a :
  resolve env args startup config DEFAULT_SOCKET_PATH = Ok a ->
  ds_socket startup = None -> env "AGENTDESKTOP_SOCKET" = None ->
  if ra_user a then ds_state_dir startup = None -> is_Some (env "HOME") -> client_socket_path env false = ra_socket a
  else client_socket_path env true = ra_socket a.
Proof.
  intros H Hs Ho. unfold client_socket_path, env_path. rewrite Ho. simpl. unfold resolve in H.
  destruct (check_proxy _ _ _ _); [|done]. destruct (check_vscode_paths _ _); [|done].
  rewrite Hs in H. destruct (da_user args || ds_user startup); simpl in H.
  - destruct (home_directory env) as [home|] eqn:Eh; [|done].
    destruct (match tcp_config _ with Some _ => _ | None => _ end); [|done]. injection H as <-. simpl.
    intros Hd [h Hh]. rewrite Hd. unfold client_user_socket_path, user_socket_path. simpl.
    unfold home_directory, env_path in Eh. rewrite Hh in Eh. injection Eh as <-.
    unfold env_path. rewrite Hh. simpl. destruct (env "XDG_RUNTIME_DIR"); [done|].
    unfold default at 1. simpl. by rewrite <- app_assoc.
  - destruct (bail_if _ _); [|done]. destruct (bail_if _ _); [|done]. by injection H as <-.
Qed.

(** A system daemon does not depend on who starts it: its settings are the same in
    every process environment, it listens for no programs, and it has no path of the
    programs that only exist per user; any other path it has is the configured one or a
    system default. *)
Theorem system_settings_ignore_the_environment args startup config socket a :
  resolve env args startup config socket = Ok a -> ra_user a = false ->
  (forall env', resolve env' args startup config socket = Ok a) /\
  ra_llm_proxy_listen a = None /\ ra_copilot_providers a = None /\
  ra_vscode_chat_models a = None /\ ra_vscode_settings a = None /\ ra_pi_models a = None /\ ra_pi_settings a = None /\
  forall configured p,
    (configured, p) ∈ [(ds_state_dir startup, ra_state_dir a); (ds_socket startup, ra_socket a);
       (tcp_config (ds_claude_code startup), ra_claude_code a);
       (cds_config (ds_claude_desktop startup), ra_claude_desktop a);
       (cds_credential_helper (ds_claude_desktop startup), ra_credential_helper a);
       (tcp_config (ds_codex startup), ra_codex a); (ocs_config (ds_open_code startup), ra_open_code a);
       (ocs_plugin (ds_open_code startup), ra_open_code_plugin a); (tcp_config (ds_grok startup), ra_grok a)] ->
    configured = Some p \/ configured = None /\ (p = socket \/ p = DEFAULT_STATE_DIR \/ ["/"; "etc"] `prefix_of` p).
Proof.
  intros H Hu. unfold resolve in *. destruct (check_proxy _ _ _ _); [|done]. destruct (check_vscode_paths _ _); [|done].
  destruct (da_user args || ds_user startup); simpl in *.
  { destruct (home_directory env); [|done]. destruct (match tcp_config _ with Some _ => _ | None => _ end); [|done].
    injection H as <-. done. }
  destruct (bail_if _ _); [|done]. destruct (bail_if _ _); [|done]. injection H as <-. simpl. repeat (split; [done|]).
  intros configured p. rewrite !elem_of_cons, elem_of_nil. intros Hin.
  repeat (destruct Hin as [Hin|Hin]; [injection Hin as -> ->|]); [..|done];
    match goal with |- ?o = _ \/ _ => destruct o end; simpl; auto; right; split; auto;
    right; right; by eexists.
Qed.
End resolved.

(** ** The pairing value *)

(** What the encoding of 32 random bytes is. *)
Record fresh_value (v : string) : Prop := {
  fv_utf8 : utf8_valid v = true;
  fv_trim : trim v = v;
  fv_long : (MIN_PAIRING <= String.length v)%nat;
}.

Definition kept_file (q : path) (s s' : fs) : Prop := is_Some (file_at s q) -> file_at s' q = file_at s q.
#[global] Instance kept_file_refl q : Reflexive (kept_file q).
Proof. by intros s _. Qed.
#[global] Instance kept_file_trans q : Transitive (kept_file q).
Proof. intros s1 s2 s3 H1 H2 H. rewrite H2, H1; [done..|]. by rewrite H1. Qed.
Lemma frame_kept ps q s s' : frame ps s s' -> q ∉ ps -> kept_file q s s'.
Proof. intros [_ H] Hq _. by apply H. Qed.

Lemma create_pairing_inv rng value state_dir s r s' :
  (ensure_private_dir state_dir ;*
   st_map_err (context ("write " +:+ display (pairing_path state_dir)))
     (atomic_write rng (pairing_path state_dir) value 384) ;*
   st_ret value) s = (r, s') ->
  same_env s s' /\ (forall q, q <> pairing_path state_dir -> kept_file q s s') /\
  match r with
  | Ok v => v = value /\ frame [pairing_path state_dir] s s' /\
            file_at s' (pairing_path state_dir) = Some (value, masked 384 s)
  | Err _ => file_at s' (pairing_path state_dir) = file_at s (pairing_path state_dir)
  end.
Proof.
  intros [(e & H & ->)|([] & s1 & H & H2)]%st_bind_inv; apply ensure_private_dir_frame in H as Hf.
  { split; [apply Hf|]. split; [intros q Hq; eapply frame_kept; [done|set_solver]|]. apply Hf. set_solver. }
  apply st_bind_inv in H2 as [(e & H2 & ->)|([] & s2 & H2 & [= <- <-])];
    apply st_map_err_inv in H2 as (r0 & H2 & Hr); apply atomic_write_files in H2 as [He H2].
  - destruct r0 as [|e0]; [done|]. split; [etrans; [apply Hf|done]|]. split.
    + intros q Hq. etrans; [eapply frame_kept; [done|set_solver]|]. intros Hx. apply H2. by right.
    + rewrite H2 by (by left). apply Hf. set_solver.
  - destruct r0 as [[]|e0]; [|done]. destruct H2 as [H2 H3]. split; [etrans; [apply Hf|done]|].
    assert (frame [pairing_path state_dir] s s2) as Hfr.
    { etrans; [|done]. eapply frame_mono; [|done]. set_solver. }
    split; [intros q Hq; eapply frame_kept; [done|set_solver]|]. split; [done|]. split; [done|].
    rewrite H3. by rewrite (masked_same_env s s1) by apply Hf.
Qed.

Lemma read_file_at s p c m : fs_fault s CRead p = None -> file_at s p = Some (c, m) ->
  fs_read_to_string s p = if utf8_valid c then Ok c else Err InvalidData.
Proof.
  intros Hf Hp. unfold fs_read_to_string, fs_read. rewrite Hf. unfold file_at in Hp.
  destruct (nodes s !! p) as [[c' m'|]|]; simplify_eq. done.
Qed.

Lemma load_or_create_inv rng value state_dir s r s' :
  load_or_create_pairing rng value state_dir s = (r, s') ->
  same_env s s' /\ (forall q, q <> pairing_path state_dir -> kept_file q s s') /\
  match r with
  | Ok v =>
      fs_fault s CRead (pairing_path state_dir) = None /\
      ((s' = s /\ exists contents, fs_read_to_string s (pairing_path state_dir) = Ok contents /\
          v = trim contents /\ (MIN_PAIRING <= String.length v)%nat) \/
       (v = value /\ (forall contents, fs_read_to_string s (pairing_path state_dir) = Ok contents ->
                        (String.length (trim contents) < MIN_PAIRING)%nat) /\
        file_at s' (pairing_path state_dir) = Some (value, masked 384 s)))
  | Err _ => file_at s' (pairing_path state_dir) = file_at s (pairing_path state_dir)
  end.
Proof.
  unfold load_or_create_pairing. intros H. set (p := pairing_path state_dir) in *.
  assert (forall k, fs_fault s CRead p = Some k -> fs_read_to_string s p = Err (fault_kind k)) as Hk.
  { intros k E. unfold fs_read_to_string, fs_read. by rewrite E. }
  destruct (fs_read_to_string s p) as [contents|e] eqn:Er.
  - assert (fs_fault s CRead p = None) as Hnf.
    { destruct (fs_fault s CRead p) as [k|]; [by specialize (Hk k eq_refl)|done]. }
    destruct (Nat.leb_spec MIN_PAIRING (String.length (trim contents))).
    + injection H as <- <-. split; [done|]. split; [intros q _; done|]. split; [done|]. left. eauto.
    + apply create_pairing_inv in H as (He & Hq & Hr). split; [done|]. split; [done|].
      destruct r as [v|]; [|done]. destruct Hr as (-> & _ & Hf). split; [done|]. right. split; [done|].
      split; [|done]. intros c [= <-]. done.
  - assert (e = NotFound \/ e = InvalidData \/ (r = Err (context ("read " +:+ display p) (io_kind_message e)) /\ s' = s))
      as Hcase by (destruct e; injection H as <- <- || idtac; auto).
    destruct (decide (e = NotFound \/ e = InvalidData)) as [Hd|Hd].
    + assert (fs_fault s CRead p = None) as Hnf.
      { destruct (fs_fault s CRead p) as [[]|] eqn:E; [..|done]; specialize (Hk _ eq_refl); simpl in Hk; naive_solver. }
      assert (create_pairing_run : (ensure_private_dir state_dir ;*
        st_map_err (context ("write " +:+ display p)) (atomic_write rng p value 384) ;* st_ret value) s = (r, s'))
        by (destruct Hd as [-> | ->]; exact H).
      apply create_pairing_inv in create_pairing_run as (He & Hq & Hr). split; [done|]. split; [done|].
      destruct r as [v|]; [|done]. destruct Hr as (-> & _ & Hf). split; [done|]. right. split; [done|].
      split; [|done]. intros c [=].
    + destruct Hcase as [?|[?|[-> ->]]]; [naive_solver..|]. split; [done|]. split; [intros q _; done|]. done.
Qed.

(** The pairing value is a lasting secret: what a start obtains has at least 32
    bytes; a usable stored value is what it obtains, and nothing is written; a new one is
    written with the owner's permissions only, and replaces a value that is missing or
    unusable, never one that could not be read; a start that fails leaves the stored value
    as it was; no other file changes; and every later start, whatever its random bytes,
    obtains the same value as long as the file is as it was left. *)
Theorem pairing_is_kept rng value state_dir s r s' :
  load_or_create_pairing rng value state_dir s = (r, s') -> fresh_value value ->
  let p := pairing_path state_dir in
  (forall q, q <> p -> kept_file q s s') /\
  match r with
  | Ok v =>
      (MIN_PAIRING <= String.length v)%nat /\
      match fs_read_to_string s p with
      | Ok contents => if Nat.leb MIN_PAIRING (String.length (trim contents)) then v = trim contents /\ s' = s
                       else v = value /\ file_at s' p = Some (value, masked 384 s)
      | Err e => (e = NotFound \/ e = InvalidData) /\ v = value /\ file_at s' p = Some (value, masked 384 s)
      end /\
      forall rng' value' s2, fs_read s2 p = fs_read s' p ->
        load_or_create_pairing rng' value' state_dir s2 = (Ok v, s2)
  | Err _ => file_at s' p = file_at s p
  end.
Proof.
  intros H Hv p. apply load_or_create_inv in H as Hi. destruct Hi as (He & Hq & Hr). split; [done|].
  destruct r as [v|e]; [|done]. destruct Hr as [Hnf Hr].
  assert (forall c rng' value' s2, fs_read_to_string s' p = Ok c -> trim c = v -> (MIN_PAIRING <= String.length v)%nat ->
    fs_read s2 p = fs_read s' p -> load_or_create_pairing rng' value' state_dir s2 = (Ok v, s2)) as Hlater.
  { intros c rng' value' s2 Hc Ht Hlen Hsame. unfold load_or_create_pairing. unfold fs_read_to_string at 1.
    fold p. rewrite Hsame. unfold fs_read_to_string in Hc. rewrite Hc, Ht.
    by destruct (Nat.leb_spec MIN_PAIRING (String.length v)); [|lia]. }
  destruct Hr as [(-> & contents & Hc & -> & Hlen)|(-> & Hshort & Hf)].
  - split; [done|]. fold p in Hc. rewrite Hc. destruct (Nat.leb_spec MIN_PAIRING (String.length (trim contents))); [|lia].
    split; [done|]. intros rng' value' s2. by apply (Hlater contents).
  - destruct Hv as [Hu Ht Hlen]. split; [done|]. split.
    + fold p in Hshort. destruct (fs_read_to_string s p) as [c|e] eqn:Er.
      * specialize (Hshort c eq_refl). destruct (Nat.leb_spec MIN_PAIRING (String.length (trim c))); [lia|]. done.
      * split; [|done]. unfold load_or_create_pairing in H. fold p in H. rewrite Er in H. destruct e; auto; done.
    + intros rng' value' s2. apply (Hlater value); [|done..].
      rewrite (read_file_at _ _ _ _ (eq_trans (f_equal (fun f => f CRead p) (proj2 He)) Hnf) Hf). by rewrite Hu.
Qed.

(** ** A start, taken apart *)

Section start.
Context {U : UrlOps} {P : Printers} {T : SyntaxTree} {C : JsonCodec} {S : SettingsPrinter} {CC : ChoiceCodec}.
Context (parse_url : string -> result Url string) (url_str : Url -> string).
Context (from_str : string -> result DaemonConfig string).
Context (unified_diff : string -> string -> string).
Abbreviation run_daemon := (run_daemon parse_url url_str from_str unified_diff).
Abbreviation start_serving := (start_serving parse_url url_str from_str).
Abbreviation attach ev a s := (attach_llm_proxy_pairing (se_pairing_rng ev) (se_pairing ev) (ra_state_dir a)
  (fst (bind_llm_proxy (se_bind ev) (ra_llm_proxy_listen a) (ra_llm_proxy_client_id a)))
  (snd (bind_llm_proxy (se_bind ev) (ra_llm_proxy_listen a) (ra_llm_proxy_client_id a))) s).

(** What a start found before it touched the proxy. *)
Record resolved_start (ev : startup_env) (args : DaemonArgs) (socket : path) (s : fs)
    (config : DaemonConfig) (a : ResolvedDaemonArgs) : Prop := {
  rs_socket : socket = DEFAULT_SOCKET_PATH;
  rs_config : exists p, config_path_of (se_env ev) args = Ok p /\ load_daemon parse_url from_str s p = Ok config /\
    resolve (se_env ev) args (default default_startup (dm_daemon config)) p socket = Ok a;
}.

Ltac unchanged_run := eexists; split; [reflexivity|]; split; [apply frame_refl|done].

Lemma create_log_dir_inv a s r s' : create_log_dir a s = (r, s') ->
  frame [] s s' /\ (ra_once a = true -> s' = s).
Proof.
  unfold create_log_dir, log_dir_of. destruct (ra_user a), (ra_once a); simpl;
    try by intros [= <- <-].
  intros [(e & H & ->)|([] & s1 & H & H2)]%st_bind_inv; apply ensure_private_dir_frame in H; [done|].
  apply ensure_private_dir_frame in H2. split; [by etrans|done].
Qed.

Lemma run_daemon_inv ev args socket s r s' :
  run_daemon ev args socket s = (r, s') ->
  (exists e, r = Err e /\ frame [] s s' /\ (da_once args || da_dry_run args = true -> s' = s)) \/
  exists config a s1 listener info pairing s2,
    resolved_start ev args socket s config a /\ frame [] s s1 /\ (ra_once a = true -> s1 = s) /\
    attach ev a s1 = (listener, info, pairing, s2) /\
    ((exists e, r = Err e /\ s' = s2) \/
     exists exe,
       (if ra_once a then run_once unified_diff ev a config (ready_reconciler ev a exe listener pairing s2)
        else start_serving ev a config (ready_reconciler ev a exe listener pairing s2) listener info pairing) s2
       = (r, s')).
Proof.
  unfold Daemon.run_daemon. destruct (bool_decide (socket = DEFAULT_SOCKET_PATH)) eqn:Es; simpl.
  2: { intros [= <- <-]. left. unchanged_run. }
  apply bool_decide_eq_true in Es. unfold lift_result at 1. unfold st_bind at 1.
  destruct (config_path_of (se_env ev) args) as [p|e] eqn:Hp; [|intros [= <- <-]; left; unchanged_run].
  unfold lift_result at 1. unfold st_bind at 1.
  destruct (load_daemon parse_url from_str s p) as [config|e] eqn:Hl; [|intros [= <- <-]; left; unchanged_run].
  unfold lift_result at 1. unfold st_bind at 1.
  destruct (resolve _ _ _ _ _) as [a|e] eqn:Ha; [|intros [= <- <-]; left; unchanged_run].
  apply resolve_modes in Ha as Hm. destruct Hm as (Ho & _ & _).
  intros [(e & H & ->)|([] & s1 & H & H2)]%st_bind_inv; apply create_log_dir_inv in H as [Hf Hs].
  { left. exists e. split; [done|]. split; [done|]. rewrite <- Ho. apply Hs. }
  unfold lift_result at 1 in H2. unfold st_bind at 1 in H2. destruct (se_logging ev (log_dir_of a)) as [[]|e].
  2: { injection H2 as <- <-. left. exists e. split; [done|]. split; [done|]. rewrite <- Ho. apply Hs. }
  destruct (bind_llm_proxy _ _ _) as [listener0 info0] eqn:Eb. cbv beta in H2.
  destruct (attach_llm_proxy_pairing _ _ _ listener0 info0 s1) as [[[listener info] pairing] s2] eqn:Eat.
  right. exists config, a, s1, listener, info, pairing, s2. split; [split; [done|eauto]|]. split; [done|]. split; [done|].
  rewrite Eb. split; [done|].
  unfold lift_result at 1 in H2. unfold st_bind at 1 in H2. destruct (se_current_exe ev) as [exe|e]; simpl in H2.
  - right. exists exe. exact H2.
  - left. injection H2 as <- <-. eauto.
Qed.

(** ** Previews *)

Lemma attach_without ev a s : ra_llm_proxy_listen a = None -> attach ev a s = (None, None, None, s).
Proof. intros E. by rewrite E. Qed.

Lemma once_has_no_proxy ev args startup config socket a :
  resolve (se_env ev) args startup config socket = Ok a -> ra_once a = true -> ra_llm_proxy_listen a = None.
Proof.
  intros H Ho. destruct (ra_llm_proxy_listen a) as [listen|] eqn:E; [|done].
  eapply resolve_listen in H as [_ _ Hs _]; [|done]. congruence.
Qed.

(** C16. A preview changes nothing: with [--dry-run] the daemon leaves every file and
    directory as it was, however the run ends, and never goes on to serve; a successful
    one shows the plan of the reconciler that a real run with the same settings uses, for
    the local configuration as it is, without a proxy. *)
Theorem preview_changes_nothing ev args socket s r s' :
  run_daemon ev args socket s = (r, s') -> da_dry_run args = true ->
  s' = s /\
  match r with
  | Ok (Previewed text) => exists config a exe pl,
      resolved_start ev args socket s config a /\ dm_controller config = None /\
      reconcile_plan (ready_reconciler ev a exe None None s) config s = Ok pl /\
      text = render unified_diff (report pl)
  | Ok _ => False
  | Err _ => True
  end.
Proof.
  intros H Hd. apply run_daemon_inv in H as [(e & -> & _ & Hs)|(config & a & s1 & l & i & p & s2 & Hres & _ & Hs & Hat & H)].
  { split; [apply Hs; by rewrite Hd, orb_true_r|done]. }
  pose proof Hres as [Hsock (cp & Hcp & Hl & Ha)]. apply resolve_modes in Ha as Hm. destruct Hm as (Ho & Hdry & _).
  rewrite Hd, orb_true_r in Ho. rewrite Hd in Hdry. rewrite (Hs Ho) in Hat.
  rewrite attach_without in Hat by (by eapply once_has_no_proxy). injection Hat as <- <- <- <-.
  destruct H as [(e & -> & ->)|(exe & H)]; [done|]. rewrite Ho in H. unfold run_once in H. rewrite Hdry in H.
  injection H as <- <-. split; [done|]. unfold validate_dry_run.
  destruct (dm_controller config) eqn:Ec; simpl; [done|].
  destruct (reconcile_plan _ config s) as [pl|] eqn:Epl; simpl; [|done].
  exists config, a, exe, pl. done.
Qed.

(** ** What a start changes *)

Definition args_files (a : ResolvedDaemonArgs) : list path :=
  program_files (ra_claude_code a) (ra_claude_desktop a) (ra_credential_helper a) (ra_codex a) (ra_open_code a)
    (ra_open_code_plugin a) (ra_grok a) (ra_copilot_providers a) (ra_vscode_chat_models a) (ra_vscode_settings a)
    (ra_pi_models a) (ra_pi_settings a).

Lemma attach_kept ev a s listener info pairing s' q :
  attach ev a s = (listener, info, pairing, s') ->
  q <> pairing_path (ra_state_dir a) \/ ra_llm_proxy_listen a = None -> kept_file q s s'.
Proof.
  intros H [Hq|El]; [|rewrite attach_without in H by done; by injection H as <- <- <- <-]. revert H Hq.
  destruct (bind_llm_proxy _ _ _) as [[l|] i]; simpl; [|by intros [= <- <- <- <-]].
  destruct (load_or_create_pairing _ _ _ s) as [[v|e] s2] eqn:E; intros [= <- <- <- <-] Hq;
    by apply load_or_create_inv in E as (_ & H & _); apply H.
Qed.

(** The reconciler of a start applies to its programs' files only. *)
Lemma ready_applies ev a exe l p s0 s config out r' s' q :
  apply_with_report (se_rng ev) config (ready_reconciler ev a exe l p s0) s = (out, r', s') ->
  q ∉ args_files a -> kept_file q s s'.
Proof.
  intros H Hq Hex. unfold ready_reconciler, reconciler_of, with_llm_proxy, set_program_choice, new_reconciler in H.
  destruct (reconciliation_keeps _ _ _ _ _ _ _ H) as [_ Hk]. apply Hk; [|by left].
  simpl. unfold args_files, program_files in Hq. clear -Hq. set_solver.
Qed.

Lemma run_once_kept ev a config exe l p s0 s r s' q :
  run_once unified_diff ev a config (ready_reconciler ev a exe l p s0) s = (r, s') ->
  q ∉ args_files a -> kept_file q s s' /\ (ra_dry_run a = true -> s' = s).
Proof.
  unfold run_once. destruct (ra_dry_run a); [by intros [= <- <-]|].
  destruct (validate_one_shot _ _); [|by intros [= <- <-]].
  destruct (apply_with_report _ _ _ s) as [[out r1] s1] eqn:E. intros H Hq. split; [|done].
  assert (s' = s1) as -> by (destruct out as [[? []]|]; by injection H). by eapply ready_applies.
Qed.

Lemma initial_apply_kept ev a exe l p s0 initial s r s' q :
  initial_apply ev (ready_reconciler ev a exe l p s0) initial s = (r, s') ->
  q ∉ args_files a -> kept_file q s s'.
Proof.
  unfold initial_apply. destruct initial as [config|]; [|by intros [= <- <-]].
  destruct (apply_with_report _ _ _ s) as [[out r1] s1] eqn:E. intros H Hq.
  assert (s' = s1) as -> by (destruct out as [[? []]|]; by injection H). by eapply ready_applies.
Qed.

(** A start that serves, from its files once the state directory is there. *)
Lemma start_serving_inv ev a config r0 l i p s r s' :
  start_serving ev a config r0 l i p s = (r, s') ->
  (exists e, r = Err e /\ frame [] s s') \/
  exists s1, frame [] s s1 /\
    ((exists e, initial_config parse_url from_str s1 config (ra_state_dir a) = Err e /\ r = Err e /\ s' = s1) \/
     exists initial, initial_config parse_url from_str s1 config (ra_state_dir a) = Ok initial /\
       ((exists e, initial_apply ev r0 initial s1 = (Err e, s') /\ r = Err e) \/
        exists r' report d, initial_apply ev r0 initial s1 = (Ok (r', report), s') /\ r = Ok (Serving d) /\
          sg_args d = a /\ sg_config d = config /\ sg_reconciler d = r' /\ sg_listener d = l /\ sg_pairing d = p /\
          di_llm_proxy (sg_info d) = i /\ sg_report d = report /\
          sg_sign_in d = (if gateway_sign_in_wanted r0 config
            then start_gateway_authentication (fst (apply_program_choice config (rc_choice r0))) (ra_user a) (is_some l)
            else None) /\
          sg_current d = (fun c => {| cur_revision := None; cur_config := c |}) <$> initial)).
Proof.
  unfold Daemon.start_serving. intros [(e & H & ->)|([] & s1 & H & H2)]%st_bind_inv;
    apply ensure_private_dir_frame in H; [left; eauto|]. right. exists s1. split; [done|].
  cbv zeta in H2. destruct (initial_config _ _ s1 config _) as [initial|e]; [|left; injection H2 as <- <-; eauto].
  right. exists initial. split; [done|].
  apply st_bind_inv in H2 as [(e & H2 & ->)|([r1 report] & s2 & H2 & H3)]; [left; eauto|].
  right. injection H3 as <- <-. by eexists _, _, _.
Qed.

(** A start changes the programs' files and the pairing file only: whatever the
    settings, the configuration and the failures, an existing file that a run of the daemon
    up to serving changes is one of the files of the programs it was started for, with
    their markers and sidecars, or the pairing value, and that only in a user's daemon
    that is asked to listen and to stay. *)
Theorem starts_change_their_own_files ev args socket s r s' q :
  run_daemon ev args socket s = (r, s') -> is_Some (file_at s q) -> file_at s' q <> file_at s q ->
  exists config a, resolved_start ev args socket s config a /\ ra_dry_run a = false /\
    (q ∈ args_files a \/
     q = pairing_path (ra_state_dir a) /\
     exists listen, ra_llm_proxy_listen a = Some listen /\ proxy_allowed a listen).
Proof.
  intros H Hex Hne. apply run_daemon_inv in H as [(e & -> & Hf & _)|(config & a & s1 & l & i & p & s2 & Hres & Hf & Hs & Hat & H)].
  { destruct Hne. apply Hf. set_solver. }
  pose proof Hres as [Hsock (cp & Hcp & Hl & Ha)]. apply resolve_modes in Ha as Hm. destruct Hm as (Ho & Hdry & _).
  exists config, a. split; [done|].
  assert (q ∉ args_files a -> q <> pairing_path (ra_state_dir a) \/ ra_llm_proxy_listen a = None ->
          file_at s' q = file_at s q) as Hout.
  { intros Hq Hqp. assert (kept_file q s s2) as H2.
    { etrans; [eapply frame_kept; [exact Hf|set_solver]|by eapply attach_kept]. }
    enough (kept_file q s2 s') as H3 by (by apply (kept_file_trans q s s2 s')).
    destruct H as [(e & -> & ->)|(exe & H)]; [done|]. destruct (ra_once a).
    - by eapply run_once_kept in H as [H _].
    - apply start_serving_inv in H as [(e & -> & H)|(s3 & Hf3 & H)]; [eapply frame_kept; [done|set_solver]|].
      etrans; [eapply frame_kept; [exact Hf3|set_solver]|].
      destruct H as [(e & _ & _ & ->)|(initial & _ & [(e & H & _)|(r1 & rep & d & H & _)])]; [done|..];
        by eapply initial_apply_kept. }
  assert (ra_dry_run a = false) as Hnd.
  { destruct (ra_dry_run a) eqn:Ed; [|done]. destruct Hne. rewrite <- Hdry, orb_true_r in Ho.
    rewrite (Hs Ho) in Hat. rewrite attach_without in Hat by (by eapply once_has_no_proxy).
    injection Hat as <- <- <- <-. destruct H as [(e & -> & ->)|(exe & H)]; [done|]. rewrite Ho in H.
    unfold run_once in H. rewrite Ed in H. by injection H as <- <-. }
  split; [done|]. destruct (decide (q ∈ args_files a)) as [|Hq]; [by left|].
  destruct (decide (q = pairing_path (ra_state_dir a))) as [->|Hqp]; [|by destruct Hne; auto].
  right. split; [done|]. destruct (ra_llm_proxy_listen a) as [listen|] eqn:El; [|by destruct Hne; auto].
  exists listen. split; [done|]. by eapply resolve_listen.
Qed.

(** ** The proxy of the managed files *)

Lemma apply_same_context rng config r s out r' s' :
  apply_with_report rng config r s = (out, r', s') -> rc_context r' = rc_context r.
Proof.
  destruct (apply_with_report_sequence rng config r s) as (report & res & s1 & -> & _). by intros [= _ <- _].
Qed.

Lemma initial_apply_context ev r initial s r' report s' :
  initial_apply ev r initial s = (Ok (r', report), s') -> rc_context r' = rc_context r.
Proof.
  unfold initial_apply. destruct initial as [config|]; [|by intros [= <- <- <-]].
  destruct (apply_with_report _ config r s) as [[out r1] s1] eqn:E. apply apply_same_context in E.
  destruct out as [[? []]|]; intros [=]; by simplify_eq.
Qed.

Lemma run_once_serves_nothing ev a config r s d s' : run_once unified_diff ev a config r s <> (Ok (Serving d), s').
Proof.
  unfold run_once. destruct (ra_dry_run a).
  - destruct (validate_dry_run _); [|done]. by destruct (reconcile_plan _ _ _).
  - destruct (validate_one_shot _ _); [|done]. by destruct (apply_with_report _ _ _ _) as [[[[? []]|] ?] ?].
Qed.

Lemma initial_apply_choice ev r initial s r' report s' :
  initial_apply ev r initial s = (Ok (r', report), s') -> rc_choice r' = rc_choice r.
Proof.
  unfold initial_apply. destruct initial as [config|]; [|by intros [= <- <- <-]].
  destruct (apply_with_report_sequence (se_rng ev) config r s) as (? & res & ? & -> & _).
  destruct res; intros [=]; by simplify_eq.
Qed.

(** What a daemon that was asked to listen serves. *)
Record served (ev : startup_env) (d : serving) (listen : SocketAddr) (listener : Listener) (pairing : string) : Prop := {
  se_listen : ra_llm_proxy_listen (sg_args d) = Some listen;
  se_allowed : proxy_allowed (sg_args d) listen;
  se_bound : se_bind ev listen = Ok listener;
  se_listener : sg_listener d = Some listener;
  se_paired : sg_pairing d = Some pairing;
  se_info : di_llm_proxy (sg_info d) =
    Some {| lp_listen := fmt_socket (default listen (li_local_addr listener)); lp_bound := true;
            lp_client_id := ra_llm_proxy_client_id (sg_args d); lp_error := None |};
}.

Lemma attach_cases ev a s listener info pairing s' :
  attach ev a s = (listener, info, pairing, s') ->
  (listener = None /\ pairing = None /\ is_some_and lp_bound info = false) \/
  exists listen l v, ra_llm_proxy_listen a = Some listen /\ se_bind ev listen = Ok l /\
    listener = Some l /\ pairing = Some v /\
    info = Some {| lp_listen := fmt_socket (default listen (li_local_addr l)); lp_bound := true;
                   lp_client_id := ra_llm_proxy_client_id a; lp_error := None |}.
Proof.
  unfold bind_llm_proxy. destruct (ra_llm_proxy_listen a) as [listen|] eqn:El; simpl.
  2: { intros [= <- <- <- <-]. by left. }
  destruct (se_bind ev listen) as [l|e] eqn:Eb; simpl; [|intros [= <- <- <- <-]; by left].
  destruct (load_or_create_pairing _ _ _ s) as [[v|e] s2]; intros [= <- <- <- <-]; [right|by left].
  by exists listen, l, v.
Qed.

(** C10. The managed files name a proxy that the daemon serves: in a daemon that has
    started, whenever its reconciler writes a proxy address and pairing into the programs'
    files, the daemon runs for one user and stays, it owns a loopback listener at that
    very address, asks of its clients that very pairing, and says so in its description;
    and when the description says that the proxy is bound, there is a listener with a
    pairing. *)
Theorem managed_proxy_is_served ev args socket s d s' :
  run_daemon ev args socket s = (Ok (Serving d), s') ->
  (forall c, llm_proxy (rc_context (sg_reconciler d)) = Some c ->
     exists listen listener, served ev d listen listener (lpc_pairing c) /\
       li_local_addr listener = Some (lpc_address c)) /\
  (is_some_and lp_bound (di_llm_proxy (sg_info d)) = true ->
     exists listen listener pairing, served ev d listen listener pairing).
Proof.
  intros H. apply run_daemon_inv in H as [(e & [=] & _)|(config & a & s1 & l & i & p & s2 & Hres & Hf & Hs & Hat & H)].
  destruct H as [(e & [=] & _)|(exe & H)]. destruct (ra_once a) eqn:Eo.
  { by apply run_once_serves_nothing in H. }
  apply start_serving_inv in H as [(e & [=] & _)|(s3 & _ & [(e & _ & [=] & _)|(initial & _ & [(e & _ & [=])|
    (r1 & rep & d0 & Hap & [= <-] & Ha & _ & Hr & Hl & Hp & Hi & _)])])].
  apply initial_apply_context in Hap. rewrite Hr, Hap. destruct Hres as [_ (cp & _ & _ & Hrs)].
  apply attach_cases in Hat as [(-> & -> & Hb)|(listen & l1 & v & El & Eb & -> & -> & ->)].
  - split; [done|]. rewrite Hi, Hb. done.
  - assert (served ev d listen l1 v) as Hserved.
    { split; rewrite ?Ha; try done. by eapply resolve_listen. }
    split; [|eauto]. simpl. intros c Hc. destruct (li_local_addr l1) as [address|] eqn:Eaddr; [|done].
    simpl in Hc. injection Hc as <-. eauto.
Qed.

(** ** Sign-ins *)

(** A sign-in that a program managed in this mode needs. *)
Definition wanted (config : DaemonConfig) (user proxy : bool) (calls : list sign_in_call) (c : sign_in_call) : Prop :=
  let auth := dm_llm_gateway config ≫= gw_authentication in
  let oidc issuer client_id device := exists redirect_uri scopes allow_insecure,
    auth = Some (Oidc issuer client_id redirect_uri scopes allow_insecure device) in
  match c with
  | StartDevice issuer client_id => oidc issuer client_id true
  | StartOidc issuer client_id subscription github =>
      oidc issuer client_id false /\
      (subscription = true -> subscription_clients config user <> []) /\
      (is_some github = true -> proxy = true)
  | StartSubscription continue_in_browser client_id =>
      subscription_auth (dm_programs config) client_id = Some CredentialHelper /\
      (client_id = "claude-desktop" -> user = false /\ subscription_auth (dm_programs config) "claude-code" = None) /\
      (continue_in_browser = true -> exists issuer client subscription github,
         StartOidc issuer client subscription github ∈ calls)
  | StartGitHub client_id =>
      proxy = true /\ exists gateway github, dm_llm_gateway config = Some gateway /\
        gw_github_oauth gateway = Some github /\ gh_source github = DeviceFlow /\ gh_client_id github = Some client_id
  end.

Lemma subscription_clients_wanted config user client_id : client_id ∈ subscription_clients config user ->
  subscription_auth (dm_programs config) client_id = Some CredentialHelper /\
  (client_id = "claude-desktop" -> user = false /\ subscription_auth (dm_programs config) "claude-code" = None).
Proof.
  unfold subscription_clients. rewrite !elem_of_retain, bool_decide_eq_true. intros [[_ H] Hc]. split; [done|].
  intros ->. simpl in Hc. destruct user; [done|]. unfold is_none in Hc.
  by destruct (subscription_auth (dm_programs config) "claude-code").
Qed.

Lemma sign_in_inv answer c calls r calls' : sign_in answer c calls = (r, calls') -> calls' = (calls ++ [c])%list.
Proof. by intros [= _ <-]. Qed.

Lemma subscription_sign_ins_calls answer first clients calls r calls' :
  subscription_sign_ins answer first clients calls = (r, calls') ->
  exists asked, calls' = (calls ++ asked)%list /\
    forall c, c ∈ asked -> exists b client, c = StartSubscription b client /\ client ∈ clients /\ (b = true -> first = true).
Proof.
  revert first calls. induction clients as [|client clients IH]; intros first calls; simpl.
  { intros [= <- <-]. exists []. split; [by rewrite app_nil_r|set_solver]. }
  intros [(e & H & ->)|(b & s1 & H & H2)]%st_bind_inv; apply sign_in_inv in H as ->.
  - eexists. split; [done|]. intros c ->%list_elem_of_singleton. eexists _, _. split; [done|]. split; [set_solver|done].
  - apply IH in H2 as (asked & -> & Hall). exists (StartSubscription first client :: asked).
    split; [by rewrite <- app_assoc|]. intros c [->|Hc]%elem_of_cons.
    + eexists _, _. split; [done|]. split; [set_solver|done].
    + destruct (Hall c Hc) as (b' & client' & -> & Hin & Hb). eexists _, _. split; [done|]. split; [set_solver|].
      intros Hb'. by specialize (Hb Hb').
Qed.

Lemma rest_wanted config user proxy gateway answer first calls r calls' :
  dm_llm_gateway config = Some gateway ->
  let github := option_filter (fun _ => proxy) (gw_github_oauth gateway) in
  (forall c, c ∈ calls -> wanted config user proxy calls c) ->
  (first = true -> exists issuer client subscription github, StartOidc issuer client subscription github ∈ calls) ->
  (subscription_sign_ins answer first (subscription_clients config user) ;*
   match github ≫= device_flow with
   | Some client_id => sign_in answer (StartGitHub client_id) ;* st_ret tt
   | None => st_ret tt
   end) calls = (r, calls') ->
  forall c, c ∈ calls' -> wanted config user proxy calls' c.
Proof.
  intros Hg github Hbefore Hfirst H.
  assert (forall more c, wanted config user proxy calls c -> wanted config user proxy (calls ++ more) c) as Hmono.
  { intros more c. destruct c; simpl; try done. intros (H1 & H2 & H3). split; [done|]. split; [done|].
    intros Hb. destruct (H3 Hb) as (i & cl & su & gi & Hin). exists i, cl, su, gi. apply elem_of_app. by left. }
  assert (forall asked : list sign_in_call, (forall c, c ∈ asked -> exists b client, c = StartSubscription b client /\
      client ∈ subscription_clients config user /\ (b = true -> first = true)) ->
    forall more c, c ∈ asked -> wanted config user proxy (calls ++ more) c) as Hasked.
  { intros asked Hall more c Hc. destruct (Hall c Hc) as (b & client & -> & Hin & Hb).
    apply subscription_clients_wanted in Hin as [H1 H2]. split; [done|]. split; [done|].
    intros Hb'. destruct (Hfirst (Hb Hb')) as (i & cl & su & gi & Hin). exists i, cl, su, gi. apply elem_of_app. by left. }
  apply st_bind_inv in H as [(e & H & ->)|([] & s1 & H & H2)];
    apply subscription_sign_ins_calls in H as (asked & -> & Hall).
  { intros c [Hc|Hc]%elem_of_app; [by apply Hmono, Hbefore|by eapply Hasked]. }
  destruct (github ≫= device_flow) as [client_id|] eqn:Egh.
  - assert (calls' = ((calls ++ asked) ++ [StartGitHub client_id])%list) as ->.
    { by apply st_bind_inv in H2 as [(e & H2 & _)|(b & s2 & H2 & [= _ <-])]; apply sign_in_inv in H2 as ->. }
    intros c [Hc|Hc]%elem_of_app.
    + rewrite <- app_assoc. apply elem_of_app in Hc as [Hc|Hc]; [by apply Hmono, Hbefore|by eapply Hasked].
    + apply list_elem_of_singleton in Hc as ->. simpl. unfold github in Egh.
      destruct (gw_github_oauth gateway) as [gh|] eqn:Egw; [|done]. simpl in Egh. destruct proxy; [|done]. split; [done|].
      exists gateway, gh. split; [done|]. split; [done|]. simpl in Egh. unfold device_flow in Egh.
      by destruct (gh_source gh).
  - injection H2 as _ <-. intros c [Hc|Hc]%elem_of_app; [by apply Hmono, Hbefore|by eapply Hasked].
Qed.

(** A start asks the user only for sign-ins that are used: every sign-in that the task
    of a started daemon begins is for the configuration restricted to the programs the
    user chose; a subscription sign-in is for a program of it whose credential helper uses
    the subscription (for Claude Desktop only in a system daemon and without Claude Code's)
    and continues in the browser only after one there; a GitHub sign-in only with a proxy
    that listens, and for the device flow. *)
Theorem sign_ins_are_wanted ev args socket s d s' g answer r calls :
  run_daemon ev args socket s = (Ok (Serving d), s') -> sg_sign_in d = Some g ->
  run_gateway_authentication answer g [] = (r, calls) ->
  let chosen := fst (apply_program_choice (sg_config d) (rc_choice (sg_reconciler d))) in
  forall c, c ∈ calls -> wanted chosen (ra_user (sg_args d)) (is_some (sg_listener d)) calls c.
Proof.
  intros H Hg Hrun chosen.
  apply run_daemon_inv in H as [(e & [=] & _)|(config & a & s1 & l & i & p & s2 & Hres & Hf & Hs & Hat & H)].
  destruct H as [(e & [=] & _)|(exe & H)]. destruct (ra_once a) eqn:Eo.
  { by apply run_once_serves_nothing in H. }
  apply start_serving_inv in H as [(e & [=] & _)|(s3 & _ & [(e & _ & [=] & _)|(initial & _ & [(e & _ & [=])|
    (r1 & rep & d0 & Hap & [= <-] & Ha & Hc & Hr & Hl & _ & _ & _ & Hsi & _)])])].
  rewrite Hsi in Hg. destruct (gateway_sign_in_wanted _ _); [|done].
  assert (rc_choice r1 = rc_choice (ready_reconciler ev a exe l p s2)) as Hch by (by eapply initial_apply_choice).
  unfold chosen. rewrite Hc, Hr, Ha, Hl, Hch. clear chosen.
  set (chosen := fst (apply_program_choice config _)) in *. unfold start_gateway_authentication in Hg.
  destruct (dm_llm_gateway chosen) as [gateway|] eqn:Egw; [|done].
  destruct (is_none (gw_authentication gateway) && _); [done|]. injection Hg as <-.
  unfold run_gateway_authentication in Hrun. simpl in Hrun.
  assert (forall c : sign_in_call, c ∈ [] -> wanted chosen (ra_user a) (is_some l) [] c) as Hnil by set_solver.
  destruct (gw_authentication gateway) as [[audience ids|issuer client redirect scopes insecure device]|] eqn:Eauth; cycle 1.
  1: destruct device.
  - apply st_bind_inv in Hrun as [(e & Hrun & _)|(b & s4 & Hrun & [= _ <-])]; apply sign_in_inv in Hrun as ->;
      intros c ->%list_elem_of_singleton; simpl; rewrite Egw; simpl; rewrite Eauth; eauto.
  - assert (forall c, c ∈ [StartOidc issuer client (negb (bool_decide (subscription_clients chosen (ra_user a) = [])))
        (option_filter (fun _ => is_some l) (gw_github_oauth gateway) ≫= device_flow)] ->
      wanted chosen (ra_user a) (is_some l) [StartOidc issuer client (negb (bool_decide (subscription_clients chosen (ra_user a) = [])))
        (option_filter (fun _ => is_some l) (gw_github_oauth gateway) ≫= device_flow)] c) as Hoidc.
    { intros c ->%list_elem_of_singleton. simpl. rewrite Egw. simpl. rewrite Eauth. split; [eauto|]. split.
      - case_bool_decide; done.
      - destruct (gw_github_oauth gateway); [|done]. simpl. by destruct (is_some l). }
    apply st_bind_inv in Hrun as [(e & Hrun & _)|(b & s4 & Hrun & Hrest)]; apply sign_in_inv in Hrun as ->; [exact Hoidc|].
    eapply rest_wanted; [done|exact Hoidc| |exact Hrest].
    intros _. eexists _, _, _, _. apply list_elem_of_here.
  - eapply rest_wanted; [exact Egw|exact Hnil| |exact Hrun]. done.
  - eapply rest_wanted; [exact Egw|exact Hnil| |exact Hrun]. done.
Qed.

(** ** Restarts *)

Context (sha256 : string -> string).

Lemma remote_not_pairing dir : remote_config_path dir <> pairing_path dir.
Proof. unfold remote_config_path, pairing_path, path_join. simpl. intros E%app_inv_head. discriminate. Qed.

(** A daemon that serves with a configuration as its current one, applied. *)
Definition enforces (d : serving) (config : DaemonConfig) : Prop :=
  sg_current d = Some {| cur_revision := None; cur_config := config |} /\ is_some (sg_report d) = true.

Lemma applied_push_is_saved rng save_rng state_dir c dv ss status dv' ss' :
  handle_push sha256 parse_url from_str state_dir rng save_rng c dv ss = (status, dv', ss') ->
  cs_state status = StateApplied ->
  exists config m, parse_pushed_config sha256 parse_url from_str c = Ok config /\
    file_at (dv_fs dv') (remote_config_path state_dir) = Some (pc_yaml c, m).
Proof.
  intros Hpush Hst. unfold Remote.handle_push, replace_current_config in Hpush.
  destruct (parse_pushed_config _ _ _ c) as [config|e] eqn:Hparse; simpl in Hpush.
  2: { injection Hpush as <- _ _. done. }
  exists config. unfold apply_parsed in Hpush. simpl in Hpush.
  destruct (apply_with_report_sequence rng config (dv_reconciler dv) (dv_fs dv)) as (report & applied & s1 & Ew & _).
  rewrite Ew in Hpush. clear Ew. destruct applied as [u|e]; simpl in Hpush; [|injection Hpush as <- _ _; done].
  destruct (persist_config save_rng state_dir (pc_yaml c) s1) as [[u'|e] s2] eqn:E; injection Hpush as <- <- _; [|done].
  apply persist_config_files in E as [_ E]. eauto.
Qed.

(** C5. A restarted daemon enforces what the controller sent last: when the daemon
    answered a pushed configuration as applied, a later start on the files that left, with
    a controller in its local configuration and the same state directory, either fails or
    has that very configuration as its current one, applied, until the controller sends
    another. *)
Theorem restart_restores_the_push rng save_rng state_dir c dv ss status dv' ss' ev args socket d s' :
  handle_push sha256 parse_url from_str state_dir rng save_rng c dv ss = (status, dv', ss') ->
  cs_state status = StateApplied ->
  run_daemon ev args socket (dv_fs dv') = (Ok (Serving d), s') ->
  ra_state_dir (sg_args d) = state_dir -> is_some (dm_controller (sg_config d)) = true ->
  exists config, parse_pushed_config sha256 parse_url from_str c = Ok config /\ enforces d config.
Proof.
  intros Hpush Hst H Hdir Hctl.
  destruct (applied_push_is_saved _ _ _ _ _ _ _ _ _ Hpush Hst) as (config & m & Hparse & Hfile).
  exists config. split; [done|].
  apply run_daemon_inv in H as [(e & [=] & _)|(config0 & a & s1 & l & i & p & s2 & Hres & Hf & Hs & Hat & H)].
  destruct H as [(e & [=] & _)|(exe & H)]. destruct (ra_once a) eqn:Eo.
  { by apply run_once_serves_nothing in H. }
  apply start_serving_inv in H as [(e & [=] & _)|(s3 & Hf3 & [(e & _ & [=] & _)|(initial & Hin & [(e & _ & [=])|
    (r1 & rep & d0 & Hap & [= <-] & Ha & Hc & _ & _ & _ & _ & Hrep & _ & Hcur)])])].
  rewrite Ha in Hdir. rewrite Hc in Hctl.
  assert (file_at s3 (remote_config_path state_dir) = Some (pc_yaml c, m)) as Hfile3.
  { rewrite <- Hfile. enough (kept_file (remote_config_path state_dir) (dv_fs dv') s3) as Hk by (apply Hk; eauto).
    etrans; [eapply frame_kept; [exact Hf|set_solver]|].
    etrans; [eapply attach_kept; [exact Hat|]|eapply frame_kept; [exact Hf3|set_solver]].
    left. rewrite Hdir. apply remote_not_pairing. }
  unfold parse_pushed_config in Hparse. destruct (negb _); [done|]. destruct (utf8_valid (pc_yaml c)) eqn:Hutf; [|done].
  unfold initial_config in Hin. rewrite Hctl, Hdir in Hin.
  destruct (fs_fault s3 CRead (remote_config_path state_dir)) as [k|] eqn:Ek.
  { unfold fs_read_to_string, fs_read in Hin. rewrite Ek in Hin. by destruct k. }
  rewrite (read_file_at _ _ _ _ Ek Hfile3), Hutf, Hparse in Hin. injection Hin as <-.
  unfold enforces. rewrite Hcur, Hrep. clear Hcur Hrep. split; [done|]. unfold initial_apply in Hap.
  destruct (apply_with_report _ _ _ s3) as [[[[? []]|] ?] ?] eqn:E; simplify_eq; [done|].
  match type of E with apply_with_report ?g ?c ?r ?s = _ =>
    destruct (apply_with_report_sequence g c r s) as (? & ? & ? & E2 & _) end.
  rewrite E2 in E. discriminate.
Qed.
End start.
