(* ===== verification/DaemonRuns.v ===== *)
(** * Runs of a starting daemon

    Concrete instances of the theorems of [DaemonFacts.v]: a user's daemon that listens
    for the programs, and a preview. *)

From S2P Require Import Prelude Str Json Codec Fs Plan JsonMerge Config Reconcile Tick Remote Net Http Routes Credential.
From S2P Require Import UsageIngest Shared Planner ManagedFiles MarkerFiles LoopbackFiles SyntaxTree VsCodeSettings Programs.
From S2P Require Import SignIn StartupArgs Daemon DaemonFacts.

Definition demo_home_env (name : string) : option string := if String.eqb name "HOME" then Some "/home" else None.
Definition demo_listen : SocketAddr := {| sa_ip := V4 127 0 0 1; sa_port := 4100 |}.
Definition demo_startup : DaemonStartupConfig :=
  {| ds_user := true; ds_state_dir := Some state_home; ds_socket := None; ds_oidc_callback_listen := None;
     ds_claude_code := {| tcp_config := None |};
     ds_claude_desktop := {| cds_config := None; cds_credential_helper := None |};
     ds_codex := {| tcp_config := None |};
     ds_open_code := {| ocs_config := None; ocs_plugin := None |};
     ds_grok := {| tcp_config := None |}; ds_copilot := {| tcp_config := None |};
     ds_vscode := {| vss_config := None; vss_settings := None |};
     ds_pi := {| pis_models := None; pis_settings := None |};
     ds_llm_proxy := {| lps_listen := Some demo_listen; lps_client_id := None |};
     ds_usage := None; ds_reconcile_interval := None |}.
Definition demo_local : DaemonConfig :=
  {| dm_daemon := Some demo_startup; dm_controller := dm_controller demo_daemon;
     dm_llm_gateway := dm_llm_gateway demo_daemon; dm_sandbox := None; dm_telemetry := {| tl_events := [] |};
     dm_programs := demo_programs; dm_program_selection := {| allow_user_choice := true |};
     dm_inventory_interval := default_inventory_interval |}.
Definition demo_yaml (text : string) : result DaemonConfig string :=
  if String.eqb text "local" then Ok demo_local
  else if String.eqb text "pushed" then Ok codex_daemon
  else Ok default_daemon.

Definition demo_start : startup_env := {|
  se_env := demo_home_env;
  se_logging := fun _ => Ok tt;
  se_bind := fun address => Ok {| li_local_addr := Some address |};
  se_pairing := "0123456789abcdef0123456789abcdef0123456789a";
  se_current_exe := Ok (home "agentdesktop");
  se_current_dir := Ok ["/"];
  se_open_sqlite := fun _ => Ok tt;
  se_version := "1.0";
  se_pairing_rng := Z.of_nat;
  se_rng := demo_rng |}.
Definition start_files (text : string) : fs :=
  {| nodes := {[ ["/"; "home"] := Dir 493; home "config.yaml" := File text 420 ]}; umask := 18; fs_fault := no_fault |}.
Definition user_args (dry_run : bool) : DaemonArgs :=
  {| da_user := true; da_once := false; da_dry_run := dry_run; da_config := Some (home "config.yaml") |}.
Definition start (dry_run : bool) (s : fs) : result started string * fs :=
  run_daemon demo_parse_url (fun _ => "https://fleet.example/") demo_yaml (fun _ after => after) demo_start
    (user_args dry_run) DEFAULT_SOCKET_PATH s.


Lemma pairing_is_kept_witness :
  let run := load_or_create_pairing Z.of_nat (se_pairing demo_start) state_home (start_files "local") in
  fst run = Ok (se_pairing demo_start) /\
  file_at (snd run) (pairing_path state_home) = Some (se_pairing demo_start, 384) /\
  forall rng value, load_or_create_pairing rng value state_home (snd run) = (Ok (se_pairing demo_start), snd run).
Proof.
  intros run. assert (run = (Ok (se_pairing demo_start), snd run)) as E.
  { rewrite (surjective_pairing run) at 1. f_equal. }
  split; [by rewrite E|].
  destruct (pairing_is_kept Z.of_nat (se_pairing demo_start) state_home (start_files "local") _ _ E) as [_ (_ & Hr & Hk)].
  { split; vm_compute; [reflexivity..|]. apply (bool_decide_unpack _). vm_compute. exact I. }
  split; [exact (proj2 (proj2 Hr))|]. intros rng value. by apply Hk.
Defined.

Lemma start_runs dry_run s :
  run_daemon demo_parse_url (fun _ => "https://fleet.example/") demo_yaml (fun _ after => after) demo_start
    (user_args dry_run) DEFAULT_SOCKET_PATH s = (fst (start dry_run s), snd (start dry_run s)).
Proof. apply surjective_pairing. Qed.

Definition serves (s : fs) : option serving := match fst (start false s) with Ok (Serving d) => Some d | _ => None end.
Lemma served_run s : is_some (serves s) = true -> exists d, serves s = Some d /\
  run_daemon demo_parse_url (fun _ => "https://fleet.example/") demo_yaml (fun _ after => after) demo_start
    (user_args false) DEFAULT_SOCKET_PATH s = (Ok (Serving d), snd (start false s)).
Proof.
  intros H. rewrite start_runs. unfold serves in *. destruct (fst (start false s)) as [[]|]; try done. eauto.
Qed.

Lemma preview_changes_nothing_witness :
  (match fst (start true (start_files "default")) with Ok (Previewed _) => true | _ => false end) = true /\
  snd (start true (start_files "default")) = start_files "default".
Proof.
  split; [vm_compute; reflexivity|].
  pose proof (preview_changes_nothing demo_parse_url (fun _ => "https://fleet.example/") demo_yaml (fun _ after => after)
    demo_start (user_args true) DEFAULT_SOCKET_PATH (start_files "default") (fst (start true (start_files "default")))
    (snd (start true (start_files "default"))) (start_runs true (start_files "default")) eq_refl) as [H _].
  exact H.
Defined.

(** A pairing file without a usable value is there already. *)
Definition used_files : fs :=
  with_nodes (<[state_home := Dir 448]> (<[pairing_path state_home := File "short" 384]> (nodes (start_files "local"))))
    (start_files "local").
Lemma starts_change_their_own_files_witness : exists config a,
  resolved_start demo_parse_url demo_yaml demo_start (user_args false) DEFAULT_SOCKET_PATH used_files config a /\
  (pairing_path state_home ∈ args_files a \/ pairing_path state_home = pairing_path (ra_state_dir a)).
Proof.
  pose proof (starts_change_their_own_files demo_parse_url (fun _ => "https://fleet.example/") demo_yaml (fun _ after => after)
    demo_start (user_args false) DEFAULT_SOCKET_PATH used_files (fst (start false used_files)) (snd (start false used_files))
    (pairing_path state_home) (start_runs false used_files)) as H.
  destruct H as (config & a & H1 & _ & H2).
  - vm_compute. eauto.
  - vm_compute. discriminate.
  - exists config, a. split; [exact H1|]. destruct H2 as [H2|[H2 _]]; auto.
Defined.

Lemma managed_proxy_is_served_witness : exists d listener,
  serves (start_files "local") = Some d /\
  served demo_start d demo_listen listener (se_pairing demo_start) /\ li_local_addr listener = Some demo_listen.
Proof.
  destruct (served_run (start_files "local") ltac:(vm_compute; reflexivity)) as (d & Hd & E).
  assert (serves (start_files "local") ≫= (fun d => llm_proxy (rc_context (sg_reconciler d)))
          = Some {| lpc_address := demo_listen; lpc_pairing := se_pairing demo_start |}) as Hc by (vm_compute; reflexivity).
  assert (serves (start_files "local") ≫= (fun d => ra_llm_proxy_listen (sg_args d)) = Some demo_listen) as Hl
    by (vm_compute; reflexivity).
  rewrite Hd in Hc, Hl. simpl in Hc, Hl.
  pose proof (managed_proxy_is_served demo_parse_url (fun _ => "https://fleet.example/") demo_yaml (fun _ after => after)
    demo_start (user_args false) DEFAULT_SOCKET_PATH (start_files "local") d _ E) as [H _].
  destruct (H _ Hc) as (listen & listener & Hs & Ha). exists d, listener. split; [exact Hd|].
  destruct Hs as [Hs1 Hs2 Hs3 Hs4 Hs5 Hs6]. simpl in *. rewrite Hl in Hs1.
  injection Hs1 as <-. split; [split; assumption|exact Ha].
Defined.

Definition demo_answer (calls : list sign_in_call) : result bool string := Ok true.
Definition asked (d : serving) : list sign_in_call :=
  match sg_sign_in d with Some g => snd (run_gateway_authentication demo_answer g []) | None => [] end.
Lemma sign_ins_are_wanted_witness : exists d, serves (start_files "local") = Some d /\
  let chosen := fst (apply_program_choice (sg_config d) (rc_choice (sg_reconciler d))) in
  wanted chosen (ra_user (sg_args d)) (is_some (sg_listener d)) [StartSubscription false "claude-code"]
    (StartSubscription false "claude-code").
Proof.
  destruct (served_run (start_files "local") ltac:(vm_compute; reflexivity)) as (d & Hd & E).
  exists d. split; [exact Hd|].
  assert (asked <$> serves (start_files "local") = Some [StartSubscription false "claude-code"]) as Hg
    by (vm_compute; reflexivity).
  rewrite Hd in Hg. simpl in Hg. injection Hg as Hg. unfold asked in Hg. destruct (sg_sign_in d) as [g|] eqn:Es; [|discriminate Hg].
  destruct (run_gateway_authentication demo_answer g []) as [r calls] eqn:Er. simpl in Hg. subst calls.
  exact (sign_ins_are_wanted demo_parse_url (fun _ => "https://fleet.example/") demo_yaml (fun _ after => after)
    demo_start (user_args false) DEFAULT_SOCKET_PATH (start_files "local") d _ g demo_answer r _ E Es Er _ (list_elem_of_here _ _)).
Defined.

(** A configuration is pushed to a daemon, which is then started again. *)
Definition codex_push : PushedConfig := {| pc_revision := 3; pc_yaml := "pushed"; pc_sha256 := "pushed" |}.
Definition before_restart : ConfigStatus * device * session :=
  handle_push demo_hash demo_parse_url demo_yaml state_home demo_rng demo_save codex_push
    {| dv_current := None; dv_reconciler := two_writers; dv_fs := start_files "local"; dv_login := false |} connected.
Definition files_left : fs := dv_fs (snd (fst before_restart)).
Lemma before_restart_eq :
  handle_push demo_hash demo_parse_url demo_yaml state_home demo_rng demo_save codex_push
    {| dv_current := None; dv_reconciler := two_writers; dv_fs := start_files "local"; dv_login := false |} connected
  = (fst (fst before_restart), snd (fst before_restart), snd before_restart).
Proof. unfold before_restart. by destruct (handle_push _ _ _ _ _ _ _ _ _) as [[status dv] ss]. Qed.

Lemma restart_restores_the_push_witness : exists d, serves files_left = Some d /\
  sg_current d = Some {| cur_revision := None; cur_config := codex_daemon |}.
Proof.
  destruct (served_run files_left ltac:(vm_compute; reflexivity)) as (d & Hd & E).
  exists d. split; [exact Hd|].
  assert (serves files_left ≫= (fun d => Some (ra_state_dir (sg_args d))) = Some state_home) as Hdir by (vm_compute; reflexivity).
  assert (serves files_left ≫= (fun d => Some (is_some (dm_controller (sg_config d)))) = Some true) as Hctl by (vm_compute; reflexivity).
  rewrite Hd in Hdir, Hctl. simpl in Hdir, Hctl. injection Hdir as Hdir. injection Hctl as Hctl.
  assert (cs_state (fst (fst before_restart)) = StateApplied) as Hst by (vm_compute; reflexivity).
  destruct (restart_restores_the_push demo_parse_url (fun _ => "https://fleet.example/") demo_yaml (fun _ after => after)
    demo_hash demo_rng demo_save state_home codex_push _ _ _ _ _ demo_start (user_args false) DEFAULT_SOCKET_PATH d _
    before_restart_eq Hst E Hdir Hctl) as (config & Hc & Hcur & _).
  vm_compute in Hc. injection Hc as <-. exact Hcur.
Defined.

Lemma clients_find_the_daemon_witness : exists a,
  resolve demo_home_env (user_args false) default_startup (home "config.yaml") DEFAULT_SOCKET_PATH = Ok a /\
  client_socket_path demo_home_env false = ra_socket a /\
  ra_socket a = ["/"; "home"; ".local"; "state"; "agentdesktop"; "agentdesktop.sock"].
Proof.
  destruct (resolve demo_home_env (user_args false) default_startup (home "config.yaml") DEFAULT_SOCKET_PATH) as [a|e] eqn:E;
    [|discriminate E].
  exists a. split; [reflexivity|].
  pose proof (clients_find_the_daemon demo_home_env _ _ _ _ E eq_refl eq_refl) as H.
  assert (ra_user a = true) as Hu by (vm_compute in E; by injection E as <-). rewrite Hu in H.
  split; [apply H; [reflexivity|vm_compute; eauto]|]. vm_compute in E. by injection E as <-.
Defined.

Lemma system_settings_ignore_the_environment_witness : exists a,
  resolve demo_home_env {| da_user := false; da_once := false; da_dry_run := false; da_config := None |}
    default_startup DEFAULT_CONFIG_PATH DEFAULT_SOCKET_PATH = Ok a /\
  resolve (fun _ => None) {| da_user := false; da_once := false; da_dry_run := false; da_config := None |}
    default_startup DEFAULT_CONFIG_PATH DEFAULT_SOCKET_PATH = Ok a.
Proof.
  destruct (resolve demo_home_env _ default_startup DEFAULT_CONFIG_PATH DEFAULT_SOCKET_PATH) as [a|e] eqn:E;
    [|discriminate E].
  exists a. split; [reflexivity|].
  apply (system_settings_ignore_the_environment demo_home_env _ _ _ _ _ E). vm_compute in E. by injection E as <-.
Defined.
