(* ===== verification/LocalApi.v ===== *)
(** * Who may connect to the local API ([crates/agent/src/daemon.rs], Unix)

    The access a daemon gives ([local_api_access]) and the socket it binds
    ([bind_unix], [configure_socket_access]), over a file system of directories, sockets
    with their owners, and other files. Any call may be answered by a fault; user and
    group databases are arguments. *)

From S2P Require Import Prelude Str Float Fs Config StartupArgs UsageIngest.

(** ** Access *)

Inductive LocalApiAccess : Type :=
| AccessUser (uid : Z)
| AccessGroup (gid : Z)
| AccessOwner.

Definition LOCAL_API_GROUP : string := "agentdesktop".

(** [str::parse::<u32>]. *)
Definition parse_u32 (s : string) : option Z :=
  let digits := match s with String a rest => if Ascii.eqb a "+" then rest else s | EmptyString => s end in
  if is_empty digits || negb (str_all is_ascii_digit digits) then None
  else if number_of digits <=? 4294967295 then Some (number_of digits) else None.

(** [sudo_uid]; a value that is not UTF-8 has no parse. *)
Definition sudo_uid (value : option string) (effective_uid : Z) : option Z :=
  if negb (effective_uid =? 0) then None
  else option_filter (fun uid => negb (uid =? 0)) (value ≫= parse_u32).

(** [group_id] answers what [getgrnam] knows of the group. *)
Definition local_api_access (env : string -> option string) (effective_uid : Z) (group_id : string -> option Z)
  : result LocalApiAccess string :=
  if negb (effective_uid =? 0) then Ok AccessOwner
  else match sudo_uid (env "SUDO_UID") effective_uid with
       | Some uid => Ok (AccessUser uid)
       | None =>
           ok_or (AccessGroup <$> group_id LOCAL_API_GROUP)
             "root daemon requires the `agentdesktop` group; create it and add authorized desktop users, or launch with sudo to authorize the invoking user automatically"
       end.

(** ** Sockets *)

Inductive sock_node : Type :=
| SockDir
| Socket (mode uid gid : Z)
| SockOther (contents : string).
Definition is_socket (n : sock_node) : bool := match n with Socket _ _ _ => true | _ => false end.

Inductive sock_call : Type := SCreateDir | SInspect | SRemove | SBind | SChown | SChmod.

Record sock_fs : Type := {
  sk_nodes : gmap path sock_node;
  sk_umask : Z;
  sk_euid : Z;
  sk_egid : Z;
  sk_fault : sock_call -> path -> option fault;
}.
Definition with_sock_nodes (m : gmap path sock_node) (s : sock_fs) : sock_fs :=
  {| sk_nodes := m; sk_umask := sk_umask s; sk_euid := sk_euid s; sk_egid := sk_egid s; sk_fault := sk_fault s |}.

Definition sock_io (A : Type) : Type := ST sock_fs io_kind A.
Definition sock_faulty {A} (c : sock_call) (p : path) (k : sock_io A) : sock_io A :=
  fun s => match sk_fault s c p with Some f => (Err (fault_kind f), s) | None => k s end.

Definition sock_is_dir (s : sock_fs) (p : path) : bool :=
  match p with
  | [] | ["/"] => true
  | _ => match sk_nodes s !! p with Some SockDir => true | _ => false end
  end.
Definition sock_create_dir (p : path) : sock_io unit :=
  sock_faulty SCreateDir p (fun s =>
    if sock_is_dir s p then (Ok tt, s)
    else match sk_nodes s !! p with
         | Some _ => (Err AlreadyExists, s)
         | None => (Ok tt, with_sock_nodes (<[p := SockDir]> (sk_nodes s)) s)
         end).
Definition sock_create_dir_all (p : path) : sock_io unit :=
  fun s => if sock_is_dir s p then (Ok tt, s) else st_iter sock_create_dir (prefixes p) s.

(** [fs::symlink_metadata]. *)
Definition sock_inspect (s : sock_fs) (p : path) : result sock_node io_kind :=
  match sk_fault s SInspect p with
  | Some f => Err (fault_kind f)
  | None => match sk_nodes s !! p with Some n => Ok n | None => Err NotFound end
  end.
Definition sock_remove (p : path) : sock_io unit :=
  sock_faulty SRemove p (fun s =>
    match sk_nodes s !! p with
    | Some SockDir => (Err IsADirectory, s)
    | Some _ => (Ok tt, with_sock_nodes (delete p (sk_nodes s)) s)
    | None => (Err NotFound, s)
    end).
(** [UnixListener::bind] creates the socket with what the process masks; an address in
    use is none of the kinds told apart. *)
Definition sock_bind (p : path) : sock_io unit :=
  sock_faulty SBind p (fun s =>
    match sk_nodes s !! p with
    | Some _ => (Err Other, s)
    | None =>
        if sock_is_dir s (parent_or_dot p)
        then (Ok tt, with_sock_nodes (<[p := Socket (Z.ldiff 511 (sk_umask s)) (sk_euid s) (sk_egid s)]> (sk_nodes s)) s)
        else (Err NotFound, s)
    end).
Definition update_socket (f : Z * Z * Z -> Z * Z * Z) (p : path) (s : sock_fs) : result unit io_kind * sock_fs :=
  match sk_nodes s !! p with
  | Some (Socket mode uid gid) =>
      let '(mode, uid, gid) := f (mode, uid, gid) in
      (Ok tt, with_sock_nodes (<[p := Socket mode uid gid]> (sk_nodes s)) s)
  | Some _ => (Ok tt, s)
  | None => (Err NotFound, s)
  end.
Definition sock_chown (p : path) (uid gid : option Z) : sock_io unit :=
  sock_faulty SChown p (update_socket (fun '(mode, u, g) => (mode, default u uid, default g gid)) p).
Definition sock_chmod (p : path) (mode : Z) : sock_io unit :=
  sock_faulty SChmod p (update_socket (fun '(_, u, g) => (mode, u, g)) p).

Definition sock_context {A} (msg : string) (m : sock_io A) : ST sock_fs string A :=
  st_map_err (fun k => context msg (io_kind_message k)) m.

Definition configure_socket_access (p : path) (access : LocalApiAccess) : ST sock_fs string unit :=
  let* mode :=
    match access with
    | AccessUser uid =>
        sock_context ("set socket owner for " +:+ display p) (sock_chown p (Some uid) None) ;* st_ret 384
    | AccessGroup gid =>
        sock_context ("set socket group for " +:+ display p) (sock_chown p None (Some gid)) ;* st_ret 432
    | AccessOwner => st_ret 384
    end in
  sock_context ("set socket permissions on " +:+ display p) (sock_chmod p mode).

Definition create_socket_directory (p : path) : ST sock_fs string unit :=
  match parent p with
  | Some parent => sock_context ("create socket directory " +:+ display parent) (sock_create_dir_all parent)
  | None => st_ret tt
  end.
Definition remove_stale_socket (p : path) : ST sock_fs string unit :=
  fun s =>
    match sock_inspect s p with
    | Ok (Socket _ _ _) => sock_context ("remove stale socket " +:+ display p) (sock_remove p) s
    | Ok _ => (Err ("refusing to replace non-socket path " +:+ display p), s)
    | Err NotFound => (Ok tt, s)
    | Err e => (Err (context ("inspect socket " +:+ display p) (io_kind_message e)), s)
    end.

Definition bind_unix (p : path) (access : LocalApiAccess) : ST sock_fs string unit :=
  create_socket_directory p ;*
  remove_stale_socket p ;*
  sock_context ("bind socket " +:+ display p) (sock_bind p) ;*
  (fun s =>
     match configure_socket_access p access s with
     | (Ok _, s') => (Ok tt, s')
     | (Err e, s') => (Err e, snd (sock_remove p s'))
     end).

(** ** Theorems *)

(** A text is a decimal number, perhaps with a [+]. *)
Definition decimal (v : string) (n : Z) : Prop :=
  exists digits, (v = digits \/ v = String "+" digits) /\ digits <> "" /\
    str_all is_ascii_digit digits = true /\ n = number_of digits.
(** The user who called [sudo], and is not root. *)
Definition sudo_user (env : string -> option string) (uid : Z) : Prop :=
  exists v, env "SUDO_UID" = Some v /\ decimal v uid /\ 0 < uid <= 4294967295.

(** Who a daemon is open to. *)
Definition access_fits (env : string -> option string) (group_id : string -> option Z) (effective_uid : Z)
    (access : LocalApiAccess) : Prop :=
  match access with
  | AccessOwner => effective_uid <> 0
  | AccessUser uid => effective_uid = 0 /\ sudo_user env uid
  | AccessGroup gid =>
      effective_uid = 0 /\ (forall uid, ~ sudo_user env uid) /\ group_id "agentdesktop" = Some gid
  end.

Lemma parse_u32_ok s n : parse_u32 s = Some n <-> decimal s n /\ 0 <= n <= 4294967295.
Proof.
  assert (forall digits, (if is_empty digits || negb (str_all is_ascii_digit digits) then None
      else if number_of digits <=? 4294967295 then Some (number_of digits) else None) = Some n <->
    digits <> "" /\ str_all is_ascii_digit digits = true /\ n = number_of digits /\ 0 <= n <= 4294967295) as H.
  { intros digits. pose proof (number_of_range digits) as Hn.
    unfold all_digits in Hn. destruct (str_all is_ascii_digit digits) eqn:Ed; [|rewrite orb_true_r; naive_solver].
    rewrite orb_false_r. destruct digits as [|a digits]; [naive_solver|].
    destruct (Z.leb_spec (number_of (String a digits)) 4294967295); simpl; [|naive_solver lia].
    specialize (Hn eq_refl). naive_solver lia. }
  unfold parse_u32, decimal. rewrite H. destruct s as [|a s].
  - split; [by intros [? _]|]. intros [(digits & [<-|[=]] & Hne & _) _]. done.
  - destruct (Ascii.eqb_spec a "+") as [->|Hne]; split.
    + intros (? & ? & ? & ?). split; [exists s; auto|done].
    + intros [(digits & [<-|[= <-]] & ? & Hd & ?) ?]; [done|auto].
    + intros (? & ? & ? & ?). split; [eexists; auto|done].
    + intros [(digits & [<-|[= ? <-]] & ? & Hd & ?) ?]; [auto|done].
Qed.

Lemma sudo_uid_ok env uid : sudo_uid (env "SUDO_UID") 0 = Some uid <-> sudo_user env uid.
Proof.
  unfold sudo_uid, sudo_user, option_filter. simpl. destruct (env "SUDO_UID") as [v|]; simpl.
  2: { split; [done|]. by intros (v & [=] & _). }
  split.
  - destruct (parse_u32 v) as [n|] eqn:E; [|done]. destruct (Z.eqb_spec n 0); [done|]. intros [= ->].
    apply parse_u32_ok in E as [Hd Hn]. exists v. split; [done|]. split; [done|lia].
  - intros (v' & [= <-] & Hd & Hn). rewrite (proj2 (parse_u32_ok v uid)) by (split; [done|lia]).
    by destruct (Z.eqb_spec uid 0); [lia|].
Qed.

Lemma local_api_access_fits env effective_uid group_id :
  match local_api_access env effective_uid group_id with
  | Ok access => access_fits env group_id effective_uid access
  | Err _ => effective_uid = 0 /\ (forall uid, ~ sudo_user env uid) /\ group_id "agentdesktop" = None
  end.
Proof.
  unfold local_api_access. destruct (Z.eqb_spec effective_uid 0) as [->|Hne]; [|done]. simpl.
  destruct (sudo_uid _ 0) as [uid|] eqn:E; [by apply sudo_uid_ok in E|].
  assert (forall uid, ~ sudo_user env uid) as Hno by (intros uid Hu%sudo_uid_ok; congruence).
  unfold LOCAL_API_GROUP. by destruct (group_id "agentdesktop") eqn:Eg.
Qed.

(** Directories are added where nothing was. *)
Definition sock_adds_dirs (s s' : sock_fs) : Prop :=
  sk_euid s' = sk_euid s /\ sk_fault s' = sk_fault s /\
  forall q, sk_nodes s' !! q = sk_nodes s !! q \/ sk_nodes s !! q = None /\ sk_nodes s' !! q = Some SockDir.
#[global] Instance sock_adds_refl : Reflexive sock_adds_dirs.
Proof. intros s. split; [done|]. split; [done|]. auto. Qed.
#[global] Instance sock_adds_trans : Transitive sock_adds_dirs.
Proof.
  intros s1 s2 s3 (E1 & F1 & H1) (E2 & F2 & H2). split; [congruence|]. split; [congruence|]. intros q.
  destruct (H1 q) as [A|[A B]], (H2 q) as [C|[C D]]; [left|right|right|]; try split; congruence.
Qed.

Lemma sock_create_dir_adds p s r s' : sock_create_dir p s = (r, s') -> sock_adds_dirs s s'.
Proof.
  unfold sock_create_dir, sock_faulty. destruct (sk_fault s SCreateDir p); [by intros [= _ <-]|].
  destruct (sock_is_dir s p); [by intros [= _ <-]|]. destruct (sk_nodes s !! p) eqn:E; intros [= _ <-]; [done|].
  split; [done|]. split; [done|]. intros q. simpl. destruct (decide (q = p)) as [->|Hq].
  - right. by rewrite lookup_insert_eq.
  - left. by rewrite lookup_insert_ne.
Qed.
Lemma sock_create_dir_all_adds p s r s' : sock_create_dir_all p s = (r, s') -> sock_adds_dirs s s'.
Proof.
  unfold sock_create_dir_all. destruct (sock_is_dir s p); [by intros [= _ <-]|].
  generalize (prefixes p) as l. intros l. revert s. induction l as [|d l IH]; intros s; simpl; [by intros [= _ <-]|].
  intros [(e & H & _)|([] & s1 & H & H2)]%st_bind_inv; apply sock_create_dir_adds in H; [done|].
  etrans; [done|]. by apply IH.
Qed.

(** The socket a daemon serves on. *)
Definition restricted (s : sock_fs) (p : path) (access : LocalApiAccess) : Prop :=
  exists mode uid gid, sk_nodes s !! p = Some (Socket mode uid gid) /\
    match access with
    | AccessUser u => mode = 384 /\ uid = u
    | AccessGroup g => mode = 432 /\ gid = g
    | AccessOwner => mode = 384 /\ uid = sk_euid s
    end.

Lemma sock_chmod_inv p mode s r s' m u g : sk_nodes s !! p = Some (Socket m u g) -> sock_chmod p mode s = (r, s') ->
  match r with
  | Ok _ => s' = with_sock_nodes (<[p := Socket mode u g]> (sk_nodes s)) s
  | Err _ => s' = s
  end.
Proof.
  intros Hp. unfold sock_chmod, sock_faulty, update_socket. destruct (sk_fault s SChmod p); [by intros [= <- <-]|].
  rewrite Hp. by intros [= <- <-].
Qed.
Lemma sock_chown_inv p uid gid s r s' m u g : sk_nodes s !! p = Some (Socket m u g) -> sock_chown p uid gid s = (r, s') ->
  match r with
  | Ok _ => s' = with_sock_nodes (<[p := Socket m (default u uid) (default g gid)]> (sk_nodes s)) s
  | Err _ => s' = s
  end.
Proof.
  intros Hp. unfold sock_chown, sock_faulty, update_socket. destruct (sk_fault s SChown p); [by intros [= <- <-]|].
  rewrite Hp. by intros [= <- <-].
Qed.

Lemma configure_inv p access s r s' m g :
  sk_nodes s !! p = Some (Socket m (sk_euid s) g) -> configure_socket_access p access s = (r, s') ->
  (forall q, q <> p -> sk_nodes s' !! q = sk_nodes s !! q) /\ sk_fault s' = sk_fault s /\
  (exists m' u' g', sk_nodes s' !! p = Some (Socket m' u' g')) /\
  match r with Ok _ => restricted s' p access | Err _ => True end.
Proof.
  intros Hp H. unfold configure_socket_access in H.
  assert (forall mode s1 u1 g1, sk_nodes s1 !! p = Some (Socket m u1 g1) -> sk_fault s1 = sk_fault s -> sk_euid s1 = sk_euid s ->
    (forall q, q <> p -> sk_nodes s1 !! q = sk_nodes s !! q) ->
    (forall s2, sk_euid s2 = sk_euid s -> sk_nodes s2 !! p = Some (Socket mode u1 g1) -> restricted s2 p access) ->
    sock_context ("set socket permissions on " +:+ display p) (sock_chmod p mode) s1 = (r, s') ->
    (forall q, q <> p -> sk_nodes s' !! q = sk_nodes s !! q) /\ sk_fault s' = sk_fault s /\
    (exists m' u' g', sk_nodes s' !! p = Some (Socket m' u' g')) /\
    match r with Ok _ => restricted s' p access | Err _ => True end) as Hend.
  { intros mode s1 u1 g1 Hp1 Hf1 He1 Hq1 Hr1 Hc. apply st_map_err_inv in Hc as (r0 & Hc & ->).
    eapply sock_chmod_inv in Hc; [|exact Hp1]. destruct r0 as [[]|e]; subst s'; simpl.
    - split; [intros q Hq; rewrite lookup_insert_ne by done; auto|]. split; [done|].
      split; [eexists _, _, _; apply lookup_insert_eq|]. apply Hr1; [done|]. apply lookup_insert_eq.
    - eauto 10. }
  apply st_bind_inv in H as [(e & H & ->)|(mode & s1 & H & H2)].
  - destruct access as [uid|gid|]; [..|done]; apply st_bind_inv in H as [(e' & H & _)|(? & ? & _ & [=])];
      apply st_map_err_inv in H as (r0 & H & Hr); eapply sock_chown_inv in H; [|exact Hp| |exact Hp];
      destruct r0; [done|subst s'; eauto 10|done|subst s'; eauto 10].
  - destruct access as [uid|gid|].
    3: { injection H as <- <-. eapply Hend; [exact Hp|done..| |exact H2].
         intros s2 He Hn. eexists _, _, _. split; [exact Hn|]. by rewrite He. }
    all: apply st_bind_inv in H as [(e' & _ & [=])|([] & s2 & H & [= <- <-])];
      apply st_map_err_inv in H as (r0 & H & Hr); eapply sock_chown_inv in H; [|exact Hp];
      destruct r0 as [[]|]; [|done]; subst s2; refine (Hend _ (with_sock_nodes (<[p:=_]> (sk_nodes s)) s) _ _ (lookup_insert_eq _ _ _) eq_refl eq_refl _ _ H2);
      [intros q Hq; simpl; by rewrite lookup_insert_ne|];
      intros s2 He Hn; eexists _, _, _; (split; [exact Hn|]); done.
Qed.

Lemma create_socket_directory_adds p s r s' : create_socket_directory p s = (r, s') -> sock_adds_dirs s s'.
Proof.
  unfold create_socket_directory. destruct (parent p) as [d|]; [|by intros [= _ <-]].
  intros (r0 & H & _)%st_map_err_inv. by apply sock_create_dir_all_adds in H.
Qed.

(** Only a socket is removed, and only to free its path. *)
Lemma remove_stale_socket_inv p s r s' : remove_stale_socket p s = (r, s') ->
  match r with
  | Ok _ => sk_euid s' = sk_euid s /\ sk_fault s' = sk_fault s /\ sk_nodes s' !! p = None /\
            (forall q, q <> p -> sk_nodes s' !! q = sk_nodes s !! q) /\
            (forall n, sk_nodes s !! p = Some n -> is_socket n = true)
  | Err _ => s' = s
  end.
Proof.
  unfold remove_stale_socket, sock_inspect. destruct (sk_fault s SInspect p) as [[]|]; [by intros [= <- <-]..|].
  destruct (sk_nodes s !! p) as [[|m u g|c]|] eqn:Ep; try by intros [= <- <-].
  - intros (r0 & H & ->)%st_map_err_inv. unfold sock_remove, sock_faulty in H.
    destruct (sk_fault s SRemove p); [by injection H as <- <-|]. rewrite Ep in H. injection H as <- <-. simpl.
    do 2 (split; [done|]). split; [apply lookup_delete_eq|].
    split; [intros q Hq; by rewrite lookup_delete_ne|]. by intros n [= <-].
Qed.

Lemma sock_bind_inv p s r s' : sock_bind p s = (r, s') -> sk_nodes s !! p = None ->
  match r with
  | Ok _ => sk_euid s' = sk_euid s /\ sk_fault s' = sk_fault s /\
            (exists m g, sk_nodes s' !! p = Some (Socket m (sk_euid s) g)) /\
            (forall q, q <> p -> sk_nodes s' !! q = sk_nodes s !! q)
  | Err _ => s' = s
  end.
Proof.
  unfold sock_bind, sock_faulty. intros H Hp. rewrite Hp in H. destruct (sk_fault s SBind p); [by injection H as <- <-|].
  destruct (sock_is_dir s (parent_or_dot p)); injection H as <- <-; [|done]. simpl.
  do 2 (split; [done|]). split; [eexists _, _; apply lookup_insert_eq|]. intros q Hq. by rewrite lookup_insert_ne.
Qed.

Lemma sock_remove_inv p s : (forall q, q <> p -> sk_nodes (snd (sock_remove p s)) !! q = sk_nodes s !! q) /\
  ((exists m u g, sk_nodes s !! p = Some (Socket m u g)) ->
   sk_nodes (snd (sock_remove p s)) !! p = None \/ is_some (sk_fault s SRemove p) = true).
Proof.
  unfold sock_remove, sock_faulty. destruct (sk_fault s SRemove p); [by auto|].
  destruct (sk_nodes s !! p) as [[]|] eqn:E; (split; [intros q Hq|intros (m & u & g & [=])]); simpl; try done.
  all: try by rewrite lookup_delete_ne. left. apply lookup_delete_eq.
Qed.

(** C12. The local API is open to those it is meant for, and takes no file away: a daemon
    of root serves the user [SUDO_UID] names, who is not root, or else the members of the
    group [agentdesktop], and does not start without either; any other daemon serves its
    own user. When the socket is bound it carries exactly that owner or group and the
    permissions of the owner, or of the owner and the group; when binding fails, no socket
    that the daemon bound is left unless removing it failed too; whatever is not a socket
    at its path stays as it is; and nothing changes elsewhere but directories that are
    created. *)
Theorem local_api_is_restricted env group_id p s :
  match local_api_access env (sk_euid s) group_id with
  | Err _ => sk_euid s = 0 /\ (forall uid, ~ sudo_user env uid) /\ group_id "agentdesktop" = None
  | Ok access =>
      access_fits env group_id (sk_euid s) access /\
      forall r s', bind_unix p access s = (r, s') ->
      (forall q, q <> p -> sk_nodes s' !! q = sk_nodes s !! q \/ sk_nodes s !! q = None /\ sk_nodes s' !! q = Some SockDir) /\
      (forall n, sk_nodes s !! p = Some n -> is_socket n = false -> sk_nodes s' !! p = Some n) /\
      match r with
      | Ok _ => restricted s' p access
      | Err _ => sk_nodes s' !! p = sk_nodes s !! p \/ sk_nodes s' !! p = None \/ sk_nodes s' !! p = Some SockDir \/
                 is_some (sk_fault s SRemove p) = true
      end
  end.
Proof.
  pose proof (local_api_access_fits env (sk_euid s) group_id) as Ha.
  destruct (local_api_access env (sk_euid s) group_id) as [access|]; [|done]. split; [done|].
  intros r s' H.
  apply st_bind_inv in H as [(e & H & ->)|([] & s1 & H & H1)]; apply create_socket_directory_adds in H as (He & Hf & Hd).
  { split; [auto|]. split; [|destruct (Hd p) as [|[_ ?]]; auto]. intros n Hn _. destruct (Hd p) as [->|[]]; congruence. }
  apply st_bind_inv in H1 as [(e & H1 & ->)|([] & s2 & H1 & H2)]; apply remove_stale_socket_inv in H1.
  { subst s'. split; [auto|]. split; [|destruct (Hd p) as [|[_ ?]]; auto]. intros n Hn _. destruct (Hd p) as [->|[]]; congruence. }
  destruct H1 as (He2 & Hf2 & Hp2 & Hq2 & Hsock).
  assert (forall n, sk_nodes s !! p = Some n -> is_socket n = false -> sk_nodes s' !! p = Some n) as Hkeep.
  { intros n Hn Hs. assert (is_socket n = true); [|congruence]. apply Hsock. destruct (Hd p) as [->|[]]; congruence. }
  assert (forall q (s3 : sock_fs), (forall q, q <> p -> sk_nodes s3 !! q = sk_nodes s2 !! q) -> q <> p ->
    sk_nodes s3 !! q = sk_nodes s !! q \/ sk_nodes s !! q = None /\ sk_nodes s3 !! q = Some SockDir) as Hout.
  { intros q s3 Hs3 Hq. rewrite Hs3, Hq2 by done. apply Hd. }
  apply st_bind_inv in H2 as [(e & H2 & ->)|([] & s3 & H2 & H3)]; apply st_map_err_inv in H2 as (r0 & H2 & Hr);
    apply sock_bind_inv in H2; [|done| |done]; destruct r0 as [[]|]; try discriminate Hr.
  { subst s'. split; [intros q Hq; by apply (Hout q s2)|]. auto. }
  destruct H2 as (He3 & Hf3 & (m & g & Hp3) & Hq3). rewrite <- He3 in Hp3.
  destruct (configure_socket_access p access s3) as [r4 s4] eqn:Ec in H3.
  apply (configure_inv _ _ _ _ _ m g) in Ec as (Hq4 & Hf4 & Hp4 & Hr4); [|done].
  assert (forall q, q <> p -> sk_nodes s4 !! q = sk_nodes s2 !! q) as Hq42 by (intros q Hq; rewrite Hq4; auto).
  destruct r4 as [[]|e4]; injection H3 as <- <-; [split; [intros q Hq; by apply (Hout q s4)|done]|].
  destruct (sock_remove_inv p s4) as [Hq5 Hp5].
  split; [intros q Hq; apply Hout; [|done]; intros q' Hq'; rewrite Hq5; auto|]. split; [done|].
  rewrite <- Hf, <- Hf2, <- Hf3, <- Hf4. destruct (Hp5 Hp4); auto.
Qed.

(** ** A run *)

Definition demo_socket_path : path := ["/"; "run"; "agentdesktop.sock"].
Definition demo_sockets : sock_fs :=
  {| sk_nodes := {[ demo_socket_path := Socket 448 0 0; ["/"; "run"] := SockDir ]}; sk_umask := 18; sk_euid := 0;
     sk_egid := 0; sk_fault := fun _ _ => None |}.
Definition sudo_env (name : string) : option string := if String.eqb name "SUDO_UID" then Some "1000" else None.
Lemma local_api_is_restricted_witness :
  let run := bind_unix demo_socket_path (AccessUser 1000) demo_sockets in
  sudo_user sudo_env 1000 /\ fst run = Ok tt /\ restricted (snd run) demo_socket_path (AccessUser 1000).
Proof.
  intros run. assert (run = (Ok tt, snd run)) as E by (rewrite (surjective_pairing run) at 1; f_equal; vm_compute; reflexivity).
  destruct (local_api_is_restricted sudo_env (fun _ => None) demo_socket_path demo_sockets) as [[_ Hu] Hb].
  split; [exact Hu|]. split; [by rewrite E|]. exact (proj2 (proj2 (Hb _ _ E))).
Defined.
